(* ===== verification/_CoqProject ===== *)
-Q . S2P
Prelude.v
GoText.v
Tables.v
GoTime.v
GoFloat.v
GoDecimal.v
PriceTables.v
Schema.v
Plans.v
Windows.v
Cycles.v
Consume.v
Accounting.v
Ledger.v
Limits.v
Preferences.v
Cards.v
Purchases.v
Lifecycle.v
Topups.v
Svip.v
Affiliates.v
Orders.v
Redemptions.v
Ldxp.v
Shop.v
System.v
Wallet.v
Groups.v
Channels.v
Ratios.v
Expressions.v
Prices.v
Billing.v
Sessions.v
Quotas.v
Costs.v
Slots.v
Entitlement.v
Midjourney.v
Tasks.v
Checkins.v
Idempotency.v
