(* ===== verification/Prelude.v ===== *)
(** * The billing core of the gateway

    The repository is an API gateway for language models: it relays requests to
    upstream providers and charges for them.  A request is paid from the wallet of
    its user, from a subscription, or from a value package, which is a subscription
    with a total, a five-hour and a seven-day limit, reset cards and a limit on
    concurrent requests; the API token of the request is charged alongside.  This
    library models that money: what plans mean, how packages are bought, charged,
    reset and expired, how payments and codes become quota, commissions and
    packages, how wallets and tokens change, what a request costs, how it is paid from
    start to end, who may send it and which upstream channel serves it, and how long-running
    tasks are settled or refunded.

    ** How the code is represented

    - Integers are Go's 64-bit [int] and [int64]: a [Z] with the wrap-around written
      out ([+!], [-!], [*!] on [wrap64], below).  Prices are whole millionths; ratios
      and commissions, which the code multiplies as [float64], are IEEE 754 binary64
      ([GoFloat.v]).  Times are Unix seconds ([GoTime.v]).
    - A gorm table is the list of its rows with the next key ([Tables.v]); [DB]
      ([Schema.v]) is the record of all tables, and the [BeforeCreate] and
      [BeforeUpdate] hooks are part of the statements that run them.
    - Code that returns [(A, error)] and changes state [S] is a computation
      [M S A := S → result A * S]; an error keeps the changes made before it, and
      [transaction] (gorm's [DB.Transaction]) rolls them back.  [Tx] works on the
      database, [W] adds the stores of batched updates ([Wallet.v]), [B] adds the
      request and its billing session ([Billing.v]).  [wp] is their weakest
      precondition, with the tactics [wp_step], [wp_guard] and [wp_pass]; [keeps] and
      [preserves] are frame conditions.
    - Clocks, the location and the quota per unit of money are the record [Env], an
      argument; so are the iteration order of Go maps ([shuffle], any permutation),
      the JSON decoder, the decimal package ([Decimals], with the laws it documents in
      [GoDecimal.v]), the compiler and the machine of price expressions ([ExprEngine]),
      the database's sum of a column of floats ([SUM]), and random identifiers and
      draws.
    - Row locks serialise the transactions on one subscription, and a mutex those on a
      billing session, so each exported operation of the database layer is one step.
      Where requests meet between the statements of one operation they are interleaved:
      the concurrency slots are a step relation over the single operations of threads
      ([Slots.v]), and so are the workers that refund picture tasks, a step being one
      transaction ([Midjourney.v]); a check-in is the list of its statements, run in any
      schedule ([Checkins.v]), and so is a call with an idempotency key ([Idempotency.v]).

    ** The files and the code they model

    - [Prelude.v], [GoText.v], [Tables.v], [GoTime.v], [GoFloat.v], [GoDecimal.v]: records,
      integers, strings, errors, computations; UTF-8 text; tables; the parts of Go's [time]
      package, of [float64] and of decimals that the code uses.
    - [Schema.v]: rows and database of [model/subscription.go], [model/topup.go],
      [model/user.go], [model/token.go], [model/channel.go], [model/affiliate.go],
      [model/redemption.go], [model/svip.go], [model/ability.go], [model/midjourney.go],
      [model/task.go], [model/checkin.go], [model/ldxp_topup.go].
    - [Plans.v]: [normalizeValuePackagePlan], [calcPlanEndTime], [calcNextResetTime]
      and the other pure functions on plans.
    - [Windows.v]: usage in the five-hour and seven-day windows
      ([buildValuePackageWindowUsageDetailsFromRecords]) and the usage summary,
      with [model/value_package_periods.go].
    - [Cycles.v]: [maybeAdvanceValuePackageCycleTx],
      [maybeResetUserSubscriptionWithPlanTx], [ResetDueSubscriptions].
    - [Consume.v]: [PreConsumeUserSubscription], [PreConsumeValuePackageSubscription],
      [ReserveValuePackageUsageToTarget], [PostConsumeUserSubscriptionDelta],
      [RefundSubscriptionPreConsume]; its proofs are in [Accounting.v] (the invariant),
      [Ledger.v] (each operation case by case) and [Limits.v] (what clients rely on).
    - [Preferences.v]: which package pays, and the reset cards; proofs in [Cards.v].
    - [Purchases.v]: [CreateValuePackageSubscriptionFromPlanTx] and what it decides.
    - [Lifecycle.v]: orders, wallet purchases, user groups, cancellation,
      [ExpireDueSubscriptions].
    - [Topups.v]: the completion of top-ups ([Recharge], [ManualCompleteTopUp] and the
      other providers of [model/topup.go]), the lifetime totals of [model/svip.go] and
      the commissions of [model/affiliate.go]; [Svip.v]: [backfillUserValidTopupCents];
      [Affiliates.v]: the summary and the withdrawals of an inviter.
    - [Orders.v]: [CompleteValuePackageOrder].
    - [Redemptions.v]: [model/redemption.go].
    - [Ldxp.v]: payments through the linked shop, where workers buy for users and mails
      confirm it: [model/ldxp_topup.go], [service/ldxp_session.go],
      [service/ldxp_verify.go], the storing and matching of [service/ldxp_mail.go], and the
      administrator's check of mails in [service/order_mail_check_job.go]; proofs in
      [Shop.v].
    - [System.v]: runs of the operations on packages, orders, codes and commissions
      ([billing_run]).  Settlements of tasks may change the amount used of a package behind
      its usage records; the class [PostBilled] names the subscriptions that were billed so,
      none by default, for which the invariant keeps its bounds only.
    - [Wallet.v]: quota of users, tokens and channels with [model/utils.go]'s batch
      updates.
    - [Groups.v]: [setting/ratio_setting/group_ratio.go], [setting/user_usable_group.go],
      [setting/auto_group.go], [service/group.go].
    - [Channels.v]: which channel serves a request: [model/ability.go],
      [model/channel_cache.go], [service/channel_select.go] and the loop of retries of
      [controller/relay.go].
    - [Ratios.v]: the request ([RelayInfo], [PriceData]) and
      [service/billing_ratio.go].
    - [PriceTables.v]: the built-in prices and ratios of [setting/ratio_setting];
      [Prices.v]: their look-ups and updates, the prices of tools
      ([setting/operation_setting/tools.go]) and the price of a request before it is sent
      ([relay/helper/price.go]); [Expressions.v]: prices by expressions, [pkg/billingexpr]
      and [setting/billing_setting].
    - [Quotas.v]: what an answer costs: [service/text_quota.go], [service/tiered_settle.go],
      [service/tool_billing.go], [service/quota.go], [service/violation_fee.go]; proofs in
      [Costs.v].
    - [Billing.v]: [service/billing_session.go], [service/funding_source.go] (an
      interface, here the class [FundingSource] with its two implementations),
      [service/billing.go], [service/pre_consume_quota.go] and the quota changes of
      [service/quota.go]; proofs in [Sessions.v].
    - [Slots.v] and [Entitlement.v]: [middleware/value_package.go] and the fields of the
      request it fills ([genBaseRelayInfo]).
    - [Midjourney.v]: refunds of picture tasks, [model/midjourney.go] and
      [service/midjourney_billing.go].
    - [Tasks.v]: settlement and refunds of video and music tasks,
      [service/task_billing.go], [service/task_polling.go] and [model/task.go].
    - [Checkins.v]: [model/checkin.go] with
      [setting/operation_setting/checkin_setting.go].
    - [Idempotency.v]: the idempotency coordinator of the service that is shipped beside
      the program, [infra/sub2api/backend/internal/service/idempotency.go] with its
      repository and the redaction of what it stores.

    ** What the theorems show

    - Packages ([Accounting.v] to [Limits.v], [System.v]): in every run the amount used
      of a package is the total of its usage records of the current epoch, unless a task
      was settled on it, a request is recorded once and a package with a total is never
      overdrawn; an accepted request
      leaves all three limits kept; retries are not charged again; a reservation books
      its target; a refund gives back what was charged, once; cards equal their ledger;
      no top-up earns two commissions.
    - Time ([Plans.v], [Windows.v], [Cycles.v]): the windows against reference
      definitions, cycles that contain the present however late the check runs, the
      exact bounds within which durations do not overflow, and what happens outside.
    - Purchases and life ([Purchases.v], [Lifecycle.v]): one package in force after a
      purchase, time added exactly, lower levels refused, orders completed once and
      priced right, the expiry task complete, groups raised and given back.
    - Payments ([Topups.v], [Svip.v], [Affiliates.v], [Orders.v], [Redemptions.v]): a
      top-up is credited once, by whichever of the six calls comes first, and a payable
      one is credited; the lifetime totals agree with the history of payments after the
      reconciliation, which is then idle; a withdrawal is covered, frozen and decided
      once; a paid package order is honoured in full and booked once; a code delivers
      what it carries to whoever presents it first.
    - The linked shop ([Shop.v]): no two sessions succeed with one order number, whatever
      is asked for in whatever order; a session that succeeds has credited its top-up
      once, completed the order of its package, or redeemed its card for its user, and
      one that does not changes nothing else.
    - Wallets ([Wallet.v]): batched updates are equivalent to direct ones.
    - Requests ([Sessions.v]): a settled wallet session has charged exactly the cost, a
      refunded one nothing (but for the playground, see below), a session that cannot be
      opened leaves no trace.
    - Costs ([Costs.v], [Prices.v], [Expressions.v]): a request is priced as configured or
      refused; the quota of an answer is the sum of its parts at their ratios, within
      bounds and rounded once, and it is what the wallet, the token, the counters and the
      log show; an exact estimate is settled at itself; the cache of expressions cannot be
      seen; the longest prefix decides the price of a tool.
    - Ratios ([Groups.v], [Ratios.v], [Entitlement.v]): ratios are finite and not
      negative after any updates, maps are visited without regard to order, the ratios
      shown are those billed, and the ratio of a request does not change once applied.
    - Admission ([Entitlement.v], [Slots.v]): a request the middleware diverts could not
      have been paid by the package; the slots held for a package never exceed its limit
      in any interleaving, nobody is refused without reason, counters do not leak and
      threads do not block each other for good.
    - Channels ([Channels.v]): the channel chosen is enabled, serves the group and the
      model and is of the priority of the retry, with chances in proportion to weights;
      the retries of a request end.
    - Tasks ([Midjourney.v], [Tasks.v]): whatever workers do at the same time and wherever
      they stop, what a failed picture task owes and what was paid back add up, and a
      refund that was interrupted is completed by the next run; the end of a task is
      billed once, and a settlement leaves the task charged with its actual quota.
    - Check-ins ([Checkins.v]): one award a day on either kind of database, in whatever
      order the statements of requests arrive, within the configured range.
    - Idempotency ([Idempotency.v]): the handler of a key is never run twice at the same
      time nor again after it has succeeded, and later calls get what was stored.

    Some theorems document defects or comments that differ from the code:
    [calcPlanEndTime_overflow], [maybeResetUserSubscription_diverges],
    [repurchase_keeps_group], [playground_refund_lost], [suno_refunds_again],
    [package_task_unbalanced], [legacy_cutoff_2025], [auto_group_not_left],
    [first_ability_favoured], [checkin_range_inverted], [mail_check_pays_twice],
    [numeric_429_fails], [fixed_price_audio_free], [realtime_price_ignored],
    [sonar_large_is_free], [refused_update_clears_prices], [gpt35_ratio_unreachable],
    [tool_price_depends_on_order], [empty_answer_charged], [message_marker_missed],
    [cache_write_total_not_sum] and [stale_processing_blocks].

    ** Bounds and fuel

    Loops over lists and maps are structural.  Two loops have fuel: the search for the next
    reset, for which [maybeResetUserSubscription_returns] gives an amount that is enough
    for every plan whose period fits [time.Duration], and the retries of a request, for
    which the bound on the number of attempts in [Channels.v] is enough; the error
    [ErrDiverges] stands for a call that does not return.  Hypotheses that bound amounts ([room],
    [affordable], [in_int64]) keep sums within 64 bits.

    ** Not modelled

    - Reading a mailbox and the text of mails, the configuration of the shop, and the
      administration of orders ([model/order_management.go]), which lists and hides
      orders but moves no quota.
    - Channels with several keys, tags of channels, [CacheUpdateChannel], which nothing
      calls, and the classification of the errors of upstreams: a retry is allowed or
      not by an argument.
    - Polling of upstreams and the decoding of their answers: a report on a task is an
      argument.
    - Redis as a cache, and the plan cache: transparent to the callers.  Logs,
      notifications and the amounts in the texts of errors.
    - Listings, statistics and data migrations: queries for display and one-off jobs.
    - HTTP routing and rendering, and the relay adaptors, which are network I/O and
      conversion between protocols; the rest of [infra/sub2api], a service of its own. *)
From stdpp Require Export base tactics list sorting strings gmap pretty.
From Stdlib Require Export ZArith Lia Ascii.
Open Scope Z_scope.

(** ** Functional record update *)

(** [Settable R] holds the eta expansion of the record [R]; the setter of a
    projection is found by abstracting that projection in it. *)
Class Settable (R : Type) : Type := eta_record : R → R.
Class Setter {R E : Type} (proj : R → E) : Type := update_field : (E → E) → R → R.
Global Arguments update_field {R E} proj {_} _ _ /.

Ltac derive_setter :=
  match goal with
  | |- @Setter ?R ?E ?proj =>
    let inst := constr:(_ : Settable R) in
    let body := eval hnf in (@eta_record R inst) in
    match eval pattern proj in body with
    | ?abstracted _ =>
      let r := eval cbv beta in (λ f : E → E, abstracted (λ x : R, f (proj x))) in
      exact r
    end
  end.
Global Hint Extern 1 (Setter _) => derive_setter : typeclass_instances.

Declare Scope record_scope.
Open Scope record_scope.
Notation "r <| proj := v |>" := (update_field proj (λ _, v) r)
  (at level 1, left associativity, v at level 99, format "r <| proj  :=  v |>") : record_scope.
Notation "r <| proj ::= f |>" := (update_field proj f r)
  (at level 1, left associativity, f at level 99, format "r <| proj  ::=  f |>") : record_scope.

(** ** Go's 64-bit integers

    [int] and [int64] are 64 bits wide on every platform the program is built
    for.  A value is a [Z]; [wrap64] is the two's complement wrap-around that
    Go's [+], [-] and [*] perform, and [/] truncates towards zero. *)

Abbreviation max_int64 := 9223372036854775807%Z.
Abbreviation min_int64 := (-9223372036854775808)%Z.
Definition in_int64 (z : Z) : Prop := min_int64 ≤ z ≤ max_int64.
Global Instance in_int64_dec z : Decision (in_int64 z) := _.

Definition wrap64 (z : Z) : Z :=
  (z + 9223372036854775808) mod 18446744073709551616 - 9223372036854775808.

Declare Scope go_scope.
Delimit Scope go_scope with go.
Open Scope go_scope.
Notation "x +! y" := (wrap64 (x + y)) (at level 50, left associativity) : go_scope.
Notation "x -! y" := (wrap64 (x - y)) (at level 50, left associativity) : go_scope.
Notation "-! x" := (wrap64 (- x)) (at level 35, right associativity) : go_scope.
Notation "x *! y" := (wrap64 (x * y)) (at level 40, left associativity) : go_scope.
Notation "x /! y" := (wrap64 (Z.quot x y)) (at level 40, left associativity) : go_scope.

Lemma wrap64_id z : in_int64 z → wrap64 z = z.
Proof. unfold in_int64, wrap64. intros. rewrite Z.mod_small; lia. Qed.

Lemma wrap64_range z : in_int64 (wrap64 z).
Proof.
  unfold in_int64, wrap64.
  pose proof (Z.mod_pos_bound (z + 9223372036854775808) 18446744073709551616). lia.
Qed.

Lemma wrap64_wrap64_add z w : wrap64 (wrap64 z + w) = wrap64 (z + w).
Proof.
  unfold wrap64. f_equal.
  replace ((z + 9223372036854775808) `mod` 18446744073709551616 - 9223372036854775808 + w
           + 9223372036854775808)
    with ((z + 9223372036854775808) `mod` 18446744073709551616 + w) by lia.
  rewrite Zplus_mod_idemp_l. f_equal. lia.
Qed.

(** [unwrap] removes every wrap-around that [lia] can show not to happen. *)
Ltac unwrap :=
  repeat match goal with
  | |- context [wrap64 ?e] => rewrite (wrap64_id e) by (unfold in_int64 in *; lia)
  | H : context [wrap64 ?e] |- _ => rewrite (wrap64_id e) in H by (unfold in_int64 in *; lia)
  end.

(** ** Strings *)

Open Scope string_scope.
Open Scope list_scope.
Open Scope Z_scope.

(** [unicode.IsSpace], on the UTF-8 encodings: one byte, two bytes
    (U+0085, U+00A0) and three bytes (U+1680, U+2000-U+200A, U+2028, U+2029,
    U+202F, U+205F, U+3000). *)
Definition space1 (a : ascii) : bool :=
  let n := Ascii.nat_of_ascii a in ((9 <=? n) && (n <=? 13) || (n =? 32))%nat.
Definition space2 (a b : ascii) : bool :=
  let m := Ascii.nat_of_ascii a in let n := Ascii.nat_of_ascii b in
  ((m =? 194) && ((n =? 133) || (n =? 160)))%nat.
Definition space3 (a b c : ascii) : bool :=
  let m := Ascii.nat_of_ascii a in let n := Ascii.nat_of_ascii b in
  let k := Ascii.nat_of_ascii c in
  ((m =? 225) && (n =? 154) && (k =? 128)
   || (m =? 226) && (n =? 128) && ((128 <=? k) && (k <=? 138) || (k =? 168) || (k =? 169) || (k =? 175))
   || (m =? 226) && (n =? 129) && (k =? 159)
   || (m =? 227) && (n =? 128) && (k =? 128))%nat.

(** Drop the leading space encodings of a byte sequence. *)
Fixpoint trim_front (s2 : ascii → ascii → bool) (s3 : ascii → ascii → ascii → bool)
    (s : list ascii) : list ascii :=
  match s with
  | [] => []
  | a :: t =>
    if space1 a then trim_front s2 s3 t
    else match t with
         | [] => s
         | b :: u =>
           if s2 a b then trim_front s2 s3 u
           else match u with
                | [] => s
                | c :: v => if s3 a b c then trim_front s2 s3 v else s
                end
         end
  end.

(** [strings.TrimSpace]. *)
Definition TrimSpace (s : string) : string :=
  String.string_of_list_ascii
    (reverse (trim_front (flip space2) (λ a b c, space3 c b a)
       (reverse (trim_front space2 space3 (String.list_ascii_of_string s))))).

Section TrimFacts.
Variables (s2 : ascii → ascii → bool) (s3 : ascii → ascii → ascii → bool).
Local Abbreviation trim := (trim_front s2 s3).

(** One unfolding of [trim_front]: either nothing is dropped, or one, two or
    three bytes are and the rest is trimmed. *)
Lemma trim_front_cases l :
  trim l = l ∨ ∃ k m, l = k ++ m ∧ k ≠ [] ∧ trim l = trim m.
Proof.
  destruct l as [|a t]; [by left|]. simpl. destruct (space1 a); [right; by exists [a], t|].
  destruct t as [|b u]; [by left|]. destruct (s2 a b); [right; by exists [a; b], u|].
  destruct u as [|c v]; [by left|]. destruct (s3 a b c); [right; by exists [a; b; c], v|by left].
Qed.

Lemma trim_front_suffix l : trim l `suffix_of` l.
Proof.
  induction l as [l IH] using (induction_ltof1 _ length). unfold ltof in IH.
  destruct (trim_front_cases l) as [->|(k & m & -> & Hk & ->)]; [done|].
  trans m; [apply IH|by apply suffix_app_r].
  rewrite length_app. destruct k; [done|simpl; lia].
Qed.

Lemma trim_front_idem l : trim (trim l) = trim l.
Proof.
  induction l as [l IH] using (induction_ltof1 _ length). unfold ltof in IH.
  destruct (trim_front_cases l) as [E|(k & m & -> & Hk & ->)]; [by rewrite !E|].
  apply IH. rewrite length_app. destruct k; [done|simpl; lia].
Qed.

(** A prefix of a sequence without leading space has none either. *)
Lemma trim_front_prefix k l : trim l = l → k `prefix_of` l → trim k = k.
Proof.
  intros Hl [m ->]. destruct k as [|a [|b [|c k]]]; [done|..]; simpl in *.
  all: assert (∀ n l', trim l' = n ++ l' → n = []) as Hshort
    by (intros n l' Hn; pose proof (suffix_length _ _ (trim_front_suffix l')) as Hlen;
        rewrite Hn, length_app in Hlen; destruct n; [done|simpl in Hlen; lia]).
  - destruct (space1 a); [|done]. by pose proof (Hshort [a] m Hl).
  - destruct (space1 a); [by pose proof (Hshort [a] (b :: m) Hl)|].
    destruct (s2 a b); [|done]. by pose proof (Hshort [a; b] m Hl).
  - destruct (space1 a); [by pose proof (Hshort [a] (b :: c :: k ++ m) Hl)|].
    destruct (s2 a b); [by pose proof (Hshort [a; b] (c :: k ++ m) Hl)|].
    destruct (s3 a b c); [|done]. by pose proof (Hshort [a; b; c] (k ++ m) Hl).
Qed.
End TrimFacts.

Lemma TrimSpace_idem s : TrimSpace (TrimSpace s) = TrimSpace s.
Proof.
  unfold TrimSpace. set (l := String.list_ascii_of_string s).
  set (u := trim_front space2 space3 l).
  set (w := trim_front (flip space2) (λ a b c, space3 c b a) (reverse u)).
  rewrite String.list_ascii_of_string_of_list_ascii.
  assert (trim_front space2 space3 (reverse w) = reverse w) as ->.
  { apply (trim_front_prefix _ _ _ u); [apply trim_front_idem|].
    destruct (trim_front_suffix (flip space2) (λ a b c, space3 c b a) (reverse u)) as [k Hk].
    fold w in Hk. exists (reverse k). rewrite <-reverse_app, <-Hk. by rewrite reverse_involutive. }
  rewrite reverse_involutive. unfold w. by rewrite trim_front_idem.
Qed.

(** [strings.Contains s sub]. *)
Fixpoint Contains (s sub : string) : bool :=
  String.prefix sub s ||
  match s with
  | EmptyString => false
  | String _ t => Contains t sub
  end.

(** [strings.HasPrefix] and [strings.HasSuffix]. *)
Definition HasPrefix (s prefix : string) : bool := String.prefix prefix s.
Definition HasSuffix (s suffix : string) : bool :=
  (String.length suffix <=? String.length s)%nat &&
  bool_decide (String.substring (String.length s - String.length suffix) (String.length suffix) s = suffix).

(** ** Errors and results *)

(** A Go [error]: gorm's not-found sentinel, a package-level sentinel, an error
    made on the spot from its text, a wrapped error ([%w]) and a failure of the
    database itself.  [ErrDiverges] is not a Go error: it stands for a call that
    does not return (a loop that is still running when its fuel is spent). *)
Inductive error :=
| ErrRecordNotFound
| ErrVar (name : string)
| ErrNew (text : string)
| ErrWrap (text : string) (cause : error)
| ErrDatabase
| ErrDiverges.

Global Instance error_eq_dec : EqDecision error.
Proof. solve_decision. Defined.

(** [err.Error()]. *)
Fixpoint error_text (e : error) : string :=
  match e with
  | ErrRecordNotFound => "record not found"
  | ErrVar n => n
  | ErrNew t => t
  | ErrWrap t c => t +:+ ": " +:+ error_text c
  | ErrDatabase => "database failure"
  | ErrDiverges => "no result"
  end.

Inductive result (A : Type) :=
| Ok (a : A)
| Err (e : error).
Global Arguments Ok {A} a.
Global Arguments Err {A} e.

Global Instance result_eq_dec {A} `{EqDecision A} : EqDecision (result A).
Proof. solve_decision. Defined.

Definition is_ok {A} (r : result A) : Prop := match r with Ok _ => True | Err _ => False end.

(** ** Stateful, fallible computations *)

(** A computation over the state [S]: Go code that returns [(A, error)] and
    changes [S].  An error does not undo the changes made before it;
    [transaction] does. *)
Definition M (S A : Type) : Type := S → result A * S.

Section Monad.
Context {S : Type}.

Definition m_ret {A} (a : A) : M S A := λ s, (Ok a, s).
Definition m_bind {A B} (m : M S A) (k : A → M S B) : M S B := λ s,
  match m s with
  | (Ok a, s') => k a s'
  | (Err e, s') => (Err e, s')
  end.
Definition throw {A} (e : error) : M S A := λ s, (Err e, s).
Definition get : M S S := λ s, (Ok s, s).
Definition modify (f : S → S) : M S () := λ s, (Ok tt, f s).
Definition lift {A} (r : result A) : M S A := λ s, (r, s).
(** The value and the error of a call, both visible to the caller. *)
Definition attempt {A} (m : M S A) : M S (result A) := λ s,
  let '(r, s') := m s in (Ok r, s').
(** [DB.Transaction]: commit on success, roll back on error. *)
Definition transaction {A} (m : M S A) : M S A := λ s,
  match m s with
  | (Ok a, s') => (Ok a, s')
  | (Err e, _) => (Err e, s)
  end.
End Monad.

Global Instance M_ret S : MRet (M S) := λ _, m_ret.
Global Instance M_bind S : MBind (M S) := λ _ _ k m, m_bind m k.

(** A guard: [if c { return err }]. *)
Definition fail_if {S} (P : Prop) `{Decision P} (e : error) : M S () :=
  if decide P then throw e else mret tt.
Global Arguments fail_if {S} P {_} e.

(** The not-found error of [First]. *)
Definition or_error {S A} (o : option A) (e : error) : M S A :=
  match o with Some a => mret a | None => throw e end.

Fixpoint for_each {S A} (l : list A) (f : A → M S ()) : M S () :=
  match l with
  | [] => mret tt
  | a :: l' => _ ← f a; for_each l' f
  end.

(** *** Weakest preconditions *)

Definition wp {S A} (m : M S A) (Q : result A → S → Prop) (s : S) : Prop :=
  Q (m s).1 (m s).2.

Section Wp.
Context {S : Type}.
Implicit Types s : S.

Lemma bind_ok {A B} (m : M S A) (k : A → M S B) a s s' :
  m s = (Ok a, s') → (m ≫= k) s = k a s'.
Proof. unfold mbind, M_bind, m_bind. by intros ->. Qed.

Lemma run_bind {A B} (m : M S A) (k : A → M S B) a s s' r :
  m s = (Ok a, s') → k a s' = r → (m ≫= k) s = r.
Proof. unfold mbind, M_bind, m_bind. by intros ->. Qed.

Lemma bind_err {A B} (m : M S A) (k : A → M S B) e s s' :
  m s = (Err e, s') → (m ≫= k) s = (Err e, s').
Proof. unfold mbind, M_bind, m_bind. by intros ->. Qed.

Lemma run_transaction {A} (m : M S A) a s s' : m s = (Ok a, s') → transaction m s = (Ok a, s').
Proof. unfold transaction. by intros ->. Qed.

Lemma run_or_error {A} (o : option A) a e (s : S) : o = Some a → or_error o e s = (Ok a, s).
Proof. by intros ->. Qed.

Lemma fail_if_pass P `{Decision P} e (s : S) : ¬ P → fail_if P e s = (Ok tt, s).
Proof. intros. unfold fail_if. by rewrite decide_False. Qed.

Lemma wp_run {A} (m : M S A) (Q : result A → S → Prop) s r s' : wp m Q s → m s = (r, s') → Q r s'.
Proof. unfold wp. intros HQ Heq. by rewrite Heq in HQ. Qed.

Lemma wp_exact {A} (m : M S A) r0 s0 s : wp m (λ r s', r = r0 ∧ s' = s0) s → m s = (r0, s0).
Proof. unfold wp. destruct (m s). cbn. by intros [-> ->]. Qed.

Lemma wp_result {A} (m : M S A) (Q : result A → S → Prop) s : wp m Q s → ∃ r s', m s = (r, s') ∧ Q r s'.
Proof. unfold wp. destruct (m s) as [r s']. cbn. eauto. Qed.

Lemma wp_mono {A} (m : M S A) (Q Q' : result A → S → Prop) s :
  wp m Q s → (∀ r s', Q r s' → Q' r s') → wp m Q' s.
Proof. unfold wp. auto. Qed.

Lemma wp_and {A} (m : M S A) (Q Q' : result A → S → Prop) s :
  wp m Q s → wp m Q' s → wp m (λ r s', Q r s' ∧ Q' r s') s.
Proof. unfold wp. auto. Qed.

Lemma wp_ret {A} (a : A) Q s : Q (Ok a) s → wp (mret a) Q s.
Proof. done. Qed.

Lemma wp_throw {A} e (Q : result A → S → Prop) s : Q (Err e) s → wp (throw e) Q s.
Proof. done. Qed.

Lemma wp_bind {A B} (m : M S A) (k : A → M S B) Q s :
  wp m (λ r s', match r with Ok a => wp (k a) Q s' | Err e => Q (Err e) s' end) s →
  wp (m ≫= k) Q s.
Proof. unfold wp, mbind, M_bind, m_bind. by destruct (m s) as [[] ?]. Qed.

Lemma wp_get Q s : Q (Ok s) s → wp get Q s.
Proof. done. Qed.

Lemma wp_modify f Q s : Q (Ok tt) (f s) → wp (modify f) Q s.
Proof. done. Qed.

Lemma wp_lift {A} (r : result A) (Q : result A → S → Prop) s : Q r s → wp (lift r) Q s.
Proof. done. Qed.

Lemma wp_attempt {A} (m : M S A) Q s :
  wp m (λ r s', Q (Ok r) s') s → wp (attempt m) Q s.
Proof. unfold wp, attempt. by destruct (m s). Qed.

Lemma wp_transaction {A} (m : M S A) Q s :
  wp m (λ r s', match r with Ok a => Q (Ok a) s' | Err e => Q (Err e) s end) s →
  wp (transaction m) Q s.
Proof. unfold wp, transaction. by destruct (m s) as [[] ?]. Qed.

Lemma wp_fail_if P `{Decision P} e Q s :
  (P → Q (Err e) s) → (¬ P → Q (Ok tt) s) → wp (fail_if P e) Q s.
Proof. unfold fail_if, wp. case_decide; simpl; auto. Qed.

Lemma wp_or_error {A} (o : option A) e Q s :
  (∀ a, o = Some a → Q (Ok a) s) → (o = None → Q (Err e) s) → wp (or_error o e) Q s.
Proof. unfold or_error, wp. destruct o; simpl; auto. Qed.

Lemma wp_for_each {A} (l : list A) f (I : S → Prop) s :
  I s → (∀ a s', a ∈ l → I s' → wp (f a) (λ _ s'', I s'') s') →
  wp (for_each l f) (λ _ s', I s') s.
Proof.
  revert s. induction l as [|a l IH]; intros s Hs Hf; simpl.
  - by apply wp_ret.
  - apply wp_bind. eapply wp_mono; [apply Hf; [left|done]|].
    intros [[]|e] s' Hs'; [|done]. apply IH; [done|].
    intros. apply Hf; [by right|done].
Qed.
End Wp.

(** A transaction that fails leaves the state as it was. *)
Lemma transaction_atomic {S A} (m : M S A) s e s' :
  transaction m s = (Err e, s') → s' = s.
Proof. unfold transaction. destruct (m s) as [[] ?]; congruence. Qed.

(** One step of symbolic execution under [wp]. *)
Ltac wp_step :=
  match goal with
  | |- wp (_ ≫= _) _ _ => apply wp_bind
  | |- wp (mret _) _ _ => apply wp_ret
  | |- wp (throw _) _ _ => apply wp_throw
  | |- wp get _ _ => apply wp_get
  | |- wp (modify _) _ _ => apply wp_modify
  | |- wp (lift _) _ _ => apply wp_lift
  | |- wp (attempt _) _ _ => apply wp_attempt
  | |- wp (transaction _) _ _ => apply wp_transaction
  | |- wp (fail_if _ _) _ _ => apply wp_fail_if; intros ?
  | |- wp (or_error _ _) _ _ => apply wp_or_error; [intros ? ?|intros ?]
  | |- wp (if decide ?P then _ else _) _ _ => destruct (decide P)
  | |- wp (match ?x with _ => _ end) _ _ => destruct x eqn:?
  end; cbv beta; cbn [fst snd].
Ltac wp_steps := repeat wp_step.

(** A guard of the form [_ ← fail_if P e; k]: the error goal first, then [k]
    with the negated condition. *)
Tactic Notation "wp_guard" "as" simple_intropattern(H) :=
  apply wp_bind; apply wp_fail_if; [intros _|intros H].

(** A guard that the context refutes. *)
Ltac wp_pass :=
  apply wp_bind; apply wp_fail_if; [let H := fresh in intros H; exfalso; (congruence || tauto || lia)|intros _].

(** *** Frames *)

(** A computation that leaves the part [π] of the state as it is, whatever its
    result; [keeps_solve] shows it by the structure of the computation. *)
Definition keeps {S A B} (π : S → B) (m : M S A) : Prop := ∀ s, π (m s).2 = π s.

Section Keeps.
Context {S B : Type} (π : S → B).

Lemma keeps_ret {A} (a : A) : keeps π (mret a).
Proof. done. Qed.
Lemma keeps_throw {A} e : keeps π (throw (A := A) e).
Proof. done. Qed.
Lemma keeps_get : keeps π get.
Proof. done. Qed.
Lemma keeps_lift {A} (r : result A) : keeps π (lift r).
Proof. done. Qed.
Lemma keeps_fail_if P `{Decision P} e : keeps π (fail_if P e).
Proof. intros s. unfold fail_if. by case_decide. Qed.
Lemma keeps_or_error {A} (o : option A) e : keeps π (or_error o e).
Proof. intros s. by destruct o. Qed.
Lemma keeps_modify f : (∀ s, π (f s) = π s) → keeps π (modify f).
Proof. intros Hf s. apply Hf. Qed.
Lemma keeps_bind {A C} (m : M S A) (k : A → M S C) :
  keeps π m → (∀ a, keeps π (k a)) → keeps π (m ≫= k).
Proof.
  intros Hm Hk s. unfold mbind, M_bind, m_bind. specialize (Hm s).
  destruct (m s) as [[a|e] s'] eqn:E; cbn in *; [|done]. by rewrite Hk.
Qed.
Lemma keeps_attempt {A} (m : M S A) : keeps π m → keeps π (attempt m).
Proof. intros Hm s. unfold attempt. specialize (Hm s). by destruct (m s). Qed.
Lemma keeps_transaction {A} (m : M S A) : keeps π m → keeps π (transaction m).
Proof. intros Hm s. unfold transaction. specialize (Hm s). by destruct (m s) as [[] ?]. Qed.
Lemma keeps_for_each {A} (l : list A) (f : A → M S ()) : (∀ a, keeps π (f a)) → keeps π (for_each l f).
Proof. intros Hf. induction l as [|a l IH]; cbn; [done|]. apply keeps_bind; [apply Hf|done]. Qed.
End Keeps.

Lemma wp_keeps {S A B} (π : S → B) (m : M S A) (Q : result A → S → Prop) s :
  keeps π m → wp m (λ r s', π s' = π s → Q r s') s → wp m Q s.
Proof. unfold wp. intros Hk HQ. apply HQ, Hk. Qed.

(** A part of a part that is kept. *)
Lemma keeps_part {S A B C} (f : B → C) (π : S → B) (m : M S A) : keeps π m → keeps (λ s, f (π s)) m.
Proof. intros Hm s. by rewrite Hm. Qed.

Create HintDb keeps.
#[export] Hint Resolve keeps_ret keeps_throw keeps_get keeps_lift keeps_fail_if keeps_or_error : keeps.

Ltac keeps_step :=
  match goal with
  | |- ∀ _, _ => intros ?
  | |- keeps _ (_ ≫= _) => apply keeps_bind
  | |- keeps _ (transaction _) => apply keeps_transaction
  | |- keeps _ (attempt _) => apply keeps_attempt
  | |- keeps _ (for_each _ _) => apply keeps_for_each
  | |- keeps _ (modify _) => apply keeps_modify; reflexivity
  | |- keeps _ (let _ := _ in _) => cbv zeta
  | |- keeps _ (if ?b then _ else _) => destruct b
  | |- keeps _ (match ?x with _ => _ end) => destruct x
  | |- keeps _ _ => solve [auto with keeps]
  end.
Ltac keeps_solve := repeat keeps_step.

(** A computation that preserves an invariant of the state. *)
Definition preserves {S A} (I : S → Prop) (m : M S A) : Prop := ∀ s, I s → I (m s).2.

Section Preserves.
Context {S : Type} (I : S → Prop).

Lemma keeps_preserves {A B} (π : S → B) (m : M S A) :
  (∀ s s', π s' = π s → I s → I s') → keeps π m → preserves I m.
Proof. intros HI Hm s Hs. by apply (HI s). Qed.
Lemma wp_preserves {A} (m : M S A) : (∀ s, I s → wp m (λ _ s', I s') s) → preserves I m.
Proof. intros Hm s Hs. exact (Hm s Hs). Qed.
Lemma preserves_wp {A} (m : M S A) s : preserves I m → I s → wp m (λ _ s', I s') s.
Proof. intros Hm Hs. exact (Hm s Hs). Qed.
Lemma preserves_bind {A C} (m : M S A) (k : A → M S C) :
  preserves I m → (∀ a, preserves I (k a)) → preserves I (m ≫= k).
Proof.
  intros Hm Hk s Hs. unfold mbind, M_bind, m_bind. specialize (Hm s Hs).
  destruct (m s) as [[a|e] s'] eqn:E; cbn in *; [|done]. by apply Hk.
Qed.
Lemma preserves_attempt {A} (m : M S A) : preserves I m → preserves I (attempt m).
Proof. intros Hm s Hs. unfold attempt. specialize (Hm s Hs). by destruct (m s). Qed.
Lemma preserves_transaction {A} (m : M S A) : preserves I m → preserves I (transaction m).
Proof. intros Hm s Hs. unfold transaction. specialize (Hm s Hs). by destruct (m s) as [[] ?]. Qed.
Lemma preserves_read {A} (m : M S A) : keeps id m → preserves I m.
Proof. apply keeps_preserves. unfold id. by intros s s' ->. Qed.
End Preserves.

Ltac preserves_step :=
  match goal with
  | |- ∀ _, _ => intros ?
  | |- preserves _ (_ ≫= _) => apply preserves_bind
  | |- preserves _ (transaction _) => apply preserves_transaction
  | |- preserves _ (attempt _) => apply preserves_attempt
  | |- preserves _ (let _ := _ in _) => cbv zeta
  | |- preserves _ (if ?b then _ else _) => destruct b
  | |- preserves _ (match ?x with _ => _ end) => destruct x
  | |- preserves _ _ => solve [auto with keeps]
  | |- preserves _ _ => solve [apply preserves_read; keeps_solve]
  end.
Ltac preserves_solve := repeat preserves_step.

(** ** Loops *)

(** [loop p step s] runs at most [p] iterations of a Go [for] loop whose body
    is [step] ([None]: the loop condition is false); the flag tells whether the
    loop ended by itself. *)
Fixpoint loop {S} (p : positive) (step : S → option S) (s : S) : S * bool :=
  match p with
  | xH => match step s with None => (s, true) | Some s' => (s', false) end
  | xO q =>
    let '(s1, d1) := loop q step s in
    if d1 then (s1, true) else loop q step s1
  | xI q =>
    match step s with
    | None => (s, true)
    | Some s0 =>
      let '(s1, d1) := loop q step s0 in
      if d1 then (s1, true) else loop q step s1
    end
  end.

Section Loop.
Context {S : Type} (step : S → option S).

Lemma loop_inv (P : S → Prop) p s :
  P s → (∀ s1 s2, P s1 → step s1 = Some s2 → P s2) → P (loop p step s).1.
Proof.
  intros Hs Hstep. revert s Hs.
  induction p as [q IH|q IH|]; intros s Hs; simpl.
  - destruct (step s) as [s0|] eqn:E; [|done].
    pose proof (IH s0 (Hstep _ _ Hs E)) as H1. destruct (loop q step s0) as [s1 []]; eauto.
  - pose proof (IH s Hs) as H1. destruct (loop q step s) as [s1 []]; eauto.
  - destruct (step s) eqn:E; eauto.
Qed.

Lemma loop_done p s s' : loop p step s = (s', true) → step s' = None.
Proof.
  revert s s'. induction p as [q IH|q IH|]; intros s s'; simpl.
  - destruct (step s) as [s0|] eqn:E; [|by intros [= <-]].
    destruct (loop q step s0) as [s1 []] eqn:E1; [|apply IH].
    intros [= <-]. eauto.
  - destruct (loop q step s) as [s1 []] eqn:E1; [|apply IH].
    intros [= <-]. eauto.
  - destruct (step s) eqn:E; by intros [= <-].
Qed.

(** A measure that each iteration decreases bounds the number of iterations. *)
Lemma loop_measure (P : S → Prop) (m : S → Z) p s :
  P s → (∀ s1 s2, P s1 → step s1 = Some s2 → P s2) →
  (∀ s1 s2, P s1 → step s1 = Some s2 → m s2 < m s1) →
  let '(s', d) := loop p step s in if d then True else m s' ≤ m s - Zpos p.
Proof.
  intros Hs Hinv Hm. revert s Hs. induction p as [q IH|q IH|]; intros s Hs; simpl.
  - destruct (step s) as [s0|] eqn:E; [|done].
    pose proof (IH s0 (Hinv _ _ Hs E)) as H1. pose proof (Hm _ _ Hs E).
    pose proof (loop_inv P q s0 (Hinv _ _ Hs E) Hinv) as H3.
    destruct (loop q step s0) as [s1 []]; [done|]. simpl in H3.
    pose proof (IH s1 H3) as H2. destruct (loop q step s1) as [s2 []]; [done|]. lia.
  - pose proof (IH s Hs) as H1. pose proof (loop_inv P q s Hs Hinv) as H3.
    destruct (loop q step s) as [s1 []]; [done|]. simpl in H3.
    pose proof (IH s1 H3) as H2. destruct (loop q step s1) as [s2 []]; [done|]. lia.
  - destruct (step s) as [s0|] eqn:E; [|done]. pose proof (Hm _ _ Hs E). lia.
Qed.

(** With a fuel above the measure the loop ends by itself. *)
Lemma loop_terminates (P : S → Prop) (m : S → Z) p s :
  P s → (∀ s1 s2, P s1 → step s1 = Some s2 → P s2) →
  (∀ s1 s2, P s1 → step s1 = Some s2 → 0 ≤ m s1 ∧ m s2 < m s1) →
  m s + 1 < Zpos p → (loop p step s).2 = true.
Proof.
  intros Hs Hinv Hm Hp. set (m' := λ s, Z.max (m s) (-1)).
  assert (Hm' : ∀ s1 s2, P s1 → step s1 = Some s2 → m' s2 < m' s1).
  { intros s1 s2 H1 H2. destruct (Hm s1 s2 H1 H2). unfold m'. lia. }
  pose proof (loop_measure P m' p s Hs Hinv Hm') as H.
  destruct (loop p step s) as [s' []]; [done|]. unfold m' in H. simpl. exfalso. lia.
Qed.
End Loop.
