(* ===== verification/GoText.v ===== *)
(** * Text

    The parts of Go's [strings] and [unicode/utf8] packages that more than one component
    uses: letters of ASCII text, the runes of a string, and valid UTF-8. *)
From S2P Require Import Prelude.

(** ** Definitions *)

(** *** Letters *)

(** [strings.ToLower] of ASCII text. *)
Definition lower (a : ascii) : ascii :=
  let n := Ascii.nat_of_ascii a in
  if decide (65 ≤ n ≤ 90)%nat then Ascii.ascii_of_nat (n + 32) else a.
Fixpoint ToLower (s : string) : string :=
  match s with EmptyString => EmptyString | String a s => String (lower a) (ToLower s) end.

(** [strings.ToUpper] of ASCII text. *)
Definition upper (a : ascii) : ascii :=
  let n := Ascii.nat_of_ascii a in
  if decide (97 ≤ n ≤ 122)%nat then Ascii.ascii_of_nat (n - 32) else a.
Fixpoint ToUpper (s : string) : string :=
  match s with EmptyString => EmptyString | String a s => String (upper a) (ToUpper s) end.

(** *** Runes *)

Definition byte_in (lo hi : nat) (a : ascii) : bool :=
  let n := Ascii.nat_of_ascii a in ((lo <=? n) && (n <=? hi))%nat.
Definition continuation : ascii → bool := byte_in 128 191.

(** The well-formed UTF-8 sequences of two, three and four bytes. *)
Definition rune2 (a b : ascii) : bool := byte_in 194 223 a && continuation b.
Definition rune3 (a b c : ascii) : bool :=
  (byte_in 224 224 a && byte_in 160 191 b || (byte_in 225 236 a || byte_in 238 239 a) && continuation b
   || byte_in 237 237 a && byte_in 128 159 b) && continuation c.
Definition rune4 (a b c d : ascii) : bool :=
  (byte_in 240 240 a && byte_in 144 191 b || byte_in 241 243 a && continuation b
   || byte_in 244 244 a && byte_in 128 143 b) && continuation c && continuation d.

(** U+FFFD, which stands for a byte that starts no rune. *)
Definition rune_error : list ascii :=
  [Ascii.ascii_of_nat 239; Ascii.ascii_of_nat 191; Ascii.ascii_of_nat 189].

(** [[]rune(s)], each rune by its encoding. *)
Fixpoint runes (s : list ascii) : list (list ascii) :=
  match s with
  | [] => []
  | a :: t =>
    if byte_in 0 127 a then [a] :: runes t
    else
      match t with
      | [] => [rune_error]
      | b :: u =>
        if rune2 a b then [a; b] :: runes u
        else
          match u with
          | [] => rune_error :: runes t
          | c :: v =>
            if rune3 a b c then [a; b; c] :: runes v
            else
              match v with
              | [] => rune_error :: runes t
              | d :: w => if rune4 a b c d then [a; b; c; d] :: runes w else rune_error :: runes t
              end
          end
      end
  end.

(** [utf8.ValidString]: no byte had to be replaced. *)
Definition ValidString (s : string) : bool :=
  let l := String.list_ascii_of_string s in bool_decide (concat (runes l) = l).
