(* ===== verification/Tables.v ===== *)
(** * Database tables

    The model of the gorm tables every component stores its rows in: a table is
    the list of its rows in the order of their auto-increment primary key, with
    the next key.  A query condition is a decidable predicate; [first] is gorm's
    [First] (and [Limit(1).Find] ordered by the key), [where_] is [Find],
    [update_where] is [Updates], [save] is [Save] of a row that was read,
    [insert_row] is [Create]. *)
From S2P Require Import Prelude.

Class Row (R : Type) : Type := {
  row_id : R → Z;
  with_row_id : Z → R → R;
  row_id_with_row_id : ∀ i r, row_id (with_row_id i r) = i;
}.

Record table (R : Type) : Type := Table { rows : list R; next_id : Z }.
Global Arguments Table {R} rows next_id.
Global Arguments rows {R} t.
Global Arguments next_id {R} t.

Section Operations.
Context {R : Type} `{Row R}.

Definition first (P : R → Prop) `{∀ r, Decision (P r)} (t : table R) : option R :=
  head (filter P (rows t)).
Definition where_ (P : R → Prop) `{∀ r, Decision (P r)} (t : table R) : list R :=
  filter P (rows t).
Definition by_id (i : Z) (t : table R) : option R := first (λ r, row_id r = i) t.
(** The row as stored: the key is assigned by the database. *)
Definition inserted (r : R) (t : table R) : R := with_row_id (next_id t) r.
Definition insert_row (r : R) (t : table R) : table R :=
  Table (rows t ++ [inserted r t]) (next_id t + 1).
Definition update_where (P : R → Prop) `{∀ r, Decision (P r)} (f : R → R) (t : table R) : table R :=
  Table ((λ r, if decide (P r) then f r else r) <$> rows t) (next_id t).
Definition save (r : R) (t : table R) : table R :=
  update_where (λ x, row_id x = row_id r) (λ _, r) t.
Definition delete_where (P : R → Prop) `{∀ r, Decision (P r)} (t : table R) : table R :=
  Table (filter (λ r, ¬ P r) (rows t)) (next_id t).
(** Rows affected by an [Updates] or a [Delete]. *)
Definition affected (P : R → Prop) `{∀ r, Decision (P r)} (t : table R) : Z :=
  Z.of_nat (length (where_ P t)).
End Operations.

(** [Order(...)]: the rows sorted by a total preorder; SQL leaves the order of
    rows that tie open, and no result below depends on it. *)
Definition order_by {R} (le : relation R) `{!RelDecision le} (l : list R) : list R := merge_sort le l.

(** [COALESCE(MAX(column), 0)]. *)
Definition sql_max (l : list Z) : Z :=
  match l with
  | [] => 0
  | x :: xs => foldr Z.max x xs
  end.

(** ** Sums over rows *)

Fixpoint sumZ {A} (f : A → Z) (l : list A) : Z :=
  match l with
  | [] => 0
  | a :: l' => f a + sumZ f l'
  end.

Section Sums.
Context {A : Type}.
Implicit Types (f g : A → Z) (l : list A).

Lemma sumZ_app f l k : sumZ f (l ++ k) = sumZ f l + sumZ f k.
Proof. induction l; simpl; lia. Qed.

Lemma sumZ_permutation f l k : l ≡ₚ k → sumZ f l = sumZ f k.
Proof. induction 1; simpl; lia. Qed.

Lemma sumZ_nonneg f l : Forall (λ a, 0 ≤ f a) l → 0 ≤ sumZ f l.
Proof. induction 1; simpl; lia. Qed.

Lemma sumZ_ext f g l : Forall (λ a, f a = g a) l → sumZ f l = sumZ g l.
Proof. induction 1; simpl; lia. Qed.

Lemma sumZ_zero f l : Forall (λ a, f a = 0) l → sumZ f l = 0.
Proof. induction 1; simpl; lia. Qed.

Lemma sumZ_mono f g l : Forall (λ a, f a ≤ g a) l → sumZ f l ≤ sumZ g l.
Proof. induction 1; simpl; lia. Qed.

Lemma sumZ_elem_le f l a :
  Forall (λ a, 0 ≤ f a) l → a ∈ l → f a ≤ sumZ f l.
Proof.
  induction 1 as [|b l ? Hl IH]; [by intros ?%not_elem_of_nil|].
  intros [->|Ha]%elem_of_cons; simpl.
  - pose proof (sumZ_nonneg _ _ Hl). lia.
  - specialize (IH Ha). lia.
Qed.

Lemma sumZ_set f l i x y : l !! i = Some y → sumZ f (<[i := x]> l) = sumZ f l - f y + f x.
Proof.
  revert i. induction l as [|z l IH]; intros [|i] Hi; simpl in *; simplify_eq; [lia|].
  rewrite (IH i) by done. lia.
Qed.

Lemma sumZ_filter P `{∀ a, Decision (P a)} f l :
  sumZ f (filter P l) = sumZ (λ a, if decide (P a) then f a else 0) l.
Proof.
  induction l as [|a l IH]; [done|]. rewrite filter_cons. simpl.
  case_decide; simpl; lia.
Qed.

Lemma sumZ_filter_le P `{∀ a, Decision (P a)} f l :
  Forall (λ a, 0 ≤ f a) l → sumZ f (filter P l) ≤ sumZ f l.
Proof. induction 1 as [|a l ? _ IH]; [done|]. rewrite filter_cons. case_decide; simpl; lia. Qed.
End Sums.

Lemma filter_none {A} (P : A → Prop) `{∀ x, Decision (P x)} l :
  (∀ x, x ∈ l → ¬ P x) → filter P l = [].
Proof.
  induction l as [|x l IH]; intros Hn; [done|].
  rewrite filter_cons, decide_False; [apply IH; set_solver|apply Hn; set_solver].
Qed.

Lemma filter_all {A} (P : A → Prop) `{∀ x, Decision (P x)} l : Forall P l → filter P l = l.
Proof. induction 1 as [|x l Hx _ IH]; [done|]. by rewrite filter_cons, decide_True, IH. Qed.

Lemma filter_ext_elem {A} (P Q : A → Prop) `{∀ x, Decision (P x), ∀ x, Decision (Q x)} (l : list A) :
  (∀ x, x ∈ l → P x ↔ Q x) → filter P l = filter Q l.
Proof.
  induction l as [|x l IH]; intros HPQ; [done|]. rewrite !filter_cons.
  assert (Hl : filter P l = filter Q l) by (apply IH; intros y Hy; apply HPQ; by right).
  pose proof (HPQ x (list_elem_of_here x l)) as Hx. rewrite Hl. destruct (decide (P x)), (decide (Q x)); naive_solver.
Qed.
Lemma filter_fmap_list {A B} (P : B → Prop) `{∀ x, Decision (P x)} (f : A → B) (l : list A) :
  filter P (f <$> l) = f <$> filter (λ x, P (f x)) l.
Proof. induction l as [|x l IH]; [done|]. csimpl. rewrite !filter_cons, IH. by case_decide. Qed.
Lemma NoDup_fmap_filter {A B} (f : A → B) (P : A → Prop) `{∀ x, Decision (P x)} (l : list A) :
  NoDup (f <$> l) → NoDup (f <$> filter P l).
Proof.
  induction l as [|x l IH]; intros Hnd; [done|]. csimpl in *. apply NoDup_cons in Hnd as [Hx Hnd].
  rewrite filter_cons. case_decide; [|auto]. csimpl. apply NoDup_cons. split; [|auto].
  intros (y & Heq & [_ Hy]%list_elem_of_filter)%list_elem_of_fmap. apply Hx. rewrite Heq. by apply list_elem_of_fmap_2.
Qed.
Lemma Forall_filter_keep {A} (Q P : A → Prop) `{∀ a, Decision (P a)} (l : list A) :
  Forall Q l → Forall Q (filter P l).
Proof. rewrite !Forall_forall. intros HQ a [_ ?]%list_elem_of_filter. auto. Qed.

(** ** Well-formed tables *)

(** Keys are positive, increasing (so distinct) and below the next key. *)
Definition table_wf {R} `{Row R} (t : table R) : Prop :=
  StronglySorted Z.lt (row_id <$> rows t) ∧
  Forall (λ r, 0 < row_id r < next_id t) (rows t) ∧ 0 < next_id t.

Lemma StronglySorted_lt_snoc (l : list Z) x :
  StronglySorted Z.lt l → Forall (λ y, y < x) l → StronglySorted Z.lt (l ++ [x]).
Proof.
  induction 1 as [|y l ? IH Hy]; intros Hx; simpl; [repeat constructor|].
  inversion Hx; subst. constructor; [auto|]. rewrite Forall_app. by repeat constructor.
Qed.

Section Facts.
Context {R : Type} `{Row R}.
Implicit Types (t : table R) (r : R).

Lemma first_Some (P : R → Prop) `{∀ r, Decision (P r)} t r :
  first P t = Some r → r ∈ rows t ∧ P r.
Proof.
  unfold first. intros Hr. assert (r ∈ filter P (rows t)) as Hin.
  { destruct (filter P (rows t)); simplify_eq/=. left. }
  by apply list_elem_of_filter in Hin as [].
Qed.

Lemma first_None (P : R → Prop) `{∀ r, Decision (P r)} t r :
  first P t = None → r ∈ rows t → ¬ P r.
Proof.
  unfold first. intros Hr Hin HP. assert (r ∈ filter P (rows t)) as Hf.
  { by apply list_elem_of_filter. }
  destruct (filter P (rows t)); [by apply not_elem_of_nil in Hf|done].
Qed.

Lemma where_elem (P : R → Prop) `{∀ r, Decision (P r)} t r :
  r ∈ where_ P t ↔ P r ∧ r ∈ rows t.
Proof. unfold where_. apply list_elem_of_filter. Qed.

Lemma by_id_Some t i r : by_id i t = Some r → r ∈ rows t ∧ row_id r = i.
Proof. apply first_Some. Qed.

Lemma wf_elem t r : table_wf t → r ∈ rows t → 0 < row_id r < next_id t.
Proof. intros (_ & Hb & _) Hr. rewrite Forall_forall in Hb. auto. Qed.

Lemma wf_NoDup t : table_wf t → NoDup (row_id <$> rows t).
Proof.
  intros [Hs _]. induction Hs as [|x l ? IH Hx]; constructor; [|done].
  intros Hin. rewrite Forall_forall in Hx. specialize (Hx _ Hin). lia.
Qed.

Lemma wf_row_eq t r1 r2 :
  table_wf t → r1 ∈ rows t → r2 ∈ rows t → row_id r1 = row_id r2 → r1 = r2.
Proof.
  intros Hwf. pose proof (wf_NoDup t Hwf) as Hnd. revert Hnd.
  generalize (rows t) as l. induction l as [|x l IH]; intros Hnd H1 H2 Heq;
    [by apply not_elem_of_nil in H1|].
  simpl in Hnd. apply NoDup_cons in Hnd as [Hx Hnd].
  apply elem_of_cons in H1 as [->|H1]; apply elem_of_cons in H2 as [->|H2]; [done| | |auto].
  - destruct Hx. rewrite Heq. by apply list_elem_of_fmap_2.
  - destruct Hx. rewrite <-Heq. by apply list_elem_of_fmap_2.
Qed.

Lemma by_id_elem t r : table_wf t → r ∈ rows t → by_id (row_id r) t = Some r.
Proof.
  intros Hwf Hr. destruct (by_id (row_id r) t) as [r'|] eqn:E.
  - apply by_id_Some in E as [Hin Hid]. f_equal. eauto using wf_row_eq.
  - unfold by_id in E. eapply first_None in E; [|done]. done.
Qed.

Lemma wf_empty : table_wf (Table (R := R) [] 1).
Proof. split_and!; simpl; [constructor|constructor|lia]. Qed.

Lemma wf_insert_row r t : table_wf t → table_wf (insert_row r t).
Proof.
  intros (Hs & Hb & Hn). unfold table_wf, insert_row, inserted; simpl. split_and!; [|..|lia].
  - rewrite fmap_app. simpl. rewrite row_id_with_row_id. apply StronglySorted_lt_snoc; [done|].
    apply Forall_fmap. eapply Forall_impl; [exact Hb|]. simpl. lia.
  - apply Forall_app. split.
    + eapply Forall_impl; [exact Hb|]. simpl. lia.
    + constructor; [|constructor]. rewrite row_id_with_row_id. lia.
Qed.

Lemma wf_update_where (P : R → Prop) `{∀ r, Decision (P r)} f t :
  (∀ r, P r → row_id (f r) = row_id r) → table_wf t → table_wf (update_where P f t).
Proof.
  intros Hf (Hs & Hb & Hn). unfold table_wf, update_where; simpl.
  assert (∀ r, row_id (if decide (P r) then f r else r) = row_id r) as Hid.
  { intros r. case_decide; auto. }
  split_and!; [| |done].
  - rewrite <-list_fmap_compose. rewrite (list_fmap_ext _ row_id); [done|].
    intros i r _. apply Hid.
  - apply Forall_fmap. eapply Forall_impl; [exact Hb|]. simpl. intros r. by rewrite Hid.
Qed.

Lemma wf_save r t : table_wf t → table_wf (save r t).
Proof. apply wf_update_where. auto. Qed.

Lemma wf_delete_where (P : R → Prop) `{∀ r, Decision (P r)} t :
  table_wf t → table_wf (delete_where P t).
Proof.
  intros (Hs & Hb & Hn). unfold table_wf, delete_where; simpl. split_and!; [| |done].
  - clear Hb. revert Hs. generalize (rows t) as l. induction l as [|r l IH]; simpl; [done|].
    intros Hs. apply StronglySorted_inv in Hs as [Hs Hr]. rewrite filter_cons.
    case_decide; simpl; [|auto]. constructor; [auto|].
    apply Forall_fmap, Forall_filter_keep. rewrite Forall_fmap in Hr. exact Hr.
  - by apply Forall_filter_keep.
Qed.

(** *** Membership after an update *)

Lemma elem_of_insert_row r0 r t :
  r0 ∈ rows (insert_row r t) ↔ r0 ∈ rows t ∨ r0 = inserted r t.
Proof. simpl. by rewrite elem_of_app, list_elem_of_singleton. Qed.

Lemma elem_of_update_where (P : R → Prop) `{∀ r, Decision (P r)} f t r0 :
  r0 ∈ rows (update_where P f t) ↔
  (r0 ∈ rows t ∧ ¬ P r0) ∨ ∃ r, r ∈ rows t ∧ P r ∧ r0 = f r.
Proof.
  unfold update_where. simpl. rewrite list_elem_of_fmap. split.
  - intros (r & -> & Hr). case_decide; [right|left]; eauto.
  - intros [[? ?]|(r & ? & ? & ->)].
    + exists r0. split; [|done]. by case_decide.
    + exists r. split; [|done]. by case_decide.
Qed.

Lemma Forall_update_where (Q : R → Prop) (P : R → Prop) `{∀ r, Decision (P r)} f t :
  Forall Q (rows t) → (∀ r, r ∈ rows t → P r → Q r → Q (f r)) →
  Forall Q (rows (update_where P f t)).
Proof.
  rewrite !Forall_forall. intros HQ Hf r0 [[? ?]|(r & ? & ? & ->)]%elem_of_update_where; auto.
Qed.

Lemma Forall_save (Q : R → Prop) r t :
  Forall Q (rows t) → Q r → Forall Q (rows (save r t)).
Proof. intros. apply Forall_update_where; auto. Qed.

Lemma Forall_insert_row (Q : R → Prop) r t :
  Forall Q (rows t) → Q (inserted r t) → Forall Q (rows (insert_row r t)).
Proof. intros. simpl. apply Forall_app. auto. Qed.

Lemma elem_of_save_new r r0 t : r0 ∈ rows t → row_id r0 = row_id r → r ∈ rows (save r t).
Proof. intros H0 Hid. unfold save. rewrite elem_of_update_where. right. eauto. Qed.

Lemma by_id_save_eq r r0 t :
  by_id (row_id r) t = Some r0 → by_id (row_id r) (save r t) = Some r.
Proof.
  unfold by_id, first, save, update_where. simpl. generalize (rows t) as l.
  induction l as [|x l IH]; simpl; [done|]. rewrite filter_cons. case_decide as Hx; simpl.
  - intros _. rewrite filter_cons. by rewrite decide_True by done.
  - intros Hl. rewrite filter_cons. rewrite decide_False by done. auto.
Qed.

Lemma by_id_save_ne r i t : row_id r ≠ i → by_id i (save r t) = by_id i t.
Proof.
  intros Hne. unfold by_id, first, save, update_where. simpl. f_equal. generalize (rows t) as l.
  induction l as [|x l IH]; simpl; [done|].
  destruct (decide (row_id x = row_id r)) as [Hx|Hx]; rewrite !filter_cons.
  - rewrite !decide_False by congruence. auto.
  - case_decide; [f_equal|]; auto.
Qed.

Lemma by_id_update f j i t :
  (∀ r, row_id (f r) = row_id r) →
  by_id i (update_where (λ r, row_id r = j) f t) = (if decide (i = j) then f else id) <$> by_id i t.
Proof.
  intros Hf. unfold by_id, first, update_where. cbn. generalize (rows t) as l.
  induction l as [|r l IH]; csimpl; [done|]. rewrite !filter_cons.
  destruct (decide (row_id r = j)) as [Hj|Hj]; rewrite ?Hf; destruct (decide (row_id r = i)) as [Hi|Hi]; csimpl;
    [by rewrite decide_True by congruence|done|by rewrite decide_False by congruence|done].
Qed.

Lemma by_id_update_where (P : R → Prop) `{∀ r, Decision (P r)} f i t :
  (∀ r, row_id (f r) = row_id r) →
  by_id i (update_where P f t) = (λ r, if decide (P r) then f r else r) <$> by_id i t.
Proof.
  intros Hf. unfold by_id, first, update_where. cbn. generalize (rows t) as l.
  induction l as [|r l IH]; csimpl; [done|]. rewrite !filter_cons.
  assert (Hid : row_id (if decide (P r) then f r else r) = row_id r) by (case_decide; auto).
  rewrite Hid. destruct (decide (row_id r = i)); csimpl; [done|exact IH].
Qed.

(** *** Sums after an update *)

Lemma sumZ_insert_row f r t :
  sumZ f (rows (insert_row r t)) = sumZ f (rows t) + f (inserted r t).
Proof. simpl. rewrite sumZ_app. simpl. lia. Qed.

Lemma sumZ_update_where f (P : R → Prop) `{∀ r, Decision (P r)} g t :
  sumZ f (rows (update_where P g t)) =
  sumZ f (rows t) + sumZ (λ r, if decide (P r) then f (g r) - f r else 0) (rows t).
Proof.
  unfold update_where. simpl. generalize (rows t) as l.
  induction l as [|x l IH]; csimpl; [done|]. destruct (decide (P x)); lia.
Qed.

Lemma sumZ_unique (f : R → Z) t r (P : R → Prop) `{∀ r, Decision (P r)} :
  table_wf t → r ∈ rows t → P r → (∀ r', r' ∈ rows t → P r' → row_id r' = row_id r) →
  sumZ (λ x, if decide (P x) then f x else 0) (rows t) = f r.
Proof.
  intros Hwf Hr HP Huniq. pose proof (wf_NoDup t Hwf) as Hnd. revert Hnd Hr Huniq.
  generalize (rows t) as l. induction l as [|x l IH]; intros Hnd Hr Huniq;
    [by apply not_elem_of_nil in Hr|].
  simpl in *. apply NoDup_cons in Hnd as [Hx Hnd].
  assert (∀ y, y ∈ l → row_id y = row_id x → False) as Hx'.
  { intros y Hy Hid. apply Hx. rewrite <-Hid. by apply list_elem_of_fmap_2. }
  apply elem_of_cons in Hr as [->|Hr].
  - rewrite decide_True by done. rewrite sumZ_zero; [lia|].
    apply Forall_forall. intros y Hy. rewrite decide_False; [done|].
    intros HPy. eapply Hx'; [done|]. apply Huniq; [by right|done].
  - rewrite decide_False.
    + rewrite IH; [lia|done|done|]. intros. apply Huniq; [by right|done].
    + intros HPx. eapply Hx'; [exact Hr|]. symmetry. apply Huniq; [by left|done].
Qed.

Lemma sumZ_save f t r r0 :
  table_wf t → r0 ∈ rows t → row_id r0 = row_id r →
  sumZ f (rows (save r t)) = sumZ f (rows t) - f r0 + f r.
Proof.
  intros Hwf Hr Hid. unfold save. rewrite sumZ_update_where.
  rewrite (sumZ_unique (λ x, f r - f x) t r0 (λ x, row_id x = row_id r));
    [lia|done|done|done|]. intros. congruence.
Qed.

Lemma sumZ_delete f t r :
  table_wf t → r ∈ rows t →
  sumZ f (rows (delete_where (λ x, row_id x = row_id r) t)) = sumZ f (rows t) - f r.
Proof.
  intros Hwf Hr. pose proof (sumZ_unique f t r (λ x, row_id x = row_id r) Hwf Hr eq_refl (λ _ _ H, H)) as Hu.
  unfold delete_where. cbn. rewrite sumZ_filter. rewrite <-Hu. generalize (rows t) as l.
  induction l as [|x l IH]; cbn; [done|]. repeat case_decide; tauto || lia.
Qed.

(** A row that is saved right after it was inserted. *)
Lemma rows_save_inserted r r' t :
  table_wf t → row_id r' = next_id t → rows (save r' (insert_row r t)) = rows t ++ [r'].
Proof.
  intros Hwf Hid. unfold save, update_where, insert_row, inserted. cbn. rewrite fmap_app. cbn.
  rewrite row_id_with_row_id, decide_True by done. f_equal. rewrite <-(list_fmap_id (rows t)) at 2.
  apply list_fmap_ext. intros i x Hx%list_elem_of_lookup_2. apply (wf_elem t) in Hx; [|done].
  rewrite decide_False by lia. done.
Qed.

(** *** Updates of one row *)

Lemma affected_sum (P : R → Prop) `{∀ r, Decision (P r)} t :
  affected P t = sumZ (λ r, if decide (P r) then 1 else 0) (rows t).
Proof.
  unfold affected, where_. induction (rows t) as [|r l IH]; [done|]. rewrite filter_cons. cbn [sumZ].
  case_decide; cbn [length]; lia.
Qed.

Lemma affected_one (P : R → Prop) `{∀ r, Decision (P r)} t r :
  table_wf t → r ∈ rows t → P r → (∀ r', r' ∈ rows t → P r' → row_id r' = row_id r) → affected P t = 1.
Proof. intros Hwf Hr HP Hone. rewrite affected_sum. by rewrite (sumZ_unique (λ _, 1) t r P). Qed.

Lemma affected_none (P : R → Prop) `{∀ r, Decision (P r)} t :
  (∀ r, r ∈ rows t → ¬ P r) → affected P t = 0.
Proof. intros Hn. unfold affected, where_. by rewrite filter_none. Qed.

Lemma update_where_pointwise (P P' : R → Prop) `{∀ r, Decision (P r), ∀ r, Decision (P' r)} f g t :
  (∀ r, r ∈ rows t → (if decide (P r) then f r else r) = (if decide (P' r) then g r else r)) →
  update_where P f t = update_where P' g t.
Proof.
  intros Heq. unfold update_where. f_equal. apply list_fmap_ext. intros i r Hr%list_elem_of_lookup_2. by apply Heq.
Qed.

Lemma update_where_same (P : R → Prop) `{∀ r, Decision (P r)} f t :
  (∀ r, r ∈ rows t → P r → f r = r) → update_where P f t = t.
Proof.
  intros Hf. destruct t as [l n]. unfold update_where. cbn in *. f_equal.
  rewrite <-(list_fmap_id l) at 2. apply list_fmap_ext. intros i r Hr%list_elem_of_lookup_2.
  case_decide; [by apply Hf|done].
Qed.

(** A conditional write of one row, and whether it hits. *)
Lemma write_one (P : R → Prop) `{∀ r, Decision (P r)} f s t :
  table_wf t → s ∈ rows t → (∀ r, r ∈ rows t → P r → row_id r = row_id s) → (P s → row_id (f s) = row_id s) →
  update_where P f t = (if decide (P s) then save (f s) t else t) ∧
  bool_decide (affected P t > 0) = bool_decide (P s).
Proof.
  intros Hwf Hs Hone Hf. destruct (decide (P s)) as [HP|HP].
  - split; [|rewrite (affected_one P t s) by done; by rewrite (bool_decide_true (P s))].
    apply update_where_pointwise. intros r Hr. rewrite (Hf HP). destruct (decide (row_id r = row_id s)) as [Hid|Hid].
    + rewrite (wf_row_eq t r s Hwf Hr Hs Hid). by rewrite decide_True.
    + rewrite decide_False; [done|]. intros HPr. by apply Hid, Hone.
  - assert (Hno : ∀ r, r ∈ rows t → ¬ P r).
    { intros r Hr HPr. apply HP. by rewrite <-(wf_row_eq t r s Hwf Hr Hs (Hone r Hr HPr)). }
    split; [apply update_where_same; intros r Hr HPr; by destruct (Hno r Hr)|].
    rewrite affected_none by done. by rewrite (bool_decide_false (P s)).
Qed.

Lemma update_where_compose (P P' : R → Prop) `{∀ r, Decision (P r), ∀ r, Decision (P' r)} f g t :
  (∀ r, r ∈ rows t → P r → ¬ P' (f r)) →
  update_where P' g (update_where P f t) =
  update_where (λ r, P r ∨ P' r) (λ r, if decide (P r) then f r else g r) t.
Proof.
  intros Hd. unfold update_where. cbn. f_equal. rewrite <-list_fmap_compose. apply list_fmap_ext.
  intros i r Hr%list_elem_of_lookup_2. cbn. destruct (decide (P r)) as [HP|HP].
  - rewrite decide_False by auto. by rewrite decide_True by auto.
  - destruct (decide (P' r)); [by rewrite decide_True by auto|by rewrite decide_False by tauto].
Qed.
End Facts.

Create HintDb tables.
#[export] Hint Resolve wf_insert_row wf_save wf_delete_where wf_empty Forall_save
  Forall_insert_row : tables.
