(* ===== verification/GoTime.v ===== *)
(** * Go's [time] package, as far as the billing code uses it

    A [time.Time] is its Unix second (every time the code builds has no
    nanosecond part); a location is a fixed offset from UTC in seconds, as the
    deployment's [Asia/Shanghai] is (28800).  The proleptic Gregorian calendar is
    computed as [time.Date], [Time.Date] and [Time.AddDate] do: [time.Date]
    normalises its month and day arguments. *)
From S2P Require Import Prelude.

Abbreviation day_seconds := 86400.

(** Days from 1970-01-01 to the first day of month [n], counted from January of
    year 0 ([n = 12 * year + month - 1]). *)
Definition month_start (n : Z) : Z :=
  let y0 := n / 12 in
  let m := n mod 12 + 1 in
  let y := if decide (m ≤ 2) then y0 - 1 else y0 in
  let era := y / 400 in
  let yoe := y mod 400 in
  let mp := (m + 9) mod 12 in
  let doy := (153 * mp + 2) / 5 in
  let doe := yoe * 365 + yoe / 4 - yoe / 100 + doy in
  era * 146097 + doe - 719468.

(** The month number and the day of the month of a day: 4800 months have 146097
    days, so the quotient is at most one month off. *)
Definition civil (days : Z) : Z * Z :=
  let n := (days + 719528) * 4800 / 146097 in
  let n := if decide (month_start (n + 1) ≤ days) then n + 1
           else if decide (month_start n ≤ days) then n else n - 1 in
  (n, days - month_start n + 1).

Section Local.
(** Offset of the local time zone. *)
Variable loc : Z.

Definition local_day (t : Z) : Z := (t + loc) / day_seconds.
Definition clock (t : Z) : Z := (t + loc) mod day_seconds.

(** [time.Date(year, month, day, 0, 0, sec, 0, loc).Unix()], the year and month
    given as a month number. *)
Definition Date (month day sec : Z) : Z :=
  (month_start month + day - 1) * day_seconds + sec - loc.

(** [t.AddDate(0, months, days)]; [years] is [12 * years] months. *)
Definition AddDate (t months days : Z) : Z :=
  let '(m, d) := civil (local_day t) in
  Date (m + months) (d + days) (clock t).

(** [int(t.Weekday())], Sunday = 0. *)
Definition Weekday (t : Z) : Z := (local_day t + 4) mod 7.

(** [t.Add(d)] for a duration [d] in nanoseconds. *)
Definition Add (t d : Z) : Z := t + d / 1000000000.
End Local.

(** ** The calendar *)

Lemma split_period n p : 0 < p → n = n mod p + n / p * p ∧ 0 ≤ n mod p < p.
Proof. intros. pose proof (Z.div_mod n p). pose proof (Z.mod_pos_bound n p). lia. Qed.

(** [month_start], one case per month of the year. *)
Lemma month_start_cases y r :
  0 ≤ r < 12 →
  month_start (12 * y + r) =
    (let y' := if decide (r < 2) then y - 1 else y in
     365 * y' + y' / 4 - y' / 100 + y' / 400 + (153 * ((r + 10) mod 12) + 2) / 5 - 719468).
Proof.
  intros Hr. unfold month_start.
  replace ((12 * y + r) / 12) with y by (rewrite Z.mul_comm, Z.div_add_l, Z.div_small; lia).
  replace ((12 * y + r) mod 12) with r
    by (rewrite Z.add_comm, Z.mul_comm, Z.mod_add, Z.mod_small; lia).
  cbv zeta. replace (r + 1 + 9) with (r + 10) by lia.
  assert (∀ w, w / 400 * 146097 + (w mod 400 * 365 + w mod 400 / 4 - w mod 400 / 100)
          = 365 * w + w / 4 - w / 100 + w / 400) as Hw.
  { intros w. Z.to_euclidean_division_equations. lia. }
  do 2 case_decide; try lia.
  - pose proof (Hw (y - 1)). lia.
  - pose proof (Hw y). lia.
Qed.

Ltac month_cases n :=
  let y := fresh "y" in let r := fresh "r" in
  destruct (split_period n 12) as [Hn Hr]; [lia|];
  set (y := n / 12) in *; set (r := n mod 12) in *; clearbody y r;
  assert (r = 0 ∨ r = 1 ∨ r = 2 ∨ r = 3 ∨ r = 4 ∨ r = 5 ∨ r = 6 ∨ r = 7 ∨ r = 8 ∨ r = 9
          ∨ r = 10 ∨ r = 11) as Hcases by lia;
  destruct_or! Hcases; subst r.

(** Every month has 28 to 31 days. *)
Lemma month_length n : 28 ≤ month_start (n + 1) - month_start n ≤ 31.
Proof.
  month_cases n.
  1-11: rewrite Hn; match goal with |- context [month_start (?r + ?y * 12)] =>
    replace (r + y * 12 + 1) with (12 * y + (r + 1)) by lia;
    replace (r + y * 12) with (12 * y + r) by lia end;
    rewrite !month_start_cases by lia; simpl; Z.to_euclidean_division_equations; lia.
  rewrite Hn. replace (11 + y * 12 + 1) with (12 * (y + 1) + 0) by lia.
  replace (11 + y * 12) with (12 * y + 11) by lia.
  rewrite !month_start_cases by lia. simpl. Z.to_euclidean_division_equations. lia.
Qed.

Lemma month_start_grows n k : 0 ≤ k → month_start n + 28 * k ≤ month_start (n + k).
Proof.
  revert k. apply (natlike_ind (λ k, month_start n + 28 * k ≤ month_start (n + k))).
  - rewrite !Z.add_0_r. lia.
  - intros k Hk IH. replace (n + Z.succ k) with (n + k + 1) by lia.
    pose proof (month_length (n + k)). lia.
Qed.

(** A month starts within five days of the mean. *)
Lemma month_start_mean n : -24000 ≤ 146097 * n - 4800 * (month_start n + 719528) ≤ 24000.
Proof.
  month_cases n; rewrite Hn; match goal with |- context [month_start (?r + ?y * 12)] =>
    replace (r + y * 12) with (12 * y + r) by lia end;
    rewrite !month_start_cases by lia; simpl; Z.to_euclidean_division_equations; lia.
Qed.

(** [civil] splits a day into the month that contains it and the day of it. *)
Lemma civil_spec z n d :
  civil z = (n, d) → month_start n + d - 1 = z ∧ 1 ≤ d ∧ z < month_start (n + 1).
Proof.
  unfold civil. set (k := (z + 719528) * 4800 / 146097). cbv zeta.
  destruct (split_period ((z + 719528) * 4800) 146097) as [Hz Hb]; [lia|]. fold k in Hz.
  pose proof (month_start_mean (k + 2)). pose proof (month_start_mean (k - 1)).
  intros [= <- <-]. repeat case_decide;
    replace (k + 1 + 1) with (k + 2) by lia; replace (k - 1 + 1) with k by lia; lia.
Qed.

Section LocalFacts.
Variable loc : Z.

(** Breaking a time into date and clock and rebuilding it gives the time back. *)
Lemma AddDate_0 t days : AddDate loc t 0 days = t + days * day_seconds.
Proof.
  unfold AddDate, Date, clock, local_day.
  destruct (split_period (t + loc) day_seconds) as [Ht _]; [lia|].
  destruct (civil _) as [n d] eqn:E. apply civil_spec in E as (E & _ & _).
  rewrite Z.add_0_r. replace (month_start n + (d + days) - 1)
    with ((t + loc) / day_seconds + days) by lia. lia.
Qed.

(** Adding months moves forward by at least 28 days per month. *)
Lemma AddDate_months t months : 0 ≤ months → t + 28 * months * day_seconds ≤ AddDate loc t months 0.
Proof.
  intros Hm. unfold AddDate, Date, clock, local_day.
  destruct (split_period (t + loc) day_seconds) as [Ht _]; [lia|].
  destruct (civil _) as [n d] eqn:E. apply civil_spec in E as (E & _ & _).
  pose proof (month_start_grows n months Hm). rewrite Z.add_0_r. lia.
Qed.

(** The local midnight that starts the day of [t]. *)
Definition midnight (t : Z) : Z :=
  let '(m, d) := civil (local_day loc t) in Date loc m d 0.

Lemma midnight_spec t :
  midnight t = local_day loc t * day_seconds - loc ∧ midnight t ≤ t < midnight t + day_seconds.
Proof.
  unfold midnight, Date, local_day. destruct (civil _) as [n d] eqn:E.
  apply civil_spec in E as (E & _ & _).
  destruct (split_period (t + loc) day_seconds) as [Ht Hb]; [lia|]. lia.
Qed.

Lemma local_day_midnight t : local_day loc (midnight t) = local_day loc t.
Proof.
  destruct (midnight_spec t) as [-> _]. unfold local_day.
  replace ((t + loc) / day_seconds * day_seconds - loc + loc)
    with ((t + loc) / day_seconds * day_seconds) by lia.
  by rewrite Z.div_mul by lia.
Qed.
End LocalFacts.

Example civil_2024_02_29 : civil 19782 = (12 * 2024 + 1, 29).
Proof. reflexivity. Qed.
Example addate_jan_31 : AddDate 0 (Date 0 (12 * 2023) 31 0) 1 0 = Date 0 (12 * 2023 + 2) 3 0.
Proof. reflexivity. Qed.
