(* ===== verification/GoFloat.v ===== *)
(** * Go's [float64] and decimal numbers

    A [float64] is an IEEE 754 binary64 number as the standard library specifies
    it (53 bits of precision, exponents below 1024): comparisons, products and
    quotients are executable and round like the hardware does.  Decimals are those
    of the third-party package [shopspring/decimal]: the operations of the class
    [Decimals], which the theorems leave open. *)
From S2P Require Import Prelude.
From Stdlib Require Export SpecFloat.

Definition float64 := spec_float.

Definition float_zero : float64 := S754_zero false.
Definition float_one : float64 := S754_finite false 4503599627370496 (-52).
Definition float_minus_one : float64 := S754_finite true 4503599627370496 (-52).

Definition float_mul (x y : float64) : float64 := SFmul 53 1024 x y.
Definition float_div (x y : float64) : float64 := SFdiv 53 1024 x y.
Definition float_sub (x y : float64) : float64 := SFsub 53 1024 x y.
Definition float_add (x y : float64) : float64 := SFadd 53 1024 x y.

Declare Scope float_scope.
Delimit Scope float_scope with float.
Notation "x =? y" := (SFeqb x y) : float_scope.
Notation "x <? y" := (SFltb x y) : float_scope.
Notation "x <=? y" := (SFleb x y) : float_scope.

(** [float64(n)]. *)
Definition float_of_int (n : Z) : float64 := binary_normalize 53 1024 n 0 false.

(** The integer part of a finite number. *)
Definition float_trunc (s : bool) (m : positive) (e : Z) : Z :=
  let v := if decide (0 ≤ e) then Zpos m * 2 ^ e else Zpos m / 2 ^ (- e) in
  if s then - v else v.

(** [int(x)]: towards zero.  Go leaves the conversion of a value that does not fit
    to the platform; this is what the instruction of amd64 yields. *)
Definition int_of_float (x : float64) : Z :=
  match x with
  | S754_zero _ => 0
  | S754_finite s m e => if decide (in_int64 (float_trunc s m e)) then float_trunc s m e else min_int64
  | S754_infinity _ | S754_nan => min_int64
  end.

(** [math.Round]: half away from zero. *)
Definition math_Round (x : float64) : float64 :=
  match x with
  | S754_finite s m e =>
    if decide (0 ≤ e) then x
    else
      let q := (Zpos m + 2 ^ (- e - 1)) / 2 ^ (- e) in
      binary_normalize 53 1024 (if s then - q else q) 0 s
  | _ => x
  end.

(** [billingexpr.QuotaRound]. *)
Definition QuotaRound (f : float64) : Z := int_of_float (math_Round f).

(** [fmt]'s verb [%.2f]: the exact value rounded to hundredths, half to even. *)
Definition format_2f (x : float64) : string :=
  match x with
  | S754_nan => "NaN"
  | S754_infinity s => if s then "-Inf" else "+Inf"
  | S754_zero s => if s then "-0.00" else "0.00"
  | S754_finite s m e =>
    let hundredths :=
      if decide (0 ≤ e) then Zpos m * 2 ^ e * 100
      else
        let n := Zpos m * 100 in
        let d := 2 ^ (- e) in
        let q := n / d in
        let r := 2 * (n mod d) in
        if decide (r > d ∨ r = d ∧ Z.odd q = true) then q + 1 else q in
    let cents := hundredths mod 100 in
    (if s then "-" else "") +:+ pretty (hundredths / 100) +:+ "." +:+ (if decide (cents < 10) then "0" else "") +:+ pretty cents
  end.

(** Neither [math.IsNaN] nor [math.IsInf(x, 0)]. *)
Definition isFiniteRatio (x : float64) : bool :=
  match x with S754_zero _ | S754_finite _ _ _ => true | S754_infinity _ | S754_nan => false end.

(** [math.Max]. *)
Definition math_Max (x y : float64) : float64 :=
  match x, y with
  | S754_infinity false, _ | _, S754_infinity false => S754_infinity false
  | S754_nan, _ | _, S754_nan => S754_nan
  | S754_zero sx, S754_zero _ => if sx then y else x
  | _, _ => if (y <? x)%float then x else y
  end.

(** A finite number above zero, and one that is not below it. *)
Definition positive_ratio (x : float64) : bool := isFiniteRatio x && (float_zero <? x)%float.
Definition nonneg_ratio (x : float64) : bool := isFiniteRatio x && negb (x <? float_zero)%float.

Lemma positive_nonneg x : positive_ratio x = true → nonneg_ratio x = true.
Proof. by destruct x as [|[]| |[]]. Qed.
Lemma positive_not_le x : positive_ratio x = isFiniteRatio x && negb (x <=? float_zero)%float.
Proof. by destruct x as [|[]| |[]]. Qed.

(** Conversions of an integer that is not negative. *)
Lemma float_of_int_nonneg n : 0 ≤ n → (float_of_int n <? float_zero)%float = false ∧ float_of_int n ≠ S754_zero true.
Proof.
  intros Hn. destruct n as [|p|p]; [by vm_compute| |lia]. unfold float_of_int, binary_normalize, binary_round.
  destruct (shl_align _ _ _) as [mz ez]. unfold binary_round_aux. destruct (shr_fexp _ _ _ _ _) as [m e].
  destruct (shr_fexp _ _ _ _ _) as [m' e']. destruct (shr_m m'); [done| |done]. by destruct (Z.leb _ _).
Qed.
Lemma float_of_int_sub_0 n : float_sub (float_of_int n) (float_of_int 0) = float_of_int n.
Proof. by destruct (float_of_int n) as [[]|[]| |[]]. Qed.
Lemma float_of_int_add_0 n : float_of_int n ≠ S754_zero true → float_add (float_of_int n) (float_of_int 0) = float_of_int n.
Proof. by destruct (float_of_int n) as [[]|[]| |[]]. Qed.

Lemma finite_mul_zero x y : isFiniteRatio x = true → (y =? float_zero)%float = true → QuotaRound (float_mul x y) = 0.
Proof. by destruct x as [|[]| |[]], y as [|[]| |[]]. Qed.

(** [shopspring/decimal]. *)
Class Decimals := {
  Decimal : Type;
  NewFromFloat : float64 → Decimal;
  NewFromInt : Z → Decimal;
  Mul : Decimal → Decimal → Decimal;
  Div : Decimal → Decimal → Decimal;
  Add : Decimal → Decimal → Decimal;
  Sub : Decimal → Decimal → Decimal;
  LessThanOrEqual : Decimal → Decimal → bool;
  IntPart : Decimal → Z;
  IsZero : Decimal → bool;
  Ceil : Decimal → Decimal;
  Round : Decimal → Z → Decimal;
  Float64 : Decimal → float64;
}.

(** Decimals of eight places, for examples. *)
Definition fixed_decimals : Decimals := {|
  Decimal := Z;
  NewFromFloat x := int_of_float (math_Round (float_mul x (float_of_int 100000000)));
  NewFromInt n := n * 100000000;
  Mul a b := a * b / 100000000;
  Div a b := a * 100000000 / b;
  Add := Z.add;
  Sub := Z.sub;
  LessThanOrEqual := Z.leb;
  IntPart a := Z.quot a 100000000;
  IsZero := Z.eqb 0;
  Ceil a := - (- a / 100000000) * 100000000;
  Round a places := let unit := 10 ^ (8 - places) in (a + unit / 2) / unit * unit;
  Float64 a := float_div (float_of_int a) (float_of_int 100000000);
|}.

(** The [float64] nearest to an amount in millionths, as a column of money is read. *)
Definition money_float (money : Z) : float64 := float_div (float_of_int money) (float_of_int 1000000).
