(* ===== verification/GoDecimal.v ===== *)
(** * The laws of decimals

    [shopspring/decimal] documents its numbers as arbitrary-precision: sums,
    differences and products are exact, a quotient is rounded to sixteen places,
    [Round] rounds half away from zero and [IntPart] drops the fraction.  The class
    [DecimalLaws] states this of the operations of [GoFloat.v] through the rational
    value of a decimal; [rational_decimals] is an instance that computes. *)
From S2P Require Import Prelude GoFloat.
From Stdlib Require Export QArith Qround Qabs.
Open Scope Z_scope.

(** ** Rationals *)

(** Rounded half away from zero, and without the fraction. *)
Definition Qround_half (q : Q) : Z :=
  if Qle_bool 0 q then Qfloor (q + (1 # 2))%Q else - Qfloor (- q + (1 # 2))%Q.
Definition Qtrunc (q : Q) : Z := Z.quot (Qnum q) (Zpos (Qden q)).

(** The number that a finite float denotes. *)
Definition float_value (x : float64) : Q :=
  match x with
  | S754_finite s m e =>
    let v := if decide (0 ≤ e) then inject_Z (Zpos m * 2 ^ e) else Zpos m # Z.to_pos (2 ^ (- e)) in
    if s then (- v)%Q else v
  | _ => 0%Q
  end.

(** [DivisionPrecision]. *)
Definition Qplaces (q : Q) (places : Z) : Q :=
  (inject_Z (Qround_half (q * inject_Z (10 ^ places))) / inject_Z (10 ^ places))%Q.

(** ** The laws *)

Class DecimalLaws (D : Decimals) := {
  value : Decimal → Q;
  value_int n : (value (NewFromInt n) == inject_Z n)%Q;
  value_add a b : (value (Add a b) == value a + value b)%Q;
  value_sub a b : (value (Sub a b) == value a - value b)%Q;
  value_mul a b : (value (Mul a b) == value a * value b)%Q;
  value_div a b : ¬ (value b == 0)%Q → (value (Div a b) == Qplaces (value a / value b) 16)%Q;
  value_round a : (value (Round a 0) == inject_Z (Qround_half (value a)))%Q;
  value_ceil a : (value (Ceil a) == inject_Z (Qceiling (value a)))%Q;
  value_zero a : IsZero a = true ↔ (value a == 0)%Q;
  value_le a b : LessThanOrEqual a b = true ↔ (value a <= value b)%Q;
  value_whole a : in_int64 (Qtrunc (value a)) → IntPart a = Qtrunc (value a);
  value_float x : isFiniteRatio x = true → SFcompare x float_zero = Some (Qcompare (value (NewFromFloat x)) 0);
}.

(** Decimals as rationals. *)
Definition rational_decimals : Decimals := {|
  Decimal := Q;
  NewFromFloat := float_value;
  NewFromInt := inject_Z;
  Mul a b := Qred (a * b)%Q;
  Div a b := Qred (Qplaces (a / b) 16);
  Add a b := Qred (a + b)%Q;
  Sub a b := Qred (a - b)%Q;
  LessThanOrEqual := Qle_bool;
  IntPart a := wrap64 (Qtrunc a);
  IsZero a := Qeq_bool a 0;
  Ceil a := inject_Z (Qceiling a);
  Round a places := Qred (Qplaces a places);
  Float64 a := float_div (float_of_int (Qnum a)) (float_of_int (Zpos (Qden a)));
|}.

(** ** Lemmas *)

Global Instance Qround_half_proper : Proper (Qeq ==> eq) Qround_half.
Proof.
  intros x y E. unfold Qround_half. replace (Qle_bool 0 y) with (Qle_bool 0 x).
  - destruct (Qle_bool 0 x); [|f_equal]; apply Qfloor_comp; by rewrite E.
  - apply eq_true_iff_eq. rewrite !Qle_bool_iff. by rewrite E.
Qed.

Lemma Qround_half_int n : Qround_half (inject_Z n) = n.
Proof.
  assert (Hf : ∀ m : Z, Qfloor (inject_Z m + (1 # 2)) = m).
  { intros m. unfold Qfloor, Qplus, inject_Z; cbn -[Z.mul Z.div]. symmetry. apply (Z.div_unique _ _ _ 1); lia. }
  unfold Qround_half. destruct (Qle_bool 0 (inject_Z n)); [apply Hf|].
  change (- inject_Z n)%Q with (inject_Z (- n)). rewrite Hf. lia.
Qed.

Lemma Qround_half_nonneg q : (0 <= q)%Q → 0 ≤ Qround_half q.
Proof.
  intros H. unfold Qround_half. apply Qle_bool_iff in H as E. rewrite E. change 0 with (Qfloor 0). apply Qfloor_resp_le.
  apply (Qle_trans _ q); [done|]. rewrite <-(Qplus_0_r q) at 1. apply Qplus_le_compat; [apply Qle_refl|done].
Qed.

Lemma Qround_half_le p q : (p <= q)%Q → Qround_half p ≤ Qround_half q.
Proof.
  intros H. unfold Qround_half. destruct (Qle_bool 0 p) eqn:Ep, (Qle_bool 0 q) eqn:Eq.
  - apply Qfloor_resp_le, Qplus_le_compat; [done|apply Qle_refl].
  - exfalso. apply Qle_bool_iff in Ep. assert (Hq : (0 <= q)%Q) by by apply (Qle_trans _ p).
    apply Qle_bool_iff in Hq. congruence.
  - assert (Hq : 0 ≤ Qround_half q) by (apply Qround_half_nonneg; by apply Qle_bool_iff).
    unfold Qround_half in Hq. rewrite Eq in Hq. enough (0 ≤ Qfloor (- p + (1 # 2))) by lia.
    change 0 with (Qfloor 0). apply Qfloor_resp_le. apply not_true_iff_false in Ep. rewrite Qle_bool_iff in Ep.
    apply Qnot_le_lt in Ep. apply (Qle_trans _ (- p)).
    + rewrite <-(Qopp_involutive 0). apply Qopp_le_compat, Qlt_le_weak, Ep.
    + rewrite <-(Qplus_0_r (- p)) at 1. apply Qplus_le_compat; [apply Qle_refl|done].
  - enough (Qfloor (- q + (1 # 2)) ≤ Qfloor (- p + (1 # 2))) by lia.
    apply Qfloor_resp_le, Qplus_le_compat; [by apply Qopp_le_compat|apply Qle_refl].
Qed.

Global Instance Qtrunc_proper : Proper (Qeq ==> eq) Qtrunc.
Proof.
  intros [n d] [n' d'] E. unfold Qtrunc; cbn in *. unfold Qeq in E; cbn in E.
  rewrite <-(Z.quot_mul_cancel_r n (Zpos d) (Zpos d')), <-(Z.quot_mul_cancel_r n' (Zpos d') (Zpos d)) by lia.
  f_equal; lia.
Qed.

Lemma Qtrunc_int n : Qtrunc (inject_Z n) = n.
Proof. unfold Qtrunc; cbn. apply Z.quot_1_r. Qed.

Lemma Qplaces_0 q : (Qplaces q 0 == inject_Z (Qround_half q))%Q.
Proof.
  unfold Qplaces. change (inject_Z (10 ^ 0)) with 1%Q. rewrite Qmult_1_r. unfold Qdiv.
  change (/ 1)%Q with 1%Q. apply Qmult_1_r.
Qed.

Section Laws.
Context {D : Decimals} {L : DecimalLaws D}.

(** The rounded amount, as an [int]. *)
Lemma int_of_round a : in_int64 (Qround_half (value a)) → IntPart (Round a 0) = Qround_half (value a).
Proof.
  intros H. assert (E : Qtrunc (value (Round a 0)) = Qround_half (value a)).
  { rewrite value_round. apply Qtrunc_int. }
  rewrite value_whole; [done|]. by rewrite E.
Qed.

Lemma int_of_ceil a : in_int64 (Qceiling (value a)) → IntPart (Ceil a) = Qceiling (value a).
Proof.
  intros H. assert (E : Qtrunc (value (Ceil a)) = Qceiling (value a)) by (rewrite value_ceil; apply Qtrunc_int).
  rewrite value_whole; [done|]. by rewrite E.
Qed.

Lemma value_float_zero x : isFiniteRatio x = true → (x =? float_zero)%float = true ↔ (value (NewFromFloat x) == 0)%Q.
Proof.
  intros H%value_float. unfold SFeqb. rewrite H, Qeq_alt. destruct (_ ?= _)%Q; split; congruence.
Qed.

Lemma value_float_nonneg x : nonneg_ratio x = true → (0 <= value (NewFromFloat x))%Q.
Proof.
  unfold nonneg_ratio. intros [Hf Hn]%andb_true_iff. apply value_float in Hf. unfold SFltb in Hn. rewrite Hf in Hn.
  apply Qnot_lt_le. rewrite Qlt_alt. intros Hlt. by rewrite Hlt in Hn.
Qed.

Lemma value_float_pos x : positive_ratio x = true → (0 < value (NewFromFloat x))%Q.
Proof.
  intros Hp. assert (Hn := positive_nonneg _ Hp). apply value_float_nonneg in Hn.
  apply Qle_lteq in Hn as [Hn|Hn]; [done|]. exfalso. unfold positive_ratio in Hp. apply andb_true_iff in Hp as [Hf Hp].
  symmetry in Hn. rewrite <-value_float_zero in Hn by done. by destruct x as [|[]| |[]].
Qed.

End Laws.

Lemma sign_of_float x : isFiniteRatio x = true → SFcompare x float_zero = Some (Qcompare (float_value x) 0).
Proof.
  destruct x as [s|s| |s m e]; try done; intros _; unfold float_value.
  destruct s; cbn [SFcompare float_zero]; f_equal; symmetry.
  - rewrite <-Qlt_alt. destruct (decide _); [|done].
    unfold Qlt, inject_Z, Qopp; cbn -[Z.mul Z.pow]. assert (0 < 2 ^ e) by (apply Z.pow_pos_nonneg; lia). nia.
  - rewrite <-Qgt_alt. destruct (decide _); [|done].
    unfold Qlt, inject_Z; cbn -[Z.mul Z.pow]. assert (0 < 2 ^ e) by (apply Z.pow_pos_nonneg; lia). nia.
Qed.

Global Instance rational_laws : DecimalLaws rational_decimals.
Proof.
  refine {| value := id : @Decimal rational_decimals → Q |}; unfold id; cbn -[Qround_half Qtrunc Qplaces Qle_bool Qcompare].
  - done.
  - intros a b. apply Qred_correct.
  - intros a b. apply Qred_correct.
  - intros a b. apply Qred_correct.
  - intros a b _. apply Qred_correct.
  - intros a. rewrite Qred_correct. apply Qplaces_0.
  - done.
  - intros a. apply Qeq_bool_iff.
  - intros a b. apply Qle_bool_iff.
  - intros a. apply wrap64_id.
  - apply sign_of_float.
Defined.
