(* ===== verification/Schema.v ===== *)
(** * The database schema of the billing core

    The rows the subscription code reads and writes ([model/subscription.go],
    [model/user.go], [model/token.go], [model/topup.go]), the database they form
    and the statements shared by the components: the gorm hooks
    ([BeforeCreate], [BeforeUpdate]) are part of the statements that run them.
    Columns no modelled code reads are left out.  A money amount
    ([decimal(10,6)] columns, [float64] in Go) is the integer number of
    millionths. *)
From S2P Require Import Prelude Tables GoFloat.

(** ** Constants *)

Definition SubscriptionDurationYear := "year".
Definition SubscriptionDurationMonth := "month".
Definition SubscriptionDurationDay := "day".
Definition SubscriptionDurationHour := "hour".
Definition SubscriptionDurationCustom := "custom".

Definition SubscriptionResetNever := "never".
Definition SubscriptionResetDaily := "daily".
Definition SubscriptionResetWeekly := "weekly".
Definition SubscriptionResetMonthly := "monthly".
Definition SubscriptionResetCustom := "custom".

Definition SubscriptionPlanKindSubscription := "subscription".
Definition SubscriptionPlanKindValuePackage := "value_package".

Definition ValuePackageTypeDay := "day".
Definition ValuePackageTypeWeek := "week".
Definition ValuePackageTypeMonth := "month".

Definition ValuePackageLevelDay := 1.
Definition ValuePackageLevelWeek := 2.
Definition ValuePackageLevelMonth := 3.

Definition valuePackage5hWindowSeconds := 18000.
Definition valuePackage7dWindowSeconds := 604800.

Definition ValuePackageExhaustedReasonTotal := "total_quota_exhausted".
Definition ValuePackageExhaustedReason5h := "limit_5h_exhausted".
Definition ValuePackageExhaustedReason7d := "limit_7d_exhausted".
Definition valuePackageRenewalExhaustedReasonTotalDust := "total_quota_dust".

Definition ValuePackageQuotaResetSourceUserConsumeCount := "user_consume_count".
Definition ValuePackageQuotaResetSourceCycleRenewal := "cycle_renewal".
Definition ValuePackageQuotaResetSourcePackageRenewal := "package_renewal".

Definition ValuePackageResetCountLedgerSourceAdminSet := "admin_set".
Definition ValuePackageResetCountLedgerSourceAdminAdd := "admin_add".
Definition ValuePackageResetCountLedgerSourceAdminSubtract := "admin_subtract".
Definition ValuePackageResetCountLedgerSourceUserConsume := "user_consume".
Definition ValuePackageResetCountLedgerSourceRedemption := "redemption".
Definition ValuePackageResetCountLedgerSourcePlanGift := "plan_gift".

Definition MaxSubscriptionPlanGiftResetCount := 100.

Definition ValuePackageQuotaExhaustedUserMessage :=
  "当前余额已用完，建议暂停使用，使用 API 或等时间跑完再使用".

Definition UserSubscriptionStatusActive := "active".
Definition UserSubscriptionStatusExpired := "expired".
Definition UserSubscriptionStatusCancelled := "cancelled".
Definition UserSubscriptionStatusCovered := "covered".

Definition TopUpStatusPending := "pending".
Definition TopUpStatusSuccess := "success".
Definition TopUpStatusExpired := "expired".

(** ** Rows *)

Record SubscriptionPlan := mkPlan {
  sp_Id : Z;
  sp_Title : string;
  sp_PriceAmount : Z;
  sp_Currency : string;
  sp_DurationUnit : string;
  sp_DurationValue : Z;
  sp_CustomSeconds : Z;
  sp_Enabled : bool;
  sp_PlanKind : string;
  sp_PackageType : string;
  sp_PackageLevel : Z;
  sp_ModelGroup : string;
  sp_ConcurrencyLimit : Z;
  sp_Limit5hAmount : Z;
  sp_Limit7dAmount : Z;
  sp_AllowBalancePay : option bool;
  sp_MaxPurchasePerUser : Z;
  sp_UpgradeGroup : string;
  sp_TotalAmount : Z;
  sp_QuotaResetPeriod : string;
  sp_QuotaResetCustomSeconds : Z;
  sp_GiftResetCount : Z;
  sp_LdxpProductUrl : string;
  sp_LdxpProductName : string;
  sp_LdxpProductAmount : Z;
  sp_LdxpSessionTTLSeconds : Z;
}.
Global Instance SubscriptionPlan_eta : Settable SubscriptionPlan := λ p,
  mkPlan (sp_Id p) (sp_Title p) (sp_PriceAmount p) (sp_Currency p) (sp_DurationUnit p)
    (sp_DurationValue p) (sp_CustomSeconds p) (sp_Enabled p) (sp_PlanKind p)
    (sp_PackageType p) (sp_PackageLevel p) (sp_ModelGroup p) (sp_ConcurrencyLimit p)
    (sp_Limit5hAmount p) (sp_Limit7dAmount p) (sp_AllowBalancePay p)
    (sp_MaxPurchasePerUser p) (sp_UpgradeGroup p) (sp_TotalAmount p)
    (sp_QuotaResetPeriod p) (sp_QuotaResetCustomSeconds p) (sp_GiftResetCount p)
    (sp_LdxpProductUrl p) (sp_LdxpProductName p) (sp_LdxpProductAmount p) (sp_LdxpSessionTTLSeconds p).

Record UserSubscription := mkSub {
  us_Id : Z;
  us_UserId : Z;
  us_PlanId : Z;
  us_AmountTotal : Z;
  us_AmountUsed : Z;
  us_QuotaEpoch : Z;
  us_StartTime : Z;
  us_EndTime : Z;
  us_Status : string;
  us_Source : string;
  us_LastResetTime : Z;
  us_NextResetTime : Z;
  us_CoveredBySubscriptionId : Z;
  us_CoveredTime : Z;
  us_UpgradeGroup : string;
  us_PrevUserGroup : string;
  us_CreatedAt : Z;
  us_UpdatedAt : Z;
}.
Global Instance UserSubscription_eta : Settable UserSubscription := λ s,
  mkSub (us_Id s) (us_UserId s) (us_PlanId s) (us_AmountTotal s) (us_AmountUsed s)
    (us_QuotaEpoch s) (us_StartTime s) (us_EndTime s) (us_Status s) (us_Source s)
    (us_LastResetTime s) (us_NextResetTime s) (us_CoveredBySubscriptionId s)
    (us_CoveredTime s) (us_UpgradeGroup s) (us_PrevUserGroup s) (us_CreatedAt s)
    (us_UpdatedAt s).

Record UserValuePackagePreference := mkPref {
  vp_Id : Z;
  vp_UserId : Z;
  vp_Enabled : bool;
  vp_WalletFallbackEnabled : option bool;
  vp_ActiveUserSubscriptionId : Z;
  vp_ResetCount : Z;
  vp_CreatedAt : Z;
  vp_UpdatedAt : Z;
}.
Global Instance UserValuePackagePreference_eta : Settable UserValuePackagePreference := λ p,
  mkPref (vp_Id p) (vp_UserId p) (vp_Enabled p) (vp_WalletFallbackEnabled p)
    (vp_ActiveUserSubscriptionId p) (vp_ResetCount p) (vp_CreatedAt p) (vp_UpdatedAt p).

Record ValuePackageUsageRecord := mkUsage {
  vu_Id : Z;
  vu_UserId : Z;
  vu_UserSubscriptionId : Z;
  vu_PlanId : Z;
  vu_PackageType : string;
  vu_ModelGroup : string;
  vu_RequestId : string;
  vu_Quota : Z;
  vu_QuotaEpoch : Z;
  vu_CreatedAt : Z;
}.
Global Instance ValuePackageUsageRecord_eta : Settable ValuePackageUsageRecord := λ r,
  mkUsage (vu_Id r) (vu_UserId r) (vu_UserSubscriptionId r) (vu_PlanId r) (vu_PackageType r)
    (vu_ModelGroup r) (vu_RequestId r) (vu_Quota r) (vu_QuotaEpoch r) (vu_CreatedAt r).

Record ValuePackageQuotaReset := mkReset {
  vr_Id : Z;
  vr_UserId : Z;
  vr_UserSubscriptionId : Z;
  vr_PlanId : Z;
  vr_PackageType : string;
  vr_ResetAt : Z;
  vr_FromEpoch : Z;
  vr_ToEpoch : Z;
  vr_AmountUsedBefore : Z;
  vr_Source : string;
  vr_CreatedByUserId : Z;
  vr_Note : string;
}.
Global Instance ValuePackageQuotaReset_eta : Settable ValuePackageQuotaReset := λ r,
  mkReset (vr_Id r) (vr_UserId r) (vr_UserSubscriptionId r) (vr_PlanId r) (vr_PackageType r)
    (vr_ResetAt r) (vr_FromEpoch r) (vr_ToEpoch r) (vr_AmountUsedBefore r) (vr_Source r)
    (vr_CreatedByUserId r) (vr_Note r).

Record ValuePackageResetCountLedger := mkLedger {
  vl_Id : Z;
  vl_UserId : Z;
  vl_Delta : Z;
  vl_BeforeCount : Z;
  vl_AfterCount : Z;
  vl_Source : string;
  vl_CreatedByUserId : Z;
  vl_CreatedAt : Z;
  vl_Note : string;
}.
Global Instance ValuePackageResetCountLedger_eta : Settable ValuePackageResetCountLedger := λ l,
  mkLedger (vl_Id l) (vl_UserId l) (vl_Delta l) (vl_BeforeCount l) (vl_AfterCount l)
    (vl_Source l) (vl_CreatedByUserId l) (vl_CreatedAt l) (vl_Note l).

Record SubscriptionPreConsumeRecord := mkPre {
  pc_Id : Z;
  pc_RequestId : string;
  pc_UserId : Z;
  pc_UserSubscriptionId : Z;
  pc_PreConsumed : Z;
  pc_QuotaEpoch : Z;
  pc_Status : string;
  pc_CreatedAt : Z;
  pc_UpdatedAt : Z;
}.
Global Instance SubscriptionPreConsumeRecord_eta : Settable SubscriptionPreConsumeRecord := λ r,
  mkPre (pc_Id r) (pc_RequestId r) (pc_UserId r) (pc_UserSubscriptionId r) (pc_PreConsumed r)
    (pc_QuotaEpoch r) (pc_Status r) (pc_CreatedAt r) (pc_UpdatedAt r).

(** The columns of a user the billing code reads or writes. *)
Record User := mkUser {
  u_Id : Z;
  u_Role : Z;
  u_Quota : Z;
  u_UsedQuota : Z;
  u_RequestCount : Z;
  u_Group : string;
  u_Email : string;
  u_AffCode : string;
  u_InviterId : Z;
  u_ValidTopupCents : Z;
  u_TopupWatermark : Z;
  u_StripeCustomer : string;
}.
Global Instance User_eta : Settable User := λ u,
  mkUser (u_Id u) (u_Role u) (u_Quota u) (u_UsedQuota u) (u_RequestCount u) (u_Group u) (u_Email u)
    (u_AffCode u) (u_InviterId u) (u_ValidTopupCents u) (u_TopupWatermark u) (u_StripeCustomer u).

(** The columns of an API token the billing code reads or writes. *)
Record Token := mkToken {
  t_Id : Z;
  t_Key : string;
  t_RemainQuota : Z;
  t_UsedQuota : Z;
  t_AccessedTime : Z;
  t_UnlimitedQuota : bool;
}.
Global Instance Token_eta : Settable Token := λ t,
  mkToken (t_Id t) (t_Key t) (t_RemainQuota t) (t_UsedQuota t) (t_AccessedTime t)
    (t_UnlimitedQuota t).

(** An upstream channel: what it serves and how it is chosen, and its usage counter.
    Keys, addresses and the settings of the adaptors are left out. *)
Record Channel := mkChannel {
  ch_Id : Z;
  ch_Status : Z;
  ch_Weight : option Z;
  ch_Models : string;
  ch_Group : string;
  ch_UsedQuota : Z;
  ch_Priority : option Z;
}.
Global Instance Channel_eta : Settable Channel := λ c,
  mkChannel (ch_Id c) (ch_Status c) (ch_Weight c) (ch_Models c) (ch_Group c) (ch_UsedQuota c) (ch_Priority c).
Global Instance Channel_eq_dec : EqDecision Channel.
Proof. solve_decision. Defined.

(** A model that a channel serves for a group.  The priority is never null: gorm
    stores the default of the column for a nil pointer. *)
Record Ability := mkAbility {
  ab_Group : string;
  ab_Model : string;
  ab_ChannelId : Z;
  ab_Enabled : bool;
  ab_Priority : Z;
  ab_Weight : Z;
}.
Global Instance Ability_eta : Settable Ability := λ a,
  mkAbility (ab_Group a) (ab_Model a) (ab_ChannelId a) (ab_Enabled a) (ab_Priority a) (ab_Weight a).
Global Instance Ability_eq_dec : EqDecision Ability.
Proof. solve_decision. Defined.

(** How a picture task was paid, and which parts of the payment are given back. *)
Record MidjourneyBillingContext := mkMjContext {
  mc_Version : Z;
  mc_BillingSource : string;
  mc_SubscriptionId : Z;
  mc_RequestId : string;
  mc_TokenId : Z;
  mc_FundingQuota : Z;
  mc_TokenQuota : Z;
  mc_FundingRefunded : bool;
  mc_TokenRefunded : bool;
  mc_BillingRefunded : bool;
}.
Global Instance MidjourneyBillingContext_eta : Settable MidjourneyBillingContext := λ c,
  mkMjContext (mc_Version c) (mc_BillingSource c) (mc_SubscriptionId c) (mc_RequestId c) (mc_TokenId c)
    (mc_FundingQuota c) (mc_TokenQuota c) (mc_FundingRefunded c) (mc_TokenRefunded c) (mc_BillingRefunded c).

(** A picture task; what it shows to its user is left out. *)
Record Midjourney := mkMidjourney {
  mj_Id : Z;
  mj_UserId : Z;
  mj_MjId : string;
  mj_Status : string;
  mj_Progress : string;
  mj_FailReason : string;
  mj_Quota : Z;
  mj_BillingContext : MidjourneyBillingContext;
}.
Global Instance Midjourney_eta : Settable Midjourney := λ m,
  mkMidjourney (mj_Id m) (mj_UserId m) (mj_MjId m) (mj_Status m) (mj_Progress m) (mj_FailReason m)
    (mj_Quota m) (mj_BillingContext m).

(** The price of an asynchronous task when it was submitted. *)
Record TaskBillingContext := mkTaskContext {
  bc_HasGroupRatio : bool;
  bc_GroupRatio : float64;
  bc_OtherRatios : gmap string float64;
  bc_OriginModelName : string;
  bc_PerCallBilling : bool;
}.

(** An asynchronous task, with the part of its private data that billing reads. *)
Record Task := mkTask {
  tk_ID : Z;
  tk_TaskID : string;
  tk_UserId : Z;
  tk_Group : string;
  tk_ChannelId : Z;
  tk_Quota : Z;
  tk_Status : string;
  tk_FailReason : string;
  tk_SubmitTime : Z;
  tk_StartTime : Z;
  tk_FinishTime : Z;
  tk_Progress : string;
  tk_OriginModelName : string;
  tk_ResultURL : string;
  tk_BillingSource : string;
  tk_SubscriptionId : Z;
  tk_TokenId : Z;
  tk_BillingContext : option TaskBillingContext;
  tk_Data : string;
}.
Global Instance Task_eta : Settable Task := λ t,
  mkTask (tk_ID t) (tk_TaskID t) (tk_UserId t) (tk_Group t) (tk_ChannelId t) (tk_Quota t) (tk_Status t)
    (tk_FailReason t) (tk_SubmitTime t) (tk_StartTime t) (tk_FinishTime t) (tk_Progress t)
    (tk_OriginModelName t) (tk_ResultURL t) (tk_BillingSource t) (tk_SubscriptionId t) (tk_TokenId t)
    (tk_BillingContext t) (tk_Data t).

Record Checkin := mkCheckin {
  ci_Id : Z;
  ci_UserId : Z;
  ci_CheckinDate : string;
  ci_QuotaAwarded : Z;
  ci_CreatedAt : Z;
}.
Global Instance Checkin_eta : Settable Checkin := λ c,
  mkCheckin (ci_Id c) (ci_UserId c) (ci_CheckinDate c) (ci_QuotaAwarded c) (ci_CreatedAt c).

(** Of a session of the linked shop, and of a mail of it, the columns that are more
    than shown or logged. *)
Record LdxpTopupSession := mkSession {
  ls_Id : Z;
  ls_SessionId : string;
  ls_UserId : Z;
  ls_Amount : Z;
  ls_Money : Z;
  ls_ProductUrl : string;
  ls_ProductName : string;
  ls_Purpose : string;
  ls_SubscriptionOrderId : Z;
  ls_SubscriptionPlanId : Z;
  ls_ConfirmedCover : bool;
  ls_Status : string;
  ls_WorkerId : string;
  ls_QrCode : string;
  ls_QrPageUrl : string;
  ls_WorkerOrderNo : string;
  ls_WorkerAmount : float64;
  ls_WorkerCardKey : string;
  ls_WorkerStatusText : string;
  ls_MailMessageId : string;
  ls_MailOrderNo : string;
  ls_MailAmount : float64;
  ls_MailCardKey : string;
  ls_VerifiedTime : Z;
  ls_RedeemedTime : Z;
  ls_TopupId : Z;
  ls_RedemptionId : Z;
  ls_ErrorCode : string;
  ls_ErrorMessage : string;
  ls_CreatedTime : Z;
  ls_UpdatedTime : Z;
  ls_ExpiredTime : Z;
  ls_PaidWatchWorkerId : string;
  ls_PaidWatchClaimedTime : Z;
}.
Global Instance LdxpTopupSession_eta : Settable LdxpTopupSession := λ s,
  mkSession (ls_Id s) (ls_SessionId s) (ls_UserId s) (ls_Amount s) (ls_Money s) (ls_ProductUrl s)
    (ls_ProductName s) (ls_Purpose s) (ls_SubscriptionOrderId s) (ls_SubscriptionPlanId s)
    (ls_ConfirmedCover s) (ls_Status s) (ls_WorkerId s) (ls_QrCode s) (ls_QrPageUrl s)
    (ls_WorkerOrderNo s) (ls_WorkerAmount s) (ls_WorkerCardKey s) (ls_WorkerStatusText s)
    (ls_MailMessageId s) (ls_MailOrderNo s) (ls_MailAmount s) (ls_MailCardKey s) (ls_VerifiedTime s)
    (ls_RedeemedTime s) (ls_TopupId s) (ls_RedemptionId s) (ls_ErrorCode s) (ls_ErrorMessage s)
    (ls_CreatedTime s) (ls_UpdatedTime s) (ls_ExpiredTime s) (ls_PaidWatchWorkerId s)
    (ls_PaidWatchClaimedTime s).

Record LdxpMailEvent := mkMail {
  le_Id : Z;
  le_MessageId : option string;
  le_RawHash : string;
  le_OrderNo : string;
  le_Amount : float64;
  le_CardKey : string;
  le_PaidTime : Z;
  le_MatchedSessionId : string;
  le_Processed : bool;
  le_CreatedTime : Z;
}.
Global Instance LdxpMailEvent_eta : Settable LdxpMailEvent := λ e,
  mkMail (le_Id e) (le_MessageId e) (le_RawHash e) (le_OrderNo e) (le_Amount e) (le_CardKey e)
    (le_PaidTime e) (le_MatchedSessionId e) (le_Processed e) (le_CreatedTime e).

Record SubscriptionOrder := mkOrder {
  so_Id : Z;
  so_UserId : Z;
  so_PlanId : Z;
  so_Money : Z;
  so_TradeNo : string;
  so_PaymentMethod : string;
  so_PaymentProvider : string;
  so_UserSubscriptionId : Z;
  so_GiftResetCount : Z;
  so_Status : string;
  so_CreateTime : Z;
  so_CompleteTime : Z;
  so_ProviderPayload : string;
}.
Global Instance SubscriptionOrder_eta : Settable SubscriptionOrder := λ o,
  mkOrder (so_Id o) (so_UserId o) (so_PlanId o) (so_Money o) (so_TradeNo o)
    (so_PaymentMethod o) (so_PaymentProvider o) (so_UserSubscriptionId o)
    (so_GiftResetCount o) (so_Status o) (so_CreateTime o) (so_CompleteTime o)
    (so_ProviderPayload o).

Record TopUp := mkTopUp {
  tu_Id : Z;
  tu_UserId : Z;
  tu_Amount : Z;
  tu_Money : Z;
  tu_TradeNo : string;
  tu_PaymentMethod : string;
  tu_PaymentProvider : string;
  tu_CreateTime : Z;
  tu_CompleteTime : Z;
  tu_Status : string;
}.
Global Instance TopUp_eta : Settable TopUp := λ t,
  mkTopUp (tu_Id t) (tu_UserId t) (tu_Amount t) (tu_Money t) (tu_TradeNo t)
    (tu_PaymentMethod t) (tu_PaymentProvider t) (tu_CreateTime t) (tu_CompleteTime t)
    (tu_Status t).

Record AffiliateCommission := mkCommission {
  ac_Id : Z;
  ac_CommissionId : string;
  ac_InviterUserId : Z;
  ac_InviteeUserId : Z;
  ac_TopupId : Z;
  ac_TradeNo : string;
  ac_BaseMoney : float64;
  ac_Rate : float64;
  ac_CommissionMoney : float64;
  ac_Status : string;
  ac_CreatedTime : Z;
  ac_UpdatedTime : Z;
}.
Global Instance AffiliateCommission_eta : Settable AffiliateCommission := λ c,
  mkCommission (ac_Id c) (ac_CommissionId c) (ac_InviterUserId c) (ac_InviteeUserId c) (ac_TopupId c)
    (ac_TradeNo c) (ac_BaseMoney c) (ac_Rate c) (ac_CommissionMoney c) (ac_Status c)
    (ac_CreatedTime c) (ac_UpdatedTime c).

Record AffiliateWithdrawal := mkWithdrawal {
  aw_Id : Z;
  aw_WithdrawalId : string;
  aw_UserId : Z;
  aw_Amount : float64;
  aw_Contact : string;
  aw_Remark : string;
  aw_Status : string;
  aw_AdminRemark : string;
  aw_CreatedTime : Z;
  aw_UpdatedTime : Z;
  aw_ProcessedTime : Z;
}.
Global Instance AffiliateWithdrawal_eta : Settable AffiliateWithdrawal := λ w,
  mkWithdrawal (aw_Id w) (aw_WithdrawalId w) (aw_UserId w) (aw_Amount w) (aw_Contact w) (aw_Remark w)
    (aw_Status w) (aw_AdminRemark w) (aw_CreatedTime w) (aw_UpdatedTime w) (aw_ProcessedTime w).

(** A redemption code; [rd_Deleted] tells whether [DeletedAt] is set. *)
Record Redemption := mkRedemption {
  rd_Id : Z;
  rd_UserId : Z;
  rd_Key : string;
  rd_Status : Z;
  rd_Name : string;
  rd_Quota : Z;
  rd_Type : string;
  rd_PlanId : Z;
  rd_PlanTitle : string;
  rd_Kind : string;
  rd_Amount : Z;
  rd_Money : Z;
  rd_CountAsTopUp : bool;
  rd_BatchId : string;
  rd_Source : string;
  rd_ExportedTime : Z;
  rd_CreatedTime : Z;
  rd_RedeemedTime : Z;
  rd_UsedUserId : Z;
  rd_Deleted : bool;
  rd_ExpiredTime : Z;
  rd_ResetCardCount : Z;
  rd_GiftResetCount : Z;
}.
Global Instance Redemption_eta : Settable Redemption := λ r,
  mkRedemption (rd_Id r) (rd_UserId r) (rd_Key r) (rd_Status r) (rd_Name r) (rd_Quota r) (rd_Type r)
    (rd_PlanId r) (rd_PlanTitle r) (rd_Kind r) (rd_Amount r) (rd_Money r) (rd_CountAsTopUp r)
    (rd_BatchId r) (rd_Source r) (rd_ExportedTime r) (rd_CreatedTime r) (rd_RedeemedTime r)
    (rd_UsedUserId r) (rd_Deleted r) (rd_ExpiredTime r) (rd_ResetCardCount r) (rd_GiftResetCount r).

(** The receipt of the one-off reconciliation of the lifetime top-ups. *)
Record SVIPValidTopupReconcileReceipt := mkReceipt {
  rr_MigrationVersion : string;
  rr_AppliedAt : Z;
}.

Global Instance SubscriptionPlan_Row : Row SubscriptionPlan :=
  {| row_id := sp_Id; with_row_id i r := r <| sp_Id := i |>; row_id_with_row_id _ _ := eq_refl |}.
Global Instance UserSubscription_Row : Row UserSubscription :=
  {| row_id := us_Id; with_row_id i r := r <| us_Id := i |>; row_id_with_row_id _ _ := eq_refl |}.
Global Instance UserValuePackagePreference_Row : Row UserValuePackagePreference :=
  {| row_id := vp_Id; with_row_id i r := r <| vp_Id := i |>; row_id_with_row_id _ _ := eq_refl |}.
Global Instance ValuePackageUsageRecord_Row : Row ValuePackageUsageRecord :=
  {| row_id := vu_Id; with_row_id i r := r <| vu_Id := i |>; row_id_with_row_id _ _ := eq_refl |}.
Global Instance ValuePackageQuotaReset_Row : Row ValuePackageQuotaReset :=
  {| row_id := vr_Id; with_row_id i r := r <| vr_Id := i |>; row_id_with_row_id _ _ := eq_refl |}.
Global Instance ValuePackageResetCountLedger_Row : Row ValuePackageResetCountLedger :=
  {| row_id := vl_Id; with_row_id i r := r <| vl_Id := i |>; row_id_with_row_id _ _ := eq_refl |}.
Global Instance SubscriptionPreConsumeRecord_Row : Row SubscriptionPreConsumeRecord :=
  {| row_id := pc_Id; with_row_id i r := r <| pc_Id := i |>; row_id_with_row_id _ _ := eq_refl |}.
Global Instance User_Row : Row User :=
  {| row_id := u_Id; with_row_id i r := r <| u_Id := i |>; row_id_with_row_id _ _ := eq_refl |}.
Global Instance Token_Row : Row Token :=
  {| row_id := t_Id; with_row_id i r := r <| t_Id := i |>; row_id_with_row_id _ _ := eq_refl |}.
Global Instance Channel_Row : Row Channel :=
  {| row_id := ch_Id; with_row_id i r := r <| ch_Id := i |>; row_id_with_row_id _ _ := eq_refl |}.
Global Instance SubscriptionOrder_Row : Row SubscriptionOrder :=
  {| row_id := so_Id; with_row_id i r := r <| so_Id := i |>; row_id_with_row_id _ _ := eq_refl |}.
Global Instance TopUp_Row : Row TopUp :=
  {| row_id := tu_Id; with_row_id i r := r <| tu_Id := i |>; row_id_with_row_id _ _ := eq_refl |}.
Global Instance AffiliateCommission_Row : Row AffiliateCommission :=
  {| row_id := ac_Id; with_row_id i r := r <| ac_Id := i |>; row_id_with_row_id _ _ := eq_refl |}.
Global Instance AffiliateWithdrawal_Row : Row AffiliateWithdrawal :=
  {| row_id := aw_Id; with_row_id i r := r <| aw_Id := i |>; row_id_with_row_id _ _ := eq_refl |}.
Global Instance Redemption_Row : Row Redemption :=
  {| row_id := rd_Id; with_row_id i r := r <| rd_Id := i |>; row_id_with_row_id _ _ := eq_refl |}.

Global Instance Midjourney_Row : Row Midjourney :=
  {| row_id := mj_Id; with_row_id i r := r <| mj_Id := i |>; row_id_with_row_id _ _ := eq_refl |}.
Global Instance Checkin_Row : Row Checkin :=
  {| row_id := ci_Id; with_row_id i r := r <| ci_Id := i |>; row_id_with_row_id _ _ := eq_refl |}.
Global Instance Task_Row : Row Task :=
  {| row_id := tk_ID; with_row_id i r := r <| tk_ID := i |>; row_id_with_row_id _ _ := eq_refl |}.

Global Instance LdxpTopupSession_Row : Row LdxpTopupSession :=
  {| row_id := ls_Id; with_row_id i r := r <| ls_Id := i |>; row_id_with_row_id _ _ := eq_refl |}.
Global Instance LdxpMailEvent_Row : Row LdxpMailEvent :=
  {| row_id := le_Id; with_row_id i r := r <| le_Id := i |>; row_id_with_row_id _ _ := eq_refl |}.

(** ** The database *)

Record DB := mkDB {
  users : table User;
  tokens : table Token;
  subscription_plans : table SubscriptionPlan;
  user_subscriptions : table UserSubscription;
  value_package_preferences : table UserValuePackagePreference;
  usage_records : table ValuePackageUsageRecord;
  quota_resets : table ValuePackageQuotaReset;
  reset_count_ledgers : table ValuePackageResetCountLedger;
  pre_consume_records : table SubscriptionPreConsumeRecord;
  subscription_orders : table SubscriptionOrder;
  top_ups : table TopUp;
  channels : table Channel;
  affiliate_commissions : table AffiliateCommission;
  affiliate_withdrawals : table AffiliateWithdrawal;
  redemptions : table Redemption;
  svip_receipts : list SVIPValidTopupReconcileReceipt;
  abilities : list Ability;
  midjourneys : table Midjourney;
  checkins : table Checkin;
  tasks : table Task;
  ldxp_topup_sessions : table LdxpTopupSession;
  ldxp_mail_events : table LdxpMailEvent;
}.
Global Instance DB_eta : Settable DB := λ d,
  mkDB (users d) (tokens d) (subscription_plans d) (user_subscriptions d)
    (value_package_preferences d) (usage_records d) (quota_resets d) (reset_count_ledgers d)
    (pre_consume_records d) (subscription_orders d) (top_ups d) (channels d)
    (affiliate_commissions d) (affiliate_withdrawals d) (redemptions d) (svip_receipts d)
    (abilities d) (midjourneys d) (checkins d) (tasks d) (ldxp_topup_sessions d)
    (ldxp_mail_events d).

Definition empty_DB : DB :=
  mkDB (Table [] 1) (Table [] 1) (Table [] 1) (Table [] 1) (Table [] 1) (Table [] 1)
    (Table [] 1) (Table [] 1) (Table [] 1) (Table [] 1) (Table [] 1) (Table [] 1) (Table [] 1)
    (Table [] 1) (Table [] 1) [] [] (Table [] 1) (Table [] 1) (Table [] 1) (Table [] 1) (Table [] 1).

(** A computation on the database. *)
Definition Tx : Type → Type := M DB.

(** What a call reads from outside the database: the database clock
    ([GetDBTimestamp]), the application clock ([common.GetTimestamp]), the local
    time zone and the configuration. *)
Record Env := mkEnv {
  db_now : Z;
  app_now : Z;
  local_offset : Z;
  quota_per_unit : float64;
}.

(** ** Statements *)

(** [tx.Create(sub)] with [UserSubscription.BeforeCreate].  Every caller names a
    source, so that the default of that column never applies. *)
Definition create_subscription (env : Env) (sub : UserSubscription) : Tx UserSubscription :=
  db ← get;
  let row := sub <| us_CreatedAt := app_now env |> <| us_UpdatedAt := app_now env |> in
  _ ← modify (λ d, d <| user_subscriptions ::= insert_row row |>);
  mret (inserted row (user_subscriptions db)).

(** [tx.Save(sub)] with [UserSubscription.BeforeUpdate]; the caller's copy is
    the row saved. *)
Definition save_subscription (env : Env) (sub : UserSubscription) : Tx UserSubscription :=
  let row := sub <| us_UpdatedAt := app_now env |> in
  _ ← modify (λ d, d <| user_subscriptions ::= save row |>);
  mret row.

(** [tx.Create(reset)] with [ValuePackageQuotaReset.BeforeCreate]. *)
Definition create_quota_reset (env : Env) (r : ValuePackageQuotaReset) : Tx () :=
  let row := if decide (vr_ResetAt r = 0) then r <| vr_ResetAt := app_now env |> else r in
  modify (λ d, d <| quota_resets ::= insert_row row |>).

(** [tx.Create(ledger)] with [ValuePackageResetCountLedger.BeforeCreate]. *)
Definition create_ledger (env : Env) (l : ValuePackageResetCountLedger) : Tx () :=
  let row := if decide (vl_CreatedAt l = 0) then l <| vl_CreatedAt := app_now env |> else l in
  modify (λ d, d <| reset_count_ledgers ::= insert_row row |>).

(** [tx.Create(pref)] with [UserValuePackagePreference.BeforeCreate]. *)
Definition create_preference (env : Env) (p : UserValuePackagePreference) :
    Tx UserValuePackagePreference :=
  db ← get;
  let row := p <| vp_CreatedAt := app_now env |> <| vp_UpdatedAt := app_now env |> in
  _ ← modify (λ d, d <| value_package_preferences ::= insert_row row |>);
  mret (inserted row (value_package_preferences db)).

(** [tx.Create(record)] with [SubscriptionPreConsumeRecord.BeforeCreate]; the
    unique index on [request_id] has been checked by the caller. *)
Definition create_pre_consume (env : Env) (r : SubscriptionPreConsumeRecord) : Tx () :=
  let row := r <| pc_CreatedAt := app_now env |> <| pc_UpdatedAt := app_now env |> in
  modify (λ d, d <| pre_consume_records ::= insert_row row |>).

(** [tx.Save(record)] with [SubscriptionPreConsumeRecord.BeforeUpdate]. *)
Definition save_pre_consume (env : Env) (r : SubscriptionPreConsumeRecord) : Tx () :=
  modify (λ d, d <| pre_consume_records ::= save (r <| pc_UpdatedAt := app_now env |>) |>).

(** A common user of the default group, for examples. *)
Definition example_user (id quota used count : Z) : User :=
  mkUser id 1 quota used count "default" "" "" 0 0 0 "".
