(* ===== verification/Plans.v ===== *)
(** * Subscription plans: normalisation, durations and reset schedules

    The pure part of [model/subscription.go]: what a plan row means.  A pointer
    that every caller passes non-nil is modelled by the value it points to, so
    the nil checks have no counterpart. *)
From S2P Require Import Prelude Tables GoFloat GoTime Schema.

(** ** Definitions *)

Definition ClampSubscriptionPlanGiftResetCount (count : Z) : Z :=
  if decide (count ≤ 0) then 0
  else if decide (count > MaxSubscriptionPlanGiftResetCount) then MaxSubscriptionPlanGiftResetCount
  else count.

Definition IsValuePackage (p : SubscriptionPlan) : bool :=
  bool_decide (TrimSpace (sp_PlanKind p) = SubscriptionPlanKindValuePackage).

Definition normalizeValuePackageFixedDurationFields (plan : SubscriptionPlan) : SubscriptionPlan :=
  if negb (IsValuePackage plan) then plan
  else if decide (sp_PackageType plan = ValuePackageTypeDay) then
    plan <| sp_DurationUnit := SubscriptionDurationDay |> <| sp_DurationValue := 1 |>
         <| sp_CustomSeconds := 0 |> <| sp_Limit7dAmount := 0 |>
  else if decide (sp_PackageType plan = ValuePackageTypeWeek) then
    plan <| sp_DurationUnit := SubscriptionDurationDay |> <| sp_DurationValue := 7 |>
         <| sp_CustomSeconds := 0 |> <| sp_Limit7dAmount := 0 |>
  else if decide (sp_PackageType plan = ValuePackageTypeMonth) then
    plan <| sp_DurationUnit := SubscriptionDurationDay |> <| sp_DurationValue := 30 |>
         <| sp_CustomSeconds := 0 |>
  else plan.

Definition normalizeValuePackagePlan (plan : SubscriptionPlan) : SubscriptionPlan :=
  let kind := TrimSpace (sp_PlanKind plan) in
  let kind := if decide (kind = "") then SubscriptionPlanKindSubscription else kind in
  let packageType := TrimSpace (sp_PackageType plan) in
  let level :=
    if decide (sp_PackageLevel plan ≤ 0) then
      if decide (packageType = ValuePackageTypeDay) then ValuePackageLevelDay
      else if decide (packageType = ValuePackageTypeWeek) then ValuePackageLevelWeek
      else if decide (packageType = ValuePackageTypeMonth) then ValuePackageLevelMonth
      else sp_PackageLevel plan
    else sp_PackageLevel plan in
  let plan := normalizeValuePackageFixedDurationFields
    (plan <| sp_PlanKind := kind |> <| sp_PackageType := packageType |>
          <| sp_PackageLevel := level |>) in
  plan <| sp_ConcurrencyLimit ::= λ n, if decide (n ≤ 0) then 1 else n |>.

Definition NormalizeDefaults (p : SubscriptionPlan) : SubscriptionPlan :=
  let allow := match sp_AllowBalancePay p with None => Some true | Some b => Some b end in
  let kind := TrimSpace (sp_PlanKind p) in
  let kind := if decide (kind = "") then SubscriptionPlanKindSubscription else kind in
  let p := p <| sp_AllowBalancePay := allow |> <| sp_PlanKind := kind |> in
  let p := if decide (sp_PlanKind p = SubscriptionPlanKindValuePackage)
           then normalizeValuePackageFixedDurationFields (p <| sp_Currency := "CNY" |>)
           else p <| sp_Currency := "USD" |> in
  p <| sp_ConcurrencyLimit ::= λ n, if decide (n ≤ 0) then 1 else n |>.

(** [time.Duration] units, in nanoseconds. *)
Definition Second := 1000000000.
Definition Hour := 3600000000000.

Definition calcPlanEndTime (loc : Z) (start : Z) (plan : SubscriptionPlan) : result Z :=
  if decide (sp_DurationValue plan ≤ 0 ∧ sp_DurationUnit plan ≠ SubscriptionDurationCustom) then
    Err (ErrNew "duration_value must be > 0")
  else if decide (sp_DurationUnit plan = SubscriptionDurationYear) then
    Ok (AddDate loc start (12 * sp_DurationValue plan) 0)
  else if decide (sp_DurationUnit plan = SubscriptionDurationMonth) then
    Ok (AddDate loc start (sp_DurationValue plan) 0)
  else if decide (sp_DurationUnit plan = SubscriptionDurationDay) then
    Ok (Add start (sp_DurationValue plan *! 24 *! Hour))
  else if decide (sp_DurationUnit plan = SubscriptionDurationHour) then
    Ok (Add start (sp_DurationValue plan *! Hour))
  else if decide (sp_DurationUnit plan = SubscriptionDurationCustom) then
    if decide (sp_CustomSeconds plan ≤ 0) then Err (ErrNew "custom_seconds must be > 0")
    else Ok (Add start (sp_CustomSeconds plan *! Second))
  else Err (ErrNew ("invalid duration_unit: " +:+ sp_DurationUnit plan)).

Definition NormalizeResetPeriod (period : string) : string :=
  let p := TrimSpace period in
  if decide (p = SubscriptionResetDaily ∨ p = SubscriptionResetWeekly ∨
             p = SubscriptionResetMonthly ∨ p = SubscriptionResetCustom)
  then p else SubscriptionResetNever.

Definition calcNextResetTime (loc : Z) (base : Z) (plan : SubscriptionPlan) (endUnix : Z) : Z :=
  let period := NormalizeResetPeriod (sp_QuotaResetPeriod plan) in
  let clip next := if decide (endUnix > 0 ∧ next > endUnix) then 0 else next in
  if decide (period = SubscriptionResetNever) then 0
  else if decide (period = SubscriptionResetDaily) then
    clip (AddDate loc (midnight loc base) 0 1)
  else if decide (period = SubscriptionResetWeekly) then
    let weekday := if decide (Weekday loc base = 0) then 7 else Weekday loc base in
    let daysUntil := 8 - weekday in
    clip (AddDate loc (midnight loc base) 0 daysUntil)
  else if decide (period = SubscriptionResetMonthly) then
    clip (AddDate loc (Date loc (civil (local_day loc base)).1 1 0) 1 0)
  else if decide (period = SubscriptionResetCustom) then
    if decide (sp_QuotaResetCustomSeconds plan ≤ 0) then 0
    else clip (Add base (sp_QuotaResetCustomSeconds plan *! Second))
  else 0.

Definition valuePackageCycleSeconds (plan : SubscriptionPlan) : Z :=
  if negb (IsValuePackage plan) then 0
  else if decide (sp_PackageType plan = ValuePackageTypeDay) then 24 * 60 * 60
  else if decide (sp_PackageType plan = ValuePackageTypeWeek) then 7 * 24 * 60 * 60
  else if decide (sp_PackageType plan = ValuePackageTypeMonth) then 30 * 24 * 60 * 60
  else 0.

Definition syncValuePackageCycleSchedule (sub : UserSubscription) (plan : SubscriptionPlan) :
    UserSubscription :=
  let cycleSeconds := valuePackageCycleSeconds plan in
  if decide (cycleSeconds ≤ 0 ∨ us_StartTime sub ≤ 0) then
    sub <| us_LastResetTime := 0 |> <| us_NextResetTime := 0 |>
  else
    let sub := if decide (us_LastResetTime sub < us_StartTime sub)
               then sub <| us_LastResetTime := us_StartTime sub |> else sub in
    let nextResetTime := us_LastResetTime sub +! cycleSeconds in
    if decide (us_EndTime sub > 0 ∧ nextResetTime < us_EndTime sub)
    then sub <| us_NextResetTime := nextResetTime |>
    else sub <| us_NextResetTime := 0 |>.

Definition valuePackageHas7dWindow (plan : SubscriptionPlan) : bool :=
  IsValuePackage plan && bool_decide (sp_PackageType plan = ValuePackageTypeMonth)
  && bool_decide (sp_Limit7dAmount plan > 0).

Definition valuePackageResetClears7d (plan : SubscriptionPlan) : bool :=
  IsValuePackage plan && bool_decide (sp_PackageType plan = ValuePackageTypeMonth)
  && bool_decide (sp_Limit7dAmount plan > 0).

Definition validateValuePackagePlanLifecycleLimits (plan : SubscriptionPlan) : result () :=
  if decide (sp_TotalAmount plan ≤ 0) then
    Err (ErrNew "value package total_amount must be greater than zero")
  else if decide (sp_PackageType plan = ValuePackageTypeMonth ∧
                  sp_Limit7dAmount plan > sp_TotalAmount plan) then
    Err (ErrNew "value package limit_7d_amount must not exceed total_amount")
  else Ok tt.

(** The price is in millionths of the currency unit. *)
Definition calcSubscriptionBalanceQuota `{Decimals} (quotaPerUnit : float64) (priceAmount : Z) : result Z :=
  if decide (priceAmount ≤ 0) then Ok 0
  else if (quotaPerUnit <=? float_zero)%float then Err (ErrNew "额度单位配置错误")
  else Ok (IntPart (Ceil (Mul (NewFromFloat (money_float priceAmount)) (NewFromFloat quotaPerUnit)))).

Global Arguments normalizeValuePackageFixedDurationFields : simpl never.
Global Arguments normalizeValuePackagePlan : simpl never.
Global Arguments NormalizeDefaults : simpl never.
Global Arguments IsValuePackage : simpl never.
Global Arguments TrimSpace : simpl never.

(** ** Normalisation *)

Lemma TrimSpace_default_kind kind :
  let k := if decide (TrimSpace kind = "") then SubscriptionPlanKindSubscription else TrimSpace kind in
  TrimSpace k = k ∧ k ≠ "".
Proof. simpl. case_decide; [by vm_compute|]. by rewrite TrimSpace_idem. Qed.

(** The fields the fixed durations leave alone. *)
Lemma fixed_duration_frame p :
  let q := normalizeValuePackageFixedDurationFields p in
  sp_Id q = sp_Id p ∧ sp_PlanKind q = sp_PlanKind p ∧ sp_PackageType q = sp_PackageType p ∧
  sp_PackageLevel q = sp_PackageLevel p ∧ sp_ConcurrencyLimit q = sp_ConcurrencyLimit p ∧
  sp_TotalAmount q = sp_TotalAmount p ∧ sp_Limit5hAmount q = sp_Limit5hAmount p.
Proof. unfold normalizeValuePackageFixedDurationFields. by repeat case_match. Qed.

(** The plan kind and the package type after normalisation. *)
Lemma normalizeValuePackagePlan_kind p :
  sp_PlanKind (normalizeValuePackagePlan p) =
    (if decide (TrimSpace (sp_PlanKind p) = "") then SubscriptionPlanKindSubscription
     else TrimSpace (sp_PlanKind p)) ∧
  sp_PackageType (normalizeValuePackagePlan p) = TrimSpace (sp_PackageType p).
Proof.
  unfold normalizeValuePackagePlan. cbv zeta.
  match goal with |- context [normalizeValuePackageFixedDurationFields ?q] =>
    destruct (fixed_duration_frame q) as (_ & Hk & Ht & _) end.
  simpl in *. by rewrite Hk, Ht.
Qed.

(** What normalisation establishes. *)
Record plan_normal (p : SubscriptionPlan) : Prop := {
  pn_kind : TrimSpace (sp_PlanKind p) = sp_PlanKind p;
  pn_kind_set : sp_PlanKind p ≠ "";
  pn_type : TrimSpace (sp_PackageType p) = sp_PackageType p;
  pn_level : sp_PackageLevel p ≤ 0 → sp_PackageType p ≠ ValuePackageTypeDay ∧
    sp_PackageType p ≠ ValuePackageTypeWeek ∧ sp_PackageType p ≠ ValuePackageTypeMonth;
  pn_fixed : normalizeValuePackageFixedDurationFields p = p;
  pn_concurrency : 0 < sp_ConcurrencyLimit p;
}.

Lemma IsValuePackage_kind p q : sp_PlanKind p = sp_PlanKind q → IsValuePackage p = IsValuePackage q.
Proof. unfold IsValuePackage. by intros ->. Qed.

Lemma fixed_duration_cases p :
  (normalizeValuePackageFixedDurationFields p = p ∧
    (IsValuePackage p = false ∨ sp_PackageType p ≠ ValuePackageTypeDay ∧
       sp_PackageType p ≠ ValuePackageTypeWeek ∧ sp_PackageType p ≠ ValuePackageTypeMonth)) ∨
  (IsValuePackage p = true ∧
    let q := normalizeValuePackageFixedDurationFields p in
    sp_DurationUnit q = SubscriptionDurationDay ∧ sp_CustomSeconds q = 0 ∧
    (sp_PackageType p = ValuePackageTypeDay ∧ sp_DurationValue q = 1 ∧ sp_Limit7dAmount q = 0 ∨
     sp_PackageType p = ValuePackageTypeWeek ∧ sp_DurationValue q = 7 ∧ sp_Limit7dAmount q = 0 ∨
     sp_PackageType p = ValuePackageTypeMonth ∧ sp_DurationValue q = 30)).
Proof.
  unfold normalizeValuePackageFixedDurationFields.
  destruct (IsValuePackage p); simpl; [|by left; auto].
  repeat case_decide; simpl; naive_solver.
Qed.

Lemma fixed_duration_stable p c q :
  q = (normalizeValuePackageFixedDurationFields p) <| sp_ConcurrencyLimit := c |> →
  normalizeValuePackageFixedDurationFields q = q.
Proof.
  intros Eq.
  assert (IsValuePackage q = IsValuePackage p ∧ sp_PackageType q = sp_PackageType p) as [Hk Ht].
  { subst q. destruct (fixed_duration_frame p) as (_ & Hk & Ht & _). split; [|exact Ht].
    apply IsValuePackage_kind. exact Hk. }
  unfold normalizeValuePackageFixedDurationFields. rewrite Hk, Ht, Eq.
  unfold normalizeValuePackageFixedDurationFields.
  by destruct (IsValuePackage p); simpl; repeat case_decide.
Qed.

Lemma normalizeValuePackagePlan_normal p : plan_normal (normalizeValuePackagePlan p).
Proof.
  pose proof (normalizeValuePackagePlan_kind p) as [Hk Ht].
  pose proof (TrimSpace_default_kind (sp_PlanKind p)) as [Hk1 Hk2].
  split.
  - by rewrite Hk.
  - by rewrite Hk.
  - rewrite Ht. apply TrimSpace_idem.
  - rewrite Ht. unfold normalizeValuePackagePlan. cbv zeta. simpl.
    match goal with |- context [normalizeValuePackageFixedDurationFields ?q] =>
      destruct (fixed_duration_frame q) as (_ & _ & _ & -> & _) end. simpl.
    unfold ValuePackageLevelDay, ValuePackageLevelWeek, ValuePackageLevelMonth.
    repeat case_decide; lia || auto.
  - unfold normalizeValuePackagePlan. cbv zeta. by eapply fixed_duration_stable.
  - unfold normalizeValuePackagePlan. cbv zeta. cbn [sp_ConcurrencyLimit update_field].
    destruct (decide (_ ≤ 0)); lia.
Qed.

Lemma normalizeValuePackagePlan_fixpoint p : plan_normal p → normalizeValuePackagePlan p = p.
Proof.
  intros [H1 H2 H3 H4 H5 H6]. unfold normalizeValuePackagePlan. rewrite H1, H3.
  cbv zeta. rewrite (decide_False (P := sp_PlanKind p = "")) by done.
  assert ((if decide (sp_PackageLevel p ≤ 0) then _ else sp_PackageLevel p)
    = sp_PackageLevel p) as ->.
  { case_decide as Hl; [|done]. apply H4 in Hl as (? & ? & ?).
    by rewrite !decide_False by done. }
  replace (p <| sp_PlanKind := sp_PlanKind p |> <| sp_PackageType := sp_PackageType p |>
             <| sp_PackageLevel := sp_PackageLevel p |>) with p by by destruct p.
  rewrite H5. simpl. rewrite decide_False by lia. by destruct p.
Qed.

(** Normalising a plan twice is normalising it once: a plan that was
    normalised when it was loaded is not changed by the code that normalises it
    again. *)
Theorem normalizeValuePackagePlan_idempotent p :
  normalizeValuePackagePlan (normalizeValuePackagePlan p) = normalizeValuePackagePlan p.
Proof. apply normalizeValuePackagePlan_fixpoint, normalizeValuePackagePlan_normal. Qed.

Lemma IsValuePackage_normalize p : IsValuePackage (normalizeValuePackagePlan p) = IsValuePackage p.
Proof.
  unfold IsValuePackage. rewrite (proj1 (normalizeValuePackagePlan_kind p)). apply bool_decide_ext.
  case_decide as Hk; [rewrite Hk; done|by rewrite TrimSpace_idem].
Qed.

(** The same of the defaults a plan gets when it is loaded. *)
Lemma NormalizeDefaults_idempotent p : NormalizeDefaults (NormalizeDefaults p) = NormalizeDefaults p.
Proof.
  set (q := NormalizeDefaults p).
  assert (Hq : TrimSpace (sp_PlanKind q) = sp_PlanKind q ∧ sp_PlanKind q ≠ "" ∧ is_Some (sp_AllowBalancePay q) ∧
    0 < sp_ConcurrencyLimit q ∧
    (sp_PlanKind q = SubscriptionPlanKindValuePackage → sp_Currency q = "CNY" ∧ normalizeValuePackageFixedDurationFields q = q) ∧
    (sp_PlanKind q ≠ SubscriptionPlanKindValuePackage → sp_Currency q = "USD")).
  { pose proof (TrimSpace_default_kind (sp_PlanKind p)) as [Hk1 Hk2]. unfold q, NormalizeDefaults. cbv zeta in *.
    set (k := if decide (TrimSpace (sp_PlanKind p) = "") then _ else _) in *. clearbody k.
    set (r := p <| sp_AllowBalancePay := match sp_AllowBalancePay p with None => Some true | Some b => Some b end |>
                <| sp_PlanKind := k |>).
    assert (Hr : sp_PlanKind r = k ∧ is_Some (sp_AllowBalancePay r)) by (cbn; split; [done|destruct (sp_AllowBalancePay p); eauto]).
    destruct Hr as [Hrk Hra]. rewrite Hrk. clearbody r. destruct (decide (k = SubscriptionPlanKindValuePackage)) as [Hv|Hv].
    - set (x := normalizeValuePackageFixedDurationFields (r <| sp_Currency := "CNY" |>)).
      destruct (fixed_duration_frame (r <| sp_Currency := "CNY" |>)) as (_ & Hxk & _ & _ & Hxc & _).
      fold x in Hxk, Hxc. cbn in Hxk, Hxc.
      assert (Hx : sp_AllowBalancePay x = sp_AllowBalancePay r ∧ sp_Currency x = "CNY")
        by (unfold x, normalizeValuePackageFixedDurationFields; by repeat case_match).
      destruct Hx as [Hxa Hxcu].
      set (y := x <| sp_ConcurrencyLimit ::= λ n, if decide (n ≤ 0) then 1 else n |>).
      assert (Hfix : normalizeValuePackageFixedDurationFields y = y) by (by eapply fixed_duration_stable).
      assert (Hy : sp_PlanKind y = k ∧ sp_AllowBalancePay y = sp_AllowBalancePay r ∧ sp_Currency y = "CNY" ∧ 0 < sp_ConcurrencyLimit y)
        by (cbn; split_and!; [congruence|done|done|case_decide; lia]).
      clearbody y. destruct Hy as (-> & -> & -> & Hy). by split_and!.
    - cbn. rewrite Hrk. split_and!; try done. case_decide; lia. }
  clearbody q. clear p. destruct Hq as (H1 & H2 & [b H3] & H4 & H5 & H6). unfold NormalizeDefaults. rewrite H1, H3.
  cbv zeta. rewrite (decide_False (P := sp_PlanKind q = "")) by done.
  replace (q <| sp_AllowBalancePay := Some b |> <| sp_PlanKind := sp_PlanKind q |>) with q by (destruct q; cbn in *; by rewrite <-H3).
  case_decide as Hv.
  - destruct (H5 Hv) as [Hc Hf]. replace (q <| sp_Currency := "CNY" |>) with q by (destruct q; cbn in *; by rewrite Hc).
    rewrite Hf. destruct q; cbn in *. by rewrite decide_False by lia.
  - pose proof (H6 Hv). destruct q; cbn in *. subst. by rewrite decide_False by lia.
Qed.

(** ** Durations *)

(** The durations that fit [time.Duration]'s 63 bits of nanoseconds. *)
Definition duration_fits (plan : SubscriptionPlan) : Prop :=
  (sp_DurationUnit plan = SubscriptionDurationDay → sp_DurationValue plan ≤ 106751) ∧
  (sp_DurationUnit plan = SubscriptionDurationHour → sp_DurationValue plan ≤ 2562047) ∧
  (sp_DurationUnit plan = SubscriptionDurationCustom → sp_CustomSeconds plan ≤ 9223372036).

Lemma Add_seconds t s d : d = s * 1000000000 → Add t d = t + s.
Proof. intros ->. unfold Add. by rewrite Z.div_mul by lia. Qed.

(** For every plan whose duration fits a [time.Duration], [calcPlanEndTime]
    succeeds exactly on the valid plans, and the end is later than the start:
    exactly the configured days, hours or seconds later, and at least 28 days
    per month for the calendar units. *)
Theorem calcPlanEndTime_spec loc start plan (Hfits : duration_fits plan) :
  match calcPlanEndTime loc start plan with
  | Ok e =>
    start < e ∧
    (sp_DurationUnit plan = SubscriptionDurationYear →
       start + 336 * day_seconds * sp_DurationValue plan ≤ e) ∧
    (sp_DurationUnit plan = SubscriptionDurationMonth →
       start + 28 * day_seconds * sp_DurationValue plan ≤ e) ∧
    (sp_DurationUnit plan = SubscriptionDurationDay →
       e = start + day_seconds * sp_DurationValue plan) ∧
    (sp_DurationUnit plan = SubscriptionDurationHour →
       e = start + 3600 * sp_DurationValue plan) ∧
    (sp_DurationUnit plan = SubscriptionDurationCustom → e = start + sp_CustomSeconds plan)
  | Err _ =>
    (sp_DurationUnit plan = SubscriptionDurationCustom ∧ sp_CustomSeconds plan ≤ 0) ∨
    (sp_DurationUnit plan ≠ SubscriptionDurationCustom ∧ sp_DurationValue plan ≤ 0) ∨
    sp_DurationUnit plan ∉ [SubscriptionDurationYear; SubscriptionDurationMonth;
      SubscriptionDurationDay; SubscriptionDurationHour; SubscriptionDurationCustom]
  end.
Proof.
  destruct Hfits as (Hd & Hh & Hc). unfold calcPlanEndTime, Hour, Second.
  destruct (decide (_ ∧ _)) as [[? ?]|Hv]; [by auto|].
  assert (sp_DurationUnit plan ≠ SubscriptionDurationCustom → 0 < sp_DurationValue plan) as Hpos
    by (intros; destruct (decide (sp_DurationValue plan ≤ 0)); [by destruct Hv|lia]).
  destruct (decide (_ = SubscriptionDurationYear)) as [Hu|Hu].
  { rewrite Hu in *. specialize (Hpos ltac:(done)).
    pose proof (AddDate_months loc start (12 * sp_DurationValue plan)).
    split_and!; try done; lia. }
  destruct (decide (_ = SubscriptionDurationMonth)) as [Hm|Hm].
  { rewrite Hm in *. specialize (Hpos ltac:(done)).
    pose proof (AddDate_months loc start (sp_DurationValue plan)).
    split_and!; try done; lia. }
  destruct (decide (_ = SubscriptionDurationDay)) as [Hday|Hday].
  { rewrite Hday in *. specialize (Hpos ltac:(done)). specialize (Hd eq_refl). unwrap.
    rewrite (Add_seconds start (day_seconds * sp_DurationValue plan)) by lia.
    split_and!; try done; lia. }
  destruct (decide (_ = SubscriptionDurationHour)) as [Hhour|Hhour].
  { rewrite Hhour in *. specialize (Hpos ltac:(done)). specialize (Hh eq_refl). unwrap.
    rewrite (Add_seconds start (3600 * sp_DurationValue plan)) by lia.
    split_and!; try done; lia. }
  destruct (decide (_ = SubscriptionDurationCustom)) as [Hcus|Hcus].
  { destruct (decide (_ ≤ 0)); [by left|]. rewrite Hcus in *. specialize (Hc eq_refl). unwrap.
    rewrite (Add_seconds start (sp_CustomSeconds plan)) by lia.
    split_and!; try done; lia. }
  right; right. rewrite !not_elem_of_cons. split_and!; try done. apply not_elem_of_nil.
Qed.

Definition example_plan (unit : string) (value custom : Z) : SubscriptionPlan :=
  mkPlan 1 "plan" 1000000 "USD" unit value custom true "subscription" "" 0 "" 1 0 0 (Some true)
    0 "" 1000 "never" 0 0 "" "" 0 0.

Lemma calcPlanEndTime_spec_witness :
  duration_fits (example_plan "month" 3 0) ∧
  match calcPlanEndTime 28800 1700000000 (example_plan "month" 3 0) with
  | Ok e => 1700000000 < e | Err _ => False end.
Proof.
  assert (duration_fits (example_plan "month" 3 0)) as H by (unfold duration_fits; simpl; naive_solver lia).
  split; [exact H|]. pose proof (calcPlanEndTime_spec 28800 1700000000 _ H) as Hs.
  vm_compute in Hs |- *. tauto.
Defined.

(** Outside these bounds the nanosecond count overflows and the end of a
    plan can lie before its start, without an error. *)
Theorem calcPlanEndTime_overflow :
  ∃ e, calcPlanEndTime 0 1700000000 (example_plan "custom" 0 9223372037) = Ok e ∧ e < 1700000000.
Proof. eexists. split; [vm_compute; reflexivity|lia]. Qed.

(** The cycle length in days of a package type. *)
Definition package_days (packageType : string) : option Z :=
  if decide (packageType = ValuePackageTypeDay) then Some 1
  else if decide (packageType = ValuePackageTypeWeek) then Some 7
  else if decide (packageType = ValuePackageTypeMonth) then Some 30
  else None.

Lemma package_cycle_end loc start plan days :
  plan_normal plan → IsValuePackage plan = true → package_days (sp_PackageType plan) = Some days →
  valuePackageCycleSeconds plan = days * day_seconds ∧
  calcPlanEndTime loc start plan = Ok (start + valuePackageCycleSeconds plan).
Proof.
  intros Hnorm Hvp Htype.
  destruct (fixed_duration_cases plan) as [[_ [?|(? & ? & ?)]]|(_ & Hu & _ & Hv)].
  - congruence.
  - unfold package_days in Htype. by rewrite !decide_False in Htype.
  - rewrite (pn_fixed _ Hnorm) in Hu, Hv. unfold package_days in Htype.
    unfold valuePackageCycleSeconds, calcPlanEndTime. rewrite Hvp, Hu. simpl negb.
    destruct Hv as [(Ht & Hv & _)|[(Ht & Hv & _)|(Ht & Hv)]]; rewrite Ht in *; rewrite Hv;
      injection Htype as <-; split; reflexivity.
Qed.

(** A normalised value package of a known type lasts exactly one billing
    cycle: its purchased duration and [valuePackageCycleSeconds] agree. *)
Theorem value_package_duration_is_cycle loc start plan days
    (Hnorm : plan_normal plan) (Hvp : IsValuePackage plan = true)
    (Htype : package_days (sp_PackageType plan) = Some days) :
  valuePackageCycleSeconds plan = days * day_seconds ∧
  calcPlanEndTime loc start plan = Ok (start + valuePackageCycleSeconds plan).
Proof. by apply package_cycle_end. Qed.

Definition example_package : SubscriptionPlan :=
  normalizeValuePackagePlan
    (mkPlan 2 "month card" 99000000 "CNY" "" 0 0 true "value_package" "month" 0 "vp" 1 100 400
       (Some false) 0 "" 1000 "never" 0 2 "https://pay.ldxp.cn/item/m" "month card" 99000000 0).

Lemma value_package_duration_is_cycle_witness :
  valuePackageCycleSeconds example_package = 30 * day_seconds ∧
  calcPlanEndTime 28800 1000 example_package = Ok (1000 + valuePackageCycleSeconds example_package).
Proof.
  apply (value_package_duration_is_cycle 28800 1000 example_package 30);
    [apply normalizeValuePackagePlan_normal|reflexivity|reflexivity].
Defined.

(** ** Quota reset schedule *)

Definition reset_fits (plan : SubscriptionPlan) : Prop :=
  NormalizeResetPeriod (sp_QuotaResetPeriod plan) = SubscriptionResetCustom →
  sp_QuotaResetCustomSeconds plan ≤ 9223372036.

Lemma local_day_shift loc t k : local_day loc (t + k * day_seconds) = local_day loc t + k.
Proof.
  unfold local_day. replace (t + k * day_seconds + loc) with (t + loc + k * day_seconds) by lia.
  by rewrite Z.div_add by lia.
Qed.

Lemma clock_shift loc t k : clock loc (t + k * day_seconds) = clock loc t.
Proof.
  unfold clock. replace (t + k * day_seconds + loc) with (t + loc + k * day_seconds) by lia.
  by rewrite Z.mod_add by lia.
Qed.

Lemma clock_midnight loc t : clock loc (midnight loc t) = 0.
Proof.
  unfold clock. destruct (midnight_spec loc t) as [-> _].
  replace (local_day loc t * day_seconds - loc + loc) with (local_day loc t * day_seconds) by lia.
  by rewrite Z.mod_mul by lia.
Qed.

Lemma civil_first n : civil (month_start n) = (n, 1).
Proof.
  destruct (civil (month_start n)) as [m d] eqn:E. apply civil_spec in E as (Hd & H1 & H2).
  assert (m = n) as ->.
  { destruct (decide (m < n)).
    - pose proof (month_start_grows (m + 1) (n - (m + 1))).
      replace (m + 1 + (n - (m + 1))) with n in * by lia. lia.
    - destruct (decide (n < m)); [|lia].
      pose proof (month_start_grows n (m - n)).
      replace (n + (m - n)) with m in * by lia. lia. }
  f_equal. lia.
Qed.

Lemma local_day_first loc n : local_day loc (Date loc n 1 0) = month_start n ∧ clock loc (Date loc n 1 0) = 0.
Proof.
  unfold local_day, clock, Date.
  replace ((month_start n + 1 - 1) * day_seconds + 0 - loc + loc)
    with (month_start n * day_seconds) by lia.
  split; [by rewrite Z.div_mul by lia|by rewrite Z.mod_mul by lia].
Qed.

(** The first of the next month, as [calcNextResetTime] computes it. *)
Lemma AddDate_first loc n : AddDate loc (Date loc n 1 0) 1 0 = Date loc (n + 1) 1 0.
Proof.
  unfold AddDate. destruct (local_day_first loc n) as [-> ->]. rewrite civil_first. f_equal.
Qed.

Lemma month_contains loc t :
  let n := (civil (local_day loc t)).1 in Date loc n 1 0 ≤ t < Date loc (n + 1) 1 0.
Proof.
  cbv zeta. destruct (civil (local_day loc t)) as [n d] eqn:E. cbn [fst].
  apply civil_spec in E as (Hd & H1 & H2).
  unfold Date. destruct (midnight_spec loc t) as [Hm ?]. lia.
Qed.

Lemma next_reset_facts loc base plan endUnix (Hfits : reset_fits plan) :
  let period := NormalizeResetPeriod (sp_QuotaResetPeriod plan) in
  let next := calcNextResetTime loc base plan endUnix in
  next = 0 ∨
  (base < next ∧ (endUnix > 0 → next ≤ endUnix) ∧
   (period = SubscriptionResetDaily →
      clock loc next = 0 ∧ local_day loc next = local_day loc base + 1) ∧
   (period = SubscriptionResetWeekly →
      clock loc next = 0 ∧ Weekday loc next = 1 ∧ next ≤ base + 7 * day_seconds) ∧
   (period = SubscriptionResetMonthly →
      clock loc next = 0 ∧ civil (local_day loc next) = ((civil (local_day loc base)).1 + 1, 1)) ∧
   (period = SubscriptionResetCustom → next = base + sp_QuotaResetCustomSeconds plan)).
Proof.
  cbv zeta. unfold calcNextResetTime, reset_fits in *.
  set (period := NormalizeResetPeriod (sp_QuotaResetPeriod plan)) in *.
  pose proof (midnight_spec loc base) as [Hm Hb].
  destruct (decide (period = SubscriptionResetNever)) as [|Hn]; [by left|].
  destruct (decide (period = SubscriptionResetDaily)) as [Hp|Hp].
  { rewrite AddDate_0. case_decide as Hclip; [by left|right].
    rewrite Hp in *. rewrite clock_shift, clock_midnight, local_day_shift, local_day_midnight.
    split_and!; try done; lia. }
  destruct (decide (period = SubscriptionResetWeekly)) as [Hw|Hw].
  { rewrite AddDate_0. case_decide as Hclip; [by left|right]. rewrite Hw in *.
    rewrite clock_shift, clock_midnight. unfold Weekday in *.
    rewrite local_day_shift, local_day_midnight.
    pose proof (Z.mod_pos_bound (local_day loc base + 4) 7).
    split_and!; try done; try (case_decide; lia).
    intros _. split_and!; [done| |case_decide; lia].
    pose proof (Z.div_mod (local_day loc base + 4) 7).
    destruct (decide (_ = 0)) as [E|E].
    - rewrite <-(Z.mod_add _ (- ((local_day loc base + 4) / 7)) 7) by lia.
      replace (local_day loc base + (8 - 7) + 4 + - ((local_day loc base + 4) / 7) * 7) with 1 by lia.
      done.
    - set (w := (local_day loc base + 4) mod 7) in *.
      rewrite <-(Z.mod_add _ (- ((local_day loc base + 4) / 7) - 1) 7) by lia.
      replace (local_day loc base + (8 - w) + 4 + (- ((local_day loc base + 4) / 7) - 1) * 7)
        with 1 by lia. done. }
  destruct (decide (period = SubscriptionResetMonthly)) as [Hmo|Hmo].
  { rewrite AddDate_first. pose proof (month_contains loc base) as Hin. cbv zeta in Hin.
    case_decide as Hclip; [by left|right]. rewrite Hmo in *.
    destruct (local_day_first loc ((civil (local_day loc base)).1 + 1)) as [-> ->].
    rewrite civil_first. split_and!; try done; lia. }
  destruct (decide (period = SubscriptionResetCustom)) as [Hc|Hc]; [|by left].
  destruct (decide (_ ≤ 0)); [by left|]. specialize (Hfits Hc). unfold Second. unwrap.
  rewrite (Add_seconds base (sp_QuotaResetCustomSeconds plan)) by lia.
  case_decide as Hclip; [by left|right]. rewrite Hc in *. split_and!; try done; lia.
Qed.

(** The next quota reset of a plan is either none (0) or strictly later
    than its base and not after the subscription's end; daily, weekly and
    monthly resets fall on a local midnight, weekly ones on a Monday, monthly
    ones on the first of the month after the base. *)
Theorem calcNextResetTime_spec loc base plan endUnix (Hfits : reset_fits plan) :
  let period := NormalizeResetPeriod (sp_QuotaResetPeriod plan) in
  let next := calcNextResetTime loc base plan endUnix in
  next = 0 ∨
  (base < next ∧ (endUnix > 0 → next ≤ endUnix) ∧
   (period = SubscriptionResetDaily →
      clock loc next = 0 ∧ local_day loc next = local_day loc base + 1) ∧
   (period = SubscriptionResetWeekly →
      clock loc next = 0 ∧ Weekday loc next = 1 ∧ next ≤ base + 7 * day_seconds) ∧
   (period = SubscriptionResetMonthly →
      clock loc next = 0 ∧ civil (local_day loc next) = ((civil (local_day loc base)).1 + 1, 1)) ∧
   (period = SubscriptionResetCustom → next = base + sp_QuotaResetCustomSeconds plan)).
Proof. by apply next_reset_facts. Qed.

Definition weekly_plan : SubscriptionPlan :=
  (example_plan "month" 1 0) <| sp_QuotaResetPeriod := "weekly" |>.

Lemma calcNextResetTime_spec_witness :
  reset_fits weekly_plan ∧
  let next := calcNextResetTime 28800 1700000000 weekly_plan 0 in
  1700000000 < next ∧ Weekday 28800 next = 1.
Proof.
  assert (reset_fits weekly_plan) as H by (unfold reset_fits; vm_compute; congruence).
  split; [exact H|].
  destruct (calcNextResetTime_spec 28800 1700000000 weekly_plan 0 H) as [E|(Hlt & _ & _ & Hw & _)].
  - exfalso. revert E. vm_compute. congruence.
  - split; [exact Hlt|]. apply Hw. vm_compute. reflexivity.
Defined.
