(* ===== verification/Windows.v ===== *)
(** * Usage windows of a value package

    [model/subscription.go] (window usage, usage summaries) and
    [model/value_package_periods.go]: how much of a package was used in the
    current five-hour window, which starts at a usage record, and in the current
    seven-day window, which is anchored at the start of the subscription, and
    what the summary shown to the user says.  The percentages of the summary are
    floating point numbers for display only and are left out. *)
From S2P Require Import Prelude Tables GoFloat GoTime Schema Plans.

(** ** Definitions *)

Record ValuePackageWindowUsageDetails := mkDetails {
  vd_Used5h : Z;
  vd_Earliest5hCreatedAt : Z;
  vd_ResetAt5h : Z;
  vd_ResetSeconds5h : Z;
  vd_Used7d : Z;
  vd_Earliest7dCreatedAt : Z;
  vd_ResetAt7d : Z;
  vd_ResetSeconds7d : Z;
}.
Global Instance ValuePackageWindowUsageDetails_eta : Settable ValuePackageWindowUsageDetails := λ d,
  mkDetails (vd_Used5h d) (vd_Earliest5hCreatedAt d) (vd_ResetAt5h d) (vd_ResetSeconds5h d)
    (vd_Used7d d) (vd_Earliest7dCreatedAt d) (vd_ResetAt7d d) (vd_ResetSeconds7d d).

(** The variables of the loop of [valuePackageFixedWindowUsageDetails]. *)
Record window_state := mkWindow {
  ws_windowStart : Z;
  ws_windowEnd : Z;
  ws_expiredUntil : Z;
  ws_used : Z;
}.

Definition fixed_window_step (windowSeconds now : Z) (st : window_state)
    (record : ValuePackageUsageRecord) : window_state :=
  if decide (vu_Quota record ≤ 0 ∨ vu_CreatedAt record ≤ 0 ∨ vu_CreatedAt record > now) then st
  else if decide (vu_CreatedAt record < ws_expiredUntil st) then st
  else
    let st :=
      if decide (ws_windowStart st = 0 ∨ vu_CreatedAt record >= ws_windowEnd st)
      then mkWindow (vu_CreatedAt record) (vu_CreatedAt record +! windowSeconds)
             (ws_expiredUntil st) 0
      else st in
    if decide (now >= ws_windowEnd st) then mkWindow 0 0 (ws_windowEnd st) 0
    else mkWindow (ws_windowStart st) (ws_windowEnd st) (ws_expiredUntil st)
           (ws_used st +! vu_Quota record).

Definition valuePackageFixedWindowUsageDetails (records : list ValuePackageUsageRecord)
    (windowSeconds now : Z) : Z * Z :=
  if decide (windowSeconds ≤ 0 ∨ now ≤ 0 ∨ records = []) then (0, 0)
  else
    let st := foldl (fixed_window_step windowSeconds now) (mkWindow 0 0 0 0) records in
    if decide (ws_windowStart st = 0) then (0, 0) else (ws_used st, ws_windowStart st).

Definition valuePackageSubscriptionAnchorStart (sub : UserSubscription) (now : Z) : Z :=
  if decide (us_StartTime sub > 0) then us_StartTime sub
  else if decide (us_CreatedAt sub > 0 ∧ (now ≤ 0 ∨ us_CreatedAt sub ≤ now)) then us_CreatedAt sub
  else 0.

Record valuePackageAnchoredWindow := mkAnchored { aw_Start : Z; aw_End : Z }.

Definition calcValuePackageAnchoredWindow (startTime endTime windowSeconds now : Z) :
    valuePackageAnchoredWindow :=
  if decide (startTime ≤ 0 ∨ windowSeconds ≤ 0) then mkAnchored 0 0
  else
    let now := if decide (now ≤ 0 ∨ now < startTime) then startTime else now in
    let index := (now -! startTime) /! windowSeconds in
    let windowStart := startTime +! index *! windowSeconds in
    let windowEnd := windowStart +! windowSeconds in
    let windowEnd := if decide (endTime > 0 ∧ windowEnd > endTime) then endTime else windowEnd in
    if decide (windowEnd ≤ windowStart) then mkAnchored 0 0 else mkAnchored windowStart windowEnd.

(** The records both loops of the details keep. *)
Definition counted (sub : UserSubscription) (now : Z) (record : ValuePackageUsageRecord) : Prop :=
  vu_QuotaEpoch record = us_QuotaEpoch sub ∧ 0 < vu_Quota record ∧
  0 < vu_CreatedAt record ∧ vu_CreatedAt record ≤ now.
Global Instance counted_dec sub now r : Decision (counted sub now r) := _.

Definition seven_day_step (acc : Z * Z) (record : ValuePackageUsageRecord) : Z * Z :=
  let '(used, earliest) := acc in
  (used +! vu_Quota record,
   if decide (earliest = 0 ∨ vu_CreatedAt record < earliest) then vu_CreatedAt record else earliest).

Definition buildValuePackageWindowUsageDetailsFromRecords (sub : UserSubscription)
    (plan : SubscriptionPlan) (records : list ValuePackageUsageRecord) (lastResetAt now : Z) :
    ValuePackageWindowUsageDetails :=
  let details := mkDetails 0 0 0 0 0 0 0 0 in
  if decide (now ≤ 0) then details
  else
    let effectiveLastResetAt :=
      if decide (lastResetAt > 0 ∧ lastResetAt ≤ now) then lastResetAt else 0 in
    let fiveHourRecords :=
      filter (λ r, counted sub now r ∧
                   ¬ (effectiveLastResetAt > 0 ∧ vu_CreatedAt r < effectiveLastResetAt)) records in
    let '(used5h, earliest5h) :=
      valuePackageFixedWindowUsageDetails fiveHourRecords valuePackage5hWindowSeconds now in
    let resetAt5h :=
      if decide (used5h > 0 ∧ earliest5h > 0) then earliest5h +! valuePackage5hWindowSeconds else 0 in
    let resetSeconds5h :=
      if decide (used5h > 0 ∧ earliest5h > 0)
      then (if decide (resetAt5h -! now < 0) then 0 else resetAt5h -! now) else 0 in
    let details := details <| vd_Used5h := used5h |> <| vd_Earliest5hCreatedAt := earliest5h |>
      <| vd_ResetAt5h := resetAt5h |> <| vd_ResetSeconds5h := resetSeconds5h |> in
    if negb (valuePackageHas7dWindow plan) then details
    else
      let anchorStart := valuePackageSubscriptionAnchorStart sub now in
      if decide (anchorStart ≤ 0) then details
      else
        let window := calcValuePackageAnchoredWindow anchorStart (us_EndTime sub)
                        valuePackage7dWindowSeconds now in
        if decide (aw_Start window ≤ 0 ∨ aw_End window ≤ 0) then details
        else
          let effective7dStart :=
            if decide (valuePackageResetClears7d plan = true ∧ effectiveLastResetAt > aw_Start window)
            then effectiveLastResetAt else aw_Start window in
          let '(used7d, earliest7d) :=
            foldl seven_day_step (0, 0)
              (filter (λ r, counted sub now r ∧
                 ¬ (vu_CreatedAt r < effective7dStart ∨ vu_CreatedAt r >= aw_End window)) records) in
          details <| vd_Used7d := used7d |> <| vd_Earliest7dCreatedAt := earliest7d |>
            <| vd_ResetAt7d := aw_End window |>
            <| vd_ResetSeconds7d :=
                 if decide (aw_End window -! now < 0) then 0 else aw_End window -! now |>.

Record ValuePackagePeriodLimit := mkPeriod {
  pl_Kind : string;
  pl_LabelUnit : string;
  pl_LabelValue : Z;
  pl_Limit : Z;
  pl_Used : Z;
  pl_Remaining : Z;
  pl_Refreshes : bool;
  pl_ResetAt : Z;
  pl_Limited : bool;
}.

Definition valuePackageRemaining (limit used : Z) : Z :=
  if decide (limit ≤ 0) then 0
  else let remaining := limit -! used in
       if decide (remaining < 0) then 0 else remaining.

Definition valuePackageClampNonNegative (value : Z) : Z :=
  if decide (value < 0) then 0 else value.

Definition buildValuePackagePeriodLimits (sub : UserSubscription) (plan : SubscriptionPlan)
    (details : ValuePackageWindowUsageDetails) : list ValuePackagePeriodLimit :=
  if negb (IsValuePackage plan) then []
  else
    let lifecycleDays :=
      if decide (sp_PackageType plan = ValuePackageTypeDay) then 1
      else if decide (sp_PackageType plan = ValuePackageTypeWeek) then 7
      else if decide (sp_PackageType plan = ValuePackageTypeMonth) then 30 else 0 in
    let fiveHourLimit := valuePackageClampNonNegative (sp_Limit5hAmount plan) in
    (if decide (lifecycleDays > 0 ∨ fiveHourLimit > 0) then
       [mkPeriod "five_hour" "hour" 5 fiveHourLimit (vd_Used5h details)
          (valuePackageRemaining fiveHourLimit (vd_Used5h details)) true (vd_ResetAt5h details)
          (bool_decide (fiveHourLimit > 0 ∧ vd_Used5h details >= fiveHourLimit))]
     else []) ++
    (if decide (sp_PackageType plan = ValuePackageTypeMonth ∧ sp_Limit7dAmount plan > 0) then
       let sevenDayLimit := sp_Limit7dAmount plan in
       [mkPeriod "seven_day_stage" "day" 7 sevenDayLimit (vd_Used7d details)
          (valuePackageRemaining sevenDayLimit (vd_Used7d details)) true (vd_ResetAt7d details)
          (bool_decide (sevenDayLimit > 0 ∧ vd_Used7d details >= sevenDayLimit))]
     else []) ++
    (if decide (lifecycleDays > 0) then
       let lifecycleLimit := valuePackageClampNonNegative (us_AmountTotal sub) in
       [mkPeriod "lifecycle" "day" lifecycleDays lifecycleLimit (us_AmountUsed sub)
          (valuePackageRemaining lifecycleLimit (us_AmountUsed sub)) false 0
          (bool_decide (lifecycleLimit > 0 ∧ us_AmountUsed sub >= lifecycleLimit))]
     else []).

Record ValuePackageUsageSummary := mkSummary {
  vs_TotalUsed : Z;
  vs_TotalLimit : Z;
  vs_TotalRemaining : Z;
  vs_Used5h : Z;
  vs_Limit5h : Z;
  vs_ResetAt5h : Z;
  vs_ResetSeconds5h : Z;
  vs_Limited5h : bool;
  vs_Used7d : Z;
  vs_Limit7d : Z;
  vs_ResetAt7d : Z;
  vs_ResetSeconds7d : Z;
  vs_Limited7d : bool;
  vs_Exhausted : bool;
  vs_ExhaustedReason : string;
  vs_ExhaustedMessage : string;
  vs_PeriodLimits : list ValuePackagePeriodLimit;
}.

Definition buildValuePackageUsageSummaryFromDetails (sub : UserSubscription)
    (plan : SubscriptionPlan) (usageDetails : ValuePackageWindowUsageDetails) :
    ValuePackageUsageSummary :=
  let limited5h := bool_decide (sp_Limit5hAmount plan > 0 ∧
                                vd_Used5h usageDetails >= sp_Limit5hAmount plan) in
  let has7dWindow := valuePackageHas7dWindow plan in
  let used7d := if has7dWindow then vd_Used7d usageDetails else 0 in
  let limit7d := if has7dWindow then sp_Limit7dAmount plan else 0 in
  let limited7d := has7dWindow && bool_decide (limit7d > 0 ∧ used7d >= limit7d) in
  let totalRemaining :=
    if decide (us_AmountTotal sub > 0 ∧ us_AmountTotal sub > us_AmountUsed sub)
    then us_AmountTotal sub -! us_AmountUsed sub else 0 in
  let '(exhausted, reason) :=
    if decide (us_AmountTotal sub > 0 ∧ us_AmountUsed sub >= us_AmountTotal sub)
    then (true, ValuePackageExhaustedReasonTotal)
    else if limited5h then (true, ValuePackageExhaustedReason5h)
    else if limited7d then (true, ValuePackageExhaustedReason7d)
    else (false, "") in
  mkSummary (us_AmountUsed sub) (us_AmountTotal sub) totalRemaining
    (vd_Used5h usageDetails) (sp_Limit5hAmount plan)
    (if decide (sp_Limit5hAmount plan > 0) then vd_ResetAt5h usageDetails else 0)
    (if decide (sp_Limit5hAmount plan > 0) then vd_ResetSeconds5h usageDetails else 0)
    limited5h used7d limit7d
    (if has7dWindow then vd_ResetAt7d usageDetails else 0)
    (if has7dWindow then vd_ResetSeconds7d usageDetails else 0)
    limited7d exhausted reason
    (if exhausted : bool then ValuePackageQuotaExhaustedUserMessage else "")
    (buildValuePackagePeriodLimits sub plan usageDetails).

Definition valuePackageRenewalExhaustedReason (quotaPerUnit : float64) (usage : ValuePackageUsageSummary) :
    string :=
  if vs_Exhausted usage then vs_ExhaustedReason usage
  else if decide (vs_TotalLimit usage ≤ 0 ∨ vs_TotalRemaining usage ≤ 0) then ""
  else
    let relativeDustLimit := vs_TotalLimit usage /! 10000 in
    let absoluteDustLimit := int_of_float (float_div quotaPerUnit (float_of_int 100)) in
    if decide (relativeDustLimit ≤ 0 ∨ absoluteDustLimit ≤ 0) then ""
    else
      let relativeDustLimit :=
        if decide (relativeDustLimit > absoluteDustLimit) then absoluteDustLimit
        else relativeDustLimit in
      if decide (vs_TotalRemaining usage ≤ relativeDustLimit)
      then valuePackageRenewalExhaustedReasonTotalDust else "".

(** ** The five-hour window *)

Definition usable (now : Z) (r : ValuePackageUsageRecord) : Prop :=
  0 < vu_Quota r ∧ 0 < vu_CreatedAt r ∧ vu_CreatedAt r ≤ now.
Global Instance usable_dec now r : Decision (usable now r) := _.

Definition by_time (r1 r2 : ValuePackageUsageRecord) : Prop := vu_CreatedAt r1 ≤ vu_CreatedAt r2.

(** What the loop computes, without its early pruning: a window opens at a
    record, takes in the records of the next [W] seconds, and the first record
    after it opens the next window; the last window counts while it lasts. *)
Definition reference_step (W : Z) (cur : option (Z * Z)) (r : ValuePackageUsageRecord) :
    option (Z * Z) :=
  match cur with
  | Some (s, u) => if decide (vu_CreatedAt r < s + W) then Some (s, u + vu_Quota r)
                   else Some (vu_CreatedAt r, vu_Quota r)
  | None => Some (vu_CreatedAt r, vu_Quota r)
  end.

Definition reference_window (W now : Z) (records : list ValuePackageUsageRecord) : Z * Z :=
  match foldl (reference_step W) None (filter (usable now) records) with
  | Some (s, u) => if decide (now < s + W) then (u, s) else (0, 0)
  | None => (0, 0)
  end.

(** The window arithmetic of the records stays within [int64]. *)
Definition window_fits (W now : Z) (records : list ValuePackageUsageRecord) : Prop :=
  0 < W ∧ now + W ≤ max_int64 ∧ sumZ vu_Quota (filter (usable now) records) ≤ max_int64.

Section fixed_window.
Context (W now : Z).
Hypothesis (HW : 0 < W) (Hnow : now + W ≤ max_int64).

Inductive window_sim : window_state → option (Z * Z) → Prop :=
  | sim_none : window_sim (mkWindow 0 0 0 0) None
  | sim_live s u e : 0 < s ≤ now → now < s + W → e ≤ s →
      window_sim (mkWindow s (s + W) e u) (Some (s, u))
  | sim_expired s u : 0 < s ≤ now → s + W ≤ now →
      window_sim (mkWindow 0 0 (s + W) 0) (Some (s, u)).

Definition window_total (cur : option (Z * Z)) : Z := from_option snd 0 cur.
Definition window_before (cur : option (Z * Z)) (r : ValuePackageUsageRecord) : Prop :=
  from_option fst 0 cur ≤ vu_CreatedAt r.

Lemma window_sim_step st cur r :
  window_sim st cur → usable now r → window_before cur r →
  0 ≤ window_total cur → window_total cur + vu_Quota r ≤ max_int64 →
  window_sim (fixed_window_step W now st r) (reference_step W cur r) ∧
  0 ≤ window_total (reference_step W cur r) ≤ window_total cur + vu_Quota r.
Proof.
  intros Hsim (Hq & Ht & Hle) Hb H0 Hfit. unfold fixed_window_step, window_before, window_total in *.
  rewrite (decide_False (P := _ ∨ _)) by lia.
  assert (Hend : vu_CreatedAt r +! W = vu_CreatedAt r + W) by (unwrap; lia).
  destruct Hsim as [|s u e|s u]; cbn in *; rewrite ?Hend.
  - rewrite (decide_False (P := vu_CreatedAt r < 0)), (decide_True (P := _ ∨ _)) by lia.
    cbn. split; [|lia]. case_decide; [constructor; lia|].
    replace (0 +! vu_Quota r) with (vu_Quota r) by (unwrap; lia). constructor; lia.
  - rewrite (decide_False (P := vu_CreatedAt r < e)), (decide_False (P := _ ∨ _)) by lia; cbn.
    rewrite (decide_True (P := vu_CreatedAt r < _)), decide_False by lia.
    replace (u +! vu_Quota r) with (u + vu_Quota r) by (unwrap; lia).
    split; [by constructor|cbn; lia].
  - case_decide; [split; [constructor; lia|cbn; lia]|].
    rewrite (decide_True (P := _ ∨ _)) by lia; cbn. split; [|lia].
    case_decide; [constructor; lia|].
    replace (0 +! vu_Quota r) with (vu_Quota r) by (unwrap; lia). constructor; lia.
Qed.

Lemma window_sim_fold rs st cur :
  window_sim st cur → StronglySorted by_time rs → Forall (usable now) rs →
  Forall (window_before cur) rs →
  0 ≤ window_total cur → window_total cur + sumZ vu_Quota rs ≤ max_int64 →
  window_sim (foldl (fixed_window_step W now) st rs) (foldl (reference_step W) cur rs).
Proof.
  revert st cur. induction rs as [|r rs IH]; intros st cur Hsim Hs Hu Hb H0 Hfit; [done|].
  apply Forall_cons in Hu as [Hur Hu]. apply Forall_cons in Hb as [Hbr Hb].
  apply StronglySorted_inv in Hs as [Hs Hlt]. cbn in *.
  assert (0 ≤ sumZ vu_Quota rs).
  { apply sumZ_nonneg. apply (Forall_impl _ _ _ Hu). intros x (? & _); lia. }
  destruct (window_sim_step st cur r) as [Hsim' Htot]; [done..|lia|].
  apply IH; [done..| |lia|lia].
  apply Forall_forall. intros x Hx. rewrite Forall_forall in Hlt, Hb.
  specialize (Hlt x Hx). specialize (Hb x Hx). unfold window_before, by_time in *.
  destruct cur as [[s u]|]; cbn in *; [case_decide; cbn; lia|done].
Qed.

Lemma fixed_window_skip rs st :
  foldl (fixed_window_step W now) st rs = foldl (fixed_window_step W now) st (filter (usable now) rs).
Proof.
  revert st. induction rs as [|r rs IH]; intros st; [done|].
  rewrite filter_cons. case_decide as Hu; cbn; rewrite <-IH; [done|]. f_equal.
  unfold fixed_window_step, usable in *. rewrite (decide_True (P := _ ∨ _)) by lia. done.
Qed.

Lemma StronglySorted_filter_time (P : ValuePackageUsageRecord → Prop) `{∀ r, Decision (P r)} rs :
  StronglySorted by_time rs → StronglySorted by_time (filter P rs).
Proof.
  induction 1 as [|r rs _ IH Hlt]; [constructor|]. rewrite filter_cons.
  case_decide; [|done]. constructor; [done|].
  apply Forall_forall. intros x [_ Hx]%list_elem_of_filter. rewrite Forall_forall in Hlt; auto.
Qed.

(** The unpruned windows of sorted records: the last one starts at a record,
    reaches past all of them, and its total is what was used since. *)
Lemma reference_fold_sum rs s u :
  StronglySorted by_time rs → foldl (reference_step W) None rs = Some (s, u) →
  (∃ r, r ∈ rs ∧ vu_CreatedAt r = s) ∧ Forall (λ r, vu_CreatedAt r < s + W) rs ∧
  u = sumZ vu_Quota (filter (λ r, s ≤ vu_CreatedAt r) rs).
Proof.
  revert s u. induction rs as [|r rs IH] using rev_ind; intros s u Hs Hf; [done|].
  apply StronglySorted_app in Hs as (Hlt & Hs & _). rewrite foldl_snoc in Hf.
  assert (Hlast : ∀ x, x ∈ rs → vu_CreatedAt x ≤ vu_CreatedAt r).
  { intros x Hx. apply (Hlt x r); set_solver. }
  rewrite filter_app, sumZ_app, filter_cons, filter_nil.
  destruct (foldl (reference_step W) None rs) as [[s0 u0]|] eqn:E0; cbn in Hf.
  - destruct (IH s0 u0 Hs eq_refl) as ((x & Hx & <-) & Hall & ->).
    case_decide as Hin; simplify_eq.
    + rewrite decide_True by auto. split_and!; [set_solver| |cbn; lia].
      apply Forall_app; split; [done|]. by repeat constructor.
    + rewrite decide_True by done. split_and!; [set_solver| |].
      * apply Forall_app; split; [|repeat constructor; lia].
        eapply Forall_impl; [exact Hall|]. cbn. intros; lia.
      * rewrite filter_none; [cbn; lia|].
        intros y Hy Hle. rewrite Forall_forall in Hall. specialize (Hall y Hy). cbn in *. lia.
  - simplify_eq. rewrite decide_True by done.
    assert (rs = []) as ->; [|split_and!; [set_solver|repeat constructor; lia|cbn; lia]].
    destruct rs as [|y rs] using rev_ind; [done|]. rewrite foldl_snoc in E0.
    destruct (foldl _ _ rs) as [[]|]; cbn in E0; [case_decide|]; done.
Qed.
End fixed_window.

Lemma window_sum_nonneg now rs : 0 ≤ sumZ vu_Quota (filter (usable now) rs).
Proof.
  apply sumZ_nonneg, Forall_forall. intros r [(Hq & _) _]%list_elem_of_filter. lia.
Qed.

Lemma window_sim_all W now rs :
  StronglySorted by_time rs → window_fits W now rs →
  window_sim W now (foldl (fixed_window_step W now) (mkWindow 0 0 0 0) rs)
    (foldl (reference_step W) None (filter (usable now) rs)).
Proof.
  intros Hs (HW & Hnow & Hsum). rewrite fixed_window_skip.
  apply window_sim_fold; [done..|constructor|by apply StronglySorted_filter_time| | |done|done].
  - apply Forall_forall. by intros r [? _]%list_elem_of_filter.
  - apply Forall_forall. intros r [(? & ? & ?) _]%list_elem_of_filter. red; cbn. lia.
Qed.

Lemma fixed_window_reference W now records :
  StronglySorted by_time records → window_fits W now records →
  valuePackageFixedWindowUsageDetails records W now = reference_window W now records.
Proof.
  intros Hs Hfit. unfold valuePackageFixedWindowUsageDetails, reference_window.
  case_decide as Hd.
  - destruct Hd as [?|[Hn| ->]]; [destruct Hfit; lia| |done].
    rewrite filter_none; [done|]. intros r _ (? & ? & ?). lia.
  - destruct (window_sim_all W now records Hs Hfit); cbn.
    + by rewrite decide_True.
    + by rewrite decide_False, decide_True by lia.
    + by rewrite decide_True, decide_False by lia.
Qed.

(** C38: the five-hour usage is the total of the current window: the loop, which
    prunes expired windows as it goes, agrees on records in time order with the
    definition that opens a window at a record, fills it for its length, and
    counts the last window while it lasts. *)
Theorem valuePackageFixedWindowUsageDetails_reference W now records :
  StronglySorted by_time records → window_fits W now records →
  valuePackageFixedWindowUsageDetails records W now = reference_window W now records.
Proof. apply fixed_window_reference. Qed.

Definition example_record (id quota created : Z) : ValuePackageUsageRecord :=
  mkUsage id 1 1 1 ValuePackageTypeDay "default" ("req" +:+ pretty id) quota 0 created.

Example valuePackageFixedWindowUsageDetails_reference_witness :
  valuePackageFixedWindowUsageDetails
    [example_record 1 5 100; example_record 2 7 18000; example_record 3 9 18200] 18000 20000 = (9, 18200).
Proof.
  rewrite valuePackageFixedWindowUsageDetails_reference.
  - reflexivity.
  - repeat constructor; red; cbn; lia.
  - split_and!; vm_compute; done.
Defined.

(** A reported five-hour window is current, starts at one of the records,
    and its usage is everything recorded since it started. *)
Theorem valuePackageFixedWindowUsageDetails_sum W now records used start :
  StronglySorted by_time records → window_fits W now records →
  valuePackageFixedWindowUsageDetails records W now = (used, start) → start ≠ 0 →
  start ≤ now < start + W ∧ (∃ r, r ∈ records ∧ usable now r ∧ vu_CreatedAt r = start) ∧
  used = sumZ vu_Quota (filter (λ r, usable now r ∧ start ≤ vu_CreatedAt r) records).
Proof.
  intros Hs Hfit. unfold valuePackageFixedWindowUsageDetails.
  case_decide as Hd; [naive_solver|].
  pose proof (window_sim_all W now records Hs Hfit) as Hsim.
  destruct (foldl (reference_step W) None _) as [[s u]|] eqn:Hf; inversion Hsim; subst; cbn;
    (case_decide; [naive_solver|]); intros [= <- <-] _; [|done..].
  destruct (reference_fold_sum W now) with (rs := filter (usable now) records) (s := s) (u := u)
    as ((r & Hr & <-) & _ & ->); [apply Hfit|apply Hfit|by apply StronglySorted_filter_time|done|].
  apply list_elem_of_filter in Hr as [Hu Hr].
  split_and!; [lia..|eauto|]. rewrite list_filter_filter. f_equal. apply list_filter_iff. naive_solver.
Qed.

Example valuePackageFixedWindowUsageDetails_sum_witness :
  18200 ≤ 20000 < 18200 + 18000 ∧
  (∃ r, r ∈ [example_record 1 5 100; example_record 2 7 18000; example_record 3 9 18200] ∧
        usable 20000 r ∧ vu_CreatedAt r = 18200) ∧
  9 = sumZ vu_Quota (filter (λ r, usable 20000 r ∧ 18200 ≤ vu_CreatedAt r)
        [example_record 1 5 100; example_record 2 7 18000; example_record 3 9 18200]).
Proof.
  apply valuePackageFixedWindowUsageDetails_sum.
  - repeat constructor; red; cbn; lia.
  - split_and!; vm_compute; done.
  - reflexivity.
  - done.
Defined.

Lemma window_fits_snoc W now records r :
  usable now r → window_fits W now (records ++ [r]) →
  window_fits W now records ∧
  sumZ vu_Quota (filter (usable now) records) + vu_Quota r ≤ max_int64.
Proof.
  intros Hu (? & ? & Hsum). rewrite filter_app, sumZ_app, filter_cons, filter_nil in Hsum.
  rewrite decide_True in Hsum by done. cbn in Hsum. destruct Hu. unfold window_fits. lia.
Qed.

Lemma reference_total_le W rs cur :
  Forall (λ r, 0 ≤ vu_Quota r) rs → 0 ≤ window_total cur →
  0 ≤ window_total (foldl (reference_step W) cur rs) ≤ window_total cur + sumZ vu_Quota rs.
Proof.
  intros Hq. revert cur. induction Hq as [|r rs Hr _ IH]; intros cur H0;
    unfold window_total in *; cbn in *; [lia|].
  destruct cur as [[s u]|]; cbn in *; [case_decide|];
    match goal with |- context [foldl _ ?c rs] => destruct (IH c); cbn in *; lia end.
Qed.

(** A request that is charged now counts in the current window, or opens one. *)
Lemma fixed_window_charge W now records r :
  StronglySorted by_time records → window_fits W now (records ++ [r]) →
  vu_CreatedAt r = now → 0 < now → 0 < vu_Quota r →
  (valuePackageFixedWindowUsageDetails (records ++ [r]) W now).1 =
  (valuePackageFixedWindowUsageDetails records W now).1 + vu_Quota r.
Proof.
  intros Hs Hfit Ht Hnow Hq. assert (Hu : usable now r) by (red; lia).
  destruct (window_fits_snoc W now records r Hu Hfit) as [Hfit' Hsum].
  rewrite (fixed_window_reference W now records Hs Hfit').
  unfold valuePackageFixedWindowUsageDetails, reference_window.
  rewrite decide_False by (destruct Hfit'; intros [?|[?|?%app_nil]]; [lia|lia|naive_solver]).
  rewrite foldl_snoc.
  pose proof (window_sim_all W now records Hs Hfit') as Hsim.
  assert (Hw := reference_total_le W (filter (usable now) records) None). destruct Hw as [Hw0 Hw]; [|done|].
  { apply Forall_forall. intros x [(? & _) _]%list_elem_of_filter. lia. }
  destruct (window_sim_step W now (proj1 Hfit') (proj1 (proj2 Hfit')) _ _ r Hsim Hu) as [Hstep _];
    [|done|cbn in *; lia|].
  { red. destruct Hsim; cbn; lia. }
  destruct Hfit' as (HW & _).
  destruct (foldl (reference_step W) None _) as [[s u]|]; cbn in *;
    [case_decide; rewrite ?(decide_True (P := now < s + W)), ?(decide_False (P := now < s + W)) by lia|];
    inversion Hstep; subst; cbn; first [lia|rewrite decide_False by lia; done].
Qed.

(** ** The seven-day window *)

Lemma anchored_window_spec start end_ W now :
  0 < start ≤ now → (end_ ≤ 0 ∨ now < end_) → 0 < W → now + W ≤ max_int64 →
  let w := calcValuePackageAnchoredWindow start end_ W now in
  start ≤ aw_Start w ≤ now ∧ now < aw_End w ≤ aw_Start w + W ∧
  (aw_Start w - start) mod W = 0 ∧ (aw_End w = aw_Start w + W ∨ aw_End w = end_).
Proof.
  intros Hs He HW Hfit. unfold calcValuePackageAnchoredWindow. cbv zeta.
  rewrite (decide_False (P := _ ∨ _)), (decide_False (P := now ≤ 0 ∨ _)) by lia.
  assert (Hdiv : 0 ≤ (now - start) / W * W ≤ now - start ∧ now - start < (now - start) / W * W + W).
  { pose proof (Z.div_mod (now - start) W). pose proof (Z.mod_pos_bound (now - start) W).
    assert (0 ≤ (now - start) / W) by (apply Z.div_pos; lia). nia. }
  assert (Hi : (now - start) / W ≤ now - start) by (apply Z.div_le_upper_bound; nia).
  assert (0 ≤ (now - start) / W) by (apply Z.div_pos; lia).
  replace ((now -! start) /! W) with ((now - start) / W)
    by (unwrap; rewrite ?Z.quot_div_nonneg by lia; unwrap; lia).
  replace (start +! _) with (start + (now - start) / W * W) by (unwrap; lia).
  replace (_ +! W) with (start + (now - start) / W * W + W) by (unwrap; lia).
  assert (Hmod : (start + (now - start) / W * W - start) mod W = 0).
  { replace (_ - start) with ((now - start) / W * W) by lia. apply Z.mod_mul. lia. }
  repeat case_decide; cbn; split_and!; first [lia|done].
Qed.

(** The seven-day window of an active package contains the present, starts a
    whole number of weeks after the anchor, and lasts a week unless the
    subscription ends first. *)
Theorem calcValuePackageAnchoredWindow_spec start end_ now :
  0 < start ≤ now → (end_ ≤ 0 ∨ now < end_) → now + valuePackage7dWindowSeconds ≤ max_int64 →
  let w := calcValuePackageAnchoredWindow start end_ valuePackage7dWindowSeconds now in
  start ≤ aw_Start w ≤ now ∧ now < aw_End w ≤ aw_Start w + valuePackage7dWindowSeconds ∧
  (aw_Start w - start) mod valuePackage7dWindowSeconds = 0 ∧
  (aw_End w = aw_Start w + valuePackage7dWindowSeconds ∨ aw_End w = end_).
Proof. intros Hs He Hfit. by apply anchored_window_spec. Qed.

Example calcValuePackageAnchoredWindow_spec_witness :
  calcValuePackageAnchoredWindow 1000 1500000 valuePackage7dWindowSeconds 1400000
    = mkAnchored 1210600 1500000 ∧ 1000 ≤ 1210600 ≤ 1400000.
Proof.
  split; [reflexivity|].
  apply (calcValuePackageAnchoredWindow_spec 1000 1500000 1400000); [lia|lia|vm_compute; done].
Defined.

Lemma seven_day_fold records used earliest :
  0 ≤ used → Forall (λ r, 0 < vu_Quota r) records → used + sumZ vu_Quota records ≤ max_int64 →
  (foldl seven_day_step (used, earliest) records).1 = used + sumZ vu_Quota records.
Proof.
  revert used earliest. induction records as [|r rs IH]; intros used earliest H0 Hq Hfit; cbn in *; [lia|].
  apply Forall_cons in Hq as [Hr Hq].
  assert (0 ≤ sumZ vu_Quota rs) by (apply sumZ_nonneg, (Forall_impl _ _ _ Hq); lia).
  replace (used +! vu_Quota r) with (used + vu_Quota r) by (unwrap; lia).
  rewrite IH; [lia|lia|done|lia].
Qed.

(** Everything in [records] that the details of [sub] can count. *)
Definition epoch_total (sub : UserSubscription) (now : Z) (records : list ValuePackageUsageRecord) : Z :=
  sumZ vu_Quota (filter (counted sub now) records).

Lemma counted_filter_fits sub now records (P : ValuePackageUsageRecord → Prop) `{∀ r, Decision (P r)} :
  0 ≤ sumZ vu_Quota (filter (λ r, counted sub now r ∧ P r) records) ≤ epoch_total sub now records.
Proof.
  unfold epoch_total. split.
  - apply sumZ_nonneg, Forall_forall. intros r [((_ & ? & _) & _) _]%list_elem_of_filter. lia.
  - rewrite (list_filter_iff _ (λ r, P r ∧ counted sub now r)) by naive_solver.
    rewrite <-list_filter_filter. apply sumZ_filter_le, Forall_forall.
    intros r [(_ & ? & _) _]%list_elem_of_filter. lia.
Qed.

Definition effective_reset (lastResetAt now : Z) : Z :=
  if decide (lastResetAt > 0 ∧ lastResetAt ≤ now) then lastResetAt else 0.

Definition five_hour_records (sub : UserSubscription) (lastResetAt now : Z)
    (records : list ValuePackageUsageRecord) : list ValuePackageUsageRecord :=
  filter (λ r, counted sub now r ∧
    ¬ (effective_reset lastResetAt now > 0 ∧ vu_CreatedAt r < effective_reset lastResetAt now)) records.

(** The window of seven days in force and its start after a reset. *)
Definition seven_day_window (sub : UserSubscription) (now : Z) : valuePackageAnchoredWindow :=
  calcValuePackageAnchoredWindow (valuePackageSubscriptionAnchorStart sub now) (us_EndTime sub)
    valuePackage7dWindowSeconds now.

Definition in_seven_days (sub : UserSubscription) (lastResetAt now : Z)
    (r : ValuePackageUsageRecord) : Prop :=
  aw_Start (seven_day_window sub now) `max` effective_reset lastResetAt now ≤ vu_CreatedAt r ∧
  vu_CreatedAt r < aw_End (seven_day_window sub now).
Global Instance in_seven_days_dec sub l now r : Decision (in_seven_days sub l now r) := _.

(** An active subscription whose clock is in range. *)
Record in_force (sub : UserSubscription) (now : Z) : Prop := {
  if_start : 0 < us_StartTime sub ≤ now;
  if_end : us_EndTime sub ≤ 0 ∨ now < us_EndTime sub;
  if_clock : now + valuePackage7dWindowSeconds ≤ max_int64;
}.

Lemma in_force_anchor sub now :
  in_force sub now → valuePackageSubscriptionAnchorStart sub now = us_StartTime sub.
Proof. intros []. unfold valuePackageSubscriptionAnchorStart. by rewrite decide_True by lia. Qed.

Lemma seven_day_window_now sub now :
  in_force sub now →
  us_StartTime sub ≤ aw_Start (seven_day_window sub now) ≤ now ∧ now < aw_End (seven_day_window sub now).
Proof.
  intros Hf. unfold seven_day_window. rewrite (in_force_anchor sub now Hf). destruct Hf as [Hs He Hc].
  destruct (anchored_window_spec (us_StartTime sub) (us_EndTime sub) valuePackage7dWindowSeconds now)
    as (? & ? & _); [done..|lia].
Qed.

Lemma details_used5h sub plan records lastResetAt now :
  0 < now →
  vd_Used5h (buildValuePackageWindowUsageDetailsFromRecords sub plan records lastResetAt now) =
  (valuePackageFixedWindowUsageDetails (five_hour_records sub lastResetAt now records)
     valuePackage5hWindowSeconds now).1.
Proof.
  intros Hn. unfold buildValuePackageWindowUsageDetailsFromRecords. rewrite decide_False by lia.
  fold (effective_reset lastResetAt now). fold (five_hour_records sub lastResetAt now records).
  destruct (valuePackageFixedWindowUsageDetails _ _ _) as [u e].
  destruct (negb _); [done|]. do 2 (case_decide; [done|]). by destruct (foldl _ _ _).
Qed.

Lemma details_used7d sub plan records lastResetAt now :
  in_force sub now → valuePackageHas7dWindow plan = true → epoch_total sub now records ≤ max_int64 →
  vd_Used7d (buildValuePackageWindowUsageDetailsFromRecords sub plan records lastResetAt now) =
  sumZ vu_Quota (filter (λ r, counted sub now r ∧ in_seven_days sub lastResetAt now r) records).
Proof.
  intros Hf H7 Hfit. pose proof (seven_day_window_now sub now Hf) as (Hw1 & Hw2).
  pose proof (if_start sub now Hf). unfold buildValuePackageWindowUsageDetailsFromRecords.
  rewrite decide_False by lia. fold (effective_reset lastResetAt now).
  destruct (valuePackageFixedWindowUsageDetails _ _ _) as [u e]. rewrite H7.
  cbn [negb]. rewrite (decide_False (P := _ ≤ 0)) by (rewrite (in_force_anchor sub now Hf); lia).
  fold (seven_day_window sub now). rewrite (decide_False (P := _ ∨ _)) by lia.
  change (valuePackageResetClears7d plan) with (valuePackageHas7dWindow plan). rewrite H7.
  rewrite (list_filter_iff _ (λ r, counted sub now r ∧ in_seven_days sub lastResetAt now r)).
  2:{ intros r. unfold in_seven_days. case_decide; naive_solver lia. }
  pose proof (seven_day_fold (filter (λ r, counted sub now r ∧ in_seven_days sub lastResetAt now r) records) 0 0) as Hs.
  destruct (foldl _ _ _) as [u7 e7]. cbn in *. apply Hs; [done| |].
  - apply Forall_forall. intros r [((_ & ? & _) & _) _]%list_elem_of_filter. lia.
  - pose proof (counted_filter_fits sub now records (in_seven_days sub lastResetAt now)). lia.
Qed.

Lemma details_charge5h sub plan records lastResetAt now r :
  StronglySorted by_time records → in_force sub now →
  epoch_total sub now (records ++ [r]) ≤ max_int64 →
  vu_QuotaEpoch r = us_QuotaEpoch sub → vu_CreatedAt r = now → 0 < vu_Quota r →
  vd_Used5h (buildValuePackageWindowUsageDetailsFromRecords sub plan (records ++ [r]) lastResetAt now) =
  vd_Used5h (buildValuePackageWindowUsageDetailsFromRecords sub plan records lastResetAt now) + vu_Quota r.
Proof.
  intros Hs Hf Hfit He Hc Hq. pose proof (if_start sub now Hf). pose proof (if_clock sub now Hf) as Hcl.
  rewrite !details_used5h by lia. unfold five_hour_records.
  rewrite filter_app, filter_cons, filter_nil.
  rewrite (decide_True (P := _ ∧ _)).
  2:{ unfold counted, effective_reset. case_decide; lia. }
  apply fixed_window_charge; [by apply StronglySorted_filter_time| |done|lia|done].
  unfold valuePackage5hWindowSeconds, valuePackage7dWindowSeconds in *. split_and!; [lia|lia|].
  etransitivity; [|etransitivity; [apply (counted_filter_fits sub now (records ++ [r])
    (λ r, ¬ (effective_reset lastResetAt now > 0 ∧ vu_CreatedAt r < effective_reset lastResetAt now)))|exact Hfit]].
  rewrite filter_app, (filter_app _ records), !sumZ_app.
  rewrite (filter_cons _ r), (filter_cons _ r), !filter_nil.
  rewrite (decide_True (P := usable now r)) by (red; lia).
  rewrite (decide_True (P := _ ∧ _)).
  2:{ unfold counted, effective_reset. case_decide; lia. }
  apply Z.add_le_mono_r, sumZ_filter_le, Forall_forall.
  intros x [((_ & ? & _) & _) _]%list_elem_of_filter. lia.
Qed.

Lemma details_charge7d sub plan records lastResetAt now r :
  in_force sub now → valuePackageHas7dWindow plan = true →
  epoch_total sub now (records ++ [r]) ≤ max_int64 →
  vu_QuotaEpoch r = us_QuotaEpoch sub → vu_CreatedAt r = now → 0 < vu_Quota r →
  vd_Used7d (buildValuePackageWindowUsageDetailsFromRecords sub plan (records ++ [r]) lastResetAt now) =
  vd_Used7d (buildValuePackageWindowUsageDetailsFromRecords sub plan records lastResetAt now) + vu_Quota r.
Proof.
  intros Hf H7 Hfit He Hc Hq. pose proof (if_start sub now Hf).
  assert (Hr : counted sub now r) by (red; lia).
  assert (epoch_total sub now records ≤ max_int64).
  { unfold epoch_total in *. rewrite filter_app, sumZ_app, filter_cons, filter_nil in Hfit.
    rewrite decide_True in Hfit by done. cbn in Hfit. lia. }
  rewrite !details_used7d by done. rewrite filter_app, sumZ_app, filter_cons, filter_nil.
  rewrite decide_True; [cbn; lia|]. split; [done|].
  pose proof (seven_day_window_now sub now Hf). unfold in_seven_days, effective_reset. case_decide; lia.
Qed.

Lemma details_used_bounds sub plan records lastResetAt now :
  StronglySorted by_time records → in_force sub now → epoch_total sub now records ≤ max_int64 →
  let details := buildValuePackageWindowUsageDetailsFromRecords sub plan records lastResetAt now in
  0 ≤ vd_Used5h details ≤ epoch_total sub now records ∧
  (valuePackageHas7dWindow plan = true → 0 ≤ vd_Used7d details ≤ epoch_total sub now records).
Proof.
  intros Hs Hf Hfit. pose proof (if_start sub now Hf). pose proof (if_clock sub now Hf) as Hcl. cbv zeta. split.
  - rewrite details_used5h by lia. unfold five_hour_records.
    pose proof (counted_filter_fits sub now records (λ r, ¬ (effective_reset lastResetAt now > 0 ∧
      vu_CreatedAt r < effective_reset lastResetAt now))) as Hle. set (l := filter _ _) in *.
    assert (Hsub : filter (usable now) l = l).
    { apply filter_all, Forall_forall. intros r [[(? & ? & ?) _] _]%list_elem_of_filter. by split. }
    unfold valuePackage7dWindowSeconds in Hcl.
    rewrite fixed_window_reference; [|by apply StronglySorted_filter_time|].
    2:{ unfold window_fits, valuePackage5hWindowSeconds. rewrite Hsub. lia. }
    pose proof (reference_total_le valuePackage5hWindowSeconds l None) as Ht.
    unfold reference_window. rewrite Hsub. cbn in Ht.
    destruct (foldl _ _ l) as [[s u]|]; cbn in *; [case_decide; cbn|lia];
      (destruct Ht; [|done|lia]); apply Forall_forall; intros r [((_ & ? & _) & _) _]%list_elem_of_filter; lia.
  - intros H7. rewrite details_used7d by done. apply counted_filter_fits.
Qed.

(** A charge made now is counted in full by both windows, so a limit checked
    against the used amount plus the charge is the limit on the amount that the
    windows report afterwards. *)
Theorem window_details_charge sub plan records lastResetAt now r :
  StronglySorted by_time records → in_force sub now →
  epoch_total sub now (records ++ [r]) ≤ max_int64 →
  vu_QuotaEpoch r = us_QuotaEpoch sub → vu_CreatedAt r = now → 0 < vu_Quota r →
  let before := buildValuePackageWindowUsageDetailsFromRecords sub plan records lastResetAt now in
  let after := buildValuePackageWindowUsageDetailsFromRecords sub plan (records ++ [r]) lastResetAt now in
  vd_Used5h after = vd_Used5h before + vu_Quota r ∧
  (valuePackageHas7dWindow plan = true → vd_Used7d after = vd_Used7d before + vu_Quota r).
Proof. intros. split; [by apply details_charge5h|intros; by apply details_charge7d]. Qed.

Lemma fixed_window_nil W now : valuePackageFixedWindowUsageDetails [] W now = (0, 0).
Proof. unfold valuePackageFixedWindowUsageDetails. by rewrite decide_True by auto. Qed.

(** A quota reset, which moves the subscription to a new epoch, empties both
    windows: records of earlier epochs are not counted. *)
Theorem window_details_new_epoch sub plan records lastResetAt now :
  Forall (λ r, vu_QuotaEpoch r ≠ us_QuotaEpoch sub) records →
  let details := buildValuePackageWindowUsageDetailsFromRecords sub plan records lastResetAt now in
  vd_Used5h details = 0 ∧ vd_Used7d details = 0 ∧ vd_ResetAt5h details = 0.
Proof.
  intros Hep. assert (Hnone : ∀ P : ValuePackageUsageRecord → Prop, ∀ dec : (∀ r, Decision (P r)),
    filter (λ r, counted sub now r ∧ P r) records = []).
  { intros P dec. apply filter_none. rewrite Forall_forall in Hep.
    intros r Hr [(He & _) _]. by apply (Hep r Hr). }
  unfold buildValuePackageWindowUsageDetailsFromRecords. cbv zeta.
  case_decide; [done|]. rewrite !Hnone, fixed_window_nil.
  rewrite (decide_False (P := 0 > 0 ∧ 0 > 0)) by lia.
  destruct (negb _); [done|]. do 2 (case_decide; [done|]). done.
Qed.

Definition example_sub : UserSubscription :=
  mkSub 1 1 2 1000 40 0 1000 3000000 "active" "order" 0 0 0 0 "" "" 1000 1000.

Definition example_records : list ValuePackageUsageRecord :=
  [example_record 1 30 2000; example_record 2 10 30000].

Example window_details_charge_witness :
  vd_Used5h (buildValuePackageWindowUsageDetailsFromRecords example_sub example_package
    (example_records ++ [example_record 3 5 40000]) 0 40000) = 10 + 5 ∧
  (valuePackageHas7dWindow example_package = true →
   vd_Used7d (buildValuePackageWindowUsageDetailsFromRecords example_sub example_package
    (example_records ++ [example_record 3 5 40000]) 0 40000) = 40 + 5).
Proof.
  apply (window_details_charge example_sub example_package example_records 0 40000
           (example_record 3 5 40000)).
  - repeat constructor; red; cbn; lia.
  - split; [cbn; lia|cbn; lia|vm_compute; done].
  - vm_compute; done.
  - reflexivity.
  - reflexivity.
  - reflexivity.
Defined.

Example window_details_new_epoch_witness :
  vd_Used5h (buildValuePackageWindowUsageDetailsFromRecords (example_sub <| us_QuotaEpoch := 1 |>)
    example_package example_records 0 40000) = 0.
Proof.
  apply (window_details_new_epoch (example_sub <| us_QuotaEpoch := 1 |>) example_package
           example_records 0 40000).
  repeat constructor; done.
Defined.

(** ** The usage summary *)

Lemma existsb_if_single (P : Prop) `{Decision P} (p : ValuePackagePeriodLimit) :
  existsb pl_Limited (if decide P then [p] else []) = bool_decide P && pl_Limited p.
Proof. case_decide; [rewrite bool_decide_true by done; cbn; apply orb_false_r|by rewrite bool_decide_false]. Qed.

Lemma summary_exhausted sub plan details :
  vs_Exhausted (buildValuePackageUsageSummaryFromDetails sub plan details) =
  bool_decide (us_AmountTotal sub > 0 ∧ us_AmountUsed sub >= us_AmountTotal sub)
  || bool_decide (sp_Limit5hAmount plan > 0 ∧ vd_Used5h details >= sp_Limit5hAmount plan)
  || valuePackageHas7dWindow plan && bool_decide (vd_Used7d details >= sp_Limit7dAmount plan).
Proof.
  unfold buildValuePackageUsageSummaryFromDetails.
  case_decide as Ht; [by rewrite (bool_decide_true _ Ht)|rewrite (bool_decide_false _ Ht); cbn [orb]].
  destruct (bool_decide (sp_Limit5hAmount plan > 0 ∧ _)); [done|]. cbn [orb].
  destruct (valuePackageHas7dWindow plan) eqn:H7; [|done]. cbn [andb].
  unfold valuePackageHas7dWindow in H7. rewrite !andb_true_iff in H7. destruct H7 as [_ H7%bool_decide_eq_true].
  rewrite (bool_decide_ext (sp_Limit7dAmount plan > 0 ∧ _) (vd_Used7d details >= sp_Limit7dAmount plan)) by lia.
  by destruct (bool_decide _).
Qed.

(** The summary of a package says it is exhausted exactly when one of the
    period limits it lists is reached. *)
Theorem summary_exhausted_limited sub plan details days
    (Hvp : IsValuePackage plan = true) (Htype : package_days (sp_PackageType plan) = Some days) :
  let summary := buildValuePackageUsageSummaryFromDetails sub plan details in
  vs_Exhausted summary = existsb pl_Limited (vs_PeriodLimits summary).
Proof.
  cbv zeta. rewrite summary_exhausted.
  replace (vs_PeriodLimits _) with (buildValuePackagePeriodLimits sub plan details)
    by (unfold buildValuePackageUsageSummaryFromDetails; by destruct (decide _), (bool_decide _), (_ && _)).
  unfold buildValuePackagePeriodLimits, valuePackageHas7dWindow, valuePackageClampNonNegative.
  rewrite Hvp. cbn [negb andb].
  set (days' := if decide (sp_PackageType plan = ValuePackageTypeDay) then 1 else _).
  assert (Hd : days' > 0).
  { unfold days', package_days in *. repeat case_decide; [lia..|done]. }
  rewrite !existsb_app, !existsb_if_single. cbn [pl_Limited].
  rewrite (bool_decide_true (days' > 0)), (bool_decide_true (_ ∨ _)) by lia. cbn [andb].
  apply eq_bool_prop_intro. rewrite !Is_true_true, !orb_true_iff, !andb_true_iff, !bool_decide_eq_true.
  repeat case_decide; intuition lia.
Qed.

Example summary_exhausted_limited_witness :
  vs_Exhausted (buildValuePackageUsageSummaryFromDetails example_sub example_package
                  (mkDetails 100 0 0 0 0 0 0 0)) = true.
Proof.
  rewrite (summary_exhausted_limited example_sub example_package (mkDetails 100 0 0 0 0 0 0 0) 30);
    reflexivity.
Defined.
