(* ===== verification/Cycles.v ===== *)
(** * Billing cycles

    [model/subscription.go]: how a subscription enters a new quota period.  A
    value package advances in fixed cycles counted from its start, with an audit
    row and a new quota epoch ([maybeAdvanceValuePackageCycleTx]); a regular
    subscription is reset by the schedule of its plan
    ([maybeResetUserSubscriptionWithPlanTx]); [ResetDueSubscriptions] is the
    background task that does both.  Functions that update the subscription they
    are given return the updated copy. *)
From S2P Require Import Prelude Tables GoFloat GoTime Schema Plans Windows.

(** ** Definitions *)

Definition getSubscriptionPlanByIdFreshTx (id : Z) : Tx SubscriptionPlan :=
  _ ← fail_if (id ≤ 0) (ErrNew "invalid plan id");
  db ← get;
  plan ← or_error (by_id id (subscription_plans db)) ErrRecordNotFound;
  mret (NormalizeDefaults plan).

(** Without a transaction the plan may come from a cache of rows read before;
    the cache is transparent here. *)
Definition getSubscriptionPlanByIdTx (id : Z) : Tx SubscriptionPlan :=
  _ ← fail_if (id ≤ 0) (ErrNew "invalid plan id");
  plan ← getSubscriptionPlanByIdFreshTx id;
  mret (NormalizeDefaults plan).

Definition maybeAdvanceValuePackageCycleTx (env : Env) (sub : UserSubscription)
    (plan : SubscriptionPlan) (now : Z) : Tx UserSubscription :=
  let cycleSeconds := valuePackageCycleSeconds plan in
  if decide (cycleSeconds ≤ 0 ∨ us_StartTime sub ≤ 0 ∨ now < us_StartTime sub +! cycleSeconds)
  then mret sub
  else
    let completedCycles := (now -! us_StartTime sub) /! cycleSeconds in
    let cycleStart := us_StartTime sub +! completedCycles *! cycleSeconds in
    let lastCycleStart := if decide (us_LastResetTime sub < us_StartTime sub)
                          then us_StartTime sub else us_LastResetTime sub in
    if decide (cycleStart ≤ lastCycleStart) then mret sub
    else
      _ ← fail_if (us_QuotaEpoch sub = max_int64) (ErrNew "value package quota epoch overflow");
      let fromEpoch := us_QuotaEpoch sub in
      let amountUsedBefore := us_AmountUsed sub in
      let nextCycleStart := cycleStart +! cycleSeconds in
      let sub := sub <| us_AmountUsed := 0 |> <| us_QuotaEpoch := fromEpoch +! 1 |>
        <| us_LastResetTime := cycleStart |>
        <| us_NextResetTime :=
             if decide (us_EndTime sub > 0 ∧ nextCycleStart >= us_EndTime sub) then 0
             else nextCycleStart |> in
      _ ← create_quota_reset env
            (mkReset 0 (us_UserId sub) (us_Id sub) (us_PlanId sub) (sp_PackageType plan) cycleStart
               fromEpoch (us_QuotaEpoch sub) amountUsedBefore ValuePackageQuotaResetSourceCycleRenewal
               0 "fixed package cycle renewal");
      save_subscription env sub.

(** The variables of the loop of [maybeResetUserSubscriptionWithPlanTx]. *)
Record reset_state := mkResetState { rs_base : Z; rs_next : Z; rs_advanced : bool }.

Definition reset_step (loc : Z) (plan : SubscriptionPlan) (endTime now : Z) (st : reset_state) :
    option reset_state :=
  if decide (0 < rs_next st ∧ rs_next st ≤ now)
  then Some (mkResetState (rs_next st) (calcNextResetTime loc (rs_next st) plan endTime) true)
  else None.

Definition reset_fuel : positive := 18446744073709551616.

Definition maybeResetUserSubscriptionWithPlanTx (env : Env) (sub : UserSubscription)
    (plan : SubscriptionPlan) (now : Z) : Tx UserSubscription :=
  if decide (us_NextResetTime sub > 0 ∧ us_NextResetTime sub > now) then mret sub
  else if decide (NormalizeResetPeriod (sp_QuotaResetPeriod plan) = SubscriptionResetNever)
  then mret sub
  else
    let base := if decide (us_LastResetTime sub ≤ 0) then us_StartTime sub
                else us_LastResetTime sub in
    let next := calcNextResetTime (local_offset env) base plan (us_EndTime sub) in
    let '(st, returned) :=
      loop reset_fuel (reset_step (local_offset env) plan (us_EndTime sub) now)
        (mkResetState base next false) in
    if negb returned then throw ErrDiverges
    else if negb (rs_advanced st) then
      if decide (us_NextResetTime sub = 0 ∧ rs_next st > 0)
      then save_subscription env
             (sub <| us_NextResetTime := rs_next st |> <| us_LastResetTime := rs_base st |>)
      else mret sub
    else
      save_subscription env
        (sub <| us_AmountUsed := 0 |> <| us_LastResetTime := rs_base st |>
             <| us_NextResetTime := rs_next st |>).

Definition by_next_reset (s1 s2 : UserSubscription) : Prop := us_NextResetTime s1 ≤ us_NextResetTime s2.
Global Instance by_next_reset_dec : RelDecision by_next_reset.
Proof. unfold by_next_reset. solve_decision. Defined.

(** The transaction of one subscription of [ResetDueSubscriptions]: whether it
    counts as reset. *)
Definition reset_due_one (env : Env) (now : Z) (plan : SubscriptionPlan) (id : Z) : Tx bool :=
  db ← get;
  match first (λ s, us_Id s = id ∧ us_NextResetTime s > 0 ∧ us_NextResetTime s ≤ now)
          (user_subscriptions db) with
  | None => mret false
  | Some locked =>
    let plan := normalizeValuePackagePlan plan in
    locked' ← (if IsValuePackage plan then maybeAdvanceValuePackageCycleTx env locked plan now
               else maybeResetUserSubscriptionWithPlanTx env locked plan now);
    mret (negb (bool_decide (us_QuotaEpoch locked' = us_QuotaEpoch locked ∧
                             us_NextResetTime locked' = us_NextResetTime locked)))
  end.

Fixpoint reset_due_loop (env : Env) (now : Z) (subs : list UserSubscription) (resetCount : Z) :
    Tx (Z * option error) :=
  match subs with
  | [] => mret (resetCount, None)
  | sub :: subs =>
    plan ← attempt (getSubscriptionPlanByIdTx (us_PlanId sub));
    match plan with
    | Err _ => reset_due_loop env now subs resetCount
    | Ok plan =>
      r ← attempt (transaction (reset_due_one env now plan (us_Id sub)));
      match r with
      | Ok counted => reset_due_loop env now subs (if counted : bool then resetCount +! 1 else resetCount)
      | Err e => mret (resetCount, Some e)
      end
    end
  end.

Definition ResetDueSubscriptions (env : Env) (limit : Z) : Tx (Z * option error) :=
  let limit := if decide (limit ≤ 0) then 200 else limit in
  let now := db_now env in
  db ← get;
  let subs := take (Z.to_nat limit) (order_by by_next_reset
    (where_ (λ s, us_NextResetTime s > 0 ∧ us_NextResetTime s ≤ now ∧ us_Status s = "active")
       (user_subscriptions db))) in
  reset_due_loop env now subs 0.

(** ** Window usage from the tables *)

Definition getLastValuePackageQuotaResetAtTx (env : Env) (userId userSubscriptionId now : Z) : Tx Z :=
  let now := if decide (now ≤ 0) then db_now env else now in
  db ← get;
  mret (sql_max (vr_ResetAt <$>
    where_ (λ r, vr_UserId r = userId ∧ vr_UserSubscriptionId r = userSubscriptionId ∧
                 vr_ResetAt r ≤ now) (quota_resets db))).

(** [Order("created_at asc, id asc")]. *)
Definition by_created (r1 r2 : ValuePackageUsageRecord) : Prop :=
  vu_CreatedAt r1 < vu_CreatedAt r2 ∨ (vu_CreatedAt r1 = vu_CreatedAt r2 ∧ vu_Id r1 ≤ vu_Id r2).
Global Instance by_created_dec : RelDecision by_created.
Proof. unfold by_created. solve_decision. Defined.

Definition window_lower_bound (sub : UserSubscription) (now : Z) : Z :=
  if decide (valuePackageSubscriptionAnchorStart sub now ≤ 0)
  then now -! valuePackage7dWindowSeconds else valuePackageSubscriptionAnchorStart sub now.

Definition window_records (db : DB) (userId userSubscriptionId : Z) (sub : UserSubscription) (now : Z) :
    list ValuePackageUsageRecord :=
  order_by by_created
    (where_ (λ r, vu_UserId r = userId ∧ vu_UserSubscriptionId r = userSubscriptionId ∧
                  vu_QuotaEpoch r = us_QuotaEpoch sub ∧
                  vu_CreatedAt r >= window_lower_bound sub now ∧ vu_CreatedAt r ≤ now ∧
                  vu_Quota r > 0) (usage_records db)).

Definition getValuePackageWindowUsageDetailsTx (env : Env) (userId userSubscriptionId now : Z) :
    Tx ValuePackageWindowUsageDetails :=
  let now := if decide (now ≤ 0) then db_now env else now in
  db ← get;
  sub ← or_error (first (λ s, us_Id s = userSubscriptionId ∧ us_UserId s = userId)
                    (user_subscriptions db)) ErrRecordNotFound;
  plan ← getSubscriptionPlanByIdTx (us_PlanId sub);
  let plan := normalizeValuePackagePlan plan in
  lastResetAt ← getLastValuePackageQuotaResetAtTx env userId userSubscriptionId now;
  mret (buildValuePackageWindowUsageDetailsFromRecords sub plan
          (window_records db userId userSubscriptionId sub now) lastResetAt now).

Definition getValuePackageWindowUsageTx (env : Env) (userId userSubscriptionId now : Z) : Tx (Z * Z) :=
  details ← getValuePackageWindowUsageDetailsTx env userId userSubscriptionId now;
  mret (vd_Used5h details, vd_Used7d details).

(** The pointer result is [nil] for a subscription without an id. *)
Definition buildValuePackageUsageSummaryTx (env : Env) (userId : Z) (sub : UserSubscription)
    (plan : SubscriptionPlan) (now : Z) : Tx (option ValuePackageUsageSummary) :=
  if decide (us_Id sub ≤ 0) then mret None
  else
    let now := if decide (now ≤ 0) then db_now env else now in
    usageDetails ← getValuePackageWindowUsageDetailsTx env userId (us_Id sub) now;
    mret (Some (buildValuePackageUsageSummaryFromDetails sub plan usageDetails)).

(** ** Fixed cycles of a value package *)

(** The start of the cycle that contains [now]. *)
Definition cycle_start (start cycle now : Z) : Z := start + (now - start) / cycle * cycle.

(** The start of the cycle a subscription is in. *)
Definition last_cycle (sub : UserSubscription) : Z := us_StartTime sub `max` us_LastResetTime sub.

Record cycle_fits (sub : UserSubscription) (cycle now : Z) : Prop := {
  cf_start : 0 < us_StartTime sub;
  cf_now : us_StartTime sub ≤ now;
  cf_cycle : 0 < cycle;
  cf_clock : now + cycle ≤ max_int64;
  cf_epoch : 0 ≤ us_QuotaEpoch sub < max_int64;
}.

Lemma cycle_start_bounds start cycle now :
  0 < start ≤ now → 0 < cycle →
  start ≤ cycle_start start cycle now ≤ now ∧ now < cycle_start start cycle now + cycle.
Proof.
  intros Hs Hc. unfold cycle_start.
  pose proof (Z.div_mod (now - start) cycle). pose proof (Z.mod_pos_bound (now - start) cycle).
  assert (0 ≤ (now - start) / cycle) by (apply Z.div_pos; lia). nia.
Qed.

Lemma cycle_start_wraps start cycle now :
  0 < start ≤ now → 0 < cycle → now + cycle ≤ max_int64 →
  start +! ((now -! start) /! cycle) *! cycle = cycle_start start cycle now ∧
  cycle_start start cycle now +! cycle = cycle_start start cycle now + cycle ∧
  start +! cycle = start + cycle.
Proof.
  intros Hs Hc Hfit. pose proof (cycle_start_bounds start cycle now Hs Hc) as [Hb1 Hb2].
  unfold cycle_start in *.
  assert ((now - start) / cycle ≤ now - start) by (apply Z.div_le_upper_bound; nia).
  assert (0 ≤ (now - start) / cycle) by (apply Z.div_pos; lia).
  replace ((now -! start) /! cycle) with ((now - start) / cycle)
    by (unwrap; rewrite ?Z.quot_div_nonneg by lia; unwrap; lia).
  split_and!; unwrap; lia.
Qed.

(** What the cycle that contains [now] makes of the subscription. *)
Definition renewed (cycle now : Z) (sub : UserSubscription) : UserSubscription :=
  let cs := cycle_start (us_StartTime sub) cycle now in
  sub <| us_AmountUsed := 0 |> <| us_QuotaEpoch := us_QuotaEpoch sub + 1 |>
      <| us_LastResetTime := cs |>
      <| us_NextResetTime := if decide (us_EndTime sub > 0 ∧ cs + cycle >= us_EndTime sub) then 0
                             else cs + cycle |>.

Definition renewal_audit (sub : UserSubscription) (plan : SubscriptionPlan) (now : Z) :
    ValuePackageQuotaReset :=
  mkReset 0 (us_UserId sub) (us_Id sub) (us_PlanId sub) (sp_PackageType plan)
    (cycle_start (us_StartTime sub) (valuePackageCycleSeconds plan) now)
    (us_QuotaEpoch sub) (us_QuotaEpoch sub + 1) (us_AmountUsed sub)
    ValuePackageQuotaResetSourceCycleRenewal 0 "fixed package cycle renewal".

Lemma create_quota_reset_run env r db :
  vr_ResetAt r ≠ 0 → create_quota_reset env r db = (Ok tt, db <| quota_resets ::= insert_row r |>).
Proof. intros. unfold create_quota_reset. by rewrite decide_False. Qed.

Lemma advance_cycle_run env sub plan now db :
  cycle_fits sub (valuePackageCycleSeconds plan) now →
  maybeAdvanceValuePackageCycleTx env sub plan now db =
  if decide (cycle_start (us_StartTime sub) (valuePackageCycleSeconds plan) now ≤ last_cycle sub)
  then (Ok sub, db)
  else
    let sub' := (renewed (valuePackageCycleSeconds plan) now sub) <| us_UpdatedAt := app_now env |> in
    (Ok sub', db <| quota_resets ::= insert_row (renewal_audit sub plan now) |>
                 <| user_subscriptions ::= save sub' |>).
Proof.
  intros [Hs Hn Hc Hk He]. unfold maybeAdvanceValuePackageCycleTx.
  set (c := valuePackageCycleSeconds plan) in *.
  pose proof (cycle_start_bounds (us_StartTime sub) c now) as [Hb1 Hb2]; [lia..|].
  destruct (cycle_start_wraps (us_StartTime sub) c now) as (-> & Hw2 & ->); [lia..|].
  unfold last_cycle.
  assert (Hlast : (if decide (us_LastResetTime sub < us_StartTime sub) then us_StartTime sub
    else us_LastResetTime sub) = us_StartTime sub `max` us_LastResetTime sub) by (case_decide; lia).
  rewrite Hlast, Hw2. clear Hlast Hw2.
  case_decide as Hearly.
  { assert (cycle_start (us_StartTime sub) c now ≤ us_StartTime sub `max` us_LastResetTime sub).
    { unfold cycle_start in *. assert (now - us_StartTime sub < c) by lia.
      rewrite Z.div_small by lia. lia. }
    by rewrite decide_True. }
  case_decide; [done|]. rewrite (bind_ok _ _ tt db db) by (apply fail_if_pass; lia).
  replace (us_QuotaEpoch sub +! 1) with (us_QuotaEpoch sub + 1) by (unwrap; lia).
  eapply run_bind; [apply create_quota_reset_run; cbn; lia|reflexivity].
Qed.

Lemma renewed_last_cycle cycle now sub :
  0 < us_StartTime sub ≤ now → 0 < cycle →
  last_cycle (renewed cycle now sub) = cycle_start (us_StartTime sub) cycle now.
Proof.
  intros Hs Hc. destruct (cycle_start_bounds (us_StartTime sub) cycle now Hs Hc) as [? _].
  unfold last_cycle, renewed. cbn. lia.
Qed.

(** However late it runs, the cycle check leaves the subscription in the
    cycle that contains the present, changes nothing when it is there already,
    and otherwise starts exactly one new quota epoch with nothing used, on a
    cycle boundary. *)
Theorem advance_cycle_current env sub plan now db :
  cycle_fits sub (valuePackageCycleSeconds plan) now →
  ∃ sub' db', maybeAdvanceValuePackageCycleTx env sub plan now db = (Ok sub', db') ∧
    now < last_cycle sub' + valuePackageCycleSeconds plan ∧
    ((sub' = sub ∧ db' = db) ∨
     (us_QuotaEpoch sub' = us_QuotaEpoch sub + 1 ∧ us_AmountUsed sub' = 0 ∧
      us_LastResetTime sub' ≤ now ∧ last_cycle sub < us_LastResetTime sub' ∧
      (us_LastResetTime sub' - us_StartTime sub) mod valuePackageCycleSeconds plan = 0)).
Proof.
  intros Hfit. rewrite (advance_cycle_run env sub plan now db Hfit). destruct Hfit as [Hs Hn Hc Hk He].
  pose proof (cycle_start_bounds (us_StartTime sub) (valuePackageCycleSeconds plan) now) as [Hb1 Hb2]; [lia..|].
  case_decide as Hcase; eexists _, _; (split; [reflexivity|]).
  - split; [lia|]. by left.
  - split; [unfold last_cycle, renewed; cbn; lia|]. right. cbn. split_and!; [done..|lia|lia|].
    unfold cycle_start. rewrite Z.add_simpl_l. apply Z.mod_mul. lia.
Qed.

Definition example_env : Env := mkEnv 10000000 10000000 28800 (float_of_int 500000).

Example advance_cycle_current_witness :
  ∃ sub' db', maybeAdvanceValuePackageCycleTx example_env example_sub example_package 6000000 empty_DB
    = (Ok sub', db') ∧ us_QuotaEpoch sub' = 1 ∧ us_LastResetTime sub' = 1000 + 2 * 2592000.
Proof.
  destruct (advance_cycle_current example_env example_sub example_package 6000000 empty_DB)
    as (sub' & db' & Hrun & _).
  - split; vm_compute; done.
  - exists sub', db'. split; [exact Hrun|]. vm_compute in Hrun. by injection Hrun as <- _.
Defined.

(** Checking the cycle twice at the same time is checking it once: one
    renewal, one audit row. *)
Theorem advance_cycle_idempotent env sub plan now db :
  cycle_fits sub (valuePackageCycleSeconds plan) now → us_QuotaEpoch sub + 1 < max_int64 →
  (sub' ← maybeAdvanceValuePackageCycleTx env sub plan now;
   maybeAdvanceValuePackageCycleTx env sub' plan now) db =
  maybeAdvanceValuePackageCycleTx env sub plan now db.
Proof.
  intros Hfit He. pose proof (advance_cycle_run env sub plan now db Hfit) as Hrun.
  rewrite Hrun. revert Hrun. case_decide as Hcase; intros Hrun.
  - by rewrite (bind_ok _ _ _ _ _ Hrun).
  - rewrite (bind_ok _ _ _ _ _ Hrun). destruct Hfit as [Hs Hn Hc Hk Hq].
    rewrite advance_cycle_run; [|by split; cbn; lia].
    rewrite decide_True; [done|].
    unfold last_cycle, renewed; cbn. lia.
Qed.

Example advance_cycle_idempotent_witness :
  length (rows (quota_resets ((sub' ← maybeAdvanceValuePackageCycleTx example_env example_sub
      example_package 6000000;
    maybeAdvanceValuePackageCycleTx example_env sub' example_package 6000000) empty_DB).2)) = 1%nat.
Proof.
  rewrite advance_cycle_idempotent; [reflexivity|split; vm_compute; done|vm_compute; done].
Defined.

(** ** Scheduled resets *)

Section reset_loop.
Context (loc : Z) (plan : SubscriptionPlan) (endTime now : Z).
Hypothesis (Hfits : reset_fits plan) (Hnow : now ≤ max_int64).

(** The loop only ever looks at the reset after its base. *)
Definition reset_ok (st : reset_state) : Prop :=
  rs_next st = calcNextResetTime loc (rs_base st) plan endTime.

Lemma reset_ok_later st : reset_ok st → rs_next st = 0 ∨ rs_base st < rs_next st.
Proof. intros ->. destruct (next_reset_facts loc (rs_base st) plan endTime Hfits) as [|(? & _)]; auto. Qed.

Lemma reset_step_ok s1 s2 : reset_ok s1 → reset_step loc plan endTime now s1 = Some s2 → reset_ok s2.
Proof. intros _. unfold reset_step. by case_decide; intros [= <-]. Qed.

Lemma reset_loop_returns st :
  reset_ok st → (loop reset_fuel (reset_step loc plan endTime now) st).2 = true.
Proof.
  intros Hok. apply (loop_terminates _ reset_ok
    (λ s, if decide (0 < rs_next s) then now - rs_next s else -1)); [done|apply reset_step_ok| |].
  - intros s1 s2 Hs1. pose proof (reset_step_ok s1 s2 Hs1) as Hs2. unfold reset_step in *.
    case_decide as Hd; intros [= Heq]. specialize (Hs2 (f_equal Some Heq)).
    apply reset_ok_later in Hs2. subst s2. cbn in *. rewrite decide_True by lia.
    split; [lia|]. case_decide; lia.
  - unfold reset_fuel. case_decide; lia.
Qed.
End reset_loop.

(** The reset schedule of every plan whose custom period fits Go's duration
    type is found in finitely many steps: the call returns. *)
Theorem maybeResetUserSubscription_returns env sub plan now db :
  reset_fits plan → now ≤ max_int64 →
  ∃ sub', (maybeResetUserSubscriptionWithPlanTx env sub plan now db).1 = Ok sub'.
Proof.
  intros Hfits Hnow. unfold maybeResetUserSubscriptionWithPlanTx.
  repeat (case_decide; [by eexists|]).
  match goal with |- context [loop _ _ ?st] =>
    pose proof (reset_loop_returns (local_offset env) plan (us_EndTime sub) now Hfits Hnow st) as Hret
  end.
  specialize (Hret eq_refl). destruct (loop _ _ _) as [st b]. cbn in Hret. subst b. cbn [negb].
  destruct (negb _); [case_decide|]; by eexists.
Qed.

Example maybeResetUserSubscription_returns_witness :
  ∃ sub', (maybeResetUserSubscriptionWithPlanTx example_env example_sub weekly_plan 6000000 empty_DB).1 = Ok sub'.
Proof.
  apply maybeResetUserSubscription_returns; [|vm_compute; done].
  red. by vm_compute.
Defined.

Definition reset_base (sub : UserSubscription) : Z :=
  if decide (us_LastResetTime sub ≤ 0) then us_StartTime sub else us_LastResetTime sub.

(** Where the loop stops, and what a call does with it. *)
Record reset_stop (env : Env) (sub : UserSubscription) (plan : SubscriptionPlan) (now : Z)
    (st : reset_state) : Prop := {
  rst_ok : reset_ok (local_offset env) plan (us_EndTime sub) st;
  rst_stop : ¬ (0 < rs_next st ∧ rs_next st ≤ now);
  rst_start : rs_advanced st = false → rs_base st = reset_base sub;
  rst_advanced : rs_advanced st = true → 0 < rs_base st ≤ now;
  rst_due : rs_advanced st = true →
    0 < calcNextResetTime (local_offset env) (reset_base sub) plan (us_EndTime sub) ≤ now;
}.

Lemma reset_run env sub plan now db :
  reset_fits plan → now ≤ max_int64 →
  ¬ (us_NextResetTime sub > 0 ∧ us_NextResetTime sub > now) →
  NormalizeResetPeriod (sp_QuotaResetPeriod plan) ≠ SubscriptionResetNever →
  ∃ st, reset_stop env sub plan now st ∧
    maybeResetUserSubscriptionWithPlanTx env sub plan now db =
    if negb (rs_advanced st) then
      if decide (us_NextResetTime sub = 0 ∧ rs_next st > 0)
      then save_subscription env
             (sub <| us_NextResetTime := rs_next st |> <| us_LastResetTime := rs_base st |>) db
      else (Ok sub, db)
    else save_subscription env
           (sub <| us_AmountUsed := 0 |> <| us_LastResetTime := rs_base st |>
                <| us_NextResetTime := rs_next st |>) db.
Proof.
  intros Hfits Hnow Hdue Hper. unfold maybeResetUserSubscriptionWithPlanTx.
  rewrite (decide_False (P := _ ∧ _)), (decide_False (P := _ = SubscriptionResetNever)) by done.
  fold (reset_base sub).
  set (st0 := mkResetState (reset_base sub) _ false).
  pose proof (reset_loop_returns (local_offset env) plan (us_EndTime sub) now Hfits Hnow st0 eq_refl) as Hret.
  set (next0 := calcNextResetTime _ _ _ _) in st0.
  assert (Hinv : (λ st, reset_ok (local_offset env) plan (us_EndTime sub) st ∧
      (rs_advanced st = false → rs_base st = reset_base sub) ∧
      (rs_advanced st = true → 0 < rs_base st ≤ now) ∧ (rs_advanced st = true → 0 < next0 ≤ now))
      (loop reset_fuel (reset_step (local_offset env) plan (us_EndTime sub) now) st0).1).
  { apply loop_inv; [done|]. intros s1 s2 (H1 & H2 & H3 & H4). unfold reset_step.
    case_decide as Hd; intros [= <-]. split_and!; [done..|]. intros _.
    destruct (rs_advanced s1); [by apply H4|]. unfold next0. by rewrite <-(H2 eq_refl), <-H1. }
  destruct (loop _ _ _) as [st b] eqn:Hloop. cbn in Hret, Hinv. subst b. exists st. split.
  - destruct Hinv as (H1 & H2 & H3 & H4). apply loop_done in Hloop. unfold reset_step in Hloop.
    case_decide; [done|]. by split.
  - cbn [negb]. destruct (negb _); [by case_decide|done].
Qed.

Lemma reset_run_settled env sub plan now db :
  reset_fits plan → now ≤ max_int64 →
  us_NextResetTime sub = calcNextResetTime (local_offset env) (reset_base sub) plan (us_EndTime sub) →
  ¬ (0 < us_NextResetTime sub ∧ us_NextResetTime sub ≤ now) →
  maybeResetUserSubscriptionWithPlanTx env sub plan now db = (Ok sub, db).
Proof.
  intros Hfits Hnow Hn Hs.
  destruct (decide (us_NextResetTime sub > 0 ∧ us_NextResetTime sub > now)) as [Hd|Hd].
  { unfold maybeResetUserSubscriptionWithPlanTx. by rewrite decide_True. }
  destruct (decide (NormalizeResetPeriod (sp_QuotaResetPeriod plan) = SubscriptionResetNever)).
  { unfold maybeResetUserSubscriptionWithPlanTx. rewrite decide_False by done. by rewrite decide_True. }
  destruct (reset_run env sub plan now db Hfits Hnow Hd) as (st & [Hok Hstop Hst _ Hdue] & ->); [done|].
  destruct (rs_advanced st); cbn [negb]; [specialize (Hdue eq_refl); lia|].
  red in Hok. rewrite (Hst eq_refl), <-Hn in Hok. rewrite decide_False by lia. done.
Qed.

(** After a scheduled reset the next one is in the future or there is none,
    and a second check at the same time changes nothing. *)
Theorem maybeResetUserSubscription_idempotent env sub plan now db :
  reset_fits plan → now ≤ max_int64 →
  ∃ sub' db', maybeResetUserSubscriptionWithPlanTx env sub plan now db = (Ok sub', db') ∧
    (sub' ≠ sub → us_NextResetTime sub' = 0 ∨ now < us_NextResetTime sub') ∧
    maybeResetUserSubscriptionWithPlanTx env sub' plan now db' = (Ok sub', db').
Proof.
  intros Hfits Hnow.
  destruct (decide (us_NextResetTime sub > 0 ∧ us_NextResetTime sub > now)) as [Hd|Hd].
  { exists sub, db. unfold maybeResetUserSubscriptionWithPlanTx. by rewrite decide_True. }
  destruct (decide (NormalizeResetPeriod (sp_QuotaResetPeriod plan) = SubscriptionResetNever)).
  { exists sub, db. unfold maybeResetUserSubscriptionWithPlanTx. rewrite decide_False by done.
    by rewrite decide_True. }
  destruct (reset_run env sub plan now db Hfits Hnow Hd) as (st & [Hok Hstop Hst Hadv _] & Hrun); [done|].
  pose proof (reset_ok_later _ _ _ Hfits st Hok) as Hlater. red in Hok.
  destruct (rs_advanced st) eqn:Ea; cbn [negb] in Hrun; [|case_decide as Hset].
  - specialize (Hadv eq_refl). rewrite Hrun. eexists _, _. split; [reflexivity|]. cbn. split; [lia|].
    apply reset_run_settled; [done..| |cbn; lia].
    unfold reset_base. cbn. by rewrite decide_False by lia.
  - rewrite Hrun. eexists _, _. split; [reflexivity|]. cbn. split; [lia|].
    unfold maybeResetUserSubscriptionWithPlanTx. rewrite decide_True by (cbn; lia). done.
  - exists sub, db. done.
Qed.

Example maybeResetUserSubscription_idempotent_witness :
  ∃ sub' db', maybeResetUserSubscriptionWithPlanTx example_env example_sub weekly_plan 6000000 empty_DB
    = (Ok sub', db') ∧
    maybeResetUserSubscriptionWithPlanTx example_env sub' weekly_plan 6000000 db' = (Ok sub', db').
Proof.
  destruct (maybeResetUserSubscription_idempotent example_env example_sub weekly_plan 6000000 empty_DB)
    as (sub' & db' & H1 & _ & H2); [by vm_compute|vm_compute; done|eauto].
Defined.

(** ** A custom period that never advances *)

Lemma loop_diverges {S} (step : S → option S) (P : S → Prop) p s :
  P s → (∀ s1, P s1 → ∃ s2, step s1 = Some s2 ∧ P s2) →
  P (loop p step s).1 ∧ (loop p step s).2 = false.
Proof.
  intros Hs Hstep. revert s Hs. induction p as [q IH|q IH|]; intros s Hs; cbn.
  - destruct (Hstep s Hs) as (s0 & -> & H0). destruct (IH s0 H0) as [H1 H1'].
    destruct (loop q step s0) as [s1 []]; [done|]. by apply IH.
  - destruct (IH s Hs) as [H1 H1']. destruct (loop q step s) as [s1 []]; [done|]. by apply IH.
  - by destruct (Hstep s Hs) as (s0 & -> & H0).
Qed.

(** A custom reset period of 18446744074 seconds: in nanoseconds it wraps around
    to 0.29 seconds, and truncated to seconds the reset never moves. *)
Definition stuck_plan : SubscriptionPlan :=
  weekly_plan <| sp_QuotaResetPeriod := SubscriptionResetCustom |>
              <| sp_QuotaResetCustomSeconds := 18446744074 |>.

(** Without a bound on the custom period the loop of
    [maybeResetUserSubscriptionWithPlanTx] can run forever: for this plan no
    number of iterations brings it to an end, whenever the subscription has
    started and does not end before it starts. *)
Theorem maybeResetUserSubscription_diverges loc endTime now base fuel :
  0 < base ≤ now → endTime ≤ 0 ∨ base ≤ endTime →
  (loop fuel (reset_step loc stuck_plan endTime now)
     (mkResetState base (calcNextResetTime loc base stuck_plan endTime) false)).2 = false.
Proof.
  intros Hb He.
  assert (Hnext : calcNextResetTime loc base stuck_plan endTime = base).
  { unfold calcNextResetTime.
    replace (NormalizeResetPeriod _) with SubscriptionResetCustom by reflexivity.
    replace (Add base _) with base by (unfold Add; vm_compute (_ *! _); Z.to_euclidean_division_equations; lia).
    cbv zeta. rewrite !(decide_False (P := SubscriptionResetCustom = _)) by done.
    rewrite (decide_True (P := SubscriptionResetCustom = _)) by done.
    rewrite (decide_False (P := sp_QuotaResetCustomSeconds _ ≤ 0)) by (cbn; lia).
    by rewrite decide_False by lia. }
  rewrite Hnext. apply (loop_diverges _ (λ st, rs_base st = base ∧ rs_next st = base)); [done|].
  intros s [H1 H2]. unfold reset_step. rewrite decide_True by lia. eexists. split; [done|].
  cbn. by rewrite H2.
Qed.

Example maybeResetUserSubscription_diverges_witness :
  (loop 1000 (reset_step 28800 stuck_plan 3000000 2000)
     (mkResetState 1000 (calcNextResetTime 28800 1000 stuck_plan 3000000) false)).2 = false.
Proof. apply maybeResetUserSubscription_diverges; lia. Defined.
