(* ===== verification/Consume.v ===== *)
(** * Charging subscriptions

    [model/subscription.go]: requests charged to a subscription before they are
    sent upstream ([PreConsumeUserSubscription],
    [PreConsumeValuePackageSubscription]), adjusted to what they cost
    ([ReserveValuePackageUsageToTarget], [PostConsumeUserSubscriptionDelta]) and
    refunded ([RefundSubscriptionPreConsume]).  Each exported function is one
    database transaction; row locks make the transactions of one subscription
    serial, so they are modelled as atomic steps.  The guarantees are in
    [Accounting.v]. *)
From S2P Require Import Prelude Tables GoFloat GoTime Schema Plans Windows Cycles.

(** ** Definitions *)

Record SubscriptionPreConsumeResult := mkResult {
  pr_UserSubscriptionId : Z;
  pr_PreConsumed : Z;
  pr_AmountTotal : Z;
  pr_AmountUsedBefore : Z;
  pr_AmountUsedAfter : Z;
  pr_QuotaEpoch : Z;
}.

(** The unique indexes of the two tables of requests. *)
Definition same_usage (userSubscriptionId : Z) (requestId : string) (r : ValuePackageUsageRecord) : Prop :=
  vu_UserSubscriptionId r = userSubscriptionId ∧ vu_RequestId r = requestId.
Global Instance same_usage_dec i q r : Decision (same_usage i q r) := _.

Definition usage_of (userSubscriptionId : Z) (requestId : string) (db : DB) :
    option ValuePackageUsageRecord :=
  first (same_usage userSubscriptionId requestId) (usage_records db).

Definition pre_consume_of (requestId : string) (db : DB) : option SubscriptionPreConsumeRecord :=
  first (λ r, pc_RequestId r = requestId) (pre_consume_records db).

(** The columns an upsert of a usage record assigns on a conflict. *)
Definition usage_assign (record r : ValuePackageUsageRecord) : ValuePackageUsageRecord :=
  r <| vu_UserId := vu_UserId record |> <| vu_PlanId := vu_PlanId record |>
    <| vu_PackageType := vu_PackageType record |> <| vu_ModelGroup := vu_ModelGroup record |>
    <| vu_Quota := vu_Quota record |>.

Definition upsert_usage (env : Env) (record : ValuePackageUsageRecord)
    (t : table ValuePackageUsageRecord) : table ValuePackageUsageRecord :=
  let same := same_usage (vu_UserSubscriptionId record) (vu_RequestId record) in
  match first same t with
  | Some _ => update_where same (usage_assign record) t
  | None =>
    insert_row (if decide (vu_CreatedAt record = 0) then record <| vu_CreatedAt := app_now env |>
                else record) t
  end.

Definition recordValuePackageUsageTx (env : Env) (record : ValuePackageUsageRecord) : Tx () :=
  _ ← fail_if (vu_UserId record ≤ 0 ∨ vu_UserSubscriptionId record ≤ 0 ∨ vu_Quota record < 0 ∨
               TrimSpace (vu_RequestId record) = "")
        (ErrNew "invalid value package usage record: requestId, userId and userSubscriptionId are required; quota must be non-negative");
  modify (λ d, d <| usage_records ::= upsert_usage env record |>).

Definition revokeValuePackageUsageReservationTx (userSubscriptionId : Z) (requestId : string) : Tx () :=
  if decide (userSubscriptionId ≤ 0 ∨ TrimSpace requestId = "") then mret tt
  else modify (λ d, d <| usage_records ::=
         update_where (same_usage userSubscriptionId requestId) (λ r, r <| vu_Quota := 0 |>) |>).

(** [Create] of a pre-consume record; [request_id] is unique, so it fails or,
    with [DoNothing], affects no row when there is one. *)
Definition create_pre_consume_unique (env : Env) (r : SubscriptionPreConsumeRecord) : Tx bool :=
  db ← get;
  match pre_consume_of (pc_RequestId r) db with
  | Some _ => mret false
  | None => _ ← create_pre_consume env r; mret true
  end.

(** The answer to a request that was already pre-consumed. *)
Definition replay_result (existing : SubscriptionPreConsumeRecord) : Tx SubscriptionPreConsumeResult :=
  db ← get;
  sub ← or_error (by_id (pc_UserSubscriptionId existing) (user_subscriptions db)) ErrRecordNotFound;
  mret (mkResult (us_Id sub) (pc_PreConsumed existing) (us_AmountTotal sub) (us_AmountUsed sub)
          (us_AmountUsed sub) (pc_QuotaEpoch existing)).

Definition insufficient (detail : string) (need : Z) : error :=
  ErrNew ("subscription quota insufficient: " +:+ ValuePackageQuotaExhaustedUserMessage +:+ detail +:+
          ", need=" +:+ pretty need).

(** [Order("end_time asc, id asc")]. *)
Definition by_end_time (s1 s2 : UserSubscription) : Prop :=
  us_EndTime s1 < us_EndTime s2 ∨ (us_EndTime s1 = us_EndTime s2 ∧ us_Id s1 ≤ us_Id s2).
Global Instance by_end_time_dec : RelDecision by_end_time.
Proof. unfold by_end_time. solve_decision. Defined.

(** The loop over the active subscriptions: the first regular one with enough
    left is charged. *)
Fixpoint pre_consume_candidates (env : Env) (now : Z) (requestId : string) (userId amount : Z)
    (subs : list UserSubscription) : Tx SubscriptionPreConsumeResult :=
  match subs with
  | [] => throw (ErrNew ("subscription quota insufficient, need=" +:+ pretty amount))
  | candidate :: subs =>
    plan ← getSubscriptionPlanByIdTx (us_PlanId candidate);
    let plan := normalizeValuePackagePlan plan in
    if IsValuePackage plan then pre_consume_candidates env now requestId userId amount subs
    else
      sub ← maybeResetUserSubscriptionWithPlanTx env candidate plan now;
      let usedBefore := us_AmountUsed sub in
      if decide (us_AmountTotal sub > 0 ∧ us_AmountTotal sub -! usedBefore < amount)
      then pre_consume_candidates env now requestId userId amount subs
      else
        created ← create_pre_consume_unique env
          (mkPre 0 requestId userId (us_Id sub) amount 0 "consumed" 0 0);
        if created : bool then
          let sub := sub <| us_AmountUsed := us_AmountUsed sub +! amount |> in
          sub ← save_subscription env sub;
          mret (mkResult (us_Id sub) amount (us_AmountTotal sub) usedBefore (us_AmountUsed sub) 0)
        else
          db ← get;
          dup ← or_error (pre_consume_of requestId db) ErrDatabase;
          _ ← fail_if (pc_Status dup = "refunded")
                (ErrNew "subscription pre-consume already refunded");
          mret (mkResult (us_Id sub) (pc_PreConsumed dup) (us_AmountTotal sub) (us_AmountUsed sub)
                  (us_AmountUsed sub) 0)
  end.

Definition PreConsumeUserSubscription (env : Env) (requestId : string) (userId amount : Z) :
    Tx SubscriptionPreConsumeResult :=
  _ ← fail_if (userId ≤ 0) (ErrNew "invalid userId");
  _ ← fail_if (TrimSpace requestId = "") (ErrNew "requestId is empty");
  _ ← fail_if (amount ≤ 0) (ErrNew "amount must be > 0");
  let now := db_now env in
  transaction (
    db ← get;
    match pre_consume_of requestId db with
    | Some existing =>
      _ ← fail_if (pc_Status existing = "refunded")
            (ErrNew "subscription pre-consume already refunded");
      replay_result existing
    | None =>
      let subs := order_by by_end_time
        (where_ (λ s, us_UserId s = userId ∧ us_Status s = "active" ∧ us_EndTime s > now)
           (user_subscriptions db)) in
      _ ← fail_if (subs = []) (ErrNew "no active subscription");
      pre_consume_candidates env now requestId userId amount subs
    end).

(** The row lock and checks the value package operations start with: the active
    subscription with its plan, in its current cycle. *)
Definition lock_active_package (env : Env) (now userId userSubscriptionId : Z) :
    Tx (UserSubscription * SubscriptionPlan) :=
  db ← get;
  sub ← or_error (first (λ s, us_Id s = userSubscriptionId ∧ us_UserId s = userId ∧
                              us_Status s = UserSubscriptionStatusActive ∧ us_EndTime s > now)
                    (user_subscriptions db)) (ErrNew "no active subscription");
  plan ← getSubscriptionPlanByIdTx (us_PlanId sub);
  let plan := normalizeValuePackagePlan plan in
  _ ← fail_if (IsValuePackage plan = false) (ErrNew "subscription is not value package");
  sub ← maybeAdvanceValuePackageCycleTx env sub plan now;
  mret (sub, plan).

Definition usage_record_of (sub : UserSubscription) (plan : SubscriptionPlan) (userId : Z)
    (requestId : string) (quota epoch now : Z) : ValuePackageUsageRecord :=
  mkUsage 0 userId (us_Id sub) (sp_Id plan) (sp_PackageType plan) (sp_ModelGroup plan) requestId
    quota epoch now.

Definition PreConsumeValuePackageSubscription (env : Env) (requestId : string)
    (userId userSubscriptionId amount : Z) : Tx SubscriptionPreConsumeResult :=
  _ ← fail_if (userId ≤ 0) (ErrNew "invalid userId");
  _ ← fail_if (userSubscriptionId ≤ 0) (ErrNew "invalid userSubscriptionId");
  _ ← fail_if (TrimSpace requestId = "") (ErrNew "requestId is empty");
  _ ← fail_if (amount ≤ 0) (ErrNew "amount must be > 0");
  let now := db_now env in
  transaction (
    db ← get;
    match pre_consume_of requestId db with
    | Some existing =>
      _ ← fail_if (pc_Status existing = "refunded")
            (ErrNew "subscription pre-consume already refunded");
      _ ← fail_if (pc_UserId existing ≠ userId ∨ pc_UserSubscriptionId existing ≠ userSubscriptionId)
            (ErrNew "subscription pre-consume request mismatch");
      replay_result existing
    | None =>
      '(sub, plan) ← lock_active_package env now userId userSubscriptionId;
      let usedBefore := us_AmountUsed sub in
      _ ← fail_if (us_AmountTotal sub > 0 ∧ us_AmountTotal sub -! usedBefore < amount)
            (insufficient "" amount);
      usageDetails ← getValuePackageWindowUsageDetailsTx env userId (us_Id sub) now;
      _ ← fail_if (sp_Limit5hAmount plan > 0 ∧
                   vd_Used5h usageDetails +! amount > sp_Limit5hAmount plan)
            (insufficient ", 5h limit exceeded" amount);
      _ ← fail_if (valuePackageHas7dWindow plan = true ∧
                   vd_Used7d usageDetails +! amount > sp_Limit7dAmount plan)
            (insufficient ", 7d period limit exceeded" amount);
      created ← create_pre_consume_unique env
        (mkPre 0 requestId userId (us_Id sub) amount (us_QuotaEpoch sub) "consumed" 0 0);
      if created : bool then
        _ ← recordValuePackageUsageTx env
              (usage_record_of sub plan userId requestId amount (us_QuotaEpoch sub) now);
        sub ← save_subscription env (sub <| us_AmountUsed := us_AmountUsed sub +! amount |>);
        mret (mkResult (us_Id sub) amount (us_AmountTotal sub) usedBefore (us_AmountUsed sub)
                (us_QuotaEpoch sub))
      else
        db ← get;
        dup ← or_error (pre_consume_of requestId db) ErrRecordNotFound;
        _ ← fail_if (pc_Status dup = "refunded")
              (ErrNew "subscription pre-consume already refunded");
        _ ← fail_if (pc_UserId dup ≠ userId ∨ pc_UserSubscriptionId dup ≠ us_Id sub)
              (ErrNew "subscription pre-consume request mismatch");
        mret (mkResult (pc_UserSubscriptionId dup) (pc_PreConsumed dup) (us_AmountTotal sub)
                (us_AmountUsed sub) (us_AmountUsed sub) (pc_QuotaEpoch dup))
    end).

(** The epoch a reservation belongs to: the one its request started in. *)
Definition request_epoch (sub : UserSubscription) (pre : option SubscriptionPreConsumeRecord)
    (existing : option ValuePackageUsageRecord) : Z :=
  match existing, pre with
  | Some u, _ => vu_QuotaEpoch u
  | None, Some p => pc_QuotaEpoch p
  | None, None => us_QuotaEpoch sub
  end.

Definition pre_mismatch (userId userSubscriptionId : Z) (pre : option SubscriptionPreConsumeRecord) :
    Prop :=
  match pre with
  | Some p => pc_UserId p ≠ userId ∨ pc_UserSubscriptionId p ≠ userSubscriptionId
  | None => False
  end.
Global Instance pre_mismatch_dec u s pre : Decision (pre_mismatch u s pre).
Proof. destruct pre; apply _. Defined.

Definition epoch_mismatch (pre : option SubscriptionPreConsumeRecord)
    (existing : option ValuePackageUsageRecord) : Prop :=
  match pre, existing with
  | Some p, Some u => pc_QuotaEpoch p ≠ vu_QuotaEpoch u
  | _, _ => False
  end.
Global Instance epoch_mismatch_dec pre existing : Decision (epoch_mismatch pre existing).
Proof. destruct pre, existing; apply _. Defined.

(** The usage records with the request's own replaced by the target. *)
Definition replace_current (requestId : string) (targetQuota : Z)
    (record : ValuePackageUsageRecord) : ValuePackageUsageRecord :=
  if decide (vu_RequestId record = requestId) then record <| vu_Quota := targetQuota |> else record.

(** The records of the epoch that the check of a reservation looks at. *)
Definition reserve_records (db : DB) (userId : Z) (sub : UserSubscription) (requestId : string)
    (requestEpoch now : Z) : list ValuePackageUsageRecord :=
  order_by by_created
    (where_ (λ r, vu_UserId r = userId ∧ vu_UserSubscriptionId r = us_Id sub ∧
                  vu_QuotaEpoch r = requestEpoch ∧
                  vu_CreatedAt r >= window_lower_bound sub now ∧ vu_CreatedAt r ≤ now ∧
                  (vu_Quota r > 0 ∨ vu_RequestId r = requestId)) (usage_records db)).

(** The limits on a reservation that grows. *)
Definition check_reserve_limits (env : Env) (sub : UserSubscription) (plan : SubscriptionPlan)
    (userId : Z) (requestId : string) (targetQuota delta requestEpoch currentCreatedAt now : Z) : Tx () :=
  _ ← fail_if (us_AmountTotal sub > 0 ∧ us_AmountTotal sub -! us_AmountUsed sub < delta)
        (insufficient "" delta);
  lastResetAt ← getLastValuePackageQuotaResetAtTx env userId (us_Id sub) now;
  db ← get;
  let usageRecords := reserve_records db userId sub requestId requestEpoch now in
  let replacedCurrentRecord := existsb (λ r, bool_decide (vu_RequestId r = requestId)) usageRecords in
  let nextUsageRecords :=
    (replace_current requestId targetQuota <$> usageRecords) ++
    (if decide (currentCreatedAt = 0 ∧ replacedCurrentRecord = false)
     then [usage_record_of sub plan userId requestId targetQuota requestEpoch now] else []) in
  let nextDetails :=
    buildValuePackageWindowUsageDetailsFromRecords sub plan nextUsageRecords lastResetAt now in
  _ ← fail_if (sp_Limit5hAmount plan > 0 ∧ vd_Used5h nextDetails > sp_Limit5hAmount plan)
        (insufficient ", 5h limit exceeded" targetQuota);
  fail_if (valuePackageHas7dWindow plan = true ∧ vd_Used7d nextDetails > sp_Limit7dAmount plan)
    (insufficient ", 7d period limit exceeded" targetQuota).

Definition ReserveValuePackageUsageToTarget (env : Env) (requestId : string)
    (userId userSubscriptionId targetQuota : Z) : Tx SubscriptionPreConsumeResult :=
  _ ← fail_if (TrimSpace requestId = "") (ErrNew "requestId is empty");
  _ ← fail_if (userId ≤ 0) (ErrNew "invalid userId");
  _ ← fail_if (userSubscriptionId ≤ 0) (ErrNew "invalid userSubscriptionId");
  _ ← fail_if (targetQuota < 0) (ErrNew "targetQuota must be non-negative");
  let now := db_now env in
  transaction (
    '(sub, plan) ← lock_active_package env now userId userSubscriptionId;
    db ← get;
    let pre := pre_consume_of requestId db in
    _ ← fail_if (pre_mismatch userId userSubscriptionId pre)
          (ErrNew "subscription pre-consume request mismatch");
    let existing := usage_of userSubscriptionId requestId db in
    let requestEpoch := request_epoch sub pre existing in
    let currentQuota := from_option vu_Quota 0 existing in
    let currentCreatedAt := from_option vu_CreatedAt 0 existing in
    _ ← fail_if (epoch_mismatch pre existing)
          (ErrNew "value package usage epoch mismatch");
    let usedBefore := us_AmountUsed sub in
    let delta := targetQuota -! currentQuota in
    let answer sub := mkResult (us_Id sub) targetQuota (us_AmountTotal sub) usedBefore
                        (us_AmountUsed sub) requestEpoch in
    let record := usage_record_of sub plan userId requestId targetQuota requestEpoch now in
    if decide (delta = 0) then mret (answer sub)
    else if decide (us_QuotaEpoch sub ≠ requestEpoch) then
      _ ← recordValuePackageUsageTx env record;
      mret (answer sub)
    else
      _ ← (if decide (delta > 0)
           then check_reserve_limits env sub plan userId requestId targetQuota delta requestEpoch
                  currentCreatedAt now
           else mret tt);
      _ ← recordValuePackageUsageTx env record;
      let used := us_AmountUsed sub +! delta in
      sub ← save_subscription env (sub <| us_AmountUsed := if decide (used < 0) then 0 else used |>);
      mret (answer sub)).

(** What a refund of a value package request gives back. *)
Definition refund_quota (record : SubscriptionPreConsumeRecord)
    (usage : option ValuePackageUsageRecord) : Z :=
  from_option vu_Quota (pc_PreConsumed record) usage.

Definition RefundSubscriptionPreConsume (env : Env) (requestId : string) : Tx () :=
  _ ← fail_if (TrimSpace requestId = "") (ErrNew "requestId is empty");
  transaction (
    db ← get;
    record ← or_error (pre_consume_of requestId db) ErrRecordNotFound;
    if decide (pc_Status record = "refunded")
    then revokeValuePackageUsageReservationTx (pc_UserSubscriptionId record) (pc_RequestId record)
    else
      sub ← or_error (by_id (pc_UserSubscriptionId record) (user_subscriptions db)) ErrRecordNotFound;
      plan ← getSubscriptionPlanByIdTx (us_PlanId sub);
      let plan := normalizeValuePackagePlan plan in
      let refunded quota :=
        let used := us_AmountUsed sub -! quota in
        _ ← save_subscription env (sub <| us_AmountUsed := if decide (used < 0) then 0 else used |>);
        mret tt in
      _ ← (if IsValuePackage plan then
             let usage := usage_of (pc_UserSubscriptionId record) (pc_RequestId record) db in
             _ ← fail_if (epoch_mismatch (Some record) usage)
                   (ErrNew "value package usage epoch mismatch");
             if decide (us_QuotaEpoch sub = pc_QuotaEpoch record ∧ refund_quota record usage > 0)
             then refunded (refund_quota record usage) else mret tt
           else if decide (pc_PreConsumed record > 0) then refunded (pc_PreConsumed record)
           else mret tt);
      _ ← revokeValuePackageUsageReservationTx (pc_UserSubscriptionId record) (pc_RequestId record);
      save_pre_consume env (record <| pc_Status := "refunded" |>)).

Definition postConsumeUserSubscriptionDeltaTx (env : Env) (userSubscriptionId delta : Z) : Tx () :=
  _ ← fail_if (userSubscriptionId ≤ 0) (ErrNew "invalid userSubscriptionId");
  if decide (delta = 0) then mret tt
  else
    db ← get;
    sub ← or_error (by_id userSubscriptionId (user_subscriptions db)) ErrRecordNotFound;
    let newUsed := us_AmountUsed sub +! delta in
    let newUsed := if decide (newUsed < 0) then 0 else newUsed in
    _ ← fail_if (us_AmountTotal sub > 0 ∧ newUsed > us_AmountTotal sub)
          (ErrNew ("subscription used exceeds total, used=" +:+ pretty newUsed +:+ " total=" +:+
                   pretty (us_AmountTotal sub)));
    _ ← save_subscription env (sub <| us_AmountUsed := newUsed |>);
    mret tt.

Definition PostConsumeUserSubscriptionDelta (env : Env) (userSubscriptionId delta : Z) : Tx () :=
  transaction (postConsumeUserSubscriptionDeltaTx env userSubscriptionId delta).

Definition CleanupSubscriptionPreConsumeRecords (env : Env) (olderThanSeconds : Z) : Tx Z :=
  let olderThanSeconds := if decide (olderThanSeconds ≤ 0) then 7 * 24 * 3600 else olderThanSeconds in
  let cutoff := db_now env -! olderThanSeconds in
  db ← get;
  _ ← modify (λ d, d <| pre_consume_records ::= delete_where (λ r, pc_UpdatedAt r < cutoff) |>);
  mret (affected (λ r, pc_UpdatedAt r < cutoff) (pre_consume_records db)).

Record SubscriptionPlanInfo := mkPlanInfo { pi_PlanId : Z; pi_PlanTitle : string }.

(** The answer is cached; the cache is transparent here. *)
Definition GetSubscriptionPlanInfoByUserSubscriptionId (userSubscriptionId : Z) :
    Tx SubscriptionPlanInfo :=
  _ ← fail_if (userSubscriptionId ≤ 0) (ErrNew "invalid userSubscriptionId");
  db ← get;
  sub ← or_error (by_id userSubscriptionId (user_subscriptions db)) ErrRecordNotFound;
  plan ← getSubscriptionPlanByIdTx (us_PlanId sub);
  mret (mkPlanInfo (us_PlanId sub) (sp_Title plan)).
