(* ===== verification/Accounting.v ===== *)
(** * The accounting of value packages

    The invariant that ties the three tables of a value package together: the
    amount used of a package is the total of the usage records of its current
    quota epoch, a request has one record, a refunded request uses nothing, and a
    package with a total is never overdrawn.  Every operation of [Consume.v] and
    [Cycles.v] preserves it, in any interleaving. *)
From S2P Require Import Prelude Tables GoTime Schema Plans Windows Cycles Consume.

(** ** The invariant *)

(** The plan [getSubscriptionPlanByIdTx] and [normalizeValuePackagePlan] give. *)
Definition plan_of (plans : table SubscriptionPlan) (id : Z) : option SubscriptionPlan :=
  if decide (id ≤ 0) then None
  else (λ p, normalizeValuePackagePlan (NormalizeDefaults (NormalizeDefaults p))) <$> by_id id plans.

(** Whether a subscription is a value package. *)
Definition package (plans : table SubscriptionPlan) (s : UserSubscription) : Prop :=
  ∃ p, plan_of plans (us_PlanId s) = Some p ∧ IsValuePackage p = true.

(** What the usage records say was used of a package in an epoch. *)
Definition in_epoch (id epoch : Z) (r : ValuePackageUsageRecord) : Prop :=
  vu_UserSubscriptionId r = id ∧ vu_QuotaEpoch r = epoch.
Global Instance in_epoch_dec id epoch r : Decision (in_epoch id epoch r) := _.

Definition charged (usage : table ValuePackageUsageRecord) (id epoch : Z) : Z :=
  sumZ vu_Quota (filter (in_epoch id epoch) (rows usage)).

Definition usage_key (r : ValuePackageUsageRecord) : Z * string :=
  (vu_UserSubscriptionId r, vu_RequestId r).

(** The usage table by itself. *)
Record usage_ok (usage : table ValuePackageUsageRecord) : Prop := {
  uo_wf : table_wf usage;
  uo_unique : ∀ r1 r2, r1 ∈ rows usage → r2 ∈ rows usage → usage_key r1 = usage_key r2 → r1 = r2;
  uo_quota : Forall (λ r, 0 ≤ vu_Quota r ≤ max_int64) (rows usage);
}.

Record pre_ok (pre : table SubscriptionPreConsumeRecord) : Prop := {
  po_wf : table_wf pre;
  po_unique : ∀ p1 p2, p1 ∈ rows pre → p2 ∈ rows pre → pc_RequestId p1 = pc_RequestId p2 → p1 = p2;
  po_amount : Forall (λ p, 0 ≤ pc_PreConsumed p ≤ max_int64) (rows pre);
}.

(** Asynchronous tasks bill a package after the fact ([taskAdjustFunding] of
    service/task_billing.go): they move the amount used of a package without a
    usage record.  The packages so billed are a parameter of the invariant, none
    of them unless a statement says otherwise; their amount used is not tied to
    the records, everything else about them is. *)
Class PostBilled := post_billed : gset Z.
#[export] Instance none_post_billed : PostBilled | 100 := (∅ : gset Z).

(** One subscription against the usage table. *)
Record sub_ok {B : PostBilled} (plans : table SubscriptionPlan) (usage : table ValuePackageUsageRecord)
    (s : UserSubscription) : Prop := {
  so_epoch : in_int64 (us_QuotaEpoch s);
  so_used : package plans s → us_Id s ∉ post_billed → us_AmountUsed s = charged usage (us_Id s) (us_QuotaEpoch s);
  so_fits : 0 ≤ us_AmountUsed s ≤ max_int64;
  so_total : us_AmountTotal s ≤ max_int64;
  so_cap : 0 < us_AmountTotal s → us_AmountUsed s ≤ us_AmountTotal s;
  so_epochs : package plans s →
    Forall (λ r, vu_UserSubscriptionId r = us_Id s → vu_QuotaEpoch r ≤ us_QuotaEpoch s) (rows usage);
}.

(** One pre-consume record against the subscriptions and the usage table. *)
Record request_ok (plans : table SubscriptionPlan) (subs : table UserSubscription)
    (usage : table ValuePackageUsageRecord) (p : SubscriptionPreConsumeRecord) : Prop := {
  ro_recorded : ∀ s, s ∈ rows subs → us_Id s = pc_UserSubscriptionId p → package plans s →
    ∃ r, r ∈ rows usage ∧ usage_key r = (pc_UserSubscriptionId p, pc_RequestId p);
  ro_epoch : ∀ s, s ∈ rows subs → us_Id s = pc_UserSubscriptionId p → package plans s →
    pc_QuotaEpoch p ≤ us_QuotaEpoch s;
  ro_refunded : pc_Status p = "refunded" →
    Forall (λ r, usage_key r = (pc_UserSubscriptionId p, pc_RequestId p) → vu_Quota r = 0) (rows usage);
}.

Record accounting {B : PostBilled} (plans : table SubscriptionPlan) (subs : table UserSubscription)
    (usage : table ValuePackageUsageRecord) (pre : table SubscriptionPreConsumeRecord) : Prop := {
  ac_subs : table_wf subs;
  ac_usage : usage_ok usage;
  ac_pre : pre_ok pre;
  ac_sub : Forall (sub_ok plans usage) (rows subs);
  ac_request : Forall (request_ok plans subs usage) (rows pre);
  ac_usage_ids : Forall (λ r, vu_UserSubscriptionId r < next_id subs) (rows usage);
  ac_pre_ids : Forall (λ p, pc_UserSubscriptionId p < next_id subs) (rows pre);
}.

Definition Accounting {B : PostBilled} (db : DB) : Prop :=
  accounting (subscription_plans db) (user_subscriptions db) (usage_records db)
    (pre_consume_records db).

(** ** The usage table *)

Lemma charged_nonneg usage id epoch : usage_ok usage → 0 ≤ charged usage id epoch.
Proof.
  intros Hok. apply sumZ_nonneg, Forall_filter_keep, (Forall_impl _ _ _ (uo_quota _ Hok)). lia.
Qed.

Lemma usage_first usage id req r :
  usage_ok usage → r ∈ rows usage → usage_key r = (id, req) → first (same_usage id req) usage = Some r.
Proof.
  intros Hok Hr [= Hid Hreq]. destruct (first (same_usage id req) usage) as [r'|] eqn:E.
  - apply first_Some in E as [Hr' [Hid' Hreq']]. f_equal.
    apply (uo_unique _ Hok); [done..|]. unfold usage_key. congruence.
  - by destruct (first_None _ _ r E Hr).
Qed.

(** An update of the record of one request that sets its quota. *)
Record sets_quota (q : Z) (f : ValuePackageUsageRecord → ValuePackageUsageRecord) : Prop := {
  sq_id : ∀ r, vu_Id (f r) = vu_Id r;
  sq_key : ∀ r, usage_key (f r) = usage_key r;
  sq_epoch : ∀ r, vu_QuotaEpoch (f r) = vu_QuotaEpoch r;
  sq_quota : ∀ r, vu_Quota (f r) = q;
}.

Lemma usage_assign_sets record : sets_quota (vu_Quota record) (usage_assign record).
Proof. by split. Qed.
Lemma revoke_sets : sets_quota 0 (λ r, r <| vu_Quota := 0 |>).
Proof. by split. Qed.
#[export] Hint Resolve usage_assign_sets revoke_sets : tables.

Lemma usage_ok_update id req q f usage :
  0 ≤ q ≤ max_int64 → sets_quota q f → usage_ok usage → usage_ok (update_where (same_usage id req) f usage).
Proof.
  intros Hq Hf [Hwf Hun Hqs]. split.
  - apply wf_update_where; [|done]. intros r _. apply (sq_id _ _ Hf).
  - intros r1 r2 H1 H2. rewrite elem_of_update_where in H1, H2.
    destruct H1 as [[H1 Hn1]|(x1 & H1 & Hp1 & ->)], H2 as [[H2 Hn2]|(x2 & H2 & Hp2 & ->)];
      rewrite ?(sq_key _ _ Hf); intros Hk.
    + auto.
    + destruct Hn1. by rewrite (Hun r1 x2 H1 H2 Hk).
    + destruct Hn2. by rewrite <-(Hun x1 r2 H1 H2 Hk).
    + by rewrite (Hun x1 x2 H1 H2 Hk).
  - apply Forall_update_where; [done|]. intros r _ _ _. by rewrite (sq_quota _ _ Hf).
Qed.

Lemma charged_update id req q f usage r i e :
  sets_quota q f → usage_ok usage → r ∈ rows usage → usage_key r = (id, req) →
  charged (update_where (same_usage id req) f usage) i e =
  charged usage i e + if decide (in_epoch i e r) then q - vu_Quota r else 0.
Proof.
  intros Hf Hok Hr Hk. unfold charged. rewrite !sumZ_filter.
  rewrite (sumZ_update_where (λ a, if decide (in_epoch i e a) then vu_Quota a else 0)). f_equal.
  rewrite <-(sumZ_unique (λ r, if decide (in_epoch i e r) then q - vu_Quota r else 0) usage r
    (same_usage id req) (uo_wf _ Hok) Hr).
  - apply sumZ_ext, Forall_forall. intros x _. case_decide; [|done].
    assert (Hx : in_epoch i e (f x) ↔ in_epoch i e x).
    { unfold in_epoch. rewrite (sq_epoch _ _ Hf). pose proof (sq_key _ _ Hf x) as [= -> _]. done. }
    rewrite (decide_ext _ _ _ _ Hx), (sq_quota _ _ Hf). case_decide; [done|lia].
  - by injection Hk as <- <-.
  - intros x Hx [Hx1 Hx2]. f_equal. apply (uo_unique _ Hok); [done..|].
    rewrite Hk. unfold usage_key. congruence.
Qed.

Lemma usage_ok_insert record usage :
  0 ≤ vu_Quota record ≤ max_int64 → first (same_usage (vu_UserSubscriptionId record) (vu_RequestId record)) usage = None →
  usage_ok usage → usage_ok (insert_row record usage).
Proof.
  intros Hq Hnone [Hwf Hun Hqs]. split.
  - by apply wf_insert_row.
  - assert (Hfresh : ∀ r, r ∈ rows usage → usage_key r ≠ usage_key record).
    { intros r Hr [= H1 H2]. by apply (first_None _ _ _ Hnone Hr). }
    intros r1 r2 [H1| ->]%elem_of_insert_row [H2| ->]%elem_of_insert_row Hk.
    + auto.
    + by destruct (Hfresh r1 H1).
    + by destruct (Hfresh r2 H2).
    + done.
  - apply Forall_insert_row; [done|]. exact Hq.
Qed.

Lemma charged_insert record usage i e :
  charged (insert_row record usage) i e =
  charged usage i e + if decide (in_epoch i e record) then vu_Quota record else 0.
Proof.
  unfold charged. rewrite !sumZ_filter, sumZ_insert_row. f_equal.
Qed.

(** ** Booking a request

    [booked usage usage' id req ep q]: the second table is the first with the
    request [req] of subscription [id] set to [q], in epoch [ep]. *)
Definition quota_of (usage : table ValuePackageUsageRecord) (id : Z) (req : string) : Z :=
  from_option vu_Quota 0 (first (same_usage id req) usage).

Record booked (usage usage' : table ValuePackageUsageRecord) (id : Z) (req : string) (ep q : Z) : Prop := {
  bk_ok : usage_ok usage';
  bk_charged : ∀ i e, charged usage' i e =
    charged usage i e + if decide (i = id ∧ e = ep) then q - quota_of usage id req else 0;
  bk_origin : ∀ r', r' ∈ rows usage' →
    (∃ r, r ∈ rows usage ∧ usage_key r' = usage_key r ∧ vu_QuotaEpoch r' = vu_QuotaEpoch r) ∨
    (usage_key r' = (id, req) ∧ vu_QuotaEpoch r' = ep);
  bk_keep : ∀ r, r ∈ rows usage → ∃ r', r' ∈ rows usage' ∧ usage_key r' = usage_key r;
  bk_quota : ∀ r', r' ∈ rows usage' →
    (usage_key r' = (id, req) ∧ vu_Quota r' = q) ∨ (r' ∈ rows usage ∧ usage_key r' ≠ (id, req));
}.

Lemma update_booked id req q f usage ep :
  0 ≤ q ≤ max_int64 → sets_quota q f → usage_ok usage →
  (∀ r, first (same_usage id req) usage = Some r → vu_QuotaEpoch r = ep) →
  (first (same_usage id req) usage = None → q = 0) →
  booked usage (update_where (same_usage id req) f usage) id req ep q.
Proof.
  intros Hq Hf Hok Hep Hnone. split.
  - by apply usage_ok_update with (q := q).
  - intros i e. unfold quota_of. destruct (first (same_usage id req) usage) as [r|] eqn:E.
    + pose proof (first_Some _ _ _ E) as [Hr [<- <-]]. cbn [from_option].
      rewrite (charged_update _ _ q f usage r) by done. f_equal. apply decide_ext.
      unfold in_epoch. rewrite <-(Hep r eq_refl). naive_solver.
    + rewrite (Hnone eq_refl). cbn [from_option].
      unfold charged. rewrite !sumZ_filter, (sumZ_update_where (λ a, if decide (in_epoch i e a) then vu_Quota a else 0)).
      match goal with |- _ + ?z = _ => assert (z = 0) as -> end; [|case_decide; lia].
      apply sumZ_zero, Forall_forall. intros r Hr. rewrite decide_False; [done|].
      by apply (first_None _ _ _ E).
  - intros r' [[Hr _]|(r & Hr & _ & ->)]%elem_of_update_where; left; [eauto|].
    exists r. by rewrite (sq_key _ _ Hf), (sq_epoch _ _ Hf).
  - intros r Hr. destruct (decide (same_usage id req r)).
    + exists (f r). rewrite (sq_key _ _ Hf), elem_of_update_where. eauto 6.
    + exists r. rewrite elem_of_update_where. auto.
  - intros r' [[Hr Hn]|(r & Hr & [<- <-] & ->)]%elem_of_update_where; [right|left].
    + split; [done|]. intros [= H1 H2]. by apply Hn.
    + by rewrite (sq_quota _ _ Hf), (sq_key _ _ Hf).
Qed.

Lemma insert_booked record usage :
  0 ≤ vu_Quota record ≤ max_int64 → usage_ok usage →
  first (same_usage (vu_UserSubscriptionId record) (vu_RequestId record)) usage = None →
  booked usage (insert_row record usage) (vu_UserSubscriptionId record) (vu_RequestId record)
    (vu_QuotaEpoch record) (vu_Quota record).
Proof.
  intros Hq Hok Hnone. split.
  - by apply usage_ok_insert.
  - intros i e. rewrite charged_insert. f_equal. unfold quota_of. rewrite Hnone. cbn [from_option].
    rewrite Z.sub_0_r. apply decide_ext. unfold in_epoch. naive_solver.
  - intros r' [Hr| ->]%elem_of_insert_row; [left; eauto|by right].
  - intros r Hr. exists r. rewrite elem_of_insert_row. auto.
  - intros r' [Hr| ->]%elem_of_insert_row; [right|by left]. split; [done|].
    intros [= H1 H2]. by apply (first_None _ _ _ Hnone Hr).
Qed.

Lemma revoke_booked id req usage ep :
  usage_ok usage → (∀ r, first (same_usage id req) usage = Some r → vu_QuotaEpoch r = ep) →
  booked usage (update_where (same_usage id req) (λ r, r <| vu_Quota := 0 |>) usage) id req ep 0.
Proof. intros. apply update_booked; auto with tables; lia. Qed.

Lemma upsert_booked env record usage ep :
  0 ≤ vu_Quota record ≤ max_int64 → usage_ok usage →
  ep = from_option vu_QuotaEpoch (vu_QuotaEpoch record)
         (first (same_usage (vu_UserSubscriptionId record) (vu_RequestId record)) usage) →
  let id := vu_UserSubscriptionId record in let req := vu_RequestId record in
  booked usage (upsert_usage env record usage) id req ep (vu_Quota record) ∧
  ∃ r, r ∈ rows (upsert_usage env record usage) ∧ usage_key r = (id, req).
Proof.
  intros Hq Hok Hep id req. unfold upsert_usage. fold id req in Hep |- *.
  destruct (first (same_usage id req) usage) as [r|] eqn:E; cbn in Hep; subst ep.
  - split; [apply update_booked; auto with tables; [by rewrite E; intros ? [= ->]|by rewrite E]|].
    apply first_Some in E as [Hr Hs]. exists (usage_assign record r).
    rewrite elem_of_update_where. split; [eauto|]. by destruct Hs as [<- <-].
  - set (record' := if decide _ then _ else _).
    assert (usage_key record' = (id, req) ∧ vu_QuotaEpoch record' = vu_QuotaEpoch record ∧
            vu_Quota record' = vu_Quota record) as ([= Hk1 Hk2] & He & Hq') by (unfold record'; by case_decide).
    clearbody record'. pose proof (insert_booked record' usage) as Hb. rewrite Hk1, Hk2, He, Hq' in Hb. split; [auto|].
    exists (inserted record' usage). rewrite elem_of_insert_row. split; [auto|].
    unfold usage_key. cbn. congruence.
Qed.

(** ** Saving a subscription *)

Lemma elem_of_save (subs : table UserSubscription) s' x :
  x ∈ rows (save s' subs) → (x ∈ rows subs ∧ us_Id x ≠ us_Id s') ∨ x = s'.
Proof. intros [[Hx Hn]|(r & _ & _ & ->)]%elem_of_update_where; auto. Qed.

Lemma package_plan plans s s' : us_PlanId s' = us_PlanId s → package plans s' ↔ package plans s.
Proof. unfold package. by intros ->. Qed.

(** A row that keeps the identity of another. *)
Record same_sub (s s' : UserSubscription) : Prop := {
  ss_id : us_Id s' = us_Id s;
  ss_plan : us_PlanId s' = us_PlanId s;
  ss_epoch : us_QuotaEpoch s ≤ us_QuotaEpoch s';
}.

Lemma request_ok_save plans subs usage p s s' :
  s ∈ rows subs → same_sub s s' → request_ok plans subs usage p →
  request_ok plans (save s' subs) usage p.
Proof.
  intros Hs [Hid Hplan Hep] [Hrec Hepp Href]. split; [..|done].
  - intros x [[Hx _]| ->]%elem_of_save Hxid Hpk; [eauto|].
    apply (Hrec s); [done|congruence|]. by apply (package_plan plans s s').
  - intros x [[Hx _]| ->]%elem_of_save Hxid Hpk; [eauto|].
    etransitivity; [|exact Hep]. apply Hepp; [done|congruence|]. by apply (package_plan plans s s').
Qed.

Lemma accounting_save {B : PostBilled} plans subs usage pre s s' :
  accounting plans subs usage pre → s ∈ rows subs → same_sub s s' → sub_ok plans usage s' →
  accounting plans (save s' subs) usage pre.
Proof.
  intros [Hsubs Husage Hpre Hsub Hreq Hui Hpi] Hs Hss Hok. split; [by apply wf_save|done|done| | |done|done].
  - by apply Forall_save.
  - eapply Forall_impl; [exact Hreq|]. intros p. by apply request_ok_save with (s := s).
Qed.

(** A renewed row: a later epoch without usage, nothing used. *)
Lemma sub_ok_renewed {B : PostBilled} plans usage s s' :
  usage_ok usage → sub_ok plans usage s → same_sub s s' →
  us_QuotaEpoch s' = us_QuotaEpoch s + 1 → us_QuotaEpoch s < max_int64 →
  us_AmountUsed s' = 0 → us_AmountTotal s' ≤ max_int64 → sub_ok plans usage s'.
Proof.
  intros Hu [Hep Hused Hfits Htot Hcap Heps] [Hid Hplan _] He Hmax H0 Ht.
  pose proof (package_plan plans s s' Hplan) as Hpk.
  split; [unfold in_int64 in *; lia| |lia|done|lia|].
  - intros Hp _. rewrite H0. symmetry. unfold charged. rewrite filter_none; [done|].
    intros r Hr [Hr1 Hr2]. specialize (Heps (proj1 Hpk Hp)). rewrite Forall_forall in Heps.
    specialize (Heps r Hr). rewrite Hid in Hr1. specialize (Heps Hr1). lia.
  - intros Hp. eapply Forall_impl; [exact (Heps (proj1 Hpk Hp))|].
    cbn. intros r Hr. rewrite Hid. intros ?. specialize (Hr H). lia.
Qed.

(** A row of a plan that is not a value package. *)
Lemma sub_ok_regular {B : PostBilled} plans usage s :
  ¬ package plans s → in_int64 (us_QuotaEpoch s) → us_AmountTotal s ≤ max_int64 →
  0 ≤ us_AmountUsed s ≤ max_int64 → (0 < us_AmountTotal s → us_AmountUsed s ≤ us_AmountTotal s) →
  sub_ok plans usage s.
Proof. intros Hn He Ht Hf Hc. by split. Qed.

(** ** A booking keeps the books *)

Section booking.
Context {B : PostBilled} (plans : table SubscriptionPlan) (subs : table UserSubscription).
Context (usage usage' : table ValuePackageUsageRecord).
Context (pre pre' : table SubscriptionPreConsumeRecord).
Context (s s' : UserSubscription) (req : string) (ep q : Z).

(** The pre-consume records after the booking: an old one, which a refund does
    not leave with usage, or the one of the request. *)
Definition request_after (p : SubscriptionPreConsumeRecord) : Prop :=
  (p ∈ rows pre ∧
    (pc_Status p = "refunded" → (pc_UserSubscriptionId p, pc_RequestId p) = (us_Id s, req) → q = 0)) ∨
  (pc_UserSubscriptionId p = us_Id s ∧ pc_RequestId p = req ∧
    (package plans s → pc_QuotaEpoch p ≤ us_QuotaEpoch s) ∧
    (pc_Status p = "refunded" → q = 0) ∧
    (package plans s → ∃ r, r ∈ rows usage' ∧ usage_key r = (us_Id s, req))).

Record books : Prop := {
  bs_acc : accounting plans subs usage pre;
  bs_book : booked usage usage' (us_Id s) req ep q;
  bs_elem : s ∈ rows subs;
  bs_id : us_Id s' = us_Id s;
  bs_plan : us_PlanId s' = us_PlanId s;
  bs_epoch : us_QuotaEpoch s' = us_QuotaEpoch s;
  bs_total : us_AmountTotal s' = us_AmountTotal s;
  bs_ep : package plans s → ep ≤ us_QuotaEpoch s;
  bs_used : package plans s → us_Id s ∉ post_billed → us_AmountUsed s' =
    us_AmountUsed s + if decide (ep = us_QuotaEpoch s) then q - quota_of usage (us_Id s) req else 0;
  bs_fits : 0 ≤ us_AmountUsed s' ≤ max_int64;
  bs_cap : 0 < us_AmountTotal s → us_AmountUsed s' ≤ us_AmountTotal s;
  bs_pre : pre_ok pre';
  bs_request : Forall request_after (rows pre');
}.

Context (Hb : books).

Lemma books_sub_ok x : x ∈ rows (save s' subs) → sub_ok plans usage' x.
Proof using Hb.
  destruct Hb as [[Hsubs Husage _ Hsub _ _ _] Hbook Hs Hid Hplan Hepoch Htot Hep Hused Hfits Hcap _ _].
  assert (Hepochs : ∀ y, y ∈ rows subs → package plans y →
    Forall (λ r, vu_UserSubscriptionId r = us_Id y → vu_QuotaEpoch r ≤ us_QuotaEpoch y) (rows usage')).
  { intros y Hy Hp. rewrite Forall_forall in Hsub. pose proof (so_epochs _ _ _ (Hsub y Hy) Hp) as Hold.
    rewrite Forall_forall in Hold. apply Forall_forall. intros r' Hr' Hry.
    destruct (bk_origin _ _ _ _ _ _ Hbook r' Hr') as [(r & Hr & [= Hk _] & ->)|[[= Hk _] ->]].
    - apply Hold; congruence.
    - assert (y = s) as -> by (apply (wf_row_eq subs); [done..|cbn; congruence]). auto. }
  rewrite Forall_forall in Hsub.
  intros [[Hx Hne]| ->]%elem_of_save.
  - pose proof (Hsub x Hx) as [He1 Hu1 Hf1 Ht1 Hc1 _]. split; [done| |done|done|done|by apply Hepochs].
    intros Hp Hb'. rewrite (Hu1 Hp Hb'), (bk_charged _ _ _ _ _ _ Hbook).
    rewrite decide_False by (rewrite <-Hid; naive_solver). lia.
  - pose proof (package_plan plans s s' Hplan) as Hpk.
    pose proof (Hsub s Hs) as [He1 Hu1 Hf1 Ht1 Hc1 _]. split; [by rewrite Hepoch| | |by rewrite Htot| |].
    + rewrite Hid. intros Hp%Hpk Hb'. rewrite (Hused Hp Hb'), (Hu1 Hp Hb'), Hepoch, (bk_charged _ _ _ _ _ _ Hbook).
      f_equal. apply decide_ext. naive_solver.
    + done.
    + by rewrite Htot.
    + intros Hp%Hpk. rewrite Hid, Hepoch. by apply Hepochs.
Qed.

Lemma books_request_ok p : p ∈ rows pre' → request_ok plans (save s' subs) usage' p.
Proof using Hb.
  destruct Hb as [[Hsubs Husage _ _ Hreq _ _] Hbook Hs Hid Hplan Hepoch _ _ _ _ _ _ Hafter].
  intros Hp. rewrite Forall_forall in Hafter, Hreq. apply request_ok_save with (s := s); [done|split; lia|].
  destruct (Hafter p Hp) as [[Hold Href]|(Hpid & Hpreq & Hpep & Href & Hex)].
  - destruct (Hreq p Hold) as [Hrec Hepp Hr0]. split; [|done|].
    + intros x Hx Hxid Hpk. destruct (Hrec x Hx Hxid Hpk) as (r & Hr & <-).
      apply (bk_keep _ _ _ _ _ _ Hbook r Hr).
    + intros Hst. specialize (Hr0 Hst). rewrite Forall_forall in Hr0. apply Forall_forall.
      intros r' Hr' Hk. destruct (bk_quota _ _ _ _ _ _ Hbook r' Hr') as [[Hk' ->]|[Hr _]].
      * apply Href; [done|congruence].
      * auto.
  - assert (Hx : ∀ x, x ∈ rows subs → us_Id x = pc_UserSubscriptionId p → x = s).
    { intros x Hx Hxid. apply (wf_row_eq subs); [done..|cbn; congruence]. }
    split.
    + intros x Hxs Hxid. rewrite (Hx x Hxs Hxid), Hpid, Hpreq. auto.
    + intros x Hxs Hxid. rewrite (Hx x Hxs Hxid). auto.
    + intros Hst. apply Forall_forall. rewrite Hpid, Hpreq. intros r' Hr' Hk.
      destruct (bk_quota _ _ _ _ _ _ Hbook r' Hr') as [[_ ->]|[_ Hn]]; [auto|done].
Qed.

Lemma books_accounting : accounting plans (save s' subs) usage' pre'.
Proof using Hb.
  destruct Hb as [[Hsubs Husage Hpre Hsub Hreq Hui Hpi] Hbook Hs Hid _ _ _ _ _ _ _ Hpre' Hafter].
  split; [by apply wf_save|apply (bk_ok _ _ _ _ _ _ Hbook)|done| | | |].
  - apply Forall_forall, books_sub_ok.
  - apply Forall_forall, books_request_ok.
  - rewrite Forall_forall in Hui. apply Forall_forall. intros r' Hr'. cbn.
    destruct (bk_origin _ _ _ _ _ _ Hbook r' Hr') as [(r & Hr & [= -> _] & _)|[[= -> _] _]]; [auto|].
    apply (wf_elem subs s Hsubs Hs).
  - rewrite Forall_forall in Hpi, Hafter. apply Forall_forall. intros p Hp. cbn.
    destruct (Hafter p Hp) as [[? _]|(-> & _)]; [auto|apply (wf_elem subs s Hsubs Hs)].
Qed.
End booking.

(** ** Reading the tables *)

Lemma wp_get_plan_fresh id (Q : result SubscriptionPlan → DB → Prop) db :
  (∀ plan, plan_of (subscription_plans db) id = Some (normalizeValuePackagePlan plan) → Q (Ok plan) db) →
  (∀ e, Q (Err e) db) → wp (getSubscriptionPlanByIdFreshTx id) Q db.
Proof.
  unfold plan_of. intros HOk HErr. unfold getSubscriptionPlanByIdFreshTx. wp_guard as Hid; [apply HErr|].
  rewrite decide_False in HOk by done. wp_step. wp_step. wp_step.
  destruct (by_id id (subscription_plans db)) as [p|]; cbn; [|apply HErr]. wp_steps. apply HOk. cbn.
  by rewrite NormalizeDefaults_idempotent.
Qed.

Lemma wp_get_plan id (Q : result SubscriptionPlan → DB → Prop) db :
  (∀ plan, plan_of (subscription_plans db) id = Some (normalizeValuePackagePlan plan) → Q (Ok plan) db) →
  (∀ e, plan_of (subscription_plans db) id = None → Q (Err e) db) →
  wp (getSubscriptionPlanByIdTx id) Q db.
Proof.
  unfold plan_of. intros HOk HErr. unfold getSubscriptionPlanByIdTx, getSubscriptionPlanByIdFreshTx.
  wp_step. wp_step; [by apply HErr; rewrite decide_True|]. rewrite decide_False in HOk, HErr by done.
  wp_step. wp_step. wp_step; [done|]. wp_step. wp_step. wp_step.
  destruct (by_id id (subscription_plans db)) as [p|]; cbn in *; wp_steps; eauto.
Qed.

Lemma wp_details env userId subId now (Q : result ValuePackageWindowUsageDetails → DB → Prop) db :
  (∀ r, Q r db) → wp (getValuePackageWindowUsageDetailsTx env userId subId now) Q db.
Proof.
  intros HQ. unfold getValuePackageWindowUsageDetailsTx, getLastValuePackageQuotaResetAtTx.
  wp_steps; [|apply HQ]. apply wp_get_plan; [|intros; apply HQ]. intros plan _. wp_steps. apply HQ.
Qed.

(** The tables of requests and plans are left alone. *)
Record same_requests (db db' : DB) : Prop := {
  sr_plans : subscription_plans db' = subscription_plans db;
  sr_usage : usage_records db' = usage_records db;
  sr_pre : pre_consume_records db' = pre_consume_records db;
}.

(** The subscription a package operation works on. *)
Record locked (db : DB) (userId id now : Z) (s : UserSubscription) (plan : SubscriptionPlan) : Prop := {
  lk_elem : s ∈ rows (user_subscriptions db);
  lk_id : us_Id s = id;
  lk_user : us_UserId s = userId;
  lk_end : us_EndTime s > now;
  lk_plan : plan_of (subscription_plans db) (us_PlanId s) = Some plan;
  lk_package : IsValuePackage plan = true;
}.

Lemma locked_package db userId id now s plan :
  locked db userId id now s plan → package (subscription_plans db) s.
Proof. intros []. by exists plan. Qed.

(** What the cycle check of a subscription does to it and to the tables. *)
Record advanced (db db' : DB) (s s' : UserSubscription) : Prop := {
  ad_requests : same_requests db db';
  ad_next : next_id (user_subscriptions db') = next_id (user_subscriptions db);
  ad_user : us_UserId s' = us_UserId s;
  ad_start : us_StartTime s' = us_StartTime s;
  ad_end : us_EndTime s' = us_EndTime s;
  ad_total : us_AmountTotal s' = us_AmountTotal s;
  ad_status : us_Status s' = us_Status s;
  ad_same : same_sub s s';
  ad_case : (s' = s ∧ db' = db) ∨ (us_AmountUsed s' = 0 ∧ us_QuotaEpoch s' = us_QuotaEpoch s + 1 ∧
    user_subscriptions db' = save s' (user_subscriptions db));
}.

Lemma wp_advance {B : PostBilled} env s plan now (Q : result UserSubscription → DB → Prop) db :
  Accounting db → s ∈ rows (user_subscriptions db) →
  (∀ s' db', Accounting db' → s' ∈ rows (user_subscriptions db') → advanced db db' s s' → Q (Ok s') db') →
  (∀ e, Q (Err e) db) →
  wp (maybeAdvanceValuePackageCycleTx env s plan now) Q db.
Proof.
  intros Hacc Hs HOk HErr.
  assert (Hself : Q (Ok s) db).
  { apply HOk; [done..|]. split; try done. auto. }
  unfold maybeAdvanceValuePackageCycleTx.
  wp_step; [by apply wp_ret|]. wp_step; [by apply wp_ret|].
  wp_step. wp_step; [apply HErr|].
  assert (Hok : sub_ok (subscription_plans db) (usage_records db) s).
  { pose proof (ac_sub _ _ _ _ Hacc) as Hsub. rewrite Forall_forall in Hsub. auto. }
  pose proof (so_epoch _ _ _ Hok) as Hep. unfold in_int64 in Hep.
  replace (us_QuotaEpoch s +! 1) with (us_QuotaEpoch s + 1) by (unwrap; lia).
  unfold create_quota_reset, save_subscription. wp_steps.
  apply HOk.
  - apply (accounting_save _ _ _ _ s); [exact Hacc|done|split; cbn; [done|done|lia]|].
    apply (sub_ok_renewed _ _ s); [apply Hacc|done|split; cbn; [done|done|lia]|done|lia|done|].
    apply (so_total _ _ _ Hok).
  - by apply (elem_of_save_new _ s).
  - split; try done; [split; cbn; [done|done|lia]|by right].
Qed.

Lemma advanced_locked db db' userId id now s s' plan :
  locked db userId id now s plan → s' ∈ rows (user_subscriptions db') → advanced db db' s s' →
  locked db' userId id now s' plan.
Proof.
  intros [Hs Hid Hu He Hp Hv] Hs' [[Hp' _ _] _ Hu' _ He' _ _ [Hid' Hpl' _] _].
  split; try done; [congruence|congruence|by rewrite He'|by rewrite Hp', Hpl'].
Qed.

Lemma wp_lock {B : PostBilled} env now userId id (Q : result (UserSubscription * SubscriptionPlan) → DB → Prop) db :
  Accounting db →
  (∀ s s' plan db', Accounting db' → locked db userId id now s plan → locked db' userId id now s' plan →
     us_Status s = UserSubscriptionStatusActive → advanced db db' s s' → Q (Ok (s', plan)) db') →
  (∀ e db', Q (Err e) db') →
  wp (lock_active_package env now userId id) Q db.
Proof.
  intros Hacc HOk HErr. unfold lock_active_package. wp_step. wp_step. wp_step.
  apply wp_or_error; [|intros; apply HErr].
  intros s (Hs & Hid & Hu & Hst & He)%first_Some. wp_step.
  apply wp_get_plan; [|intros; apply HErr]. intros p Hp. cbv zeta.
  wp_step. wp_step; [apply HErr|].
  match goal with H : IsValuePackage _ ≠ false |- _ => apply not_false_is_true in H; rename H into Hv end.
  assert (Hl : locked db userId id now s (normalizeValuePackagePlan p)) by by split.
  wp_step. apply wp_advance; [done|done| |intros; apply HErr].
  intros s' db' Hacc' Hs' Hadv. wp_steps.
  apply (HOk s); [done|done| |done|done]. by apply (advanced_locked db _ _ _ _ s).
Qed.

Lemma pre_ok_insert p pre :
  pre_ok pre → 0 ≤ pc_PreConsumed p ≤ max_int64 → first (λ r, pc_RequestId r = pc_RequestId p) pre = None → pre_ok (insert_row p pre).
Proof.
  intros [Hwf Hun Ham] Hp Hnone. split; [by apply wf_insert_row| |by apply Forall_insert_row].
  assert (Hfresh : ∀ r, r ∈ rows pre → pc_RequestId r ≠ pc_RequestId p).
  { intros r Hr. apply (first_None _ _ _ Hnone Hr). }
  intros p1 p2 [H1| ->]%elem_of_insert_row [H2| ->]%elem_of_insert_row Hk;
    [auto|by destruct (Hfresh p1 H1)|by destruct (Hfresh p2 H2)|done].
Qed.

Lemma pre_ok_save p p0 pre :
  pre_ok pre → p0 ∈ rows pre → pc_Id p = pc_Id p0 → pc_RequestId p = pc_RequestId p0 →
  pc_PreConsumed p = pc_PreConsumed p0 → pre_ok (save p pre).
Proof.
  intros [Hwf Hun Ham] H0 Hid Hreq Hp. split; [by apply wf_save| |].
  2:{ apply Forall_save; [done|]. rewrite Forall_forall in Ham. rewrite Hp. auto. }
  intros p1 p2 [[H1 Hn1]|(r1 & H1 & _ & ->)]%elem_of_update_where
    [[H2 Hn2]|(r2 & H2 & _ & ->)]%elem_of_update_where Hk; [auto| | |done].
  - destruct Hn1. cbn. rewrite (Hun p1 p0 H1 H0) by congruence. done.
  - destruct Hn2. cbn. rewrite (Hun p2 p0 H2 H0) by congruence. done.
Qed.

(** The amount used of a package without a total stays within [int64]. *)
Definition room (db : DB) (id amount : Z) : Prop :=
  amount ≤ max_int64 ∧
  ∀ s, s ∈ rows (user_subscriptions db) → us_Id s = id → package (subscription_plans db) s →
    us_AmountTotal s ≤ 0 → us_AmountUsed s + amount ≤ max_int64.

Lemma locked_used {B : PostBilled} db userId id now s plan :
  Accounting db → locked db userId id now s plan →
  (id ∉ post_billed → us_AmountUsed s = charged (usage_records db) id (us_QuotaEpoch s)) ∧
  0 ≤ us_AmountUsed s ≤ max_int64 ∧ us_AmountTotal s ≤ max_int64 ∧
  (0 < us_AmountTotal s → us_AmountUsed s ≤ us_AmountTotal s).
Proof.
  intros Hacc Hl. pose proof (ac_sub _ _ _ _ Hacc) as Hsub. rewrite Forall_forall in Hsub.
  specialize (Hsub s (lk_elem _ _ _ _ _ _ Hl)). pose proof (locked_package _ _ _ _ _ _ Hl) as Hp.
  rewrite <-(lk_id _ _ _ _ _ _ Hl).
  split_and!; [by apply Hsub|by apply Hsub..].
Qed.

(** With no package billed after the fact the amount used is exact. *)
Lemma not_billed id : id ∉ post_billed.
Proof. apply not_elem_of_empty. Qed.

Lemma locked_exact db userId id now s plan :
  Accounting db → locked db userId id now s plan →
  us_AmountUsed s = charged (usage_records db) id (us_QuotaEpoch s).
Proof. intros Hacc Hl. apply (locked_used _ _ _ _ _ _ Hacc Hl), not_billed. Qed.

Lemma room_locked {B : PostBilled} db db' userId id now s s' plan amount :
  Accounting db → locked db userId id now s plan → locked db' userId id now s' plan →
  advanced db db' s s' → room db id amount → us_AmountTotal s' ≤ 0 → us_AmountUsed s' + amount ≤ max_int64.
Proof.
  intros Hacc Hl Hl' Hadv [Hmax Hroom] Ht.
  destruct (ad_case _ _ _ _ Hadv) as [[-> ->]|(-> & _)]; [|lia].
  apply Hroom; [by apply Hl|by apply Hl|by eapply locked_package|done].
Qed.

(** The window usage of a locked package. *)
Definition last_reset (db : DB) (userId id now : Z) : Z :=
  sql_max (vr_ResetAt <$> where_ (λ r, vr_UserId r = userId ∧ vr_UserSubscriptionId r = id ∧
                                       vr_ResetAt r ≤ now) (quota_resets db)).

Definition package_details (db : DB) (now : Z) (s : UserSubscription) (plan : SubscriptionPlan) :
    ValuePackageWindowUsageDetails :=
  buildValuePackageWindowUsageDetailsFromRecords s plan
    (window_records db (us_UserId s) (us_Id s) s now) (last_reset db (us_UserId s) (us_Id s) now) now.

Lemma wp_details_locked {B : PostBilled} env userId id now s plan (Q : result ValuePackageWindowUsageDetails → DB → Prop) db :
  Accounting db → locked db userId id now s plan → 0 < now →
  Q (Ok (package_details db now s plan)) db →
  wp (getValuePackageWindowUsageDetailsTx env userId id now) Q db.
Proof.
  intros Hacc [Hs Hid Hu He Hp Hv] Hnow HQ. unfold getValuePackageWindowUsageDetailsTx.
  rewrite (decide_False (P := now ≤ 0)) by lia. wp_step. wp_step. wp_step. apply wp_or_error.
  2:{ intros Hnone. by destruct (first_None _ _ s Hnone Hs). }
  intros s2 (Hs2 & Hid2 & _)%first_Some.
  assert (s2 = s) as -> by (apply (wf_row_eq (user_subscriptions db)); [apply Hacc|done..|cbn; congruence]).
  wp_step. apply wp_get_plan; [|congruence]. intros p Hp'. rewrite Hp in Hp'. injection Hp' as ->.
  unfold getLastValuePackageQuotaResetAtTx. rewrite (decide_False (P := now ≤ 0)) by lia.
  wp_steps. rewrite <-Hid, <-Hu. exact HQ.
Qed.

Lemma save_save (s s' : UserSubscription) subs :
  us_Id s' = us_Id s → save s' (save s subs) = save s' subs.
Proof.
  intros Hid. unfold save, update_where. cbn. f_equal. rewrite <-list_fmap_compose.
  apply list_fmap_ext. intros i x _. cbn. rewrite Hid.
  destruct (decide (us_Id x = us_Id s)) as [Hx|Hx].
  - rewrite (decide_True (P := us_Id s = us_Id s)) by done. done.
  - by rewrite !decide_False by congruence.
Qed.

Lemma quota_of_charged usage id req r :
  usage_ok usage → first (same_usage id req) usage = Some r →
  0 ≤ quota_of usage id req ≤ max_int64 ∧ quota_of usage id req ≤ charged usage id (vu_QuotaEpoch r).
Proof.
  intros Hok Hr. unfold quota_of. rewrite Hr. apply first_Some in Hr as [Hr [Hid Hreq]]. cbn.
  pose proof (uo_quota _ Hok) as Hq. pose proof Hq as Hq'. rewrite Forall_forall in Hq'.
  split; [by apply Hq'|]. unfold charged. apply sumZ_elem_le.
  - apply Forall_filter_keep, (Forall_impl _ _ _ Hq). lia.
  - apply list_elem_of_filter. by split.
Qed.

Lemma save_same (s : UserSubscription) subs : table_wf subs → s ∈ rows subs → save s subs = subs.
Proof.
  intros Hwf Hs. destruct subs as [l n]. unfold save, update_where. cbn. f_equal.
  transitivity (id <$> l); [|apply list_fmap_id].
  apply list_fmap_ext. intros i x Hx. case_decide; [|done].
  apply (wf_row_eq (Table l n)); [done|done|by eapply list_elem_of_lookup_2|done].
Qed.

(** ** A database with one package, for the examples *)

Definition example_db : DB :=
  empty_DB <| subscription_plans := Table [example_package] 3 |>
           <| user_subscriptions := Table [example_sub <| us_AmountUsed := 0 |>] 2 |>.

Lemma example_accounting : Accounting example_db.
Proof.
  split.
  - split_and!; repeat constructor; done.
  - split; [apply wf_empty|by intros ? ? ?%not_elem_of_nil|constructor].
  - split; [apply wf_empty|by intros ? ? ?%not_elem_of_nil|constructor].
  - constructor; [|constructor]. by split.
  - constructor.
  - constructor.
  - constructor.
Qed.

Lemma example_room amount : amount ≤ 1000 → room example_db 1 amount.
Proof. intros Ha. split; [lia|]. intros s [->|[]%not_elem_of_nil]%elem_of_cons _ _; cbn; lia. Qed.
