(* ===== verification/Ledger.v ===== *)
(** * The operations on value packages keep the books

    What the charging operations of [Consume.v] do, case by case, and that each
    keeps the invariant of [Accounting.v]; pre-consume, settle and refund of one
    request add up. *)
From S2P Require Import Prelude Tables GoTime Schema Plans Windows Cycles Consume Accounting.

(** ** Pre-consuming a value package *)

Definition limits_hold (plan : SubscriptionPlan) (used5h used7d : Z) : Prop :=
  (0 < sp_Limit5hAmount plan → used5h ≤ sp_Limit5hAmount plan) ∧
  (valuePackageHas7dWindow plan = true → used7d ≤ sp_Limit7dAmount plan).

(** What a charge of [amount] to a package does: the subscription [s] of the
    database [mid] after the cycle check is charged. *)
Record package_charge {B : PostBilled} (env : Env) (db mid db' : DB) (req : string) (userId id amount : Z)
    (s0 s : UserSubscription) (plan : SubscriptionPlan) (r : SubscriptionPreConsumeResult) : Prop := {
  ch_acc : Accounting mid;
  ch_locked0 : locked db userId id (db_now env) s0 plan;
  ch_locked : locked mid userId id (db_now env) s plan;
  ch_advanced : advanced db mid s0 s;
  ch_amount : 0 < amount;
  ch_fits : us_AmountUsed s + amount ≤ max_int64;
  ch_total : 0 < us_AmountTotal s → us_AmountUsed s + amount ≤ us_AmountTotal s;
  ch_limits : 0 < db_now env →
    limits_hold plan (vd_Used5h (package_details mid (db_now env) s plan) +! amount)
      (vd_Used7d (package_details mid (db_now env) s plan) +! amount);
  ch_result : r = mkResult id amount (us_AmountTotal s) (us_AmountUsed s)
                    (us_AmountUsed s + amount) (us_QuotaEpoch s);
  ch_usage : usage_records db' =
    upsert_usage env (usage_record_of s plan userId req amount (us_QuotaEpoch s) (db_now env))
      (usage_records db);
  ch_none : pre_consume_of req db = None;
  ch_pre : pre_consume_records db' = insert_row
    (mkPre 0 req userId id amount (us_QuotaEpoch s) "consumed" (app_now env) (app_now env))
    (pre_consume_records db);
  ch_subs : user_subscriptions db' = save
    (s <| us_AmountUsed := us_AmountUsed s + amount |> <| us_UpdatedAt := app_now env |>)
    (user_subscriptions mid);
  ch_plans : subscription_plans db' = subscription_plans db;
  ch_resets : quota_resets db' = quota_resets mid;
  ch_guards : 0 < userId ∧ 0 < id ∧ TrimSpace req ≠ "";
}.

(** A request that was pre-consumed before is answered from its record. *)
Definition replayed (db db' : DB) (existing : SubscriptionPreConsumeRecord)
    (r : SubscriptionPreConsumeResult) : Prop :=
  db' = db ∧ pc_Status existing ≠ "refunded" ∧
  ∃ s, by_id (pc_UserSubscriptionId existing) (user_subscriptions db) = Some s ∧
    r = mkResult (us_Id s) (pc_PreConsumed existing) (us_AmountTotal s) (us_AmountUsed s)
          (us_AmountUsed s) (pc_QuotaEpoch existing).

Lemma wp_replay existing (Q : result SubscriptionPreConsumeResult → DB → Prop) db :
  pc_Status existing ≠ "refunded" →
  (∀ r, replayed db db existing r → Q (Ok r) db) → Q (Err ErrRecordNotFound) db →
  wp (replay_result existing) Q db.
Proof.
  intros Hst HOk HErr. unfold replay_result. wp_steps; [|done]. apply HOk. split; [done|]. eauto.
Qed.

Lemma wp_preconsume_package {B : PostBilled} env req userId id amount db
    (Q : result SubscriptionPreConsumeResult → DB → Prop) :
  Accounting db → room db id amount →
  (∀ r existing, pre_consume_of req db = Some existing → replayed db db existing r → Q (Ok r) db) →
  (∀ r mid db' s0 s plan, package_charge env db mid db' req userId id amount s0 s plan r → Q (Ok r) db') →
  (∀ e, Q (Err e) db) →
  wp (PreConsumeValuePackageSubscription env req userId id amount) Q db.
Proof.
  intros Hacc Hroom Hreplay Hcharge HErr. unfold PreConsumeValuePackageSubscription.
  wp_guard as Huser; [apply HErr|]. wp_guard as Hidpos; [apply HErr|].
  wp_guard as Hreq; [apply HErr|]. wp_guard as Hamount; [apply HErr|].
  wp_step. wp_step. wp_step. destruct (pre_consume_of req db) as [existing|] eqn:Hpre.
  { wp_guard as Hst; [apply HErr|]. wp_guard as _; [apply HErr|].
    apply wp_replay; [done| |apply HErr]. eauto. }
  wp_step. apply wp_lock; [done| |intros; apply HErr]. intros s0 s plan mid Hacc' Hl0 Hl _ Hadv.
  pose proof (locked_used _ _ _ _ _ _ Hacc' Hl) as (Hused & Hrange & Htmax & Hcap).
  pose proof (room_locked _ _ _ _ _ _ _ _ amount Hacc Hl0 Hl Hadv Hroom) as Hfree.
  pose proof (ad_requests _ _ _ _ Hadv) as [Hsp Hsu Hsr]. destruct Hroom as [Hamax _].
  pose proof (lk_id _ _ _ _ _ _ Hl) as Hid.
  wp_guard as Htotal; [apply HErr|].
  assert (Hfit : us_AmountUsed s + amount ≤ max_int64 ∧
    (0 < us_AmountTotal s → us_AmountUsed s + amount ≤ us_AmountTotal s)).
  { destruct (decide (0 < us_AmountTotal s)); [|lia].
    replace (us_AmountTotal s -! us_AmountUsed s) with (us_AmountTotal s - us_AmountUsed s) in Htotal
      by (unwrap; lia). lia. }
  replace (us_AmountUsed s +! amount) with (us_AmountUsed s + amount) by (unwrap; lia).
  set (P := λ d, 0 < db_now env → d = package_details mid (db_now env) s plan).
  wp_step. eapply (wp_mono _ (λ r db', db' = mid ∧ match r with Ok d => P d | Err _ => True end)).
  { rewrite Hid. destruct (decide (0 < db_now env)) as [Hnow|Hnow].
    - by apply (wp_details_locked env userId id (db_now env) s plan).
    - apply wp_details. intros [d|]; [|done]. split; [done|]. by intros ?. }
  intros [d|e] db1 [-> Hd]; [|apply HErr].
  wp_guard as H5; [apply HErr|]. wp_guard as H7; [apply HErr|].
  unfold create_pre_consume_unique. wp_step. wp_step. wp_step.
  replace (pre_consume_of _ mid) with (@None SubscriptionPreConsumeRecord)
    by (unfold pre_consume_of in *; cbn; by rewrite Hsr).
  unfold create_pre_consume, recordValuePackageUsageTx, save_subscription.
  wp_step. wp_step. wp_step. wp_step. wp_guard as _; [apply HErr|].
  wp_steps. apply (Hcharge _ mid _ s0 s plan).
  split; try done; try lia; cbn; try congruence.
  - intros Hnow. rewrite <-(Hd Hnow). split; intros ?; apply Z.nlt_ge; intros ?;
    [apply H5|apply H7]; split; [lia..|done|lia].
  - split_and!; [lia..|done].
Qed.

Lemma charge_accounting {B : PostBilled} env db mid db' req userId id amount s0 s plan r :
  package_charge env db mid db' req userId id amount s0 s plan r →
  usage_of id req db = None → Accounting db'.
Proof.
  intros [Hacc Hl0 Hl Hadv Ha Hfit Htot _ _ Hus Hnone Hpre Hsubs Hplans _ _] Hfresh.
  pose proof (ad_requests _ _ _ _ Hadv) as [Hsp Hsu Hsr]. pose proof (lk_id _ _ _ _ _ _ Hl) as Hid.
  unfold Accounting. rewrite Hplans, Hus, Hpre, Hsubs, <-Hsp, <-Hsu, <-Hsr.
  set (record := usage_record_of s plan userId req amount (us_QuotaEpoch s) (db_now env)).
  assert (Hf : first (same_usage (us_Id s) req) (usage_records mid) = None)
    by (rewrite Hsu, Hid; exact Hfresh).
  destruct (upsert_booked env record (usage_records mid) (us_QuotaEpoch s)) as [Hbook Hex];
    [cbn; pose proof (locked_used _ _ _ _ _ _ Hacc Hl); lia|apply Hacc|cbn; by rewrite Hf|].
  apply (books_accounting _ _ (usage_records mid) _ (pre_consume_records mid) _ s _ req (us_QuotaEpoch s) amount).
  split; try done; try apply Hl.
  - cbn. intros _. rewrite decide_True by done. unfold quota_of. rewrite Hf. cbn. lia.
  - cbn. pose proof (locked_used _ _ _ _ _ _ Hacc Hl). lia.
  - apply pre_ok_insert; [apply Hacc|cbn; pose proof (locked_used _ _ _ _ _ _ Hacc Hl); lia|].
    rewrite Hsr. exact Hnone.
  - apply Forall_insert_row.
    + apply Forall_forall. intros p Hp. left. split; [done|]. intros _ [= _ Hreq].
      by destruct (first_None _ _ p Hnone); [rewrite <-Hsr|].
    + right. cbn. split_and!; [done..|lia|done|intros _; exact Hex].
Qed.

(** ** Reserving a request to a target *)

(** The database after a reservation of a request whose current quota is
    [current]: nothing changes, the record of an earlier epoch is corrected, or
    the difference is charged, down to nothing. *)
Definition reserve_after (env : Env) (mid db' : DB) (s : UserSubscription)
    (record : ValuePackageUsageRecord) (current : Z) : Prop :=
  let target := vu_Quota record in
  (target = current ∧ db' = mid) ∨
  (target ≠ current ∧ vu_QuotaEpoch record ≠ us_QuotaEpoch s ∧
   db' = mid <| usage_records ::= upsert_usage env record |>) ∨
  (target ≠ current ∧ vu_QuotaEpoch record = us_QuotaEpoch s ∧
   (0 < us_AmountTotal s → current < target →
    us_AmountUsed s + (target - current) ≤ us_AmountTotal s) ∧
   us_AmountUsed s + (target - current) ≤ max_int64 ∧
   db' = mid <| usage_records ::= upsert_usage env record |>
             <| user_subscriptions ::= save
                  (s <| us_AmountUsed := 0 `max` (us_AmountUsed s + (target - current)) |>
                     <| us_UpdatedAt := app_now env |>) |>).

(** What a reservation does. *)
Record package_reserve {B : PostBilled} (env : Env) (db mid db' : DB) (req : string) (userId id target : Z)
    (s0 s : UserSubscription) (plan : SubscriptionPlan) (ep : Z)
    (r : SubscriptionPreConsumeResult) : Prop := {
  rv_acc : Accounting mid;
  rv_locked0 : locked db userId id (db_now env) s0 plan;
  rv_locked : locked mid userId id (db_now env) s plan;
  rv_advanced : advanced db mid s0 s;
  rv_target : 0 ≤ target;
  rv_epoch : ep = request_epoch s (pre_consume_of req mid) (usage_of id req mid);
  rv_match : ∀ p, pre_consume_of req mid = Some p →
    pc_UserId p = userId ∧ pc_UserSubscriptionId p = id;
  rv_after : reserve_after env mid db' s
    (usage_record_of s plan userId req target ep (db_now env)) (quota_of (usage_records mid) id req);
  rv_result : pr_PreConsumed r = target ∧ pr_QuotaEpoch r = ep ∧ pr_UserSubscriptionId r = id;
}.

Lemma request_epoch_le {B : PostBilled} db userId id now s plan req :
  Accounting db → locked db userId id now s plan →
  (∀ p, pre_consume_of req db = Some p → pc_UserSubscriptionId p = id) →
  request_epoch s (pre_consume_of req db) (usage_of id req db) ≤ us_QuotaEpoch s.
Proof.
  intros Hacc Hl Hmatch. pose proof (locked_package _ _ _ _ _ _ Hl) as Hp.
  pose proof (lk_elem _ _ _ _ _ _ Hl) as Hs. pose proof (lk_id _ _ _ _ _ _ Hl) as Hid.
  pose proof (ac_sub _ _ _ _ Hacc) as Hsub. rewrite Forall_forall in Hsub.
  unfold request_epoch. destruct (usage_of id req db) as [u|] eqn:Hu.
  - apply first_Some in Hu as [Hu [Huid _]].
    pose proof (so_epochs _ _ _ (Hsub s Hs) Hp) as He. rewrite Forall_forall in He.
    apply He; [done|congruence].
  - destruct (pre_consume_of req db) as [p|] eqn:Hpre; [|done].
    specialize (Hmatch p eq_refl). apply first_Some in Hpre as [Hpre _].
    pose proof (ac_request _ _ _ _ Hacc) as Hreq. rewrite Forall_forall in Hreq.
    apply (ro_epoch _ _ _ _ (Hreq p Hpre) s Hs); [congruence|done].
Qed.

Lemma wp_check_limits env sub plan userId req target delta ep created now (Q : result () → DB → Prop) db :
  (∀ e, Q (Err e) db) →
  (¬ (us_AmountTotal sub > 0 ∧ us_AmountTotal sub -! us_AmountUsed sub < delta) → Q (Ok tt) db) →
  wp (check_reserve_limits env sub plan userId req target delta ep created now) Q db.
Proof.
  intros HErr HOk. unfold check_reserve_limits, getLastValuePackageQuotaResetAtTx.
  wp_guard as Htotal; [apply HErr|]. wp_step. wp_step. wp_step. wp_step. wp_step. wp_step.
  wp_guard as H5; [apply HErr|]. apply wp_fail_if; intros; auto.
Qed.

Lemma wp_record_usage env record (Q : result () → DB → Prop) db :
  (∀ e, Q (Err e) db) → Q (Ok tt) (db <| usage_records ::= upsert_usage env record |>) →
  wp (recordValuePackageUsageTx env record) Q db.
Proof. intros HErr HOk. unfold recordValuePackageUsageTx. wp_guard as _; [apply HErr|]. by wp_step. Qed.

(** The current quota of a request, and that a reservation of it does not wrap
    around and, with the books exact, is not clamped. *)
Lemma reserve_range {B : PostBilled} db userId id now s plan req target :
  Accounting db → locked db userId id now s plan → 0 ≤ target ≤ max_int64 →
  (∀ p, pre_consume_of req db = Some p → pc_UserSubscriptionId p = id) →
  let current := quota_of (usage_records db) id req in
  let ep := request_epoch s (pre_consume_of req db) (usage_of id req db) in
  0 ≤ current ≤ max_int64 ∧ target -! current = target - current ∧
  (id ∉ post_billed → ep = us_QuotaEpoch s → 0 ≤ us_AmountUsed s + (target - current)).
Proof.
  intros Hacc Hl Ht Hmatch. cbv zeta.
  destruct (locked_used _ _ _ _ _ _ Hacc Hl) as (Hused & Hrange & _).
  unfold request_epoch. destruct (usage_of id req db) as [u|] eqn:Hu.
  - destruct (quota_of_charged (usage_records db) id req u (ac_usage _ _ _ _ Hacc) Hu) as [Hq Hc].
    split_and!; [lia..|unwrap; lia|]. intros Hb He. rewrite He in Hc. specialize (Hused Hb). lia.
  - unfold quota_of. unfold usage_of in Hu. rewrite Hu. cbn. split_and!; [lia..|unwrap; lia|lia].
Qed.

Lemma wp_reserve {B : PostBilled} env req userId id target db (Q : result SubscriptionPreConsumeResult → DB → Prop) :
  Accounting db → room db id target →
  (∀ r mid db' s0 s plan ep, package_reserve env db mid db' req userId id target s0 s plan ep r → Q (Ok r) db') →
  (∀ e, Q (Err e) db) →
  wp (ReserveValuePackageUsageToTarget env req userId id target) Q db.
Proof.
  intros Hacc Hroom HOk HErr. unfold ReserveValuePackageUsageToTarget.
  wp_guard as Hreq; [apply HErr|]. wp_guard as Huser; [apply HErr|].
  wp_guard as Hidpos; [apply HErr|]. wp_guard as Htarget; [apply HErr|].
  wp_step. wp_step. apply wp_lock; [done| |intros; apply HErr]. intros s0 s plan mid Hacc' Hl0 Hl _ Hadv.
  pose proof (locked_used _ _ _ _ _ _ Hacc' Hl) as (Hused & Hrange & Htmax & Hcap).
  pose proof (room_locked _ _ _ _ _ _ _ _ target Hacc Hl0 Hl Hadv Hroom) as Hfree.
  pose proof (lk_id _ _ _ _ _ _ Hl) as Hid.
  wp_step. wp_step. wp_guard as Hmis; [apply HErr|]. wp_guard as Hepoch; [apply HErr|].
  assert (Hmatch : ∀ p, pre_consume_of req mid = Some p → pc_UserId p = userId ∧ pc_UserSubscriptionId p = id).
  { intros p Hp. rewrite Hp in Hmis. cbn in Hmis. split; apply dec_stable; naive_solver. }
  change (from_option vu_Quota 0 (usage_of id req mid)) with (quota_of (usage_records mid) id req).
  set (ep := request_epoch s _ _). set (current := quota_of _ _ _).
  destruct Hroom as [Hmax _].
  destruct (reserve_range mid userId id (db_now env) s plan req target Hacc' Hl) as (Hcur & Hdelta & _);
    [lia|intros; by apply Hmatch|]. fold current in Hcur, Hdelta. rewrite Hdelta.
  assert (Hfin : ∀ db' r, pr_PreConsumed r = target ∧ pr_QuotaEpoch r = ep ∧ pr_UserSubscriptionId r = id →
    reserve_after env mid db' s (usage_record_of s plan userId req target ep (db_now env)) current →
    Q (Ok r) db') by (intros db' r Hr Hafter; apply (HOk r mid db' s0 s plan ep); split;
      [done|done|done|done|lia|done|done|exact Hafter|exact Hr]).
  wp_step; [wp_step; apply Hfin; [done|left; split; [cbn; lia|done]]|].
  wp_step; [wp_step; apply wp_record_usage; [intros; apply HErr|wp_step; apply Hfin; [done|right; left]]|].
  { split_and!; [cbn; lia|done|done]. }
  assert (Hep : ep = us_QuotaEpoch s) by lia.
  wp_step. eapply (wp_mono _ (λ r db', db' = mid ∧ match r with Ok _ =>
    0 < us_AmountTotal s → current < target → us_AmountUsed s + (target - current) ≤ us_AmountTotal s
    | Err _ => True end)).
  { wp_step; [|wp_step; split; [done|lia]]. apply wp_check_limits; [done|]. intros Ht. split; [done|].
    intros Htot Hlt. replace (us_AmountTotal s -! us_AmountUsed s) with (us_AmountTotal s - us_AmountUsed s) in Ht
      by (unwrap; lia). lia. }
  intros [[]|e] db1 [-> Hlim]; [|apply HErr].
  wp_step. apply wp_record_usage; [intros; apply HErr|].
  assert (Hup : us_AmountUsed s + (target - current) ≤ max_int64).
  { destruct (decide (0 < us_AmountTotal s)); [|lia]. destruct (decide (current < target)); lia. }
  replace (us_AmountUsed s +! (target - current)) with (us_AmountUsed s + (target - current)) by (unwrap; lia).
  replace (if decide (us_AmountUsed s + (target - current) < 0) then 0 else us_AmountUsed s + (target - current))
    with (0 `max` (us_AmountUsed s + (target - current))) by (case_decide; lia).
  unfold save_subscription. wp_steps.
  apply Hfin; [done|]. right; right. split_and!; [cbn; lia|done..].
Qed.

Lemma sub_same_save {B : PostBilled} s db : Accounting db → s ∈ rows (user_subscriptions db) →
  save s (user_subscriptions db) = user_subscriptions db.
Proof. intros Hacc. apply save_same, Hacc. Qed.

(** The booking of a reservation, whether or not the subscription is charged. *)
Lemma reserve_books {B : PostBilled} env mid req userId id target s s' plan now :
  Accounting mid → locked mid userId id now s plan → 0 ≤ target ≤ max_int64 →
  (∀ p, pre_consume_of req mid = Some p → pc_UserSubscriptionId p = id ∧ pc_Status p ≠ "refunded") →
  let ep := request_epoch s (pre_consume_of req mid) (usage_of id req mid) in
  let current := quota_of (usage_records mid) id req in
  us_Id s' = us_Id s → us_PlanId s' = us_PlanId s → us_QuotaEpoch s' = us_QuotaEpoch s →
  us_AmountTotal s' = us_AmountTotal s →
  (id ∉ post_billed →
    us_AmountUsed s' = us_AmountUsed s + (if decide (ep = us_QuotaEpoch s) then target - current else 0)) →
  0 ≤ us_AmountUsed s' ≤ max_int64 → (0 < us_AmountTotal s → us_AmountUsed s' ≤ us_AmountTotal s) →
  accounting (subscription_plans mid) (save s' (user_subscriptions mid))
    (upsert_usage env (usage_record_of s plan userId req target ep now) (usage_records mid))
    (pre_consume_records mid).
Proof.
  intros Hacc Hl Ht Hmatch ep current Hid Hplan Hepoch Htotal Hused Hfits Hcap.
  pose proof (lk_id _ _ _ _ _ _ Hl) as Hsid.
  set (record := usage_record_of s plan userId req target ep now).
  destruct (upsert_booked env record (usage_records mid) ep) as [Hbook _]; [cbn; lia|apply Hacc| |].
  { cbn. rewrite Hsid. unfold ep, request_epoch, usage_of. by destruct (first _ _). }
  apply (books_accounting _ _ (usage_records mid) _ (pre_consume_records mid) _ s _ req ep target).
  split; try done; try apply Hl.
  - intros _. eapply request_epoch_le; [done..|]. intros p Hp. by apply Hmatch.
  - intros _. rewrite Hsid. exact Hused.
  - apply Hacc.
  - apply Forall_forall. intros p Hp. left. split; [done|]. intros Hst [= Hpid Hpreq].
    destruct (pre_consume_of req mid) as [p'|] eqn:Hpre.
    + destruct (Hmatch p' eq_refl) as [_ Hns]. apply first_Some in Hpre as [Hp' Hreq'].
      destruct Hns. rewrite <-Hst. f_equal. apply (po_unique _ (ac_pre _ _ _ _ Hacc)); congruence.
    + by destruct (first_None _ _ p Hpre Hp).
Qed.

Lemma reserve_accounting {B : PostBilled} env db mid db' req userId id target s0 s plan ep r :
  package_reserve env db mid db' req userId id target s0 s plan ep r → target ≤ max_int64 →
  (∀ p, pre_consume_of req db = Some p → pc_Status p ≠ "refunded") → Accounting db'.
Proof.
  intros [Hacc _ Hl Hadv Ht Hep Hmatch Hafter _] Hmax Hns.
  pose proof (locked_used _ _ _ _ _ _ Hacc Hl) as (Hused & Hrange & Htmax & Hcap).
  assert (Hpre : ∀ p, pre_consume_of req mid = Some p → pc_UserSubscriptionId p = id ∧ pc_Status p ≠ "refunded").
  { intros p Hp. split; [by apply Hmatch|]. apply Hns. destruct (ad_requests _ _ _ _ Hadv) as [_ _ Hsr].
    unfold pre_consume_of in *. by rewrite <-Hsr. }
  pose proof (reserve_range mid userId id (db_now env) s plan req target Hacc Hl) as (_ & _ & Hpos);
    [lia|intros p Hp; by apply Hpre|].
  subst ep. destruct Hafter as [[_ ->]|[(_ & Hne & ->)|(Hne & He & Hlim & Hfit & ->)]]; [done| |].
  - cbn in Hne. unfold Accounting. cbn.
    rewrite <-(sub_same_save s mid Hacc (lk_elem _ _ _ _ _ _ Hl)) at 1.
    apply (reserve_books env mid); try done; try lia. rewrite decide_False by done. lia.
  - cbn in Hne, He, Hlim, Hfit. apply (reserve_books env mid); try done; try lia; cbn.
    + intros Hb. specialize (Hpos Hb He). rewrite decide_True by done. lia.
    + lia.
    + intros Htpos. specialize (Hlim Htpos). specialize (Hcap Htpos).
      destruct (decide (quota_of (usage_records mid) id req < target)); lia.
Qed.

Lemma first_upsert env record usage :
  usage_ok usage → 0 ≤ vu_Quota record ≤ max_int64 →
  quota_of (upsert_usage env record usage) (vu_UserSubscriptionId record) (vu_RequestId record)
    = vu_Quota record.
Proof.
  intros Hok Hq. destruct (upsert_booked env record usage _ Hq Hok eq_refl) as [Hbook (r & Hr & Hk)].
  unfold quota_of. rewrite (usage_first _ _ _ r (bk_ok _ _ _ _ _ _ Hbook) Hr Hk). cbn.
  by destruct (bk_quota _ _ _ _ _ _ Hbook r Hr) as [[_ ->]|[_ ?]].
Qed.

(** ** Refunding a request *)

Definition revoked (id : Z) (req : string) (usage : table ValuePackageUsageRecord) :
    table ValuePackageUsageRecord :=
  update_where (same_usage id req) (λ r, r <| vu_Quota := 0 |>) usage.

(** What is left used after a refund. *)
Definition refunded_used (db : DB) (s : UserSubscription) (plan : SubscriptionPlan)
    (p : SubscriptionPreConsumeRecord) : Z :=
  if IsValuePackage plan then
    0 `max` (us_AmountUsed s - (if decide (us_QuotaEpoch s = pc_QuotaEpoch p)
                                then quota_of (usage_records db) (us_Id s) (pc_RequestId p) else 0))
  else 0 `max` (us_AmountUsed s - 0 `max` pc_PreConsumed p).

(** What the first refund of a request does. *)
Record refund_done (env : Env) (db db' : DB) (p : SubscriptionPreConsumeRecord)
    (s s' : UserSubscription) (plan : SubscriptionPlan) : Prop := {
  rf_status : pc_Status p ≠ "refunded";
  rf_pre : pre_consume_of (pc_RequestId p) db = Some p;
  rf_sub : by_id (pc_UserSubscriptionId p) (user_subscriptions db) = Some s;
  rf_plan : plan_of (subscription_plans db) (us_PlanId s) = Some plan;
  rf_same : same_sub s s' ∧ us_QuotaEpoch s' = us_QuotaEpoch s ∧ us_AmountTotal s' = us_AmountTotal s;
  rf_used : us_AmountUsed s' = refunded_used db s plan p;
  rf_epochs : IsValuePackage plan = true →
    ∀ u, usage_of (us_Id s) (pc_RequestId p) db = Some u → vu_QuotaEpoch u = pc_QuotaEpoch p;
  rf_db : db' = db <| user_subscriptions ::= save s' |>
                   <| usage_records ::= revoked (us_Id s) (pc_RequestId p) |>
                   <| pre_consume_records ::= save (p <| pc_Status := "refunded" |>
                                                      <| pc_UpdatedAt := app_now env |>) |>;
}.

Lemma revoked_settled id req usage :
  Forall (λ r, usage_key r = (id, req) → vu_Quota r = 0) (rows usage) → revoked id req usage = usage.
Proof.
  destruct usage as [l n]. unfold revoked, update_where. cbn. intros Hz. f_equal.
  induction Hz as [|r l Hr _ IH]; csimpl; [done|]. rewrite IH. f_equal.
  case_decide as Hs; [|done]. destruct Hs as [<- <-]. specialize (Hr eq_refl).
  destruct r; cbn in *. by subst.
Qed.

Lemma wp_revoke id req (Q : result () → DB → Prop) db :
  0 < id → TrimSpace req ≠ "" → Q (Ok tt) (db <| usage_records ::= revoked id req |>) →
  wp (revokeValuePackageUsageReservationTx id req) Q db.
Proof.
  intros Hid Hreq HQ. unfold revokeValuePackageUsageReservationTx.
  rewrite decide_False by (intros [?|?]; [lia|done]). by wp_step.
Qed.

Lemma package_usage {B : PostBilled} db p s plan :
  Accounting db → p ∈ rows (pre_consume_records db) → s ∈ rows (user_subscriptions db) →
  us_Id s = pc_UserSubscriptionId p → plan_of (subscription_plans db) (us_PlanId s) = Some plan →
  IsValuePackage plan = true → ∃ u, usage_of (us_Id s) (pc_RequestId p) db = Some u.
Proof.
  intros Hacc Hp Hs Hid Hplan Hv.
  pose proof (ac_request _ _ _ _ Hacc) as Hreq. rewrite Forall_forall in Hreq.
  destruct (ro_recorded _ _ _ _ (Hreq p Hp) s Hs Hid) as (u & Hu & Hk); [by exists plan|].
  exists u. rewrite Hid. by apply usage_first; [apply Hacc|..].
Qed.

Lemma sub_of {B : PostBilled} db s : Accounting db → s ∈ rows (user_subscriptions db) →
  sub_ok (subscription_plans db) (usage_records db) s.
Proof. intros Hacc. pose proof (ac_sub _ _ _ _ Hacc) as Hsub. rewrite Forall_forall in Hsub. auto. Qed.

Lemma usage_update_id f db : f (usage_records db) = usage_records db → db <| usage_records ::= f |> = db.
Proof. destruct db. cbn. by intros ->. Qed.

Lemma subs_update_id f db :
  f (user_subscriptions db) = user_subscriptions db → db <| user_subscriptions ::= f |> = db.
Proof. destruct db. cbn. by intros ->. Qed.

Lemma refund_save env (s : UserSubscription) quota (Q : result () → DB → Prop) db :
  (∀ s', same_sub s s' ∧ us_QuotaEpoch s' = us_QuotaEpoch s ∧ us_AmountTotal s' = us_AmountTotal s →
     us_AmountUsed s' = 0 `max` (us_AmountUsed s - quota) →
     Q (Ok tt) (db <| user_subscriptions ::= save s' |>)) →
  0 ≤ us_AmountUsed s ≤ max_int64 → 0 ≤ quota ≤ max_int64 →
  wp (_ ← save_subscription env (s <| us_AmountUsed :=
        if decide (us_AmountUsed s -! quota < 0) then 0 else us_AmountUsed s -! quota |>); mret tt) Q db.
Proof.
  intros HQ Hs Hq. unfold save_subscription. wp_steps. apply HQ; [by split; [split|]|]. cbn.
  replace (us_AmountUsed s -! quota) with (us_AmountUsed s - quota) by (unwrap; lia).
  case_decide; lia.
Qed.

Lemma wp_refund {B : PostBilled} env req db (Q : result () → DB → Prop) :
  Accounting db →
  (∀ p, pre_consume_of req db = Some p → pc_Status p = "refunded" → Q (Ok tt) db) →
  (∀ p s s' plan db', pc_RequestId p = req → refund_done env db db' p s s' plan → Q (Ok tt) db') →
  (∀ e, Q (Err e) db) →
  wp (RefundSubscriptionPreConsume env req) Q db.
Proof.
  intros Hacc Hagain Hdone HErr. unfold RefundSubscriptionPreConsume.
  wp_guard as Hreq; [apply HErr|]. wp_step. wp_step. wp_step. wp_step.
  apply wp_or_error; [|intros; apply HErr]. intros p Hpre.
  pose proof (first_Some _ _ _ Hpre) as [Hp Hpreq]. cbn in Hpreq. subst req.
  destruct (decide (pc_Status p = "refunded")) as [Hst|Hst].
  { unfold revokeValuePackageUsageReservationTx. wp_step; [wp_step; by apply (Hagain p)|]. wp_step.
    replace (db <| usage_records ::= _ |>) with db; [by apply (Hagain p)|].
    pose proof (ac_request _ _ _ _ Hacc) as Hr. rewrite Forall_forall in Hr.
    symmetry. apply usage_update_id, revoked_settled, (ro_refunded _ _ _ _ (Hr p Hp) Hst). }
  wp_step. apply wp_or_error; [|intros; apply HErr]. intros s Hby.
  pose proof (by_id_Some _ _ _ Hby) as [Hs Hid]. cbn in Hid.
  wp_step. apply wp_get_plan; [|intros; apply HErr]. intros plan0 Hplan.
  set (plan := normalizeValuePackagePlan plan0) in *.
  pose proof (sub_of db s Hacc Hs) as Hok. pose proof (so_fits _ _ _ Hok) as Hfits.
  pose proof (wf_elem _ _ (ac_subs _ _ _ _ Hacc) Hs) as Hpos. cbn in Hpos.
  assert (Hrest : ∀ s' db1, same_sub s s' ∧ us_QuotaEpoch s' = us_QuotaEpoch s ∧
      us_AmountTotal s' = us_AmountTotal s → us_AmountUsed s' = refunded_used db s plan p →
      (IsValuePackage plan = true → ∀ u, usage_of (us_Id s) (pc_RequestId p) db = Some u →
         vu_QuotaEpoch u = pc_QuotaEpoch p) →
      db1 = db <| user_subscriptions ::= save s' |> →
      wp (_ ← revokeValuePackageUsageReservationTx (pc_UserSubscriptionId p) (pc_RequestId p);
          save_pre_consume env (p <| pc_Status := "refunded" |>))
        (λ r db', match r with Ok a => Q (Ok a) db' | Err e => Q (Err e) db end) db1).
  { intros s' db1 Hsame Hused Hep ->. unfold save_pre_consume. wp_step.
    apply wp_revoke; [lia|done|]. wp_step.
    apply (Hdone p s s' plan); [done|]. split; try done. by rewrite Hid. }
  assert (Hsame : same_sub s s ∧ us_QuotaEpoch s = us_QuotaEpoch s ∧ us_AmountTotal s = us_AmountTotal s)
    by (split; [by split|done]).
  assert (Hdb : db = db <| user_subscriptions ::= save s |>)
    by (symmetry; by apply subs_update_id, save_same; [apply Hacc|]).
  pose proof (po_amount _ (ac_pre _ _ _ _ Hacc)) as Ham. rewrite Forall_forall in Ham. specialize (Ham p Hp). cbn in Ham.
  cbv zeta. wp_step. unfold refunded_used in Hrest.
  destruct (IsValuePackage plan) eqn:Hv.
  - rewrite <-Hid in Hrest |- *. wp_guard as Hem; [apply HErr|].
    destruct (package_usage db p s plan Hacc Hp Hs Hid Hplan Hv) as [u Hu].
    assert (Hue : vu_QuotaEpoch u = pc_QuotaEpoch p).
    { rewrite Hu in Hem. symmetry. by apply dec_stable. }
    destruct (quota_of_charged (usage_records db) (us_Id s) (pc_RequestId p) u (ac_usage _ _ _ _ Hacc) Hu) as [Hq Hc].
    assert (Hqu : quota_of (usage_records db) (us_Id s) (pc_RequestId p) = vu_Quota u)
      by (unfold quota_of; unfold usage_of in Hu; by rewrite Hu).
    rewrite Hqu in *. rewrite Hu. change (refund_quota p (Some u)) with (vu_Quota u).
    assert (Hep : true = true → ∀ u', Some u = Some u' → vu_QuotaEpoch u' = pc_QuotaEpoch p) by congruence.
    rewrite Hu in Hrest.
    destruct (decide (us_QuotaEpoch s = pc_QuotaEpoch p ∧ vu_Quota u > 0)) as [[He Hq0]|Hno].
    + apply refund_save; [|done|lia]. intros s' Hs' Hu'. apply (Hrest s'); [done| |done|done].
      rewrite Hu', decide_True by done. lia.
    + wp_step. apply (Hrest s); [done| |done|done]. case_decide; lia.
  - wp_step; [|wp_step; apply (Hrest s); [done| |done|done]; lia].
    apply refund_save; [|done|lia]. intros s' Hs' Hu'. apply (Hrest s'); [done| |done|done].
    rewrite Hu'. lia.
Qed.

Lemma refund_accounting {B : PostBilled} env db db' p s s' plan :
  Accounting db → refund_done env db db' p s s' plan → Accounting db'.
Proof.
  intros Hacc [Hst Hpre Hby Hplan (Hsame & Hep & Htot) Hused Heps ->].
  pose proof (first_Some _ _ _ Hpre) as [Hp _].
  pose proof (by_id_Some _ _ _ Hby) as [Hs Hid]. cbn in Hid.
  pose proof (sub_of db s Hacc Hs) as Hok. pose proof (so_fits _ _ _ Hok) as Hfits.
  assert (Hpk : package (subscription_plans db) s ↔ IsValuePackage plan = true).
  { unfold package. rewrite Hplan. naive_solver. }
  set (req := pc_RequestId p) in *. set (usage := usage_records db) in *.
  set (ep := from_option vu_QuotaEpoch (us_QuotaEpoch s) (first (same_usage (us_Id s) req) usage)).
  assert (Hbook : booked usage (revoked (us_Id s) req usage) (us_Id s) req ep 0).
  { apply revoke_booked; [apply Hacc|]. unfold ep. intros r ->. done. }
  assert (Hfinal : us_AmountUsed s' ≤ us_AmountUsed s ∧ 0 ≤ us_AmountUsed s' ∧
    (package (subscription_plans db) s → us_Id s ∉ post_billed → us_AmountUsed s' = us_AmountUsed s +
       if decide (ep = us_QuotaEpoch s) then 0 - quota_of usage (us_Id s) req else 0)).
  { rewrite Hused. unfold refunded_used. fold usage req. destruct (IsValuePackage plan) eqn:Hv.
    2:{ split_and!; [lia..|]. by intros ?%Hpk. }
    destruct (package_usage db p s plan Hacc Hp Hs Hid Hplan Hv) as [u Hu].
    destruct (quota_of_charged usage (us_Id s) req u (ac_usage _ _ _ _ Hacc) Hu) as [Hq Hc].
    specialize (Heps eq_refl u Hu). unfold ep. unfold usage_of in Hu. fold usage in Hu.
    fold req in Hu. rewrite Hu. cbn [from_option]. rewrite Heps in *.
    destruct (decide (us_QuotaEpoch s = pc_QuotaEpoch p)) as [He|He].
    - rewrite He. rewrite decide_True by done. split_and!; [lia..|]. intros Hv' Hb.
      pose proof (so_used _ _ _ Hok Hv' Hb) as Hall. fold usage in Hall. rewrite He in Hall. lia.
    - rewrite decide_False by done. lia. }
  destruct Hfinal as (Hle & H0 & Hdelta).
  pose proof (ac_request _ _ _ _ Hacc) as Hreqs. rewrite Forall_forall in Hreqs.
  apply (books_accounting _ _ usage _ (pre_consume_records db) _ s s' req ep 0).
  split; try done; try apply Hsame.
  - intros Hv. unfold ep. destruct (first (same_usage (us_Id s) req) usage) as [u|] eqn:Hu; [|done].
    apply first_Some in Hu as [Hu [Huid _]].
    pose proof (so_epochs _ _ _ Hok Hv) as He. rewrite Forall_forall in He. by apply He.
  - lia.
  - intros Hpos. pose proof (so_cap _ _ _ Hok Hpos). lia.
  - by apply (pre_ok_save _ p); [apply Hacc|..].
  - apply Forall_save.
    + apply Forall_forall. intros x Hx. by left.
    + right. split_and!; [done|done| |done|].
      * intros Hv. by apply (ro_epoch _ _ _ _ (Hreqs p Hp) s Hs).
      * intros Hv. destruct (ro_recorded _ _ _ _ (Hreqs p Hp) s Hs Hid Hv) as (u & Hu & Hk).
        destruct (bk_keep _ _ _ _ _ _ Hbook u Hu) as (u' & Hu' & Hk'). exists u'. split; [done|].
        rewrite Hk', Hk. by rewrite Hid.
Qed.

(** ** Regular subscriptions *)

(** What the reset check of a subscription does to it and to the tables. *)
Definition reset_done (db db' : DB) (s s' : UserSubscription) : Prop :=
  same_requests db db' ∧ same_sub s s' ∧ us_QuotaEpoch s' = us_QuotaEpoch s ∧
  us_AmountTotal s' = us_AmountTotal s ∧ us_UserId s' = us_UserId s ∧
  (us_AmountUsed s' = us_AmountUsed s ∨ us_AmountUsed s' = 0) ∧
  user_subscriptions db' = save s' (user_subscriptions db).

Lemma reset_done_accounting {B : PostBilled} db db' s s' :
  Accounting db → s ∈ rows (user_subscriptions db) → ¬ package (subscription_plans db) s →
  reset_done db db' s s' → Accounting db' ∧ s' ∈ rows (user_subscriptions db').
Proof.
  intros Hacc Hs Hn ([Hp Hu Hr] & Hsame & He & Ht & _ & Hused & Hsubs).
  pose proof (sub_of db s Hacc Hs) as [Hok1 _ Hfits Htot Hcap _].
  unfold Accounting. rewrite Hp, Hu, Hr, Hsubs. split.
  - apply (accounting_save _ _ _ _ s); [exact Hacc|done|done|].
    apply sub_ok_regular; [|by rewrite He|lia|lia|lia].
    intros Hpk. apply Hn. by apply (package_plan _ s s'); [apply Hsame|].
  - apply (elem_of_save_new _ s); [done|]. symmetry. apply Hsame.
Qed.

Lemma wp_reset {B : PostBilled} env s plan now (Q : result UserSubscription → DB → Prop) db :
  Accounting db → s ∈ rows (user_subscriptions db) → ¬ package (subscription_plans db) s →
  (∀ s' db', Accounting db' → s' ∈ rows (user_subscriptions db') → reset_done db db' s s' → Q (Ok s') db') →
  (∀ e, Q (Err e) db) →
  wp (maybeResetUserSubscriptionWithPlanTx env s plan now) Q db.
Proof.
  intros Hacc Hs Hn HOk HErr.
  assert (Hret : ∀ s' db', reset_done db db' s s' → Q (Ok s') db').
  { intros s' db' Hd. destruct (reset_done_accounting db db' s s' Hacc Hs Hn Hd). auto. }
  assert (Hself : Q (Ok s) db).
  { apply Hret. split; [by split|]. split; [by split|]. split_and!; [done..|by left|].
    symmetry. apply save_same; [apply Hacc|done]. }
  unfold maybeResetUserSubscriptionWithPlanTx.
  wp_step; [by wp_step|]. wp_step; [by wp_step|]. destruct (loop _ _ _) as [st ret].
  destruct (negb ret); [wp_step; apply HErr|]. unfold save_subscription.
  destruct (negb (rs_advanced st)); [wp_step; [|by wp_step]|];
    wp_steps; apply Hret; (split; [by split|]); (split; [by split|]); cbn; auto 8.
Qed.

Lemma booked_refl usage id req ep :
  usage_ok usage → booked usage usage id req ep (quota_of usage id req).
Proof.
  intros Hok. split; [done| |eauto|eauto|].
  - intros i e. case_decide; lia.
  - intros r Hr. destruct (decide (usage_key r = (id, req))) as [Hk|Hk]; [left|by right].
    split; [done|]. unfold quota_of. by rewrite (usage_first _ _ _ r Hok Hr Hk).
Qed.

(** A pre-consumed request of a regular subscription. *)
Lemma regular_charge_accounting {B : PostBilled} db s s' p :
  Accounting db → s ∈ rows (user_subscriptions db) → ¬ package (subscription_plans db) s →
  us_Id s' = us_Id s → us_PlanId s' = us_PlanId s → us_QuotaEpoch s' = us_QuotaEpoch s →
  us_AmountTotal s' = us_AmountTotal s → 0 ≤ us_AmountUsed s' ≤ max_int64 →
  (0 < us_AmountTotal s → us_AmountUsed s' ≤ us_AmountTotal s) →
  pc_UserSubscriptionId p = us_Id s → pc_Status p ≠ "refunded" → 0 ≤ pc_PreConsumed p ≤ max_int64 →
  pre_consume_of (pc_RequestId p) db = None →
  accounting (subscription_plans db) (save s' (user_subscriptions db)) (usage_records db)
    (insert_row p (pre_consume_records db)).
Proof.
  intros Hacc Hs Hn Hid Hpl He Ht Hu Hc Hpid Hst Ham Hnone.
  apply (books_accounting _ _ (usage_records db) _ (pre_consume_records db) _ s s' (pc_RequestId p)
           (us_QuotaEpoch s) (quota_of (usage_records db) (us_Id s) (pc_RequestId p))).
  split; try done.
  - apply booked_refl, Hacc.
  - by apply pre_ok_insert; [apply Hacc|..].
  - apply Forall_insert_row.
    + apply Forall_forall. intros x Hx. left. split; [done|]. intros _ [= _ Hreq].
      by destruct (first_None _ _ x Hnone Hx).
    + right. cbn. by split_and!.
Qed.

(** The answer to a charged request: the amount is added, within the total. *)
Definition charge_result (amount : Z) (r : SubscriptionPreConsumeResult) : Prop :=
  pr_PreConsumed r = amount ∧ pr_AmountUsedAfter r = pr_AmountUsedBefore r + amount ∧
  (0 < pr_AmountTotal r → pr_AmountUsedAfter r ≤ pr_AmountTotal r).

(** Candidates that are rows of the table, each once, with room for the charge. *)
Record candidates_ok (db : DB) (amount : Z) (subs : list UserSubscription) : Prop := {
  co_elem : Forall (λ s, s ∈ rows (user_subscriptions db)) subs;
  co_nodup : NoDup (us_Id <$> subs);
  co_room : Forall (λ s, us_AmountTotal s ≤ 0 → us_AmountUsed s + amount ≤ max_int64) subs;
}.

Lemma candidates_ok_save db db' amount s s' subs :
  candidates_ok db amount (s :: subs) → reset_done db db' s s' → candidates_ok db' amount subs.
Proof.
  intros [He Hnd Hr] (_ & [Hid _ _] & _ & _ & _ & _ & Hsubs).
  apply Forall_cons in He as [_ He]. apply Forall_cons in Hr as [_ Hr].
  apply NoDup_cons in Hnd as [Hni Hnd]. split; [|done|done].
  rewrite Forall_forall in He. apply Forall_forall. intros x Hx. rewrite Hsubs.
  unfold save. rewrite elem_of_update_where. left. split; [auto|]. cbn. rewrite Hid.
  intros Heq. apply Hni. rewrite <-Heq. by apply list_elem_of_fmap_2.
Qed.

Lemma wp_candidates {B : PostBilled} env now req userId amount subs db
    (Q : result SubscriptionPreConsumeResult → DB → Prop) :
  Accounting db → pre_consume_of req db = None → 0 < amount ≤ max_int64 → candidates_ok db amount subs →
  (∀ r db', Accounting db' → charge_result amount r → Q (Ok r) db') → (∀ e db', Q (Err e) db') →
  wp (pre_consume_candidates env now req userId amount subs) Q db.
Proof.
  intros Hacc Hnone Ha Hco HOk HErr. revert db Hacc Hnone Hco.
  induction subs as [|c subs IH]; intros db Hacc Hnone Hco; cbn [pre_consume_candidates];
    [wp_step; apply HErr|].
  pose proof Hco as [He Hnd Hr]. apply Forall_cons in He as [Hc He]. apply Forall_cons in Hr as [Hrc Hr].
  apply NoDup_cons in Hnd as [Hni Hnd].
  wp_step. apply wp_get_plan; [|intros; apply HErr]. intros plan0 Hplan. cbv zeta.
  destruct (IsValuePackage _) eqn:Hv; [by apply IH|].
  assert (Hn : ¬ package (subscription_plans db) c).
  { intros (p & Hp & Hpv). rewrite Hplan in Hp. injection Hp as <-. congruence. }
  wp_step. apply wp_reset; [done|done|done| |intros; apply HErr].
  intros s' db' Hacc' Hs' Hd. pose proof Hd as ([Hpl Hus Hpr] & Hsame & Hep & Htot & _ & Hused & Hsubs).
  assert (Hnone' : pre_consume_of req db' = None) by (unfold pre_consume_of in *; by rewrite Hpr).
  wp_step; [by apply IH; [..|eapply candidates_ok_save]|].
  unfold create_pre_consume_unique. wp_step. wp_step. wp_step. cbn [pc_RequestId]. rewrite Hnone'.
  unfold create_pre_consume, save_subscription. wp_steps.
  pose proof (sub_of db' s' Hacc' Hs') as Hok. pose proof (so_fits _ _ _ Hok) as Hfits.
  pose proof (so_total _ _ _ Hok) as Htmax. pose proof (so_cap _ _ _ Hok) as Hcap.
  assert (Hfit : us_AmountUsed s' + amount ≤ max_int64 ∧
    (0 < us_AmountTotal s' → us_AmountUsed s' + amount ≤ us_AmountTotal s')).
  { destruct (decide (0 < us_AmountTotal s')) as [Hpos|Hpos]; [|split; [|lia]].
    - replace (us_AmountTotal s' -! us_AmountUsed s') with (us_AmountTotal s' - us_AmountUsed s') in *
        by (unwrap; lia). lia.
    - destruct Hused as [-> | ->]; [apply Hrc; lia|lia]. }
  replace (us_AmountUsed s' +! amount) with (us_AmountUsed s' + amount) by (unwrap; lia).
  apply HOk; [|split_and!; [done|done|apply Hfit]].
  apply (regular_charge_accounting db' s'); try done; try apply Hfit; cbn; [|lia|lia].
  intros Hpk. apply Hn. rewrite Hpl in Hpk. by apply (package_plan _ c s'); [apply Hsame|].
Qed.

Definition user_room (db : DB) (userId amount : Z) : Prop :=
  amount ≤ max_int64 ∧
  ∀ s, s ∈ rows (user_subscriptions db) → us_UserId s = userId →
    us_AmountTotal s ≤ 0 → us_AmountUsed s + amount ≤ max_int64.

Lemma candidates_ok_query {B : PostBilled} db userId amount (P : UserSubscription → Prop) `{∀ s, Decision (P s)} :
  Accounting db → user_room db userId amount → (∀ s, P s → us_UserId s = userId) →
  candidates_ok db amount (order_by by_end_time (where_ P (user_subscriptions db))).
Proof.
  intros Hacc [_ Hroom] HP. unfold order_by.
  pose proof (merge_sort_Permutation by_end_time (where_ P (user_subscriptions db))) as Hperm.
  split.
  - apply Forall_forall. intros s Hs. rewrite Hperm in Hs. by apply where_elem in Hs as [_ Hs].
  - rewrite Hperm. unfold where_. apply NoDup_fmap_filter. exact (wf_NoDup _ (ac_subs _ _ _ _ Hacc)).
  - apply Forall_forall. intros s Hs. rewrite Hperm in Hs. apply where_elem in Hs as [Hs1 Hs2]. auto.
Qed.

Lemma wp_preconsume_user {B : PostBilled} env req userId amount db (Q : result SubscriptionPreConsumeResult → DB → Prop) :
  Accounting db → user_room db userId amount →
  (∀ r existing, pre_consume_of req db = Some existing → replayed db db existing r → Q (Ok r) db) →
  (∀ r db', Accounting db' → charge_result amount r → Q (Ok r) db') → (∀ e, Q (Err e) db) →
  wp (PreConsumeUserSubscription env req userId amount) Q db.
Proof.
  intros Hacc Hroom Hreplay Hcharge HErr. unfold PreConsumeUserSubscription.
  wp_guard as Hu; [apply HErr|]. wp_guard as Hr; [apply HErr|]. wp_guard as Ha; [apply HErr|].
  wp_step. wp_step. wp_step. destruct (pre_consume_of req db) as [existing|] eqn:Hpre.
  - wp_guard as Hst; [apply HErr|]. apply wp_replay; [done|eauto|apply HErr].
  - wp_guard as _; [apply HErr|]. apply wp_candidates; auto.
    + destruct Hroom. lia.
    + apply (candidates_ok_query db userId); [done|done|]. by intros s (? & _).
Qed.

(** ** Post-consume, cleanup and the reset task *)

Definition plain (db : DB) (id : Z) : Prop :=
  ∀ s, s ∈ rows (user_subscriptions db) → us_Id s = id → ¬ package (subscription_plans db) s.

Lemma wp_post_consume {B : PostBilled} env id delta db (Q : result () → DB → Prop) :
  Accounting db → plain db id ∨ id ∈ post_billed →
  (∀ s, by_id id (user_subscriptions db) = Some s → in_int64 (us_AmountUsed s + delta)) →
  (∀ db', Accounting db' → Q (Ok tt) db') → (∀ e, Q (Err e) db) →
  wp (PostConsumeUserSubscriptionDelta env id delta) Q db.
Proof.
  intros Hacc Hplain Hrange HOk HErr. unfold PostConsumeUserSubscriptionDelta, postConsumeUserSubscriptionDeltaTx.
  wp_step. wp_guard as Hid; [apply HErr|]. wp_step; [wp_step; by apply HOk|].
  wp_step. wp_step. wp_step. apply wp_or_error; [|intros; apply HErr]. intros s Hby.
  specialize (Hrange s Hby). apply by_id_Some in Hby as [Hs Hsid].
  pose proof (sub_of db s Hacc Hs) as [He _ Hfits Htot _ Heps].
  replace (us_AmountUsed s +! delta) with (us_AmountUsed s + delta) by (unwrap; done).
  wp_guard as Hcap; [apply HErr|]. unfold save_subscription. wp_steps. apply HOk.
  apply (accounting_save _ _ _ _ s); [exact Hacc|done|by split|].
  split; cbn; [done| | |done|lia|exact Heps].
  - intros Hpk Hb. destruct Hplain as [Hplain|?]; [by destruct (Hplain s Hs Hsid)|by rewrite <-Hsid in *].
  - unfold in_int64 in Hrange. case_decide; lia.
Qed.

Lemma cleanup_accounting {B : PostBilled} plans subs usage pre (P : SubscriptionPreConsumeRecord → Prop) `{∀ p, Decision (P p)} :
  accounting plans subs usage pre → accounting plans subs usage (delete_where P pre).
Proof.
  intros [Hs Hu [Hwf Hun Ham] Hsub Hreq Hui Hpi].
  assert (Hin : ∀ p, p ∈ rows (delete_where P pre) → p ∈ rows pre) by (by intros p [_ ?]%list_elem_of_filter).
  split; try done; [|by apply Forall_filter_keep..].
  split; [by apply wf_delete_where|auto|by apply Forall_filter_keep].
Qed.

(** Subscriptions keep their plans. *)
Definition plan_stable (db db' : DB) : Prop :=
  subscription_plans db' = subscription_plans db ∧
  ∀ y', y' ∈ rows (user_subscriptions db') →
    ∃ y, y ∈ rows (user_subscriptions db) ∧ us_Id y = us_Id y' ∧ us_PlanId y = us_PlanId y'.

Lemma plan_stable_save db db' s s' :
  s ∈ rows (user_subscriptions db) → same_sub s s' → subscription_plans db' = subscription_plans db →
  user_subscriptions db' = save s' (user_subscriptions db) → plan_stable db db'.
Proof.
  intros Hs [Hid Hpl _] Hplans Hsubs. split; [done|]. rewrite Hsubs.
  intros y' [[Hy _]| ->]%elem_of_save; eauto.
Qed.

Lemma advanced_stable db db' s s' :
  s ∈ rows (user_subscriptions db) → advanced db db' s s' → plan_stable db db'.
Proof.
  intros Hs [[Hp _ _] _ _ _ _ _ _ Hsame [[-> ->]|(_ & _ & Hsubs)]].
  - split; [done|eauto].
  - by apply (plan_stable_save db db' s s').
Qed.

Lemma reset_stable db db' s s' :
  s ∈ rows (user_subscriptions db) → reset_done db db' s s' → plan_stable db db'.
Proof. intros Hs ([Hp _ _] & Hsame & _ & _ & _ & _ & Hsubs). by apply (plan_stable_save db db' s s'). Qed.

Lemma plan_stable_refl db : plan_stable db db.
Proof. split; eauto. Qed.

Definition plan_known (db : DB) (x : UserSubscription) : Prop :=
  ∀ y, y ∈ rows (user_subscriptions db) → us_Id y = us_Id x → us_PlanId y = us_PlanId x.

Lemma plan_known_stable db db' x : plan_stable db db' → plan_known db x → plan_known db' x.
Proof.
  intros [_ Hst] Hk y' Hy' Hid. destruct (Hst y' Hy') as (y & Hy & Hyid & <-). apply Hk; congruence.
Qed.

Lemma wp_reset_due_one {B : PostBilled} env now plan x (Q : result bool → DB → Prop) db :
  Accounting db → plan_known db x →
  plan_of (subscription_plans db) (us_PlanId x) = Some (normalizeValuePackagePlan plan) →
  (∀ b db', Accounting db' → plan_stable db db' → Q (Ok b) db') → (∀ e, Q (Err e) db) →
  wp (reset_due_one env now plan (us_Id x)) Q db.
Proof.
  intros Hacc Hk Hplan HOk HErr. unfold reset_due_one. wp_step. wp_step.
  destruct (first _ _) as [s|] eqn:Hf; [|wp_step; auto using plan_stable_refl].
  apply first_Some in Hf as (Hs & Hid & _). wp_step.
  destruct (IsValuePackage _) eqn:Hv.
  - apply wp_advance; [done|done| |done]. intros s' db' Hacc' _ Hadv. wp_step.
    by apply HOk; [|apply (advanced_stable db db' s s')].
  - apply wp_reset; [done|done| | |done].
    + intros (p & Hp & Hpv). rewrite (Hk s Hs Hid), Hplan in Hp. injection Hp as <-. congruence.
    + intros s' db' Hacc' _ Hd. wp_step. by apply HOk; [|apply (reset_stable db db' s s')].
Qed.

Lemma wp_reset_due_loop {B : PostBilled} env now subs count db :
  Accounting db → Forall (plan_known db) subs →
  wp (reset_due_loop env now subs count) (λ _ db', Accounting db') db.
Proof.
  revert count db. induction subs as [|x subs IH]; intros count db Hacc Hk; cbn [reset_due_loop]; [by wp_step|].
  apply Forall_cons in Hk as [Hx Hk]. wp_step. wp_step.
  apply wp_get_plan; [|intros; by apply IH]. intros plan Hplan. wp_step. wp_step. wp_step.
  apply wp_reset_due_one; [done|done|done| |done].
  intros b db' Hacc' Hst. apply IH; [done|].
  eapply Forall_impl; [exact Hk|]. intros y. by apply plan_known_stable.
Qed.

Lemma wp_reset_due {B : PostBilled} env limit db :
  Accounting db → wp (ResetDueSubscriptions env limit) (λ _ db', Accounting db') db.
Proof.
  intros Hacc. unfold ResetDueSubscriptions. wp_step. wp_step. apply wp_reset_due_loop; [done|].
  apply Forall_take, Forall_forall. intros x Hx. unfold order_by in Hx. rewrite merge_sort_Permutation in Hx.
  apply where_elem in Hx as [_ Hx]. intros y Hy Hid. f_equal.
  by apply (wf_row_eq (user_subscriptions db)); [apply Hacc|..].
Qed.
