(* ===== verification/Limits.v ===== *)
(** * Limits and round trips of value package requests

    What a client of the charging operations can rely on: a successful
    pre-consume leaves the package within its total and its window limits, a
    request is charged once however often it is retried, a reservation leaves
    exactly its target on the books, a refund gives back exactly what the request
    had, once. *)
From S2P Require Import Prelude Tables GoFloat GoTime Schema Plans Windows Cycles Consume Accounting Ledger.

(** ** The query of a window after a charge *)

Global Instance by_created_total : Total by_created.
Proof. intros r1 r2. unfold by_created. lia. Qed.
Global Instance by_created_trans : Transitive by_created.
Proof. intros r1 r2 r3. unfold by_created. lia. Qed.

Lemma order_by_created_snoc (l : list ValuePackageUsageRecord) x :
  (∀ y, y ∈ l → by_created y x ∧ ¬ by_created x y) →
  (∀ y1 y2, y1 ∈ l → y2 ∈ l → vu_Id y1 = vu_Id y2 → y1 = y2) →
  order_by by_created (l ++ [x]) = order_by by_created l ++ [x].
Proof.
  intros Hlast Hid. unfold order_by.
  pose proof (merge_sort_Permutation by_created l) as Hp.
  apply (StronglySorted_unique_strong by_created).
  - intros y1 y2. rewrite Hp, merge_sort_Permutation, !elem_of_app, !list_elem_of_singleton.
    intros [H1| ->] [H2| ->] H12 H21.
    + apply Hid; [done..|]. unfold by_created in *. lia.
    + by destruct (Hlast y1 H1).
    + by destruct (Hlast y2 H2).
    + done.
  - apply StronglySorted_merge_sort; apply _.
  - apply StronglySorted_app_2; [|apply StronglySorted_merge_sort; apply _|repeat constructor].
    intros y1 y2. rewrite Hp, list_elem_of_singleton. intros Hy ->. by apply Hlast.
  - by rewrite Hp, merge_sort_Permutation.
Qed.

Lemma window_records_sorted db userId id s now :
  StronglySorted by_time (window_records db userId id s now).
Proof.
  unfold window_records, order_by.
  pose proof (StronglySorted_merge_sort by_created (where_ (λ r, vu_UserId r = userId ∧
    vu_UserSubscriptionId r = id ∧ vu_QuotaEpoch r = us_QuotaEpoch s ∧
    vu_CreatedAt r >= window_lower_bound s now ∧ vu_CreatedAt r ≤ now ∧ vu_Quota r > 0)
    (usage_records db))) as Hs.
  induction Hs as [|r l _ IH Hr]; constructor; [done|].
  eapply Forall_impl; [exact Hr|]. intros x. unfold by_created, by_time. lia.
Qed.

(** The query's records are among those that count for the package. *)
Lemma window_total_charged db userId id s now :
  us_Id s = id → usage_ok (usage_records db) →
  epoch_total s now (window_records db userId id s now) ≤ charged (usage_records db) id (us_QuotaEpoch s).
Proof.
  intros <- Hok. unfold epoch_total, charged, window_records, order_by.
  rewrite (sumZ_permutation _ _ _ (filter_Permutation _ _ _ (merge_sort_Permutation _ _))).
  unfold where_. rewrite list_filter_filter, !sumZ_filter. apply sumZ_mono.
  eapply Forall_impl; [exact (uo_quota _ Hok)|]. intros r Hr. cbn in Hr.
  case_decide as H1; [|case_decide; lia].
  rewrite decide_True; [lia|]. unfold in_epoch. naive_solver.
Qed.

Lemma window_records_charge db db' s now record :
  usage_ok (usage_records db) → usage_records db' = insert_row record (usage_records db) →
  in_force s now → vu_UserId record = us_UserId s → vu_UserSubscriptionId record = us_Id s →
  vu_QuotaEpoch record = us_QuotaEpoch s → vu_CreatedAt record = now → 0 < vu_Quota record →
  window_records db' (us_UserId s) (us_Id s) s now =
  window_records db (us_UserId s) (us_Id s) s now ++ [inserted record (usage_records db)].
Proof.
  intros Hok Hus Hf Hru Hri Hre Hrc Hrq. unfold window_records. rewrite Hus.
  unfold where_, insert_row. cbn [rows].
  rewrite filter_app, (filter_cons _ (inserted _ _)), filter_nil. rewrite decide_True.
  2:{ unfold window_lower_bound. rewrite (in_force_anchor s now Hf). destruct Hf as [Hs _ _].
      cbn. split_and!; [done..| |lia|lia]. rewrite decide_False by lia. lia. }
  apply order_by_created_snoc.
  - intros y [Hy Hin]%list_elem_of_filter. pose proof (wf_elem _ _ (uo_wf _ Hok) Hin).
    unfold by_created. cbn in *. lia.
  - intros y1 y2 [_ H1]%list_elem_of_filter [_ H2]%list_elem_of_filter Hid.
    by apply (wf_row_eq (usage_records db)); [apply Hok|..].
Qed.

(** Both windows after a charge, as the database reports them. *)
Lemma package_details_charge db db' s plan now record used updated :
  usage_ok (usage_records db) → usage_records db' = insert_row record (usage_records db) →
  quota_resets db' = quota_resets db → in_force s now →
  vu_UserId record = us_UserId s → vu_UserSubscriptionId record = us_Id s →
  vu_QuotaEpoch record = us_QuotaEpoch s → vu_CreatedAt record = now → 0 < vu_Quota record →
  charged (usage_records db') (us_Id s) (us_QuotaEpoch s) ≤ max_int64 → usage_ok (usage_records db') →
  let s' := s <| us_AmountUsed := used |> <| us_UpdatedAt := updated |> in
  vd_Used5h (package_details db' now s' plan) = vd_Used5h (package_details db now s plan) + vu_Quota record ∧
  (valuePackageHas7dWindow plan = true →
   vd_Used7d (package_details db' now s' plan) = vd_Used7d (package_details db now s plan) + vu_Quota record).
Proof.
  intros Hok Hus Hqr Hf Hru Hri Hre Hrc Hrq Hmax Hok' s'.
  pose proof (window_records_charge db db' s now record Hok Hus Hf Hru Hri Hre Hrc Hrq) as Hw.
  change (package_details db' now s' plan) with (package_details db' now s plan).
  unfold package_details, last_reset. rewrite Hqr, Hw.
  assert (Hfit : epoch_total s now (window_records db (us_UserId s) (us_Id s) s now ++
    [inserted record (usage_records db)]) ≤ max_int64).
  { rewrite <-Hw. etransitivity; [|exact Hmax]. by apply window_total_charged. }
  change (vu_Quota record) with (vu_Quota (inserted record (usage_records db))).
  split; [apply details_charge5h|intros; apply details_charge7d]; try done; apply window_records_sorted.
Qed.

(** ** A successful pre-consume *)

(** The package as a client sees it: its row, its plan, its window usage. *)
Record package_within_limits (db : DB) (id now : Z) : Prop := {
  pw_total : ∀ s plan, s ∈ rows (user_subscriptions db) → us_Id s = id →
    plan_of (subscription_plans db) (us_PlanId s) = Some plan →
    0 < us_AmountTotal s → us_AmountUsed s ≤ us_AmountTotal s;
  pw_windows : ∀ s plan, s ∈ rows (user_subscriptions db) → us_Id s = id →
    plan_of (subscription_plans db) (us_PlanId s) = Some plan →
    limits_hold plan (vd_Used5h (package_details db now s plan)) (vd_Used7d (package_details db now s plan));
}.

(** The clock of a package: it has started and the times stay in range. *)
Definition started (db : DB) (id now : Z) : Prop :=
  now + valuePackage7dWindowSeconds ≤ max_int64 ∧
  ∀ s, s ∈ rows (user_subscriptions db) → us_Id s = id → 0 < us_StartTime s ≤ now.

Lemma charge_in_force env db mid db' req userId id amount s0 s plan r :
  package_charge env db mid db' req userId id amount s0 s plan r → started db id (db_now env) →
  in_force s (db_now env).
Proof.
  intros [_ Hl0 Hl Hadv _ _ _ _ _ _ _ _ _ _ _ _] [Hclock Hst]. split; [|right; by apply Z.gt_lt, Hl|done].
  rewrite (ad_start _ _ _ _ Hadv). apply Hst; apply Hl0.
Qed.

(** The row that was charged is the row of the package. *)
Lemma charge_row env db mid db' req userId id amount s0 s plan r x :
  package_charge env db mid db' req userId id amount s0 s plan r →
  x ∈ rows (user_subscriptions db') → us_Id x = id →
  x = s <| us_AmountUsed := us_AmountUsed s + amount |> <| us_UpdatedAt := app_now env |>.
Proof.
  intros Hc Hx Hid. rewrite (ch_subs _ _ _ _ _ _ _ _ _ _ _ _ Hc) in Hx.
  apply elem_of_save in Hx as [[_ Hne]|?]; [|done]. destruct Hne. cbn. rewrite Hid. symmetry. by apply Hc.
Qed.

Lemma charge_within_limits env db mid db' req userId id amount s0 s plan r :
  package_charge env db mid db' req userId id amount s0 s plan r → Accounting db →
  usage_of id req db = None → started db id (db_now env) → 0 < db_now env →
  package_within_limits db' id (db_now env).
Proof.
  intros Hc Hacc Hfresh Hst Hnow. pose proof (charge_accounting _ _ _ _ _ _ _ _ _ _ _ _ Hc Hfresh) as Hacc'.
  pose proof (charge_in_force _ _ _ _ _ _ _ _ _ _ _ _ Hc Hst) as Hf.
  pose proof Hc as [Hacc1 Hl0 Hl Hadv Ha Hfit Htot Hlim _ Hus _ _ _ Hpl Hqr _].
  pose proof (ad_requests _ _ _ _ Hadv) as [Hsp Hsu Hsr].
  split; intros x p Hx Hid Hp; rewrite (charge_row _ _ _ _ _ _ _ _ _ _ _ _ x Hc Hx Hid) in *; [exact Htot|].
  cbn [us_PlanId] in Hp. change (plan_of (subscription_plans db') (us_PlanId s) = Some p) in Hp.
  rewrite Hpl, <-Hsp, (lk_plan _ _ _ _ _ _ Hl) in Hp. injection Hp as <-.
  set (record := usage_record_of s plan userId req amount (us_QuotaEpoch s) (db_now env)) in *.
  assert (Hins : usage_records db' = insert_row record (usage_records mid)).
  { rewrite Hus, Hsu. unfold upsert_usage. cbn -[insert_row].
    unfold usage_of in Hfresh. rewrite (lk_id _ _ _ _ _ _ Hl), Hfresh. by rewrite decide_False by lia. }
  pose proof (package_details_charge mid db' s plan (db_now env) record
    (us_AmountUsed s + amount) (app_now env)) as Hd.
  destruct Hd as [H5 H7]; try done; [apply Hacc1|symmetry; apply Hl| |apply Hacc'|].
  { rewrite Hins, charged_insert. pose proof (locked_exact _ _ _ _ _ _ Hacc1 Hl) as Hu.
    rewrite (lk_id _ _ _ _ _ _ Hl), <-Hu. cbn. case_decide; lia. }
  pose proof (locked_exact _ _ _ _ _ _ Hacc1 Hl) as Hu. destruct (locked_used _ _ _ _ _ _ Hacc1 Hl) as [_ Hrange].
  pose proof (window_total_charged mid (us_UserId s) (us_Id s) s (db_now env) eq_refl (ac_usage _ _ _ _ Hacc1)) as Hle.
  rewrite (lk_id _ _ _ _ _ _ Hl), <-Hu in Hle.
  destruct (details_used_bounds s plan (window_records mid (us_UserId s) id s (db_now env))
    (last_reset mid (us_UserId s) id (db_now env)) (db_now env)) as [Hb5 Hb7];
    [apply window_records_sorted|done|lia|].
  specialize (Hlim Hnow) as [Hl5 Hl7]. unfold package_details in *. rewrite (lk_id _ _ _ _ _ _ Hl) in *.
  cbn [vu_Quota record usage_record_of] in H5, H7. split; intros Hon.
  - etransitivity; [apply Z.eq_le_incl, H5|]. specialize (Hl5 Hon). by rewrite wrap64_id in Hl5 by (unfold in_int64; lia).
  - etransitivity; [apply Z.eq_le_incl, (H7 Hon)|]. specialize (Hl7 Hon). specialize (Hb7 Hon).
    by rewrite wrap64_id in Hl7 by (unfold in_int64; lia).
Qed.

Lemma charge_quota env db mid db' req userId id amount s0 s plan r :
  package_charge env db mid db' req userId id amount s0 s plan r → Accounting db → amount ≤ max_int64 →
  quota_of (usage_records db') id req = amount.
Proof.
  intros Hc Hacc Hmax. rewrite (ch_usage _ _ _ _ _ _ _ _ _ _ _ _ Hc).
  pose proof (lk_id _ _ _ _ _ _ (ch_locked _ _ _ _ _ _ _ _ _ _ _ _ Hc)) as Hid.
  rewrite <-Hid at 1. apply (first_upsert env (usage_record_of s plan userId req amount _ _)); [apply Hacc|].
  cbn. pose proof (ch_amount _ _ _ _ _ _ _ _ _ _ _ _ Hc). lia.
Qed.

Lemma preconsume_charge env req userId id amount db db' r :
  Accounting db → room db id amount → pre_consume_of req db = None →
  PreConsumeValuePackageSubscription env req userId id amount db = (Ok r, db') →
  ∃ mid s0 s plan, package_charge env db mid db' req userId id amount s0 s plan r.
Proof.
  intros Hacc Hroom Hnone Hrun.
  refine (wp_run _ (λ r' d, ∀ r, r' = Ok r → ∃ mid s0 s plan,
    package_charge env db mid d req userId id amount s0 s plan r) _ _ _ _ Hrun r eq_refl).
  apply wp_preconsume_package; [done|done| | |done].
  - intros ? ? Hpre _. congruence.
  - intros r' mid d s0 s plan Hc ? [= <-]. eauto 6.
Qed.

(** C3: a request that a value package accepts is charged in full, and leaves
    the package within its total, its five-hour and its seven-day limit as the
    database reports them afterwards. *)
Theorem preconsume_within_limits env req userId id amount db db' r :
  Accounting db → room db id amount → started db id (db_now env) → 0 < db_now env →
  pre_consume_of req db = None → usage_of id req db = None →
  PreConsumeValuePackageSubscription env req userId id amount db = (Ok r, db') →
  charge_result amount r ∧ package_within_limits db' id (db_now env) ∧ Accounting db' ∧
  quota_of (usage_records db') id req = amount.
Proof.
  intros Hacc Hroom Hst Hnow Hnone Hfresh Hrun.
  destruct (preconsume_charge _ _ _ _ _ _ _ _ Hacc Hroom Hnone Hrun) as (mid & s0 & s & plan & Hc).
  split_and!.
  - rewrite (ch_result _ _ _ _ _ _ _ _ _ _ _ _ Hc). split_and!; [done..|apply Hc].
  - by eapply charge_within_limits.
  - by eapply charge_accounting.
  - apply (charge_quota _ _ _ _ _ _ _ _ _ _ _ _ Hc Hacc), Hroom.
Qed.

(** A retried request is answered from its record: it is not charged again,
    whatever the time and the amount of the retry. *)
Theorem preconsume_retry env env' req userId id amount amount' db db' r :
  Accounting db → room db id amount → pre_consume_of req db = None → 0 < amount' →
  PreConsumeValuePackageSubscription env req userId id amount db = (Ok r, db') →
  ∃ r', PreConsumeValuePackageSubscription env' req userId id amount' db' = (Ok r', db') ∧
    pr_PreConsumed r' = amount ∧ pr_UserSubscriptionId r' = id ∧ pr_QuotaEpoch r' = pr_QuotaEpoch r.
Proof.
  intros Hacc Hroom Hnone Ha' Hrun.
  destruct (preconsume_charge _ _ _ _ _ _ _ _ Hacc Hroom Hnone Hrun) as (mid & s0 & s & plan & Hc).
  pose proof Hc as [Hacc1 Hl0 Hl Hadv Ha _ _ _ Hr _ _ Hpre Hsubs _ _ (Hu & Hi & Hq)].
  set (p := inserted (mkPre 0 req userId id amount (us_QuotaEpoch s) "consumed" (app_now env) (app_now env))
              (pre_consume_records db)).
  assert (Hp : pre_consume_of req db' = Some p).
  { unfold pre_consume_of, first. rewrite Hpre. cbn [rows insert_row].
    rewrite filter_app, filter_none; [by rewrite filter_cons, decide_True|].
    intros x Hx. by apply (first_None _ _ x Hnone Hx). }
  set (s' := s <| us_AmountUsed := us_AmountUsed s + amount |> <| us_UpdatedAt := app_now env |>).
  assert (Hs' : by_id id (user_subscriptions db') = Some s').
  { rewrite Hsubs, <-(lk_id _ _ _ _ _ _ Hl). fold s'. change (us_Id s) with (row_id s').
    apply (by_id_save_eq s' s). change (row_id s') with (row_id s).
    apply by_id_elem; [apply Hacc1|apply Hl]. }
  exists (mkResult id amount (us_AmountTotal s) (us_AmountUsed s') (us_AmountUsed s') (us_QuotaEpoch s)).
  split; [|by rewrite Hr].
  unfold PreConsumeValuePackageSubscription.
  do 4 (eapply run_bind; [apply fail_if_pass; first [done|lia]|]).
  apply run_transaction. eapply run_bind; [done|]. cbn beta. rewrite Hp.
  do 2 (eapply run_bind; [apply fail_if_pass; first [done|by intros [?|?]]|]).
  unfold replay_result. eapply run_bind; [done|]. cbn beta.
  eapply run_bind; [apply run_or_error, Hs'|]. cbn. by rewrite (lk_id _ _ _ _ _ _ Hl).
Qed.

(** ** Reservations *)

Lemma reserve_effect env req userId id target db db' r :
  Accounting db → room db id target →
  ReserveValuePackageUsageToTarget env req userId id target db = (Ok r, db') →
  ∃ mid s0 s plan ep, package_reserve env db mid db' req userId id target s0 s plan ep r.
Proof.
  intros Hacc Hroom Hrun.
  refine (wp_run _ (λ r' d, ∀ r, r' = Ok r → ∃ mid s0 s plan ep,
    package_reserve env db mid d req userId id target s0 s plan ep r) _ _ _ _ Hrun r eq_refl).
  apply wp_reserve; [done|done| |done].
  intros r' mid d s0 s plan ep Hv ? [= <-]. eauto 7.
Qed.

Lemma reserve_usage env db mid db' req userId id target s0 s plan ep r :
  package_reserve env db mid db' req userId id target s0 s plan ep r → target ≤ max_int64 →
  booked (usage_records mid) (usage_records db') id req ep target.
Proof.
  intros [Hacc _ Hl Hadv Ht Hep Hmatch Hafter _] Hmax.
  assert (Hup : booked (usage_records mid) (upsert_usage env
    (usage_record_of s plan userId req target ep (db_now env)) (usage_records mid)) id req ep target).
  { rewrite <-(lk_id _ _ _ _ _ _ Hl) at 1.
    apply (upsert_booked env (usage_record_of s plan userId req target ep (db_now env))); [cbn; lia|apply Hacc|].
    rewrite Hep. unfold request_epoch, usage_of. cbn. rewrite (lk_id _ _ _ _ _ _ Hl).
    by destruct (first _ _). }
  destruct Hafter as [[Heq ->]|[(_ & _ & ->)|(_ & _ & _ & _ & ->)]]; [|done|done].
  cbn in Heq. rewrite Heq. apply booked_refl, Hacc.
Qed.

(** C22: a reservation books exactly its target: the request is recorded with the
    target in place of what it had, in the epoch it started in, no other request
    is touched, and the amount used follows (the books stay balanced). *)
Theorem reserve_books_target env req userId id target db db' r :
  Accounting db → room db id target →
  (∀ p, pre_consume_of req db = Some p → pc_Status p ≠ "refunded") →
  ReserveValuePackageUsageToTarget env req userId id target db = (Ok r, db') →
  Accounting db' ∧ pr_PreConsumed r = target ∧
  booked (usage_records db) (usage_records db') id req (pr_QuotaEpoch r) target.
Proof.
  intros Hacc Hroom Hns Hrun.
  destruct (reserve_effect _ _ _ _ _ _ _ _ Hacc Hroom Hrun) as (mid & s0 & s & plan & ep & Hv).
  pose proof (proj1 Hroom) as Hmax. split; [by eapply reserve_accounting|].
  destruct (rv_result _ _ _ _ _ _ _ _ _ _ _ _ _ Hv) as (-> & -> & _). split; [done|].
  pose proof (ad_requests _ _ _ _ (rv_advanced _ _ _ _ _ _ _ _ _ _ _ _ _ Hv)) as [_ <- _].
  by eapply reserve_usage.
Qed.

(** ** Refunds *)

Lemma refund_again env req db p :
  Accounting db → pre_consume_of req db = Some p → pc_Status p = "refunded" → TrimSpace req ≠ "" →
  RefundSubscriptionPreConsume env req db = (Ok tt, db).
Proof.
  intros Hacc Hpre Hst Hreq. unfold RefundSubscriptionPreConsume.
  eapply run_bind; [by apply fail_if_pass|]. apply run_transaction. eapply run_bind; [done|]. cbn beta.
  eapply run_bind; [by apply run_or_error|]. cbn beta. rewrite decide_True by done.
  unfold revokeValuePackageUsageReservationTx. case_decide; [done|]. unfold modify. f_equal.
  apply usage_update_id. apply first_Some in Hpre as [Hp _].
  pose proof (ac_request _ _ _ _ Hacc) as Hr. rewrite Forall_forall in Hr.
  apply revoked_settled, (ro_refunded _ _ _ _ (Hr p Hp) Hst).
Qed.

Lemma refund_effect env req db db' :
  Accounting db → RefundSubscriptionPreConsume env req db = (Ok tt, db') →
  TrimSpace req ≠ "" ∧ ∃ p, pre_consume_of req db = Some p ∧
    ((pc_Status p = "refunded" ∧ db' = db) ∨ (∃ s s' plan, refund_done env db db' p s s' plan)).
Proof.
  intros Hacc Hrun. split.
  { intros He. unfold RefundSubscriptionPreConsume, fail_if in Hrun. by rewrite decide_True in Hrun. }
  refine (wp_run _ (λ r d, r = Ok tt → ∃ p, pre_consume_of req db = Some p ∧
    ((pc_Status p = "refunded" ∧ d = db) ∨ (∃ s s' plan, refund_done env db d p s s' plan))) _ _ _ _ Hrun eq_refl).
  apply wp_refund; [done|eauto| |done].
  intros p s s' plan d <- Hd _. exists p. split; [apply Hd|eauto].
Qed.

Lemma refund_marks env db db' p s s' plan :
  Accounting db → refund_done env db db' p s s' plan →
  ∃ p', pre_consume_of (pc_RequestId p) db' = Some p' ∧ pc_Status p' = "refunded".
Proof.
  intros Hacc Hd. pose proof (refund_accounting _ _ _ _ _ _ _ Hacc Hd) as Hacc'.
  destruct (first_Some _ _ _ (rf_pre _ _ _ _ _ _ _ Hd)) as [Hp _].
  set (p' := p <| pc_Status := "refunded" |> <| pc_UpdatedAt := app_now env |>).
  assert (Hp' : p' ∈ rows (pre_consume_records db')).
  { rewrite (rf_db _ _ _ _ _ _ _ Hd). by apply (elem_of_save_new _ p). }
  exists p'. split; [|done].
  destruct (pre_consume_of (pc_RequestId p) db') as [x|] eqn:Hx.
  - apply first_Some in Hx as [Hx Hxr]. f_equal. by apply (po_unique _ (ac_pre _ _ _ _ Hacc')).
  - by destruct (first_None _ _ p' Hx Hp').
Qed.

(** Refunding is idempotent: a second refund of a request, by whichever
    worker and at whatever time, changes nothing. *)
Theorem refund_idempotent env env' req db db' :
  Accounting db → RefundSubscriptionPreConsume env req db = (Ok tt, db') →
  RefundSubscriptionPreConsume env' req db' = (Ok tt, db').
Proof.
  intros Hacc Hrun. destruct (refund_effect _ _ _ _ Hacc Hrun) as (Hreq & p & Hp & [[Hst ->]|(s & s' & plan & Hd)]).
  - by eapply refund_again.
  - destruct (refund_marks _ _ _ _ _ _ _ Hacc Hd) as (p' & Hp' & Hst).
    pose proof (first_Some _ _ _ Hp) as [_ <-].
    eapply refund_again; [by eapply refund_accounting|done|done|done].
Qed.

Lemma charge_pre env db mid db' req userId id amount s0 s plan r :
  package_charge env db mid db' req userId id amount s0 s plan r →
  ∃ p, pre_consume_of req db' = Some p ∧ pc_Status p = "consumed" ∧ pc_UserSubscriptionId p = id ∧
    pc_RequestId p = req ∧ pc_QuotaEpoch p = us_QuotaEpoch s.
Proof.
  intros Hc. pose proof (ch_none _ _ _ _ _ _ _ _ _ _ _ _ Hc) as Hnone.
  eexists. unfold pre_consume_of, first. rewrite (ch_pre _ _ _ _ _ _ _ _ _ _ _ _ Hc). cbn [rows insert_row].
  rewrite filter_app, filter_none; [rewrite filter_cons, decide_True by done; cbn; by split_and!|].
  intros x Hx. by apply (first_None _ _ x Hnone Hx).
Qed.

Lemma quota_of_revoked usage id req : usage_ok usage → quota_of (revoked id req usage) id req = 0.
Proof.
  intros Hok. unfold quota_of. destruct (first _ (revoked id req usage)) as [r|] eqn:Hr; [|done].
  apply first_Some in Hr as [Hr [Hid Hreq]]. cbn.
  assert (Hbook : booked usage (revoked id req usage) id req
    (from_option vu_QuotaEpoch 0 (first (same_usage id req) usage)) 0)
    by (apply revoke_booked; [done|by intros ? ->]).
  destruct (bk_quota _ _ _ _ _ _ Hbook r Hr) as [[_ ?]|[_ Hne]]; [done|].
  destruct Hne. unfold usage_key. congruence.
Qed.

(** The refund of a request that was just charged. *)
Lemma charge_refund env env' db mid db1 db2 req userId id amount s0 s plan r p x x' planx :
  package_charge env db mid db1 req userId id amount s0 s plan r → Accounting db → amount ≤ max_int64 →
  pre_consume_of req db1 = Some p → refund_done env' db1 db2 p x x' planx →
  pc_RequestId p = req ∧ us_Id x = id ∧ us_Id x' = id ∧ us_AmountUsed x' = us_AmountUsed s.
Proof.
  intros Hc Hacc Hmax Hp Hd.
  destruct (charge_pre _ _ _ _ _ _ _ _ _ _ _ _ Hc) as (p0 & Hp0 & _ & Hsub & Hreq & Hep).
  rewrite Hp0 in Hp. injection Hp as ->.
  destruct (rf_same _ _ _ _ _ _ _ Hd) as ([Hxid _ _] & _).
  pose proof (by_id_Some _ _ _ (rf_sub _ _ _ _ _ _ _ Hd)) as [Hx Hid]. cbn in Hid. rewrite Hsub in Hid.
  split_and!; [done..|congruence|].
  pose proof (charge_row _ _ _ _ _ _ _ _ _ _ _ _ x Hc Hx Hid) as Hxs.
  pose proof (ch_locked _ _ _ _ _ _ _ _ _ _ _ _ Hc) as Hl.
  pose proof (ad_requests _ _ _ _ (ch_advanced _ _ _ _ _ _ _ _ _ _ _ _ Hc)) as [Hsp _ _].
  pose proof (rf_plan _ _ _ _ _ _ _ Hd) as Hpx. pose proof (lk_plan _ _ _ _ _ _ Hl) as Hps.
  rewrite Hxs, (ch_plans _ _ _ _ _ _ _ _ _ _ _ _ Hc) in Hpx. rewrite Hsp in Hps. cbn in Hpx.
  assert (planx = plan) as -> by congruence.
  rewrite (rf_used _ _ _ _ _ _ _ Hd). unfold refunded_used.
  rewrite (lk_package _ _ _ _ _ _ Hl), Hid, Hreq, (charge_quota _ _ _ _ _ _ _ _ _ _ _ _ Hc Hacc Hmax).
  pose proof (locked_used _ _ _ _ _ _ (ch_acc _ _ _ _ _ _ _ _ _ _ _ _ Hc) Hl) as [_ Hrange].
  rewrite Hep, Hxs, decide_True by done. cbn. lia.
Qed.

(** C31: a request that is pre-consumed and then refunded leaves the amount used
    of the package as it found it, and nothing booked. *)
Theorem preconsume_refund_roundtrip env env' req userId id amount db db1 db2 r :
  Accounting db → room db id amount → pre_consume_of req db = None → usage_of id req db = None →
  PreConsumeValuePackageSubscription env req userId id amount db = (Ok r, db1) →
  RefundSubscriptionPreConsume env' req db1 = (Ok tt, db2) →
  (∀ s2, s2 ∈ rows (user_subscriptions db2) → us_Id s2 = id → us_AmountUsed s2 = pr_AmountUsedBefore r) ∧
  quota_of (usage_records db2) id req = 0 ∧ Accounting db2.
Proof.
  intros Hacc Hroom Hnone Hfresh Hpre Hrefund.
  destruct (preconsume_charge _ _ _ _ _ _ _ _ Hacc Hroom Hnone Hpre) as (mid & s0 & s & plan & Hc).
  pose proof (charge_accounting _ _ _ _ _ _ _ _ _ _ _ _ Hc Hfresh) as Hacc1.
  destruct (charge_pre _ _ _ _ _ _ _ _ _ _ _ _ Hc) as (p0 & Hp0 & Hst0 & Hsub0 & Hreq0 & Hep0).
  destruct (refund_effect _ _ _ _ Hacc1 Hrefund) as (_ & p & Hp & Hcase).
  rewrite Hp0 in Hp. injection Hp as <-.
  destruct Hcase as [[Hst _]|(x & x' & planx & Hd)]; [congruence|].
  destruct (charge_refund _ _ _ _ _ _ _ _ _ _ _ _ _ _ _ _ _ _ Hc Hacc (proj1 Hroom) Hp0 Hd)
    as (Hreq & Hid & Hid' & Hused).
  split_and!; [| |by eapply refund_accounting]; rewrite (rf_db _ _ _ _ _ _ _ Hd).
  - intros s2 [[_ Hne]| ->]%elem_of_save Hs2; [congruence|].
    by rewrite Hused, (ch_result _ _ _ _ _ _ _ _ _ _ _ _ Hc).
  - rewrite <-Hid, <-Hreq. apply quota_of_revoked, Hacc1.
Qed.

(** ** Witnesses *)

Definition limits_env : Env := mkEnv 40000 40000 28800 (float_of_int 500000).

Definition charged_db : DB :=
  (PreConsumeValuePackageSubscription limits_env "r1" 1 1 50 example_db).2.

Definition refunded_db : DB := (RefundSubscriptionPreConsume limits_env "r1" charged_db).2.

Example preconsume_within_limits_witness :
  pre_consume_of "r1" example_db = None ∧
  package_within_limits charged_db 1 40000 ∧ quota_of (usage_records charged_db) 1 "r1" = 50.
Proof.
  split; [vm_compute; reflexivity|].
  destruct (preconsume_within_limits limits_env "r1" 1 1 50 example_db charged_db
              (mkResult 1 50 1000 0 50 0)) as (_ & H & _ & Hq); [| | | | | | |exact (conj H Hq)].
  - exact example_accounting.
  - by apply example_room.
  - split; [vm_compute; done|]. intros s [->|[]%not_elem_of_nil]%elem_of_cons _. cbn. lia.
  - reflexivity.
  - vm_compute. reflexivity.
  - vm_compute. reflexivity.
  - vm_compute. reflexivity.
Defined.

Example preconsume_retry_witness :
  ∃ r', PreConsumeValuePackageSubscription limits_env "r1" 1 1 70 charged_db = (Ok r', charged_db) ∧
    pr_PreConsumed r' = 50.
Proof.
  destruct (preconsume_retry limits_env limits_env "r1" 1 1 50 70 example_db charged_db
              (mkResult 1 50 1000 0 50 0)) as (r' & H & H' & _);
    [exact example_accounting|by apply example_room|vm_compute; reflexivity|reflexivity|vm_compute; reflexivity|].
  exact (ex_intro _ r' (conj H H')).
Defined.

Lemma charged_run :
  PreConsumeValuePackageSubscription limits_env "r1" 1 1 50 example_db = (Ok (mkResult 1 50 1000 0 50 0), charged_db).
Proof. vm_compute. reflexivity. Qed.

Lemma charged_accounting : Accounting charged_db.
Proof.
  destruct (preconsume_charge limits_env "r1" 1 1 50 example_db charged_db (mkResult 1 50 1000 0 50 0))
    as (mid & s0 & s & plan & Hc);
    [exact example_accounting|by apply example_room|vm_compute; reflexivity|exact charged_run|].
  apply (charge_accounting _ _ _ _ _ _ _ _ _ _ _ _ Hc). vm_compute. reflexivity.
Qed.

Lemma charged_subs : user_subscriptions charged_db =
  Table [example_sub <| us_AmountUsed := 50 |> <| us_UpdatedAt := 40000 |>] 2.
Proof. vm_compute. reflexivity. Qed.

Lemma charged_room : room charged_db 1 80.
Proof.
  split; [done|]. rewrite charged_subs. intros s Hs _ _.
  apply elem_of_cons in Hs as [->|[]%not_elem_of_nil]. cbn. lia.
Qed.

Definition reserved_db : DB := (ReserveValuePackageUsageToTarget limits_env "r1" 1 1 80 charged_db).2.

Example reserve_books_target_witness :
  booked (usage_records charged_db) (usage_records reserved_db) 1 "r1" 0 80.
Proof.
  destruct (reserve_books_target limits_env "r1" 1 1 80 charged_db reserved_db (mkResult 1 80 1000 50 80 0))
    as (_ & _ & Hb); [| | | |exact Hb].
  - exact charged_accounting.
  - exact charged_room.
  - vm_compute. intros p [= <-]. done.
  - vm_compute. reflexivity.
Defined.

Example refund_idempotent_witness :
  RefundSubscriptionPreConsume limits_env "r1" refunded_db = (Ok tt, refunded_db).
Proof.
  apply (refund_idempotent limits_env limits_env "r1" charged_db refunded_db).
  - exact charged_accounting.
  - vm_compute. reflexivity.
Defined.

Example preconsume_refund_roundtrip_witness :
  quota_of (usage_records refunded_db) 1 "r1" = 0 ∧ Accounting refunded_db.
Proof.
  destruct (preconsume_refund_roundtrip limits_env limits_env "r1" 1 1 50 example_db charged_db refunded_db
              (mkResult 1 50 1000 0 50 0)) as (_ & Hq); [| | | | | |exact Hq].
  - exact example_accounting.
  - by apply example_room.
  - vm_compute. reflexivity.
  - vm_compute. reflexivity.
  - exact charged_run.
  - vm_compute. reflexivity.
Defined.
