(* ===== verification/Preferences.v ===== *)
(** * Value package preferences and reset cards

    [model/subscription.go]: which package of a user pays for requests
    (activation, the state shown to the user and used by the relay) and the
    reset cards of a user (granted with purchases and redemptions, adjusted by
    administrators, spent to start a new quota epoch), every change of which is
    written to a ledger.  The effective billing ratio of the billing state is the
    constant 1 and is left out with the other display-only ratio. *)
From S2P Require Import Prelude Tables GoTime Schema Plans Windows Cycles.

(** ** Definitions *)

Definition AllowsWalletFallback (p : UserValuePackagePreference) : bool :=
  match vp_WalletFallbackEnabled p with
  | None => true
  | Some enabled => enabled
  end.

Definition is_not_found (e : error) : bool :=
  match e with
  | ErrRecordNotFound => true
  | ErrWrap _ ErrRecordNotFound => true
  | _ => false
  end.

Definition preference_of (userId : Z) (db : DB) : option UserValuePackagePreference :=
  first (λ p, vp_UserId p = userId) (value_package_preferences db).

(** [tx.Model(&UserValuePackagePreference{}).Where("user_id = ?").Updates(...)]:
    gorm also sets [updated_at]. *)
Definition update_preference (env : Env) (userId : Z)
    (f : UserValuePackagePreference → UserValuePackagePreference) : Tx () :=
  modify (λ d, d <| value_package_preferences ::=
    update_where (λ p, vp_UserId p = userId) (λ p, (f p) <| vp_UpdatedAt := app_now env |>) |>).

(** The columns an upsert of a preference assigns on a conflict. *)
Definition preference_assign (enabled : bool) (updateTime activeSubId : Z)
    (p : UserValuePackagePreference) : UserValuePackagePreference :=
  p <| vp_Enabled := enabled |> <| vp_UpdatedAt := updateTime |>
    <| vp_ActiveUserSubscriptionId :=
         if decide (activeSubId > 0 ∨ enabled = false) then activeSubId
         else vp_ActiveUserSubscriptionId p |>.

Definition upsertValuePackagePreferenceTx (env : Env) (userId : Z) (enabled : bool) (activeSubId : Z) :
    Tx UserValuePackagePreference :=
  let now := app_now env in
  let updateTime := if enabled then now else now +! 1 in
  db ← get;
  _ ← match preference_of userId db with
      | Some _ =>
        modify (λ d, d <| value_package_preferences ::=
          update_where (λ p, vp_UserId p = userId)
            (preference_assign enabled updateTime activeSubId) |>)
      | None =>
        _ ← create_preference env (mkPref 0 userId enabled None activeSubId 0 now updateTime);
        mret tt
      end;
  db ← get;
  or_error (preference_of userId db) ErrRecordNotFound.

Definition ensureExistingUserForUpdateTx (userId : Z) : Tx () :=
  _ ← fail_if (userId ≤ 0) (ErrNew "invalid user id");
  db ← get;
  _ ← or_error (by_id userId (users db)) (ErrNew "用户不存在");
  mret tt.

Definition ensureValuePackagePreferenceForUpdateTx (env : Env) (userId : Z) :
    Tx UserValuePackagePreference :=
  _ ← fail_if (userId ≤ 0) (ErrNew "invalid user id");
  db ← get;
  match preference_of userId db with
  | Some pref => mret pref
  | None => create_preference env (mkPref 0 userId false None 0 0 0 0)
  end.

(** [Order("end_time desc, id desc")]. *)
Definition by_end_time_desc (s1 s2 : UserSubscription) : Prop :=
  us_EndTime s1 > us_EndTime s2 ∨ (us_EndTime s1 = us_EndTime s2 ∧ us_Id s1 >= us_Id s2).
Global Instance by_end_time_desc_dec : RelDecision by_end_time_desc.
Proof. unfold by_end_time_desc. solve_decision. Defined.

(** The subscriptions of a list whose plans are value packages. *)
Fixpoint keep_packages (subs : list UserSubscription) : Tx (list UserSubscription) :=
  match subs with
  | [] => mret []
  | sub :: subs =>
    plan ← getSubscriptionPlanByIdTx (us_PlanId sub);
    out ← keep_packages subs;
    mret (if IsValuePackage (normalizeValuePackagePlan plan) then sub :: out else out)
  end.

Definition getActiveValuePackageSubscriptionsTx (userId now : Z) : Tx (list UserSubscription) :=
  db ← get;
  keep_packages (order_by by_end_time_desc
    (where_ (λ s, us_UserId s = userId ∧ us_Status s = UserSubscriptionStatusActive ∧ us_EndTime s > now)
       (user_subscriptions db))).

Fixpoint highest_package (subs : list UserSubscription)
    (best : option (UserSubscription * SubscriptionPlan)) :
    Tx (option (UserSubscription * SubscriptionPlan)) :=
  match subs with
  | [] => mret best
  | sub :: subs =>
    plan ← getSubscriptionPlanByIdTx (us_PlanId sub);
    let plan := normalizeValuePackagePlan plan in
    let better :=
      match best with
      | None => true
      | Some (bestSub, bestPlan) =>
        bool_decide (sp_PackageLevel plan > sp_PackageLevel bestPlan ∨
          (sp_PackageLevel plan = sp_PackageLevel bestPlan ∧ us_EndTime sub > us_EndTime bestSub))
      end in
    highest_package subs (if better then Some (sub, plan) else best)
  end.

Definition getHighestActiveValuePackageTx (userId now : Z) :
    Tx (option (UserSubscription * SubscriptionPlan)) :=
  subs ← getActiveValuePackageSubscriptionsTx userId now;
  highest_package subs None.

Record ValuePackageBillingState := mkBilling {
  vb_Active : bool;
  vb_PackageGroup : string;
  vb_PlanTitle : string;
  vb_PlanId : Z;
}.

Record ValuePackageState := mkState {
  st_Preference : UserValuePackagePreference;
  st_Subscription : option UserSubscription;
  st_Plan : option SubscriptionPlan;
  st_Usage : option ValuePackageUsageSummary;
  st_Billing : ValuePackageBillingState;
}.

Definition inactiveValuePackageBillingState : ValuePackageBillingState := mkBilling false "" "" 0.

Definition newValuePackageState (pref : UserValuePackagePreference) : ValuePackageState :=
  mkState pref None None None inactiveValuePackageBillingState.

Definition buildValuePackageBillingState (pref : UserValuePackagePreference)
    (sub : option UserSubscription) (plan : option SubscriptionPlan) : ValuePackageBillingState :=
  match sub, plan with
  | Some _, Some plan =>
    if negb (vp_Enabled pref) || negb (IsValuePackage plan) then inactiveValuePackageBillingState
    else
      let packageGroup := TrimSpace (sp_ModelGroup plan) in
      if decide (packageGroup = "") then inactiveValuePackageBillingState
      else mkBilling true packageGroup (sp_Title plan) (sp_Id plan)
  | _, _ => inactiveValuePackageBillingState
  end.

(** The state of a package in force. *)
Definition package_state (env : Env) (userId : Z) (pref : UserValuePackagePreference)
    (sub : UserSubscription) (plan : SubscriptionPlan) (includeUsage : bool) (now : Z) :
    Tx ValuePackageState :=
  let billing := buildValuePackageBillingState pref (Some sub) (Some plan) in
  usage ← (if includeUsage then buildValuePackageUsageSummaryTx env userId sub plan now else mret None);
  mret (mkState pref (Some sub) (Some plan) usage billing).

(** A preference that was never changed since its creation. *)
Definition untouched (pref : UserValuePackagePreference) : Prop :=
  vp_CreatedAt pref > 0 ∧ vp_UpdatedAt pref > 0 ∧ vp_CreatedAt pref = vp_UpdatedAt pref.
Global Instance untouched_dec pref : Decision (untouched pref) := _.

Definition loadValuePackageStateTx (env : Env) (userId : Z) (includeUsage : bool) :
    Tx ValuePackageState :=
  if decide (userId ≤ 0) then mret (newValuePackageState (mkPref 0 0 false None 0 0 0 0))
  else
    db ← get;
    let now := db_now env in
    match preference_of userId db with
    | None =>
      best ← getHighestActiveValuePackageTx userId now;
      match best with
      | None => mret (newValuePackageState (mkPref 0 userId false None 0 0 0 0))
      | Some (sub, plan) =>
        pref ← upsertValuePackagePreferenceTx env userId true (us_Id sub);
        package_state env userId pref sub plan includeUsage now
      end
    | Some pref =>
      let state := newValuePackageState pref in
      if decide (vp_ActiveUserSubscriptionId pref ≤ 0) then mret state
      else
        match first (λ s, us_Id s = vp_ActiveUserSubscriptionId pref ∧ us_UserId s = userId ∧
                          us_Status s = UserSubscriptionStatusActive ∧ us_EndTime s > now)
                (user_subscriptions db) with
        | None => mret state
        | Some sub =>
          r ← attempt (getSubscriptionPlanByIdTx (us_PlanId sub));
          match r with
          | Err e => if is_not_found e then mret state else throw e
          | Ok plan =>
            let plan := normalizeValuePackagePlan plan in
            if negb (IsValuePackage plan) then mret state
            else
              pref ← (if decide (vp_Enabled pref = false ∧ untouched pref)
                      then upsertValuePackagePreferenceTx env userId true (us_Id sub) else mret pref);
              package_state env userId pref sub plan includeUsage now
          end
        end
    end.

Definition getValuePackageStateTx (env : Env) (userId : Z) : Tx ValuePackageState :=
  loadValuePackageStateTx env userId true.

Definition GetActiveValuePackageForRelay (env : Env) (userId : Z) : Tx (option ValuePackageState) :=
  state ← loadValuePackageStateTx env userId false;
  mret match st_Subscription state, st_Plan state with
       | Some _, Some plan =>
         if vp_Enabled (st_Preference state) && IsValuePackage plan &&
            negb (bool_decide (TrimSpace (sp_ModelGroup plan) = ""))
         then Some state else None
       | _, _ => None
       end.

Definition ActivateValuePackage (env : Env) (userId userSubscriptionId : Z) : Tx ValuePackageState :=
  _ ← fail_if (userId ≤ 0 ∨ userSubscriptionId ≤ 0) (ErrNew "invalid activation args");
  let now := db_now env in
  transaction (
    db ← get;
    sub ← or_error (first (λ s, us_Id s = userSubscriptionId ∧ us_UserId s = userId ∧
                                us_Status s = UserSubscriptionStatusActive ∧ us_EndTime s > now)
                      (user_subscriptions db)) ErrRecordNotFound;
    plan ← getSubscriptionPlanByIdTx (us_PlanId sub);
    let plan := normalizeValuePackagePlan plan in
    _ ← fail_if (IsValuePackage plan = false) (ErrNew "订阅不是超值套餐");
    pref ← upsertValuePackagePreferenceTx env userId true (us_Id sub);
    package_state env userId pref sub plan true now).

Definition DeactivateValuePackage (env : Env) (userId : Z) : Tx ValuePackageState :=
  _ ← fail_if (userId ≤ 0) (ErrNew "invalid userId");
  transaction (
    db ← get;
    let activeSubId := from_option vp_ActiveUserSubscriptionId 0 (preference_of userId db) in
    pref ← upsertValuePackagePreferenceTx env userId false activeSubId;
    state ← getValuePackageStateTx env userId;
    mret (mkState pref (st_Subscription state) (st_Plan state) (st_Usage state) (st_Billing state))).

Definition UpdateValuePackageWalletFallback (env : Env) (userId : Z) (enabled : bool) :
    Tx ValuePackageState :=
  _ ← fail_if (userId ≤ 0) (ErrNew "invalid userId");
  transaction (
    _ ← ensureExistingUserForUpdateTx userId;
    state ← getValuePackageStateTx env userId;
    pref ← ensureValuePackagePreferenceForUpdateTx env userId;
    _ ← update_preference env userId (λ p, p <| vp_WalletFallbackEnabled := Some enabled |>);
    let pref := pref <| vp_WalletFallbackEnabled := Some enabled |> <| vp_UpdatedAt := app_now env |> in
    mret (mkState pref (st_Subscription state) (st_Plan state) (st_Usage state) (st_Billing state))).

(** Set the reset cards of a user and write the ledger. *)
Definition set_reset_count (env : Env) (userId oldCount newCount delta : Z) (source : string)
    (actorUserId : Z) (note : string) : Tx () :=
  _ ← update_preference env userId (λ p, p <| vp_ResetCount := newCount |>);
  create_ledger env (mkLedger 0 userId delta oldCount newCount source actorUserId 0 note).

Definition grantValuePackageResetCountTx (env : Env) (userId count : Z) (source : string)
    (actorUserId : Z) (note : string) : Tx UserValuePackagePreference :=
  _ ← fail_if (userId ≤ 0) (ErrNew "invalid user id");
  _ ← fail_if (count ≤ 0) (ErrNew "invalid reset card count");
  pref ← ensureValuePackagePreferenceForUpdateTx env userId;
  let oldCount := vp_ResetCount pref in
  let newCount := oldCount +! count in
  _ ← set_reset_count env userId oldCount newCount count source actorUserId note;
  mret (pref <| vp_ResetCount := newCount |>).

Definition ensureValuePackagePreferenceAfterPurchaseTx (env : Env) (userId completedSubId : Z)
    (plan : SubscriptionPlan) (giftResetCount : Z) (giftNote : string) : Tx () :=
  _ ← fail_if (userId ≤ 0 ∨ completedSubId ≤ 0) (ErrNew "invalid value package preference args");
  _ ← upsertValuePackagePreferenceTx env userId true completedSubId;
  if IsValuePackage plan then
    let giftCount := ClampSubscriptionPlanGiftResetCount giftResetCount in
    if decide (giftCount = 0) then mret tt
    else
      _ ← grantValuePackageResetCountTx env userId giftCount ValuePackageResetCountLedgerSourcePlanGift
            userId giftNote;
      mret tt
  else mret tt.

Record ValuePackageResetCountAdjustment := mkAdjustment {
  va_UserId : Z;
  va_OldCount : Z;
  va_NewCount : Z;
  va_Delta : Z;
  va_Mode : string;
  va_Reason : string;
  va_AdminUserId : Z;
}.

(** The new number of cards and the ledger source of an adjustment. *)
Definition adjusted_count (mode : string) (oldCount value : Z) : result (Z * string) :=
  if decide (mode = "set") then Ok (value, ValuePackageResetCountLedgerSourceAdminSet)
  else if decide (mode = "add") then
    if decide (value ≤ 0) then Err (ErrNew "调整次数必须大于 0")
    else Ok (oldCount +! value, ValuePackageResetCountLedgerSourceAdminAdd)
  else if decide (mode = "subtract") then
    if decide (value ≤ 0) then Err (ErrNew "调整次数必须大于 0")
    else Ok (if decide (oldCount -! value < 0) then 0 else oldCount -! value,
             ValuePackageResetCountLedgerSourceAdminSubtract)
  else Err (ErrNew "无效的调整模式").

Definition AdjustValuePackageResetCount (env : Env) (userId : Z) (mode : string) (value : Z)
    (reason : string) (adminUserId : Z) : Tx ValuePackageResetCountAdjustment :=
  _ ← fail_if (userId ≤ 0) (ErrNew "invalid user id");
  _ ← fail_if (value < 0) (ErrNew "重置次数不能为负数");
  let reason := TrimSpace reason in
  transaction (
    _ ← ensureExistingUserForUpdateTx userId;
    pref ← ensureValuePackagePreferenceForUpdateTx env userId;
    let oldCount := vp_ResetCount pref in
    '(newCount, source) ← lift (adjusted_count mode oldCount value);
    let delta := newCount -! oldCount in
    _ ← fail_if (delta = 0) (ErrNew "重置次数没有变化");
    _ ← set_reset_count env userId oldCount newCount delta source adminUserId reason;
    mret (mkAdjustment userId oldCount newCount delta mode reason adminUserId)).

Definition ConsumeValuePackageResetCount (env : Env) (userId userSubscriptionId resetAt actorUserId : Z)
    (note : string) : Tx ValuePackageState :=
  _ ← fail_if (userId ≤ 0) (ErrNew "invalid user id");
  let note := TrimSpace note in
  transaction (
    let dbNow := db_now env in
    let resetAt := if decide (resetAt ≤ 0 ∨ resetAt > dbNow) then dbNow else resetAt in
    pref ← ensureValuePackagePreferenceForUpdateTx env userId;
    _ ← fail_if (vp_ResetCount pref ≤ 0) (ErrNew "重置次数不足");
    _ ← fail_if (vp_Enabled pref = false ∨ vp_ActiveUserSubscriptionId pref ≤ 0)
          (ErrNew "请先启用超值套餐后再重置额度");
    _ ← fail_if (userSubscriptionId > 0 ∧ userSubscriptionId ≠ vp_ActiveUserSubscriptionId pref)
          (ErrNew "当前套餐不匹配，请刷新后重试");
    db ← get;
    sub ← or_error (first (λ s, us_Id s = vp_ActiveUserSubscriptionId pref ∧ us_UserId s = userId ∧
                                us_Status s = UserSubscriptionStatusActive ∧ us_EndTime s > resetAt)
                      (user_subscriptions db)) (ErrNew "当前没有可重置的超值套餐");
    plan ← getSubscriptionPlanByIdTx (us_PlanId sub);
    let plan := normalizeValuePackagePlan plan in
    _ ← fail_if (IsValuePackage plan = false) (ErrNew "当前没有可重置的超值套餐");
    _ ← fail_if (us_QuotaEpoch sub = max_int64) (ErrNew "value package quota epoch overflow");
    let fromEpoch := us_QuotaEpoch sub in
    let toEpoch := fromEpoch +! 1 in
    let amountUsedBefore := us_AmountUsed sub in
    let oldCount := vp_ResetCount pref in
    let newCount := oldCount -! 1 in
    let rowsAffected := affected (λ p, vp_UserId p = userId ∧ vp_ResetCount p > 0)
                          (value_package_preferences db) in
    _ ← modify (λ d, d <| value_package_preferences ::=
          update_where (λ p, vp_UserId p = userId ∧ vp_ResetCount p > 0)
            (λ p, p <| vp_ResetCount := newCount |> <| vp_UpdatedAt := app_now env |>) |>);
    _ ← fail_if (rowsAffected ≠ 1) (ErrNew "重置次数不足或状态已变化，请刷新后重试");
    _ ← create_quota_reset env
          (mkReset 0 userId (us_Id sub) (sp_Id plan) (sp_PackageType plan) resetAt fromEpoch toEpoch
             amountUsedBefore ValuePackageQuotaResetSourceUserConsumeCount actorUserId note);
    _ ← create_ledger env
          (mkLedger 0 userId (-1) oldCount newCount ValuePackageResetCountLedgerSourceUserConsume
             actorUserId 0 note);
    sub ← save_subscription env (sub <| us_AmountUsed := 0 |> <| us_QuotaEpoch := toEpoch |>);
    let pref := pref <| vp_ResetCount := newCount |> in
    package_state env userId pref sub plan true resetAt).

(** One user of [backfillDefaultEnabledValuePackagePreferencesTx]. *)
Definition backfill_user (env : Env) (now userId : Z) : Tx () :=
  db ← get;
  match preference_of userId db with
  | None =>
    best ← getHighestActiveValuePackageTx userId now;
    match best with
    | None => mret tt
    | Some (bestSub, _) => _ ← upsertValuePackagePreferenceTx env userId true (us_Id bestSub); mret tt
    end
  | Some pref =>
    if decide (vp_Enabled pref = true ∨ vp_ActiveUserSubscriptionId pref ≤ 0 ∨ ¬ untouched pref)
    then mret tt
    else
      match first (λ s, us_Id s = vp_ActiveUserSubscriptionId pref ∧ us_UserId s = userId ∧
                        us_Status s = UserSubscriptionStatusActive ∧ us_EndTime s > now)
              (user_subscriptions db) with
      | None => mret tt
      | Some sub =>
        r ← attempt (getSubscriptionPlanByIdTx (us_PlanId sub));
        match r with
        | Err e => if is_not_found e then mret tt else throw e
        | Ok plan =>
          if IsValuePackage (normalizeValuePackagePlan plan)
          then _ ← upsertValuePackagePreferenceTx env userId true (us_Id sub); mret tt
          else mret tt
        end
      end
  end.

(** The users with an active value package, each once. *)
Fixpoint candidate_users (subs : list UserSubscription) : Tx (list Z) :=
  match subs with
  | [] => mret []
  | sub :: subs =>
    r ← attempt (getSubscriptionPlanByIdTx (us_PlanId sub));
    match r with
    | Err e => if is_not_found e then candidate_users subs else throw e
    | Ok plan =>
      out ← candidate_users subs;
      mret (if IsValuePackage (normalizeValuePackagePlan plan)
            then if decide (us_UserId sub ∈ out) then out else us_UserId sub :: out
            else out)
    end
  end.

(** The source visits the users in the order of a Go map; each visit touches only
    the preference of its user. *)
Definition backfillDefaultEnabledValuePackagePreferencesTx (env : Env) (now : Z) : Tx () :=
  let now := if decide (now ≤ 0) then db_now env else now in
  db ← get;
  users ← candidate_users
    (where_ (λ s, us_Status s = UserSubscriptionStatusActive ∧ us_EndTime s > now) (user_subscriptions db));
  for_each users (backfill_user env now).
