(* ===== verification/Cards.v ===== *)
(** * Reset cards

    The books of the reset cards: the cards of a user are the sum of the user's
    ledger entries, never negative, whichever way they are granted, adjusted or
    spent; spending a card costs exactly one and empties the quota of the package;
    and a package that its owner switched off stays off. *)
From S2P Require Import Prelude Tables GoFloat GoTime Schema Plans Windows Cycles Consume Accounting Ledger Preferences.

(** ** The books of the cards *)

Definition cards (db : DB) (userId : Z) : Z := from_option vp_ResetCount 0 (preference_of userId db).

Definition ledger_total (db : DB) (userId : Z) : Z :=
  sumZ vl_Delta (filter (λ l, vl_UserId l = userId) (rows (reset_count_ledgers db))).

Record prefs_ok (prefs : table UserValuePackagePreference) : Prop := {
  pf_wf : table_wf prefs;
  pf_unique : ∀ p1 p2, p1 ∈ rows prefs → p2 ∈ rows prefs → vp_UserId p1 = vp_UserId p2 → p1 = p2;
  pf_count : Forall (λ p, 0 ≤ vp_ResetCount p ≤ max_int64) (rows prefs);
}.

Record cards_ok (db : DB) : Prop := {
  ck_prefs : prefs_ok (value_package_preferences db);
  ck_balance : ∀ u, cards db u = ledger_total db u;
}.

(** What an operation does to the cards of each user. *)
Definition moves_cards (db db' : DB) (userId delta : Z) : Prop :=
  ∀ u, cards db' u = cards db u + if decide (u = userId) then delta else 0.

Lemma preference_first prefs p :
  prefs_ok prefs → p ∈ rows prefs → first (λ x, vp_UserId x = vp_UserId p) prefs = Some p.
Proof.
  intros Hok Hp. destruct (first _ prefs) as [x|] eqn:E.
  - apply first_Some in E as [Hx Hu]. f_equal. by apply (pf_unique _ Hok).
  - by destruct (first_None _ _ p E Hp).
Qed.

(** An update of one user's preference that keeps its identity. *)
Record keeps_pref (f : UserValuePackagePreference → UserValuePackagePreference) : Prop := {
  kp_id : ∀ p, vp_Id (f p) = vp_Id p;
  kp_user : ∀ p, vp_UserId (f p) = vp_UserId p;
}.

Lemma prefs_ok_update prefs (P : UserValuePackagePreference → Prop) `{∀ p, Decision (P p)} f :
  keeps_pref f → (∀ p, p ∈ rows prefs → P p → 0 ≤ vp_ResetCount (f p) ≤ max_int64) →
  prefs_ok prefs → prefs_ok (update_where P f prefs).
Proof.
  intros [Hid Hu] Hf [Hwf Hun Hc]. split.
  - apply wf_update_where; [|done]. intros p _. apply Hid.
  - intros p1 p2 H1 H2. rewrite elem_of_update_where in H1, H2.
    destruct H1 as [[H1 Hn1]|(x1 & H1 & Hp1 & ->)], H2 as [[H2 Hn2]|(x2 & H2 & Hp2 & ->)];
      rewrite ?Hu; intros Heq.
    + auto.
    + destruct Hn1. by rewrite (Hun p1 x2 H1 H2 Heq).
    + destruct Hn2. by rewrite <-(Hun x1 p2 H1 H2 Heq).
    + by rewrite (Hun x1 x2 H1 H2 Heq).
  - apply Forall_update_where; [done|]. intros p Hp HP _. auto.
Qed.

Lemma first_update_user prefs (P : UserValuePackagePreference → Prop) `{∀ p, Decision (P p)} f u :
  keeps_pref f →
  first (λ p, vp_UserId p = u) (update_where P f prefs) =
  (λ p, if decide (P p) then f p else p) <$> first (λ p, vp_UserId p = u) prefs.
Proof.
  intros [_ Hu]. unfold first, update_where. cbn. generalize (rows prefs) as l.
  induction l as [|p l IH]; csimpl; [done|]. rewrite !filter_cons.
  assert (Hk : vp_UserId (if decide (P p) then f p else p) = vp_UserId p) by (case_decide; auto).
  rewrite Hk. destruct (decide (vp_UserId p = u)); csimpl; [done|exact IH].
Qed.

Lemma prefs_ok_insert p prefs :
  prefs_ok prefs → first (λ x, vp_UserId x = vp_UserId p) prefs = None →
  0 ≤ vp_ResetCount p ≤ max_int64 → prefs_ok (insert_row p prefs).
Proof.
  intros [Hwf Hun Hc] Hnone Hp. split; [by apply wf_insert_row| |by apply Forall_insert_row].
  assert (Hfresh : ∀ x, x ∈ rows prefs → vp_UserId x ≠ vp_UserId p).
  { intros x Hx. apply (first_None _ _ _ Hnone Hx). }
  intros p1 p2 [H1| ->]%elem_of_insert_row [H2| ->]%elem_of_insert_row Hk;
    [auto|by destruct (Hfresh p1 H1)|by destruct (Hfresh p2 H2)|done].
Qed.

Lemma first_insert_user prefs p u :
  first (λ x, vp_UserId x = vp_UserId p) prefs = None →
  first (λ x, vp_UserId x = u) (insert_row p prefs) =
  if decide (u = vp_UserId p) then Some (inserted p prefs) else first (λ x, vp_UserId x = u) prefs.
Proof.
  intros Hnone. unfold first, insert_row in *. cbn [rows]. rewrite filter_app, filter_cons, filter_nil.
  change (vp_UserId (inserted p prefs)) with (vp_UserId p). case_decide as Hu; subst.
  - rewrite decide_True by done. destruct (filter _ (rows prefs)); done.
  - rewrite decide_False by done. by rewrite app_nil_r.
Qed.

(** ** Steps of the operations *)

(** The tables the cards do not live in. *)
Record same_books (db db' : DB) : Prop := {
  sb_requests : same_requests db db';
  sb_subs : user_subscriptions db' = user_subscriptions db;
}.

Lemma same_books_accounting {B : PostBilled} db db' : same_books db db' → Accounting db → Accounting db'.
Proof. intros [[Hp Hu Hr] Hs]. unfold Accounting. by rewrite Hp, Hu, Hr, Hs. Qed.

Lemma same_books_refl db : same_books db db.
Proof. by split. Qed.

Lemma same_books_trans db1 db2 db3 : same_books db1 db2 → same_books db2 db3 → same_books db1 db3.
Proof. intros [[H1 H2 H3] H4] [[H5 H6 H7] H8]. split; [split|]; congruence. Qed.

(** Nothing happens to the cards. *)
Record keeps_cards (db db' : DB) : Prop := {
  kc_books : same_books db db';
  kc_ok : cards_ok db → cards_ok db';
  kc_cards : ∀ u, cards db' u = cards db u;
}.

Lemma keeps_cards_refl db : keeps_cards db db.
Proof. by split; [apply same_books_refl|..]. Qed.

Lemma keeps_cards_trans db1 db2 db3 : keeps_cards db1 db2 → keeps_cards db2 db3 → keeps_cards db1 db3.
Proof.
  intros [B1 O1 C1] [B2 O2 C2]. split; [by eapply same_books_trans|auto|].
  intros u. by rewrite C2, C1.
Qed.

Lemma keeps_cards_update db f userId :
  keeps_pref f → (∀ p, vp_ResetCount (f p) = vp_ResetCount p) →
  keeps_cards db (db <| value_package_preferences ::= update_where (λ p, vp_UserId p = userId) f |>).
Proof.
  intros Hf Hr.
  assert (Hcards : ∀ u, cards (db <| value_package_preferences ::=
    update_where (λ p, vp_UserId p = userId) f |>) u = cards db u).
  { intros u. unfold cards, preference_of. cbn.
    rewrite (first_update_user _ _ f u Hf). destruct (first _ _) as [p|]; [|done]. cbn. case_decide; auto. }
  split; [by split|intros [Hp Hb]|done]. split.
  - apply prefs_ok_update; [done| |done]. intros p Hin _. rewrite Hr.
    pose proof (pf_count _ Hp) as Hc. rewrite Forall_forall in Hc. auto.
  - intros u. by rewrite Hcards, Hb.
Qed.

Lemma keeps_cards_insert db p :
  preference_of (vp_UserId p) db = None → vp_ResetCount p = 0 →
  keeps_cards db (db <| value_package_preferences ::= insert_row p |>).
Proof.
  intros Hnone Hr.
  assert (Hcards : ∀ u, cards (db <| value_package_preferences ::= insert_row p |>) u = cards db u).
  { intros u. unfold cards, preference_of. cbn -[insert_row]. rewrite first_insert_user by done.
    case_decide; subst; [|done]. unfold preference_of in Hnone. by rewrite Hnone. }
  split; [by split|intros [Hp Hb]|done]. split.
  - apply prefs_ok_insert; [done|done|lia].
  - intros u. by rewrite Hcards, Hb.
Qed.

(** The preference an upsert leaves. *)
Definition upserted (env : Env) (db : DB) (userId : Z) (enabled : bool) (activeSubId : Z)
    (pref : UserValuePackagePreference) : Prop :=
  let updateTime := if enabled then app_now env else app_now env +! 1 in
  match preference_of userId db with
  | Some p => pref = preference_assign enabled updateTime activeSubId p
  | None => pref = inserted (mkPref 0 userId enabled None activeSubId 0 (app_now env) (app_now env))
                     (value_package_preferences db)
  end.

Lemma wp_upsert_preference env userId enabled activeSubId
    (Q : result UserValuePackagePreference → DB → Prop) db :
  (∀ pref db', keeps_cards db db' → preference_of userId db' = Some pref →
     upserted env db userId enabled activeSubId pref → Q (Ok pref) db') →
  wp (upsertValuePackagePreferenceTx env userId enabled activeSubId) Q db.
Proof.
  intros HOk. unfold upsertValuePackagePreferenceTx, upserted in *. wp_step. wp_step. wp_step.
  destruct (preference_of userId db) as [p|] eqn:Hp; unfold preference_of in Hp.
  - wp_step. set (f := preference_assign _ _ _). assert (Hf : keeps_pref f) by by split.
    wp_step. wp_step.
    assert (Hnew : preference_of userId (db <| value_package_preferences ::=
      update_where (λ p, vp_UserId p = userId) f |>) = Some (f p)).
    { unfold preference_of. cbn -[update_where]. rewrite (first_update_user _ _ f userId Hf), Hp. cbn.
      apply first_Some in Hp as [_ <-]. by rewrite decide_True. }
    rewrite Hnew. apply HOk; [|done|done]. by apply keeps_cards_update.
  - unfold create_preference. do 5 wp_step. wp_step. wp_step.
    set (row := mkPref 0 userId enabled None activeSubId 0 (app_now env) (app_now env)).
    match goal with |- context [insert_row ?r] => change r with row end.
    assert (Hnew : preference_of userId (db <| value_package_preferences ::= insert_row row |>) =
      Some (inserted row (value_package_preferences db))).
    { unfold preference_of. cbn -[insert_row]. rewrite first_insert_user by done. by rewrite decide_True. }
    wp_step. wp_step. rewrite Hnew. apply HOk; [|done|done]. by apply keeps_cards_insert.
Qed.

Lemma wp_ensure_preference env userId (Q : result UserValuePackagePreference → DB → Prop) db :
  (∀ pref db', keeps_cards db db' → preference_of userId db' = Some pref →
     vp_ResetCount pref = cards db userId →
     (preference_of userId db = Some pref ∧ db' = db ∨
      preference_of userId db = None ∧ vp_Enabled pref = false) → Q (Ok pref) db') →
  (∀ e, Q (Err e) db) →
  wp (ensureValuePackagePreferenceForUpdateTx env userId) Q db.
Proof.
  intros HOk HErr. unfold ensureValuePackagePreferenceForUpdateTx. wp_guard as Hu; [apply HErr|].
  wp_step. wp_step. destruct (preference_of userId db) as [p|] eqn:Hp.
  - wp_step. apply HOk; [apply keeps_cards_refl|done| |by left]. unfold cards. by rewrite Hp.
  - unfold create_preference. wp_steps.
    set (row := mkPref 0 userId false None 0 0 (app_now env) (app_now env)).
    match goal with |- context [insert_row ?r] => change r with row end.
    match goal with |- context [Ok ?r] => change r with (inserted row (value_package_preferences db)) end.
    apply HOk; [by apply keeps_cards_insert| | |by right].
    + unfold preference_of. cbn -[insert_row]. rewrite first_insert_user by exact Hp. by rewrite decide_True.
    + unfold cards. by rewrite Hp.
Qed.

Lemma preference_user userId db p : preference_of userId db = Some p → vp_UserId p = userId.
Proof. by intros [_ ?]%first_Some. Qed.

(** The preferences after the count of [userId] is set, by an update that reaches
    the user's row. *)
Definition sets_count (env : Env) (newCount : Z) (p : UserValuePackagePreference) :
    UserValuePackagePreference :=
  p <| vp_ResetCount := newCount |> <| vp_UpdatedAt := app_now env |>.

Lemma sets_count_keeps env n : keeps_pref (sets_count env n).
Proof. by split. Qed.

Lemma ledger_total_insert db u l :
  ledger_total (db <| reset_count_ledgers ::= insert_row l |>) u =
  ledger_total db u + if decide (u = vl_UserId l) then vl_Delta l else 0.
Proof.
  unfold ledger_total. cbn -[insert_row]. rewrite !sumZ_filter, sumZ_insert_row. f_equal.
  apply decide_ext. split; intros; by symmetry.
Qed.

Lemma cards_set env db userId pref newCount delta (P : UserValuePackagePreference → Prop)
    `{∀ p, Decision (P p)} l :
  cards_ok db → preference_of userId db = Some pref → (∀ p, P p → vp_UserId p = userId) → P pref →
  0 ≤ newCount ≤ max_int64 → newCount = vp_ResetCount pref + delta →
  vl_UserId l = userId → vl_Delta l = delta →
  let db' := db <| value_package_preferences ::= update_where P (sets_count env newCount) |>
                <| reset_count_ledgers ::= insert_row l |> in
  cards_ok db' ∧ moves_cards db db' userId delta.
Proof.
  intros [Hok Hbal] Hpref HP HPp Hn Hd Hlu Hld db'.
  assert (Hmove : moves_cards db db' userId delta).
  { intros u. unfold cards, preference_of, db'. cbn -[update_where].
    rewrite (first_update_user _ _ _ u (sets_count_keeps env newCount)).
    unfold preference_of in Hpref. case_decide as Hu; [subst u; rewrite Hpref; cbn; rewrite decide_True by done; cbn; lia|].
    destruct (first (λ p, vp_UserId p = u) (value_package_preferences db)) as [p|] eqn:Hp; [|done].
    apply first_Some in Hp as [_ Hpu]. cbn [fmap option_fmap option_map from_option].
    rewrite decide_False by (intros ?%HP; congruence). lia. }
  split; [|done]. split.
  - apply prefs_ok_update; [apply sets_count_keeps|done|done].
  - intros u. rewrite (Hmove u), Hbal.
    change (ledger_total db' u) with (ledger_total (db <| reset_count_ledgers ::= insert_row l |>) u).
    rewrite ledger_total_insert, Hlu, Hld. done.
Qed.

Lemma wp_set_reset_count env userId pref newCount delta source actor note (Q : result () → DB → Prop) db :
  cards_ok db → preference_of userId db = Some pref → 0 ≤ newCount ≤ max_int64 →
  newCount = vp_ResetCount pref + delta →
  (∀ db', same_books db db' → cards_ok db' → moves_cards db db' userId delta → Q (Ok tt) db') →
  wp (set_reset_count env userId (vp_ResetCount pref) newCount delta source actor note) Q db.
Proof.
  intros Hok Hpref Hn Hd HOk. unfold set_reset_count, update_preference, create_ledger. wp_steps.
  set (l := if decide _ then _ else _).
  assert (Hl : vl_UserId l = userId ∧ vl_Delta l = delta) by (unfold l; by case_decide).
  destruct Hl as [Hlu Hld]. clearbody l.
  destruct (cards_set env db userId pref newCount delta (λ p, vp_UserId p = userId) l) as [H1 H2];
    [done..|by apply preference_user in Hpref|done|done|done|done|].
  apply HOk; [by split|done|done].
Qed.

Lemma cards_bound db u : cards_ok db → 0 ≤ cards db u ≤ max_int64.
Proof.
  intros [Hp _]. unfold cards, preference_of. destruct (first _ _) as [p|] eqn:E; [|done].
  apply first_Some in E as [Hin _]. pose proof (pf_count _ Hp) as Hc. rewrite Forall_forall in Hc.
  by apply Hc.
Qed.

Lemma keeps_moves db1 db2 db3 u d : keeps_cards db1 db2 → moves_cards db2 db3 u d → moves_cards db1 db3 u d.
Proof. intros [_ _ Hk] Hm v. by rewrite (Hm v), Hk. Qed.

Lemma wp_grant env userId count source actor note
    (Q : result UserValuePackagePreference → DB → Prop) db :
  cards_ok db → cards db userId + count ≤ max_int64 →
  (∀ pref db', 0 < count → same_books db db' → cards_ok db' → moves_cards db db' userId count → Q (Ok pref) db') →
  (∀ e, Q (Err e) db) →
  wp (grantValuePackageResetCountTx env userId count source actor note) Q db.
Proof.
  intros Hok Hfit HOk HErr. unfold grantValuePackageResetCountTx.
  wp_guard as _; [apply HErr|]. wp_guard as Hc; [apply HErr|]. wp_step.
  apply wp_ensure_preference; [|apply HErr]. intros pref db1 Hk Hpref Hcount _. wp_step.
  pose proof (cards_bound db userId Hok) as Hb. rewrite <-Hcount in Hb, Hfit.
  replace (vp_ResetCount pref +! count) with (vp_ResetCount pref + count) by (unwrap; lia).
  apply wp_set_reset_count; [by apply Hk|done|lia|done|].
  intros db' Hsb Hok' Hm. wp_step. apply HOk; [lia| |done|by eapply keeps_moves].
  eapply same_books_trans; [apply Hk|done].
Qed.

Lemma adjusted_count_spec mode old value new source :
  0 ≤ old ≤ max_int64 → 0 ≤ value ≤ max_int64 → old + value ≤ max_int64 →
  adjusted_count mode old value = Ok (new, source) → 0 ≤ new ≤ max_int64.
Proof.
  intros Ho Hv Hfit. unfold adjusted_count.
  replace (old +! value) with (old + value) by (unwrap; lia).
  replace (old -! value) with (old - value) by (unwrap; lia).
  repeat case_decide; intros [= <- _]; lia.
Qed.

(** An adjustment that was booked. *)
Record adjusted (db db' : DB) (userId : Z) (adj : ValuePackageResetCountAdjustment) : Prop := {
  aj_ok : cards_ok db';
  aj_moves : moves_cards db db' userId (va_Delta adj);
  aj_delta : va_Delta adj ≠ 0;
  aj_old : va_OldCount adj = cards db userId;
  aj_new : va_NewCount adj = cards db' userId;
  aj_books : same_books db db';
}.

Lemma wp_adjust env userId mode value reason admin
    (Q : result ValuePackageResetCountAdjustment → DB → Prop) db :
  cards_ok db → 0 ≤ value → cards db userId + value ≤ max_int64 →
  (∀ adj db', adjusted db db' userId adj → Q (Ok adj) db') → (∀ e, Q (Err e) db) →
  wp (AdjustValuePackageResetCount env userId mode value reason admin) Q db.
Proof.
  intros Hok Hv Hfit HOk HErr. unfold AdjustValuePackageResetCount, ensureExistingUserForUpdateTx.
  wp_guard as _; [apply HErr|]. wp_guard as _; [apply HErr|]. wp_step. wp_step. wp_guard as _; [apply HErr|].
  wp_step. wp_step. wp_step. apply wp_or_error; [intros ? _|intros; apply HErr]. wp_step. wp_step.
  apply wp_ensure_preference; [|intros; apply HErr]. intros pref db1 Hk Hpref Hcount _. wp_step. wp_step.
  pose proof (cards_bound db userId Hok) as Hb. rewrite <-Hcount in Hb, Hfit.
  destruct (adjusted_count mode (vp_ResetCount pref) value) as [[new source]|] eqn:Ha; [|apply HErr].
  apply adjusted_count_spec in Ha; [|lia..]. cbn beta iota.
  replace (new -! vp_ResetCount pref) with (new - vp_ResetCount pref) by (unwrap; lia).
  wp_guard as Hd; [apply HErr|]. wp_step.
  apply wp_set_reset_count; [by apply Hk|done|lia|lia|].
  intros d Hsb Hok' Hm. wp_step. apply HOk.
  pose proof (keeps_moves _ _ _ _ _ Hk Hm) as Hm'.
  split; [done|done|done|done| |eapply same_books_trans; [apply Hk|done]].
  cbn. rewrite (Hm' userId), decide_True, <-Hcount by done. lia.
Qed.

(** Every adjustment an administrator makes is booked: the cards of the user
    change by the delta of the ledger entry, to a count that is not negative, and
    nobody else's cards change. *)
Theorem adjust_reset_count_booked env userId mode value reason admin db db' adj :
  cards_ok db → 0 ≤ value → cards db userId + value ≤ max_int64 →
  AdjustValuePackageResetCount env userId mode value reason admin db = (Ok adj, db') →
  adjusted db db' userId adj.
Proof.
  intros Hok Hv Hfit Hrun.
  refine (wp_run _ (λ r d, match r with Ok a => adjusted db d userId a | Err _ => True end) _ _ _ _ Hrun).
  by apply wp_adjust.
Qed.

(** ** Spending a card *)

(** What spending a card does: one card less, a new epoch with nothing used. *)
Record card_spent (env : Env) (db db' : DB) (userId : Z) (s s' : UserSubscription) : Prop := {
  cs_user : us_UserId s = userId;
  cs_elem : s ∈ rows (user_subscriptions db);
  cs_plan : package (subscription_plans db) s;
  cs_renewed : same_sub s s' ∧ us_QuotaEpoch s' = us_QuotaEpoch s + 1 ∧ us_QuotaEpoch s < max_int64 ∧
    us_AmountUsed s' = 0 ∧ us_AmountTotal s' = us_AmountTotal s;
  cs_subs : user_subscriptions db' = save s' (user_subscriptions db);
  cs_requests : same_requests db db';
  cs_ok : cards_ok db';
  cs_cards : moves_cards db db' userId (-1);
}.

Lemma card_spent_accounting {B : PostBilled} env db db' userId s s' :
  Accounting db → card_spent env db db' userId s s' → Accounting db'.
Proof.
  intros Hacc [_ Hs _ (Hsame & He & Hmax & Hu & Ht) Hsubs [Hp Hus Hr] _ _].
  pose proof (sub_of db s Hacc Hs) as Hok.
  unfold Accounting. rewrite Hp, Hus, Hr, Hsubs. apply (accounting_save _ _ _ _ s); [exact Hacc|done|done|].
  apply (sub_ok_renewed _ _ s); try done; [apply Hacc|]. rewrite Ht. apply (so_total _ _ _ Hok).
Qed.

Lemma wp_summary env userId sub plan now (Q : result (option ValuePackageUsageSummary) → DB → Prop) db :
  (∀ r, Q r db) → wp (buildValuePackageUsageSummaryTx env userId sub plan now) Q db.
Proof.
  intros HQ. unfold buildValuePackageUsageSummaryTx. wp_step; [wp_step; apply HQ|]. wp_step.
  apply wp_details. intros [d|e]; [wp_step|]; apply HQ.
Qed.

Lemma wp_package_state env userId pref sub plan includeUsage now (Q : result ValuePackageState → DB → Prop) db :
  (∀ e, Q (Err e) db) →
  (∀ u, Q (Ok (mkState pref (Some sub) (Some plan) u (buildValuePackageBillingState pref (Some sub) (Some plan)))) db) →
  wp (package_state env userId pref sub plan includeUsage now) Q db.
Proof.
  intros HErr HOk. unfold package_state. wp_step. destruct includeUsage; [|wp_step; wp_step; apply HOk].
  apply wp_summary. intros [u|e]; [wp_step; apply HOk|apply HErr].
Qed.

(** Only the preferences and the ledger matter. *)
Lemma cards_ext db1 db2 :
  value_package_preferences db2 = value_package_preferences db1 →
  reset_count_ledgers db2 = reset_count_ledgers db1 →
  (cards_ok db1 → cards_ok db2) ∧ ∀ u, cards db2 u = cards db1 u.
Proof.
  intros Hp Hl. assert (Hc : ∀ u, cards db2 u = cards db1 u)
    by (intros u; unfold cards, preference_of; by rewrite Hp).
  split; [|done]. intros [Hok Hb]. split; [by rewrite Hp|]. intros u. rewrite Hc, Hb.
  unfold ledger_total. by rewrite Hl.
Qed.

Lemma wp_consume_card {B : PostBilled} env userId id resetAt actor note (Q : result ValuePackageState → DB → Prop) db :
  Accounting db → cards_ok db →
  (∀ st s s' db', card_spent env db db' userId s s' → st_Subscription st = Some s' → Q (Ok st) db') →
  (∀ e, Q (Err e) db) →
  wp (ConsumeValuePackageResetCount env userId id resetAt actor note) Q db.
Proof.
  intros Hacc Hok HOk HErr. unfold ConsumeValuePackageResetCount.
  wp_guard as _; [apply HErr|]. wp_step. set (at_ := if decide _ then _ else _). wp_step.
  apply wp_ensure_preference; [|apply HErr]. intros pref db1 Hk Hpref Hcount _.
  wp_guard as Hpos; [apply HErr|]. wp_guard as _; [apply HErr|]. wp_guard as _; [apply HErr|].
  wp_step. wp_step. wp_step. apply wp_or_error; [|intros; apply HErr].
  intros s (Hs & _ & Hu & _ & _)%first_Some. wp_step.
  apply wp_get_plan; [|intros; apply HErr]. intros plan Hplan. cbv zeta.
  wp_guard as Hv; [apply HErr|]. wp_guard as He; [apply HErr|].
  pose proof (same_books_accounting _ _ (kc_books _ _ Hk) Hacc) as Hacc1.
  pose proof (kc_ok _ _ Hk Hok) as Hok1. pose proof (cards_bound db userId Hok) as Hb. rewrite <-Hcount in Hb.
  pose proof (so_epoch _ _ _ (sub_of db1 s Hacc1 Hs)) as Hep. unfold in_int64 in Hep.
  replace (us_QuotaEpoch s +! 1) with (us_QuotaEpoch s + 1) by (unwrap; lia).
  replace (vp_ResetCount pref -! 1) with (vp_ResetCount pref - 1) by (unwrap; lia).
  wp_step. wp_step. wp_guard as _; [apply HErr|]. unfold create_quota_reset, create_ledger, save_subscription.
  wp_step. wp_step. wp_step. wp_step. wp_step. wp_step. wp_step. wp_step.
  set (l := if decide (vl_CreatedAt _ = 0) then _ else _).
  assert (Hl : vl_UserId l = userId ∧ vl_Delta l = -1) by (unfold l; by case_decide).
  destruct Hl as [Hlu Hld]. clearbody l.
  destruct (cards_set env db1 userId pref (vp_ResetCount pref - 1) (-1)
    (λ p, vp_UserId p = userId ∧ vp_ResetCount p > 0) l) as [Hok2 Hm];
    [done|done|by intros p []|split; [by eapply preference_user|lia]|lia|lia|done|done|].
  set (db2 := db1 <| value_package_preferences ::= _ |> <| reset_count_ledgers ::= _ |>) in Hok2, Hm.
  apply wp_package_state; [intros; apply HErr|]. intros u.
  destruct (kc_books _ _ Hk) as [[Hkp Hku Hkr] Hks].
  match goal with |- Q _ ?d => destruct (cards_ext db2 d) as [Hext Hextc]; [done|done|] end.
  apply (HOk _ s (s <| us_AmountUsed := 0 |> <| us_QuotaEpoch := us_QuotaEpoch s + 1 |>
                   <| us_UpdatedAt := app_now env |>)); [|reflexivity].
  split; [done|by rewrite <-Hks| | | | |by apply Hext|].
  - rewrite <-Hkp. exists (normalizeValuePackagePlan plan). split; [done|]. by apply not_false_is_true.
  - split; [split; cbn; [done|done|lia]|]. split_and!; [done|lia|done|done].
  - by rewrite <-Hks.
  - by split.
  - intros v. rewrite Hextc. apply (keeps_moves _ _ _ _ _ Hk Hm).
Qed.

(** C32: spending a reset card costs exactly one card and moves the package to a
    new quota epoch with nothing used, in balance; a refusal (no card, no active
    package) changes nothing at all. *)
Theorem consume_reset_card env userId id resetAt actor note db :
  Accounting db → cards_ok db →
  let '(r, db') := ConsumeValuePackageResetCount env userId id resetAt actor note db in
  match r with
  | Ok st => Accounting db' ∧ ∃ s s', st_Subscription st = Some s' ∧ card_spent env db db' userId s s'
  | Err _ => db' = db
  end.
Proof.
  intros Hacc Hok. destruct (ConsumeValuePackageResetCount env userId id resetAt actor note db) as [r db'] eqn:Hrun.
  refine (wp_run _ (λ r d, match r with Ok st => Accounting d ∧ ∃ s s', st_Subscription st = Some s' ∧
    card_spent env db d userId s s' | Err _ => d = db end) _ _ _ _ Hrun).
  apply wp_consume_card; [done|done| |done].
  intros st s s' d Hs Hst. split; [by eapply card_spent_accounting|eauto].
Qed.

(** ** Switching a package off *)

(** A preference that no load switches back on. *)
Definition switched_off (db : DB) (userId : Z) : Prop :=
  ∃ pref, preference_of userId db = Some pref ∧ vp_Enabled pref = false ∧
    (vp_ActiveUserSubscriptionId pref ≤ 0 ∨ ¬ untouched pref).

Lemma wp_load_off env userId includeUsage db :
  0 < userId → switched_off db userId →
  wp (loadValuePackageStateTx env userId includeUsage)
    (λ r d, d = db ∧ match r with Ok st => vp_Enabled (st_Preference st) = false | Err _ => True end) db.
Proof.
  intros Hu (pref & Hpref & Hen & Hoff). unfold loadValuePackageStateTx.
  rewrite decide_False by lia. wp_step. wp_step. rewrite Hpref.
  wp_step; [by wp_step|]. destruct (first _ _) as [sub|]; [|by wp_step].
  wp_step. wp_step. apply wp_get_plan; intros; [|destruct (is_not_found e); by wp_step].
  destruct (negb _); [by wp_step|]. rewrite decide_False by naive_solver. wp_step. wp_step.
  by apply wp_package_state.
Qed.

Lemma relay_off env userId db :
  0 < userId → switched_off db userId →
  wp (GetActiveValuePackageForRelay env userId) (λ r d, d = db ∧ ∀ st, r ≠ Ok (Some st)) db.
Proof.
  intros Hu Hoff. unfold GetActiveValuePackageForRelay. wp_step.
  eapply wp_mono; [by apply wp_load_off|]. intros [st|e] d [-> Hst]; [|done].
  wp_step. split; [done|]. rewrite Hst. by destruct (st_Subscription st), (st_Plan st).
Qed.

(** A package its owner switched off stays off: although a load of the state
    re-enables preferences that look like untouched defaults, after a successful
    deactivation no request is ever paid by the package. *)
Theorem deactivate_stays_off env env' userId db db' st :
  app_now env < max_int64 →
  (∀ pref, preference_of userId db = Some pref → vp_CreatedAt pref ≤ app_now env) →
  0 ≤ app_now env →
  DeactivateValuePackage env userId db = (Ok st, db') →
  ∃ r, GetActiveValuePackageForRelay env' userId db' = (r, db') ∧ ∀ s, r ≠ Ok (Some s).
Proof.
  intros Hmax Hcreated Hpos Hrun.
  assert (Hoff : 0 < userId ∧ switched_off db' userId).
  { refine (wp_run _ (λ r d, ∀ st, r = Ok st → 0 < userId ∧ switched_off d userId) _ _ _ _ Hrun st eq_refl).
    unfold DeactivateValuePackage. wp_guard as Hu; [done|]. wp_step. wp_step. wp_step. wp_step.
    apply wp_upsert_preference. intros pref d _ Hpref Hup.
    assert (Hd : switched_off d userId).
    { exists pref. unfold upserted in Hup.
      destruct (preference_of userId db) as [p|] eqn:Hp; subst pref; cbn; [|auto with lia].
      specialize (Hcreated p eq_refl). split_and!; [done..|]. right. unfold untouched. cbn.
      replace (app_now env +! 1) with (app_now env + 1) by (unwrap; lia). lia. }
    wp_step. eapply wp_mono; [apply wp_load_off; [lia|done]|].
    intros [s|e] d' [-> _]; [wp_step|done]. intros; split; [lia|done]. }
  destruct (GetActiveValuePackageForRelay env' userId db') as [r d] eqn:Hget.
  destruct (wp_run _ _ _ _ _ (relay_off env' userId db' (proj1 Hoff) (proj2 Hoff)) Hget) as [-> Hr]. eauto.
Qed.

(** ** Witnesses *)

(** A user with an active package and two reset cards. *)
Definition cards_db : DB :=
  example_db <| users := Table [example_user 1 0 0 0] 2 |>
    <| value_package_preferences := Table [mkPref 1 1 true None 1 2 1000 1000] 2 |>
    <| reset_count_ledgers := Table [mkLedger 1 1 2 0 2 "plan_gift" 1 1000 "gift"] 2 |>.

Definition cards_env : Env := mkEnv 40000 40000 28800 (float_of_int 500000).

Lemma cards_db_accounting : Accounting cards_db.
Proof. exact example_accounting. Qed.

Lemma cards_db_ok : cards_ok cards_db.
Proof.
  split.
  - split; [split_and!; repeat constructor; done| |repeat constructor; done].
    intros p1 p2 [->|[]%not_elem_of_nil]%elem_of_cons [->|[]%not_elem_of_nil]%elem_of_cons. done.
  - intros u. unfold cards, preference_of, ledger_total, first. cbn -[filter].
    rewrite !filter_cons, !filter_nil. cbn -[decide]. repeat case_decide; done.
Qed.

Definition adjusted_db : DB := (AdjustValuePackageResetCount cards_env 1 "subtract" 1 "" 9 cards_db).2.

Example adjust_reset_count_booked_witness : cards adjusted_db 1 = 1 ∧ cards_ok adjusted_db.
Proof.
  destruct (adjust_reset_count_booked cards_env 1 "subtract" 1 "" 9 cards_db adjusted_db
              (mkAdjustment 1 2 1 (-1) "subtract" "" 9)) as [Hok _ _ _ Hn _].
  - exact cards_db_ok.
  - done.
  - vm_compute. done.
  - vm_compute. reflexivity.
  - split; [symmetry; exact Hn|exact Hok].
Defined.

Definition spent_db : DB := (ConsumeValuePackageResetCount cards_env 1 1 0 1 "" cards_db).2.

Example consume_reset_card_witness : cards spent_db 1 = cards cards_db 1 - 1.
Proof.
  pose proof (consume_reset_card cards_env 1 1 0 1 "" cards_db cards_db_accounting cards_db_ok) as H.
  unfold spent_db. destruct (ConsumeValuePackageResetCount cards_env 1 1 0 1 "" cards_db) as [r db'] eqn:Hrun.
  destruct r as [st|e].
  - destruct H as (_ & s & s' & _ & Hs). cbn [snd]. rewrite (cs_cards _ _ _ _ _ _ Hs 1), decide_True by done. lia.
  - exfalso. vm_compute in Hrun. discriminate Hrun.
Defined.

Definition deactivated_db : DB := (DeactivateValuePackage cards_env 1 cards_db).2.

Example deactivate_stays_off_witness :
  ∃ r, GetActiveValuePackageForRelay cards_env 1 deactivated_db = (r, deactivated_db) ∧ ∀ s, r ≠ Ok (Some s).
Proof.
  destruct (DeactivateValuePackage cards_env 1 cards_db) as [r db'] eqn:Hrun. destruct r as [st|e].
  - unfold deactivated_db. rewrite Hrun. cbn [snd].
    apply (deactivate_stays_off cards_env cards_env 1 cards_db db' st); [vm_compute; done| |vm_compute; done|exact Hrun].
    intros pref Hp. vm_compute in Hp. injection Hp as <-. vm_compute. done.
  - exfalso. vm_compute in Hrun. discriminate Hrun.
Defined.
