(* ===== verification/Purchases.v ===== *)
(** * Purchases of value packages

    [model/subscription.go]: what a purchase does to the packages a user has
    (start a first one, extend or renew the same plan, cover a lower one) and the
    purchase itself, which also selects the package for billing and grants the
    reset cards of the plan. *)
From S2P Require Import Prelude Tables GoFloat GoTime Schema Plans Windows Cycles Consume Accounting Ledger Preferences Cards.

(** ** Definitions *)

Definition ValuePackagePurchaseActionCreate := "create".
Definition ValuePackagePurchaseActionExtend := "extend".
Definition ValuePackagePurchaseActionUpgrade := "upgrade".

Record ValuePackagePurchaseIntent := mkIntent {
  pi_Action : string;
  pi_RequiresConfirmation : bool;
  pi_CurrentSubscription : option UserSubscription;
  pi_CurrentPlan : option SubscriptionPlan;
  pi_TargetPlan : SubscriptionPlan;
  pi_Message : string;
}.

Definition checkValuePackagePurchaseIntentTx (env : Env) (userId : Z) (plan : SubscriptionPlan)
    (confirmedCover : bool) : Tx ValuePackagePurchaseIntent :=
  _ ← lift (validateValuePackagePlanLifecycleLimits plan);
  let now := db_now env in
  current ← getHighestActiveValuePackageTx userId now;
  match current with
  | None => mret (mkIntent ValuePackagePurchaseActionCreate false None None plan "")
  | Some (currentSub, currentPlan) =>
    if decide (sp_Id plan = sp_Id currentPlan) then
      mret (mkIntent ValuePackagePurchaseActionExtend false (Some currentSub) (Some currentPlan) plan "")
    else
      _ ← fail_if (sp_PackageLevel plan < sp_PackageLevel currentPlan)
            (ErrNew "当前已有更高等级套餐未过期，暂不能购买低等级套餐");
      let message := if confirmedCover then "" else
        "购买 " +:+ sp_Title plan +:+ " 将直接覆盖当前 " +:+ sp_Title currentPlan
        +:+ "，剩余时间不会折算或顺延" in
      mret (mkIntent ValuePackagePurchaseActionUpgrade (negb confirmedCover) (Some currentSub)
              (Some currentPlan) plan message)
  end.

Definition CheckValuePackagePurchaseIntent (env : Env) (userId planId : Z) (confirmedCover : bool) :
    Tx ValuePackagePurchaseIntent :=
  _ ← fail_if (userId ≤ 0 ∨ planId ≤ 0) (ErrNew "invalid userId or planId");
  plan ← getSubscriptionPlanByIdTx planId;
  let plan := normalizeValuePackagePlan plan in
  _ ← fail_if (IsValuePackage plan = false) (ErrNew "目标套餐不是超值套餐");
  _ ← fail_if (sp_Enabled plan = false) (ErrNew "套餐未启用");
  checkValuePackagePurchaseIntentTx env userId plan confirmedCover.

Definition CheckValuePackagePurchaseIntentTx (env : Env) (userId : Z) (plan : SubscriptionPlan)
    (confirmedCover : bool) : Tx ValuePackagePurchaseIntent :=
  _ ← fail_if (userId ≤ 0 ∨ sp_Id plan ≤ 0) (ErrNew "invalid userId or plan");
  let plan := normalizeValuePackagePlan plan in
  _ ← fail_if (IsValuePackage plan = false) (ErrNew "目标套餐不是超值套餐");
  _ ← fail_if (sp_Enabled plan = false) (ErrNew "套餐未启用");
  checkValuePackagePurchaseIntentTx env userId plan confirmedCover.

(** The exhausted branch of an extension: a new epoch starts now. *)
Definition renewed_subscription (env : Env) (existing : UserSubscription) (plan : SubscriptionPlan)
    (nowUnix purchasedEndUnix : Z) : UserSubscription :=
  existing <| us_AmountTotal := sp_TotalAmount plan |> <| us_AmountUsed := 0 |>
    <| us_StartTime := nowUnix |> <| us_EndTime := purchasedEndUnix |>
    <| us_QuotaEpoch := us_QuotaEpoch existing +! 1 |> <| us_LastResetTime := nowUnix |>
    <| us_NextResetTime := 0 |> <| us_UpdatedAt := app_now env |>.

(** The other branch: the time bought is added to the end. *)
Definition extended_subscription (env : Env) (existing : UserSubscription) (plan : SubscriptionPlan)
    (base duration : Z) : UserSubscription :=
  (syncValuePackageCycleSchedule (existing <| us_EndTime := base +! duration |>) plan)
    <| us_UpdatedAt := app_now env |>.

Definition extendValuePackageSubscriptionTx (env : Env) (subscriptionID : Z) (plan : SubscriptionPlan)
    (nowUnix purchasedEndUnix : Z) : Tx UserSubscription :=
  _ ← fail_if (subscriptionID ≤ 0) (ErrNew "invalid subscription id");
  _ ← fail_if (IsValuePackage plan = false ∨ sp_TotalAmount plan ≤ 0)
        (ErrNew "invalid value package plan total");
  let duration := purchasedEndUnix -! nowUnix in
  _ ← fail_if (nowUnix ≤ 0 ∨ duration ≤ 0) (ErrNew "invalid value package purchase duration");
  db ← get;
  existing ← or_error (by_id subscriptionID (user_subscriptions db)) ErrRecordNotFound;
  _ ← fail_if (us_Status existing ≠ UserSubscriptionStatusActive)
        (ErrNew "value package subscription is not active");
  existing ← maybeAdvanceValuePackageCycleTx env existing plan nowUnix;
  usage ← buildValuePackageUsageSummaryTx env (us_UserId existing) existing plan nowUnix;
  let reason := from_option (valuePackageRenewalExhaustedReason (quota_per_unit env)) "" usage in
  if decide (reason ≠ "") then
    _ ← fail_if (us_QuotaEpoch existing = max_int64) (ErrNew "value package quota epoch overflow");
    let renewed := renewed_subscription env existing plan nowUnix purchasedEndUnix in
    _ ← create_quota_reset env
          (mkReset 0 (us_UserId existing) (us_Id existing) (us_PlanId existing) (sp_PackageType plan)
             nowUnix (us_QuotaEpoch existing) (us_QuotaEpoch renewed) (us_AmountUsed existing)
             ValuePackageQuotaResetSourcePackageRenewal 0 ("exhausted package renewal: " +:+ reason));
    save_subscription env renewed
  else
    let base := if decide (us_EndTime existing < nowUnix) then nowUnix else us_EndTime existing in
    _ ← fail_if (base > max_int64 -! duration) (ErrNew "value package subscription end time overflow");
    save_subscription env (extended_subscription env existing plan base duration).

(** The row a first purchase or an upgrade creates. *)
Definition new_package (userId : Z) (plan : SubscriptionPlan) (source : string)
    (nowUnix endUnix : Z) : UserSubscription :=
  syncValuePackageCycleSchedule
    (mkSub 0 userId (sp_Id plan) (sp_TotalAmount plan) 0 0 nowUnix endUnix
       UserSubscriptionStatusActive source 0 0 0 0 "" "" 0 0) plan.

(** [tx.Model(&UserSubscription{}).Where("id = ?", id).Updates(...)]. *)
Definition update_subscription (env : Env) (id : Z) (f : UserSubscription → UserSubscription) : Tx () :=
  modify (λ d, d <| user_subscriptions ::=
    update_where (λ s, us_Id s = id) (λ s, (f s) <| us_UpdatedAt := app_now env |>) |>).

(** The switch on the purchase action. *)
Definition place_package (env : Env) (userId : Z) (plan : SubscriptionPlan) (source : string)
    (nowUnix endUnix : Z) (intent : ValuePackagePurchaseIntent) : Tx UserSubscription :=
  if decide (pi_Action intent = ValuePackagePurchaseActionExtend) then
    extendValuePackageSubscriptionTx env (from_option us_Id 0 (pi_CurrentSubscription intent)) plan
      nowUnix endUnix
  else if decide (pi_Action intent = ValuePackagePurchaseActionUpgrade) then
    let covered := from_option us_Id 0 (pi_CurrentSubscription intent) in
    _ ← update_subscription env covered (λ s, s <| us_Status := UserSubscriptionStatusCovered |>
          <| us_CoveredTime := nowUnix |>);
    sub ← create_subscription env (new_package userId plan source nowUnix endUnix);
    _ ← update_subscription env covered (λ s, s <| us_CoveredBySubscriptionId := us_Id sub |>);
    mret sub
  else if decide (pi_Action intent = ValuePackagePurchaseActionCreate) then
    create_subscription env (new_package userId plan source nowUnix endUnix)
  else throw (ErrNew "unknown value package purchase action").

Definition CreateValuePackageSubscriptionFromPlanTx (env : Env) (userId : Z) (plan : SubscriptionPlan)
    (source : string) : Tx UserSubscription :=
  _ ← fail_if (sp_Id plan = 0) (ErrNew "invalid plan");
  _ ← fail_if (userId ≤ 0) (ErrNew "invalid user id");
  let plan := normalizeValuePackagePlan plan in
  _ ← fail_if (IsValuePackage plan = false) (ErrNew "目标套餐不是超值套餐");
  _ ← fail_if (sp_Enabled plan = false) (ErrNew "套餐未启用");
  _ ← ensureExistingUserForUpdateTx userId;
  intent ← checkValuePackagePurchaseIntentTx env userId plan true;
  let nowUnix := db_now env in
  endUnix ← lift (calcPlanEndTime (local_offset env) nowUnix plan);
  completed ← place_package env userId plan source nowUnix endUnix intent;
  _ ← fail_if (us_Id completed ≤ 0) (ErrNew "completed subscription missing");
  _ ← ensureValuePackagePreferenceAfterPurchaseTx env userId (us_Id completed) plan
        (ClampSubscriptionPlanGiftResetCount (sp_GiftResetCount plan))
        ("开通套餐赠送：" +:+ sp_Title plan +:+ "，来源 " +:+ source);
  mret completed.

(** ** Frames *)

Lemma keeps_get_plan {B} (π : DB → B) id : keeps π (getSubscriptionPlanByIdTx id).
Proof. unfold getSubscriptionPlanByIdTx, getSubscriptionPlanByIdFreshTx. keeps_solve. Qed.
#[export] Hint Resolve keeps_get_plan : keeps.

Lemma keeps_details {B} (π : DB → B) env userId id now :
  keeps π (getValuePackageWindowUsageDetailsTx env userId id now).
Proof. unfold getValuePackageWindowUsageDetailsTx, getLastValuePackageQuotaResetAtTx. keeps_solve. Qed.
#[export] Hint Resolve keeps_details : keeps.

Lemma keeps_summary {B} (π : DB → B) env userId sub plan now :
  keeps π (buildValuePackageUsageSummaryTx env userId sub plan now).
Proof. unfold buildValuePackageUsageSummaryTx. keeps_solve. Qed.
#[export] Hint Resolve keeps_summary : keeps.

Lemma keeps_keep_packages {B} (π : DB → B) subs : keeps π (keep_packages subs).
Proof. induction subs; cbn [keep_packages]; keeps_solve; done. Qed.
Lemma keeps_highest_package {B} (π : DB → B) subs best : keeps π (highest_package subs best).
Proof. revert best. induction subs as [|s subs IH]; intros best; cbn [highest_package]; keeps_solve; apply IH. Qed.
#[export] Hint Resolve keeps_keep_packages keeps_highest_package : keeps.

Lemma keeps_highest {B} (π : DB → B) userId now : keeps π (getHighestActiveValuePackageTx userId now).
Proof. unfold getHighestActiveValuePackageTx, getActiveValuePackageSubscriptionsTx. keeps_solve. Qed.
#[export] Hint Resolve keeps_highest : keeps.

(** The tables a purchase of a package leaves alone. *)
Definition shop_tables (db : DB) :=
  (users db, tokens db, subscription_plans db, usage_records db, pre_consume_records db, subscription_orders db,
   top_ups db, channels db, affiliate_commissions db, affiliate_withdrawals db, redemptions db, svip_receipts db).

Lemma keeps_place env userId plan source now endUnix intent :
  keeps shop_tables (place_package env userId plan source now endUnix intent).
Proof.
  unfold place_package, extendValuePackageSubscriptionTx, maybeAdvanceValuePackageCycleTx, create_quota_reset,
    save_subscription, create_subscription, update_subscription. keeps_solve.
Qed.

Lemma keeps_after_purchase env userId id plan count note :
  keeps shop_tables (ensureValuePackagePreferenceAfterPurchaseTx env userId id plan count note).
Proof.
  unfold ensureValuePackagePreferenceAfterPurchaseTx, upsertValuePackagePreferenceTx, grantValuePackageResetCountTx,
    ensureValuePackagePreferenceForUpdateTx, create_preference, set_reset_count, update_preference, create_ledger.
  keeps_solve.
Qed.

Lemma keeps_intent {B} (π : DB → B) env userId plan confirmed :
  keeps π (checkValuePackagePurchaseIntentTx env userId plan confirmed).
Proof. unfold checkValuePackagePurchaseIntentTx. keeps_solve. Qed.
#[export] Hint Resolve keeps_place keeps_after_purchase keeps_intent : keeps.

Lemma keeps_purchase env userId plan source :
  keeps shop_tables (CreateValuePackageSubscriptionFromPlanTx env userId plan source).
Proof. unfold CreateValuePackageSubscriptionFromPlanTx, ensureExistingUserForUpdateTx. keeps_solve. Qed.

(** ** The books under changes of the subscription table *)

(** A change of a row that the accounting does not see. *)
Record keeps_books (f : UserSubscription → UserSubscription) : Prop := {
  kb_id : ∀ s, us_Id (f s) = us_Id s;
  kb_plan : ∀ s, us_PlanId (f s) = us_PlanId s;
  kb_total : ∀ s, us_AmountTotal (f s) = us_AmountTotal s;
  kb_used : ∀ s, us_AmountUsed (f s) = us_AmountUsed s;
  kb_epoch : ∀ s, us_QuotaEpoch (f s) = us_QuotaEpoch s;
}.

Lemma sub_ok_keeps {B : PostBilled} plans usage f s : keeps_books f → sub_ok plans usage s → sub_ok plans usage (f s).
Proof.
  intros [Hid Hpl Ht Hu He] [Hep Hused Hfits Htot Hcap Heps].
  pose proof (package_plan plans s (f s) (Hpl s)) as Hpk.
  split; rewrite ?Hid, ?Ht, ?Hu, ?He; try done; intros Hp; [apply Hused|apply Heps]; by apply Hpk.
Qed.

Lemma accounting_update {B : PostBilled} plans subs usage pre (P : UserSubscription → Prop) `{∀ s, Decision (P s)} f :
  keeps_books f → accounting plans subs usage pre →
  accounting plans (update_where P f subs) usage pre.
Proof.
  intros Hf [Hsubs Husage Hpre Hsub Hreq Hui Hpi]. pose proof Hf as [Hid Hpl _ _ He].
  split; [|done|done| | |done|done].
  - apply wf_update_where; [|done]. intros s _. apply Hid.
  - apply Forall_update_where; [done|]. intros s _ _. by apply sub_ok_keeps.
  - eapply Forall_impl; [exact Hreq|]. intros p [Hrec Hepp Href]. split; [..|done].
    + intros x [[Hx _]|(s & Hs & _ & ->)]%elem_of_update_where; [by apply Hrec|].
      rewrite Hid. intros Hsid Hpk. apply (Hrec s); [done|done|]. by apply (package_plan _ s (f s)).
    + intros x [[Hx _]|(s & Hs & _ & ->)]%elem_of_update_where; [by apply Hepp|].
      rewrite Hid, He. intros Hsid Hpk. apply (Hepp s); [done|done|]. by apply (package_plan _ s (f s)).
Qed.

Lemma accounting_delete {B : PostBilled} plans subs usage pre (P : UserSubscription → Prop) `{∀ s, Decision (P s)} :
  accounting plans subs usage pre → accounting plans (delete_where P subs) usage pre.
Proof.
  intros [Hsubs Husage Hpre Hsub Hreq Hui Hpi].
  assert (Hin : ∀ s, s ∈ rows (delete_where P subs) → s ∈ rows subs)
    by (intros s [_ ?]%list_elem_of_filter; done).
  split; [by apply wf_delete_where|done|done|by apply Forall_filter_keep| |done|done].
  eapply Forall_impl; [exact Hreq|]. intros p [Hrec Hepp Href]. split; [..|done];
    intros s Hs%Hin; [by apply Hrec|by apply Hepp].
Qed.

(** A new subscription has no usage yet. *)
Lemma accounting_insert {B : PostBilled} plans subs usage pre s :
  us_AmountUsed s = 0 → us_QuotaEpoch s = 0 → us_AmountTotal s ≤ max_int64 →
  accounting plans subs usage pre → accounting plans (insert_row s subs) usage pre.
Proof.
  intros Hu He Ht [Hsubs Husage Hpre Hsub Hreq Hui Hpi]. rewrite Forall_forall in Hui. rewrite Forall_forall in Hpi.
  split; [by apply wf_insert_row|done|done| | |..].
  - apply Forall_insert_row; [done|].
    split; change (us_AmountUsed (inserted s subs)) with (us_AmountUsed s);
      change (us_QuotaEpoch (inserted s subs)) with (us_QuotaEpoch s);
      change (us_AmountTotal (inserted s subs)) with (us_AmountTotal s);
      change (us_Id (inserted s subs)) with (next_id subs); rewrite ?Hu, ?He.
    + done.
    + intros _. unfold charged. rewrite filter_none; [done|].
      intros r Hr [Hid _]. specialize (Hui r Hr). lia.
    + done.
    + done.
    + lia.
    + intros _. apply Forall_forall. intros r Hr Hid. specialize (Hui r Hr). lia.
  - rewrite Forall_forall in Hreq. apply Forall_forall. intros p Hp.
    destruct (Hreq p Hp) as [Hrec Hepp Href]. specialize (Hpi p Hp).
    assert (Hfresh : us_Id (inserted s subs) ≠ pc_UserSubscriptionId p)
      by (change (us_Id (inserted s subs)) with (next_id subs); lia).
    split; [..|done]; intros x [Hx| ->]%elem_of_insert_row; [by apply Hrec|done|by apply Hepp|done].
  - apply Forall_forall. intros r Hr. specialize (Hui r Hr). cbn. lia.
  - apply Forall_forall. intros p Hp. specialize (Hpi p Hp). cbn. lia.
Qed.

(** ** The packages a user holds *)

Definition held (db : DB) (userId now : Z) (s : UserSubscription) : Prop :=
  s ∈ rows (user_subscriptions db) ∧ us_UserId s = userId ∧ us_Status s = UserSubscriptionStatusActive ∧
  us_EndTime s > now ∧ package (subscription_plans db) s.

Lemma wp_keep_packages subs (Q : result (list UserSubscription) → DB → Prop) db :
  (∀ out, (∀ s, s ∈ out ↔ s ∈ subs ∧ package (subscription_plans db) s) → Q (Ok out) db) →
  (∀ e, Q (Err e) db) → wp (keep_packages subs) Q db.
Proof.
  intros HOk HErr. revert Q HOk HErr. induction subs as [|s subs IH]; intros Q HOk HErr; cbn.
  - wp_step. apply HOk. set_solver.
  - wp_step. apply wp_get_plan; [|auto]. intros plan Hplan. wp_step. apply IH; [|auto].
    intros out Hout. wp_step. apply HOk. intros x.
    assert (package (subscription_plans db) s ↔ IsValuePackage (normalizeValuePackagePlan plan) = true) as Hpk.
    { unfold package. rewrite Hplan. split; [by intros (? & [= <-] & ?)|eauto]. }
    destruct (IsValuePackage (normalizeValuePackagePlan plan)); rewrite ?elem_of_cons, Hout; naive_solver.
Qed.

(** The best of the packages seen. *)
Definition best_of (plans : table SubscriptionPlan) (seen : list UserSubscription)
    (best : option (UserSubscription * SubscriptionPlan)) : Prop :=
  match best with
  | None => seen = []
  | Some (s, p) => s ∈ seen ∧ plan_of plans (us_PlanId s) = Some p ∧
      ∀ s' p', s' ∈ seen → plan_of plans (us_PlanId s') = Some p' → sp_PackageLevel p' ≤ sp_PackageLevel p
  end.

Lemma wp_highest_package subs seen best
    (Q : result (option (UserSubscription * SubscriptionPlan)) → DB → Prop) db :
  best_of (subscription_plans db) seen best →
  (∀ r, best_of (subscription_plans db) (seen ++ subs) r → Q (Ok r) db) →
  (∀ e, Q (Err e) db) → wp (highest_package subs best) Q db.
Proof.
  intros Hbest HOk HErr. revert seen best Hbest HOk.
  induction subs as [|s subs IH]; intros seen best Hbest HOk; cbn.
  - wp_step. apply HOk. by rewrite app_nil_r.
  - wp_step. apply wp_get_plan; [|auto]. intros plan Hplan. cbv zeta.
    apply (IH (seen ++ [s])); [|by rewrite <-app_assoc].
    destruct best as [[bs bp]|].
    2:{ rewrite Hbest. split_and!; [by left|done|].
        intros s' p' ->%list_elem_of_singleton Hp'. rewrite Hplan in Hp'. by injection Hp' as <-. }
    destruct Hbest as (Hin & Hp & Hmax). case_bool_decide as Hbetter; cbn.
    + split_and!; [apply elem_of_app; right; by left|done|].
      intros s' p' [Hs'| ->%list_elem_of_singleton]%elem_of_app Hp'.
      * specialize (Hmax s' p' Hs' Hp'). lia.
      * rewrite Hplan in Hp'. injection Hp' as <-. lia.
    + split_and!; [apply elem_of_app; by left|done|].
      intros s' p' [Hs'| ->%list_elem_of_singleton]%elem_of_app Hp'.
      * by apply (Hmax s').
      * rewrite Hplan in Hp'. injection Hp' as <-. lia.
Qed.

Lemma wp_highest userId now (Q : result (option (UserSubscription * SubscriptionPlan)) → DB → Prop) db :
  (∀ s p, held db userId now s → plan_of (subscription_plans db) (us_PlanId s) = Some p →
     (∀ s' p', held db userId now s' → plan_of (subscription_plans db) (us_PlanId s') = Some p' →
        sp_PackageLevel p' ≤ sp_PackageLevel p) → Q (Ok (Some (s, p))) db) →
  ((∀ s, ¬ held db userId now s) → Q (Ok None) db) →
  (∀ e, Q (Err e) db) → wp (getHighestActiveValuePackageTx userId now) Q db.
Proof.
  intros HSome HNone HErr. unfold getHighestActiveValuePackageTx, getActiveValuePackageSubscriptionsTx.
  wp_step. wp_step. wp_step. apply wp_keep_packages; [|auto]. intros out Hout.
  assert (∀ s, s ∈ out ↔ held db userId now s) as Hheld.
  { intros s. rewrite Hout. unfold order_by, held. rewrite merge_sort_Permutation, where_elem. naive_solver. }
  apply (wp_highest_package _ []); [done| |auto]. cbn. intros [[s p]|].
  - intros (Hin & Hp & Hmax). apply HSome; [by apply Hheld|done|]. intros s' p' Hs'%Hheld. by apply Hmax.
  - intros ->. apply HNone. intros s Hs%Hheld. set_solver.
Qed.

(** ** An extension *)

(** The tables an extension or a cycle change leaves alone. *)
Record package_frame (db db' : DB) : Prop := {
  fr_users : users db' = users db;
  fr_plans : subscription_plans db' = subscription_plans db;
  fr_prefs : value_package_preferences db' = value_package_preferences db;
  fr_usage : usage_records db' = usage_records db;
  fr_ledgers : reset_count_ledgers db' = reset_count_ledgers db;
  fr_pre : pre_consume_records db' = pre_consume_records db;
  fr_orders : subscription_orders db' = subscription_orders db;
  fr_topups : top_ups db' = top_ups db;
}.

Lemma package_frame_refl db : package_frame db db.
Proof. by split. Qed.

Lemma package_frame_trans db1 db2 db3 : package_frame db1 db2 → package_frame db2 db3 → package_frame db1 db3.
Proof. intros [] []. split; congruence. Qed.

Lemma package_frame_requests db db' : package_frame db db' → same_requests db db'.
Proof. intros []. by split. Qed.

Lemma package_frame_cards db db' :
  package_frame db db' → (cards_ok db → cards_ok db') ∧ ∀ u, cards db' u = cards db u.
Proof. intros []. by apply cards_ext. Qed.

Lemma frame_advance env s plan now db :
  wp (maybeAdvanceValuePackageCycleTx env s plan now) (λ _ db', package_frame db db') db.
Proof.
  unfold maybeAdvanceValuePackageCycleTx, create_quota_reset, save_subscription.
  wp_steps; by split.
Qed.

(** The state an extension leaves the subscription in, from the state [s1] after
    the cycle check. *)
Definition extension (env : Env) (db1 : DB) (s1 s' : UserSubscription) (plan : SubscriptionPlan)
    (now purchasedEnd : Z) : Prop :=
  let usage := buildValuePackageUsageSummaryFromDetails s1 plan (package_details db1 now s1 plan) in
  if decide (valuePackageRenewalExhaustedReason (quota_per_unit env) usage = "") then
    us_EndTime s' = us_EndTime s1 + (purchasedEnd - now) ∧ us_StartTime s' = us_StartTime s1 ∧
    us_AmountTotal s' = us_AmountTotal s1 ∧ us_AmountUsed s' = us_AmountUsed s1 ∧
    us_QuotaEpoch s' = us_QuotaEpoch s1
  else
    us_EndTime s' = purchasedEnd ∧ us_StartTime s' = now ∧ us_AmountTotal s' = sp_TotalAmount plan ∧
    us_AmountUsed s' = 0 ∧ us_QuotaEpoch s' = us_QuotaEpoch s1 + 1.

Record extended (env : Env) (db db1 db' : DB) (s s1 s' : UserSubscription) (plan : SubscriptionPlan)
    (now purchasedEnd : Z) : Prop := {
  ex_advanced : advanced db db1 s s1;
  ex_frame : package_frame db db';
  ex_same : same_sub s s';
  ex_user : us_UserId s' = us_UserId s;
  ex_status : us_Status s' = us_Status s;
  ex_state : extension env db1 s1 s' plan now purchasedEnd;
  ex_subs : user_subscriptions db' = save s' (user_subscriptions db);
}.

Lemma sync_fields s plan :
  let s' := syncValuePackageCycleSchedule s plan in
  (us_Id s' = us_Id s ∧ us_UserId s' = us_UserId s ∧ us_PlanId s' = us_PlanId s ∧
   us_Status s' = us_Status s) ∧
  us_AmountTotal s' = us_AmountTotal s ∧ us_AmountUsed s' = us_AmountUsed s ∧
  us_QuotaEpoch s' = us_QuotaEpoch s ∧ us_StartTime s' = us_StartTime s ∧ us_EndTime s' = us_EndTime s.
Proof.
  unfold syncValuePackageCycleSchedule. case_decide; [by split_and!|].
  destruct (decide (us_LastResetTime s < us_StartTime s)); cbn; case_decide; by split_and!.
Qed.

Lemma wp_summary_locked {B : PostBilled} env userId id now s plan
    (Q : result (option ValuePackageUsageSummary) → DB → Prop) db :
  Accounting db → locked db userId id now s plan → 0 < now →
  Q (Ok (Some (buildValuePackageUsageSummaryFromDetails s plan (package_details db now s plan)))) db →
  wp (buildValuePackageUsageSummaryTx env userId s plan now) Q db.
Proof.
  intros Hacc Hl Hnow HQ. unfold buildValuePackageUsageSummaryTx.
  pose proof (wf_elem _ s (ac_subs _ _ _ _ Hacc) (lk_elem _ _ _ _ _ _ Hl)) as Hid. cbn in Hid.
  rewrite !decide_False by lia. wp_step.
  apply (wp_details_locked _ _ _ _ s plan); [done| |done|].
  - destruct Hl. by split.
  - wp_step. exact HQ.
Qed.

Lemma wp_advance_frame {B : PostBilled} env s plan now (Q : result UserSubscription → DB → Prop) db :
  Accounting db → s ∈ rows (user_subscriptions db) →
  (∀ s' db', Accounting db' → s' ∈ rows (user_subscriptions db') → advanced db db' s s' →
     package_frame db db' → Q (Ok s') db') →
  (∀ e, Q (Err e) db) →
  wp (maybeAdvanceValuePackageCycleTx env s plan now) Q db.
Proof.
  intros Hacc Hs HOk HErr. pose proof (frame_advance env s plan now db) as Hfr.
  unfold wp in Hfr |- *. destruct (maybeAdvanceValuePackageCycleTx env s plan now db) as [r db'] eqn:E.
  cbn in *. revert Hfr. pattern r, db'. refine (wp_run _ _ _ _ _ _ E). apply wp_advance; [done|done| |auto].
  intros s' db2 Hacc2 Hs2 Had Hfr. by apply HOk.
Qed.

Lemma extended_state env db1 s1 plan now purchasedEnd :
  0 < now → now < purchasedEnd ≤ max_int64 → now < us_EndTime s1 ≤ max_int64 - (purchasedEnd - now) →
  let s' := (extended_subscription env s1 plan (us_EndTime s1) (purchasedEnd - now))
              <| us_UpdatedAt := app_now env |> in
  valuePackageRenewalExhaustedReason (quota_per_unit env)
    (buildValuePackageUsageSummaryFromDetails s1 plan (package_details db1 now s1 plan)) = "" →
  extension env db1 s1 s' plan now purchasedEnd.
Proof.
  intros Hn Hp He s' Hr. unfold extension. rewrite decide_True by done. unfold s', extended_subscription.
  destruct (sync_fields (s1 <| us_EndTime := us_EndTime s1 +! (purchasedEnd - now) |>) plan)
    as (_ & Ht & Hu & Hq & Hs & Hend). cbn in *. rewrite Ht, Hu, Hq, Hs, Hend. split_and!; try done.
  unwrap. lia.
Qed.

Lemma extended_keeps env plan base duration :
  keeps_books (λ s, (extended_subscription env s plan base duration) <| us_UpdatedAt := app_now env |>).
Proof.
  unfold extended_subscription.
  split; intros s; destruct (sync_fields (s <| us_EndTime := base +! duration |>) plan)
    as ((Hi & _ & Hp & _) & Ht & Hu & Hq & _); done.
Qed.

Lemma extended_identity env s plan base duration :
  let s' := extended_subscription env s plan base duration in
  us_UserId s' = us_UserId s ∧ us_Status s' = us_Status s.
Proof.
  unfold extended_subscription.
  by destruct (sync_fields (s <| us_EndTime := base +! duration |>) plan) as ((_ & Hu & _ & Hs) & _).
Qed.

Lemma advanced_save db db1 s s1 s' :
  advanced db db1 s s1 → us_Id s' = us_Id s →
  save s' (user_subscriptions db1) = save s' (user_subscriptions db).
Proof.
  intros [_ _ _ _ _ _ _ [Hid _ _] [[-> ->]|(_ & _ & ->)]] H; [done|]. apply save_save. congruence.
Qed.

(** Saving the row an extension computes. *)
Lemma extended_saved {B : PostBilled} env db db1 db' s s1 s' plan now purchasedEnd :
  Accounting db1 → s1 ∈ rows (user_subscriptions db1) → advanced db db1 s s1 → package_frame db db1 →
  package_frame db1 db' → user_subscriptions db' = save s' (user_subscriptions db1) →
  same_sub s1 s' → us_UserId s' = us_UserId s1 → us_Status s' = us_Status s1 →
  sub_ok (subscription_plans db1) (usage_records db1) s' →
  extension env db1 s1 s' plan now purchasedEnd →
  Accounting db' ∧ s' ∈ rows (user_subscriptions db') ∧
  extended env db db1 db' s s1 s' plan now purchasedEnd.
Proof.
  intros Hacc1 Hs1 Had Hf1 Hf2 Hsubs Hsame Hu Hst Hok Hext.
  pose proof (ad_same _ _ _ _ Had) as [Hid Hpl Hep]. destruct Hsame as [Hid' Hpl' Hep'].
  split_and!.
  - unfold Accounting. rewrite Hsubs, (fr_plans _ _ Hf2), (fr_usage _ _ Hf2), (fr_pre _ _ Hf2).
    by apply (accounting_save _ _ _ _ s1).
  - rewrite Hsubs. by apply (elem_of_save_new _ s1).
  - split; [done|by eapply package_frame_trans| | | |done|].
    + split; [congruence|congruence|lia].
    + rewrite Hu. apply (ad_user _ _ _ _ Had).
    + rewrite Hst. apply (ad_status _ _ _ _ Had).
    + rewrite Hsubs. apply (advanced_save _ _ s s1); [done|congruence].
Qed.

Lemma wp_extend {B : PostBilled} env userId id plan now purchasedEnd s
    (Q : result UserSubscription → DB → Prop) db :
  Accounting db → locked db userId id now s plan → now < purchasedEnd ≤ max_int64 →
  us_EndTime s ≤ max_int64 → sp_TotalAmount plan ≤ max_int64 →
  (∀ s1 s' db1 db', Accounting db' → s' ∈ rows (user_subscriptions db') →
     extended env db db1 db' s s1 s' plan now purchasedEnd → Q (Ok s') db') →
  (∀ e db', Q (Err e) db') →
  wp (extendValuePackageSubscriptionTx env id plan now purchasedEnd) Q db.
Proof.
  intros Hacc Hl Hp Hend Htot HOk HErr. unfold extendValuePackageSubscriptionTx.
  wp_guard as _; [apply HErr|]. wp_guard as _; [apply HErr|]. cbv zeta. wp_guard as Hdur; [apply HErr|].
  wp_step. wp_step. wp_step. apply wp_or_error; [|intros; apply HErr].
  intros s0 [Hs0 Hid0]%by_id_Some.
  assert (s0 = s) as ->.
  { apply (wf_row_eq (user_subscriptions db)); [apply Hacc|done|apply Hl|].
    pose proof (lk_id _ _ _ _ _ _ Hl). cbn in *. congruence. }
  wp_guard as _; [apply HErr|]. wp_step.
  apply wp_advance_frame; [done|apply Hl| |intros; apply HErr]. intros s1 db1 Hacc1 Hs1 Had Hfr.
  pose proof (advanced_locked _ _ _ _ _ _ _ _ Hl Hs1 Had) as Hl1. wp_step.
  rewrite (lk_user _ _ _ _ _ _ Hl1). apply (wp_summary_locked _ userId id now); [done|done|lia|].
  cbn [from_option]. set (usage := buildValuePackageUsageSummaryFromDetails _ _ _).
  wp_step.
  - wp_guard as Hmax; [apply HErr|]. unfold create_quota_reset, save_subscription.
    wp_step. wp_step. wp_step. wp_step. wp_step.
    assert (Hep : us_QuotaEpoch s1 +! 1 = us_QuotaEpoch s1 + 1).
    { pose proof (so_epoch _ _ _ (sub_of db1 s1 Hacc1 Hs1)). unwrap. done. }
    match goal with |- Q (Ok ?r) ?d => edestruct (extended_saved env db db1 d s s1 r plan now purchasedEnd)
      as (? & ? & ?); [done..|split; cbn; [done|done|lia]|done|done| | |eauto] end.
    + apply (sub_ok_renewed _ _ s1); cbn; try done; [apply Hacc1|by apply sub_of|split; cbn; [done|done|lia]|].
      pose proof (so_epoch _ _ _ (sub_of db1 s1 Hacc1 Hs1)) as [_ ?]. lia.
    + unfold extension. fold usage. rewrite decide_False by done. cbn. by rewrite Hep.
  - cbv zeta. pose proof (lk_end _ _ _ _ _ _ Hl1) as Hend1. pose proof (ad_end _ _ _ _ Had) as Had1.
    rewrite (decide_False (P := us_EndTime s1 < now)) by lia.
    wp_guard as Hover; [apply HErr|]. unwrap.
    unfold save_subscription. wp_step. wp_step. wp_step.
    pose proof (extended_keeps env plan (us_EndTime s1) (purchasedEnd - now)) as Hkeep.
    destruct (extended_identity env s1 plan (us_EndTime s1) (purchasedEnd - now)) as [Hu Hst].
    match goal with |- Q (Ok ?r) ?d => edestruct (extended_saved env db db1 d s s1 r plan now purchasedEnd)
      as (? & ? & ?); [done..| |exact Hu|exact Hst| | |eauto] end.
    + split; [apply (kb_id _ Hkeep)|apply (kb_plan _ Hkeep)|by rewrite (kb_epoch _ Hkeep)].
    + apply (sub_ok_keeps _ _ _ _ Hkeep). by apply sub_of.
    + apply extended_state; [lia|done|lia|]. by apply dec_stable.
Qed.

(** ** A purchase *)

(** The package a user's preference selects. *)
Definition selects (db : DB) (userId id : Z) : Prop :=
  ∃ p, preference_of userId db = Some p ∧ vp_Enabled p = true ∧ vp_ActiveUserSubscriptionId p = id.

Lemma frame_grant env userId count source actor note id db :
  selects db userId id →
  wp (grantValuePackageResetCountTx env userId count source actor note)
    (λ r db', is_ok r → selects db' userId id) db.
Proof.
  intros (p & Hp & He & Ha). unfold grantValuePackageResetCountTx, ensureValuePackagePreferenceForUpdateTx,
    set_reset_count, update_preference, create_ledger.
  wp_guard as _; [done|]. wp_guard as _; [done|]. wp_step. wp_guard as _; [done|]. wp_step. wp_step.
  rewrite Hp. wp_steps. intros _. exists (sets_count env (vp_ResetCount p +! count) p).
  split; [|done]. unfold preference_of in *. cbn [value_package_preferences].
  cbn -[first update_where]. rewrite first_update_user by done. rewrite Hp. cbn.
  by rewrite (decide_True (P := vp_UserId p = userId)) by (by apply (preference_user userId db)).
Qed.

Lemma upserted_selects env db db' userId id pref :
  id > 0 → preference_of userId db' = Some pref → upserted env db userId true id pref →
  selects db' userId id.
Proof.
  intros Hid Hp Hup. exists pref. split; [done|]. unfold upserted in Hup.
  destruct (preference_of userId db); subst pref; [|done].
  unfold preference_assign. cbn. by rewrite decide_True by (by left).
Qed.

Lemma clamp_gift count : 0 ≤ ClampSubscriptionPlanGiftResetCount count ≤ 100.
Proof. unfold ClampSubscriptionPlanGiftResetCount, MaxSubscriptionPlanGiftResetCount. repeat case_decide; lia. Qed.

Lemma clamp_gift_idem count :
  ClampSubscriptionPlanGiftResetCount (ClampSubscriptionPlanGiftResetCount count) =
  ClampSubscriptionPlanGiftResetCount count.
Proof.
  pose proof (clamp_gift count). set (c := ClampSubscriptionPlanGiftResetCount count) in *.
  unfold ClampSubscriptionPlanGiftResetCount, MaxSubscriptionPlanGiftResetCount. repeat case_decide; lia.
Qed.

Lemma wp_after_purchase env userId id plan count note (Q : result () → DB → Prop) db :
  let gift := ClampSubscriptionPlanGiftResetCount count in
  cards_ok db → IsValuePackage plan = true → cards db userId + gift ≤ max_int64 →
  (∀ db', same_books db db' → cards_ok db' → moves_cards db db' userId gift →
     selects db' userId id → Q (Ok tt) db') →
  (∀ e db', Q (Err e) db') →
  wp (ensureValuePackagePreferenceAfterPurchaseTx env userId id plan count note) Q db.
Proof.
  intros gift Hok Hv Hfit HOk HErr. unfold ensureValuePackagePreferenceAfterPurchaseTx.
  wp_guard as Hargs; [apply HErr|]. wp_step. apply wp_upsert_preference. intros pref db1 Hk Hp Hup.
  apply (upserted_selects _ _ db1) in Hup; [|lia|done]. rewrite Hv. cbv zeta. fold gift. pose proof (kc_ok _ _ Hk Hok) as Hok1. pose proof (kc_cards _ _ Hk userId) as Hc.
  wp_step.
  - wp_step. apply HOk; [apply Hk|done| |done]. intros u. rewrite (kc_cards _ _ Hk u). case_decide; lia.
  - wp_step. pose proof (frame_grant env userId gift ValuePackageResetCountLedgerSourcePlanGift userId note
      id db1 Hup) as Hfr.
    unfold wp in Hfr |- *. destruct (grantValuePackageResetCountTx env userId gift _ userId note db1)
      as [r db2] eqn:E. cbn in *. revert Hfr. pattern r, db2. refine (wp_run _ _ _ _ _ _ E).
    apply wp_grant; [done|lia| |intros; apply HErr]. intros p' db' _ Hb Hok' Hm Hsel. cbn.
    apply HOk; [by eapply same_books_trans; [apply Hk|]|done|by eapply keeps_moves|by apply Hsel].
Qed.

Lemma normalize_id p : sp_Id (normalizeValuePackagePlan p) = sp_Id p.
Proof.
  unfold normalizeValuePackagePlan. cbv zeta.
  match goal with |- context [normalizeValuePackageFixedDurationFields ?q] =>
    pose proof (proj1 (fixed_duration_frame q)) as Hid; revert Hid;
    generalize (normalizeValuePackageFixedDurationFields q) end.
  intros q Hid. exact Hid.
Qed.

Lemma defaults_id p : sp_Id (NormalizeDefaults p) = sp_Id p.
Proof.
  unfold NormalizeDefaults. cbv zeta. destruct (decide (sp_PlanKind _ = _)); [|reflexivity].
  match goal with |- context [normalizeValuePackageFixedDurationFields ?q] =>
    pose proof (proj1 (fixed_duration_frame q)) as Hid; revert Hid;
    generalize (normalizeValuePackageFixedDurationFields q) end.
  intros q Hid. exact Hid.
Qed.

Lemma plan_of_id plans id p : plan_of plans id = Some p → sp_Id p = id.
Proof.
  unfold plan_of. case_decide; [done|]. destruct (by_id id plans) as [q|] eqn:E; [|done].
  intros [= <-]. apply by_id_Some in E as [_ <-]. by rewrite normalize_id, !defaults_id.
Qed.

(** The packages after a purchase: the one bought is held, and it is the only one
    of its user if there was at most one before. *)
Record package_placed {B : PostBilled} (db db' : DB) (userId now : Z) (plan : SubscriptionPlan) (sub : UserSubscription) : Prop := {
  pp_accounting : Accounting db';
  pp_frame : package_frame db db';
  pp_held : held db' userId now sub;
  pp_plan : us_PlanId sub = sp_Id plan;
  pp_single : (∀ s1 s2, held db userId now s1 → held db userId now s2 → s1 = s2) →
    ∀ s, held db' userId now s → s = sub;
  pp_others : ∀ s, us_UserId s ≠ userId →
    (s ∈ rows (user_subscriptions db') ↔ s ∈ rows (user_subscriptions db));
}.

Section Place.
Context {B : PostBilled} (env : Env) (userId now endUnix : Z) (plan : SubscriptionPlan) (source : string) (db : DB).
Hypothesis Hacc : Accounting db.
Hypothesis Hplan : plan_of (subscription_plans db) (sp_Id plan) = Some plan.
Hypothesis Hvp : IsValuePackage plan = true.
Hypothesis Htotal : sp_TotalAmount plan ≤ max_int64.
Hypothesis Hend : now < endUnix ≤ max_int64.

(** A package row as created. *)
Record bought (b : UserSubscription) : Prop := {
  bo_user : us_UserId b = userId;
  bo_plan : us_PlanId b = sp_Id plan;
  bo_total : us_AmountTotal b = sp_TotalAmount plan;
  bo_used : us_AmountUsed b = 0;
  bo_epoch : us_QuotaEpoch b = 0;
  bo_end : us_EndTime b = endUnix;
  bo_status : us_Status b = UserSubscriptionStatusActive;
}.

Lemma new_package_bought :
  bought ((new_package userId plan source now endUnix) <| us_CreatedAt := app_now env |>
            <| us_UpdatedAt := app_now env |>).
Proof.
  unfold new_package.
  match goal with |- context [syncValuePackageCycleSchedule ?x ?y] =>
    destruct (sync_fields x y) as ((_ & ? & ? & ?) & ? & ? & ? & ? & ?);
    generalize dependent (syncValuePackageCycleSchedule x y) end.
  intros x. cbn. by split.
Qed.

Lemma bought_held db' b sub subs :
  bought b → subscription_plans db' = subscription_plans db → sub ∈ rows (user_subscriptions db') →
  sub = inserted b subs → held db' userId now sub.
Proof.
  intros [Hu Hpl _ _ _ He Hst] Hp Hin ->. unfold held, package. cbn [us_UserId us_Status us_EndTime us_PlanId].
  split_and!; [done|done|done|cbn; lia|]. exists plan. cbn. by rewrite Hp, Hpl.
Qed.

(** A first package. *)
Lemma place_new (Q : result UserSubscription → DB → Prop) :
  (∀ s, ¬ held db userId now s) →
  (∀ sub db', package_placed db db' userId now plan sub → Q (Ok sub) db') →
  wp (create_subscription env (new_package userId plan source now endUnix)) Q db.
Proof.
  intros Hnone HQ. unfold create_subscription. wp_step. wp_step. pose proof new_package_bought as Hb.
  generalize dependent ((new_package userId plan source now endUnix) <| us_CreatedAt := app_now env |>
            <| us_UpdatedAt := app_now env |>). intros b Hb. pose proof Hb as [Hu Hpl Ht H0 He _ _].
  wp_steps. apply HQ. split.
  - unfold Accounting. apply accounting_insert; [done|done|lia|exact Hacc].
  - by split.
  - apply (bought_held _ b _ (user_subscriptions db)); [done|done| |done]. apply elem_of_insert_row. by right.
  - done.
  - intros _ s (Hs & Hrest). apply elem_of_insert_row in Hs as [Hs| ->]; [|done].
    by destruct (Hnone s).
  - intros s Hs. cbn -[insert_row]. rewrite elem_of_insert_row.
    split; [|auto]. intros [?| ->]; [done|]. by destruct Hs.
Qed.

(** A package that covers the current one. *)
Definition covers (c : Z) (f g : UserSubscription → UserSubscription) (b : UserSubscription)
    (subs : table UserSubscription) : table UserSubscription :=
  update_where (λ s, us_Id s = c) g (insert_row b (update_where (λ s, us_Id s = c) f subs)).

Lemma elem_of_covers c f g b subs s :
  (∀ x, us_Id (f x) = us_Id x) → c < next_id subs →
  s ∈ rows (covers c f g b subs) ↔
  (s ∈ rows subs ∧ us_Id s ≠ c) ∨ s = inserted b subs ∨ ∃ x, x ∈ rows subs ∧ us_Id x = c ∧ s = g (f x).
Proof.
  intros Hf Hc. unfold covers. rewrite elem_of_update_where. setoid_rewrite elem_of_insert_row.
  setoid_rewrite elem_of_update_where. change (inserted b (update_where _ f subs)) with (inserted b subs).
  assert (us_Id (inserted b subs) ≠ c) as Hnew by (change (next_id subs ≠ c); lia).
  split.
  - intros [[[[?|(x & ? & Hx & ->)]|?] Hn]|(y & [[[? ?]|(x & ? & Hx & ->)]| ->] & Hy & ->)].
    + naive_solver.
    + by rewrite Hf in Hn.
    + auto.
    + done.
    + right. right. exists x. by rewrite Hf in Hy.
    + done.
  - intros [[? ?]|[->|(x & ? & Hx & ->)]].
    + left. naive_solver.
    + left. naive_solver.
    + right. exists (f x). rewrite Hf. naive_solver.
Qed.

Lemma held_user cur x :
  held db userId now cur → x ∈ rows (user_subscriptions db) → us_Id x = us_Id cur → us_UserId x = userId.
Proof.
  intros (Hin & <- & _) Hx Hid. f_equal. by apply (wf_row_eq (user_subscriptions db)); [apply Hacc|..].
Qed.

Lemma place_cover (cur : UserSubscription) (Q : result UserSubscription → DB → Prop) :
  held db userId now cur →
  (∀ sub db', package_placed db db' userId now plan sub → Q (Ok sub) db') →
  wp (_ ← update_subscription env (us_Id cur) (λ s, s <| us_Status := UserSubscriptionStatusCovered |>
            <| us_CoveredTime := now |>);
      sub ← create_subscription env (new_package userId plan source now endUnix);
      _ ← update_subscription env (us_Id cur) (λ s, s <| us_CoveredBySubscriptionId := us_Id sub |>);
      mret sub) Q db.
Proof.
  intros Hcur HQ. unfold create_subscription, update_subscription. wp_step. wp_step. wp_step. wp_step. wp_step.
  pose proof new_package_bought as Hb.
  generalize dependent ((new_package userId plan source now endUnix) <| us_CreatedAt := app_now env |>
            <| us_UpdatedAt := app_now env |>). intros b Hb. pose proof Hb as [Hu Hpl Ht H0 He _ _].
  set (f := λ s : UserSubscription, (s <| us_Status := _ |> <| us_CoveredTime := now |>) <| us_UpdatedAt := app_now env |>).
  wp_step. wp_step. wp_step. wp_step. wp_step. wp_step.
  set (g := λ s : UserSubscription, (s <| us_CoveredBySubscriptionId := _ |>) <| us_UpdatedAt := app_now env |>).
  assert (Hc : us_Id cur < next_id (user_subscriptions db)).
  { by destruct (wf_elem (user_subscriptions db) cur) as [_ ?]; [apply Hacc|apply Hcur|]. }
  pose proof (λ s, elem_of_covers (us_Id cur) f g b (user_subscriptions db) s (λ _, eq_refl) Hc) as Helem.
  apply HQ. split.
  - unfold Accounting. cbn -[update_where insert_row].
    apply accounting_update; [by split|]. apply accounting_insert; [done|done|lia|].
    apply accounting_update; [by split|exact Hacc].
  - by split.
  - apply (bought_held _ b _ (user_subscriptions db)); [done|done| |done]. apply Helem. by right; left.
  - done.
  - intros Hone s (Hs & Hsu & Hst & Hse & Hsp). apply Helem in Hs as [[Hs Hne]|[->|(x & Hx & Hxid & ->)]]; [|done|done].
    destruct Hne. f_equal. apply Hone; [by split_and!|done].
  - intros s Hs. rewrite (Helem s). split.
    + intros [[? _]|[->|(x & Hx & Hxid & ->)]]; [done|by destruct Hs|]. destruct Hs. by apply (held_user cur x).
    + intros Hin. left. split; [done|]. intros Hid. destruct Hs. by apply (held_user cur s).
Qed.

(** An extension of the current package. *)
Lemma place_extend (cur : UserSubscription) (Q : result UserSubscription → DB → Prop) :
  held db userId now cur → us_PlanId cur = sp_Id plan → us_EndTime cur ≤ max_int64 →
  (∀ sub db', package_placed db db' userId now plan sub → Q (Ok sub) db') →
  (∀ e db', Q (Err e) db') →
  wp (extendValuePackageSubscriptionTx env (us_Id cur) plan now endUnix) Q db.
Proof.
  intros Hcur Hpl Hce HQ HErr. pose proof Hcur as (Hin & Hu & Hst & He & Hpk).
  apply (wp_extend env userId (us_Id cur) plan now endUnix cur); try done.
  { split; try done. by rewrite Hpl. }
  intros s1 s' db1 db' Hacc' Hs' [Had Hfr [Hid Hpl' _] Hu' Hst' Hext Hsubs].
  assert (Hend' : us_EndTime s' > now).
  { unfold extension in Hext. pose proof (ad_end _ _ _ _ Had).
    destruct (decide _); destruct Hext as (-> & _); lia. }
  apply HQ. split; [done|done| |congruence| |].
  - split_and!; [done|congruence|congruence|done|]. exists plan. by rewrite (fr_plans _ _ Hfr), Hpl', Hpl.
  - intros Hone s (Hs & Hsu & Hss & Hse & Hsp). rewrite Hsubs in Hs.
    apply elem_of_save in Hs as [[Hs Hne]| ->]; [|done].
    destruct Hne. rewrite Hid. f_equal. apply Hone; [|done].
    split_and!; try done. by rewrite <-(fr_plans _ _ Hfr).
  - intros s Hs. rewrite Hsubs. unfold save. rewrite elem_of_update_where. split.
    + intros [[? _]|(x & _ & _ & ->)]; [done|]. by destruct Hs; rewrite Hu'.
    + intros Hsin. left. split; [done|]. cbn. rewrite Hid. intros Hsid. destruct Hs. by apply (held_user cur s).
Qed.
End Place.

(** The machine-integer bounds of a purchase: the total of the plan, the end of
    the period bought, the ends of the subscriptions held and the cards. *)
Record purchase_fits (env : Env) (db : DB) (userId : Z) (plan : SubscriptionPlan) : Prop := {
  ft_total : sp_TotalAmount plan ≤ max_int64;
  ft_now : db_now env + 30 * day_seconds ≤ max_int64;
  ft_ends : Forall (λ s, us_EndTime s ≤ max_int64) (rows (user_subscriptions db));
  ft_cards : cards db userId + 100 ≤ max_int64;
}.

(** The plan bought is a stored value package of a known type. *)
Record on_sale (db : DB) (plan : SubscriptionPlan) : Prop := {
  os_stored : plan_of (subscription_plans db) (sp_Id plan) = Some plan;
  os_type : is_Some (package_days (sp_PackageType plan));
}.

(** What a purchase that comes with [gift] reset cards does. *)
Record purchased {B : PostBilled} (env : Env) (db db' : DB) (userId : Z) (plan : SubscriptionPlan) (gift : Z)
    (sub : UserSubscription) : Prop := {
  pd_accounting : Accounting db';
  pd_cards : cards_ok db';
  pd_gift : moves_cards db db' userId (ClampSubscriptionPlanGiftResetCount gift);
  pd_selected : selects db' userId (us_Id sub);
  pd_held : held db' userId (db_now env) sub;
  pd_plan : us_PlanId sub = sp_Id plan;
  pd_single : (∀ s1 s2, held db userId (db_now env) s1 → held db userId (db_now env) s2 → s1 = s2) →
    ∀ s, held db' userId (db_now env) s → s = sub;
  pd_others : ∀ s, us_UserId s ≠ userId →
    (s ∈ rows (user_subscriptions db') ↔ s ∈ rows (user_subscriptions db));
}.

Lemma on_sale_end env db plan endUnix :
  on_sale db plan → IsValuePackage plan = true →
  calcPlanEndTime (local_offset env) (db_now env) plan = Ok endUnix →
  db_now env < endUnix ≤ db_now env + 30 * day_seconds.
Proof.
  intros [Hst [days Hd]] Hv Hend.
  assert (plan_normal plan) as Hn.
  { unfold plan_of in Hst. case_decide; [done|]. destruct (by_id _ _); [|done].
    injection Hst as <-. apply normalizeValuePackagePlan_normal. }
  destruct (package_cycle_end (local_offset env) (db_now env) plan days Hn Hv Hd) as [Hc He].
  rewrite Hend in He. injection He as ->. rewrite Hc. unfold package_days in Hd.
  assert (1 ≤ days ≤ 30) by (repeat case_decide; simplify_eq; lia). lia.
Qed.

Lemma placed_purchased {B : PostBilled} env db db1 db' userId plan gift sub :
  package_placed db db1 userId (db_now env) plan sub → same_books db1 db' → cards_ok db' →
  moves_cards db1 db' userId (ClampSubscriptionPlanGiftResetCount gift) →
  selects db' userId (us_Id sub) → purchased env db db' userId plan gift sub.
Proof.
  intros [Hacc Hfr Hheld Hpl Hone Hoth] Hb Hok Hm Hsel.
  assert (Hh : ∀ s, held db' userId (db_now env) s ↔ held db1 userId (db_now env) s).
  { intros s. destruct Hb as [[Hp _ _] Hs]. unfold held. by rewrite Hp, Hs. }
  split; [by eapply same_books_accounting|done| |done|by apply Hh|done| |].
  - intros u. rewrite (Hm u). by rewrite (proj2 (package_frame_cards _ _ Hfr) u).
  - intros H1 s Hs%Hh. by apply Hone.
  - intros s Hs. rewrite (sb_subs _ _ Hb). by apply Hoth.
Qed.

(** What the check of a purchase finds. *)
Record intent_for (db : DB) (userId now : Z) (plan : SubscriptionPlan)
    (intent : ValuePackagePurchaseIntent) : Prop := {
  it_level : ∀ s p, held db userId now s → plan_of (subscription_plans db) (us_PlanId s) = Some p →
    sp_PackageLevel p ≤ sp_PackageLevel plan;
  it_case :
    (pi_Action intent = ValuePackagePurchaseActionCreate ∧ ∀ s, ¬ held db userId now s) ∨
    (∃ cur, pi_CurrentSubscription intent = Some cur ∧ held db userId now cur ∧
       (pi_Action intent = ValuePackagePurchaseActionExtend ∧ us_PlanId cur = sp_Id plan ∨
        pi_Action intent = ValuePackagePurchaseActionUpgrade));
}.

Lemma wp_intent env userId plan confirmed (Q : result ValuePackagePurchaseIntent → DB → Prop) db :
  plan_of (subscription_plans db) (sp_Id plan) = Some plan →
  (∀ intent, intent_for db userId (db_now env) plan intent → Q (Ok intent) db) →
  (∀ e, Q (Err e) db) →
  wp (checkValuePackagePurchaseIntentTx env userId plan confirmed) Q db.
Proof.
  intros Hplan HOk HErr. unfold checkValuePackagePurchaseIntentTx. wp_step. wp_step.
  destruct (validateValuePackagePlanLifecycleLimits plan); [|apply HErr]. wp_step.
  apply wp_highest; [| |auto].
  - intros cur p Hcur Hp Hmax. wp_step.
    + wp_step. apply HOk.
      assert (Hid : us_PlanId cur = sp_Id plan) by (pose proof (plan_of_id _ _ _ Hp); congruence).
      split; [|right; exists cur; auto]. intros s q Hs Hq.
      rewrite Hid, Hplan in Hp. injection Hp as <-. by apply (Hmax s).
    + wp_guard as Hlevel; [apply HErr|]. wp_step. apply HOk. split; [|right; exists cur; auto].
      intros s q Hs Hq. specialize (Hmax s q Hs Hq). lia.
  - intros Hnone. wp_step. apply HOk. split; [|by left]. intros s q Hs. by destruct (Hnone s).
Qed.

Lemma wp_place {B : PostBilled} env userId plan source endUnix intent (Q : result UserSubscription → DB → Prop) db :
  Accounting db → on_sale db plan → IsValuePackage plan = true → purchase_fits env db userId plan →
  calcPlanEndTime (local_offset env) (db_now env) plan = Ok endUnix →
  intent_for db userId (db_now env) plan intent →
  (∀ sub db', package_placed db db' userId (db_now env) plan sub → Q (Ok sub) db') →
  (∀ e db', Q (Err e) db') →
  wp (place_package env userId plan source (db_now env) endUnix intent) Q db.
Proof.
  intros Hacc Hsale Hv [Htot Hnow Hends Hfit] Hend [_ Hcase] HOk HErr.
  pose proof (on_sale_end env db plan endUnix Hsale Hv Hend) as Hrange. destruct Hsale as [Hst _].
  rewrite Forall_forall in Hends. unfold place_package.
  destruct Hcase as [[-> Hnone]|(cur & -> & Hcur & [[-> Hid]| ->])].
  - rewrite !decide_False, decide_True by done. apply place_new; try done. lia.
  - rewrite decide_True by done. apply place_extend with (userId := userId); try done; [lia|].
    apply Hends, Hcur.
  - rewrite decide_False, decide_True by done. apply place_cover; try done. lia.
Qed.

Lemma wp_purchase {B : PostBilled} env userId plan source (Q : result UserSubscription → DB → Prop) db :
  let np := normalizeValuePackagePlan plan in
  Accounting db → cards_ok db → on_sale db np → purchase_fits env db userId np →
  (∀ sub db' intent, intent_for db userId (db_now env) np intent →
     purchased env db db' userId np (sp_GiftResetCount np) sub → Q (Ok sub) db') →
  (∀ e db', Q (Err e) db') →
  wp (CreateValuePackageSubscriptionFromPlanTx env userId plan source) Q db.
Proof.
  intros np Hacc Hok Hsale Hfits HOk HErr. unfold CreateValuePackageSubscriptionFromPlanTx.
  wp_guard as _; [apply HErr|]. wp_guard as _; [apply HErr|]. cbv zeta. fold np.
  wp_guard as Hv%not_false_is_true; [apply HErr|]. wp_guard as _; [apply HErr|].
  unfold ensureExistingUserForUpdateTx. wp_step. wp_guard as _; [apply HErr|]. wp_step. wp_step. wp_step.
  apply wp_or_error; [|intros; apply HErr]. intros u _. wp_step. wp_step.
  apply wp_intent; [apply Hsale| |intros; apply HErr]. intros intent Hintent. wp_step. wp_step.
  destruct (calcPlanEndTime _ _ np) as [endUnix|e] eqn:Hend; [|apply HErr]. wp_step.
  apply wp_place; try done. intros sub db1 Hpl. wp_guard as _; [apply HErr|]. wp_step.
  destruct (package_frame_cards _ _ (pp_frame _ _ _ _ _ _ Hpl)) as [Hck Hcc].
  pose proof (clamp_gift (sp_GiftResetCount np)). pose proof (ft_cards _ _ _ _ Hfits).
  apply wp_after_purchase; rewrite ?clamp_gift_idem; [by apply Hck|done|rewrite Hcc; lia| |intros; apply HErr].
  intros db' Hb Hok' Hm Hsel. wp_step. apply (HOk _ _ intent); [done|]. by eapply placed_purchased.
Qed.

(** ** Properties *)

(** C20: a successful purchase of a stored value package leaves the books and the
    card ledger right, gives the user exactly the reset cards of the plan, selects
    the package bought for billing, and leaves the user holding that package and,
    if the user held at most one package before, no other; the subscriptions of
    other users are untouched. *)
Theorem purchase_holds_one env userId plan source db db' sub :
  let np := normalizeValuePackagePlan plan in
  Accounting db → cards_ok db → on_sale db np → purchase_fits env db userId np →
  CreateValuePackageSubscriptionFromPlanTx env userId plan source db = (Ok sub, db') →
  purchased env db db' userId np (sp_GiftResetCount np) sub.
Proof.
  intros np Hacc Hok Hsale Hfits Hrun.
  refine (wp_run _ (λ r d, match r with Ok s => purchased env db d userId np (sp_GiftResetCount np) s | Err _ => True end) _ _ _ _ Hrun).
  by apply wp_purchase.
Qed.

(** A package of a lower level cannot be bought over a higher one that is
    still in force: the purchase fails and, run in the transaction of an order,
    changes nothing. *)
Theorem purchase_lower_rejected env userId plan source db cur p :
  let np := normalizeValuePackagePlan plan in
  Accounting db → cards_ok db → on_sale db np → purchase_fits env db userId np →
  held db userId (db_now env) cur → plan_of (subscription_plans db) (us_PlanId cur) = Some p →
  sp_PackageLevel np < sp_PackageLevel p →
  ∃ e, transaction (CreateValuePackageSubscriptionFromPlanTx env userId plan source) db = (Err e, db).
Proof.
  intros np Hacc Hok Hsale Hfits Hcur Hp Hlevel.
  assert (Hwp : wp (CreateValuePackageSubscriptionFromPlanTx env userId plan source)
    (λ r _, ∃ e, r = Err e) db).
  { apply wp_purchase; [done..| |eauto]. intros sub db' intent Hin _. exfalso.
    pose proof (it_level _ _ _ _ _ Hin cur p Hcur Hp). subst np. lia. }
  unfold wp in Hwp. unfold transaction.
  destruct (CreateValuePackageSubscriptionFromPlanTx env userId plan source db) as [r d].
  destruct Hwp as [e He]. cbn in He. subst r. by exists e.
Qed.

(** An extension of a package in force whose quota is not used up adds
    exactly the time bought to its end and keeps its epoch, its usage and its
    total; one whose quota is used up starts a new epoch now with the total of the
    plan and the period bought.  The end never wraps around: an extension past the
    last representable second fails.  The accounting is kept and no other row
    changes. *)
Theorem extension_adds_time env userId id plan now purchasedEnd s s' db db' :
  Accounting db → locked db userId id now s plan → now < purchasedEnd ≤ max_int64 →
  us_EndTime s ≤ max_int64 → sp_TotalAmount plan ≤ max_int64 →
  extendValuePackageSubscriptionTx env id plan now purchasedEnd db = (Ok s', db') →
  Accounting db' ∧ ∃ s1 db1, extended env db db1 db' s s1 s' plan now purchasedEnd.
Proof.
  intros Hacc Hl Hp He Ht Hrun.
  refine (wp_run _ (λ r d, match r with
    | Ok x => Accounting d ∧ ∃ s1 db1, extended env db db1 d s s1 x plan now purchasedEnd
    | Err _ => True end) _ _ _ _ Hrun).
  apply (wp_extend env userId id plan now purchasedEnd s); [done..| |done].
  intros s1 x db1 d Hacc' _ Hx. split; [done|]. by exists s1, db1.
Qed.

(** *** Examples *)

Definition week_package : SubscriptionPlan :=
  normalizeValuePackagePlan
    (mkPlan 1 "week card" 29000000 "CNY" "" 0 0 true "value_package" "week" 0 "vp" 1 100 0
       (Some false) 0 "" 500 "never" 0 1 "https://pay.ldxp.cn/item/w" "week card" 29000000 600).

(** A user with one package, of the week plan (1) or the month plan (2). *)
Definition shop_db (planId : Z) : DB :=
  cards_db <| subscription_plans := Table [week_package; example_package] 3 |>
    <| user_subscriptions := Table [example_sub <| us_AmountUsed := 0 |> <| us_PlanId := planId |>] 2 |>.

Lemma shop_accounting planId : Accounting (shop_db planId).
Proof.
  split.
  - split_and!; repeat constructor; done.
  - split; [apply wf_empty|by intros ? ? ?%not_elem_of_nil|constructor].
  - split; [apply wf_empty|by intros ? ? ?%not_elem_of_nil|constructor].
  - constructor; [|constructor]. by split.
  - constructor.
  - constructor.
  - constructor.
Qed.

Lemma shop_cards planId : cards_ok (shop_db planId).
Proof. apply (cards_ext cards_db); [done|done|exact cards_db_ok]. Qed.

Lemma shop_fits planId plan : sp_TotalAmount plan ≤ 1000 → purchase_fits cards_env (shop_db planId) 1 plan.
Proof. intros Ht. split; [lia|done|repeat constructor; done|done]. Qed.

Definition upgrade_run : result UserSubscription * DB :=
  CreateValuePackageSubscriptionFromPlanTx cards_env 1 example_package "order" (shop_db 1).
Definition upgraded_sub : UserSubscription :=
  mkSub 2 1 2 1000 0 0 40000 2632000 "active" "order" 40000 0 0 0 "" "" 40000 40000.

Example purchase_holds_one_witness :
  cards upgrade_run.2 1 = 4 ∧ held upgrade_run.2 1 40000 upgraded_sub.
Proof.
  destruct (purchase_holds_one cards_env 1 example_package "order" (shop_db 1) upgrade_run.2 upgraded_sub)
    as [_ _ Hgift _ Hheld _ _ _].
  - apply shop_accounting.
  - apply shop_cards.
  - split; [vm_compute; reflexivity|vm_compute; eauto].
  - apply shop_fits. vm_compute. done.
  - vm_compute. reflexivity.
  - split; [|exact Hheld]. rewrite (Hgift 1). vm_compute. reflexivity.
Defined.

Definition shop_sub (planId : Z) : UserSubscription :=
  example_sub <| us_AmountUsed := 0 |> <| us_PlanId := planId |>.

Lemma shop_held planId p :
  plan_of (Table [week_package; example_package] 3) planId = Some p → IsValuePackage p = true →
  held (shop_db planId) 1 40000 (shop_sub planId).
Proof. intros Hp Hv. split_and!; [by left|done..|]. by exists p. Qed.

Example purchase_lower_rejected_witness :
  ∃ e, transaction (CreateValuePackageSubscriptionFromPlanTx cards_env 1 week_package "order") (shop_db 2)
       = (Err e, shop_db 2).
Proof.
  apply (purchase_lower_rejected cards_env 1 week_package "order" (shop_db 2) (shop_sub 2) example_package).
  - apply shop_accounting.
  - apply shop_cards.
  - split; [vm_compute; reflexivity|vm_compute; eauto].
  - apply shop_fits. vm_compute. done.
  - apply (shop_held 2 example_package); vm_compute; reflexivity.
  - vm_compute. reflexivity.
  - vm_compute. reflexivity.
Defined.

Definition extend_run : result UserSubscription * DB :=
  extendValuePackageSubscriptionTx cards_env 1 example_package 40000 2632000 (shop_db 2).
Definition extended_sub : UserSubscription :=
  mkSub 1 1 2 1000 0 0 1000 5592000 "active" "order" 1000 2593000 0 0 "" "" 1000 40000.

Example extension_adds_time_witness :
  Accounting extend_run.2 ∧ us_EndTime extended_sub = us_EndTime (shop_sub 2) + (2632000 - 40000).
Proof.
  destruct (extension_adds_time cards_env 1 1 example_package 40000 2632000 (shop_sub 2) extended_sub
              (shop_db 2) extend_run.2) as [Hacc _].
  - apply shop_accounting.
  - split; [by left|done..|vm_compute; reflexivity|vm_compute; reflexivity].
  - done.
  - done.
  - vm_compute. done.
  - vm_compute. reflexivity.
  - split; [exact Hacc|reflexivity].
Defined.
