(* ===== verification/Lifecycle.v ===== *)
(** * The life of a subscription

    [model/subscription.go], [model/topup.go]: regular subscriptions and the user
    group they raise, paid orders and the top-up rows written for them, the
    purchase with the wallet, the administrator's bindings and cancellations, and
    the task that expires what is due.  Group and quota caches are transparent;
    the log of a purchase is left out. *)
From S2P Require Import Prelude Tables GoFloat GoDecimal GoTime Schema Plans Windows Cycles Consume Accounting Ledger Preferences Cards Purchases.

(** ** Definitions *)

Definition UserGroupDefault := "default".
Definition UserGroupTiyan := "体验用户".
Definition UserGroupVIP := "vip".
Definition RoleCommonUser := 1.
Definition PaymentMethodBalance := "balance".
Definition PaymentProviderBalance := "balance".
(** [VIPUpgradeThresholdMoney], in millionths. *)
Definition VIPUpgradeThresholdMoney := 30 * 1000000.

(** *** Groups *)

Definition CountUserSubscriptionsByPlan (userId planId : Z) : Tx Z :=
  _ ← fail_if (userId ≤ 0 ∨ planId ≤ 0) (ErrNew "invalid userId or planId");
  db ← get;
  mret (affected (λ s, us_UserId s = userId ∧ us_PlanId s = planId) (user_subscriptions db)).

(** [Find] of one column: a missing row leaves the empty string. *)
Definition getUserGroupByIdTx (userId : Z) : Tx string :=
  _ ← fail_if (userId ≤ 0) (ErrNew "invalid userId");
  db ← get;
  mret (from_option u_Group "" (by_id userId (users db))).

Definition set_user_group (userId : Z) (group : string) : Tx () :=
  modify (λ d, d <| users ::= update_where (λ u, u_Id u = userId) (λ u, u <| u_Group := group |>) |>).

(** A subscription other than [except] that still raises the group of its user. *)
Definition upgrading (userId now : Z) (except : option Z) (s : UserSubscription) : Prop :=
  us_UserId s = userId ∧ us_Status s = UserSubscriptionStatusActive ∧ us_EndTime s > now ∧
  Some (us_Id s) ≠ except ∧ us_UpgradeGroup s ≠ "".
Global Instance upgrading_dec userId now except s : Decision (upgrading userId now except s).
Proof. unfold upgrading. solve_decision. Defined.

Definition downgradeUserGroupForSubscriptionTx (sub : UserSubscription) (now : Z) : Tx string :=
  let upgradeGroup := TrimSpace (us_UpgradeGroup sub) in
  if decide (upgradeGroup = "") then mret ""
  else
    currentGroup ← getUserGroupByIdTx (us_UserId sub);
    if decide (currentGroup ≠ upgradeGroup) then mret ""
    else
      db ← get;
      if decide (where_ (upgrading (us_UserId sub) now (Some (us_Id sub))) (user_subscriptions db) ≠ [])
      then mret ""
      else
        let prevGroup := TrimSpace (us_PrevUserGroup sub) in
        if decide (prevGroup = "" ∨ prevGroup = currentGroup) then mret ""
        else
          _ ← set_user_group (us_UserId sub) prevGroup;
          mret prevGroup.

(** *** Regular subscriptions *)

(** The group a purchase raises the user to, and the group it replaces. *)
Definition raise_group (userId : Z) (upgradeGroup : string) : Tx string :=
  if decide (upgradeGroup = "") then mret ""
  else
    currentGroup ← getUserGroupByIdTx userId;
    if decide (currentGroup ≠ upgradeGroup) then
      _ ← set_user_group userId upgradeGroup;
      mret currentGroup
    else mret "".

Definition CreateUserSubscriptionFromPlanTx (env : Env) (userId : Z) (plan : SubscriptionPlan)
    (source : string) : Tx UserSubscription :=
  _ ← fail_if (sp_Id plan = 0) (ErrNew "invalid plan");
  _ ← fail_if (userId ≤ 0) (ErrNew "invalid user id");
  let plan := normalizeValuePackagePlan plan in
  _ ← fail_if (IsValuePackage plan = true)
        (ErrNew "超值套餐不能通过普通订阅创建，请使用超值套餐专用流程");
  db ← get;
  let count := affected (λ s, us_UserId s = userId ∧ us_PlanId s = sp_Id plan) (user_subscriptions db) in
  _ ← fail_if (sp_MaxPurchasePerUser plan > 0 ∧ count >= sp_MaxPurchasePerUser plan)
        (ErrNew "已达到该套餐购买上限");
  let nowUnix := db_now env in
  endUnix ← lift (calcPlanEndTime (local_offset env) nowUnix plan);
  let nextReset := calcNextResetTime (local_offset env) nowUnix plan endUnix in
  let lastReset := if decide (nextReset > 0) then nowUnix else 0 in
  let upgradeGroup := TrimSpace (sp_UpgradeGroup plan) in
  prevGroup ← raise_group userId upgradeGroup;
  create_subscription env
    (mkSub 0 userId (sp_Id plan) (sp_TotalAmount plan) 0 0 nowUnix endUnix UserSubscriptionStatusActive
       source lastReset nextReset 0 0 upgradeGroup prevGroup (app_now env) (app_now env)).

(** *** VIP upgrades *)

Definition isVIPUpgradeableUser (user : User) : bool :=
  bool_decide (u_Role user = RoleCommonUser) &&
  bool_decide (u_Group user = "" ∨ u_Group user = UserGroupDefault ∨ u_Group user = UserGroupTiyan).

(** In millionths, like every amount of money here. *)
Definition topUpVIPQualifiedAmount (topUp : TopUp) : Z :=
  if decide (tu_Amount topUp > 0) then tu_Amount topUp * 1000000 else tu_Money topUp.

Definition MaybeUpgradeUserToVIPTx (userID : Z) : Tx bool :=
  if decide (userID ≤ 0) then mret false
  else
    db ← get;
    user ← or_error (by_id userID (users db)) ErrRecordNotFound;
    if decide (u_Group user = UserGroupVIP) then mret false
    else if negb (isVIPUpgradeableUser user) then mret false
    else
      let topUps := where_ (λ t, tu_UserId t = userID ∧ tu_Status t = TopUpStatusSuccess) (top_ups db) in
      let totalVIPAmount := sumZ topUpVIPQualifiedAmount topUps in
      if decide (totalVIPAmount < VIPUpgradeThresholdMoney) then mret false
      else
        let upgradable u := u_Id u = userID ∧ u_Role u = RoleCommonUser ∧
          (u_Group u = UserGroupDefault ∨ u_Group u = UserGroupTiyan ∨ u_Group u = "") in
        _ ← modify (λ d, d <| users ::= update_where upgradable (λ u, u <| u_Group := UserGroupVIP |>) |>);
        mret (bool_decide (affected upgradable (users db) > 0)).

(** *** Orders *)

Definition order_by_trade_no (tradeNo : string) (db : DB) : option SubscriptionOrder :=
  first (λ o, so_TradeNo o = tradeNo) (subscription_orders db).

Definition topup_by_trade_no (tradeNo : string) (db : DB) : option TopUp :=
  first (λ t, tu_TradeNo t = tradeNo) (top_ups db).

Definition save_order (o : SubscriptionOrder) : Tx () :=
  modify (λ d, d <| subscription_orders ::= save o |>).

(** [tx.Create(order)]: the trade number is unique. *)
Definition create_order (o : SubscriptionOrder) : Tx () :=
  db ← get;
  _ ← fail_if (order_by_trade_no (so_TradeNo o) db ≠ None) ErrDatabase;
  modify (λ d, d <| subscription_orders ::= insert_row o |>).

Definition Insert (env : Env) (o : SubscriptionOrder) : Tx () :=
  create_order (o <| so_CreateTime ::= λ t, if decide (t = 0) then app_now env else t |>).

Definition Update (o : SubscriptionOrder) : Tx () := save_order o.

Definition GetSubscriptionOrderByTradeNo (tradeNo : string) (db : DB) : option SubscriptionOrder :=
  if decide (tradeNo = "") then None else order_by_trade_no tradeNo db.

Definition upsertSubscriptionTopUpTx (env : Env) (order : SubscriptionOrder) : Tx TopUp :=
  let now := app_now env in
  db ← get;
  match topup_by_trade_no (so_TradeNo order) db with
  | None =>
    let topup := mkTopUp 0 (so_UserId order) 0 (so_Money order) (so_TradeNo order)
      (so_PaymentMethod order) (so_PaymentProvider order) (so_CreateTime order) now TopUpStatusSuccess in
    _ ← modify (λ d, d <| top_ups ::= insert_row topup |>);
    mret (inserted topup (top_ups db))
  | Some topup =>
    _ ← fail_if (tu_UserId topup ≠ so_UserId order) (ErrNew "topup user mismatch");
    _ ← fail_if (tu_Amount topup > 0) (ErrNew "existing topup is a balance recharge");
    _ ← fail_if (tu_PaymentMethod topup ≠ "" ∧ tu_PaymentMethod topup ≠ so_PaymentMethod order)
          (ErrVar "ErrPaymentMethodMismatch");
    _ ← fail_if (tu_PaymentProvider topup ≠ "" ∧ tu_PaymentProvider topup ≠ so_PaymentProvider order)
          (ErrVar "ErrPaymentMethodMismatch");
    let topup := topup <| tu_PaymentMethod := so_PaymentMethod order |>
      <| tu_PaymentProvider := so_PaymentProvider order |> <| tu_Amount := 0 |>
      <| tu_Money := so_Money order |>
      <| tu_CreateTime := if decide (tu_CreateTime topup = 0) then so_CreateTime order
                          else tu_CreateTime topup |>
      <| tu_CompleteTime := now |> <| tu_Status := TopUpStatusSuccess |> in
    _ ← modify (λ d, d <| top_ups ::= save topup |>);
    mret topup
  end.

(** The order row a completion writes. *)
Definition completed_order (env : Env) (order : SubscriptionOrder) (subId : Z)
    (providerPayload actualPaymentMethod : string) : SubscriptionOrder :=
  order <| so_UserSubscriptionId := subId |>
    <| so_PaymentMethod := if decide (actualPaymentMethod = "") then so_PaymentMethod order
                           else actualPaymentMethod |>
    <| so_Status := TopUpStatusSuccess |> <| so_CompleteTime := app_now env |>
    <| so_ProviderPayload := if decide (providerPayload = "") then so_ProviderPayload order
                             else providerPayload |>.

Definition CompleteSubscriptionOrder (env : Env)
    (tradeNo providerPayload expectedPaymentProvider actualPaymentMethod : string) : Tx () :=
  _ ← fail_if (tradeNo = "") (ErrNew "tradeNo is empty");
  transaction (
    db ← get;
    order ← or_error (order_by_trade_no tradeNo db) (ErrVar "ErrSubscriptionOrderNotFound");
    _ ← fail_if (expectedPaymentProvider ≠ "" ∧ so_PaymentProvider order ≠ expectedPaymentProvider)
          (ErrVar "ErrPaymentMethodMismatch");
    plan ← getSubscriptionPlanByIdTx (so_PlanId order);
    let plan := normalizeValuePackagePlan plan in
    _ ← fail_if (IsValuePackage plan = true) (ErrNew "超值套餐仅支持联动小铺购买");
    if decide (so_Status order = TopUpStatusSuccess) then mret tt
    else
      _ ← fail_if (so_Status order ≠ TopUpStatusPending) (ErrVar "ErrSubscriptionOrderStatusInvalid");
      createdSub ← CreateUserSubscriptionFromPlanTx env (so_UserId order) plan "order";
      let order := completed_order env order (us_Id createdSub) providerPayload actualPaymentMethod in
      _ ← upsertSubscriptionTopUpTx env order;
      _ ← MaybeUpgradeUserToVIPTx (so_UserId order);
      save_order order).

Definition ExpireSubscriptionOrder (env : Env) (tradeNo expectedPaymentProvider : string) : Tx () :=
  _ ← fail_if (tradeNo = "") (ErrNew "tradeNo is empty");
  transaction (
    db ← get;
    order ← or_error (order_by_trade_no tradeNo db) (ErrVar "ErrSubscriptionOrderNotFound");
    _ ← fail_if (expectedPaymentProvider ≠ "" ∧ so_PaymentProvider order ≠ expectedPaymentProvider)
          (ErrVar "ErrPaymentMethodMismatch");
    if decide (so_Status order ≠ TopUpStatusPending) then mret tt
    else save_order (order <| so_Status := TopUpStatusExpired |> <| so_CompleteTime := app_now env |>)).

Definition AdminBindSubscription (env : Env) (userId planId : Z) : Tx string :=
  _ ← fail_if (userId ≤ 0 ∨ planId ≤ 0) (ErrNew "invalid userId or planId");
  plan ← getSubscriptionPlanByIdTx planId;
  let plan := normalizeValuePackagePlan plan in
  _ ← fail_if (IsValuePackage plan = true)
        (ErrNew "超值套餐不能通过普通订阅绑定，请使用超值套餐专用流程");
  _ ← transaction (CreateUserSubscriptionFromPlanTx env userId plan "admin");
  mret (if decide (TrimSpace (sp_UpgradeGroup plan) = "") then ""
        else "用户分组将升级到 " +:+ sp_UpgradeGroup plan).

(** [tradeNo] is the number drawn for the order (the user, a random string and
    the clock). *)
Definition PurchaseSubscriptionWithBalance {D : Decimals} (env : Env) (tradeNo : string) (userId planId : Z) : Tx () :=
  _ ← fail_if (userId ≤ 0 ∨ planId ≤ 0) (ErrNew "invalid userId or planId");
  transaction (
    plan ← getSubscriptionPlanByIdTx planId;
    _ ← fail_if (IsValuePackage plan = true) (ErrNew "超值套餐仅支持联动小铺购买");
    _ ← fail_if (sp_Enabled plan = false) (ErrNew "套餐未启用");
    _ ← fail_if (sp_PriceAmount plan < 0) (ErrNew "套餐价格不能为负数");
    _ ← fail_if (sp_AllowBalancePay plan = Some false) (ErrNew "该套餐不允许使用余额兑换");
    requiredQuota ← lift (calcSubscriptionBalanceQuota (quota_per_unit env) (sp_PriceAmount plan));
    db ← get;
    user ← or_error (by_id userId (users db)) ErrRecordNotFound;
    _ ← fail_if (requiredQuota > 0 ∧ u_Quota user < requiredQuota) (ErrNew "余额不足");
    _ ← (if decide (requiredQuota > 0) then
           modify (λ d, d <| users ::= update_where (λ u, u_Id u = userId)
                                         (λ u, u <| u_Quota ::= λ q, q - requiredQuota |>) |>)
         else mret tt);
    _ ← CreateUserSubscriptionFromPlanTx env userId plan PaymentMethodBalance;
    let now := app_now env in
    create_order
      (mkOrder 0 userId (sp_Id plan) (sp_PriceAmount plan) tradeNo PaymentMethodBalance
         PaymentProviderBalance 0 0 TopUpStatusSuccess now now
         ("charged_quota=" +:+ pretty requiredQuota))).

(** *** Cancellation and expiry *)

Definition downgrade_message (downgradeGroup : string) : string :=
  if decide (downgradeGroup = "") then "" else "用户分组将回退到 " +:+ downgradeGroup.

Definition AdminInvalidateUserSubscription (env : Env) (userSubscriptionId : Z) : Tx string :=
  _ ← fail_if (userSubscriptionId ≤ 0) (ErrNew "invalid userSubscriptionId");
  let now := app_now env in
  target ← transaction (
    db ← get;
    sub ← or_error (by_id userSubscriptionId (user_subscriptions db)) ErrRecordNotFound;
    let sub := sub <| us_Status := UserSubscriptionStatusCancelled |> <| us_EndTime := now |>
                   <| us_UpdatedAt := now |> in
    _ ← modify (λ d, d <| user_subscriptions ::= save sub |>);
    downgradeUserGroupForSubscriptionTx sub now);
  mret (downgrade_message target).

Definition AdminDeleteUserSubscription (env : Env) (userSubscriptionId : Z) : Tx string :=
  _ ← fail_if (userSubscriptionId ≤ 0) (ErrNew "invalid userSubscriptionId");
  let now := app_now env in
  target ← transaction (
    db ← get;
    sub ← or_error (by_id userSubscriptionId (user_subscriptions db)) ErrRecordNotFound;
    target ← downgradeUserGroupForSubscriptionTx sub now;
    _ ← modify (λ d, d <| user_subscriptions ::= delete_where (λ s, us_Id s = userSubscriptionId) |>);
    mret target);
  mret (downgrade_message target).

(** An active subscription whose time is over. *)
Definition due (now : Z) (s : UserSubscription) : Prop :=
  us_Status s = UserSubscriptionStatusActive ∧ us_EndTime s > 0 ∧ us_EndTime s ≤ now.
Global Instance due_dec now s : Decision (due now s).
Proof. unfold due. solve_decision. Defined.

(** The transaction of one user: expire, then give back the group of the
    subscription that ended last.  The number of rows expired is returned. *)
Definition expire_user (env : Env) (now userId : Z) : Tx Z :=
  transaction (
    db ← get;
    let count := affected (λ s, us_UserId s = userId ∧ due now s) (user_subscriptions db) in
    _ ← modify (λ d, d <| user_subscriptions ::=
          update_where (λ s, us_UserId s = userId ∧ due now s)
            (λ s, s <| us_Status := UserSubscriptionStatusExpired |>
                    <| us_UpdatedAt := app_now env |>) |>);
    db ← get;
    if decide (where_ (upgrading userId now None) (user_subscriptions db) ≠ []) then mret count
    else
      match order_by by_end_time_desc
              (where_ (λ s, us_UserId s = userId ∧ us_Status s = UserSubscriptionStatusExpired ∧
                            us_UpgradeGroup s ≠ "") (user_subscriptions db)) with
      | [] => mret count
      | lastExpired :: _ =>
        let upgradeGroup := TrimSpace (us_UpgradeGroup lastExpired) in
        let prevGroup := TrimSpace (us_PrevUserGroup lastExpired) in
        if decide (upgradeGroup = "" ∨ prevGroup = "") then mret count
        else
          currentGroup ← getUserGroupByIdTx userId;
          if decide (currentGroup ≠ upgradeGroup ∨ currentGroup = prevGroup) then mret count
          else
            _ ← set_user_group userId prevGroup;
            mret count
      end).

Fixpoint expire_users (env : Env) (now : Z) (userIds : list Z) (expiredCount : Z) : Tx Z :=
  match userIds with
  | [] => mret expiredCount
  | userId :: userIds =>
    count ← expire_user env now userId;
    expire_users env now userIds (expiredCount +! count)
  end.

(** Go visits the keys of a map in an unspecified order: [shuffle] is the order of
    this run. *)
Definition ExpireDueSubscriptions (env : Env) (shuffle : list Z → list Z) (limit : Z) : Tx Z :=
  let limit := if decide (limit ≤ 0) then 200 else limit in
  let now := db_now env in
  db ← get;
  let subs := take (Z.to_nat limit)
                (order_by by_end_time (where_ (due now) (user_subscriptions db))) in
  let userIds := remove_dups (filter (λ u, u > 0) (us_UserId <$> subs)) in
  expire_users env now (shuffle userIds) 0.

(** ** Users *)

(** The wallets of the users are as they were. *)
Definition same_wallets (t t' : table User) : Prop :=
  (λ u, (u_Id u, u_Quota u)) <$> rows t' = (λ u, (u_Id u, u_Quota u)) <$> rows t.

Definition group_of (db : DB) (userId : Z) : string := from_option u_Group "" (by_id userId (users db)).

Lemma by_id_update_users f userId i (t : table User) :
  (∀ u, u_Id (f u) = u_Id u) →
  by_id i (update_where (λ u, u_Id u = userId) f t) =
  (λ u, if decide (u_Id u = userId) then f u else u) <$> by_id i t.
Proof.
  intros Hf. unfold by_id, first, update_where. cbn. generalize (rows t) as l.
  induction l as [|u l IH]; csimpl; [done|]. rewrite !filter_cons.
  destruct (decide (u_Id u = userId)) as [Hu|Hu]; rewrite ?Hf;
    destruct (decide (u_Id u = i)); csimpl; [by rewrite decide_True|done|by rewrite decide_False|done].
Qed.

Lemma group_of_set db db' userId group i :
  users db' = update_where (λ u, u_Id u = userId) (λ u, u <| u_Group := group |>) (users db) →
  group_of db' i =
  if decide (i = userId ∧ is_Some (by_id userId (users db))) then group else group_of db i.
Proof.
  intros Hus. unfold group_of. rewrite Hus, by_id_update_users by done.
  destruct (by_id i (users db)) as [u|] eqn:E; cbn.
  - pose proof E as [_ Hid]%by_id_Some. cbn in Hid. destruct (decide (u_Id u = userId)) as [Hu|Hu].
    + rewrite decide_True; [done|]. split; [congruence|]. rewrite <-Hu, Hid, E. eauto.
    + rewrite decide_False; [done|]. intros [? _]. congruence.
  - rewrite decide_False; [done|]. intros [-> [? ?]]. congruence.
Qed.

Lemma same_wallets_refl t : same_wallets t t.
Proof. done. Qed.

Lemma same_wallets_update P `{∀ u : User, Decision (P u)} f (t : table User) :
  (∀ u, u_Id (f u) = u_Id u ∧ u_Quota (f u) = u_Quota u) → same_wallets t (update_where P f t).
Proof.
  intros Hf. unfold same_wallets, update_where. cbn. rewrite <-list_fmap_compose.
  apply list_fmap_ext. intros _ u _. cbn. destruct (Hf u) as [H1 H2]. case_decide; by rewrite ?H1, ?H2.
Qed.

Definition wallet (db : DB) (userId : Z) : option Z := u_Quota <$> by_id userId (users db).

Lemma same_wallets_wallet db db' userId : same_wallets (users db) (users db') → wallet db' userId = wallet db userId.
Proof.
  unfold same_wallets, wallet, by_id, first. cbn. generalize (rows (users db)) as l, (rows (users db')) as l'.
  induction l as [|u l IH]; intros [|u' l']; csimpl; try done.
  intros [= Hid Hq Hl]. rewrite !filter_cons, Hid. case_decide; csimpl; [by rewrite Hq|auto].
Qed.

(** ** Subscriptions *)

(** The tables a new subscription or a group change leaves alone. *)
Record sub_frame (db db' : DB) : Prop := {
  sf_plans : subscription_plans db' = subscription_plans db;
  sf_prefs : value_package_preferences db' = value_package_preferences db;
  sf_usage : usage_records db' = usage_records db;
  sf_resets : quota_resets db' = quota_resets db;
  sf_ledgers : reset_count_ledgers db' = reset_count_ledgers db;
  sf_pre : pre_consume_records db' = pre_consume_records db;
  sf_wallets : same_wallets (users db) (users db');
}.

Lemma sub_frame_refl db : sub_frame db db.
Proof. by split. Qed.

Lemma sub_frame_trans db1 db2 db3 : sub_frame db1 db2 → sub_frame db2 db3 → sub_frame db1 db3.
Proof. intros [] []. split; unfold same_wallets in *; congruence. Qed.

Lemma sub_frame_cards db db' : sub_frame db db' → cards_ok db → cards_ok db'.
Proof. intros []. by apply cards_ext. Qed.

Lemma sub_frame_accounting {B : PostBilled} db db' :
  sub_frame db db' → user_subscriptions db' = user_subscriptions db → Accounting db → Accounting db'.
Proof. intros [Hp _ Hu _ _ Hr _] Hs. unfold Accounting. by rewrite Hp, Hu, Hr, Hs. Qed.

(** The group of the user after [raise_group], and what it returns. *)
Lemma wp_raise_group userId group (Q : result string → DB → Prop) db :
  (∀ prev db', sub_frame db db' → user_subscriptions db' = user_subscriptions db →
     subscription_orders db' = subscription_orders db → top_ups db' = top_ups db →
     (prev = "" ∧ db' = db ∧ (group = "" ∨ group_of db userId = group) ∨
      prev = group_of db userId ∧ prev ≠ group ∧ group ≠ "" ∧
      users db' = update_where (λ u, u_Id u = userId) (λ u, u <| u_Group := group |>) (users db)) →
     Q (Ok prev) db') →
  (∀ e, Q (Err e) db) → wp (raise_group userId group) Q db.
Proof.
  intros HOk HErr. unfold raise_group, getUserGroupByIdTx, set_user_group. wp_step.
  { wp_step. apply HOk; [apply sub_frame_refl|done..|]. left. auto. }
  wp_step. wp_guard as _; [apply HErr|]. wp_step. wp_step. wp_step. fold (group_of db userId). wp_step.
  - wp_step. wp_step. wp_step. apply HOk; [|done..|].
    + split; try done. by apply same_wallets_update.
    + right. auto.
  - wp_step. apply HOk; [apply sub_frame_refl|done..|]. left. split_and!; [done|done|right]. by apply dec_stable.
Qed.

(** A regular subscription created from the (normalised) plan. *)
Record subscribed {B : PostBilled} (env : Env) (db db' : DB) (userId : Z) (plan : SubscriptionPlan) (source : string)
    (sub : UserSubscription) : Prop := {
  sd_frame : sub_frame db db';
  sd_orders : subscription_orders db' = subscription_orders db;
  sd_topups : top_ups db' = top_ups db;
  sd_id : us_Id sub = next_id (user_subscriptions db);
  sd_rows : rows (user_subscriptions db') = rows (user_subscriptions db) ++ [sub];
  sd_accounting : Accounting db → Accounting db';
  sd_owner : us_UserId sub = userId ∧ us_PlanId sub = sp_Id plan ∧ us_Source sub = source ∧
    us_Status sub = UserSubscriptionStatusActive;
  sd_amounts : us_AmountTotal sub = sp_TotalAmount plan ∧ us_AmountUsed sub = 0 ∧ us_QuotaEpoch sub = 0;
  sd_times : us_StartTime sub = db_now env ∧
    calcPlanEndTime (local_offset env) (db_now env) plan = Ok (us_EndTime sub) ∧
    us_NextResetTime sub = calcNextResetTime (local_offset env) (db_now env) plan (us_EndTime sub);
  sd_limit : sp_MaxPurchasePerUser plan > 0 →
    affected (λ s, us_UserId s = userId ∧ us_PlanId s = sp_Id plan) (user_subscriptions db')
      ≤ sp_MaxPurchasePerUser plan;
  sd_group : us_UpgradeGroup sub = TrimSpace (sp_UpgradeGroup plan) ∧
    (us_PrevUserGroup sub = "" ∧ users db' = users db ∧
       (us_UpgradeGroup sub = "" ∨ group_of db userId = us_UpgradeGroup sub) ∨
     us_PrevUserGroup sub = group_of db userId ∧ us_PrevUserGroup sub ≠ us_UpgradeGroup sub ∧
       us_UpgradeGroup sub ≠ "" ∧
       users db' = update_where (λ u, u_Id u = userId) (λ u, u <| u_Group := us_UpgradeGroup sub |>)
                     (users db));
}.

Lemma affected_insert {R} `{Row R} (P : R → Prop) `{∀ r, Decision (P r)} r t :
  affected P (insert_row r t) = affected P t + if decide (P (inserted r t)) then 1 else 0.
Proof.
  unfold affected, where_, insert_row. cbn [rows]. rewrite filter_app, length_app, filter_cons, filter_nil.
  case_decide; cbn; lia.
Qed.

Lemma wp_create_regular {B : PostBilled} env userId plan source (Q : result UserSubscription → DB → Prop) db :
  let np := normalizeValuePackagePlan plan in
  sp_TotalAmount np ≤ max_int64 →
  (∀ sub db', subscribed env db db' userId np source sub → IsValuePackage np = false → 0 < userId →
     Q (Ok sub) db') →
  (∀ e db', Q (Err e) db') →
  wp (CreateUserSubscriptionFromPlanTx env userId plan source) Q db.
Proof.
  intros np Htot HOk HErr. unfold CreateUserSubscriptionFromPlanTx.
  wp_guard as _; [apply HErr|]. wp_guard as Hu; [apply HErr|]. cbv zeta. fold np.
  wp_guard as Hv%not_true_is_false; [apply HErr|]. wp_step. wp_step. wp_guard as Hlimit; [apply HErr|].
  wp_step. wp_step. destruct (calcPlanEndTime _ _ np) as [endUnix|e] eqn:Hend; [|apply HErr]. wp_step.
  apply wp_raise_group; [|intros; apply HErr]. intros prev db1 Hfr Hsubs Horders Htops Hgroup.
  unfold create_subscription. wp_step. wp_step. wp_step. wp_step. wp_step.
  apply HOk; [|done|lia]. rewrite Hsubs in *.
  set (row := mkSub _ _ _ _ _ _ _ _ _ _ _ _ _ _ _ _ _ _) in *. split; try done.
  - eapply sub_frame_trans; [exact Hfr|]. by split.
  - cbn [user_subscriptions update_field eta_record]. cbn. by rewrite Hsubs.
  - intros Hacc. unfold Accounting. cbn -[insert_row]. destruct Hfr as [-> _ -> _ _ -> _]. rewrite Hsubs.
    by apply accounting_insert.
  - intros Hmax. cbn -[insert_row]. rewrite Hsubs, affected_insert.
    rewrite decide_True by done. lia.
  - split; [done|]. destruct Hgroup as [(Hp & -> & Hg)|(Hp & Hne & Hn & Hus)]; [left|right]; by split_and!.
Qed.

(** ** Orders *)

Lemma first_save {R} `{Row R} (P : R → Prop) `{∀ r, Decision (P r)} r r0 t :
  first P t = Some r0 → row_id r = row_id r0 → P r → first P (save r t) = Some r.
Proof.
  unfold first, save, update_where. cbn. generalize (rows t) as l.
  induction l as [|x l IH]; csimpl; [done|]. rewrite filter_cons. intros Hf Hid Hr.
  destruct (decide (row_id x = row_id r)) as [Hx|Hx].
  - by rewrite filter_cons, decide_True.
  - rewrite filter_cons. destruct (decide (P x)); [|auto]. csimpl in Hf. injection Hf as ->. by destruct Hx.
Qed.

Lemma first_insert {R} `{Row R} (P : R → Prop) `{∀ r, Decision (P r)} r t :
  first P t = None → P (inserted r t) → first P (insert_row r t) = Some (inserted r t).
Proof.
  unfold first, insert_row. cbn [rows]. rewrite filter_app, filter_cons. intros Hn Hr.
  rewrite decide_True by done. by destruct (filter P (rows t)).
Qed.

(** The tables besides the users and the orders' own. *)
Record money_frame (db db' : DB) : Prop := {
  mf_subs : user_subscriptions db' = user_subscriptions db;
  mf_frame : sub_frame db db';
}.

(** The top-up row of a paid order. *)
Definition topup_row (db : DB) (order : SubscriptionOrder) (t : TopUp) : Prop :=
  topup_by_trade_no (so_TradeNo order) db = Some t ∧ tu_Status t = TopUpStatusSuccess ∧
  tu_UserId t = so_UserId order ∧ tu_Money t = so_Money order ∧ tu_Amount t = 0.
Definition topup_paid (db : DB) (order : SubscriptionOrder) : Prop := ∃ t, topup_row db order t.

Lemma wp_upsert_topup env order (Q : result TopUp → DB → Prop) db :
  (∀ t db', money_frame db db' → users db' = users db → subscription_orders db' = subscription_orders db →
     topup_row db' order t → Q (Ok t) db') →
  (∀ e, Q (Err e) db) → wp (upsertSubscriptionTopUpTx env order) Q db.
Proof.
  intros HOk HErr. unfold upsertSubscriptionTopUpTx. wp_step. wp_step.
  destruct (topup_by_trade_no (so_TradeNo order) db) as [t|] eqn:Ht.
  - wp_guard as Hu; [apply HErr|]. wp_guard as _; [apply HErr|]. wp_guard as _; [apply HErr|].
    wp_guard as _; [apply HErr|]. wp_step. wp_step. wp_step.
    apply HOk; [by split|done|done|]. split; [apply (first_save _ _ t); [exact Ht|done|]|].
    + by apply first_Some in Ht as [_ Htn].
    + split_and!; [done| |done|done]. by apply dec_stable.
  - wp_step. wp_step. wp_step. apply HOk; [by split|done|done|].
    split; [apply first_insert; [exact Ht|done]|done].
Qed.

Lemma wp_vip userId (Q : result bool → DB → Prop) db :
  (∀ b db', money_frame db db' → top_ups db' = top_ups db →
     subscription_orders db' = subscription_orders db → Q (Ok b) db') →
  (∀ e, Q (Err e) db) → wp (MaybeUpgradeUserToVIPTx userId) Q db.
Proof.
  intros HOk HErr. unfold MaybeUpgradeUserToVIPTx. wp_steps; try (by apply HErr); apply HOk; try done;
    split; try done; split; try done. by apply same_wallets_update.
Qed.

(** The totals of the stored plans are 64-bit integers. *)
Definition plans_typed (db : DB) : Prop :=
  ∀ id p, plan_of (subscription_plans db) id = Some p → sp_TotalAmount p ≤ max_int64.

(** What the first completion of an order does. *)
Record order_paid {B : PostBilled} (env : Env) (db db' : DB) (order : SubscriptionOrder) (payload method : string)
    (plan : SubscriptionPlan) (sub : UserSubscription) : Prop := {
  op_plan : plan_of (subscription_plans db) (so_PlanId order) = Some plan;
  op_subscribed : ∃ db1, subscribed env db db1 (so_UserId order) plan "order" sub ∧ money_frame db1 db';
  op_order : order_by_trade_no (so_TradeNo order) db' =
    Some (completed_order env order (us_Id sub) payload method);
  op_topup : topup_paid db' order;
}.

(** The checks of a payment notification on the order it names. *)
Record acceptable (db : DB) (tradeNo provider : string) (order : SubscriptionOrder) : Prop := {
  ap_trade : tradeNo ≠ "";
  ap_order : order_by_trade_no tradeNo db = Some order;
  ap_provider : ¬ (provider ≠ "" ∧ so_PaymentProvider order ≠ provider);
  ap_plan : ∃ plan, plan_of (subscription_plans db) (so_PlanId order) = Some plan ∧ IsValuePackage plan = false;
}.

Lemma wp_complete_order {B : PostBilled} env tradeNo payload provider method (Q : result () → DB → Prop) db :
  plans_typed db →
  (∀ order plan sub db', acceptable db tradeNo provider order → so_Status order = TopUpStatusPending →
     IsValuePackage plan = false → order_paid env db db' order payload method plan sub → Q (Ok tt) db') →
  (∀ order, acceptable db tradeNo provider order → so_Status order = TopUpStatusSuccess → Q (Ok tt) db) →
  (∀ e, Q (Err e) db) →
  wp (CompleteSubscriptionOrder env tradeNo payload provider method) Q db.
Proof.
  intros Htyped HOk HDone HErr. unfold CompleteSubscriptionOrder. wp_guard as Hne; [apply HErr|].
  wp_step. wp_step. wp_step. wp_step. apply wp_or_error; [|intros; apply HErr]. intros order Horder.
  wp_guard as Hprov; [apply HErr|]. wp_step. apply wp_get_plan; [|intros; apply HErr]. intros plan Hplan. cbv zeta.
  wp_guard as Hv%not_true_is_false; [apply HErr|].
  assert (Hacc : acceptable db tradeNo provider order) by (split; eauto). wp_step; [wp_step; by apply (HDone order)|].
  wp_guard as Hpending; [apply HErr|]. apply dec_stable in Hpending.
  set (np := normalizeValuePackagePlan plan) in *.
  assert (Hnp : normalizeValuePackagePlan np = np)
    by apply normalizeValuePackagePlan_fixpoint, normalizeValuePackagePlan_normal.
  wp_step. apply wp_create_regular; [rewrite Hnp; by apply (Htyped _ _ Hplan)| |intros; apply HErr].
  rewrite Hnp. intros sub db1 Hsub _ Hu. wp_step.
  apply wp_upsert_topup; [|intros; apply HErr]. intros t db2 Hf2 _ Ho2 Ht. wp_step.
  apply wp_vip; [|intros; apply HErr]. intros b db3 Hf3 Ht3 Ho3. unfold save_order. wp_step.
  assert (Htrade : so_TradeNo order = tradeNo) by (by apply first_Some in Horder as [_ ?]).
  apply (HOk order np sub); [done|done|done|]. split; [done| | |].
  - exists db1. split; [done|]. destruct Hf2 as [Hs2 Hf2], Hf3 as [Hs3 Hf3]. split; [cbn; congruence|].
    apply (sub_frame_trans _ db2); [done|]. apply (sub_frame_trans _ db3); [done|]. by split.
  - apply (first_save _ _ order); [|done|done]. cbn. rewrite Ho3, Ho2, (sd_orders _ _ _ _ _ _ _ Hsub), Htrade.
    exact Horder.
  - exists t. unfold topup_row, topup_by_trade_no in *. cbn. by rewrite Ht3.
Qed.

Lemma complete_again env tradeNo payload provider method db :
  (∃ order, acceptable db tradeNo provider order ∧ so_Status order = TopUpStatusSuccess) →
  CompleteSubscriptionOrder env tradeNo payload provider method db = (Ok tt, db).
Proof.
  intros (order & [Htrade Ho Hprov (plan & Hplan & Hv)] & Hs).
  apply wp_exact. unfold CompleteSubscriptionOrder. wp_pass. wp_step. wp_step. wp_step. wp_step.
  rewrite Ho. wp_step; [|done]. simplify_eq. wp_pass. wp_step.
  apply wp_get_plan; [|congruence]. intros p Hp. rewrite Hplan in Hp. injection Hp as ->. cbv zeta.
  wp_pass. rewrite decide_True by done. by wp_step.
Qed.

(** C21: a pending order is completed by exactly one new subscription of its plan
    for its user, a successful top-up row with its price, and its own row marked
    successful with the subscription's key; a completed order is left alone.
    Accounting, reset cards and wallets are untouched. *)
Theorem order_completed env tradeNo payload provider method db db' :
  plans_typed db →
  CompleteSubscriptionOrder env tradeNo payload provider method db = (Ok tt, db') →
  ∃ order, order_by_trade_no tradeNo db = Some order ∧
    (so_Status order = TopUpStatusSuccess ∧ db' = db ∨
     so_Status order = TopUpStatusPending ∧
     ∃ plan sub, order_paid env db db' order payload method plan sub ∧ IsValuePackage plan = false).
Proof.
  intros Htyped Hrun.
  refine (wp_run _ (λ r d, match r with Ok _ => ∃ order, order_by_trade_no tradeNo db = Some order ∧
    (so_Status order = TopUpStatusSuccess ∧ d = db ∨ so_Status order = TopUpStatusPending ∧
     ∃ plan sub, order_paid env db d order payload method plan sub ∧ IsValuePackage plan = false)
    | Err _ => True end) _ _ _ _ Hrun).
  apply wp_complete_order; [done| | |done].
  - intros order plan sub d [_ Ho _ _] Hp Hv Hpaid. exists order. split; [done|]. right. split; [done|]. by exists plan, sub.
  - intros order [_ Ho _ _] Hs. exists order. auto.
Qed.

(** Completing an order is idempotent: when a payment notification is
    delivered again, whatever payload it carries, the call succeeds and changes
    nothing. *)
Theorem order_completion_idempotent env env' tradeNo payload payload' provider method method' db db' :
  plans_typed db →
  CompleteSubscriptionOrder env tradeNo payload provider method db = (Ok tt, db') →
  CompleteSubscriptionOrder env' tradeNo payload' provider method' db' = (Ok tt, db').
Proof.
  intros Htyped Hrun. apply complete_again.
  refine (wp_run _ (λ r d, match r with Ok _ => ∃ order, acceptable d tradeNo provider order ∧
    so_Status order = TopUpStatusSuccess | Err _ => True end) _ _ _ _ Hrun).
  apply wp_complete_order; [done| |eauto|done]. intros order plan sub d [Htrade Ho Hprov Hplan] _ _ Hpaid.
  assert (Htn : so_TradeNo order = tradeNo) by (by apply first_Some in Ho as [_ ?]).
  exists (completed_order env order (us_Id sub) payload method). split; [|done]. split; [done| |done|].
  - rewrite <-Htn. apply (op_order _ _ _ _ _ _ _ _ Hpaid).
  - destruct (op_subscribed _ _ _ _ _ _ _ _ Hpaid) as (d1 & Hd1 & [_ Hd]).
    by rewrite (sf_plans _ _ Hd), (sf_plans _ _ (sd_frame _ _ _ _ _ _ _ Hd1)).
Qed.

(** ** The wallet *)

Lemma wallet_charge db userId q i :
  wallet (db <| users ::= update_where (λ u, u_Id u = userId) (λ u, u <| u_Quota ::= λ w, w - q |>) |>) i =
  (λ w, if decide (i = userId) then w - q else w) <$> wallet db i.
Proof.
  unfold wallet. cbn -[by_id update_where]. rewrite by_id_update_users by done.
  destruct (by_id i (users db)) as [u|] eqn:E; cbn; [|done]. apply by_id_Some in E as [_ Hid]. cbn in Hid.
  rewrite Hid. by destruct (decide (i = userId)).
Qed.

(** The quota a price costs: the smallest whole number that covers it. *)
Lemma balance_quota_covers {D : Decimals} {L : DecimalLaws D} qpu price q :
  let cost := (value (NewFromFloat (money_float price)) * value (NewFromFloat qpu))%Q in
  0 < price → in_int64 (Qceiling cost) →
  calcSubscriptionBalanceQuota qpu price = Ok q →
  (cost <= inject_Z q)%Q ∧ (inject_Z q < cost + 1)%Q.
Proof.
  intros cost Hp Hfit. unfold calcSubscriptionBalanceQuota. rewrite decide_False by lia.
  destruct (qpu <=? float_zero)%float; [done|]. intros [= <-]. rewrite int_of_ceil; rewrite value_mul; [|done].
  split; [apply Qle_ceiling|]. fold cost. pose proof (Qceiling_lt cost) as Hlt.
  replace (Qceiling cost) with (Qceiling cost - 1 + 1) by lia. rewrite inject_Z_plus.
  by apply Qplus_lt_l.
Qed.

(** A purchase with the wallet. *)
Record balance_paid {D : Decimals} {B : PostBilled} (env : Env) (db db' : DB) (userId planId : Z) (plan : SubscriptionPlan) (q : Z)
    (sub : UserSubscription) : Prop := {
  bp_plan : plan_of (subscription_plans db) planId = Some (normalizeValuePackagePlan plan);
  bp_price : 0 ≤ sp_PriceAmount plan ∧
    calcSubscriptionBalanceQuota (quota_per_unit env) (sp_PriceAmount plan) = Ok q;
  bp_wallet : ∃ w, wallet db userId = Some w ∧ wallet db' userId = Some (w - Z.max 0 q) ∧
    (q > 0 → 0 ≤ w - q);
  bp_others : ∀ i, i ≠ userId → wallet db' i = wallet db i;
  bp_rows : rows (user_subscriptions db') = rows (user_subscriptions db) ++ [sub] ∧
    us_UserId sub = userId ∧ us_PlanId sub = planId ∧ us_Status sub = UserSubscriptionStatusActive;
  bp_accounting : Accounting db → Accounting db';
  bp_cards : cards_ok db → cards_ok db';
}.

Lemma wp_balance_purchase {D : Decimals} {B : PostBilled} env tradeNo userId planId (Q : result () → DB → Prop) db :
  plans_typed db →
  (∀ plan q sub db', balance_paid env db db' userId planId plan q sub → Q (Ok tt) db') →
  (∀ e, Q (Err e) db) →
  wp (PurchaseSubscriptionWithBalance env tradeNo userId planId) Q db.
Proof.
  intros Htyped HOk HErr. unfold PurchaseSubscriptionWithBalance. wp_guard as _; [apply HErr|]. wp_step. wp_step.
  apply wp_get_plan; [|intros; apply HErr]. intros plan Hplan. wp_guard as _; [apply HErr|].
  wp_guard as _; [apply HErr|]. wp_guard as Hprice; [apply HErr|]. wp_guard as _; [apply HErr|]. wp_step. wp_step.
  destruct (calcSubscriptionBalanceQuota _ _) as [q|e] eqn:Hq; [|apply HErr]. wp_step. wp_step. wp_step.
  apply wp_or_error; [|intros; apply HErr]. intros user Huser. wp_guard as Hfunds; [apply HErr|].
  assert (Hw : wallet db userId = Some (u_Quota user)) by (unfold wallet; by rewrite Huser).
  set (db1 := db <| users ::= update_where (λ u, u_Id u = userId) (λ u, u <| u_Quota ::= λ w, w - Z.max 0 q |>) |>).
  wp_step.
  eapply (wp_mono _ (λ r d, r = Ok tt ∧ user_subscriptions d = user_subscriptions db ∧
    (Accounting db → Accounting d) ∧ (cards_ok db → cards_ok d) ∧
    subscription_plans d = subscription_plans db ∧ ∀ i, wallet d i = wallet db1 i)).
  { wp_step; wp_step; split_and!; try done.
    - by apply cards_ext.
    - intros i. unfold db1. by rewrite !wallet_charge, Z.max_r by lia.
    - intros i. unfold db1. rewrite wallet_charge, Z.max_l by lia.
      destruct (wallet db i); cbn; [|done]. case_decide; f_equal; lia. }
  intros r d (-> & Hsubs & Hacc & Hcards & Hplans & Hwal).
  wp_step. apply wp_create_regular; [apply (Htyped _ _ Hplan)| |intros; apply HErr].
  intros sub d1 Hsub _ _. unfold create_order. wp_step. wp_step. wp_guard as _; [apply HErr|]. wp_step.
  pose proof (sd_frame _ _ _ _ _ _ _ Hsub) as Hfr. destruct (sd_owner _ _ _ _ _ _ _ Hsub) as (Hu & Hpl & _ & Hst).
  assert (Hwd : ∀ i, wallet d1 i = wallet db1 i).
  { intros i. rewrite <-(Hwal i). apply same_wallets_wallet, Hfr. }
  apply (HOk plan q sub). split.
  - done.
  - split; [lia|done].
  - exists (u_Quota user). split_and!; [done| |lia].
    change (wallet d1 userId = Some (u_Quota user - Z.max 0 q)). rewrite (Hwd userId). unfold db1.
    rewrite wallet_charge, Hw. cbn. by rewrite decide_True.
  - intros i Hi. change (wallet d1 i = wallet db i). rewrite (Hwd i). unfold db1. rewrite wallet_charge.
    destruct (wallet db i); cbn; [|done]. by rewrite decide_False.
  - split_and!; [|done| |done]; cbn; [by rewrite (sd_rows _ _ _ _ _ _ _ Hsub), Hsubs|].
    rewrite Hpl. by apply plan_of_id in Hplan.
  - intros H%Hacc. exact (sd_accounting _ _ _ _ _ _ _ Hsub H).
  - intros H%Hcards. apply (cards_ext d1); [done|done|]. exact (sub_frame_cards _ _ Hfr H).
Qed.

(** A purchase with the wallet charges the buyer the whole number of quota
    units that covers the price (at most one unit more than the price), never below
    zero, leaves every other wallet alone and creates one active subscription; a
    purchase that fails changes nothing. *)
Theorem balance_purchase_charges {D : Decimals} {L : DecimalLaws D} env tradeNo userId planId db r db' :
  plans_typed db →
  PurchaseSubscriptionWithBalance env tradeNo userId planId db = (r, db') →
  match r with
  | Err _ => db' = db
  | Ok _ => ∃ plan q sub, balance_paid env db db' userId planId plan q sub ∧
      let cost := (value (NewFromFloat (money_float (sp_PriceAmount plan))) *
                   value (NewFromFloat (quota_per_unit env)))%Q in
      (0 < sp_PriceAmount plan → in_int64 (Qceiling cost) →
       (cost <= inject_Z q)%Q ∧ (inject_Z q < cost + 1)%Q)
  end.
Proof.
  intros Htyped Hrun. pattern r, db'. refine (wp_run _ _ _ _ _ _ Hrun). apply wp_balance_purchase; [done| |done].
  intros plan q sub d Hpaid. exists plan, q, sub. split; [done|]. intros cost Hp Hfit.
  destruct (bp_price _ _ _ _ _ _ _ _ Hpaid) as [_ Hq]. by apply balance_quota_covers.
Qed.

(** ** Expiry *)

Definition expire (env : Env) (s : UserSubscription) : UserSubscription :=
  s <| us_Status := UserSubscriptionStatusExpired |> <| us_UpdatedAt := app_now env |>.

(** The expired subscription with an upgrade group that ended last. *)
Definition last_upgrade (subs : table UserSubscription) (userId : Z) : option UserSubscription :=
  head (order_by by_end_time_desc
    (where_ (λ s, us_UserId s = userId ∧ us_Status s = UserSubscriptionStatusExpired ∧
                  us_UpgradeGroup s ≠ "") subs)).

(** Whether the group of [last] is given back to a user of group [current]. *)
Definition gives_back (last : UserSubscription) (current : string) : Prop :=
  TrimSpace (us_UpgradeGroup last) ≠ "" ∧ TrimSpace (us_PrevUserGroup last) ≠ "" ∧
  current = TrimSpace (us_UpgradeGroup last) ∧ current ≠ TrimSpace (us_PrevUserGroup last).

(** The users after the subscriptions of [userId] have become [subs]. *)
Definition users_after (db : DB) (subs : table UserSubscription) (now userId : Z) (us : table User) : Prop :=
  us = users db ∧ (where_ (upgrading userId now None) subs ≠ [] ∨
                   ∀ last, last_upgrade subs userId = Some last → ¬ gives_back last (group_of db userId)) ∨
  where_ (upgrading userId now None) subs = [] ∧
  ∃ last, last_upgrade subs userId = Some last ∧ gives_back last (group_of db userId) ∧
    us = update_where (λ u, u_Id u = userId) (λ u, u <| u_Group := TrimSpace (us_PrevUserGroup last) |>)
           (users db).

Record expired_user (env : Env) (now : Z) (db db' : DB) (userId : Z) : Prop := {
  eu_subs : user_subscriptions db' =
    update_where (λ s, us_UserId s = userId ∧ due now s) (expire env) (user_subscriptions db);
  eu_frame : sub_frame db db';
  eu_orders : subscription_orders db' = subscription_orders db;
  eu_topups : top_ups db' = top_ups db;
  eu_users : users_after db (user_subscriptions db') now userId (users db');
}.

Lemma wp_expire_user env now userId (Q : result Z → DB → Prop) db :
  0 < userId →
  (∀ db', expired_user env now db db' userId →
     Q (Ok (affected (λ s, us_UserId s = userId ∧ due now s) (user_subscriptions db))) db') →
  wp (expire_user env now userId) Q db.
Proof.
  intros Hu HOk. unfold expire_user, getUserGroupByIdTx, set_user_group. wp_step. wp_step. wp_step. wp_step. wp_step.
  wp_step. wp_step. fold (expire env). set (P := λ s, us_UserId s = userId ∧ due now s).
  set (subs' := update_where P (expire env) (user_subscriptions db)).
  set (db1 := db <| user_subscriptions ::= update_where P (expire env) |>).
  assert (Hkeep : users_after db subs' now userId (users db) → expired_user env now db db1 userId).
  { intros Hus. by split. }
  wp_step.
  { wp_step. apply HOk, Hkeep. left. auto. }
  apply dec_stable in n. rename n into Hnone.
  assert (Hlast : last_upgrade subs' userId = head (order_by by_end_time_desc
    (where_ (λ s, us_UserId s = userId ∧ us_Status s = UserSubscriptionStatusExpired ∧
                  us_UpgradeGroup s ≠ "") (user_subscriptions db1)))) by done.
  destruct (order_by by_end_time_desc _) as [|last l].
  { wp_step. apply HOk, Hkeep. left. split; [done|]. right. rewrite Hlast. by intros. }
  cbn [head] in Hlast. cbv zeta.
  assert (Hno : ¬ gives_back last (group_of db userId) → expired_user env now db db1 userId).
  { intros Hg. apply Hkeep. left. split; [done|]. right. rewrite Hlast. by intros x [= <-]. }
  wp_step; [wp_step; apply HOk, Hno; unfold gives_back; tauto|].
  wp_step. wp_pass. wp_step. wp_step. wp_step. change (users db1) with (users db).
  fold (group_of db userId). wp_step; [wp_step; apply HOk, Hno; unfold gives_back; tauto|].
  wp_step. wp_step. wp_step. apply HOk. split; [done| |done|done|].
  - split; try done. by apply same_wallets_update.
  - right. split; [done|]. exists last. split_and!; [done| |done]. unfold gives_back.
    destruct (decide (group_of db userId = TrimSpace (us_UpgradeGroup last))); tauto.
Qed.

Lemma update_where_ext {R} `{Row R} (P1 P2 : R → Prop) `{∀ r, Decision (P1 r)} `{∀ r, Decision (P2 r)} f t :
  (∀ r, r ∈ rows t → P1 r ↔ P2 r) → update_where P1 f t = update_where P2 f t.
Proof.
  intros HP. unfold update_where. f_equal. apply list_fmap_ext. intros i r Hr%list_elem_of_lookup_2.
  apply decide_ext. auto.
Qed.

Lemma affected_ext {R} `{Row R} (P1 P2 : R → Prop) `{∀ r, Decision (P1 r)} `{∀ r, Decision (P2 r)} t :
  (∀ r, r ∈ rows t → P1 r ↔ P2 r) → affected P1 t = affected P2 t.
Proof.
  intros HP. unfold affected, where_. do 2 f_equal. revert HP. generalize (rows t) as l.
  induction l as [|r l IH]; intros HP; [done|]. rewrite !filter_cons.
  assert (P1 r ↔ P2 r) as Hr by (apply HP; by left).
  rewrite IH by (intros; apply HP; by right). case_decide; case_decide; tauto.
Qed.

Section ExpireLoop.
Context (env : Env) (now : Z).

Definition due_of (ids : list Z) (s : UserSubscription) : Prop := us_UserId s ∈ ids ∧ due now s.
Global Instance due_of_dec ids s : Decision (due_of ids s).
Proof. unfold due_of. solve_decision. Defined.

Lemma expire_not_due s : ¬ due now (expire env s).
Proof. by intros []. Qed.

Lemma expire_cons u ids subs :
  update_where (due_of ids) (expire env)
    (update_where (λ s, us_UserId s = u ∧ due now s) (expire env) subs) =
  update_where (due_of (u :: ids)) (expire env) subs.
Proof.
  unfold update_where. cbn [rows next_id]. f_equal. rewrite <-list_fmap_compose.
  apply list_fmap_ext. intros i s _. cbn. unfold due_of.
  pose proof (elem_of_cons ids (us_UserId s) u) as Hcons.
  destruct (decide (us_UserId s = u ∧ due now s)) as [Hs|Hs].
  - rewrite decide_False by (intros [_ []%expire_not_due]). rewrite decide_True by tauto. done.
  - apply decide_ext. tauto.
Qed.

Lemma affected_cons u ids subs :
  u ∉ ids →
  affected (due_of (u :: ids)) subs =
  affected (λ s, us_UserId s = u ∧ due now s) subs +
  affected (due_of ids) (update_where (λ s, us_UserId s = u ∧ due now s) (expire env) subs).
Proof.
  intros Hu. unfold affected, where_, update_where. cbn [rows]. generalize (rows subs) as l.
  induction l as [|s l IH]; [done|]. csimpl. rewrite !filter_cons. unfold due_of in *.
  pose proof (elem_of_cons ids (us_UserId s) u) as Hcons.
  destruct (decide (us_UserId s = u ∧ due now s)) as [Hs|Hs].
  - rewrite (decide_True (P := us_UserId s ∈ u :: ids ∧ due now s)) by tauto.
    rewrite (decide_False (P := us_UserId (expire env s) ∈ ids ∧ _)) by (intros [_ []%expire_not_due]).
    cbn [length]. lia.
  - destruct (decide (us_UserId s ∈ ids ∧ due now s)) as [Hi|Hi].
    + rewrite decide_True by tauto. cbn [length]. lia.
    + rewrite decide_False by tauto. done.
Qed.

Lemma affected_nonneg {R} `{Row R} (P : R → Prop) `{∀ r, Decision (P r)} t : 0 ≤ affected P t.
Proof. unfold affected. lia. Qed.

Lemma wp_expire_users ids count (Q : result Z → DB → Prop) db :
  NoDup ids → Forall (λ u, 0 < u) ids → 0 ≤ count →
  count + affected (due_of ids) (user_subscriptions db) ≤ max_int64 →
  (∀ db', user_subscriptions db' = update_where (due_of ids) (expire env) (user_subscriptions db) →
     sub_frame db db' → Q (Ok (count + affected (due_of ids) (user_subscriptions db))) db') →
  wp (expire_users env now ids count) Q db.
Proof.
  intros Hnd. revert count db. induction Hnd as [|u ids Hu Hnd IH]; intros count db Hpos Hc Hfit HOk; cbn [expire_users].
  - assert (Hnone : ∀ s, ¬ due_of [] s) by (intros s [[]%not_elem_of_nil _]).
    wp_step. replace count with (count + affected (due_of []) (user_subscriptions db)).
    2:{ unfold affected, where_. rewrite filter_none; [cbn; lia|]. intros; apply Hnone. }
    apply HOk; [|apply sub_frame_refl]. destruct (user_subscriptions db) as [l n]. unfold update_where. cbn. f_equal.
    symmetry. transitivity (id <$> l); [|apply list_fmap_id]. apply list_fmap_ext. intros i s _.
    by rewrite decide_False by apply Hnone.
  - inversion Hpos as [|? ? Hu0 Hpos']; subst. rewrite affected_cons in Hfit by done. wp_step.
    apply wp_expire_user; [done|]. intros db1 [Hsubs Hfr _ _ _].
    rewrite <-Hsubs in Hfit. pose proof (affected_nonneg (due_of ids) (user_subscriptions db1)).
    pose proof (affected_nonneg (λ s, us_UserId s = u ∧ due now s) (user_subscriptions db)). unwrap.
    apply IH; [done|lia|lia|]. intros db' Hsubs' Hfr'. rewrite <-Z.add_assoc.
    rewrite Hsubs in Hsubs' |- *. rewrite <-affected_cons by done.
    apply HOk; [|by eapply sub_frame_trans]. by rewrite Hsubs', expire_cons.
Qed.
End ExpireLoop.

(** The users a run of the task visits. *)
Lemma due_users now limit shuffle subs :
  (∀ l, shuffle l ≡ₚ l) → affected (due now) subs ≤ limit →
  let ids := shuffle (remove_dups (filter (λ u, u > 0)
    (us_UserId <$> take (Z.to_nat limit) (order_by by_end_time (where_ (due now) subs))))) in
  NoDup ids ∧ ∀ u, u ∈ ids ↔ u > 0 ∧ ∃ s, s ∈ rows subs ∧ due now s ∧ us_UserId s = u.
Proof.
  intros Hsh Hall ids.
  pose proof (merge_sort_Permutation by_end_time (where_ (due now) subs)) as Hperm.
  assert (Htake : take (Z.to_nat limit) (order_by by_end_time (where_ (due now) subs)) =
                  order_by by_end_time (where_ (due now) subs)).
  { apply take_ge. unfold order_by. rewrite Hperm. unfold affected in Hall. lia. }
  split.
  - unfold ids. rewrite Hsh. apply NoDup_remove_dups.
  - intros u. unfold ids. rewrite Hsh, elem_of_remove_dups, list_elem_of_filter, Htake, list_elem_of_fmap.
    unfold order_by. setoid_rewrite Hperm. setoid_rewrite where_elem. naive_solver.
Qed.

(** C39: a run of the expiry task that can take in every subscription that is due
    returns, whatever order it visits the users in; it marks exactly the due
    subscriptions as expired, reports their number, and touches neither the other
    subscriptions, nor the accounting, the reset cards or the wallets. *)
Theorem expire_due_complete env shuffle limit db :
  Accounting db → (∀ l, shuffle l ≡ₚ l) → limit ≤ max_int64 →
  affected (due (db_now env)) (user_subscriptions db) ≤ (if decide (limit ≤ 0) then 200 else limit) →
  Forall (λ s, 0 < us_UserId s) (rows (user_subscriptions db)) →
  ∃ db', ExpireDueSubscriptions env shuffle limit db =
      (Ok (affected (due (db_now env)) (user_subscriptions db)), db') ∧
    user_subscriptions db' = update_where (due (db_now env)) (expire env) (user_subscriptions db) ∧
    Accounting db' ∧ sub_frame db db'.
Proof.
  intros Hacc Hsh Hlim Hall Hpos. rewrite Forall_forall in Hpos.
  assert (Hwp : wp (ExpireDueSubscriptions env shuffle limit)
    (λ r d, r = Ok (affected (due (db_now env)) (user_subscriptions db)) ∧
       user_subscriptions d = update_where (due (db_now env)) (expire env) (user_subscriptions db) ∧
       sub_frame db d) db).
  { unfold ExpireDueSubscriptions. wp_step. wp_step.
    set (ids := shuffle _). assert (Hids : NoDup ids ∧ ∀ u, u ∈ ids ↔ u > 0 ∧
      ∃ s, s ∈ rows (user_subscriptions db) ∧ due (db_now env) s ∧ us_UserId s = u).
    { by apply due_users. }
    destruct Hids as [Hnd Hin].
    assert (Heq : ∀ s, s ∈ rows (user_subscriptions db) → due_of (db_now env) ids s ↔ due (db_now env) s).
    { intros s Hs. unfold due_of. rewrite Hin. specialize (Hpos s Hs). split; [tauto|]. intros Hd.
      split; [|done]. split; [lia|]. by exists s. }
    assert (Haff := affected_ext _ _ _ Heq). rewrite <-Haff in *.
    apply wp_expire_users; [done| |lia| |].
    - apply Forall_forall. intros u [? _]%Hin. lia.
    - case_decide; lia.
    - intros d Hsubs Hfr. split_and!; [done| |done]. rewrite Hsubs. by apply update_where_ext. }
  unfold wp in Hwp. destruct (ExpireDueSubscriptions env shuffle limit db) as [r d].
  destruct Hwp as (Hr & Hsubs & Hfr). cbn in Hr, Hsubs, Hfr. exists d. rewrite Hr. split_and!; try done.
  unfold Accounting. rewrite Hsubs, (sf_plans _ _ Hfr), (sf_usage _ _ Hfr), (sf_pre _ _ Hfr).
  apply accounting_update; [by split|exact Hacc].
Qed.

(** ** Groups over the life of a subscription *)

Lemma update_where_app {R} `{Row R} (P : R → Prop) `{∀ r, Decision (P r)} f (l : list R) r n m :
  rows (update_where P f (Table (l ++ [r]) n)) =
  rows (update_where P f (Table l m)) ++ [if decide (P r) then f r else r].
Proof. unfold update_where. cbn. by rewrite fmap_app. Qed.

Global Instance by_end_time_desc_total : Total by_end_time_desc.
Proof. intros s1 s2. unfold by_end_time_desc. lia. Qed.
Global Instance by_end_time_desc_trans : Transitive by_end_time_desc.
Proof. intros s1 s2 s3. unfold by_end_time_desc. lia. Qed.

(** The last to end is at or after every other expired upgrade. *)
Lemma last_upgrade_max subs userId last s :
  last_upgrade subs userId = Some last → s ∈ rows subs → us_UserId s = userId →
  us_Status s = UserSubscriptionStatusExpired → us_UpgradeGroup s ≠ "" →
  last ∈ rows subs ∧ us_UserId last = userId ∧ us_UpgradeGroup last ≠ "" ∧
  (last = s ∨ by_end_time_desc last s).
Proof.
  unfold last_upgrade, order_by. set (l := where_ _ subs).
  pose proof (merge_sort_Permutation by_end_time_desc l) as Hp.
  pose proof (StronglySorted_merge_sort by_end_time_desc l) as Hsort.
  intros Hhead Hs Hu Hst Hg.
  assert (Hin : s ∈ merge_sort by_end_time_desc l) by (rewrite Hp; by apply where_elem).
  destruct (merge_sort by_end_time_desc l) as [|x k]; [done|]. injection Hhead as ->.
  assert (Hlast : last ∈ l) by (rewrite <-Hp; by left). apply where_elem in Hlast as [(? & ? & ?) ?].
  split_and!; try done. apply elem_of_cons in Hin as [->|Hin]; [by left|right].
  apply StronglySorted_inv in Hsort as [_ Hall]. rewrite Forall_forall in Hall. auto.
Qed.

Lemma last_upgrade_Some subs userId s :
  s ∈ rows subs → us_UserId s = userId → us_Status s = UserSubscriptionStatusExpired →
  us_UpgradeGroup s ≠ "" → is_Some (last_upgrade subs userId).
Proof.
  intros Hs Hu Hst Hg. unfold last_upgrade, order_by. set (l := where_ _ subs).
  assert (Hin : s ∈ merge_sort by_end_time_desc l)
    by (rewrite merge_sort_Permutation; by apply where_elem).
  destruct (merge_sort by_end_time_desc l); [by apply not_elem_of_nil in Hin|by eexists].
Qed.

(** One subscription from its purchase to its expiry. *)
Section Life.
Context (env env' : Env) (userId now count : Z) (plan : SubscriptionPlan) (source : string).
Context (db db1 db2 : DB) (sub : UserSubscription).
Let np := normalizeValuePackagePlan plan.
Hypothesis Htot : sp_TotalAmount np ≤ max_int64.
Hypothesis Hcreate : CreateUserSubscriptionFromPlanTx env userId plan source db = (Ok sub, db1).
Hypothesis Hend : 0 < us_EndTime sub ≤ now.
Hypothesis Hexpire : expire_user env' now userId db1 = (Ok count, db2).

Lemma life_subscribed : subscribed env db db1 userId np source sub ∧ 0 < userId.
Proof.
  refine (wp_run _ (λ r d, match r with
    | Ok x => subscribed env db d userId np source x ∧ 0 < userId | Err _ => True end) _ _ _ _ Hcreate).
  by apply wp_create_regular.
Qed.

Lemma life_expired : expired_user env' now db1 db2 userId.
Proof.
  refine (wp_run _ (λ r d, match r with
    | Ok _ => expired_user env' now db1 d userId | Err _ => True end) _ _ _ _ Hexpire).
  destruct life_subscribed. by apply wp_expire_user.
Qed.

(** The rows at the end. *)
Lemma life_rows x :
  x ∈ rows (user_subscriptions db2) →
  x = expire env' sub ∨
  ∃ s, s ∈ rows (user_subscriptions db) ∧ us_Id x = us_Id s ∧ us_UserId x = us_UserId s ∧
    us_EndTime x = us_EndTime s ∧ us_UpgradeGroup x = us_UpgradeGroup s.
Proof.
  destruct life_subscribed as [Hs _]. destruct (sd_owner _ _ _ _ _ _ _ Hs) as (Hu & _ & _ & Hst).
  rewrite (eu_subs _ _ _ _ _ life_expired), elem_of_update_where, (sd_rows _ _ _ _ _ _ _ Hs).
  setoid_rewrite elem_of_app. setoid_rewrite list_elem_of_singleton.
  intros [[[Hx| ->] Hn]|(s & [Hx| ->] & Hd & ->)]; [right; by exists x| |right; by exists s|by left].
  destruct Hn. unfold due. split_and!; [done|done|lia|lia].
Qed.

Lemma life_end : expire env' sub ∈ rows (user_subscriptions db2).
Proof.
  destruct life_subscribed as [Hs _]. destruct (sd_owner _ _ _ _ _ _ _ Hs) as (Hu & _ & _ & Hst).
  rewrite (eu_subs _ _ _ _ _ life_expired), elem_of_update_where, (sd_rows _ _ _ _ _ _ _ Hs).
  right. exists sub. split_and!; [|done| |done].
  - apply elem_of_app. right. by left.
  - unfold due. split_and!; [done|lia|lia].
Qed.

(** The last upgrade to end, when the subscription raises a group. *)
Lemma life_last :
  us_UpgradeGroup sub ≠ "" →
  ∃ last, last_upgrade (user_subscriptions db2) userId = Some last ∧
    last ∈ rows (user_subscriptions db2) ∧ us_UserId last = userId ∧ us_UpgradeGroup last ≠ "" ∧
    (last = expire env' sub ∨ by_end_time_desc last (expire env' sub)).
Proof.
  intros Hg. destruct life_subscribed as [Hs _]. destruct (sd_owner _ _ _ _ _ _ _ Hs) as (Hu & _).
  destruct (last_upgrade_Some (user_subscriptions db2) userId (expire env' sub)) as [last Hlast];
    [apply life_end|done|done|done|].
  exists last. split; [done|]. by apply (last_upgrade_max _ _ _ (expire env' sub)); [|apply life_end|..].
Qed.
End Life.

(** Buying a subscription that raises the group of a user and letting it
    expire gives the user the old group back, when no other subscription of the
    user raises a group. *)
Theorem expiry_returns_group env env' userId plan source now db db1 db2 sub count :
  sp_TotalAmount (normalizeValuePackagePlan plan) ≤ max_int64 → table_wf (user_subscriptions db) →
  is_Some (by_id userId (users db)) →
  TrimSpace (group_of db userId) = group_of db userId → group_of db userId ≠ "" →
  TrimSpace (sp_UpgradeGroup (normalizeValuePackagePlan plan)) ≠ "" →
  TrimSpace (sp_UpgradeGroup (normalizeValuePackagePlan plan)) ≠ group_of db userId →
  Forall (λ s, us_UserId s = userId → us_UpgradeGroup s = "") (rows (user_subscriptions db)) →
  CreateUserSubscriptionFromPlanTx env userId plan source db = (Ok sub, db1) →
  0 < us_EndTime sub ≤ now →
  expire_user env' now userId db1 = (Ok count, db2) →
  group_of db1 userId = us_UpgradeGroup sub ∧ group_of db2 userId = group_of db userId.
Proof.
  intros Htot Hwf Huser Htrim Hg0 Hg1 Hne Hnone Hcreate Hend Hexpire. rewrite Forall_forall in Hnone.
  pose proof (life_subscribed _ _ _ _ _ _ _ Htot Hcreate) as [Hs _].
  pose proof (life_expired _ _ _ _ _ _ _ _ _ _ _ Htot Hcreate Hexpire) as He.
  destruct (sd_group _ _ _ _ _ _ _ Hs) as [Hup [(_ & _ & [?|?])|(Hprev & _ & _ & Hus)]]; [congruence..|].
  assert (Hg : group_of db1 userId = us_UpgradeGroup sub).
  { rewrite (group_of_set db db1 userId _ userId Hus). by rewrite decide_True. }
  assert (Hlive : ∀ x, x ∈ rows (user_subscriptions db2) → us_UserId x = userId → us_UpgradeGroup x ≠ "" →
    x = expire env' sub).
  { intros x Hx Hu Hx2. destruct (life_rows _ _ _ _ _ _ _ _ _ _ _ Htot Hcreate Hend Hexpire x Hx)
      as [->|(s & Hin & _ & H2 & _ & H4)]; [done|]. destruct Hx2. rewrite H4. apply Hnone; [done|congruence]. }
  split; [done|].
  assert (Hback : gives_back (expire env' sub) (group_of db1 userId)).
  { unfold gives_back. cbn. rewrite Hg, Hprev, Htrim, Hup, TrimSpace_idem. by split_and!. }
  destruct (life_last _ _ _ _ _ _ _ _ _ _ _ Htot Hcreate Hend Hexpire) as (last & Hlast & Hin & Hu & Hlg & _);
    [congruence|].
  apply Hlive in Hin; [|done|done]. subst last.
  destruct (eu_users _ _ _ _ _ He) as [[_ [Hact|Hno]]|(_ & last & Hlast' & _ & Hus2)].
  - destruct Hact. apply filter_none. intros x Hx (Hxu & Hst & _ & _ & Hxg).
    apply Hlive in Hx; [|done|done]. by subst x.
  - by destruct (Hno _ Hlast).
  - rewrite Hlast in Hlast'. injection Hlast' as <-. rewrite (group_of_set db1 db2 userId _ userId Hus2).
    rewrite decide_True; [cbn; by rewrite Hprev, Htrim|]. split; [done|].
    rewrite Hus, by_id_update_users by done. by apply fmap_is_Some.
Qed.

(** A user who is already in the group of a plan keeps that group for good
    when the subscription is the last of the user's to end: the subscription
    records no previous group, so that its expiry gives none back, even after every
    subscription that raised the group is over. *)
Theorem repurchase_keeps_group env env' userId plan source now db db1 db2 sub count :
  sp_TotalAmount (normalizeValuePackagePlan plan) ≤ max_int64 → table_wf (user_subscriptions db) →
  group_of db userId = TrimSpace (sp_UpgradeGroup (normalizeValuePackagePlan plan)) →
  Forall (λ s, us_UserId s = userId → us_UpgradeGroup s ≠ "" → us_EndTime s ≤ us_EndTime sub)
    (rows (user_subscriptions db)) →
  CreateUserSubscriptionFromPlanTx env userId plan source db = (Ok sub, db1) →
  0 < us_EndTime sub ≤ now →
  expire_user env' now userId db1 = (Ok count, db2) →
  group_of db2 userId = us_UpgradeGroup sub.
Proof.
  intros Htot Hwf Hgroup Hends Hcreate Hend Hexpire. rewrite Forall_forall in Hends.
  pose proof (life_subscribed _ _ _ _ _ _ _ Htot Hcreate) as [Hs _].
  pose proof (life_expired _ _ _ _ _ _ _ _ _ _ _ Htot Hcreate Hexpire) as He.
  destruct (sd_group _ _ _ _ _ _ _ Hs) as [Hup [(Hprev & Hus & _)|(Hprev & Hne & _)]]; [|congruence].
  assert (Hsame : group_of db1 userId = us_UpgradeGroup sub) by (unfold group_of in *; by rewrite Hus, Hup).
  destruct (eu_users _ _ _ _ _ He) as [[Hus2 _]|(_ & last & Hlast & Hback & _)];
    [unfold group_of in *; by rewrite Hus2|].
  exfalso. destruct (decide (us_UpgradeGroup sub = "")) as [Hemp|Hg].
  { destruct Hback as (H1 & _ & H3 & _). congruence. }
  destruct (life_last _ _ _ _ _ _ _ _ _ _ _ Htot Hcreate Hend Hexpire Hg) as (l & Hl & Hin & Hu & Hlg & Hmax).
  rewrite Hlast in Hl. injection Hl as <-.
  assert (last = expire env' sub) as ->; [|by destruct Hback as (_ & H2 & _); cbn in H2; rewrite Hprev in H2].
  destruct Hmax as [?|Hmax]; [done|].
  destruct (life_rows _ _ _ _ _ _ _ _ _ _ _ Htot Hcreate Hend Hexpire last Hin)
    as [?|(s & Hsin & H1 & H2 & H3 & H4)]; [done|]. exfalso.
  pose proof (wf_elem _ _ Hwf Hsin) as [_ Hid]. cbn in Hid. unfold by_end_time_desc in Hmax. cbn in Hmax.
  pose proof (sd_id _ _ _ _ _ _ _ Hs). specialize (Hends s Hsin). rewrite <-H2, <-H4, <-H3 in Hends.
  specialize (Hends Hu Hlg). lia.
Qed.

(** *** Examples *)

Definition pro_plan : SubscriptionPlan := (example_plan "day" 1 0) <| sp_UpgradeGroup := "pro" |>.

Definition pending_order : SubscriptionOrder :=
  mkOrder 1 1 1 1000000 "T1" "alipay" "epay" 0 0 "pending" 900 0 "".

(** A user of the default group with a wallet and a pending order. *)
Definition life_db : DB :=
  empty_DB <| users := Table [example_user 1 900000 0 0] 2 |>
    <| subscription_plans := Table [pro_plan] 2 |>
    <| subscription_orders := Table [pending_order] 2 |>.

Lemma life_typed : plans_typed life_db.
Proof.
  intros id p. unfold plan_of, by_id, first. case_decide; [done|]. cbn -[filter].
  rewrite filter_cons, filter_nil. case_decide; [|done]. intros [= <-]. vm_compute. done.
Qed.

Definition life_env (t : Z) : Env := mkEnv t t 28800 (float_of_int 500000).

Definition paid_db : DB := (CompleteSubscriptionOrder (life_env 1000) "T1" "{}" "epay" "" life_db).2.

Example order_completed_witness :
  ∃ plan sub, order_paid (life_env 1000) life_db paid_db pending_order "{}" "" plan sub.
Proof.
  destruct (order_completed (life_env 1000) "T1" "{}" "epay" "" life_db paid_db) as (order & Ho & H).
  - exact life_typed.
  - vm_compute. reflexivity.
  - vm_compute in Ho. injection Ho as <-. destruct H as [[H _]|(_ & plan & sub & H & _)]; [discriminate H|].
    exists plan, sub. exact H.
Defined.

Example order_completion_idempotent_witness :
  CompleteSubscriptionOrder (life_env 2000) "T1" "again" "epay" "wechat" paid_db = (Ok tt, paid_db).
Proof.
  apply (order_completion_idempotent (life_env 1000) (life_env 2000) "T1" "{}" "again" "epay" "" "wechat" life_db).
  - exact life_typed.
  - vm_compute. reflexivity.
Defined.

Definition balance_db : DB := (PurchaseSubscriptionWithBalance (D := rational_decimals) (life_env 1000) "B1" 1 1 life_db).2.

Example balance_purchase_charges_witness : wallet balance_db 1 = Some 400000.
Proof.
  destruct (balance_purchase_charges (D := rational_decimals) (life_env 1000) "B1" 1 1 life_db (Ok tt) balance_db)
    as (plan & q & sub & Hpaid & _).
  - exact life_typed.
  - vm_compute. reflexivity.
  - destruct (bp_wallet _ _ _ _ _ _ _ _ Hpaid) as (w & Hw & _ & _). vm_compute. reflexivity.
Defined.

(** The user has bought the plan once, and twice. *)
Definition once : result UserSubscription * DB :=
  CreateUserSubscriptionFromPlanTx (life_env 1000) 1 pro_plan "order" life_db.
Definition once_sub : UserSubscription :=
  mkSub 1 1 1 1000 0 0 1000 87400 "active" "order" 0 0 0 0 "pro" "default" 1000 1000.
Definition twice : result UserSubscription * DB :=
  CreateUserSubscriptionFromPlanTx (life_env 2000) 1 pro_plan "order" once.2.
Definition twice_sub : UserSubscription :=
  mkSub 2 1 1 1000 0 0 2000 88400 "active" "order" 0 0 0 0 "pro" "" 2000 2000.

Definition expired_run (db : DB) : result Z * DB :=
  ExpireDueSubscriptions (life_env 1000000) (λ l, l) 0 db.

Example expire_due_complete_witness :
  ∃ db', expired_run twice.2 = (Ok 2, db') ∧ Accounting db'.
Proof.
  destruct (expire_due_complete (life_env 1000000) (λ l, l) 0 twice.2) as (db' & Hrun & _ & Hacc & _).
  - unfold Accounting. vm_compute. split; [split_and!; repeat constructor; done|..].
    + split; [apply wf_empty|by intros ? ? ?%not_elem_of_nil|constructor].
    + split; [apply wf_empty|by intros ? ? ?%not_elem_of_nil|constructor].
    + repeat constructor; done.
    + constructor.
    + constructor.
    + constructor.
  - done.
  - done.
  - vm_compute. discriminate.
  - vm_compute. repeat constructor.
  - exists db'. split; [exact Hrun|exact Hacc].
Defined.

Example expiry_returns_group_witness : group_of (expire_user (life_env 1000000) 1000000 1 once.2).2 1 = "default".
Proof.
  refine (proj2 (expiry_returns_group (life_env 1000) (life_env 1000000) 1 pro_plan "order" 1000000 life_db once.2
    (expire_user (life_env 1000000) 1000000 1 once.2).2 once_sub 1 _ _ _ _ _ _ _ _ _ _ _)).
  - vm_compute. discriminate.
  - apply wf_empty.
  - vm_compute. eauto.
  - vm_compute. reflexivity.
  - vm_compute. discriminate.
  - vm_compute. discriminate.
  - vm_compute. discriminate.
  - constructor.
  - vm_compute. reflexivity.
  - done.
  - vm_compute. reflexivity.
Defined.

(** Two purchases of the same plan, the second before the first is over: when both
    are expired the user still has the group. *)
Example repurchase_keeps_group_witness :
  group_of (expire_user (life_env 1000000) 1000000 1 twice.2).2 1 = "pro".
Proof.
  refine (repurchase_keeps_group (life_env 2000) (life_env 1000000) 1 pro_plan "order" 1000000 once.2 twice.2
    (expire_user (life_env 1000000) 1000000 1 twice.2).2 twice_sub 2 _ _ _ _ _ _ _).
  - vm_compute. discriminate.
  - split_and!; vm_compute; repeat constructor.
  - vm_compute. reflexivity.
  - vm_compute. repeat constructor; discriminate.
  - vm_compute. reflexivity.
  - done.
  - vm_compute. reflexivity.
Defined.
