(* ===== verification/Topups.v ===== *)
(** * Top-ups

    [model/topup.go], [model/svip.go], [model/affiliate.go]: what a paid top-up
    brings.  A payment notification, or an administrator, completes a pending
    top-up and credits the wallet of its user; the user who invited the payer earns
    a commission; top-ups that count are added up towards the SVIP badge.  Logs and
    caches are left out.

    Amounts of money that the code computes with as [float64] (the commission and
    the quota of a Stripe payment) are floating-point numbers here as well; the
    rounding to cents is that of the decimal package ([Decimals]).  [uuid] is the
    identifier drawn for a new commission. *)
From S2P Require Import Prelude Tables GoFloat GoTime Schema Plans Windows Cycles Consume Accounting Ledger Preferences Cards Purchases Lifecycle.

(** ** Definitions *)

Definition PaymentProviderEpay := "epay".
Definition PaymentProviderStripe := "stripe".
Definition PaymentProviderCreem := "creem".
Definition PaymentProviderWaffo := "waffo".
Definition PaymentProviderWaffoPancake := "waffo_pancake".
Definition PaymentProviderRedemptionCode := "redemption_code".
Definition PaymentProviderLDXP := "ldxp".
Definition PaymentMethodRedemptionCode := "redemption_code".

Definition AffiliateCommissionStatusAvailable := "available".

(** The [float64] constant 0.15. *)
Definition AffiliateCommissionRate : float64 := float_div (float_of_int 15) (float_of_int 100).

(** *** Lifetime top-ups *)

Definition SVIPThresholdCents := 20000.

Definition IsSVIPValidTopupCents (cents : Z) : bool := bool_decide (SVIPThresholdCents ≤ cents).

Definition IsSVIP (user : User) : bool := IsSVIPValidTopupCents (u_ValidTopupCents user).

(** [Round(0)] rounds half away from zero; the money is in millionths. *)
Definition MoneyToValidTopupCents (money : Z) : Z :=
  if decide (money ≤ 0) then 0
  else
    let cents := (money + 5000) / 10000 in
    if decide (cents > max_int64) then 0 else cents.

Definition AmountToValidTopupCents (amount : Z) : Z :=
  if decide (amount ≤ 0 ∨ amount > max_int64 /! 100) then 0 else amount *! 100.

Definition validTopupCentsForTopUp (topUp : TopUp) : Z :=
  if decide (tu_Amount topUp > 0) then AmountToValidTopupCents (tu_Amount topUp)
  else MoneyToValidTopupCents (tu_Money topUp).

(** [tx.Model(&User{}).Where("id = ?", id).Updates(...)] and the rows it affects. *)
Definition update_user (userId : Z) (f : User → User) : Tx Z :=
  db ← get;
  _ ← modify (λ d, d <| users ::= update_where (λ u, u_Id u = userId) f |>);
  mret (affected (λ u, u_Id u = userId) (users db)).

Definition AddUserValidTopupCentsTx (userId cents : Z) : Tx () :=
  if decide (userId ≤ 0 ∨ cents ≤ 0) then mret tt
  else
    rowsAffected ← update_user userId (λ u, u <| u_ValidTopupCents ::= λ c, c + cents |>
                                              <| u_TopupWatermark ::= λ c, c + cents |>);
    fail_if (rowsAffected ≠ 1) ErrRecordNotFound.

Definition IncreaseUserQuotaAndValidTopupCents (userId quota cents : Z) : Tx () :=
  _ ← fail_if (userId ≤ 0) ErrRecordNotFound;
  _ ← fail_if (quota ≤ 0) (ErrNew "quota must be positive");
  _ ← fail_if (cents < 0) (ErrNew "valid topup cents cannot be negative");
  rowsAffected ← update_user userId (λ u, u <| u_Quota ::= λ q, q + quota |>
    <| u_ValidTopupCents ::= λ c, if decide (cents > 0) then c + cents else c |>);
  fail_if (rowsAffected ≠ 1) ErrRecordNotFound.

(** The lifetime top-ups of a user and the part of the history they account for. *)
Definition lifetime (db : DB) (userId : Z) : option (Z * Z) :=
  (λ u, (u_ValidTopupCents u, u_TopupWatermark u)) <$> by_id userId (users db).

Section Commissions.
Context {D : Decimals}.

(** *** Commissions *)

Definition roundAffiliateMoney (value : float64) : float64 :=
  if isFiniteRatio value then Float64 (Round (NewFromFloat value) 2) else value.

(** [prefix + strings.ReplaceAll(common.GetUUID(), "-", "")]. *)
Definition newAffiliatePublicID (uuid prefix : string) : string :=
  prefix +:+ String.string_of_list_ascii
               (filter (λ c, c ≠ "-"%char) (String.list_ascii_of_string uuid)).

Definition commission_of_topup (topupId : Z) (db : DB) : option AffiliateCommission :=
  first (λ c, ac_TopupId c = topupId) (affiliate_commissions db).

(** [tx.Create(&commission)]: public identifiers and top-ups are unique. *)
Definition create_commission (c : AffiliateCommission) : Tx () :=
  db ← get;
  _ ← fail_if (where_ (λ x, ac_CommissionId x = ac_CommissionId c ∨ ac_TopupId x = ac_TopupId c)
                 (affiliate_commissions db) ≠ []) ErrDatabase;
  modify (λ d, d <| affiliate_commissions ::= insert_row c |>).

Definition MaybeCreateAffiliateCommissionForTopUpTx (env : Env) (uuid : string) (topUp : TopUp) : Tx () :=
  if decide (tu_Id topUp ≤ 0 ∨ tu_UserId topUp ≤ 0 ∨ tu_Status topUp ≠ TopUpStatusSuccess ∨
             tu_Money topUp ≤ 0) then mret tt
  else
    db ← get;
    if decide (commission_of_topup (tu_Id topUp) db ≠ None) then mret tt
    else
      match by_id (tu_UserId topUp) (users db) with
      | None => mret tt
      | Some invitee =>
        if decide (u_InviterId invitee ≤ 0 ∨ u_InviterId invitee = u_Id invitee) then mret tt
        else
          match by_id (u_InviterId invitee) (users db) with
          | None => mret tt
          | Some inviter =>
            let commissionMoney :=
              roundAffiliateMoney (float_mul (money_float (tu_Money topUp)) AffiliateCommissionRate) in
            if (commissionMoney <=? float_zero)%float || negb (isFiniteRatio commissionMoney) then mret tt
            else
              let now := app_now env in
              create_commission
                (mkCommission 0 (newAffiliatePublicID uuid "affc_") (u_Id inviter) (u_Id invitee)
                   (tu_Id topUp) (tu_TradeNo topUp) (roundAffiliateMoney (money_float (tu_Money topUp)))
                   AffiliateCommissionRate commissionMoney AffiliateCommissionStatusAvailable now now)
          end
      end.

Definition MaybeCreateAffiliateCommissionForTopUp (env : Env) (uuid : string) (topupID : Z) : Tx () :=
  transaction (
    db ← get;
    topUp ← or_error (by_id topupID (top_ups db)) ErrRecordNotFound;
    MaybeCreateAffiliateCommissionForTopUpTx env uuid topUp).

(** *** Completing a top-up *)

Definition save_topup (t : TopUp) : Tx () := modify (λ d, d <| top_ups ::= save t |>).

(** The top-up as it is marked complete. *)
Definition completed_topup (env : Env) (topUp : TopUp) : TopUp :=
  topUp <| tu_CompleteTime := app_now env |> <| tu_Status := TopUpStatusSuccess |>.

(** [decimal.NewFromInt(amount).Mul(decimal.NewFromFloat(common.QuotaPerUnit)).IntPart()]. *)
Definition amount_quota (env : Env) (topUp : TopUp) : Z :=
  IntPart (Mul (NewFromInt (tu_Amount topUp)) (NewFromFloat (quota_per_unit env))).

(** The same of the money, which is in millionths. *)
Definition money_quota (env : Env) (topUp : TopUp) : Z :=
  IntPart (Mul (NewFromFloat (money_float (tu_Money topUp))) (NewFromFloat (quota_per_unit env))).

(** The error a failed notification is answered with. *)
Definition masked {A} (m : Tx A) : Tx A :=
  r ← attempt m;
  match r with
  | Ok a => mret a
  | Err _ => throw (ErrNew "充值失败，请稍后重试")
  end.

Definition UpdatePendingTopUpStatus (tradeNo expectedPaymentProvider targetStatus : string) : Tx () :=
  _ ← fail_if (tradeNo = "") (ErrNew "未提供支付单号");
  transaction (
    db ← get;
    topUp ← or_error (topup_by_trade_no tradeNo db) (ErrVar "ErrTopUpNotFound");
    _ ← fail_if (expectedPaymentProvider ≠ "" ∧ tu_PaymentProvider topUp ≠ expectedPaymentProvider)
          (ErrVar "ErrPaymentMethodMismatch");
    _ ← fail_if (tu_Status topUp ≠ TopUpStatusPending) (ErrVar "ErrTopUpStatusInvalid");
    save_topup (topUp <| tu_Status := targetStatus |>)).

(** Stripe.  [add] is what the database stores in the integer column for the sum of
    its value and a [float64]. *)
Definition Recharge (env : Env) (uuid : string) (add : Z → float64 → Z)
    (referenceId customerId : string) : Tx () :=
  _ ← fail_if (referenceId = "") (ErrNew "未提供支付单号");
  masked (transaction (
    db ← get;
    topUp ← or_error (topup_by_trade_no referenceId db) (ErrNew "充值订单不存在");
    _ ← fail_if (tu_PaymentProvider topUp ≠ PaymentProviderStripe) (ErrVar "ErrPaymentMethodMismatch");
    _ ← fail_if (tu_Status topUp ≠ TopUpStatusPending) (ErrNew "充值订单状态错误");
    let topUp := completed_topup env topUp in
    _ ← save_topup topUp;
    let quota := float_mul (money_float (tu_Money topUp)) (quota_per_unit env) in
    _ ← update_user (tu_UserId topUp) (λ u, u <| u_StripeCustomer := customerId |>
                                              <| u_Quota ::= λ q, add q quota |>);
    MaybeCreateAffiliateCommissionForTopUpTx env uuid topUp)).

Definition ManualCompleteTopUp (env : Env) (uuid tradeNo : string) : Tx () :=
  _ ← fail_if (tradeNo = "") (ErrNew "未提供订单号");
  transaction (
    db ← get;
    topUp ← or_error (topup_by_trade_no tradeNo db) (ErrNew "充值订单不存在");
    if decide (tu_Status topUp = TopUpStatusSuccess) then mret tt
    else
      _ ← fail_if (tu_Status topUp ≠ TopUpStatusPending) (ErrNew "订单状态不是待支付，无法补单");
      let quotaToAdd := if decide (tu_PaymentProvider topUp = PaymentProviderStripe)
                        then money_quota env topUp else amount_quota env topUp in
      _ ← fail_if (quotaToAdd ≤ 0) (ErrNew "无效的充值额度");
      let topUp := completed_topup env topUp in
      _ ← save_topup topUp;
      _ ← update_user (tu_UserId topUp) (λ u, u <| u_Quota ::= λ q, q + quotaToAdd |>);
      MaybeCreateAffiliateCommissionForTopUpTx env uuid topUp).

Definition RechargeEpay (env : Env) (uuid referenceId actualPaymentMethod : string) : Tx () :=
  _ ← fail_if (referenceId = "") (ErrNew "未提供支付单号");
  transaction (
    db ← get;
    topUp ← or_error (topup_by_trade_no referenceId db) (ErrVar "ErrTopUpNotFound");
    _ ← fail_if (tu_PaymentProvider topUp ≠ PaymentProviderEpay) (ErrVar "ErrPaymentMethodMismatch");
    if decide (tu_Status topUp = TopUpStatusSuccess) then mret tt
    else
      _ ← fail_if (tu_Status topUp ≠ TopUpStatusPending) (ErrVar "ErrTopUpStatusInvalid");
      let topUp := if decide (actualPaymentMethod ≠ "" ∧ tu_PaymentMethod topUp ≠ actualPaymentMethod)
                   then topUp <| tu_PaymentMethod := actualPaymentMethod |> else topUp in
      let topUp := completed_topup env topUp in
      _ ← save_topup topUp;
      let quotaToAdd := amount_quota env topUp in
      _ ← fail_if (quotaToAdd ≤ 0) (ErrNew "无效的充值额度");
      _ ← update_user (tu_UserId topUp) (λ u, u <| u_Quota ::= λ q, q + quotaToAdd |>);
      MaybeCreateAffiliateCommissionForTopUpTx env uuid topUp).

Definition RechargeCreem (env : Env) (uuid referenceId customerEmail : string) : Tx () :=
  _ ← fail_if (referenceId = "") (ErrNew "未提供支付单号");
  masked (transaction (
    db ← get;
    topUp ← or_error (topup_by_trade_no referenceId db) (ErrNew "充值订单不存在");
    _ ← fail_if (tu_PaymentProvider topUp ≠ PaymentProviderCreem) (ErrVar "ErrPaymentMethodMismatch");
    _ ← fail_if (tu_Status topUp ≠ TopUpStatusPending) (ErrNew "充值订单状态错误");
    let topUp := completed_topup env topUp in
    _ ← save_topup topUp;
    let quota := tu_Amount topUp in
    email ← (if decide (customerEmail ≠ "") then
               db ← get;
               user ← or_error (by_id (tu_UserId topUp) (users db)) ErrRecordNotFound;
               mret (if decide (u_Email user = "") then Some customerEmail else None)
             else mret None);
    _ ← update_user (tu_UserId topUp) (λ u, u <| u_Quota ::= λ q, q + quota |>
                                              <| u_Email ::= λ e, default e email |>);
    MaybeCreateAffiliateCommissionForTopUpTx env uuid topUp)).

(** The transaction that Waffo and Waffo Pancake share but for the provider. *)
Definition recharge_amount (env : Env) (uuid provider tradeNo : string) : Tx () :=
  _ ← fail_if (tradeNo = "") (ErrNew "未提供支付单号");
  masked (transaction (
    db ← get;
    topUp ← or_error (topup_by_trade_no tradeNo db) (ErrNew "充值订单不存在");
    _ ← fail_if (tu_PaymentProvider topUp ≠ provider) (ErrVar "ErrPaymentMethodMismatch");
    if decide (tu_Status topUp = TopUpStatusSuccess) then mret tt
    else
      _ ← fail_if (tu_Status topUp ≠ TopUpStatusPending) (ErrNew "充值订单状态错误");
      let quotaToAdd := amount_quota env topUp in
      _ ← fail_if (quotaToAdd ≤ 0) (ErrNew "无效的充值额度");
      let topUp := completed_topup env topUp in
      _ ← save_topup topUp;
      _ ← update_user (tu_UserId topUp) (λ u, u <| u_Quota ::= λ q, q + quotaToAdd |>);
      MaybeCreateAffiliateCommissionForTopUpTx env uuid topUp)).

Definition RechargeWaffo (env : Env) (uuid tradeNo : string) : Tx () :=
  recharge_amount env uuid PaymentProviderWaffo tradeNo.

Definition RechargeWaffoPancake (env : Env) (uuid tradeNo : string) : Tx () :=
  recharge_amount env uuid PaymentProviderWaffoPancake tradeNo.

(** Every way to complete a top-up. *)
Inductive recharge_op :=
| ByStripe (add : Z → float64 → Z) (customerId : string)
| ByAdministrator
| ByEpay (actualPaymentMethod : string)
| ByCreem (customerEmail : string)
| ByWaffo
| ByWaffoPancake.

Definition recharge (env : Env) (uuid tradeNo : string) (op : recharge_op) : Tx () :=
  match op with
  | ByStripe add customerId => Recharge env uuid add tradeNo customerId
  | ByAdministrator => ManualCompleteTopUp env uuid tradeNo
  | ByEpay method => RechargeEpay env uuid tradeNo method
  | ByCreem email => RechargeCreem env uuid tradeNo email
  | ByWaffo => RechargeWaffo env uuid tradeNo
  | ByWaffoPancake => RechargeWaffoPancake env uuid tradeNo
  end.

(** ** Lifetime top-ups *)

Lemma lifetime_same db db' P `{∀ u : User, Decision (P u)} f i :
  users db' = update_where P f (users db) → (∀ u, u_Id (f u) = u_Id u) →
  (∀ u, u_ValidTopupCents (f u) = u_ValidTopupCents u ∧ u_TopupWatermark (f u) = u_TopupWatermark u) →
  lifetime db' i = lifetime db i.
Proof.
  intros Hus Hid Hf. unfold lifetime. rewrite Hus, by_id_update_where by done.
  destruct (by_id i (users db)) as [u|]; cbn; [|done]. destruct (Hf u) as [H1 H2]. case_decide; by rewrite ?H1, ?H2.
Qed.

Lemma wallet_same db db' P `{∀ u : User, Decision (P u)} f i :
  users db' = update_where P f (users db) → (∀ u, u_Id (f u) = u_Id u) → (∀ u, u_Quota (f u) = u_Quota u) →
  wallet db' i = wallet db i.
Proof.
  intros Hus Hid Hf. unfold wallet. rewrite Hus, by_id_update_where by done.
  destruct (by_id i (users db)) as [u|]; cbn; [|done]. case_decide; by rewrite ?Hf.
Qed.

(** What a payment of [cents] adds to the lifetime top-ups of its payer. *)
Definition earns (userId cents i : Z) (p : Z * Z) : Z * Z :=
  if decide (i = userId ∧ 0 < userId) then (p.1 + Z.max 0 cents, p.2 + Z.max 0 cents) else p.

Lemma wp_cents userId cents (Q : result () → DB → Prop) db :
  (∀ db', (∀ i, lifetime db' i = earns userId cents i <$> lifetime db i) → (∀ i, wallet db' i = wallet db i) →
     db' = db <| users := users db' |> → Q (Ok tt) db') →
  (∀ e db', Q (Err e) db') → wp (AddUserValidTopupCentsTx userId cents) Q db.
Proof.
  intros HOk HErr. unfold AddUserValidTopupCentsTx, update_user. destruct (decide _) as [Hno|Hyes].
  { wp_step. apply HOk; [|done|by destruct db]. intros i. destruct (lifetime db i) as [[v w]|]; cbn; [|done].
    unfold earns. cbn. case_decide; [|done]. do 2 f_equal; lia. }
  wp_step. wp_step. wp_step. wp_step. wp_step. wp_step. apply wp_fail_if; intros _; [apply HErr|].
  apply HOk; [| |by destruct db].
  - intros i. unfold lifetime. cbn -[update_where by_id]. rewrite by_id_update_where by done.
    destruct (by_id i (users db)) as [u|] eqn:E; [|done]. apply by_id_Some in E as [_ Hid]. cbn in Hid |- *.
    rewrite Hid. unfold earns. destruct (decide (i = userId)); cbn.
    + rewrite decide_True by lia. cbn. do 2 f_equal; lia.
    + by rewrite decide_False by lia.
  - intros i. by apply (wallet_same db _ (λ u, u_Id u = userId) (λ u, u <| u_ValidTopupCents ::= λ c, c + cents |>
      <| u_TopupWatermark ::= λ c, c + cents |>)).
Qed.

(** ** Commissions *)

(** The register of commissions: one per top-up, under its own public identifier,
    for somebody else's payment, and worth something. *)
Record commissions_ok (db : DB) : Prop := {
  co_wf : table_wf (affiliate_commissions db);
  co_topup : ∀ c1 c2, c1 ∈ rows (affiliate_commissions db) → c2 ∈ rows (affiliate_commissions db) →
    ac_TopupId c1 = ac_TopupId c2 → c1 = c2;
  co_public : ∀ c1 c2, c1 ∈ rows (affiliate_commissions db) → c2 ∈ rows (affiliate_commissions db) →
    ac_CommissionId c1 = ac_CommissionId c2 → c1 = c2;
  co_fair : Forall (λ c, ac_InviterUserId c ≠ ac_InviteeUserId c ∧ 0 < ac_InviterUserId c ∧
    positive_ratio (ac_CommissionMoney c) = true) (rows (affiliate_commissions db));
}.

Lemma commissions_ext db db' :
  affiliate_commissions db' = affiliate_commissions db → commissions_ok db → commissions_ok db'.
Proof. intros Heq []. split; by rewrite Heq. Qed.

Lemma no_commissions db : affiliate_commissions db = Table [] 1 → commissions_ok db.
Proof. intros Heq. split; rewrite Heq; [apply wf_empty|set_solver|set_solver|constructor]. Qed.

(** The row a top-up earns its user's inviter. *)
Record commission_for (env : Env) (uuid : string) (db : DB) (t : TopUp) (c : AffiliateCommission) : Prop := {
  cf_paid : tu_Status t = TopUpStatusSuccess ∧ 0 < tu_Money t ∧ ac_TopupId c = tu_Id t;
  cf_invitee : ∃ u, by_id (tu_UserId t) (users db) = Some u ∧ ac_InviteeUserId c = u_Id u ∧
    ac_InviterUserId c = u_InviterId u ∧ 0 < u_InviterId u ∧ u_InviterId u ≠ u_Id u;
  cf_inviter : is_Some (by_id (ac_InviterUserId c) (users db));
  cf_money : ac_CommissionMoney c =
    roundAffiliateMoney (float_mul (money_float (tu_Money t)) AffiliateCommissionRate);
  cf_positive : positive_ratio (ac_CommissionMoney c) = true;
  cf_available : ac_Status c = AffiliateCommissionStatusAvailable;
}.

Lemma commissions_ok_insert db c :
  commissions_ok db →
  where_ (λ x, ac_CommissionId x = ac_CommissionId c ∨ ac_TopupId x = ac_TopupId c)
    (affiliate_commissions db) = [] →
  ac_InviterUserId c ≠ ac_InviteeUserId c ∧ 0 < ac_InviterUserId c ∧
    positive_ratio (ac_CommissionMoney c) = true →
  commissions_ok (db <| affiliate_commissions ::= insert_row c |>).
Proof.
  intros [Hwf Ht Hp Hf] Hnew Hc.
  assert (Hfresh : ∀ x, x ∈ rows (affiliate_commissions db) →
    ac_CommissionId x ≠ ac_CommissionId c ∧ ac_TopupId x ≠ ac_TopupId c).
  { intros x Hx. split; intros Heq; destruct (not_elem_of_nil x); rewrite <-Hnew; apply where_elem; auto. }
  split; cbn -[insert_row].
  - by apply wf_insert_row.
  - intros c1 c2 [H1| ->]%elem_of_insert_row [H2| ->]%elem_of_insert_row Heq; [auto| | |done].
    + by destruct (proj2 (Hfresh c1 H1)).
    + by destruct (proj2 (Hfresh c2 H2)).
  - intros c1 c2 [H1| ->]%elem_of_insert_row [H2| ->]%elem_of_insert_row Heq; [auto| | |done].
    + by destruct (proj1 (Hfresh c1 H1)).
    + by destruct (proj1 (Hfresh c2 H2)).
  - by apply Forall_insert_row.
Qed.

(** What a paid top-up does to the commissions: nothing, or one new row. *)
Inductive commission_step (env : Env) (uuid : string) (t : TopUp) (db : DB) : DB → Prop :=
| commission_none : commission_step env uuid t db db
| commission_new c :
  where_ (λ x, ac_CommissionId x = ac_CommissionId c ∨ ac_TopupId x = ac_TopupId c)
    (affiliate_commissions db) = [] →
  commission_for env uuid db t c →
  commission_step env uuid t db (db <| affiliate_commissions ::= insert_row c |>).

Lemma commission_step_ok env uuid t db db' :
  commission_step env uuid t db db' → commissions_ok db → commissions_ok db'.
Proof.
  intros [|c Hnew [_ (u & _ & Hu & Hi & Hpos & Hne) _ _ Hm _]] Hok; [done|].
  apply commissions_ok_insert; [done|done|]. split_and!; [congruence|lia|done].
Qed.

(** The identifier drawn is not taken. *)
Definition fresh_commission (uuid : string) (db : DB) : Prop :=
  Forall (λ c, ac_CommissionId c ≠ newAffiliatePublicID uuid "affc_") (rows (affiliate_commissions db)).

Lemma wp_commission env uuid t (Q : result () → DB → Prop) db :
  (∀ db', commission_step env uuid t db db' → Q (Ok tt) db') →
  (∀ e, ¬ fresh_commission uuid db → Q (Err e) db) →
  wp (MaybeCreateAffiliateCommissionForTopUpTx env uuid t) Q db.
Proof.
  intros HOk HErr. unfold MaybeCreateAffiliateCommissionForTopUpTx, create_commission.
  destruct (decide _) as [|Hpaid]; [wp_step; apply HOk; constructor|]. wp_step. wp_step.
  destruct (decide _) as [|Hnone]; [wp_step; apply HOk; constructor|].
  destruct (by_id (tu_UserId t) (users db)) as [u|] eqn:Hu; [|wp_step; apply HOk; constructor].
  destruct (decide _) as [|Hinv]; [wp_step; apply HOk; constructor|].
  destruct (by_id (u_InviterId u) (users db)) as [v|] eqn:Hv; [|wp_step; apply HOk; constructor].
  cbv zeta. set (money := roundAffiliateMoney _). destruct (_ || _) eqn:Hm; [wp_step; apply HOk; constructor|].
  wp_step. wp_step. apply wp_bind, wp_fail_if; intros Hnew.
  { apply HErr. intros Hfresh. destruct Hnew. unfold where_. apply filter_none. intros c Hc [Heq|Heq].
    - unfold fresh_commission in Hfresh. rewrite Forall_forall in Hfresh. by apply (Hfresh c Hc).
    - apply dec_stable in Hnone. by apply (first_None _ _ _ Hnone Hc). }
  apply dec_stable in Hnew. wp_step. apply HOk.
  pose proof (proj2 (by_id_Some _ _ _ Hv)) as Hvid. cbn in Hvid. constructor; [exact Hnew|]. split; cbn.
  - split_and!; [|lia|done]. apply dec_stable. tauto.
  - exists u. split_and!; [done|done|done|lia|tauto].
  - rewrite Hvid, Hv. eauto.
  - done.
  - rewrite positive_not_le. apply orb_false_iff in Hm as [-> Hm]. apply negb_false_iff in Hm. by rewrite Hm.
  - done.
Qed.

(** ** Completing a top-up *)

(** What a recharge makes of the quota of the payer. *)
Definition credit (env : Env) (op : recharge_op) (t : TopUp) (quota : Z) : Z :=
  match op with
  | ByStripe add _ => add quota (float_mul (money_float (tu_Money t)) (quota_per_unit env))
  | ByAdministrator => quota + (if decide (tu_PaymentProvider t = PaymentProviderStripe)
                                then money_quota env t else amount_quota env t)
  | ByCreem _ => quota + tu_Amount t
  | ByEpay _ | ByWaffo | ByWaffoPancake => quota + amount_quota env t
  end.

(** The tables no payment of a top-up touches. *)
Definition untouched_by_topups (db : DB) :=
  (tokens db, subscription_plans db, user_subscriptions db, value_package_preferences db, usage_records db,
   quota_resets db, reset_count_ledgers db, pre_consume_records db, subscription_orders db, channels db,
   affiliate_withdrawals db, redemptions db, svip_receipts db).

Record credited (env : Env) (uuid tradeNo : string) (g : Z → Z) (db db' : DB) (t : TopUp) : Prop := {
  cr_pending : topup_by_trade_no tradeNo db = Some t ∧ tu_Status t = TopUpStatusPending;
  cr_done : ∃ t', topup_by_trade_no tradeNo db' = Some t' ∧ tu_Status t' = TopUpStatusSuccess ∧
    tu_Id t' = tu_Id t ∧ tu_UserId t' = tu_UserId t ∧ tu_Money t' = tu_Money t ∧ tu_Amount t' = tu_Amount t ∧
    ∃ db1, affiliate_commissions db1 = affiliate_commissions db ∧ commission_step env uuid t' db1 db';
  cr_wallet : ∀ i, wallet db' i = (λ q, if decide (i = tu_UserId t) then g q else q) <$> wallet db i;
  cr_topups : ∀ x, tu_TradeNo x ≠ tradeNo → x ∈ rows (top_ups db) → x ∈ rows (top_ups db');
  cr_wf : table_wf (top_ups db');
  cr_frame : untouched_by_topups db' = untouched_by_topups db;
}.

Lemma wallet_update db userId f g i :
  (∀ u, u_Id (f u) = u_Id u) → (∀ u, u_Quota (f u) = g (u_Quota u)) →
  wallet (db <| users ::= update_where (λ u, u_Id u = userId) f |>) i =
  (λ q, if decide (i = userId) then g q else q) <$> wallet db i.
Proof.
  intros Hid Hg. unfold wallet. cbn -[by_id update_where]. rewrite by_id_update_users by done.
  destruct (by_id i (users db)) as [u|] eqn:E; cbn; [|done]. apply by_id_Some in E as [_ Hu]. cbn in Hu.
  rewrite Hu. destruct (decide (i = userId)); by rewrite ?Hg.
Qed.

Lemma commission_step_frame env uuid t db db' :
  commission_step env uuid t db db' →
  users db' = users db ∧ top_ups db' = top_ups db ∧ untouched_by_topups db' = untouched_by_topups db.
Proof. by intros []. Qed.

(** The end of every recharge: the completed top-up [t'] is stored, the wallet is
    credited, the commission is paid. *)
Lemma wp_credit env uuid tradeNo t t' f g (Q : result () → DB → Prop) db :
  table_wf (top_ups db) → topup_by_trade_no tradeNo db = Some t → tu_Status t = TopUpStatusPending →
  (∃ method, t' = completed_topup env (t <| tu_PaymentMethod := method |>)) →
  (∀ u, u_Id (f u) = u_Id u) → (∀ u, u_Quota (f u) = g (u_Quota u)) →
  (∀ db', credited env uuid tradeNo g db db' t → Q (Ok tt) db') →
  (∀ e db', ¬ fresh_commission uuid db → Q (Err e) db') →
  wp (_ ← update_user (tu_UserId t') f; MaybeCreateAffiliateCommissionForTopUpTx env uuid t') Q
    (db <| top_ups ::= save t' |>).
Proof.
  intros Hwf Ht Hp [method ->] Hid Hg HOk HErr. set (t' := completed_topup _ _). unfold update_user.
  wp_step. wp_step. wp_step. wp_step. wp_step. wp_step. apply wp_commission; [|intros e Hf; by apply HErr].
  intros db' Hc. destruct (commission_step_frame _ _ _ _ _ Hc) as (Hus & Htop & Hfr). apply HOk.
  apply first_Some in Ht as Hin. destruct Hin as [Hin Htn]. split.
  - done.
  - exists t'. split_and!; [|done..|].
    + unfold topup_by_trade_no. rewrite Htop. cbn -[save first]. by apply (first_save _ _ t).
    + eexists. split; [|exact Hc]. done.
  - intros i. rewrite <-(wallet_update db (tu_UserId t) f g i Hid Hg). unfold wallet. by rewrite Hus.
  - intros x Hx Hxin. rewrite Htop. cbn -[save]. apply elem_of_update_where. left. split; [done|].
    cbn. intros Heq. destruct Hx. by rewrite (wf_row_eq _ _ _ Hwf Hxin Hin Heq).
  - rewrite Htop. by apply wf_save.
  - by rewrite Hfr.
Qed.

Lemma wp_masked {A} (m : Tx A) (Q : result A → DB → Prop) db :
  wp m (λ r d, match r with Ok a => Q (Ok a) d | Err _ => ∀ e, Q (Err e) d end) db → wp (masked m) Q db.
Proof.
  intros Hm. unfold masked. wp_step. wp_step. eapply wp_mono; [exact Hm|]. intros [a|e] d Hd; by wp_step.
Qed.

Lemma completed_same env t : ∃ method, completed_topup env t = completed_topup env (t <| tu_PaymentMethod := method |>).
Proof. exists (tu_PaymentMethod t). by destruct t. Qed.

(** What a call checks of the top-up it completes. *)
Definition accepts (env : Env) (op : recharge_op) (db : DB) (t : TopUp) : Prop :=
  match op with
  | ByStripe _ _ => tu_PaymentProvider t = PaymentProviderStripe
  | ByAdministrator => 0 < (if decide (tu_PaymentProvider t = PaymentProviderStripe)
                            then money_quota env t else amount_quota env t)
  | ByEpay _ => tu_PaymentProvider t = PaymentProviderEpay ∧ 0 < amount_quota env t
  | ByCreem email => tu_PaymentProvider t = PaymentProviderCreem ∧
    (email ≠ "" → is_Some (by_id (tu_UserId t) (users db)))
  | ByWaffo => tu_PaymentProvider t = PaymentProviderWaffo ∧ 0 < amount_quota env t
  | ByWaffoPancake => tu_PaymentProvider t = PaymentProviderWaffoPancake ∧ 0 < amount_quota env t
  end.

Record payable (env : Env) (uuid tradeNo : string) (op : recharge_op) (db : DB) (t : TopUp) : Prop := {
  py_trade : tradeNo ≠ "";
  py_topup : topup_by_trade_no tradeNo db = Some t;
  py_pending : tu_Status t = TopUpStatusPending;
  py_accepts : accepts env op db t;
  py_fresh : fresh_commission uuid db;
}.

(** The steps up to the top-up a notification names. *)
Ltac recharge_start HNo Ht :=
  apply wp_bind, wp_fail_if; intros Hne; [apply HNo; intros ? []; congruence|]; try apply wp_masked;
  apply wp_transaction, wp_bind, wp_get, wp_bind, wp_or_error; intros;
  [|intros; apply HNo; intros ? []; congruence];
  match goal with H : topup_by_trade_no _ _ = Some ?x |- _ => rename x into t; rename H into Ht end.

(** A check that the top-up has to pass. *)
Ltac recharge_check HNo H :=
  apply wp_bind, wp_fail_if; intros H;
  [intros; apply HNo; intros ? [? ? ? ? ?]; simplify_eq; cbn [accepts] in *; naive_solver lia|].

(** A top-up that is complete already. *)
Ltac already_paid HNo :=
  apply HNo; intros ? [_ ? ? _ _]; unfold TopUpStatusSuccess, TopUpStatusPending in *; congruence.

(** The steps after it is stored. *)
Ltac credit_end env t op HNo Ht :=
  eapply (wp_credit env _ _ t _ _ (credit env op t));
    [done|exact Ht|done|first [apply completed_same|by eexists]|done|done|eauto
    |intros; apply HNo; by intros ? []].

Lemma wp_recharge env uuid tradeNo op (Q : result () → DB → Prop) db :
  table_wf (top_ups db) →
  (∀ t db', credited env uuid tradeNo (credit env op t) db db' t → Q (Ok tt) db') →
  (∀ r, (∀ t, ¬ payable env uuid tradeNo op db t) → Q r db) →
  wp (recharge env uuid tradeNo op) Q db.
Proof.
  intros Hwf HOk HNo. destruct op; cbn [recharge];
    unfold Recharge, ManualCompleteTopUp, RechargeEpay, RechargeCreem, RechargeWaffo, RechargeWaffoPancake,
      recharge_amount, save_topup; recharge_start HNo Ht.
  - recharge_check HNo Hpr. recharge_check HNo Hp. apply dec_stable in Hp. wp_step. wp_step.
    credit_end env t (ByStripe add customerId) HNo Ht.
  - wp_step; [wp_step; already_paid HNo|]. recharge_check HNo Hp. apply dec_stable in Hp.
    recharge_check HNo Hq. wp_step. wp_step. credit_end env t ByAdministrator HNo Ht.
  - recharge_check HNo Hpr. wp_step; [wp_step; already_paid HNo|]. recharge_check HNo Hp.
    apply dec_stable in Hp. wp_step. wp_step.
    assert (Ht' : ∃ method, (if decide (actualPaymentMethod ≠ "" ∧ tu_PaymentMethod t ≠ actualPaymentMethod)
      then t <| tu_PaymentMethod := actualPaymentMethod |> else t) = t <| tu_PaymentMethod := method |>).
    { case_decide; [eauto|]. exists (tu_PaymentMethod t). by destruct t. }
    destruct Ht' as [method ->]. change (amount_quota env (completed_topup env _)) with (amount_quota env t).
    recharge_check HNo Hq. credit_end env t (ByEpay actualPaymentMethod) HNo Ht.
  - recharge_check HNo Hpr. recharge_check HNo Hp. apply dec_stable in Hp. wp_step. wp_step. wp_step.
    destruct (decide (customerEmail ≠ "")).
    + wp_step. wp_step. wp_step. apply wp_or_error; [intros u Hu; wp_step|].
      * credit_end env t (ByCreem customerEmail) HNo Ht.
      * intros Hu. cbn in Hu. intros. apply HNo. intros ? [_ ? _ [_ Hin] _]. simplify_eq.
        destruct Hin as [? Hin]; [done|]. congruence.
    + wp_step. credit_end env t (ByCreem customerEmail) HNo Ht.
  - recharge_check HNo Hpr. wp_step; [wp_step; already_paid HNo|]. recharge_check HNo Hp.
    apply dec_stable in Hp. recharge_check HNo Hq. wp_step. wp_step. credit_end env t ByWaffo HNo Ht.
  - recharge_check HNo Hpr. wp_step; [wp_step; already_paid HNo|]. recharge_check HNo Hp.
    apply dec_stable in Hp. recharge_check HNo Hq. wp_step. wp_step. credit_end env t ByWaffoPancake HNo Ht.
Qed.

(** A top-up that is complete is never completed again, by whatever call. *)
Lemma recharge_again env uuid tradeNo op db t :
  table_wf (top_ups db) → topup_by_trade_no tradeNo db = Some t → tu_Status t ≠ TopUpStatusPending →
  (recharge env uuid tradeNo op db).2 = db.
Proof.
  intros Hwf Ht Hp. change (wp (recharge env uuid tradeNo op) (λ _ d, d = db) db).
  apply wp_recharge; [done| |done]. intros x d [[Hx Hxp] _ _ _ _]. congruence.
Qed.

Lemma status_again tradeNo provider status db t :
  topup_by_trade_no tradeNo db = Some t → tu_Status t ≠ TopUpStatusPending →
  (UpdatePendingTopUpStatus tradeNo provider status db).2 = db.
Proof.
  intros Ht Hp. change (wp (UpdatePendingTopUpStatus tradeNo provider status) (λ _ d, d = db) db).
  unfold UpdatePendingTopUpStatus. wp_guard as _; [done|]. wp_step. wp_step. wp_step. wp_step.
  apply wp_or_error; [|done]. intros x Hx. wp_guard as _; [done|]. apply wp_bind, wp_fail_if; [done|].
  intros Hn%dec_stable. congruence.
Qed.


(** ** Properties *)

(** C23: a top-up is credited at most once.  Whatever call completes it (the
    notification of any payment provider, or an administrator), either nothing
    changes, or the top-up was pending, is now successful, the wallet of its user
    and no other changes by what that call credits, and at most one commission is
    booked; from then on no notification of any provider, no administrator and no
    status update changes anything for that trade number. *)
Theorem recharge_once env uuid tradeNo op db r db' :
  table_wf (top_ups db) → recharge env uuid tradeNo op db = (r, db') →
  db' = db ∨
  r = Ok tt ∧ (∃ t, credited env uuid tradeNo (credit env op t) db db' t) ∧
  (∀ env' uuid' op', (recharge env' uuid' tradeNo op' db').2 = db') ∧
  (∀ provider status, (UpdatePendingTopUpStatus tradeNo provider status db').2 = db').
Proof.
  intros Hwf Hrun. refine (wp_run _ (λ r d, d = db ∨ r = Ok tt ∧ (∃ t, credited _ _ _ _ _ d t) ∧
    (∀ env' uuid' op', (recharge env' uuid' tradeNo op' d).2 = d) ∧
    (∀ provider status, (UpdatePendingTopUpStatus tradeNo provider status d).2 = d)) _ _ _ _ Hrun).
  apply wp_recharge; [done| |auto]. intros t d Hc. right.
  pose proof (cr_wf _ _ _ _ _ _ _ Hc). destruct (cr_done _ _ _ _ _ _ _ Hc) as (t' & Ht' & Hs & _).
  assert (tu_Status t' ≠ TopUpStatusPending) by (by rewrite Hs).
  split_and!; [done|by eauto|intros; by eapply recharge_again|intros; by eapply status_again].
Qed.

(** C29: a payment is not lost: when a notification names a pending top-up of its
    own provider that is worth something, the call succeeds and credits it. *)
Theorem recharge_pays env uuid tradeNo op db t :
  table_wf (top_ups db) → payable env uuid tradeNo op db t →
  ∃ db', recharge env uuid tradeNo op db = (Ok tt, db') ∧ credited env uuid tradeNo (credit env op t) db db' t.
Proof.
  intros Hwf Hpay. destruct (wp_result (recharge env uuid tradeNo op) (λ r d, r = Ok tt ∧
    credited env uuid tradeNo (credit env op t) db d t) db) as (r & d & Hrun & -> & Hc); [|eauto].
  apply wp_recharge; [done| |intros r Hno; by destruct (Hno t)]. intros x d Hc. assert (x = t) as ->; [|done].
  pose proof (proj1 (cr_pending _ _ _ _ _ _ _ Hc)). pose proof (py_topup _ _ _ _ _ _ Hpay). congruence.
Qed.
End Commissions.

(** *** Examples *)

(** A user, invited by another, pays a top-up with Epay. *)
Definition topup_db : DB :=
  empty_DB <| users := Table [example_user 1 100 0 0; (example_user 2 0 0 0) <| u_InviterId := 1 |>] 3 |>
    <| top_ups := Table [mkTopUp 1 2 10 70000000 "P1" "alipay" "epay" 900 0 "pending"] 2 |>.
Definition topup_env : Env := mkEnv 1000 1000 28800 (float_of_int 500000).
Definition topup_run : result () * DB :=
  recharge (D := fixed_decimals) topup_env "0-1" "P1" (ByEpay "wxpay") topup_db.

Example recharge_once_witness :
  wallet topup_run.2 2 = Some 5000000 ∧
  (recharge (D := fixed_decimals) topup_env "0-2" "P1" ByAdministrator topup_run.2).2 = topup_run.2.
Proof.
  split; [vm_compute; reflexivity|].
  destruct (recharge_once (D := fixed_decimals) topup_env "0-1" "P1" (ByEpay "wxpay") topup_db topup_run.1 topup_run.2)
    as [Heq|(_ & _ & Hagain & _)].
  - split_and!; repeat constructor.
  - apply surjective_pairing.
  - apply (f_equal (λ d, wallet d 2)) in Heq. vm_compute in Heq. discriminate.
  - apply Hagain.
Defined.

Example recharge_pays_witness :
  ∃ db', recharge (D := fixed_decimals) topup_env "0-1" "P1" (ByEpay "wxpay") topup_db = (Ok tt, db') ∧
    wallet db' 2 = Some 5000000.
Proof.
  destruct (recharge_pays (D := fixed_decimals) topup_env "0-1" "P1" (ByEpay "wxpay") topup_db
    (mkTopUp 1 2 10 70000000 "P1" "alipay" "epay" 900 0 "pending")) as (db' & Hrun & Hc).
  - split_and!; repeat constructor.
  - split; [done|done|done|by split|constructor].
  - exists db'. split; [exact Hrun|]. rewrite (cr_wallet _ _ _ _ _ _ _ Hc 2). vm_compute. reflexivity.
Defined.
