(* ===== verification/Svip.v ===== *)
(** * The reconciliation of lifetime top-ups

    [model/svip.go]: a user whose paid top-ups add up to the threshold carries the
    SVIP badge.  The running total of a user is kept up as payments come in
    ([Topups.v]); [backfillUserValidTopupCents] aligns it with the history of
    payments at every start of the program, once from scratch and from then on by
    the watermark of the history already accounted for. *)
From S2P Require Import Prelude Tables GoFloat GoTime Schema Plans Windows Cycles Consume Accounting Ledger Preferences Cards Purchases Lifecycle Topups.

(** ** Definitions *)

Definition SVIPValidTopupReconcileVersion := "svip_valid_topup_reconcile_v1".

(** The payments whose amounts are known to be yuan. *)
Definition reliable (t : TopUp) : Prop :=
  tu_Status t = TopUpStatusSuccess ∧
  (tu_PaymentProvider t = PaymentProviderLDXP ∨ tu_PaymentProvider t = PaymentProviderRedemptionCode).
Global Instance reliable_dec t : Decision (reliable t).
Proof. unfold reliable. solve_decision. Defined.

Fixpoint backfill_totals (topUps : list TopUp) (totals : gmap Z Z) : result (gmap Z Z) :=
  match topUps with
  | [] => Ok totals
  | topUp :: topUps =>
    let cents := validTopupCentsForTopUp topUp in
    if decide (cents ≤ 0) then backfill_totals topUps totals
    else
      let total := default 0 (totals !! tu_UserId topUp) in
      if decide (total > max_int64 -! cents) then Err (ErrNew "valid topup backfill total overflow")
      else backfill_totals topUps (<[tu_UserId topUp := total +! cents]> totals)
  end.

(** The part of the history that a user's running total already contains. *)
Definition accounted_history (initialized : bool) (user : User) (cents : Z) : Z :=
  if initialized then u_TopupWatermark user
  else
    let accounted := if decide (u_ValidTopupCents user < 0) then 0 else u_ValidTopupCents user in
    if decide (accounted > cents) then cents else accounted.

(** The body of the loop over the users with payments. *)
Definition reconcile_user (initialized : bool) (totals : gmap Z Z) (userId : Z) : Tx () :=
  let cents := default 0 (totals !! userId) in
  if decide (cents ≤ 0) then mret tt
  else
    db ← get;
    match by_id userId (users db) with
    | None => mret tt
    | Some user =>
      let accountedHistory := accounted_history initialized user cents in
      let missingCents := if decide (cents > accountedHistory) then cents -! accountedHistory else 0 in
      _ ← fail_if (missingCents > 0 ∧ u_ValidTopupCents user > max_int64 -! missingCents)
            (ErrNew "valid topup reconciliation total overflow");
      let targetHistory := if decide (cents > u_TopupWatermark user) then cents else u_TopupWatermark user in
      if decide (missingCents = 0 ∧ targetHistory = u_TopupWatermark user) then mret tt
      else
        let seen u := u_Id u = userId ∧ u_ValidTopupCents u = u_ValidTopupCents user ∧
          u_TopupWatermark u = u_TopupWatermark user in
        _ ← modify (λ d, d <| users ::= update_where seen (λ u, u <| u_TopupWatermark := targetHistory |>
              <| u_ValidTopupCents ::= λ c, if decide (missingCents > 0) then c + missingCents else c |>) |>);
        fail_if (affected seen (users db) ≠ 1)
          (ErrNew ("valid topup reconciliation state changed for user " +:+ pretty userId))
    end.

Definition backfillUserValidTopupCents (env : Env) : Tx () :=
  transaction (
    db ← get;
    let initialized := bool_decide (filter (λ r, rr_MigrationVersion r = SVIPValidTopupReconcileVersion)
                                      (svip_receipts db) ≠ []) in
    totals ← lift (backfill_totals (where_ reliable (top_ups db)) ∅);
    let userIDs := merge_sort Z.le (map_to_list totals).*1 in
    _ ← for_each userIDs (reconcile_user initialized totals);
    if initialized then mret tt
    else modify (λ d, d <| svip_receipts ::= λ l,
           l ++ [mkReceipt SVIPValidTopupReconcileVersion (app_now env)] |>)).

(** ** Totals *)

(** The reliable history of a user, in cents. *)
Definition history (db : DB) (userId : Z) : Z :=
  sumZ validTopupCentsForTopUp (filter (λ t, tu_UserId t = userId) (where_ reliable (top_ups db))).

Lemma valid_cents_range t : 0 ≤ validTopupCentsForTopUp t ≤ max_int64.
Proof.
  unfold validTopupCentsForTopUp, AmountToValidTopupCents, MoneyToValidTopupCents.
  change (max_int64 /! 100) with 92233720368547758.
  repeat case_decide; try lia.
  - unwrap; lia.
  - split; [apply Z.div_pos; lia|lia].
Qed.

Lemma backfill_totals_spec topUps totals totals' u :
  (∀ u, 0 ≤ default 0 (totals !! u) ≤ max_int64) →
  backfill_totals topUps totals = Ok totals' →
  default 0 (totals' !! u) = default 0 (totals !! u) +
    sumZ validTopupCentsForTopUp (filter (λ t, tu_UserId t = u) topUps) ∧
  0 ≤ default 0 (totals' !! u) ≤ max_int64.
Proof.
  revert totals. induction topUps as [|t topUps IH]; intros totals Hr; cbn [backfill_totals].
  { intros [= <-]. rewrite filter_nil. cbn. specialize (Hr u). lia. }
  pose proof (valid_cents_range t) as Hc. cbv zeta. rewrite filter_cons. case_decide as Hz.
  { intros Hb. destruct (IH totals Hr Hb) as [-> Hr']. split; [|done]. case_decide; cbn; lia. }
  pose proof (Hr (tu_UserId t)) as Ht. replace (max_int64 -! validTopupCentsForTopUp t)
    with (max_int64 - validTopupCentsForTopUp t) by (unwrap; lia).
  case_decide as Ho; [done|]. intros Hb. replace (default 0 (totals !! tu_UserId t) +! validTopupCentsForTopUp t)
    with (default 0 (totals !! tu_UserId t) + validTopupCentsForTopUp t) in Hb by (unwrap; lia).
  set (totals1 := <[_ := _]> totals) in Hb.
  assert (H1 : ∀ v, default 0 (totals1 !! v) =
    default 0 (totals !! v) + if decide (tu_UserId t = v) then validTopupCentsForTopUp t else 0).
  { intros v. unfold totals1. case_decide; [subst v; by rewrite lookup_insert_eq|].
    rewrite lookup_insert_ne by done. lia. }
  destruct (IH totals1) as [-> Hr']; [|done|].
  - intros v. rewrite H1. specialize (Hr v). case_decide; subst; lia.
  - split; [|done]. rewrite H1. case_decide; cbn; lia.
Qed.

(** ** One user *)

(** What the reconciliation makes of a user whose history comes to [cents]. *)
Definition reconciled (initialized : bool) (cents : Z) (u : User) : User :=
  if decide (cents ≤ 0) then u
  else u <| u_TopupWatermark := Z.max (u_TopupWatermark u) cents |>
         <| u_ValidTopupCents ::= λ c, c + Z.max 0 (cents - accounted_history initialized u cents) |>.

(** The columns are 64-bit integers and the watermark is not negative. *)
Definition typed_user (u : User) : Prop :=
  in_int64 (u_ValidTopupCents u) ∧ 0 ≤ u_TopupWatermark u ≤ max_int64.

Lemma accounted_range initialized u cents :
  typed_user u → 0 ≤ cents → 0 ≤ accounted_history initialized u cents ≤ max_int64.
Proof.
  intros [Hv Hw] Hc. unfold accounted_history, in_int64 in *. destruct initialized; [lia|]. cbv zeta.
  repeat case_decide; lia.
Qed.

(** The new running total of a user is a 64-bit integer. *)
Definition total_fits (initialized : bool) (totals : gmap Z Z) (u : User) : Prop :=
  let cents := default 0 (totals !! u_Id u) in
  u_ValidTopupCents u + Z.max 0 (cents - accounted_history initialized u cents) ≤ max_int64.

(** A reconciliation changes nothing but the users. *)
Definition only_users (db db' : DB) : Prop := db' = db <| users := users db' |>.

Lemma wp_reconcile_user initialized totals userId (Q : result () → DB → Prop) db :
  let cents := default 0 (totals !! userId) in
  table_wf (users db) → Forall typed_user (rows (users db)) → 0 ≤ cents ≤ max_int64 →
  (∀ db', users db' = update_where (λ u, u_Id u = userId) (reconciled initialized cents) (users db) →
     only_users db db' → Forall typed_user (rows (users db')) → Q (Ok tt) db') →
  (∀ e d, ¬ (∀ u, u ∈ rows (users db) → u_Id u = userId → total_fits initialized totals u) → Q (Err e) d) →
  wp (reconcile_user initialized totals userId) Q db.
Proof.
  intros cents Hwf Hty Hc HOk HErr. unfold reconcile_user. fold cents.
  assert (Hsame : (∀ u, u ∈ rows (users db) → u_Id u = userId → reconciled initialized cents u = u) → Q (Ok tt) db).
  { intros Hu. apply HOk; [|by destruct db|done]. symmetry. by apply update_where_same. }
  wp_step; [wp_step; apply Hsame; intros u _ _; unfold reconciled; by rewrite decide_True|].
  wp_step. wp_step. destruct (by_id userId (users db)) as [user|] eqn:Hu.
  2:{ wp_step. apply Hsame. intros u Hin Hid. by destruct (first_None _ _ _ Hu Hin). }
  apply by_id_Some in Hu as [Hin Hid]. cbn in Hid. pose proof Hty as Hall. rewrite Forall_forall in Hty.
  pose proof (accounted_range initialized user cents (Hty _ Hin) (proj1 Hc)) as Ha.
  destruct (Hty _ Hin) as [Hv Hw]. set (acc := accounted_history initialized user cents) in *.
  assert (Hmiss : (if decide (cents > acc) then cents -! acc else 0) = Z.max 0 (cents - acc)).
  { case_decide; [unwrap|]; lia. }
  cbv zeta. rewrite Hmiss. clear Hmiss. set (missing := Z.max 0 (cents - acc)) in *.
  assert (Htarget : (if decide (cents > u_TopupWatermark user) then cents else u_TopupWatermark user) =
    Z.max (u_TopupWatermark user) cents) by (case_decide; lia). rewrite Htarget. clear Htarget.
  assert (Hone : ∀ u, u ∈ rows (users db) → u_Id u = userId → u = user).
  { intros u Hu1 Hu2. apply (wf_row_eq (users db)); [done..|]. cbn. congruence. }
  apply wp_bind, wp_fail_if; replace (max_int64 -! missing) with (max_int64 - missing) by (unwrap; lia); intros Hfit.
  { apply HErr. intros Hfits. specialize (Hfits user Hin Hid). unfold total_fits in Hfits. rewrite Hid in Hfits.
    fold cents acc missing in Hfits. lia. }
  wp_step.
  - wp_step. apply Hsame. intros u Hu1 Hu2. rewrite (Hone u Hu1 Hu2). unfold reconciled. fold acc missing.
    rewrite decide_False by done. destruct user; cbn in *. f_equal; lia.
  - wp_step. wp_step. apply wp_fail_if; intros Haff.
    { destruct Haff. apply (affected_one _ _ user); [done..|]. intros u _ [Hu _]. cbn. congruence. }
    apply HOk; [|by destruct db|apply Forall_update_where; [done|]]; cycle 1.
    { intros u _ (_ & Huv & Huw) [Huv' Huw']. unfold typed_user, in_int64 in *. cbn. case_decide; lia. }
    cbn -[update_where]. apply update_where_pointwise. intros u Hu1. destruct (decide (u_Id u = userId)) as [Hui|Hui].
    + rewrite (Hone u Hu1 Hui). rewrite decide_True by done. unfold reconciled. fold acc missing.
      rewrite (decide_False (P := cents ≤ 0)) by done. destruct user; cbn. f_equal. case_decide; lia.
    + rewrite decide_False; [done|]. by intros [? _].
Qed.

Lemma reconciled_id initialized cents u : u_Id (reconciled initialized cents u) = u_Id u.
Proof. unfold reconciled. by case_decide. Qed.

Lemma only_users_trans db1 db2 db3 : only_users db1 db2 → only_users db2 db3 → only_users db1 db3.
Proof. unfold only_users. intros H1 H2. rewrite H2, H1. by destruct db1. Qed.

Lemma wp_reconcile_all initialized totals ids (Q : result () → DB → Prop) db :
  table_wf (users db) → Forall typed_user (rows (users db)) →
  (∀ u, 0 ≤ default 0 (totals !! u) ≤ max_int64) → NoDup ids →
  (∀ db', users db' = update_where (λ u, u_Id u ∈ ids)
            (λ u, reconciled initialized (default 0 (totals !! u_Id u)) u) (users db) →
     only_users db db' → Forall typed_user (rows (users db')) → Q (Ok tt) db') →
  (∀ e d, ¬ (∀ u, u ∈ rows (users db) → u_Id u ∈ ids → total_fits initialized totals u) → Q (Err e) d) →
  wp (for_each ids (reconcile_user initialized totals)) Q db.
Proof.
  intros Hwf Hty Htot Hnd. revert Q db Hwf Hty. induction Hnd as [|i ids Hi _ IH]; intros Q db Hwf Hty HOk HErr; cbn [for_each].
  { wp_step. apply HOk; [|by destruct db|done]. symmetry. apply update_where_same. intros u _ ?%not_elem_of_nil. done. }
  wp_step. apply wp_reconcile_user; [done|done|apply Htot| |]; cycle 1.
  { intros e d Hn. apply HErr. intros Hall. apply Hn. intros u Hu Hui. apply Hall; set_solver. }
  intros db1 Hus Hon Hty1. apply IH; [|done| |]; cycle 2.
  { intros e d Hn. apply HErr. intros Hall. apply Hn. intros u Hu Hui. rewrite Hus in Hu.
    apply elem_of_update_where in Hu as [[Hu _]|(x & _ & Hx & ->)]; [apply Hall; set_solver|].
    rewrite reconciled_id in Hui. congruence. }
  { rewrite Hus. apply wf_update_where; [|done]. intros. apply reconciled_id. }
  intros db2 Hus2 Hon2 Hty2. apply HOk; [|by eapply only_users_trans|done]. rewrite Hus2, Hus.
  rewrite update_where_compose by (intros u _ Hu; rewrite reconciled_id; by rewrite Hu).
  apply update_where_pointwise. intros u _. destruct (decide (u_Id u = i)) as [->|Hu].
  - by rewrite decide_True, decide_True by (auto; set_solver).
  - destruct (decide (u_Id u ∈ ids)); [rewrite !decide_True by set_solver; done|by rewrite !decide_False by set_solver].
Qed.

(** ** The whole run *)

Definition initialized (db : DB) : bool :=
  bool_decide (filter (λ r, rr_MigrationVersion r = SVIPValidTopupReconcileVersion) (svip_receipts db) ≠ []).

(** The users after a run. *)
Definition aligned (db : DB) : table User :=
  update_where (λ _, True) (λ u, reconciled (initialized db) (history db (u_Id u)) u) (users db).

Lemma wp_backfill env (Q : result () → DB → Prop) db :
  table_wf (users db) → Forall typed_user (rows (users db)) →
  (∀ db' totals, backfill_totals (where_ reliable (top_ups db)) ∅ = Ok totals →
     users db' = aligned db → top_ups db' = top_ups db → Forall typed_user (rows (users db')) →
     (if initialized db then only_users db db' else True) → initialized db' = true → Q (Ok tt) db') →
  (∀ e, ¬ (∃ totals, backfill_totals (where_ reliable (top_ups db)) ∅ = Ok totals ∧
             ∀ u, u ∈ rows (users db) → total_fits (initialized db) totals u) → Q (Err e) db) →
  wp (backfillUserValidTopupCents env) Q db.
Proof.
  intros Hwf Hty HOk HErr. unfold backfillUserValidTopupCents. wp_step. wp_step. wp_step. wp_step. wp_step.
  fold (initialized db). destruct (backfill_totals _ ∅) as [totals|e] eqn:Ht; [|apply HErr; naive_solver].
  assert (Htot : ∀ u, default 0 (totals !! u) = history db u ∧ 0 ≤ default 0 (totals !! u) ≤ max_int64).
  { intros u. destruct (backfill_totals_spec _ _ _ u (λ v, ltac:(rewrite lookup_empty; done)) Ht) as [H1 H2].
    rewrite lookup_empty in H1. done. }
  set (ids := merge_sort Z.le (map_to_list totals).*1).
  assert (Hids : ids ≡ₚ (map_to_list totals).*1) by apply merge_sort_Permutation.
  wp_step. apply wp_reconcile_all; [done|done|apply Htot| | |].
  - rewrite Hids. apply NoDup_fst_map_to_list.
  - intros db1 Hus Hon Hty1. assert (Hal : users db1 = aligned db).
    { rewrite Hus. apply update_where_pointwise. intros u _. rewrite (decide_True (P := True)) by done.
      rewrite (proj1 (Htot (u_Id u))). case_decide as Hin; [done|].
      destruct (totals !! u_Id u) as [c|] eqn:Hc.
      + destruct Hin. rewrite Hids. apply elem_of_map_to_list in Hc. by apply (list_elem_of_fmap_2 fst) in Hc.
      + unfold reconciled. rewrite <-(proj1 (Htot (u_Id u))), Hc. done. }
    assert (Hrest : top_ups db1 = top_ups db ∧ svip_receipts db1 = svip_receipts db) by (by rewrite Hon).
    destruct Hrest as [Htop Hrec]. destruct (initialized db) eqn:Hini; wp_step.
    + apply (HOk _ totals); try done. unfold initialized. by rewrite Hrec.
    + apply (HOk _ totals); try done. unfold initialized. cbn. rewrite filter_app. apply bool_decide_eq_true_2.
      intros Hnil%app_nil. naive_solver.
  - intros e d Hn. apply HErr. intros (totals' & Heq & Hf). simplify_eq. apply Hn. auto.
Qed.

Lemma history_nonneg db u : 0 ≤ history db u.
Proof. apply sumZ_nonneg, Forall_forall. intros t _. apply valid_cents_range. Qed.

Lemma history_topups db db' u : top_ups db' = top_ups db → history db' u = history db u.
Proof. unfold history. by intros ->. Qed.

Lemma by_id_aligned db i :
  by_id i (aligned db) = (λ u, reconciled (initialized db) (history db i) u) <$> by_id i (users db).
Proof.
  unfold aligned, by_id, first, update_where. cbn. generalize (rows (users db)) as l.
  induction l as [|u l IH]; csimpl; [done|]. rewrite !filter_cons, reconciled_id.
  destruct (decide (u_Id u = i)) as [<-|]; csimpl; [done|exact IH].
Qed.

Lemma reconciled_fields init cents u :
  0 ≤ cents → 0 ≤ u_TopupWatermark u →
  u_TopupWatermark (reconciled init cents u) = Z.max (u_TopupWatermark u) cents ∧
  u_ValidTopupCents (reconciled init cents u) =
    u_ValidTopupCents u + Z.max 0 (cents - accounted_history init u cents) ∧
  u_Quota (reconciled init cents u) = u_Quota u.
Proof.
  intros Hc Hw. unfold reconciled. case_decide; [|done].
  assert (0 ≤ accounted_history init u cents) by (unfold accounted_history; destruct init; [done|]; cbv zeta; repeat case_decide; lia).
  split_and!; [lia|lia|done].
Qed.

(** A state that a run has left. *)
Record settled (db : DB) : Prop := {
  se_wf : table_wf (users db);
  se_typed : Forall typed_user (rows (users db));
  se_initialized : initialized db = true;
  se_covered : Forall (λ u, history db (u_Id u) ≤ u_TopupWatermark u) (rows (users db));
  se_totals : ∃ totals, backfill_totals (where_ reliable (top_ups db)) ∅ = Ok totals;
}.

Lemma settled_stable env db : settled db → backfillUserValidTopupCents env db = (Ok tt, db).
Proof.
  intros [Hwf Hty Hini Hcov [totals Ht]]. rewrite Forall_forall in Hcov.
  apply wp_exact, wp_backfill; [done|done| |].
  - intros db' _ _ Hus _ _ Hon _. split; [done|]. rewrite Hini in Hon.
    assert (Hsame : users db' = users db).
    { rewrite Hus. apply update_where_same. intros u Hu _. specialize (Hcov u Hu). unfold reconciled.
      case_decide; [done|]. rewrite Hini. cbn. destruct u; cbn in *. f_equal; lia. }
    rewrite Hon, Hsame. by destruct db.
  - intros e []. exists totals. split; [done|]. intros u Hu. specialize (Hcov u Hu). unfold total_fits. rewrite Hini.
    destruct (backfill_totals_spec _ _ _ (u_Id u) (λ v, ltac:(rewrite lookup_empty; done)) Ht) as [H1 _].
    rewrite lookup_empty in H1. cbn in H1. unfold history in Hcov. rewrite H1. cbn.
    rewrite Forall_forall in Hty. destruct (Hty u Hu) as [Hv _]. unfold in_int64 in Hv. lia.
Qed.

(** ** Properties *)

(** The reconciliation aligns the running totals with the history of payments
    and is idempotent.  Its first run lifts the total of every user to the
    history, where it is below; later runs add exactly the payments the watermark
    has not seen, so that what an administrator credited on top is kept; the
    watermark follows the history, wallets are not touched, and running it again
    changes nothing. *)
Theorem backfill_reconciles env db db' :
  table_wf (users db) → Forall typed_user (rows (users db)) →
  backfillUserValidTopupCents env db = (Ok tt, db') →
  (∀ i u, by_id i (users db) = Some u → ∃ u', by_id i (users db') = Some u' ∧
     u_TopupWatermark u' = Z.max (u_TopupWatermark u) (history db i) ∧
     (initialized db = true →
        u_ValidTopupCents u' = u_ValidTopupCents u + Z.max 0 (history db i - u_TopupWatermark u)) ∧
     (initialized db = false → 0 ≤ u_ValidTopupCents u →
        u_ValidTopupCents u' = Z.max (u_ValidTopupCents u) (history db i)) ∧
     u_Quota u' = u_Quota u) ∧
  ∀ env', backfillUserValidTopupCents env' db' = (Ok tt, db').
Proof.
  intros Hwf Hty Hrun.
  assert (Hpost : users db' = aligned db ∧ settled db').
  { refine (wp_run _ (λ r d, match r with Ok _ => users d = aligned db ∧ settled d | Err _ => True end) _ _ _ _ Hrun).
    apply wp_backfill; [done|done| |done]. intros d totals Ht Hus Htop Htyd _ Hini. split; [done|].
    split; [|done|done| |rewrite Htop; eauto].
    - rewrite Hus. apply wf_update_where; [|done]. intros u _. apply reconciled_id.
    - rewrite Hus. apply Forall_forall. intros u [[_ []]|(x & Hx & _ & ->)]%elem_of_update_where; [done|].
      rewrite reconciled_id, (history_topups db d) by done. rewrite Forall_forall in Hty. destruct (Hty x Hx) as [_ Hw].
      destruct (reconciled_fields (initialized db) (history db (u_Id x)) x) as (-> & _); [apply history_nonneg|lia|lia]. }
  destruct Hpost as [Hus Hset]. split; [|intros; by apply settled_stable].
  intros i u Hu. rewrite Hus, by_id_aligned, Hu. cbn. eexists. split; [done|]. apply by_id_Some in Hu as [Hin _].
  rewrite Forall_forall in Hty. destruct (Hty u Hin) as [_ Hw]. pose proof (history_nonneg db i).
  destruct (reconciled_fields (initialized db) (history db i) u) as (-> & -> & ->); [done|lia|].
  split_and!; [done| | |done]; intros ->; cbn; [done|]. intros Hv. repeat case_decide; lia.
Qed.

(** *** Examples *)

(** A user who paid 120 yuan by card key before the totals were kept, and was
    credited 50 yuan by an administrator. *)
Definition svip_db : DB :=
  empty_DB <| users := Table [(example_user 1 100 0 0) <| u_ValidTopupCents := 5000 |>] 2 |>
    <| top_ups := Table [mkTopUp 1 1 120 100000000 "T1" "redemption_code" "redemption_code" 0 0 "success"] 2 |>.
Definition svip_run : result () * DB := backfillUserValidTopupCents topup_env svip_db.

Example backfill_reconciles_witness :
  (∃ u, by_id 1 (users svip_run.2) = Some u ∧ u_TopupWatermark u = 12000) ∧
  backfillUserValidTopupCents topup_env svip_run.2 = (Ok tt, svip_run.2).
Proof.
  destruct (backfill_reconciles topup_env svip_db svip_run.2) as [Hu Hagain].
  - split_and!; repeat constructor.
  - repeat constructor; done.
  - vm_compute. reflexivity.
  - split; [|apply Hagain]. destruct (Hu 1 ((example_user 1 100 0 0) <| u_ValidTopupCents := 5000 |>)) as (u & H1 & H2 & _);
      [reflexivity|]. exists u. split; [exact H1|]. rewrite H2. vm_compute. reflexivity.
Defined.
