(* ===== verification/Affiliates.v ===== *)
(** * Withdrawals of commissions

    [model/affiliate.go]: a user may ask for the commissions earned ([Topups.v]) to
    be paid out.  A request freezes its amount until an administrator marks it paid
    or rejects it.  [SUM] is the sum of a floating-point column as the database
    computes it; [uuid] is the identifier drawn for a new request. *)
From S2P Require Import Prelude GoText Tables GoFloat GoTime Schema Plans Windows Cycles Consume Accounting Ledger Preferences Cards Purchases Lifecycle Topups.

(** ** Definitions *)

Definition AffiliateWithdrawalStatusPending := "pending".
Definition AffiliateWithdrawalStatusPaid := "paid".
Definition AffiliateWithdrawalStatusRejected := "rejected".

Record AffiliateSummary := mkAffSummary {
  as_AffCode : string;
  as_InviteCount : Z;
  as_Rate : float64;
  as_TotalMoney : float64;
  as_AvailableMoney : float64;
  as_FrozenMoney : float64;
  as_WithdrawnMoney : float64;
}.

Record AffiliateWithdrawalListResult := mkWithdrawals {
  al_Items : list AffiliateWithdrawal;
  al_Total : Z;
}.

(** The first [n] runes of a string that has more, else the string itself. *)
Definition limit_runes (n : nat) (s : string) : string :=
  let rs := runes (String.list_ascii_of_string s) in
  if decide ((n < length rs)%nat) then String.string_of_list_ascii (concat (take n rs)) else s.

Section Withdrawals.
Context {D : Decimals} (SUM : list float64 → float64).

Definition normalizeAffiliateWithdrawalInput (amount : float64) (contact remark : string) :
    result (float64 * string * string) :=
  let amount := roundAffiliateMoney amount in
  if (amount <=? float_zero)%float || negb (isFiniteRatio amount) then Err (ErrVar "ErrAffiliateInvalidAmount")
  else
    let contact := TrimSpace contact in
    if decide (contact = "") then Err (ErrVar "ErrAffiliateContactRequired")
    else Ok (amount, limit_runes 255 contact, TrimSpace remark).

Definition lockAffiliateUserTx (userID : Z) : Tx User :=
  db ← get;
  or_error (by_id userID (users db)) ErrRecordNotFound.

(** [COALESCE(SUM(column), 0)]. *)
Definition coalesced_sum (l : list float64) : float64 := if decide (l = []) then float_zero else SUM l.

Definition commissions_of (userID : Z) (db : DB) : list float64 :=
  ac_CommissionMoney <$> where_ (λ c, ac_InviterUserId c = userID ∧ ac_Status c = AffiliateCommissionStatusAvailable)
                           (affiliate_commissions db).
Definition withdrawals_of (userID : Z) (status : string) (db : DB) : list float64 :=
  aw_Amount <$> where_ (λ w, aw_UserId w = userID ∧ aw_Status w = status) (affiliate_withdrawals db).

Definition GetAffiliateSummaryTx (userID : Z) : Tx AffiliateSummary :=
  db ← get;
  user ← or_error (by_id userID (users db)) ErrRecordNotFound;
  let inviteCount := affected (λ u, u_InviterId u = userID) (users db) in
  let total := roundAffiliateMoney (coalesced_sum (commissions_of userID db)) in
  let frozen := roundAffiliateMoney (coalesced_sum (withdrawals_of userID AffiliateWithdrawalStatusPending db)) in
  let withdrawn := roundAffiliateMoney (coalesced_sum (withdrawals_of userID AffiliateWithdrawalStatusPaid db)) in
  let available := roundAffiliateMoney (math_Max (float_sub (float_sub total frozen) withdrawn) float_zero) in
  mret (mkAffSummary (u_AffCode user) inviteCount AffiliateCommissionRate total available frozen withdrawn).

Definition GetAffiliateSummary (userID : Z) : Tx AffiliateSummary := GetAffiliateSummaryTx userID.

(** [tx.Create(withdrawal)]: public identifiers are unique. *)
Definition create_withdrawal (w : AffiliateWithdrawal) : Tx AffiliateWithdrawal :=
  db ← get;
  _ ← fail_if (where_ (λ x, aw_WithdrawalId x = aw_WithdrawalId w) (affiliate_withdrawals db) ≠ []) ErrDatabase;
  _ ← modify (λ d, d <| affiliate_withdrawals ::= insert_row w |>);
  mret (inserted w (affiliate_withdrawals db)).

Definition CreateAffiliateWithdrawalTx (env : Env) (uuid : string) (userID : Z) (amount : float64)
    (contact remark : string) : Tx AffiliateWithdrawal :=
  input ← lift (normalizeAffiliateWithdrawalInput amount contact remark);
  let '(amount, contact, remark) := input in
  _ ← lockAffiliateUserTx userID;
  summary ← GetAffiliateSummaryTx userID;
  _ ← fail_if ((as_AvailableMoney summary <? amount)%float = true) (ErrVar "ErrAffiliateInsufficientBalance");
  let now := app_now env in
  create_withdrawal (mkWithdrawal 0 (newAffiliatePublicID uuid "affw_") userID amount contact remark
                       AffiliateWithdrawalStatusPending "" now now 0).

Definition CreateAffiliateWithdrawal (env : Env) (uuid : string) (userID : Z) (amount : float64)
    (contact remark : string) : Tx AffiliateWithdrawal :=
  input ← lift (normalizeAffiliateWithdrawalInput amount contact remark);
  let '(amount, contact, remark) := input in
  transaction (CreateAffiliateWithdrawalTx env uuid userID amount contact remark).

Definition loadPendingAffiliateWithdrawalForUpdate (id : Z) : Tx AffiliateWithdrawal :=
  _ ← fail_if (id ≤ 0) (ErrVar "ErrAffiliateWithdrawalNotFound");
  db ← get;
  withdrawal ← or_error (by_id id (affiliate_withdrawals db)) (ErrVar "ErrAffiliateWithdrawalNotFound");
  _ ← fail_if (aw_Status withdrawal ≠ AffiliateWithdrawalStatusPending) (ErrVar "ErrAffiliateWithdrawalBadStatus");
  mret withdrawal.

(** The transaction of an administrator's decision; [status] is the outcome. *)
Definition decide_withdrawal (env : Env) (status : string) (id : Z) (adminRemark : string) : Tx AffiliateWithdrawal :=
  transaction (
    loaded ← loadPendingAffiliateWithdrawalForUpdate id;
    let now := app_now env in
    let loaded := loaded <| aw_Status := status |> <| aw_AdminRemark := TrimSpace adminRemark |>
                    <| aw_UpdatedTime := now |> <| aw_ProcessedTime := now |> in
    _ ← modify (λ d, d <| affiliate_withdrawals ::= save loaded |>);
    mret loaded).

Definition MarkAffiliateWithdrawalPaid (env : Env) (id : Z) (adminRemark : string) : Tx AffiliateWithdrawal :=
  decide_withdrawal env AffiliateWithdrawalStatusPaid id adminRemark.

Definition RejectAffiliateWithdrawal (env : Env) (id : Z) (adminRemark : string) : Tx AffiliateWithdrawal :=
  decide_withdrawal env AffiliateWithdrawalStatusRejected id adminRemark.

(** The page is [None] for a nil [PageInfo], else the page and its size. *)
Definition GetAffiliateWithdrawals (itemsPerPage : Z) (pageInfo : option (Z * Z)) (status : string) :
    Tx AffiliateWithdrawalListResult :=
  let '(page, pageSize) := default (1, itemsPerPage) pageInfo in
  let page := if decide (page < 1) then 1 else page in
  let pageSize := if decide (pageSize ≤ 0) then itemsPerPage else pageSize in
  let status := TrimSpace status in
  db ← get;
  let found := where_ (λ w, status = "" ∨ aw_Status w = status) (affiliate_withdrawals db) in
  let offset := (page -! 1) *! pageSize in
  mret (mkWithdrawals (take (Z.to_nat pageSize) (drop (Z.to_nat offset) (reverse found)))
          (Z.of_nat (length found))).

(** ** Requests *)

Inductive withdrawal_op :=
| AskWithdrawal (uuid : string) (userID : Z) (amount : float64) (contact remark : string)
| MarkPaid (id : Z) (adminRemark : string)
| RejectRequest (id : Z) (adminRemark : string).

Definition run_withdrawal (env : Env) (op : withdrawal_op) : Tx AffiliateWithdrawal :=
  match op with
  | AskWithdrawal uuid userID amount contact remark => CreateAffiliateWithdrawal env uuid userID amount contact remark
  | MarkPaid id remark => MarkAffiliateWithdrawalPaid env id remark
  | RejectRequest id remark => RejectAffiliateWithdrawal env id remark
  end.

(** A request that was accepted: the row written and the balance it was checked
    against. *)
Record asked (env : Env) (db db' : DB) (userID : Z) (w : AffiliateWithdrawal) : Prop := {
  ak_row : ∃ row, w = inserted row (affiliate_withdrawals db) ∧
    db' = db <| affiliate_withdrawals ::= insert_row row |>;
  ak_owner : aw_UserId w = userID ∧ aw_Status w = AffiliateWithdrawalStatusPending;
  ak_amount : positive_ratio (aw_Amount w) = true;
  ak_covered : ∃ summary, GetAffiliateSummary userID db = (Ok summary, db) ∧
    (as_AvailableMoney summary <? aw_Amount w)%float = false;
}.

Lemma normalize_positive amount contact remark x :
  normalizeAffiliateWithdrawalInput amount contact remark = Ok x → positive_ratio x.1.1 = true.
Proof.
  unfold normalizeAffiliateWithdrawalInput. cbv zeta. destruct (_ || _) eqn:Ha; [done|]. case_decide; [done|].
  intros [= <-]. cbn. rewrite positive_not_le. apply orb_false_iff in Ha as [-> Ha]. apply negb_false_iff in Ha.
  by rewrite Ha.
Qed.

Lemma summary_reads userID db : (GetAffiliateSummaryTx userID db).2 = db.
Proof. revert db. change (keeps id (GetAffiliateSummaryTx userID)). unfold GetAffiliateSummaryTx. keeps_solve. Qed.

Lemma wp_affiliate_summary userID (Q : result AffiliateSummary → DB → Prop) db :
  Q (GetAffiliateSummaryTx userID db).1 db → wp (GetAffiliateSummaryTx userID) Q db.
Proof. unfold wp. by rewrite (summary_reads userID db). Qed.

Lemma wp_ask env uuid userID amount contact remark (Q : result AffiliateWithdrawal → DB → Prop) db :
  (∀ w db', asked env db db' userID w → Q (Ok w) db') → (∀ e, Q (Err e) db) →
  wp (CreateAffiliateWithdrawal env uuid userID amount contact remark) Q db.
Proof.
  intros HOk HErr. unfold CreateAffiliateWithdrawal, CreateAffiliateWithdrawalTx, lockAffiliateUserTx, create_withdrawal.
  wp_step. wp_step. destruct (normalizeAffiliateWithdrawalInput amount contact remark) as [[[a c] m]|e]; [|apply HErr].
  wp_step. wp_step. wp_step. destruct (normalizeAffiliateWithdrawalInput a c m) as [[[a' c'] m']|e] eqn:Hn; [|apply HErr].
  apply normalize_positive in Hn. cbn in Hn. wp_step. wp_step. wp_step. apply wp_or_error; [intros u _|intros; apply HErr].
  wp_step. apply wp_affiliate_summary. destruct (GetAffiliateSummaryTx userID db) as [[s|e] d] eqn:Hs; cbn [fst]; [|apply HErr].
  pose proof (summary_reads userID db) as Hd. rewrite Hs in Hd. cbn in Hd. subst d.
  wp_guard as Hav%not_true_is_false; [apply HErr|]. wp_step. wp_step. wp_guard as _; [apply HErr|]. wp_steps.
  apply HOk. split; [by eexists|done|done|]. exists s. by split.
Qed.

(** The row an administrator's decision writes. *)
Definition decided (env : Env) (status adminRemark : string) (w : AffiliateWithdrawal) : AffiliateWithdrawal :=
  w <| aw_Status := status |> <| aw_AdminRemark := TrimSpace adminRemark |>
    <| aw_UpdatedTime := app_now env |> <| aw_ProcessedTime := app_now env |>.

Lemma wp_decide env status id remark (Q : result AffiliateWithdrawal → DB → Prop) db :
  (∀ w, by_id id (affiliate_withdrawals db) = Some w → aw_Status w = AffiliateWithdrawalStatusPending → 0 < id →
     Q (Ok (decided env status remark w)) (db <| affiliate_withdrawals ::= save (decided env status remark w) |>)) →
  (∀ e, (∀ w, by_id id (affiliate_withdrawals db) = Some w → 0 < id → aw_Status w ≠ AffiliateWithdrawalStatusPending) →
     Q (Err e) db) →
  wp (decide_withdrawal env status id remark) Q db.
Proof.
  intros HOk HErr. unfold decide_withdrawal, loadPendingAffiliateWithdrawalForUpdate.
  wp_step. wp_step. apply wp_bind, wp_fail_if; intros Hid; [apply HErr; lia|]. wp_step. wp_step. wp_step.
  apply wp_or_error; [intros w Hw|intros Hn; apply HErr; congruence].
  apply wp_bind, wp_fail_if; intros Hs; [apply HErr; congruence|]. apply dec_stable in Hs. wp_steps. apply HOk; [done|done|lia].
Qed.

Lemma amounts_snoc userID status db db' w :
  rows (affiliate_withdrawals db') = rows (affiliate_withdrawals db) ++ [w] →
  withdrawals_of userID status db' = withdrawals_of userID status db ++
    if decide (aw_UserId w = userID ∧ aw_Status w = status) then [aw_Amount w] else [].
Proof.
  intros Hrows. unfold withdrawals_of, where_. rewrite Hrows, filter_app, fmap_app, filter_cons, filter_nil.
  by case_decide.
Qed.

(** The summary depends on the users, the commissions and the amounts only. *)
Lemma summary_ext userID db db' :
  users db' = users db → affiliate_commissions db' = affiliate_commissions db →
  (∀ status, status ≠ AffiliateWithdrawalStatusRejected → withdrawals_of userID status db' = withdrawals_of userID status db) →
  (GetAffiliateSummary userID db').1 = (GetAffiliateSummary userID db).1.
Proof.
  intros Hu Hc Hw. unfold GetAffiliateSummary, GetAffiliateSummaryTx, commissions_of, mbind, M_bind, m_bind, get, or_error.
  rewrite Hu, Hc, !Hw by done. by destruct (by_id userID (users db)).
Qed.

(** ** Steps *)

(** The withdrawals under any sequence of calls, among whatever else the program
    does. *)
Inductive withdrawal_step : DB → DB → Prop :=
| withdrawal_call env op db r db' : run_withdrawal env op db = (r, db') → withdrawal_step db db'
| withdrawal_other db db' : affiliate_withdrawals db' = affiliate_withdrawals db → withdrawal_step db db'.

Lemma withdrawal_ran env op db : withdrawal_step db (run_withdrawal env op db).2.
Proof. by destruct (run_withdrawal env op db) as [r db'] eqn:E; apply (withdrawal_call env op db r). Qed.

(** What is fixed when a request is made. *)
Definition request_of (w : AffiliateWithdrawal) :=
  (aw_Id w, aw_WithdrawalId w, aw_UserId w, aw_Amount w, aw_Contact w, aw_Remark w, aw_CreatedTime w).

Definition may_become (w w' : AffiliateWithdrawal) : Prop :=
  w' = w ∨ aw_Status w = AffiliateWithdrawalStatusPending ∧ request_of w' = request_of w ∧
    (aw_Status w' = AffiliateWithdrawalStatusPaid ∨ aw_Status w' = AffiliateWithdrawalStatusRejected).

Definition tracked (db db' : DB) : Prop :=
  table_wf (affiliate_withdrawals db') ∧
  ∀ w, w ∈ rows (affiliate_withdrawals db) → ∃ w', w' ∈ rows (affiliate_withdrawals db') ∧ may_become w w'.

Lemma tracked_refl db db' :
  affiliate_withdrawals db' = affiliate_withdrawals db → table_wf (affiliate_withdrawals db) → tracked db db'.
Proof. intros Heq Hwf. split; [by rewrite Heq|]. intros w Hw. exists w. split; [by rewrite Heq|by left]. Qed.

Lemma tracked_trans db1 db2 db3 : tracked db1 db2 → tracked db2 db3 → tracked db1 db3.
Proof.
  intros [_ H1] [Hwf H2]. split; [done|]. intros w Hw. destruct (H1 w Hw) as (w2 & Hw2 & Hb2).
  destruct (H2 w2 Hw2) as (w3 & Hw3 & Hb3). exists w3. split; [done|]. destruct Hb2 as [->|(Hp & Hr & Hs)]; [done|].
  destruct Hb3 as [->|(Hp3 & _)]; [by right|]. exfalso.
  rewrite Hp3 in Hs. by destruct Hs.
Qed.

Lemma decided_tracked env status remark db w :
  table_wf (affiliate_withdrawals db) → w ∈ rows (affiliate_withdrawals db) →
  aw_Status w = AffiliateWithdrawalStatusPending →
  status = AffiliateWithdrawalStatusPaid ∨ status = AffiliateWithdrawalStatusRejected →
  tracked db (db <| affiliate_withdrawals ::= save (decided env status remark w) |>).
Proof.
  intros Hwf Hw Hp Hst. split; [by apply wf_save|]. intros x Hx. destruct (decide (aw_Id x = aw_Id w)) as [Hid|Hid].
  - rewrite (wf_row_eq _ x w Hwf Hx Hw Hid). exists (decided env status remark w). split.
    + cbn -[save]. by apply (elem_of_save_new _ w).
    + right. split_and!; [done|done|]. exact Hst.
  - exists x. split; [|by left]. cbn -[save]. apply elem_of_update_where. left. split; [done|]. exact Hid.
Qed.

Lemma step_tracked db db' : withdrawal_step db db' → table_wf (affiliate_withdrawals db) → tracked db db'.
Proof.
  intros [env op d r d' Hrun|d d' Heq] Hwf; [|by apply tracked_refl].
  refine (wp_run _ (λ _ x, tracked d x) _ _ _ _ Hrun). destruct op; cbn [run_withdrawal].
  - apply wp_ask; [|intros; by apply tracked_refl]. intros w x [(row & -> & ->) _ _ _].
    split; [by apply wf_insert_row|]. intros y Hy. exists y. split; [|by left]. cbn -[insert_row]. apply elem_of_insert_row. by left.
  - unfold MarkAffiliateWithdrawalPaid. apply wp_decide; [|intros; by apply tracked_refl].
    intros w [Hw _]%by_id_Some Hp _. by apply decided_tracked; [..|left].
  - unfold RejectAffiliateWithdrawal. apply wp_decide; [|intros; by apply tracked_refl].
    intros w [Hw _]%by_id_Some Hp _. by apply decided_tracked; [..|right].
Qed.

Lemma decide_settled env status id remark db w :
  by_id id (affiliate_withdrawals db) = Some w → aw_Status w ≠ AffiliateWithdrawalStatusPending →
  (decide_withdrawal env status id remark db).2 = db.
Proof.
  intros Hw Hs. change (wp (decide_withdrawal env status id remark) (λ _ d, d = db) db).
  apply wp_decide; [|done]. intros x Hx Hp. congruence.
Qed.

Lemma decide_pending env status id remark db w :
  0 < id → by_id id (affiliate_withdrawals db) = Some w → aw_Status w = AffiliateWithdrawalStatusPending →
  decide_withdrawal env status id remark db =
  (Ok (decided env status remark w), db <| affiliate_withdrawals ::= save (decided env status remark w) |>).
Proof.
  intros Hid Hw Hs. apply wp_exact, wp_decide; [intros x Hx _ _; rewrite Hw in Hx; by injection Hx as <-|].
  intros e Hn. by destruct (Hn w Hw Hid).
Qed.

(** ** Properties *)

(** C30: a withdrawal is decided once.  In every sequence of requests and decisions,
    among whatever else the program does, a request keeps its owner, amount and
    contact; it is pending until an administrator pays or rejects it, and is never
    changed after that: a second decision, whichever it is, changes nothing. *)
Theorem withdrawal_decided_once db db' w :
  rtc withdrawal_step db db' → table_wf (affiliate_withdrawals db) → w ∈ rows (affiliate_withdrawals db) →
  ∃ w', w' ∈ rows (affiliate_withdrawals db') ∧ may_become w w' ∧
    (aw_Status w' ≠ AffiliateWithdrawalStatusPending → ∀ env remark,
       (MarkAffiliateWithdrawalPaid env (aw_Id w) remark db').2 = db' ∧
       (RejectAffiliateWithdrawal env (aw_Id w) remark db').2 = db').
Proof.
  intros Hsteps Hwf Hw. assert (Htr : tracked db db').
  { clear w Hw. induction Hsteps as [d|d1 d2 d3 Hs _ IH]; [by apply tracked_refl|].
    pose proof (step_tracked _ _ Hs Hwf) as H1. eapply tracked_trans; [done|]. apply IH, H1. }
  destruct Htr as [Hwf' Htr]. destruct (Htr w Hw) as (w' & Hw' & Hb). exists w'. split_and!; [done|done|].
  intros Hs env remark. assert (Hid : aw_Id w' = aw_Id w).
  { destruct Hb as [->|(_ & Hr & _)]; [done|]. by injection Hr. }
  pose proof (by_id_elem _ _ Hwf' Hw') as Hby. cbn in Hby. rewrite Hid in Hby.
  unfold MarkAffiliateWithdrawalPaid, RejectAffiliateWithdrawal. split; by eapply decide_settled.
Qed.

(** Money asked for is frozen until it is paid or given back.  A request is
    accepted only for a positive amount that the user's available balance covers,
    and freezes exactly that amount; if it is rejected the summary of every user is
    what it was before the request, and if it is paid its amount moves from the
    frozen to the paid withdrawals of its user.  Whatever happens in the meantime,
    both decisions succeed on a request that is pending. *)
Theorem withdrawal_outcomes env env' uuid userID amount contact remark adminRemark db db1 w :
  table_wf (affiliate_withdrawals db) →
  CreateAffiliateWithdrawal env uuid userID amount contact remark db = (Ok w, db1) →
  (∃ summary, GetAffiliateSummary userID db = (Ok summary, db) ∧
     (as_AvailableMoney summary <? aw_Amount w)%float = false) ∧ positive_ratio (aw_Amount w) = true ∧
  withdrawals_of userID AffiliateWithdrawalStatusPending db1 =
    withdrawals_of userID AffiliateWithdrawalStatusPending db ++ [aw_Amount w] ∧
  (∃ w2 db2, RejectAffiliateWithdrawal env' (aw_Id w) adminRemark db1 = (Ok w2, db2) ∧
     ∀ u, (GetAffiliateSummary u db2).1 = (GetAffiliateSummary u db).1) ∧
  (∃ w2 db2, MarkAffiliateWithdrawalPaid env' (aw_Id w) adminRemark db1 = (Ok w2, db2) ∧
     withdrawals_of userID AffiliateWithdrawalStatusPending db2 = withdrawals_of userID AffiliateWithdrawalStatusPending db ∧
     withdrawals_of userID AffiliateWithdrawalStatusPaid db2 =
       withdrawals_of userID AffiliateWithdrawalStatusPaid db ++ [aw_Amount w]).
Proof.
  intros Hwf Hrun. assert (Hask : asked env db db1 userID w).
  { refine (wp_run _ (λ r d, match r with Ok x => asked env db d userID x | Err _ => True end) _ _ _ _ Hrun). by apply wp_ask. }
  destruct Hask as [(row & -> & ->) [Hu Hs] Hpos Hcov]. set (w := inserted row (affiliate_withdrawals db)) in *.
  set (db1 := db <| affiliate_withdrawals ::= insert_row row |>).
  assert (Hid : aw_Id w = next_id (affiliate_withdrawals db)) by done.
  assert (Hlast : by_id (aw_Id w) (affiliate_withdrawals db1) = Some w).
  { change (aw_Id w) with (row_id w). apply by_id_elem; [by apply wf_insert_row|]. apply elem_of_insert_row. by right. }
  assert (Hp : 0 < aw_Id w) by (rewrite Hid; apply Hwf).
  assert (Hrows : ∀ status, rows (affiliate_withdrawals (db1 <| affiliate_withdrawals ::=
    save (decided env' status adminRemark w) |>)) = rows (affiliate_withdrawals db) ++ [decided env' status adminRemark w]).
  { intros status. cbn -[save insert_row]. by apply rows_save_inserted. }
  split_and!; [done|done| | |].
  - rewrite (amounts_snoc _ _ db db1 w) by done. by rewrite decide_True.
  - unfold RejectAffiliateWithdrawal. do 2 eexists. split; [by apply decide_pending|]. intros u. apply summary_ext; [done|done|]. intros status Hst.
    rewrite (amounts_snoc _ _ db _ _ (Hrows _)), decide_False; [by rewrite app_nil_r|]. cbn. intros [_ Heq]. by destruct Hst.
  - unfold MarkAffiliateWithdrawalPaid. do 2 eexists. split; [by apply decide_pending|]. rewrite !(amounts_snoc _ _ db _ _ (Hrows _)).
    rewrite decide_False by (by intros [_ [=]]). rewrite decide_True by done. by rewrite app_nil_r.
Qed.
End Withdrawals.

(** *** Examples *)

(** The inviter of the top-up above asks for ten yuan of a commission of ten yuan
    fifty. *)
Definition exact_sum (l : list float64) : float64 :=
  foldr (λ x y, float_div (float_of_int (QuotaRound (float_mul x (float_of_int 100)) +
                                         QuotaRound (float_mul y (float_of_int 100)))) (float_of_int 100)) float_zero l.
Definition asked_run : result AffiliateWithdrawal * DB :=
  CreateAffiliateWithdrawal (D := fixed_decimals) exact_sum topup_env "0-9" 1 (float_of_int 10) " mail " "" topup_run.2.
Definition asked_row : AffiliateWithdrawal :=
  mkWithdrawal 1 "affw_09" 1 (float_of_int 10) "mail" "" "pending" "" 1000 1000 0.

Example withdrawal_outcomes_witness :
  withdrawals_of 1 "pending" asked_run.2 = [float_of_int 10].
Proof.
  destruct (withdrawal_outcomes (D := fixed_decimals) exact_sum topup_env topup_env "0-9" 1 (float_of_int 10) " mail " "" ""
    topup_run.2 asked_run.2 asked_row) as (_ & _ & Hfrozen & _).
  - vm_compute. split_and!; repeat constructor.
  - vm_compute. reflexivity.
  - exact Hfrozen.
Defined.

Definition paid_run : result AffiliateWithdrawal * DB :=
  run_withdrawal (D := fixed_decimals) exact_sum topup_env (MarkPaid 1 "done") asked_run.2.

Example withdrawal_decided_once_witness :
  ∃ w', w' ∈ rows (affiliate_withdrawals paid_run.2) ∧ may_become asked_row w'.
Proof.
  destruct (withdrawal_decided_once (D := fixed_decimals) exact_sum asked_run.2 paid_run.2 asked_row) as (w' & Hw & Hb & _).
  - apply rtc_once. exact (withdrawal_ran exact_sum topup_env (MarkPaid 1 "done") asked_run.2).
  - vm_compute. split_and!; repeat constructor.
  - vm_compute. left.
  - exists w'. split; [exact Hw|exact Hb].
Defined.
