(* ===== verification/Orders.v ===== *)
(** * Orders of value packages

    [model/subscription.go]: [CompleteValuePackageOrder], which a confirmed payment
    runs.  It places the package ([Purchases.v]), grants the reset cards the order
    was sold with, and books the payment: the order, its top-up row, the lifetime
    top-ups of the payer, the commission of the inviter ([Topups.v]) and the VIP
    group ([Lifecycle.v]), all in one transaction. *)
From S2P Require Import Prelude Tables GoFloat GoTime Schema Plans Windows Cycles Consume Accounting Ledger Preferences Cards Purchases Lifecycle Topups.

(** ** Definitions *)

Section Orders.
Context {D : Decimals}.

Definition CompleteValuePackageOrder (env : Env)
    (uuid tradeNo providerPayload expectedPaymentProvider actualPaymentMethod : string) (confirmedCover : bool) :
    Tx UserSubscription :=
  _ ← fail_if (TrimSpace tradeNo = "") (ErrNew "tradeNo is empty");
  transaction (
    db ← get;
    order ← or_error (order_by_trade_no tradeNo db) (ErrVar "ErrSubscriptionOrderNotFound");
    _ ← fail_if (expectedPaymentProvider ≠ "" ∧ so_PaymentProvider order ≠ expectedPaymentProvider)
          (ErrVar "ErrPaymentMethodMismatch");
    if decide (so_Status order = TopUpStatusSuccess) then
      _ ← fail_if (so_UserSubscriptionId order ≤ 0) (ErrNew "completed order missing user subscription id");
      or_error (first (λ s, us_Id s = so_UserSubscriptionId order ∧ us_UserId s = so_UserId order)
                  (user_subscriptions db))
        (ErrWrap "ErrCompletedSubscriptionNotFound" ErrRecordNotFound)
    else
      _ ← fail_if (so_Status order ≠ TopUpStatusPending) (ErrVar "ErrSubscriptionOrderStatusInvalid");
      _ ← or_error (by_id (so_UserId order) (users db)) ErrRecordNotFound;
      plan ← getSubscriptionPlanByIdTx (so_PlanId order);
      let plan := normalizeValuePackagePlan plan in
      _ ← fail_if (IsValuePackage plan = false) (ErrNew "order plan is not value package");
      intent ← checkValuePackagePurchaseIntentTx env (so_UserId order) plan confirmedCover;
      _ ← fail_if (pi_RequiresConfirmation intent = true) (ErrNew "购买高级套餐需要确认覆盖当前低级套餐");
      let nowUnix := db_now env in
      endUnix ← lift (calcPlanEndTime (local_offset env) nowUnix plan);
      completed ← place_package env (so_UserId order) plan "ldxp" nowUnix endUnix intent;
      _ ← fail_if (us_Id completed ≤ 0) (ErrNew "completed subscription missing");
      _ ← ensureValuePackagePreferenceAfterPurchaseTx env (so_UserId order) (us_Id completed) plan
            (so_GiftResetCount order)
            ("开通套餐赠送：" +:+ sp_Title plan +:+ "，订单 " +:+ so_TradeNo order);
      let order := completed_order env order (us_Id completed) providerPayload actualPaymentMethod in
      topUp ← upsertSubscriptionTopUpTx env order;
      _ ← AddUserValidTopupCentsTx (so_UserId order) (MoneyToValidTopupCents (so_Money order));
      _ ← MaybeCreateAffiliateCommissionForTopUpTx env uuid topUp;
      _ ← MaybeUpgradeUserToVIPTx (so_UserId order);
      _ ← save_order order;
      mret completed).

(** ** Booking the payment *)

(** The tables the accounting and the reset cards live in. *)
Definition package_tables (db : DB) :=
  (subscription_plans db, user_subscriptions db, value_package_preferences db, usage_records db,
   quota_resets db, reset_count_ledgers db, pre_consume_records db).

Lemma keeps_upsert_topup env order : keeps (λ db, (package_tables db, affiliate_commissions db)) (upsertSubscriptionTopUpTx env order).
Proof. unfold upsertSubscriptionTopUpTx. keeps_solve. Qed.

Lemma keeps_cents userId cents :
  keeps (λ db, (package_tables db, affiliate_commissions db, top_ups db, subscription_orders db))
    (AddUserValidTopupCentsTx userId cents).
Proof. unfold AddUserValidTopupCentsTx, update_user. keeps_solve. Qed.

Lemma keeps_commission env uuid t :
  keeps (λ db, (package_tables db, users db, top_ups db, subscription_orders db))
    (MaybeCreateAffiliateCommissionForTopUpTx env uuid t).
Proof. unfold MaybeCreateAffiliateCommissionForTopUpTx, create_commission. keeps_solve. Qed.

Lemma keeps_vip userId :
  keeps (λ db, (package_tables db, affiliate_commissions db, top_ups db, subscription_orders db))
    (MaybeUpgradeUserToVIPTx userId).
Proof. unfold MaybeUpgradeUserToVIPTx. keeps_solve. Qed.

Lemma purchased_ext {B : PostBilled} env db db1 db' userId plan gift sub :
  package_tables db' = package_tables db1 → purchased env db db1 userId plan gift sub →
  purchased env db db' userId plan gift sub.
Proof.
  intros [= Hp Hs Hpf Hu _ Hl Hr] [Hacc Hok Hgift Hsel Hheld Hpl Hone Hoth].
  split; [|by apply (cards_ext db1)| | | |done| |].
  - unfold Accounting in *. by rewrite Hp, Hs, Hu, Hr.
  - intros u. by rewrite (proj2 (cards_ext db1 db' Hpf Hl) u).
  - unfold selects, preference_of in *. by rewrite Hpf.
  - unfold held in *. by rewrite Hp, Hs.
  - unfold held in *. by rewrite Hp, Hs.
  - intros s. rewrite Hs. apply Hoth.
Qed.

(** The commissions after the payment of an order: as they were, or with one more row,
    for the inviter of the payer and the first for the top-up of the order. *)
Definition one_commission (db db' : DB) (order : SubscriptionOrder) : Prop :=
  affiliate_commissions db' = affiliate_commissions db ∨
  ∃ t c, topup_by_trade_no (so_TradeNo order) db' = Some t ∧ ac_TopupId c = tu_Id t ∧
    ac_InviteeUserId c = so_UserId order ∧ ac_InviterUserId c ≠ so_UserId order ∧
    Forall (λ x, ac_TopupId x ≠ tu_Id t) (rows (affiliate_commissions db)) ∧
    affiliate_commissions db' = insert_row c (affiliate_commissions db).

Lemma one_commission_step env uuid order t db db' :
  topup_row db order t → commission_step env uuid t db db' → one_commission db db' order.
Proof.
  intros (Ht & _ & Hu & _) [|c Hnew [(_ & _ & Hc) (u & Hby & Hi & Hv & _ & Hne) _ _ _ _]]; [by left|right].
  pose proof (proj2 (by_id_Some _ _ _ Hby)) as Hid. cbn in Hid.
  exists t, c. split_and!; [exact Ht|done|congruence|congruence| |done].
  apply Forall_forall. intros x Hx Heq. destruct (not_elem_of_nil x). rewrite <-Hnew. apply where_elem. split; [right; congruence|done].
Qed.

(** The payment of [order] is booked. *)
Record booked (db db' : DB) (order : SubscriptionOrder) : Prop := {
  bk_tables : package_tables db' = package_tables db;
  bk_order : order_by_trade_no (so_TradeNo order) db' = Some order;
  bk_topup : topup_paid db' order;
  bk_wallet : ∀ i, wallet db' i = wallet db i;
  bk_lifetime : ∀ i, lifetime db' i =
    earns (so_UserId order) (MoneyToValidTopupCents (so_Money order)) i <$> lifetime db i;
  bk_commission : one_commission db db' order;
  bk_commissions : commissions_ok db → commissions_ok db';
}.

Lemma wp_vip_users userId (Q : result bool → DB → Prop) db :
  (∀ b db', (∀ i, lifetime db' i = lifetime db i) → (∀ i, wallet db' i = wallet db i) → Q (Ok b) db') →
  (∀ e, Q (Err e) db) → wp (MaybeUpgradeUserToVIPTx userId) Q db.
Proof.
  intros HOk HErr. unfold MaybeUpgradeUserToVIPTx. wp_steps; try (by apply HErr); apply HOk; try done; intros i.
  - by eapply lifetime_same.
  - by eapply wallet_same.
Qed.

Lemma wp_book {A} env uuid (order order' : SubscriptionOrder) (a : A) (Q : result A → DB → Prop) db :
  order_by_trade_no (so_TradeNo order') db = Some order → so_Id order' = so_Id order →
  (∀ db', booked db db' order' → Q (Ok a) db') → (∀ e db', Q (Err e) db') →
  wp (topUp ← upsertSubscriptionTopUpTx env order';
      _ ← AddUserValidTopupCentsTx (so_UserId order') (MoneyToValidTopupCents (so_Money order'));
      _ ← MaybeCreateAffiliateCommissionForTopUpTx env uuid topUp;
      _ ← MaybeUpgradeUserToVIPTx (so_UserId order');
      _ ← save_order order';
      mret a) Q db.
Proof.
  intros Ho Hid HOk HErr. wp_step. apply (wp_keeps _ _ _ _ (keeps_upsert_topup env order')).
  apply wp_upsert_topup; [|intros; apply HErr]. intros t db1 _ Hus1 Ho1 Hpaid [= Hp1 Hs1 Hpf1 Hu1 Hq1 Hl1 Hr1 Hc1].
  wp_step. apply (wp_keeps _ _ _ _ (keeps_cents _ _)). apply wp_cents; [|intros; apply HErr].
  intros db2 Hlife Hwal _ [= Hp2 Hs2 Hpf2 Hu2 Hq2 Hl2 Hr2 Hc2 Ht2 Ho2].
  wp_step. apply (wp_keeps _ _ _ _ (keeps_commission env uuid t)). apply wp_commission; [|intros; apply HErr].
  intros db3 Hstep [= Hp3 Hs3 Hpf3 Hu3 Hq3 Hl3 Hr3 Hus3 Ht3 Ho3].
  wp_step. apply (wp_keeps _ _ _ _ (keeps_vip _)). apply wp_vip_users; [|intros; apply HErr].
  intros b db4 Hlife4 Hwal4 [= Hp4 Hs4 Hpf4 Hu4 Hq4 Hl4 Hr4 Hc4 Ht4 Ho4]. unfold save_order. wp_step. wp_step. wp_step.
  apply HOk. split.
  - unfold package_tables. cbn. congruence.
  - apply (first_save _ _ order); [|done|done]. cbn. by rewrite Ho4, Ho3, Ho2, Ho1.
  - exists t. unfold topup_row, topup_by_trade_no in *. cbn. by rewrite Ht4, Ht3, Ht2.
  - intros i. unfold wallet in *. cbn. rewrite Hwal4, Hus3, Hwal, Hus1. done.
  - intros i. unfold lifetime in *. cbn. rewrite Hlife4, Hus3, Hlife, Hus1. done.
  - assert (Hrow : topup_row db2 order' t) by (unfold topup_row, topup_by_trade_no in *; by rewrite Ht2).
    destruct (one_commission_step _ _ _ _ _ _ Hrow Hstep) as [Hsame|(t' & c & Hc & Hrest)];
      unfold one_commission; cbn -[insert_row]; [left; congruence|right].
    exists t', c. rewrite Hc2, Hc1 in Hrest. unfold topup_by_trade_no in *. cbn. by rewrite Ht4, Hc4.
  - intros Hok. apply (commissions_ext db3); [cbn; congruence|]. apply (commission_step_ok _ _ _ _ _ Hstep).
    by apply (commissions_ext db); [congruence|].
Qed.

(** ** Completing an order *)

(** The order's plan is a package of a known type, and its numbers fit. *)
Definition sellable (env : Env) (db : DB) (order : SubscriptionOrder) : Prop :=
  ∀ plan, plan_of (subscription_plans db) (so_PlanId order) = Some plan →
    is_Some (package_days (sp_PackageType plan)) ∧ purchase_fits env db (so_UserId order) plan.

(** What the first completion of an order does. *)
Record package_order_paid {B : PostBilled} (env : Env) (db db' : DB) (order : SubscriptionOrder) (payload method : string)
    (plan : SubscriptionPlan) (sub : UserSubscription) : Prop := {
  vo_plan : plan_of (subscription_plans db) (so_PlanId order) = Some plan ∧ IsValuePackage plan = true;
  vo_purchased : purchased env db db' (so_UserId order) plan (so_GiftResetCount order) sub;
  vo_order : order_by_trade_no (so_TradeNo order) db' = Some (completed_order env order (us_Id sub) payload method);
  vo_topup : topup_paid db' order;
  vo_wallet : ∀ i, wallet db' i = wallet db i;
  vo_lifetime : ∀ i, lifetime db' i =
    earns (so_UserId order) (MoneyToValidTopupCents (so_Money order)) i <$> lifetime db i;
  vo_commission : one_commission db db' order;
  vo_commissions : commissions_ok db → commissions_ok db';
  vo_id : 0 < us_Id sub;
}.

(** The row a completed order points to. *)
Definition completed_sub (db : DB) (order : SubscriptionOrder) (sub : UserSubscription) : Prop :=
  0 < so_UserSubscriptionId order ∧
  first (λ s, us_Id s = so_UserSubscriptionId order ∧ us_UserId s = so_UserId order) (user_subscriptions db) = Some sub.

Record order_named (db : DB) (tradeNo provider : string) (order : SubscriptionOrder) : Prop := {
  on_trade : TrimSpace tradeNo ≠ "";
  on_order : order_by_trade_no tradeNo db = Some order;
  on_provider : ¬ (provider ≠ "" ∧ so_PaymentProvider order ≠ provider);
}.

Lemma wp_package_order {B : PostBilled} env uuid tradeNo payload provider method confirmed (Q : result UserSubscription → DB → Prop) db :
  Accounting db → cards_ok db → (∀ order, order_by_trade_no tradeNo db = Some order → sellable env db order) →
  (∀ order plan sub db', order_named db tradeNo provider order → so_Status order = TopUpStatusPending →
     package_order_paid env db db' order payload method plan sub → Q (Ok sub) db') →
  (∀ order sub, order_named db tradeNo provider order → so_Status order = TopUpStatusSuccess →
     completed_sub db order sub → Q (Ok sub) db) →
  (∀ e, Q (Err e) db) →
  wp (CompleteValuePackageOrder env uuid tradeNo payload provider method confirmed) Q db.
Proof.
  intros Hacc Hok Hsell HOk HDone HErr. unfold CompleteValuePackageOrder. wp_guard as Hne; [apply HErr|].
  wp_step. wp_step. wp_step. wp_step. apply wp_or_error; [|intros; apply HErr]. intros order Horder.
  wp_guard as Hprov; [apply HErr|]. assert (Hnamed : order_named db tradeNo provider order) by (by split).
  wp_step.
  { wp_guard as Hsid; [apply HErr|]. apply wp_or_error; [|intros; apply HErr]. intros sub Hsub.
    apply (HDone order); [done|done|]. split; [lia|done]. }
  wp_guard as Hpending%dec_stable; [apply HErr|]. wp_step. apply wp_or_error; [intros u _|intros; apply HErr].
  wp_step. apply wp_get_plan; [|intros; apply HErr]. intros plan Hplan. cbv zeta.
  set (np := normalizeValuePackagePlan plan) in *. wp_guard as Hv%not_false_is_true; [apply HErr|].
  destruct (Hsell order Horder np Hplan) as [Htype Hfits]. pose proof (plan_of_id _ _ _ Hplan) as Hid.
  assert (Hst : plan_of (subscription_plans db) (sp_Id np) = Some np) by (by rewrite Hid).
  wp_step. apply wp_intent; [done| |intros; apply HErr]. intros intent Hintent. wp_guard as _; [apply HErr|].
  wp_step. wp_step. destruct (calcPlanEndTime _ _ np) as [endUnix|e] eqn:Hend; [|apply HErr].
  wp_step. apply (wp_keeps _ _ _ _ (keeps_place _ _ _ _ _ _ _)). apply wp_place; try done.
  intros sub db1 Hpl [= Hus1 _ _ _ _ Ho1 Ht1 _ Hc1 _ _ _]. wp_guard as Hsub; [apply HErr|]. wp_step.
  destruct (package_frame_cards _ _ (pp_frame _ _ _ _ _ _ Hpl)) as [Hck Hcc].
  pose proof (clamp_gift (so_GiftResetCount order)). pose proof (ft_cards _ _ _ _ Hfits).
  apply (wp_keeps _ _ _ _ (keeps_after_purchase _ _ _ _ _ _)).
  apply wp_after_purchase; [by apply Hck|done|rewrite Hcc; lia| |intros; apply HErr].
  intros db2 Hb Hok' Hm Hsel [= Hus2 _ _ _ _ Ho2 Ht2 _ Hc2 _ _ _].
  assert (Htn : so_TradeNo order = tradeNo) by (by apply first_Some in Horder as [_ ?]).
  assert (Ho : order_by_trade_no (so_TradeNo order) db2 = Some order)
    by (unfold order_by_trade_no; by rewrite Ho2, Ho1, Htn).
  set (order' := completed_order env order (us_Id sub) payload method) in *.
  apply (wp_book env uuid order order' sub); [exact Ho|done| |intros; apply HErr].
  intros db' [Htab Hord Htop Hwal Hlife Hone Hcom]. apply (HOk order np); [done|done|].
  split; [done| |done|done| | | | |lia].
  - apply (purchased_ext _ _ db2); [done|]. by eapply placed_purchased.
  - intros i. rewrite Hwal. unfold wallet. by rewrite Hus2, Hus1.
  - intros i. rewrite Hlife. unfold lifetime. by rewrite Hus2, Hus1.
  - unfold one_commission in *. by rewrite Hc2, Hc1 in Hone.
  - intros Hco. apply Hcom. apply (commissions_ext db); [congruence|done].
Qed.

Lemma held_first {B : PostBilled} db userId now s :
  Accounting db → held db userId now s →
  first (λ x, us_Id x = us_Id s ∧ us_UserId x = userId) (user_subscriptions db) = Some s.
Proof.
  intros Hacc (Hin & Hu & _). destruct (first _ (user_subscriptions db)) as [x|] eqn:E.
  - apply first_Some in E as (Hx & Hid & _). f_equal. by apply (wf_row_eq (user_subscriptions db)); [apply Hacc|..].
  - by destruct (first_None _ _ _ E Hin).
Qed.

Lemma package_order_again env uuid tradeNo payload provider method confirmed db order sub :
  order_named db tradeNo provider order → so_Status order = TopUpStatusSuccess → completed_sub db order sub →
  CompleteValuePackageOrder env uuid tradeNo payload provider method confirmed db = (Ok sub, db).
Proof.
  intros [Htrade Ho Hprov] Hs [Hid Hsub]. apply wp_exact. unfold CompleteValuePackageOrder. wp_pass.
  wp_step. wp_step. wp_step. wp_step. rewrite Ho. wp_step; [|done]. simplify_eq. wp_pass.
  rewrite decide_True by done. wp_pass. rewrite Hsub. apply wp_or_error; [|done]. by intros ? [= <-].
Qed.

(** ** Properties *)


(** A payment notification that is delivered again, whatever it carries, is
    answered with the same subscription and changes nothing: no second period, no
    second gift, no second commission. *)
Theorem package_order_once env env' uuid uuid' tradeNo payload payload' provider method method' confirmed confirmed' db db' sub :
  Accounting db → cards_ok db → (∀ order, order_by_trade_no tradeNo db = Some order → sellable env db order) →
  CompleteValuePackageOrder env uuid tradeNo payload provider method confirmed db = (Ok sub, db') →
  CompleteValuePackageOrder env' uuid' tradeNo payload' provider method' confirmed' db' = (Ok sub, db').
Proof.
  intros Hacc Hok Hsell Hrun.
  refine (wp_run _ (λ r d, match r with Ok s =>
    CompleteValuePackageOrder env' uuid' tradeNo payload' provider method' confirmed' d = (Ok s, d) | Err _ => True end) _ _ _ _ Hrun).
  apply wp_package_order; [done|done|done| |intros; by eapply package_order_again|done].
  intros order plan s d [Htrade Ho Hprov] _ [_ Hpd Hord _ _ _ _ _ Hid].
  assert (Htn : so_TradeNo order = tradeNo) by (by apply first_Some in Ho as [_ ?]). rewrite Htn in Hord.
  apply (package_order_again _ _ _ _ _ _ _ _ (completed_order env order (us_Id s) payload method)); [by split|done|].
  split; [done|]. apply (held_first _ _ (db_now env)); [apply Hpd|apply Hpd].
Qed.
End Orders.

(** *** Examples *)

(** A user with a week package has paid for a month package. *)
Definition package_order : SubscriptionOrder :=
  mkOrder 1 1 2 99000000 "V1" "ldxp" "ldxp" 0 5 "pending" 900 0 "".
Definition ordered_db : DB := (shop_db 1) <| subscription_orders := Table [package_order] 2 |>.
Definition order_run : result UserSubscription * DB :=
  CompleteValuePackageOrder (D := fixed_decimals) cards_env "0-1" "V1" "{}" "ldxp" "" true ordered_db.
Definition ordered_sub : UserSubscription :=
  mkSub 2 1 2 1000 0 0 40000 2632000 "active" "ldxp" 40000 0 0 0 "" "" 40000 40000.

Lemma ordered_sellable order :
  order_by_trade_no "V1" ordered_db = Some order → sellable cards_env ordered_db order.
Proof.
  intros [= <-] plan Hplan. assert (Hp : plan = example_package) by (vm_compute in Hplan |- *; congruence). subst plan.
  split; [vm_compute; eauto|]. split; [vm_compute; done|done|repeat constructor; done|done].
Qed.


Example package_order_once_witness :
  CompleteValuePackageOrder (D := fixed_decimals) cards_env "0-2" "V1" "" "ldxp" "" false order_run.2 = (Ok ordered_sub, order_run.2).
Proof.
  apply (package_order_once (D := fixed_decimals) cards_env cards_env "0-1" "0-2" "V1" "{}" "" "ldxp" "" "" true false ordered_db).
  - apply shop_accounting.
  - apply (cards_ext (shop_db 1)); [done|done|apply shop_cards].
  - exact ordered_sellable.
  - vm_compute. reflexivity.
Defined.
