(* ===== verification/Redemptions.v ===== *)
(** * Redemption codes

    [model/redemption.go]: a code carries quota, a subscription or reset cards; it
    is drawn up by an administrator and redeemed once, by whoever presents it.  A
    code that was sold counts as a top-up of the user who redeems it ([Topups.v]).
    Logs, caches and the random delay of a redemption are left out; the number of a
    batch of codes is an argument. *)
From S2P Require Import Prelude Tables GoFloat GoTime Schema Plans Windows Cycles Consume Accounting Ledger Preferences Cards Purchases Lifecycle Topups Orders.

(** ** Definitions *)

Definition RedemptionTypeQuota := "quota".
Definition RedemptionTypeSubscription := "subscription".
Definition RedemptionTypeResetCard := "reset_card".
Definition MaxRedemptionResetCardCount := 100.
Definition RedemptionKindLegacy := "legacy".
Definition RedemptionKindPaidTopUp := "paid_topup".
Definition RedemptionKindPromoCredit := "promo_credit".
Definition RedemptionKindCoupon := "coupon".
Definition RedemptionSourceManual := "manual".
Definition RedemptionSourceLDXP := "ldxp".
Definition RedemptionSourcePromo := "promo".
Definition RedemptionCodeStatusEnabled := 1.
Definition RedemptionCodeStatusDisabled := 2.
Definition RedemptionCodeStatusUsed := 3.

Definition ErrRedemptionNotProvided := ErrVar "ErrRedemptionNotProvided".
Definition ErrRedemptionInvalid := ErrVar "ErrRedemptionInvalid".
Definition ErrRedemptionUsed := ErrVar "ErrRedemptionUsed".
Definition ErrRedemptionExpired := ErrVar "ErrRedemptionExpired".
Definition ErrRedemptionUnsupportedKind := ErrVar "ErrRedemptionUnsupportedKind".
Definition ErrRedemptionResetCardCountInvalid := ErrVar "ErrRedemptionResetCardCountInvalid".
Definition ErrRedeemFailed := ErrVar "ErrRedeemFailed".

Record RedeemRedemptionMeta := mkRedeemMeta {
  rm_Id : Z;
  rm_Type : string;
  rm_PlanId : Z;
  rm_PlanTitle : string;
  rm_Kind : string;
  rm_Quota : Z;
  rm_Amount : Z;
  rm_Money : Z;
  rm_CountAsTopUp : bool;
  rm_BatchId : string;
  rm_Source : string;
  rm_ResetCardCount : Z;
}.

Record RedeemResult := mkRedeemResult {
  re_Type : string;
  re_Quota : Z;
  re_PlanId : Z;
  re_PlanTitle : string;
  re_ResetCardCount : Z;
  re_GiftResetCount : Z;
  re_Redemption : RedeemRedemptionMeta;
}.

(** [errors.Is]. *)
Fixpoint error_is (e target : error) : bool :=
  bool_decide (e = target) || match e with ErrWrap _ c => error_is c target | _ => false end.

(** *** Drawing up codes *)

Definition normalizeRedemptionType (redemptionType : string) : string :=
  let t := TrimSpace redemptionType in
  if decide (t = "" ∨ t = RedemptionTypeQuota) then RedemptionTypeQuota
  else if decide (t = RedemptionTypeSubscription) then RedemptionTypeSubscription
  else if decide (t = RedemptionTypeResetCard) then RedemptionTypeResetCard
  else "".

(** What codes that carry no quota are reduced to. *)
Definition without_quota (redemption : Redemption) : Redemption :=
  redemption <| rd_Quota := 0 |> <| rd_Kind := RedemptionKindPromoCredit |> <| rd_Amount := 0 |>
    <| rd_Money := 0 |> <| rd_CountAsTopUp := false |>
    <| rd_Source ::= λ s, if decide (TrimSpace s = "") then RedemptionSourcePromo else s |>.

Definition validateRedemptionPlanForCreate (redemption : Redemption) : Tx Redemption :=
  let redemption := redemption <| rd_Type ::= normalizeRedemptionType |> in
  _ ← fail_if (rd_Type redemption = "") ErrRedemptionInvalid;
  if decide (rd_Type redemption = RedemptionTypeResetCard) then
    let redemption := redemption <| rd_ResetCardCount ::= λ n, if decide (n = 0) then 1 else n |> in
    _ ← fail_if (rd_ResetCardCount redemption < 1 ∨ rd_ResetCardCount redemption > MaxRedemptionResetCardCount)
          ErrRedemptionResetCardCountInvalid;
    mret (without_quota (redemption <| rd_PlanId := 0 |>))
  else if decide (rd_Type redemption ≠ RedemptionTypeSubscription) then
    mret (redemption <| rd_ResetCardCount := 0 |>)
  else
    _ ← fail_if (rd_PlanId redemption ≤ 0) ErrRedemptionInvalid;
    _ ← getSubscriptionPlanByIdFreshTx (rd_PlanId redemption);
    mret (without_quota (redemption <| rd_ResetCardCount := 0 |>)).

Definition ValidateRedemptionKindForCreate (redemption : Redemption) : result () :=
  if decide (rd_Kind redemption = RedemptionKindPaidTopUp) then
    if decide (rd_Quota redemption ≤ 0 ∨ rd_Amount redemption ≤ 0 ∨ rd_Money redemption ≤ 0 ∨
               rd_CountAsTopUp redemption = false) then Err ErrRedemptionInvalid else Ok tt
  else if decide (rd_Kind redemption = RedemptionKindPromoCredit) then
    if decide (rd_Quota redemption ≤ 0 ∨ rd_Amount redemption < 0 ∨ rd_Money redemption < 0 ∨
               rd_CountAsTopUp redemption = true) then Err ErrRedemptionInvalid else Ok tt
  else Err ErrRedemptionUnsupportedKind.

Definition NormalizeRedemptionForCreate (newBatch : string) (redemption : Redemption) : Tx Redemption :=
  redemption ← validateRedemptionPlanForCreate redemption;
  if decide (rd_Type redemption = RedemptionTypeSubscription ∨ rd_Type redemption = RedemptionTypeResetCard) then
    mret (redemption <| rd_BatchId ::= λ b, if decide (b = "") then newBatch else b |>)
  else
    let redemption := redemption <| rd_Kind ::= TrimSpace |> <| rd_Source ::= TrimSpace |> <| rd_BatchId ::= TrimSpace |> in
    let redemption := redemption <| rd_Kind ::= λ k, if decide (k = "") then RedemptionKindPromoCredit else k |> in
    let redemption := redemption <| rd_Source ::= λ s,
      if decide (s = "") then
        if decide (rd_Kind redemption = RedemptionKindPaidTopUp) then RedemptionSourceLDXP else RedemptionSourcePromo
      else s |> in
    let redemption := redemption <| rd_BatchId ::= λ b, if decide (b = "") then newBatch else b |> in
    _ ← lift (ValidateRedemptionKindForCreate redemption);
    mret redemption.

Definition ValidateRedemptionForCreate (newBatch : string) (redemption : Redemption) : Tx Redemption :=
  NormalizeRedemptionForCreate newBatch redemption.

(** *** The table of codes *)

(** gorm's queries skip rows that are marked deleted. *)
Definition live (P : Redemption → Prop) (r : Redemption) : Prop := rd_Deleted r = false ∧ P r.
Global Instance live_dec P `{∀ r, Decision (P r)} r : Decision (live P r).
Proof. unfold live. solve_decision. Defined.

Definition GetRedemptionById (id : Z) : Tx Redemption :=
  _ ← fail_if (id = 0) (ErrNew "id 为空！");
  db ← get;
  or_error (first (live (λ r, rd_Id r = id)) (redemptions db)) ErrRecordNotFound.

Definition GetRedemptionsByBatchId (batchId : string) : Tx (list Redemption) :=
  let batchId := TrimSpace batchId in
  _ ← fail_if (batchId = "") ErrRedemptionInvalid;
  db ← get;
  mret (where_ (live (λ r, rd_BatchId r = batchId)) (redemptions db)).

Definition MarkRedemptionsExported (batchId : string) (exportedTime : Z) : Tx () :=
  let batchId := TrimSpace batchId in
  _ ← fail_if (batchId = "") ErrRedemptionInvalid;
  modify (λ d, d <| redemptions ::= update_where (live (λ r, rd_BatchId r = batchId))
                      (λ r, r <| rd_ExportedTime := exportedTime |>) |>).

(** What the database stores of a new code: gorm writes the default of a column for
    a zero value, and skips the two fields that are no columns. *)
Definition column_defaults (r : Redemption) : Redemption :=
  r <| rd_Status ::= λ s, if decide (s = 0) then RedemptionCodeStatusEnabled else s |>
    <| rd_Quota ::= λ q, if decide (q = 0) then 100 else q |>
    <| rd_Type ::= λ t, if decide (t = "") then RedemptionTypeQuota else t |>
    <| rd_Kind ::= λ k, if decide (k = "") then RedemptionKindLegacy else k |>
    <| rd_Source ::= λ s, if decide (s = "") then RedemptionSourceManual else s |>
    <| rd_PlanTitle := "" |> <| rd_GiftResetCount := 0 |>.

(** [DB.Create(redemption)]: keys are unique, deleted codes included. *)
Definition insert_redemption (redemption : Redemption) : Tx () :=
  db ← get;
  _ ← fail_if (where_ (λ r, rd_Key r = rd_Key redemption) (redemptions db) ≠ []) ErrDatabase;
  modify (λ d, d <| redemptions ::= insert_row (column_defaults redemption) |>).

Definition SelectUpdate (redemption : Redemption) : Tx () :=
  _ ← fail_if (rd_Id redemption = 0) (ErrVar "gorm.ErrMissingWhereClause");
  modify (λ d, d <| redemptions ::= update_where (live (λ r, rd_Id r = rd_Id redemption))
    (λ r, r <| rd_RedeemedTime := rd_RedeemedTime redemption |> <| rd_Status := rd_Status redemption |>) |>).

(** [Redemption.Update]: the columns that an administrator edits. *)
Definition update_redemption (redemption : Redemption) : Tx () :=
  _ ← fail_if (rd_Id redemption = 0) (ErrVar "gorm.ErrMissingWhereClause");
  modify (λ d, d <| redemptions ::= update_where (live (λ r, rd_Id r = rd_Id redemption))
    (λ r, r <| rd_Name := rd_Name redemption |> <| rd_Status := rd_Status redemption |>
            <| rd_Quota := rd_Quota redemption |> <| rd_Type := rd_Type redemption |>
            <| rd_PlanId := rd_PlanId redemption |> <| rd_Kind := rd_Kind redemption |>
            <| rd_Amount := rd_Amount redemption |> <| rd_Money := rd_Money redemption |>
            <| rd_CountAsTopUp := rd_CountAsTopUp redemption |> <| rd_BatchId := rd_BatchId redemption |>
            <| rd_Source := rd_Source redemption |> <| rd_RedeemedTime := rd_RedeemedTime redemption |>
            <| rd_ExpiredTime := rd_ExpiredTime redemption |>
            <| rd_ResetCardCount := rd_ResetCardCount redemption |>) |>).

(** [Redemption.Delete]: the row stays and is marked. *)
Definition delete_redemption (redemption : Redemption) : Tx () :=
  _ ← fail_if (rd_Id redemption = 0) (ErrVar "gorm.ErrMissingWhereClause");
  modify (λ d, d <| redemptions ::= update_where (live (λ r, rd_Id r = rd_Id redemption))
                      (λ r, r <| rd_Deleted := true |>) |>).

Definition DeleteRedemptionById (id : Z) : Tx () :=
  _ ← fail_if (id = 0) (ErrNew "id 为空！");
  db ← get;
  redemption ← or_error (first (live (λ r, rd_Id r = id)) (redemptions db)) ErrRecordNotFound;
  delete_redemption redemption.

(** The codes that can no longer be redeemed. *)
Definition invalid_code (now : Z) (r : Redemption) : Prop :=
  rd_Status r = RedemptionCodeStatusUsed ∨ rd_Status r = RedemptionCodeStatusDisabled ∨
  rd_Status r = RedemptionCodeStatusEnabled ∧ rd_ExpiredTime r ≠ 0 ∧ rd_ExpiredTime r < now.
Global Instance invalid_code_dec now r : Decision (invalid_code now r).
Proof. unfold invalid_code. solve_decision. Defined.

Definition DeleteInvalidRedemptions (env : Env) : Tx Z :=
  db ← get;
  _ ← modify (λ d, d <| redemptions ::= update_where (live (invalid_code (app_now env))) (λ r, r <| rd_Deleted := true |>) |>);
  mret (affected (live (invalid_code (app_now env))) (redemptions db)).

(** *** Redeeming a code *)

Definition normalizeRedeemedRedemption (redemption : Redemption) : Redemption :=
  redemption <| rd_Type ::= normalizeRedemptionType |>
    <| rd_Kind ::= λ k, if decide (k = "") then RedemptionKindLegacy else k |>
    <| rd_Source ::= λ s, if decide (s = "") then RedemptionSourceManual else s |>.

Definition buildRedeemResult (redemption : Redemption) : RedeemResult :=
  let r := normalizeRedeemedRedemption redemption in
  mkRedeemResult (rd_Type r) (rd_Quota r) (rd_PlanId r) (rd_PlanTitle r) (rd_ResetCardCount r) (rd_GiftResetCount r)
    (mkRedeemMeta (rd_Id r) (rd_Type r) (rd_PlanId r) (rd_PlanTitle r) (rd_Kind r) (rd_Quota r) (rd_Amount r)
       (rd_Money r) (rd_CountAsTopUp r) (rd_BatchId r) (rd_Source r) (rd_ResetCardCount r)).

Definition CreateRedemptionTopUpTradeNo (redemptionID userID : Z) : string :=
  "RDM" +:+ pretty redemptionID +:+ "U" +:+ pretty userID.

Definition redeemError (e : error) : error :=
  if error_is e ErrRedemptionNotProvided || error_is e ErrRedemptionInvalid || error_is e ErrRedemptionUsed ||
     error_is e ErrRedemptionExpired || error_is e ErrRedemptionUnsupportedKind then e
  else ErrRedeemFailed.

(** The code as it is marked used. *)
Definition used_code (userId now : Z) (r : Redemption) : Redemption :=
  r <| rd_Status := RedemptionCodeStatusUsed |> <| rd_RedeemedTime := now |> <| rd_UsedUserId := userId |>.

Definition claimRedemptionCodeTx (redemption : Redemption) (userId now : Z) : Tx Redemption :=
  let claimable r := rd_Id r = rd_Id redemption ∧ rd_Status r = RedemptionCodeStatusEnabled in
  db ← get;
  _ ← modify (λ d, d <| redemptions ::= update_where (live claimable) (used_code userId now) |>);
  _ ← fail_if (affected (live claimable) (redemptions db) ≠ 1) ErrRedemptionUsed;
  mret (used_code userId now redemption).

(** [tx.Create(topUp)]: the trade number is unique. *)
Definition create_topup (t : TopUp) : Tx TopUp :=
  db ← get;
  _ ← fail_if (topup_by_trade_no (tu_TradeNo t) db ≠ None) ErrDatabase;
  _ ← modify (λ d, d <| top_ups ::= insert_row t |>);
  mret (inserted t (top_ups db)).

Section Redeem.
Context {D : Decimals}.

(** A code for a subscription. *)
Definition redeem_subscription (env : Env) (userId : Z) (redemption : Redemption) : Tx Redemption :=
  plan ← getSubscriptionPlanByIdFreshTx (rd_PlanId redemption);
  redemption ← claimRedemptionCodeTx redemption userId (app_now env);
  _ ← (if IsValuePackage plan then CreateValuePackageSubscriptionFromPlanTx env userId plan "redemption"
       else CreateUserSubscriptionFromPlanTx env userId plan "redemption");
  let plan := normalizeValuePackagePlan plan in
  mret (redemption <| rd_Quota := 0 |> <| rd_PlanTitle := sp_Title plan |>
          <| rd_GiftResetCount ::= λ g, if IsValuePackage plan
               then ClampSubscriptionPlanGiftResetCount (sp_GiftResetCount plan) else g |>).

(** A code for reset cards. *)
Definition redeem_cards (env : Env) (userId : Z) (redemption : Redemption) : Tx Redemption :=
  _ ← fail_if (rd_ResetCardCount redemption ≤ 0 ∨ rd_ResetCardCount redemption > MaxRedemptionResetCardCount)
        ErrRedemptionInvalid;
  _ ← ensureExistingUserForUpdateTx userId;
  redemption ← claimRedemptionCodeTx redemption userId (app_now env);
  _ ← grantValuePackageResetCountTx env userId (rd_ResetCardCount redemption)
        ValuePackageResetCountLedgerSourceRedemption userId
        ("兑换码兑换重置卡，兑换码ID " +:+ pretty (rd_Id redemption));
  mret (redemption <| rd_Quota := 0 |>).

(** A code for quota; the flag tells whether the user became a VIP. *)
Definition redeem_quota (env : Env) (uuid : string) (userId : Z) (redemption : Redemption) : Tx (bool * Redemption) :=
  _ ← fail_if (rd_Kind redemption = RedemptionKindCoupon ∨
               (rd_Kind redemption ≠ RedemptionKindLegacy ∧ rd_Kind redemption ≠ RedemptionKindPaidTopUp ∧
                rd_Kind redemption ≠ RedemptionKindPromoCredit)) ErrRedemptionUnsupportedKind;
  _ ← fail_if (rd_Kind redemption = RedemptionKindPaidTopUp ∧
               (rd_CountAsTopUp redemption = false ∨ rd_Amount redemption ≤ 0 ∨ rd_Money redemption ≤ 0))
        ErrRedemptionInvalid;
  _ ← fail_if (rd_Kind redemption = RedemptionKindPromoCredit ∧ rd_CountAsTopUp redemption = true) ErrRedemptionInvalid;
  let now := app_now env in
  redemption ← claimRedemptionCodeTx redemption userId now;
  rowsAffected ← update_user userId (λ u, u <| u_Quota ::= λ q, q + rd_Quota redemption |>);
  _ ← fail_if (rowsAffected ≠ 1) ErrRedemptionInvalid;
  if decide (rd_Kind redemption = RedemptionKindPaidTopUp ∧ rd_CountAsTopUp redemption = true) then
    topUp ← create_topup
      (mkTopUp 0 userId (rd_Amount redemption) (rd_Money redemption)
         (CreateRedemptionTopUpTradeNo (rd_Id redemption) userId) PaymentMethodRedemptionCode
         PaymentProviderRedemptionCode now now TopUpStatusSuccess);
    _ ← AddUserValidTopupCentsTx userId (validTopupCentsForTopUp topUp);
    _ ← MaybeCreateAffiliateCommissionForTopUpTx env uuid topUp;
    upgraded ← MaybeUpgradeUserToVIPTx userId;
    mret (upgraded, redemption)
  else mret (false, redemption).

Definition code_by_key (key : string) (db : DB) : option Redemption :=
  first (live (λ r, rd_Key r = key)) (redemptions db).

Definition redeemWithTx (env : Env) (uuid key : string) (userId : Z) : Tx (bool * Redemption) :=
  db ← get;
  redemption ← or_error (code_by_key key db) ErrRedemptionInvalid;
  _ ← fail_if (rd_Status redemption ≠ RedemptionCodeStatusEnabled) ErrRedemptionUsed;
  let now := app_now env in
  _ ← fail_if (rd_ExpiredTime redemption ≠ 0 ∧ rd_ExpiredTime redemption < now) ErrRedemptionExpired;
  let redemption := normalizeRedeemedRedemption redemption in
  _ ← fail_if (rd_Type redemption = "") ErrRedemptionInvalid;
  if decide (rd_Type redemption = RedemptionTypeSubscription) then
    redemption ← redeem_subscription env userId redemption;
    mret (false, redemption)
  else if decide (rd_Type redemption = RedemptionTypeResetCard) then
    redemption ← redeem_cards env userId redemption;
    mret (false, redemption)
  else redeem_quota env uuid userId redemption.

Definition redeemWithTxResult (env : Env) (uuid key : string) (userId : Z) : Tx (RedeemResult * bool) :=
  _ ← fail_if (key = "") ErrRedemptionNotProvided;
  _ ← fail_if (userId = 0) ErrRedemptionInvalid;
  r ← attempt (redeemWithTx env uuid key userId);
  match r with
  | Ok (vipUpgraded, redemption) => mret (buildRedeemResult redemption, vipUpgraded)
  | Err e => throw (redeemError e)
  end.

Definition RedeemWithTx (env : Env) (uuid key : string) (userId : Z) : Tx RedeemResult :=
  r ← redeemWithTxResult env uuid key userId;
  mret r.1.

Definition Redeem (env : Env) (uuid key : string) (userId : Z) : Tx RedeemResult :=
  _ ← fail_if (key = "") ErrRedemptionNotProvided;
  _ ← fail_if (userId = 0) ErrRedemptionInvalid;
  r ← transaction (redeemWithTxResult env uuid key userId);
  mret r.1.

(** ** What a redemption does *)

(** The database with the code claimed. *)
Definition claimed (env : Env) (userId : Z) (r : Redemption) (db : DB) : DB :=
  db <| redemptions ::= update_where (live (λ x, rd_Id x = rd_Id r ∧ rd_Status x = RedemptionCodeStatusEnabled))
          (used_code userId (app_now env)) |>.

Lemma wp_claim env userId r (Q : result Redemption → DB → Prop) db :
  Q (Ok (used_code userId (app_now env) r)) (claimed env userId r db) → (∀ e d, Q (Err e) d) →
  wp (claimRedemptionCodeTx r userId (app_now env)) Q db.
Proof.
  intros HOk HErr. unfold claimRedemptionCodeTx. wp_step. wp_step. wp_step. wp_step. wp_guard as _; [apply HErr|].
  wp_step. exact HOk.
Qed.

(** Quota: the wallet of the user grows by the quota of the code; a code that was
    sold also counts as a top-up. *)
Record quota_redeemed (db db' : DB) (userId : Z) (r : Redemption) : Prop := {
  qr_kind : rd_Kind r = RedemptionKindLegacy ∨ rd_Kind r = RedemptionKindPaidTopUp ∨
    rd_Kind r = RedemptionKindPromoCredit;
  qr_wallet : ∀ i, wallet db' i = (λ q, if decide (i = userId) then q + rd_Quota r else q) <$> wallet db i;
  qr_tables : package_tables db' = package_tables db;
  qr_lifetime : ∀ i, lifetime db' i =
    (if decide (rd_Kind r = RedemptionKindPaidTopUp) then earns userId (AmountToValidTopupCents (rd_Amount r)) i else id)
      <$> lifetime db i;
  qr_topups : rd_Kind r ≠ RedemptionKindPaidTopUp → top_ups db' = top_ups db;
  qr_commissions : commissions_ok db → commissions_ok db';
}.

(** Reset cards: the user gets as many as the code carries. *)
Record cards_redeemed (db db' : DB) (userId : Z) (r : Redemption) : Prop := {
  cr_count : 1 ≤ rd_ResetCardCount r ≤ MaxRedemptionResetCardCount;
  cr_cards : cards_ok db' ∧ moves_cards db db' userId (rd_ResetCardCount r);
  cr_books : same_books db db';
  cr_users : users db' = users db ∧ affiliate_commissions db' = affiliate_commissions db;
}.

(** A subscription: the plan of the code is bought for the user. *)
Inductive subscription_redeemed {B : PostBilled} (env : Env) (db db' : DB) (userId : Z) (r : Redemption) : Prop :=
| package_redeemed plan sub :
  plan_of (subscription_plans db) (rd_PlanId r) = Some plan → IsValuePackage plan = true →
  purchased env db db' userId plan (sp_GiftResetCount plan) sub →
  users db' = users db → affiliate_commissions db' = affiliate_commissions db →
  subscription_redeemed env db db' userId r
| regular_redeemed plan sub :
  plan_of (subscription_plans db) (rd_PlanId r) = Some plan → IsValuePackage plan = false →
  subscribed env db db' userId plan "redemption" sub →
  affiliate_commissions db' = affiliate_commissions db →
  subscription_redeemed env db db' userId r.

(** The plan of a code is well-formed, and its numbers fit. *)
Definition redeemable (env : Env) (db : DB) (userId : Z) (r : Redemption) : Prop :=
  ∀ plan, plan_of (subscription_plans db) (rd_PlanId r) = Some plan →
    sp_TotalAmount plan ≤ max_int64 ∧
    (IsValuePackage plan = true → is_Some (package_days (sp_PackageType plan)) ∧ purchase_fits env db userId plan).

Lemma keeps_create_regular env userId plan source :
  keeps (λ db, (affiliate_commissions db, redemptions db)) (CreateUserSubscriptionFromPlanTx env userId plan source).
Proof.
  unfold CreateUserSubscriptionFromPlanTx, raise_group, getUserGroupByIdTx, set_user_group, create_subscription.
  keeps_solve.
Qed.

Lemma keeps_grant env userId count source actor note :
  keeps shop_tables (grantValuePackageResetCountTx env userId count source actor note).
Proof.
  unfold grantValuePackageResetCountTx, ensureValuePackagePreferenceForUpdateTx, create_preference, set_reset_count,
    update_preference, create_ledger. keeps_solve.
Qed.

Lemma wp_redeem_subscription {B : PostBilled} env userId r (Q : result Redemption → DB → Prop) db :
  Accounting db → cards_ok db → redeemable env db userId r →
  (∀ r' db', subscription_redeemed env db db' userId r → redemptions db' = redemptions (claimed env userId r db) →
     Q (Ok r') db') →
  (∀ e db', Q (Err e) db') → wp (redeem_subscription env userId r) Q db.
Proof.
  intros Hacc Hok Hred HOk HErr. unfold redeem_subscription. wp_step.
  apply wp_get_plan_fresh; [|intros; apply HErr]. intros plan Hplan. wp_step. apply wp_claim; [|intros; apply HErr].
  set (np := normalizeValuePackagePlan plan) in *. destruct (Hred np Hplan) as [Htot Hpack].
  pose proof (plan_of_id _ _ _ Hplan) as Hid. pose proof (IsValuePackage_normalize plan) as Hvp. fold np in Hvp.
  wp_step. destruct (IsValuePackage plan) eqn:Hv.
  - destruct (Hpack Hvp) as [Htype Hfits]. apply (wp_keeps _ _ _ _ (keeps_purchase env userId plan "redemption")).
    apply wp_purchase; [exact Hacc|by apply (cards_ext db)|split; [fold np; by rewrite Hid|done]|by destruct Hfits; split| |intros; apply HErr].
    fold np. intros sub db' intent _ [H1 H2 H3 H4 H5 H6 H7 H8] [= Hus _ _ _ _ _ _ _ Hc _ Hr _].
    wp_step. apply HOk; [|exact Hr]. apply (package_redeemed _ _ _ _ _ np sub); [done|done|by split|done|done].
  - apply (wp_keeps _ _ _ _ (keeps_create_regular env userId plan "redemption")).
    apply wp_create_regular; [done| |intros; apply HErr]. fold np. intros sub db' Hsub Hnv _ [= Hc Hr].
    wp_step. apply HOk; [|exact Hr]. apply (regular_redeemed _ _ _ _ _ np sub); [done|done| |done].
    destruct Hsub as [[]]. by split.
Qed.

Lemma wp_redeem_cards env userId r (Q : result Redemption → DB → Prop) db :
  cards_ok db → cards db userId + MaxRedemptionResetCardCount ≤ max_int64 →
  (∀ r' db', cards_redeemed db db' userId r → redemptions db' = redemptions (claimed env userId r db) → Q (Ok r') db') →
  (∀ e db', Q (Err e) db') → wp (redeem_cards env userId r) Q db.
Proof.
  intros Hok Hfit HOk HErr. unfold redeem_cards, MaxRedemptionResetCardCount in *. wp_guard as Hcount; [apply HErr|].
  unfold ensureExistingUserForUpdateTx. wp_step. wp_guard as _; [apply HErr|]. wp_step. wp_step. wp_step.
  apply wp_or_error; [intros u _|intros; apply HErr]. wp_step. wp_step. apply wp_claim; [|intros; apply HErr].
  wp_step. apply (wp_keeps _ _ _ _ (keeps_grant env userId _ _ _ _)).
  apply wp_grant; [by apply (cards_ext db)| | |intros; apply HErr].
  { rewrite (proj2 (cards_ext db (claimed env userId r db) eq_refl eq_refl) userId). cbn. lia. }
  intros pref db' _ Hb Hok' Hm [= Hus _ _ _ _ _ _ _ Hc _ Hr _]. wp_step. apply HOk; [|done].
  split; [unfold MaxRedemptionResetCardCount; lia|split; [done|exact Hm]| |done].
  destruct Hb as [[] ?]. by split.
Qed.

Lemma wp_create_topup t (Q : result TopUp → DB → Prop) db :
  Q (Ok (inserted t (top_ups db))) (db <| top_ups ::= insert_row t |>) → (∀ e, Q (Err e) db) → wp (create_topup t) Q db.
Proof. intros HOk HErr. unfold create_topup. wp_step. wp_step. wp_guard as _; [apply HErr|]. by wp_steps. Qed.

Lemma wp_redeem_quota env uuid userId r (Q : result (bool * Redemption) → DB → Prop) db :
  (∀ x db', quota_redeemed db db' userId r → redemptions db' = redemptions (claimed env userId r db) → Q (Ok x) db') →
  (∀ e db', Q (Err e) db') → wp (redeem_quota env uuid userId r) Q db.
Proof.
  intros HOk HErr. unfold redeem_quota. wp_guard as Hkind; [apply HErr|]. wp_guard as Hpaid; [apply HErr|].
  wp_guard as Hpromo; [apply HErr|]. cbv zeta.
  assert (Hk : rd_Kind r = RedemptionKindLegacy ∨ rd_Kind r = RedemptionKindPaidTopUp ∨ rd_Kind r = RedemptionKindPromoCredit).
  { destruct (decide (rd_Kind r = RedemptionKindLegacy)), (decide (rd_Kind r = RedemptionKindPaidTopUp)),
      (decide (rd_Kind r = RedemptionKindPromoCredit)); tauto. }
  wp_step. apply wp_claim; [|intros; apply HErr]. unfold update_user. wp_step. wp_step. wp_step. wp_step. wp_step. wp_step.
  wp_guard as _; [apply HErr|]. set (db1 := (claimed env userId r db) <| users ::= _ |>).
  cbn [rd_Kind rd_CountAsTopUp rd_Quota rd_Amount rd_Money rd_Id used_code update_field].
  assert (Hw1 : ∀ i, wallet db1 i = (λ q, if decide (i = userId) then q + rd_Quota r else q) <$> wallet db i).
  { intros i. change (wallet db i) with (wallet (claimed env userId r db) i). by apply wallet_update. }
  assert (Hl1 : ∀ i, lifetime db1 i = lifetime db i).
  { intros i. by apply (lifetime_same (claimed env userId r db) db1 (λ u, u_Id u = userId)
      (λ u, u <| u_Quota ::= λ q, q + rd_Quota r |>)). }
  case_decide as Htop; cbn in Htop.
  - destruct Htop as [Hp Hcount]. wp_step. apply wp_create_topup; [|intros; apply HErr]. set (t := inserted _ _).
    set (db2 := db1 <| top_ups ::= _ |>).
    assert (Hcents : validTopupCentsForTopUp t = AmountToValidTopupCents (rd_Amount r)).
    { unfold validTopupCentsForTopUp. cbn. rewrite decide_True; [done|]. destruct (decide (rd_Amount r ≤ 0)); [tauto|lia]. }
    rewrite Hcents. wp_step. apply (wp_keeps _ _ _ _ (keeps_cents _ _)). apply wp_cents; [|intros; apply HErr].
    intros db3 Hlife Hwal Hdb3 [= Hp2 Hs2 Hpf2 Hu2 Hq2 Hl2 Hr2 Hc2 Ht2 Ho2].
    wp_step. apply (wp_keeps _ _ _ _ (keeps_commission env uuid t)). apply wp_commission; [|intros; apply HErr].
    intros db4 Hstep [= Hp3 Hs3 Hpf3 Hu3 Hq3 Hl3 Hr3 Hus3 Ht3 Ho3].
    wp_step. apply (wp_keeps (λ d, (package_tables d, affiliate_commissions d, redemptions d))); [unfold MaybeUpgradeUserToVIPTx; keeps_solve|].
    apply wp_vip_users; [|intros; apply HErr]. intros b db5 Hlife4 Hwal4 [= Hp4 Hs4 Hpf4 Hu4 Hq4 Hl4 Hr4 Hc4 Hrd4].
    wp_step. apply HOk.
    + split; [done| | | |done|].
      * intros i. rewrite Hwal4, <-Hw1. unfold wallet in *. by rewrite Hus3, Hwal.
      * unfold package_tables. cbn in *. congruence.
      * intros i. rewrite decide_True by done. rewrite Hlife4, <-Hl1. unfold lifetime in *. by rewrite Hus3, Hlife.
      * intros Hco. apply (commissions_ext db4); [done|]. apply (commission_step_ok _ _ _ _ _ Hstep).
        by apply (commissions_ext db).
    + rewrite Hrd4. destruct (commission_step_frame _ _ _ _ _ Hstep) as (_ & _ & Hfr). injection Hfr as _ _ _ _ _ _ _ _ _ _ _ Hrd _.
      rewrite Hrd, Hdb3. done.
  - wp_step. apply HOk; [|done]. assert (Hnp : rd_Kind r ≠ RedemptionKindPaidTopUp).
    { intros Hp. destruct (rd_CountAsTopUp r); [tauto|]. apply Hpaid. auto. }
    split; [done|exact Hw1|done| |done|by apply commissions_ext]. intros i. rewrite decide_False by done.
    rewrite Hl1. by destruct (lifetime db i).
Qed.

(** A code was redeemed: [r] is the code as read, with its defaults. *)
Definition redeemed {B : PostBilled} (env : Env) (db db' : DB) (userId : Z) (r : Redemption) : Prop :=
  rd_Type r = RedemptionTypeSubscription ∧ subscription_redeemed env db db' userId r ∨
  rd_Type r = RedemptionTypeResetCard ∧ cards_redeemed db db' userId r ∨
  rd_Type r = RedemptionTypeQuota ∧ quota_redeemed db db' userId r.

(** A code that can be redeemed now. *)
Record open_code (env : Env) (key : string) (db : DB) (r : Redemption) : Prop := {
  oc_found : code_by_key key db = Some r;
  oc_enabled : rd_Status r = RedemptionCodeStatusEnabled;
  oc_valid : rd_ExpiredTime r = 0 ∨ app_now env ≤ rd_ExpiredTime r;
}.

Lemma type_cases s :
  normalizeRedemptionType s = "" ∨ normalizeRedemptionType s = RedemptionTypeQuota ∨
  normalizeRedemptionType s = RedemptionTypeSubscription ∨ normalizeRedemptionType s = RedemptionTypeResetCard.
Proof. unfold normalizeRedemptionType. repeat case_decide; auto. Qed.

(** The result of a redemption as the caller sees it. *)
Lemma wp_redeem_outer env uuid key userId (Q : result RedeemResult → DB → Prop) db :
  wp (redeemWithTx env uuid key userId)
    (λ r d, match r with Ok (b, x) => Q (Ok (buildRedeemResult x)) d | Err e => Q (Err (redeemError e)) db end) db →
  (key = "" → Q (Err ErrRedemptionNotProvided) db) → (userId = 0 → Q (Err ErrRedemptionInvalid) db) →
  wp (Redeem env uuid key userId) Q db.
Proof.
  intros Hm Hkey Huser. unfold Redeem, redeemWithTxResult. apply wp_bind, wp_fail_if; intros Hk; [auto|].
  apply wp_bind, wp_fail_if; intros Hu; [auto|]. wp_step. wp_step. wp_pass. wp_pass. wp_step. wp_step.
  eapply wp_mono; [exact Hm|]. intros [[b x]|e] d Hd; wp_step; [by wp_step|exact Hd].
Qed.

Lemma wp_redeem {B : PostBilled} env uuid key userId (Q : result RedeemResult → DB → Prop) db :
  Accounting db → cards_ok db → cards db userId + MaxRedemptionResetCardCount ≤ max_int64 →
  (∀ r, code_by_key key db = Some r → redeemable env db userId r) →
  (∀ r res db', open_code env key db r → redeemed env db db' userId (normalizeRedeemedRedemption r) →
     redemptions db' = redemptions (claimed env userId r db) → Q (Ok res) db') →
  (∀ e, Q (Err e) db) →
  wp (Redeem env uuid key userId) Q db.
Proof.
  intros Hacc Hok Hfit Hred HOk HErr. apply wp_redeem_outer; [|auto|auto]. unfold redeemWithTx.
  wp_step. wp_step. wp_step. apply wp_or_error; [intros r Hr|auto]. wp_guard as Hst%dec_stable; [auto|].
  wp_guard as Hexp; [auto|]. cbv zeta.
  assert (Hopen : open_code env key db r).
  { split; [done|done|]. destruct (decide (rd_ExpiredTime r = 0)); [auto|]. right. lia. }
  set (x := normalizeRedeemedRedemption r). pose proof (type_cases (rd_Type r)) as Hcases.
  change (normalizeRedemptionType (rd_Type r)) with (rd_Type x) in Hcases. wp_guard as Htype; [auto|].
  case_decide as Hsub; [|case_decide as Hcard].
  - wp_step. apply wp_redeem_subscription; [done|done|exact (Hred r Hr)| |auto]. intros r' db' Hs Ht. wp_step.
    apply (HOk r); [done|by left|done].
  - wp_step. apply wp_redeem_cards; [done|done| |auto]. intros r' db' Hs Ht. wp_step.
    apply (HOk r); [done|by right; left|done].
  - apply wp_redeem_quota; [|auto]. intros [b r'] db' Hs Ht. apply (HOk r); [done| |done]. right. right.
    split; [|done]. tauto.
Qed.

(** ** The codes *)

Lemma keeps_codes {A} env userId (k : Redemption → Tx A) r (Q : result A → DB → Prop) db :
  (∀ x, keeps redemptions (k x)) →
  (∀ a d, redemptions d = redemptions (claimed env userId r db) → Q (Ok a) d) → (∀ e d, Q (Err e) d) →
  wp (x ← claimRedemptionCodeTx r userId (app_now env); k x) Q db.
Proof.
  intros Hk HOk HErr. wp_step. apply wp_claim; [|intros; apply HErr]. eapply wp_keeps; [apply Hk|].
  unfold wp. intros Hd. by destruct (k _ _) as [[a|e] d]; cbn in *; auto.
Qed.

Lemma keeps_purchase_codes env userId plan source :
  keeps redemptions (CreateValuePackageSubscriptionFromPlanTx env userId plan source).
Proof. exact (keeps_part (λ '(_, _, _, _, _, _, _, _, _, _, r, _), r) _ _ (keeps_purchase env userId plan source)). Qed.
Lemma keeps_regular_codes env userId plan source :
  keeps redemptions (CreateUserSubscriptionFromPlanTx env userId plan source).
Proof. exact (keeps_part snd _ _ (keeps_create_regular env userId plan source)). Qed.
Lemma keeps_grant_codes env userId count source actor note :
  keeps redemptions (grantValuePackageResetCountTx env userId count source actor note).
Proof. exact (keeps_part (λ '(_, _, _, _, _, _, _, _, _, _, r, _), r) _ _ (keeps_grant env userId count source actor note)). Qed.
Lemma keeps_booking_codes env uuid userId cents t :
  keeps redemptions (AddUserValidTopupCentsTx userId cents) ∧
  keeps redemptions (MaybeCreateAffiliateCommissionForTopUpTx env uuid t) ∧
  keeps redemptions (MaybeUpgradeUserToVIPTx userId) ∧ keeps redemptions (create_topup t).
Proof.
  unfold AddUserValidTopupCentsTx, update_user, MaybeCreateAffiliateCommissionForTopUpTx, create_commission,
    MaybeUpgradeUserToVIPTx, create_topup. split_and!; keeps_solve.
Qed.
#[local] Hint Resolve keeps_purchase_codes keeps_regular_codes keeps_grant_codes : keeps.

(** A redemption that succeeds marks an open code as used and no other. *)
Lemma redeem_codes env uuid key userId db :
  wp (Redeem env uuid key userId) (λ r d, match r with
    | Ok _ => ∃ x, open_code env key db x ∧ redemptions d = redemptions (claimed env userId x db)
    | Err _ => d = db end) db.
Proof.
  apply wp_redeem_outer; [|done|done]. unfold redeemWithTx. wp_step. wp_step. wp_step.
  apply wp_or_error; [intros r Hr|done]. wp_guard as Hst%dec_stable; [done|]. wp_guard as Hexp; [done|]. cbv zeta.
  assert (Hopen : open_code env key db r).
  { split; [done|done|]. destruct (decide (rd_ExpiredTime r = 0)); [auto|]. right. lia. }
  set (x := normalizeRedeemedRedemption r). wp_guard as Htype; [done|]. case_decide; [|case_decide].
  - unfold redeem_subscription. wp_step. wp_step. apply wp_get_plan_fresh; [|done]. intros plan _.
    apply keeps_codes; [intros y; destruct (IsValuePackage plan); keeps_solve| |done].
    intros a d Hd. wp_step. by exists r.
  - unfold redeem_cards, ensureExistingUserForUpdateTx. wp_step. wp_guard as _; [done|]. wp_step. wp_guard as _; [done|].
    wp_step. wp_step. wp_step. apply wp_or_error; [intros u _|done]. wp_step.
    apply keeps_codes; [intros y; keeps_solve| |done]. intros a d Hd. wp_step. by exists r.
  - unfold redeem_quota. do 3 (wp_guard as _; [done|]). cbv zeta.
    apply keeps_codes; [| |done].
    + intros y. unfold update_user. pose proof keeps_booking_codes as Hb.
      keeps_solve; by first [eapply Hb|apply (Hb env uuid userId 0)].
    + intros [b y] d Hd. by exists r.
Qed.

Lemma first_claimed env userId x key db :
  code_by_key key (claimed env userId x db) =
  (λ r, if decide (live (λ y, rd_Id y = rd_Id x ∧ rd_Status y = RedemptionCodeStatusEnabled) r)
        then used_code userId (app_now env) r else r) <$> code_by_key key db.
Proof.
  unfold code_by_key, first, claimed, update_where. cbn. generalize (rows (redemptions db)) as l.
  induction l as [|r l IH]; csimpl; [done|]. rewrite !filter_cons.
  set (r' := if decide _ then _ else r) at 1 2 3.
  assert (Hl : live (λ y, rd_Key y = key) r' ↔ live (λ y, rd_Key y = key) r) by (unfold r'; by case_decide).
  destruct (decide (live (λ y, rd_Key y = key) r)) as [Hr|Hr].
  - rewrite decide_True by (by apply Hl). done.
  - rewrite decide_False by (by rewrite Hl). exact IH.
Qed.

(** The code of a key is spent. *)
Definition spent (key : string) (db : DB) : Prop :=
  ∃ r, code_by_key key db = Some r ∧ rd_Status r ≠ RedemptionCodeStatusEnabled.

Lemma spent_claimed env userId x key db db' :
  redemptions db' = redemptions (claimed env userId x db) → spent key db → spent key db'.
Proof.
  intros Hr (r & Hc & Hs).
  assert (Hk : code_by_key key db' = code_by_key key (claimed env userId x db)) by (unfold code_by_key; by rewrite Hr).
  unfold spent. rewrite Hk, first_claimed, Hc. cbn. eexists. split; [done|]. by case_decide.
Qed.

Lemma spent_by_redeeming env userId x key db db' :
  open_code env key db x → redemptions db' = redemptions (claimed env userId x db) → spent key db'.
Proof.
  intros [Hc Hs _] Hr.
  assert (Hk : code_by_key key db' = code_by_key key (claimed env userId x db)) by (unfold code_by_key; by rewrite Hr).
  unfold spent. rewrite Hk, first_claimed, Hc. cbn. eexists. split; [done|].
  rewrite decide_True; [done|]. split; [by apply first_Some in Hc as [_ [? _]]|done].
Qed.

Lemma redeem_spent env uuid key userId db :
  key ≠ "" → userId ≠ 0 → spent key db → Redeem env uuid key userId db = (Err ErrRedemptionUsed, db).
Proof.
  intros Hk Hu (r & Hc & Hs). apply wp_exact, wp_redeem_outer; [|done|done]. unfold redeemWithTx. wp_step. wp_step. wp_step.
  rewrite Hc. apply wp_or_error; [|done]. intros ? [= <-]. by apply wp_bind, wp_fail_if.
Qed.

(** The program as far as codes are concerned: redemptions by anybody, of any code,
    among whatever else leaves the codes alone. *)
Inductive code_step : DB → DB → Prop :=
| code_redeem env uuid key userId db r db' : Redeem env uuid key userId db = (r, db') → code_step db db'
| code_other db db' : redemptions db' = redemptions db → code_step db db'.

Lemma spent_step key db db' : code_step db db' → spent key db → spent key db'.
Proof.
  intros [env uuid k userId d r d' Hrun|d d' Heq] Hs.
  - pose proof (wp_run _ _ _ _ _ (redeem_codes env uuid k userId d) Hrun) as Hpost. cbn in Hpost.
    destruct r; [|by subst]. destruct Hpost as (x & _ & Hx). exact (spent_claimed _ _ _ _ _ _ Hx Hs).
  - unfold spent, code_by_key in *. by rewrite Heq.
Qed.

(** ** Properties *)

(** C26: a code is redeemed at most once.  A redemption that fails changes nothing;
    after one that succeeds, whatever else happens short of an administrator editing
    the codes, and whoever presents the code again, the redemption is refused because
    the code is used, and changes nothing. *)
Theorem redeem_once env uuid key userId db r db' :
  Redeem env uuid key userId db = (r, db') →
  match r with
  | Err _ => db' = db
  | Ok _ => ∀ db2, rtc code_step db' db2 → ∀ env2 uuid2 userId2, userId2 ≠ 0 →
      Redeem env2 uuid2 key userId2 db2 = (Err ErrRedemptionUsed, db2)
  end.
Proof.
  intros Hrun. pose proof (wp_run _ _ _ _ _ (redeem_codes env uuid key userId db) Hrun) as Hpost. cbn in Hpost.
  destruct r as [res|e]; [|done]. destruct Hpost as (x & Hopen & Hx). intros db2 Hsteps env2 uuid2 userId2 Hu.
  assert (key ≠ "") by (intros ->; discriminate Hrun).
  apply redeem_spent; [done|done|]. apply (spent_by_redeeming _ _ _ key db db' Hopen) in Hx.
  clear -Hsteps Hx. induction Hsteps as [|d1 d2 d3 Hs _ IH]; [done|]. apply IH. by eapply spent_step.
Qed.

(** C28: a code delivers what it carries.  A redemption that succeeds is of a code
    that was enabled and not expired, and marks exactly that code as used; a quota
    code adds its quota to the wallet of the user and to no other, counting towards
    the lifetime top-ups exactly if it was sold; a card code adds its cards; a
    subscription code buys its plan.  Accounting, card ledger and commissions stay
    right. *)
Theorem redeem_delivers env uuid key userId db res db' :
  Accounting db → cards_ok db → cards db userId + MaxRedemptionResetCardCount ≤ max_int64 →
  (∀ r, code_by_key key db = Some r → redeemable env db userId r) →
  Redeem env uuid key userId db = (Ok res, db') →
  ∃ r, open_code env key db r ∧ redeemed env db db' userId (normalizeRedeemedRedemption r) ∧
    redemptions db' = redemptions (claimed env userId r db).
Proof.
  intros Hacc Hok Hfit Hred Hrun.
  refine (wp_run _ (λ r d, match r with Ok _ => ∃ x, open_code env key db x ∧
    redeemed env db d userId (normalizeRedeemedRedemption x) ∧ redemptions d = redemptions (claimed env userId x db)
    | Err _ => True end) _ _ _ _ Hrun).
  apply wp_redeem; [done|done|done|done| |done]. intros r x d Hopen Hr Ht. by exists r.
Qed.

(** A code of quota that was given away is honoured: whoever presents it while it is
    enabled and not expired gets its quota. *)
Theorem redeem_honoured env uuid key userId db r u :
  table_wf (redemptions db) → table_wf (users db) → key ≠ "" → userId ≠ 0 → open_code env key db r →
  normalizeRedemptionType (rd_Type r) = RedemptionTypeQuota →
  rd_Kind r = "" ∨ rd_Kind r = RedemptionKindLegacy ∨
    (rd_Kind r = RedemptionKindPromoCredit ∧ rd_CountAsTopUp r = false) →
  by_id userId (users db) = Some u →
  ∃ res db', Redeem env uuid key userId db = (Ok res, db') ∧ re_Quota res = rd_Quota r ∧
    wallet db' userId = Some (u_Quota u + rd_Quota r).
Proof.
  intros Hwf Hwfu Hkey Hu0 [Hc Hs Hv] Htype Hkind Hu.
  destruct (wp_result (Redeem env uuid key userId) (λ o d, ∃ res, o = Ok res ∧ re_Quota res = rd_Quota r ∧
    wallet d userId = Some (u_Quota u + rd_Quota r)) db) as (o & d & Hrun & res & -> & Hq & Hw); [|by exists res, d].
  apply wp_redeem_outer; [|done|done]. unfold redeemWithTx. wp_step. wp_step. wp_step. rewrite Hc.
  apply wp_or_error; [intros ? [= <-]|done]. wp_pass. wp_pass. cbv zeta.
  set (x := normalizeRedeemedRedemption r). change (normalizeRedemptionType (rd_Type r)) with (rd_Type x) in Htype.
  rewrite Htype. apply wp_bind, wp_fail_if; [done|intros _]. rewrite !decide_False by done. unfold redeem_quota.
  assert (Hk : rd_Kind x = RedemptionKindLegacy ∨ rd_Kind x = RedemptionKindPromoCredit ∧ rd_CountAsTopUp r = false).
  { cbn. destruct Hkind as [->|[->|[-> ?]]]; auto. }
  assert (Hnp : rd_Kind x ≠ RedemptionKindPaidTopUp ∧ rd_Kind x ≠ RedemptionKindCoupon)
    by (destruct Hk as [->|[-> _]]; done).
  wp_pass. wp_pass. apply wp_bind, wp_fail_if.
  { intros [Hp Hcount]. exfalso. change (rd_CountAsTopUp r = true) in Hcount. destruct Hk as [Hk|[_ Hk]]; [by rewrite Hk in Hp|congruence]. }
  intros _. pose proof Hc as Hc'. apply first_Some in Hc' as [Hin [Hlive _]].
  unfold claimRedemptionCodeTx, update_user. wp_step. wp_step. wp_step. wp_step. wp_step. apply wp_bind, wp_fail_if.
  { intros Ha. destruct Ha. apply (affected_one _ _ r); [done..|]. by intros y _ [_ [Hy _]]. }
  intros _. do 7 wp_step. apply wp_bind, wp_fail_if.
  { intros Ha. destruct Ha. apply by_id_Some in Hu as [Huin Huid]. apply (affected_one _ _ u); [done..|]. intros v _ Hvid. cbn in *. congruence. }
  intros _. rewrite decide_False by (intros [Hp _]; exact (proj1 Hnp Hp)). wp_step. eexists. split_and!; [done|done|].
  apply (f_equal (fmap u_Quota)) in Hu. fold (wallet db userId) in Hu. cbn in Hu.
  rewrite (wallet_update _ _ _ (λ q, q + rd_Quota r)) by done.
  match goal with |- context [wallet ?d userId] => change (wallet d userId) with (wallet db userId) end. rewrite Hu. cbn. by rewrite decide_True.
Qed.
End Redeem.

(** *** Examples *)

(** Three codes, for quota, cards and a month package; the first was sold. *)
Definition code (id : Z) (key type kind : string) (quota plan : Z) (cards : Z) : Redemption :=
  mkRedemption id 9 key 1 "" quota type plan "" kind 20 18000000 (bool_decide (kind = "paid_topup")) "B" "ldxp" 0 100 0 0
    false 0 cards 0.
Definition codes_db : DB :=
  (shop_db 1) <| redemptions := Table [code 1 "K1" "quota" "paid_topup" 1000 0 0; code 2 "K2" "reset_card" "promo_credit" 0 0 3;
    code 3 "K3" " subscription" "promo_credit" 0 2 0] 4 |>.
Definition redeem_run (key : string) : result RedeemResult * DB :=
  Redeem (D := fixed_decimals) cards_env "0-1" key 1 codes_db.

Example redeem_once_witness :
  wallet (redeem_run "K1").2 1 = Some 1000 ∧
  Redeem (D := fixed_decimals) cards_env "0-2" "K1" 1 (redeem_run "K1").2 = (Err ErrRedemptionUsed, (redeem_run "K1").2).
Proof.
  split; [vm_compute; reflexivity|].
  pose proof (redeem_once (D := fixed_decimals) cards_env "0-1" "K1" 1 codes_db (redeem_run "K1").1 (redeem_run "K1").2
    (surjective_pairing _)) as Hagain.
  assert (Hok : ∃ res, (redeem_run "K1").1 = Ok res) by (vm_compute; eauto). destruct Hok as [res Hok]. rewrite Hok in Hagain.
  apply Hagain; [apply rtc_refl|discriminate].
Defined.

Lemma codes_redeemable r : code_by_key "K3" codes_db = Some r → redeemable cards_env codes_db 1 r.
Proof.
  intros [= <-] plan Hplan. assert (Hp : plan = example_package) by (vm_compute in Hplan |- *; congruence). subst plan.
  split; [vm_compute; discriminate|]. split; [vm_compute; eauto|].
  split; [vm_compute; discriminate|vm_compute; discriminate|repeat constructor; done|vm_compute; discriminate].
Qed.

Definition redeemed_K3 : RedeemResult :=
  mkRedeemResult "subscription" 0 2 (sp_Title example_package) 0 (sp_GiftResetCount example_package)
    (mkRedeemMeta 3 "subscription" 2 (sp_Title example_package) "promo_credit" 0 20 18000000 false "B" "ldxp" 0).

Example redeem_delivers_witness :
  ∃ r, open_code cards_env "K3" codes_db r ∧ rd_Type (normalizeRedeemedRedemption r) = "subscription" ∧
    subscription_redeemed cards_env codes_db (redeem_run "K3").2 1 (normalizeRedeemedRedemption r).
Proof.
  destruct (redeem_delivers (D := fixed_decimals) cards_env "0-1" "K3" 1 codes_db redeemed_K3 (redeem_run "K3").2)
    as (r & Hopen & Hr & _).
  - apply shop_accounting.
  - apply (cards_ext (shop_db 1)); [done|done|apply shop_cards].
  - vm_compute. discriminate.
  - exact codes_redeemable.
  - vm_compute. reflexivity.
  - exists r. pose proof (oc_found _ _ _ _ Hopen) as Hc. injection Hc as <-.
    destruct Hr as [[Ht Hr]|[[Ht _]|[Ht _]]]; [|discriminate..]. split; [exact Hopen|]. split; [exact Ht|exact Hr].
Defined.
