(* ===== verification/Ldxp.v ===== *)
(** * The linked shop

    [model/ldxp_topup.go], [service/ldxp_session.go], [service/ldxp_mail.go],
    [service/ldxp_verify.go], [service/order_mail_check_job.go]: a user pays in an external
    shop, where a worker in a browser places the order.  A session follows the payment:
    the worker claims it, shows the user a code to pay by, and reports the paid order; the
    shop's mail about the order is matched with the session; then the session is verified
    and delivers what was bought: the redemption code of the order ([Redemptions.v]), a
    direct top-up, or a value package ([Orders.v]).  Reading mails and web pages is not
    modelled: what the worker and the mails say are arguments.  Identifiers that are drawn
    at random are arguments too. *)
From S2P Require Import Prelude Tables GoFloat GoTime Schema Plans Windows Cycles Consume Accounting Ledger Preferences Cards Purchases Lifecycle Topups Orders Redemptions.

(** ** Definitions *)

Definition PaymentMethodLDXP := "ldxp".
Definition LdxpPurposeTopup := "topup".
Definition LdxpPurposeValuePackage := "value_package".
Definition LdxpStatusCreated := "created".
Definition LdxpStatusWorkerClaimed := "worker_claimed".
Definition LdxpStatusQrReady := "qr_ready".
Definition LdxpStatusWorkerPaid := "worker_paid".
Definition LdxpStatusVerified := "verified".
Definition LdxpStatusRedeemed := "redeemed".
Definition LdxpStatusSuccess := "success".
Definition LdxpStatusCanceled := "canceled".
Definition LdxpStatusExpired := "expired".
Definition LdxpStatusWorkerFailed := "worker_failed".
Definition LdxpStatusMailTimeout := "mail_timeout".
Definition LdxpStatusVerifyFailed := "verify_failed".
Definition LdxpStatusRedeemFailed := "redeem_failed".

Definition ErrInvalidData := ErrVar "gorm.ErrInvalidData".
Definition ErrLdxpTopupDisabled := ErrVar "ErrLdxpTopupDisabled".
(** [fmt.Errorf] of [ErrLdxpInvalidSessionRequest]. *)
Definition invalid_request (what : string) : error := ErrWrap "invalid ldxp session request" (ErrNew what).

Record LdxpProductConfig := mkProduct { lp_Money : Z; lp_ProductURL : string; lp_ProductName : string }.
Record LdxpConfig := mkLdxpConfig {
  lc_Enabled : bool;
  lc_Products : gmap Z LdxpProductConfig;
  lc_SessionTTLSeconds : Z;
}.

(** What the worker reports: the order and its code to pay by, and the paid order. *)
Record LdxpWorkerQrPayload := mkQr {
  qp_WorkerID : string;
  qp_WorkerOrderNo : string;
  qp_WorkerAmount : float64;
  qp_QRCode : string;
  qp_QRPageURL : string;
}.
Record LdxpWorkerResultPayload := mkWorkerResult {
  wr_WorkerID : string;
  wr_WorkerOrderNo : string;
  wr_WorkerAmount : float64;
  wr_WorkerCardKey : string;
  wr_WorkerStatusText : string;
}.

(** *** The table of sessions *)

Definition session_of (sessionId : string) (db : DB) : option LdxpTopupSession :=
  first (λ s, ls_SessionId s = sessionId) (ldxp_topup_sessions db).

(** [Updates] where a condition holds, with the number of rows affected. *)
Definition update_sessions (P : LdxpTopupSession → Prop) `{∀ s, Decision (P s)} (f : LdxpTopupSession → LdxpTopupSession) : Tx Z :=
  db ← get;
  _ ← modify (λ d, d <| ldxp_topup_sessions ::= update_where P f |>);
  mret (affected P (ldxp_topup_sessions db)).

(** [Create]: [session_id] is unique; [purpose] has a default. *)
Definition create_session (s : LdxpTopupSession) : Tx LdxpTopupSession :=
  db ← get;
  _ ← fail_if (session_of (ls_SessionId s) db ≠ None) ErrDatabase;
  let row := s <| ls_Purpose ::= λ p, if decide (p = "") then LdxpPurposeTopup else p |> in
  _ ← modify (λ d, d <| ldxp_topup_sessions ::= insert_row row |>);
  mret (inserted row (ldxp_topup_sessions db)).

Definition by_created_time (a b : LdxpTopupSession) : Prop :=
  ls_CreatedTime a < ls_CreatedTime b ∨ ls_CreatedTime a = ls_CreatedTime b ∧ ls_Id a ≤ ls_Id b.
Global Instance by_created_time_dec : RelDecision by_created_time.
Proof. intros a b. unfold by_created_time. solve_decision. Defined.

Definition by_watch (a b : LdxpTopupSession) : Prop :=
  ls_PaidWatchClaimedTime a < ls_PaidWatchClaimedTime b ∨
  ls_PaidWatchClaimedTime a = ls_PaidWatchClaimedTime b ∧
  (ls_UpdatedTime a < ls_UpdatedTime b ∨ ls_UpdatedTime a = ls_UpdatedTime b ∧ ls_Id a ≤ ls_Id b).
Global Instance by_watch_dec : RelDecision by_watch.
Proof. intros a b. unfold by_watch. solve_decision. Defined.

Definition by_update_desc (a b : LdxpTopupSession) : Prop :=
  ls_UpdatedTime b < ls_UpdatedTime a ∨ ls_UpdatedTime a = ls_UpdatedTime b ∧ ls_Id b ≤ ls_Id a.
Global Instance by_update_desc_dec : RelDecision by_update_desc.
Proof. intros a b. unfold by_update_desc. solve_decision. Defined.

(** The statuses before a payment is reported. *)
Definition isLdxpCancelableStatus (status : string) : Prop :=
  status = LdxpStatusCreated ∨ status = LdxpStatusWorkerClaimed ∨ status = LdxpStatusQrReady.
Global Instance isLdxpCancelableStatus_dec status : Decision (isLdxpCancelableStatus status).
Proof. unfold isLdxpCancelableStatus. solve_decision. Defined.

Definition activeLdxpSessionStatuses : list string :=
  [LdxpStatusCreated; LdxpStatusWorkerClaimed; LdxpStatusQrReady; LdxpStatusWorkerPaid; LdxpStatusVerified; LdxpStatusRedeemed].

(** *** Claims of the workers *)

Definition MarkExpiredLdxpTopupSessions (now : Z) : Tx Z :=
  update_sessions (λ s, isLdxpCancelableStatus (ls_Status s) ∧ ls_ExpiredTime s ≤ now)
    (λ s, s <| ls_Status := LdxpStatusExpired |> <| ls_UpdatedTime := now |>).

Definition claimSelectedLdxpTopupSession (candidate : LdxpTopupSession) (workerId : string) (now : Z) : Tx LdxpTopupSession :=
  rowsAffected ← update_sessions
    (λ s, ls_Id s = ls_Id candidate ∧ ls_Status s = LdxpStatusCreated ∧ ls_ExpiredTime s > now)
    (λ s, s <| ls_Status := LdxpStatusWorkerClaimed |> <| ls_WorkerId := workerId |> <| ls_UpdatedTime := now |>);
  _ ← fail_if (rowsAffected ≠ 1) ErrRecordNotFound;
  db ← get;
  or_error (by_id (ls_Id candidate) (ldxp_topup_sessions db)) ErrRecordNotFound.

(** The loop of [ClaimNextLdxpTopupSession]. *)
Fixpoint claim_loop (tries : nat) (workerId : string) (now : Z) : Tx LdxpTopupSession :=
  match tries with
  | O => throw ErrRecordNotFound
  | S tries =>
    db ← get;
    candidate ← or_error (head (order_by by_created_time
      (where_ (λ s, ls_Status s = LdxpStatusCreated ∧ ls_ExpiredTime s > now) (ldxp_topup_sessions db)))) ErrRecordNotFound;
    r ← attempt (claimSelectedLdxpTopupSession candidate workerId now);
    match r with
    | Ok updated => mret updated
    | Err e => if error_is e ErrRecordNotFound then claim_loop tries workerId now else throw e
    end
  end.

Definition ClaimNextLdxpTopupSession (workerId : string) (now : Z) : Tx LdxpTopupSession :=
  transaction (claim_loop 3 workerId now).

Definition ClaimNextLdxpPaidWatchSession (workerId : string) (now : Z) : Tx LdxpTopupSession :=
  let workerId := TrimSpace workerId in
  _ ← fail_if (workerId = "") ErrInvalidData;
  transaction (
    db ← get;
    candidate ← or_error (head (order_by by_watch
      (where_ (λ s, ls_Status s = LdxpStatusQrReady ∧ ls_WorkerId s = workerId ∧ ls_ExpiredTime s > now ∧
                    ls_WorkerOrderNo s ≠ "" ∧ ls_QrPageUrl s ≠ "") (ldxp_topup_sessions db)))) ErrRecordNotFound;
    rowsAffected ← update_sessions
      (λ s, ls_Id s = ls_Id candidate ∧ ls_Status s = LdxpStatusQrReady ∧ ls_WorkerId s = workerId ∧ ls_ExpiredTime s > now)
      (λ s, s <| ls_PaidWatchWorkerId := workerId |> <| ls_PaidWatchClaimedTime := now |>);
    _ ← fail_if (rowsAffected ≠ 1) ErrRecordNotFound;
    db ← get;
    or_error (by_id (ls_Id candidate) (ldxp_topup_sessions db)) ErrRecordNotFound).

Definition ClaimLdxpTopupSession (env : Env) (workerID : string) (cfg : LdxpConfig) : Tx LdxpTopupSession :=
  let workerID := TrimSpace workerID in
  _ ← fail_if (workerID = "") (invalid_request "missing worker");
  _ ← fail_if (lc_Enabled cfg = false) ErrLdxpTopupDisabled;
  _ ← MarkExpiredLdxpTopupSessions (app_now env);
  ClaimNextLdxpTopupSession workerID (app_now env).

Definition ClaimLdxpPaidWatchSession (env : Env) (workerID : string) (cfg : LdxpConfig) : Tx LdxpTopupSession :=
  let workerID := TrimSpace workerID in
  _ ← fail_if (workerID = "") (invalid_request "missing worker");
  _ ← fail_if (lc_Enabled cfg = false) ErrLdxpTopupDisabled;
  _ ← MarkExpiredLdxpTopupSessions (app_now env);
  ClaimNextLdxpPaidWatchSession workerID (app_now env).

(** *** Opening and cancelling a session *)

(** The row of the user is locked. *)
Definition lockLdxpUserRowIfPossible (userID : Z) : Tx () :=
  db ← get;
  match by_id userID (users db) with
  | None => throw (invalid_request "user not found")
  | Some _ => mret tt
  end.

Definition findActiveLdxpTopupSessionForUserTx (userID now : Z) (db : DB) : option LdxpTopupSession :=
  head (order_by by_created_time
    (where_ (λ s, ls_UserId s = userID ∧ ls_Status s ∈ activeLdxpSessionStatuses ∧ ls_ExpiredTime s > now ∧
                  (ls_Purpose s = LdxpPurposeTopup ∨ ls_Purpose s = "")) (ldxp_topup_sessions db))).

Definition findActiveLdxpValuePackageSessionForUserTx (userID now : Z) (db : DB) : option LdxpTopupSession :=
  head (order_by by_created_time
    (where_ (λ s, ls_UserId s = userID ∧ ls_Status s ∈ activeLdxpSessionStatuses ∧ ls_ExpiredTime s > now ∧
                  ls_Purpose s = LdxpPurposeValuePackage) (ldxp_topup_sessions db))).

(** A session as it is opened. *)
Definition opened_session (sessionID : string) (userID amount money : Z) (url name purpose : string)
    (orderId planId : Z) (confirmedCover : bool) (now expires : Z) : LdxpTopupSession :=
  mkSession 0 sessionID userID amount money url name purpose orderId planId confirmedCover LdxpStatusCreated
    "" "" "" "" float_zero "" "" "" "" float_zero "" 0 0 0 0 "" "" now now expires "" 0.

Definition CreateLdxpTopupSession (env : Env) (sessionID : string) (userID amount : Z) (cfg : LdxpConfig) : Tx LdxpTopupSession :=
  _ ← fail_if (lc_Enabled cfg = false) ErrLdxpTopupDisabled;
  _ ← fail_if (userID ≤ 0) (invalid_request "invalid user");
  product ← or_error (lc_Products cfg !! amount) (ErrWrap "unsupported ldxp topup amount" (ErrNew (pretty amount)));
  let now := app_now env in
  transaction (
    _ ← lockLdxpUserRowIfPossible userID;
    db ← get;
    match findActiveLdxpTopupSessionForUserTx userID now db with
    | Some activeSession => mret activeSession
    | None =>
      create_session (opened_session sessionID userID amount (lp_Money product) (lp_ProductURL product) (lp_ProductName product)
        "" 0 0 false now (now +! lc_SessionTTLSeconds cfg))
    end).

Definition isLdxpValuePackageSessionRequestMatch (session : LdxpTopupSession) (order : SubscriptionOrder)
    (plan : SubscriptionPlan) (confirmedCover : bool) : Prop :=
  ls_Purpose session = LdxpPurposeValuePackage ∧ ls_SubscriptionOrderId session > 0 ∧
  so_Id order = ls_SubscriptionOrderId session ∧ so_UserId order = ls_UserId session ∧ so_UserId order > 0 ∧
  so_PlanId order = ls_SubscriptionPlanId session ∧ ls_SubscriptionPlanId session = sp_Id plan ∧
  so_PlanId order = sp_Id plan ∧ ls_ConfirmedCover session = confirmedCover ∧
  so_Status order = TopUpStatusPending ∧ so_Money order = sp_LdxpProductAmount plan ∧
  ls_Money session = sp_LdxpProductAmount plan ∧ so_PaymentProvider order = PaymentProviderLDXP ∧
  so_PaymentMethod order = PaymentMethodLDXP ∧ TrimSpace (so_TradeNo order) ≠ "" ∧
  TrimSpace (ls_ProductUrl session) = TrimSpace (sp_LdxpProductUrl plan) ∧
  TrimSpace (ls_ProductName session) = TrimSpace (sp_LdxpProductName plan).
Global Instance isLdxpValuePackageSessionRequestMatch_dec session order plan confirmedCover :
  Decision (isLdxpValuePackageSessionRequestMatch session order plan confirmedCover).
Proof. unfold isLdxpValuePackageSessionRequestMatch. solve_decision. Defined.

(** [tradeNo] is the number drawn for a new order. *)
Definition CreateLdxpValuePackageSession (env : Env) (sessionID tradeNo : string) (userID planID : Z)
    (confirmedCover : bool) (cfg : LdxpConfig) : Tx (LdxpTopupSession * SubscriptionOrder) :=
  _ ← fail_if (lc_Enabled cfg = false) ErrLdxpTopupDisabled;
  _ ← fail_if (userID ≤ 0 ∨ planID ≤ 0) (invalid_request "invalid value package request");
  plan ← getSubscriptionPlanByIdTx planID;
  _ ← fail_if (IsValuePackage plan = false) (invalid_request "not value package");
  _ ← fail_if (TrimSpace (sp_LdxpProductUrl plan) = "" ∨ TrimSpace (sp_LdxpProductName plan) = "" ∨
               sp_LdxpProductAmount plan ≤ 0) (invalid_request "ldxp product incomplete");
  let sessionTTLSeconds := if decide (sp_LdxpSessionTTLSeconds plan ≤ 0) then lc_SessionTTLSeconds cfg
                           else sp_LdxpSessionTTLSeconds plan in
  _ ← CheckValuePackagePurchaseIntent env userID planID confirmedCover;
  let now := app_now env in
  transaction (
    _ ← lockLdxpUserRowIfPossible userID;
    _ ← CheckValuePackagePurchaseIntentTx env userID plan confirmedCover;
    db ← get;
    match findActiveLdxpValuePackageSessionForUserTx userID now db with
    | Some activeSession =>
      let mismatch := invalid_request "active value package session mismatch" in
      _ ← fail_if (ls_SubscriptionOrderId activeSession ≤ 0) mismatch;
      existingOrder ← or_error (by_id (ls_SubscriptionOrderId activeSession) (subscription_orders db)) mismatch;
      _ ← fail_if (¬ isLdxpValuePackageSessionRequestMatch activeSession existingOrder plan confirmedCover) mismatch;
      mret (activeSession, existingOrder)
    | None =>
      let order := mkOrder 0 userID (sp_Id plan) (sp_LdxpProductAmount plan) tradeNo PaymentMethodLDXP PaymentProviderLDXP
        0 (ClampSubscriptionPlanGiftResetCount (sp_GiftResetCount plan)) TopUpStatusPending now 0 "" in
      _ ← create_order order;
      let order := inserted order (subscription_orders db) in
      session ← create_session (opened_session sessionID userID 0 (sp_LdxpProductAmount plan) (sp_LdxpProductUrl plan)
        (sp_LdxpProductName plan) LdxpPurposeValuePackage (so_Id order) (sp_Id plan) confirmedCover now (now +! sessionTTLSeconds));
      mret (session, order)
    end).

Definition CancelLdxpTopupSession (env : Env) (sessionID : string) (userID : Z) : Tx () :=
  db ← get;
  session ← or_error (first (λ s, ls_SessionId s = sessionID ∧ ls_UserId s = userID) (ldxp_topup_sessions db)) ErrRecordNotFound;
  _ ← fail_if (¬ isLdxpCancelableStatus (ls_Status session)) (ErrWrap "ldxp session is not cancelable" (ErrNew (ls_Status session)));
  rowsAffected ← update_sessions
    (λ s, ls_Id s = ls_Id session ∧ ls_UserId s = userID ∧ isLdxpCancelableStatus (ls_Status s))
    (λ s, s <| ls_Status := LdxpStatusCanceled |> <| ls_UpdatedTime := app_now env |>);
  fail_if (rowsAffected ≠ 1) ErrRecordNotFound.

(** *** Reports of the worker *)

Definition validateLdxpStringMax (field value : string) (max : Z) : result () :=
  if decide (max ≤ 0) then Ok tt
  else if decide (Z.of_nat (String.length (TrimSpace value)) > max) then Err (invalid_request (field +:+ " too large"))
  else Ok tt.

Definition isSafeLdxpQRCodeSource (qrCode : string) : bool :=
  negb (bool_decide (qrCode = "")) &&
  (existsb (λ prefix, String.prefix prefix qrCode)
     ["data:image/png;base64,"; "data:image/jpeg;base64,"; "data:image/jpg;base64,"; "data:image/webp;base64,";
      "data:image/gif;base64,"]
   || String.prefix "https://" qrCode).

(** Waiting for the order of a worker. *)
Definition isLdxpSessionAlreadyCanceledByWorker (sessionID workerID : string) (db : DB) : bool :=
  bool_decide (affected (λ s, ls_SessionId s = sessionID ∧ ls_WorkerId s = workerID ∧ ls_Status s = LdxpStatusCanceled)
                 (ldxp_topup_sessions db) > 0).

(** No row was updated: fine for a session that was cancelled meanwhile. *)
Definition unless_canceled (sessionID workerID : string) (rowsAffected : Z) : Tx () :=
  if decide (rowsAffected ≠ 1) then
    db ← get;
    if isLdxpSessionAlreadyCanceledByWorker sessionID workerID db then mret tt else throw ErrRecordNotFound
  else mret tt.

Definition RecordLdxpQr (env : Env) (sessionID : string) (payload : LdxpWorkerQrPayload) : Tx () :=
  let workerID := TrimSpace (qp_WorkerID payload) in
  _ ← fail_if (workerID = "") (invalid_request "missing worker");
  let workerOrderNo := TrimSpace (qp_WorkerOrderNo payload) in
  _ ← fail_if (workerOrderNo = "") (invalid_request "missing worker order no");
  _ ← lift (validateLdxpStringMax "qr_code" (qp_QRCode payload) (512 * 1024));
  let qrCode := TrimSpace (qp_QRCode payload) in
  _ ← fail_if (isSafeLdxpQRCodeSource qrCode = false) (invalid_request "invalid qr code source");
  rowsAffected ← update_sessions
    (λ s, ls_SessionId s = sessionID ∧ ls_WorkerId s = workerID ∧
          (ls_Status s = LdxpStatusWorkerClaimed ∨ ls_Status s = LdxpStatusQrReady) ∧
          (ls_WorkerOrderNo s = workerOrderNo ∨ ls_WorkerOrderNo s = ""))
    (λ s, s <| ls_Status := LdxpStatusQrReady |> <| ls_WorkerAmount := qp_WorkerAmount payload |> <| ls_QrCode := qrCode |>
            <| ls_QrPageUrl := TrimSpace (qp_QRPageURL payload) |> <| ls_WorkerOrderNo := workerOrderNo |>
            <| ls_UpdatedTime := app_now env |>);
  unless_canceled sessionID workerID rowsAffected.

Definition sanitizeLdxpWorkerErrorCode (code : string) : string := String.substring 0 64 (TrimSpace code).

Definition RecordLdxpWorkerError (env : Env) (sessionID workerID code message snapshotPath : string) : Tx () :=
  let workerID := TrimSpace workerID in
  _ ← fail_if (workerID = "") (invalid_request "missing worker");
  _ ← lift (validateLdxpStringMax "error_message" message 2048);
  _ ← lift (validateLdxpStringMax "snapshot_path" snapshotPath 512);
  rowsAffected ← update_sessions
    (λ s, ls_SessionId s = sessionID ∧ ls_WorkerId s = workerID ∧
          (ls_Status s = LdxpStatusWorkerClaimed ∨ ls_Status s = LdxpStatusQrReady))
    (λ s, s <| ls_Status := LdxpStatusWorkerFailed |> <| ls_ErrorCode := sanitizeLdxpWorkerErrorCode code |>
            <| ls_ErrorMessage := "Worker failed, please contact support" |> <| ls_UpdatedTime := app_now env |>);
  unless_canceled sessionID workerID rowsAffected.

(** *** Checking a payment *)

Definition ldxpAmountEpsilon : float64 := float_div (float_of_int 1) (float_of_int 100).
Definition ldxpMaxCardNetworkFeeRatio : float64 := float_div (float_of_int 5) (float_of_int 100).

(** What was paid may exceed the price by the fee of a card network. *)
Definition isLdxpPaidAmountAcceptable (actual expected : float64) : bool :=
  if (actual <=? float_zero)%float || (expected <=? float_zero)%float then false
  else if (SFabs (float_sub actual expected) <=? ldxpAmountEpsilon)%float then true
  else
    let cardNetworkFee := float_sub actual expected in
    let maxCardNetworkFee := float_mul expected ldxpMaxCardNetworkFeeRatio in
    (SFopp ldxpAmountEpsilon <=? cardNetworkFee)%float &&
    (cardNetworkFee <=? float_add maxCardNetworkFee ldxpAmountEpsilon)%float.

(** A refusal: its code and its message. *)
Definition refusal : Type := string * string.

Definition paid_text (text : string) : bool := Contains (TrimSpace text) "已付款" || Contains (TrimSpace text) "成功".

Definition VerifyLdxpWorkerPaidFields (session : LdxpTopupSession) : option refusal :=
  let money := money_float (ls_Money session) in
  if decide (TrimSpace (ls_WorkerOrderNo session) = "") then
    Some ("missing_worker_order", "ldxp worker order number is missing")
  else if (ls_WorkerAmount session <=? float_zero)%float then Some ("amount_mismatch", "ldxp worker amount is missing")
  else if (float_zero <? money)%float && negb (isLdxpPaidAmountAcceptable (ls_WorkerAmount session) money) then
    Some ("amount_mismatch", "session money " +:+ format_2f money +:+ " does not match worker amount " +:+
          format_2f (ls_WorkerAmount session))
  else if negb (paid_text (ls_WorkerStatusText session)) then
    Some ("status_not_paid", "ldxp worker status is not paid or successful")
  else None.

Definition VerifyLdxpSessionFields (session : LdxpTopupSession) (event : option LdxpMailEvent) : option refusal :=
  let money := money_float (ls_Money session) in
  let workerOrderNo := TrimSpace (ls_WorkerOrderNo session) in
  let mailOrderNo := TrimSpace (ls_MailOrderNo session) in
  let workerCardKey := TrimSpace (ls_WorkerCardKey session) in
  let mailCardKey := TrimSpace (ls_MailCardKey session) in
  if decide (workerOrderNo = "") then Some ("missing_worker_order", "ldxp worker order number is missing")
  else match event with
  | None => Some ("mail_event_not_found", "matching ldxp mail event was not found")
  | Some event =>
    let eventOrderNo := TrimSpace (le_OrderNo event) in
    let eventCardKey := TrimSpace (le_CardKey event) in
    if decide (eventOrderNo = "") then Some ("mail_event_not_found", "matching ldxp mail event has no order number")
    else if decide (workerOrderNo ≠ eventOrderNo) then
      Some ("order_mismatch", "worker order " +:+ workerOrderNo +:+ " does not match mail event order " +:+ eventOrderNo)
    else if decide (mailOrderNo ≠ "" ∧ mailOrderNo ≠ workerOrderNo) then
      Some ("mail_order_mismatch", "attached mail order " +:+ mailOrderNo +:+ " does not match worker order " +:+ workerOrderNo)
    else if decide (workerCardKey = "" ∨ eventCardKey = "") then Some ("missing_card", "ldxp card key is missing")
    else if decide (workerCardKey ≠ eventCardKey) then
      Some ("card_mismatch", "worker card key does not match mail event card key")
    else if decide (mailCardKey ≠ "" ∧ mailCardKey ≠ workerCardKey) then
      Some ("card_mismatch", "attached mail card key does not match worker card key")
    else if (float_zero <? money)%float && (float_zero <? le_Amount event)%float &&
            negb (isLdxpPaidAmountAcceptable (le_Amount event) money) then
      Some ("amount_mismatch", "session money " +:+ format_2f money +:+ " does not match mail event amount " +:+
            format_2f (le_Amount event))
    else if (float_zero <? money)%float && (float_zero <? ls_MailAmount session)%float &&
            negb (isLdxpPaidAmountAcceptable (ls_MailAmount session) money) then
      Some ("amount_mismatch", "session money " +:+ format_2f money +:+ " does not match attached mail amount " +:+
            format_2f (ls_MailAmount session))
    else if negb (paid_text (ls_WorkerStatusText session)) then
      Some ("status_not_paid", "ldxp worker status is not paid or successful")
    else None
  end.

Definition hasLdxpMailAttachment (session : LdxpTopupSession) : bool :=
  bool_decide (TrimSpace (ls_MailOrderNo session) ≠ "" ∨ TrimSpace (ls_MailCardKey session) ≠ "" ∨
               TrimSpace (ls_MailMessageId session) ≠ "").

Definition getLdxpVerifySessionForUpdateTx (sessionID : string) : Tx LdxpTopupSession :=
  _ ← fail_if (TrimSpace sessionID = "") ErrInvalidData;
  db ← get;
  or_error (session_of (TrimSpace sessionID) db) ErrRecordNotFound.

(** [LdxpMailEvent{}]. *)
Definition no_event : LdxpMailEvent := mkMail 0 None "" "" float_zero "" 0 "" false 0.

(** [Order("id DESC").First]. *)
Definition newest (P : LdxpMailEvent → Prop) `{∀ e, Decision (P e)} (db : DB) : option LdxpMailEvent :=
  last (where_ P (ldxp_mail_events db)).

(** The event and whether it was found: the last query leaves an empty event. *)
Definition getLdxpVerifyMailEventTx (session : LdxpTopupSession) (preferredEvent : option LdxpMailEvent) (db : DB) :
    option LdxpMailEvent * bool :=
  let workerOrderNo := TrimSpace (ls_WorkerOrderNo session) in
  let workerCardKey := TrimSpace (ls_WorkerCardKey session) in
  let messageID := TrimSpace (ls_MailMessageId session) in
  match preferredEvent with
  | Some preferred =>
    if decide (le_Id preferred > 0) then
      match by_id (le_Id preferred) (ldxp_mail_events db) with Some event => (Some event, true) | None => (None, false) end
    else (Some preferred, true)
  | None =>
    let matched := if decide (TrimSpace (ls_SessionId session) ≠ "") then
      newest (λ e, le_MatchedSessionId e = ls_SessionId session ∧ le_Processed e = true) db else None in
    let attached := if decide (messageID ≠ "") then
      first (λ e, le_MessageId e = Some messageID) (ldxp_mail_events db) else None in
    match matched with
    | Some event => (Some event, true)
    | None =>
      match attached with
      | Some event => (Some event, true)
      | None =>
        if decide (workerOrderNo = "") then (None, false)
        else
          let same_card := if decide (workerCardKey ≠ "") then
            newest (λ e, le_OrderNo e = workerOrderNo ∧ le_CardKey e = workerCardKey) db else None in
          match same_card with
          | Some event => (Some event, true)
          | None =>
            match first (λ e, le_OrderNo e = workerOrderNo) (ldxp_mail_events db) with
            | Some event => (Some event, true)
            | None => (Some no_event, false)
            end
          end
      end
    end
  end.

(** Another session that succeeded with the same number. *)
Definition rejectDuplicateSuccessfulLdxpValueTx (currentID : Z) (code what : string) (columns : LdxpTopupSession → list string)
    (value : string) (db : DB) : option refusal :=
  let value := TrimSpace value in
  if decide (value = "") then None
  else
    (λ duplicate, (code, "ldxp " +:+ what +:+ " is already used by successful session " +:+ ls_SessionId duplicate)) <$>
    first (λ s, ls_Id s ≠ currentID ∧ ls_Status s = LdxpStatusSuccess ∧ value ∈ columns s) (ldxp_topup_sessions db).

Fixpoint first_refusal (l : list (option refusal)) : option refusal :=
  match l with
  | [] => None
  | Some r :: _ => Some r
  | None :: l => first_refusal l
  end.

Definition rejectDuplicateSuccessfulLdxpSessionTx (session : LdxpTopupSession) (event : option LdxpMailEvent) (db : DB) : option refusal :=
  let orderValues := [ls_WorkerOrderNo session; ls_MailOrderNo session] ++ from_option (λ e, [le_OrderNo e]) [] event in
  let cardValues := [ls_WorkerCardKey session; ls_MailCardKey session] ++ from_option (λ e, [le_CardKey e]) [] event in
  first_refusal
    (((λ value, rejectDuplicateSuccessfulLdxpValueTx (ls_Id session) "duplicate_order" "order number"
        (λ s, [ls_WorkerOrderNo s; ls_MailOrderNo s]) (TrimSpace value) db) <$> orderValues) ++
     ((λ value, rejectDuplicateSuccessfulLdxpValueTx (ls_Id session) "duplicate_card" "card key"
        (λ s, [ls_WorkerCardKey s; ls_MailCardKey s]) (TrimSpace value) db) <$> cardValues)).

(** *** What a check writes *)

(** The columns that a mail fills in, those of [session] that are empty. *)
Definition ldxpMailFieldsFromEvent (session : LdxpTopupSession) (event : option LdxpMailEvent) (row : LdxpTopupSession) : LdxpTopupSession :=
  match event with
  | None => row
  | Some event =>
    let row := if decide (TrimSpace (ls_MailOrderNo session) = "") then row <| ls_MailOrderNo := TrimSpace (le_OrderNo event) |> else row in
    let row := if (ls_MailAmount session <=? float_zero)%float && (float_zero <? le_Amount event)%float
               then row <| ls_MailAmount := le_Amount event |> else row in
    let row := if decide (TrimSpace (ls_MailCardKey session) = "") then row <| ls_MailCardKey := TrimSpace (le_CardKey event) |> else row in
    match le_MessageId event with
    | Some messageId => if decide (TrimSpace (ls_MailMessageId session) = "") then row <| ls_MailMessageId := TrimSpace messageId |> else row
    | None => row
    end
  end.

(** [Updates] of the row of a session, and of the caller's copy. *)
Definition persist (session : LdxpTopupSession) (f : LdxpTopupSession → LdxpTopupSession) : Tx LdxpTopupSession :=
  _ ← update_sessions (λ s, ls_Id s = ls_Id session) f;
  mret (f session).

Definition or_now (env : Env) (time : Z) : Z := if decide (time = 0) then app_now env else time.

Definition persistLdxpVerifiedTx (env : Env) (session : LdxpTopupSession) (event : option LdxpMailEvent) : Tx LdxpTopupSession :=
  persist session (λ s, (ldxpMailFieldsFromEvent session event s) <| ls_Status := LdxpStatusVerified |>
    <| ls_VerifiedTime := or_now env (ls_VerifiedTime session) |> <| ls_ErrorCode := "" |> <| ls_ErrorMessage := "" |>
    <| ls_UpdatedTime := app_now env |>).

Definition persistLdxpRedeemSuccessTx (env : Env) (session : LdxpTopupSession) : Tx LdxpTopupSession :=
  persist session (λ s, s <| ls_Status := LdxpStatusSuccess |> <| ls_VerifiedTime := or_now env (ls_VerifiedTime session) |>
    <| ls_RedeemedTime := or_now env (ls_RedeemedTime session) |> <| ls_RedemptionId := ls_RedemptionId session |>
    <| ls_TopupId := ls_TopupId session |> <| ls_ErrorCode := "" |> <| ls_ErrorMessage := "" |>
    <| ls_UpdatedTime := app_now env |>).

Definition persistLdxpVerifyFailureTx (env : Env) (session : LdxpTopupSession) (event : option LdxpMailEvent) (r : refusal) :
    Tx LdxpTopupSession :=
  persist session (λ s, (ldxpMailFieldsFromEvent session event s) <| ls_Status := LdxpStatusVerifyFailed |>
    <| ls_ErrorCode := TrimSpace r.1 |> <| ls_ErrorMessage := TrimSpace r.2 |> <| ls_UpdatedTime := app_now env |>).

Definition persistLdxpRedeemFailureTx (env : Env) (session : LdxpTopupSession) (message : string) : Tx LdxpTopupSession :=
  persist session (λ s, s <| ls_Status := LdxpStatusRedeemFailed |> <| ls_VerifiedTime := or_now env (ls_VerifiedTime session) |>
    <| ls_ErrorCode := "redeem_failed" |> <| ls_ErrorMessage := TrimSpace message |> <| ls_UpdatedTime := app_now env |>).

Definition isLdxpSessionAlreadyRedeemed (session : LdxpTopupSession) : bool :=
  bool_decide (ls_Status session = LdxpStatusSuccess ∨
    (ls_Status session = LdxpStatusVerified ∨ ls_Status session = LdxpStatusRedeemed) ∧
    (ls_RedemptionId session > 0 ∨ ls_TopupId session > 0)).

Record LdxpVerifyResult := mkVerifyResult {
  lv_Verified : bool;
  lv_Redeemed : bool;
  lv_Status : string;
  lv_ErrorCode : string;
  lv_ErrorMessage : string;
}.

Definition verify_success : LdxpVerifyResult := mkVerifyResult true true LdxpStatusSuccess "" "".
Definition redeem_failure (message : string) : LdxpVerifyResult :=
  mkVerifyResult true false LdxpStatusRedeemFailed "redeem_failed" message.

(** *** Delivery *)

Definition ldxpDirectTopUpTradeNo (workerOrderNo : string) : string :=
  let workerOrderNo := TrimSpace workerOrderNo in
  if decide (workerOrderNo = "") then "" else "ldxp:" +:+ workerOrderNo.

Section Shop.
Context {D : Decimals}.

(** The wallet is credited without a code; the session notes the top-up. *)
Definition directTopUpLdxpSessionTx (env : Env) (uuid : string) (session : LdxpTopupSession) : Tx LdxpTopupSession :=
  let tradeNo := ldxpDirectTopUpTradeNo (ls_WorkerOrderNo session) in
  _ ← fail_if (tradeNo = "") (ErrNew "ldxp worker order number is missing");
  let now := app_now env in
  let topUp := mkTopUp 0 (ls_UserId session) (ls_Amount session) (ls_Money session) tradeNo PaymentMethodLDXP
    PaymentProviderLDXP now now TopUpStatusSuccess in
  let quotaToAdd := amount_quota env topUp in
  _ ← fail_if (quotaToAdd ≤ 0) (ErrNew "ldxp topup amount is invalid");
  db ← get;
  match topup_by_trade_no tradeNo db with
  | Some existing =>
    _ ← fail_if (tu_UserId existing ≠ ls_UserId session ∨ tu_Status existing ≠ TopUpStatusSuccess)
          (ErrNew "ldxp order number is already used by another topup");
    _ ← MaybeCreateAffiliateCommissionForTopUpTx env uuid existing;
    _ ← MaybeUpgradeUserToVIPTx (ls_UserId session);
    mret (session <| ls_TopupId := tu_Id existing |>)
  | None =>
    topUp ← create_topup topUp;
    _ ← update_user (ls_UserId session) (λ u, u <| u_Quota ::= λ q, q + quotaToAdd |>);
    _ ← AddUserValidTopupCentsTx (ls_UserId session) (AmountToValidTopupCents (ls_Amount session));
    _ ← MaybeCreateAffiliateCommissionForTopUpTx env uuid topUp;
    _ ← MaybeUpgradeUserToVIPTx (ls_UserId session);
    mret (session <| ls_TopupId := tu_Id topUp |>)
  end.

Definition isLdxpLinkedValuePackageOrderMatch (session : LdxpTopupSession) (order : SubscriptionOrder) : Prop :=
  ls_Purpose session = LdxpPurposeValuePackage ∧ ls_SubscriptionOrderId session > 0 ∧
  so_Id order = ls_SubscriptionOrderId session ∧ so_UserId order = ls_UserId session ∧
  so_PlanId order = ls_SubscriptionPlanId session ∧ so_Money order = ls_Money session ∧
  so_PaymentProvider order = PaymentProviderLDXP ∧ so_PaymentMethod order = PaymentMethodLDXP ∧
  TrimSpace (so_TradeNo order) ≠ "".
#[export] Instance isLdxpLinkedValuePackageOrderMatch_dec session order :
  Decision (isLdxpLinkedValuePackageOrderMatch session order).
Proof. unfold isLdxpLinkedValuePackageOrderMatch. solve_decision. Defined.

Definition errLdxpLinkedValuePackageOrderMismatch := ErrVar "errLdxpLinkedValuePackageOrderMismatch".

Definition ldxpLinkedValuePackageOrder (session : LdxpTopupSession) : Tx SubscriptionOrder :=
  _ ← fail_if (ls_Purpose session ≠ LdxpPurposeValuePackage ∨ ls_SubscriptionOrderId session ≤ 0) ErrRecordNotFound;
  db ← get;
  order ← or_error (by_id (ls_SubscriptionOrderId session) (subscription_orders db)) ErrRecordNotFound;
  _ ← fail_if (¬ isLdxpLinkedValuePackageOrderMatch session order) errLdxpLinkedValuePackageOrderMismatch;
  mret order.

Definition isLdxpValuePackageSettlementBusinessError (e : error) : bool :=
  error_is e (ErrVar "ErrSubscriptionOrderNotFound") || error_is e (ErrVar "ErrPaymentMethodMismatch") ||
  error_is e (ErrVar "ErrSubscriptionOrderStatusInvalid") ||
  error_is e (ErrWrap "ErrCompletedSubscriptionNotFound" ErrRecordNotFound) ||
  existsb (Contains (TrimSpace (error_text e)))
    ["tradeNo is empty"; "order plan is not value package"; "购买高级套餐需要确认覆盖当前低级套餐";
     "当前已有更高等级套餐未过期，暂不能购买低等级套餐"; "completed order missing user subscription id"].

Definition ldxpRecoveredRedemptionHasCurrentSessionTopUpTx (redemption : Redemption) (session : LdxpTopupSession) (db : DB) : bool :=
  bool_decide (ls_VerifiedTime session > 0 ∧ rd_Kind redemption = RedemptionKindPaidTopUp ∧ rd_CountAsTopUp redemption = true ∧
    rd_Source redemption = RedemptionSourceLDXP ∧ rd_RedeemedTime redemption >= ls_VerifiedTime session ∧
    affected (λ t, tu_UserId t = ls_UserId session ∧
      tu_TradeNo t = CreateRedemptionTopUpTradeNo (rd_Id redemption) (ls_UserId session) ∧ tu_Status t = TopUpStatusSuccess ∧
      tu_CreateTime t >= ls_VerifiedTime session ∧ tu_CompleteTime t >= ls_VerifiedTime session) (top_ups db) > 0).

(** The session, when its code was used by its user while it was being verified. *)
Definition recoverLdxpSameUserUsedRedemptionTx (session : LdxpTopupSession) (db : DB) : option LdxpTopupSession :=
  let key := TrimSpace (ls_WorkerCardKey session) in
  if decide (key = "") then None
  else
    match code_by_key key db with
    | None => None
    | Some redemption =>
      if decide (rd_Status redemption ≠ RedemptionCodeStatusUsed ∨ rd_UsedUserId redemption ≠ ls_UserId session) then None
      else if ldxpRecoveredRedemptionHasCurrentSessionTopUpTx redemption session db then
        Some (session <| ls_RedemptionId := rd_Id redemption |>
                <| ls_RedeemedTime ::= λ t, if decide (rd_RedeemedTime redemption > 0) then rd_RedeemedTime redemption else t |>)
      else None
    end.

Definition RedeemLdxpSessionCardTx (env : Env) (uuid : string) (session : LdxpTopupSession) : Tx LdxpTopupSession :=
  r ← RedeemWithTx env uuid (TrimSpace (ls_WorkerCardKey session)) (ls_UserId session);
  mret (session <| ls_RedemptionId := rm_Id (re_Redemption r) |> <| ls_TopupId := 0 |>).

Definition settleLdxpValuePackageSession (env : Env) (uuid : string) (session : LdxpTopupSession) : Tx LdxpVerifyResult :=
  linked ← transaction (
    r ← attempt (ldxpLinkedValuePackageOrder session);
    let failed message := (_ ← persistLdxpRedeemFailureTx env session message; mret (Err (ErrNew message))) in
    match r with
    | Ok order => mret (Ok order)
    | Err e =>
      if error_is e ErrRecordNotFound then failed "linked value package order missing"
      else if error_is e errLdxpLinkedValuePackageOrderMismatch then failed "linked value package order mismatch"
      else throw e
    end);
  match linked with
  | Err e => mret (redeem_failure (error_text e))
  | Ok order =>
    r ← attempt (CompleteValuePackageOrder env uuid (so_TradeNo order) "ldxp session verified" PaymentProviderLDXP
                   PaymentMethodLDXP (ls_ConfirmedCover session));
    match r with
    | Err e =>
      if isLdxpValuePackageSettlementBusinessError e then
        _ ← persistLdxpRedeemFailureTx env session (TrimSpace (error_text e));
        mret (redeem_failure (TrimSpace (error_text e)))
      else throw e
    | Ok _ =>
      _ ← persistLdxpRedeemSuccessTx env session;
      mret verify_success
    end
  end.

(** The result, or the session whose package is to be settled next. *)
Abbreviation verified := (LdxpVerifyResult + LdxpTopupSession)%type.

Definition refuse (env : Env) (session : LdxpTopupSession) (event : option LdxpMailEvent) (r : refusal) : Tx verified :=
  _ ← persistLdxpVerifyFailureTx env session event r;
  mret (inl (mkVerifyResult false false LdxpStatusVerifyFailed r.1 r.2)).

(** Delivery by a direct top-up. *)
Definition deliver_topup (env : Env) (uuid : string) (session : LdxpTopupSession) : Tx verified :=
  r ← attempt (directTopUpLdxpSessionTx env uuid session);
  match r with
  | Ok session =>
    _ ← persistLdxpRedeemSuccessTx env session;
    mret (inl verify_success)
  | Err e =>
    _ ← persistLdxpRedeemFailureTx env session (TrimSpace (error_text e));
    mret (inl (redeem_failure (TrimSpace (error_text e))))
  end.

(** Delivery by the code of the order; the savepoint is rolled back on an error. *)
Definition deliver_code (env : Env) (uuid : string) (session : LdxpTopupSession) : Tx verified :=
  r ← attempt (transaction (RedeemLdxpSessionCardTx env uuid session));
  match r with
  | Ok session =>
    _ ← persistLdxpRedeemSuccessTx env session;
    mret (inl verify_success)
  | Err e =>
    let session := session <| ls_RedemptionId := 0 |> <| ls_TopupId := 0 |> in
    db ← get;
    match (if error_is e ErrRedemptionUsed then recoverLdxpSameUserUsedRedemptionTx session db else None) with
    | Some session =>
      _ ← persistLdxpRedeemSuccessTx env session;
      mret (inl verify_success)
    | None =>
      _ ← persistLdxpRedeemFailureTx env session (TrimSpace (error_text e));
      mret (inl (redeem_failure (TrimSpace (error_text e))))
    end
  end.

(** [requireMail] is [LDXP_REQUIRE_MAIL_MATCH]. *)
Definition verify_session (env : Env) (requireMail : bool) (uuid : string) (session : LdxpTopupSession)
    (preferredEvent : option LdxpMailEvent) : Tx verified :=
  db ← get;
  let '(event, found) := if requireMail then getLdxpVerifyMailEventTx session preferredEvent db else (None, true) in
  if negb found && negb (hasLdxpMailAttachment session) then
    mret (inl (mkVerifyResult false false (ls_Status session) "pending" "waiting for matching ldxp mail event"))
  else
    match (if requireMail then VerifyLdxpSessionFields session event else VerifyLdxpWorkerPaidFields session) with
    | Some r => refuse env session event r
    | None =>
      match rejectDuplicateSuccessfulLdxpSessionTx session event db with
      | Some r => refuse env session event r
      | None =>
        session ← persistLdxpVerifiedTx env session event;
        if decide (ls_Purpose session = LdxpPurposeValuePackage) then mret (inr session)
        else if requireMail then deliver_code env uuid session
        else deliver_topup env uuid session
      end
    end.

Definition tryVerifyAndRedeemLdxpSession (env : Env) (requireMail : bool) (uuid sessionID : string)
    (preferredEvent : option LdxpMailEvent) : Tx LdxpVerifyResult :=
  let sessionID := TrimSpace sessionID in
  _ ← fail_if (sessionID = "") ErrInvalidData;
  r ← transaction (
    session ← getLdxpVerifySessionForUpdateTx sessionID;
    if isLdxpSessionAlreadyRedeemed session then mret (inl verify_success)
    else verify_session env requireMail uuid session preferredEvent);
  match r with
  | inl res => mret res
  | inr session => settleLdxpValuePackageSession env uuid session
  end.

Definition TryVerifyAndRedeemLdxpSession (env : Env) (requireMail : bool) (uuid sessionID : string) : Tx LdxpVerifyResult :=
  tryVerifyAndRedeemLdxpSession env requireMail uuid sessionID None.

Definition RecordLdxpWorkerResult (env : Env) (requireMail : bool) (uuid sessionID : string) (payload : LdxpWorkerResultPayload) :
    Tx LdxpTopupSession :=
  let workerID := TrimSpace (wr_WorkerID payload) in
  _ ← fail_if (workerID = "") (invalid_request "missing worker");
  let workerOrderNo := TrimSpace (wr_WorkerOrderNo payload) in
  _ ← fail_if (workerOrderNo = "") (invalid_request "missing worker order no");
  _ ← lift (validateLdxpStringMax "worker_card_key" (wr_WorkerCardKey payload) 255);
  rowsAffected ← update_sessions
    (λ s, ls_SessionId s = sessionID ∧ ls_WorkerId s = workerID ∧ ls_Status s = LdxpStatusQrReady ∧
          ls_WorkerOrderNo s = workerOrderNo)
    (λ s, s <| ls_Status := LdxpStatusWorkerPaid |> <| ls_WorkerAmount := wr_WorkerAmount payload |>
            <| ls_WorkerCardKey := TrimSpace (wr_WorkerCardKey payload) |>
            <| ls_WorkerStatusText := TrimSpace (wr_WorkerStatusText payload) |>
            <| ls_WorkerOrderNo := workerOrderNo |> <| ls_UpdatedTime := app_now env |>);
  _ ← fail_if (rowsAffected ≠ 1) ErrRecordNotFound;
  _ ← TryVerifyAndRedeemLdxpSession env requireMail uuid sessionID;
  db ← get;
  or_error (session_of sessionID db) ErrRecordNotFound.

(** *** Mails *)

(** [Create]: the hash is unique, and so is the message, if there is one. *)
Definition InsertLdxpMailEvent (event : LdxpMailEvent) : Tx LdxpMailEvent :=
  _ ← fail_if (TrimSpace (le_RawHash event) = "") ErrInvalidData;
  let event := event <| le_MessageId ::= λ m, match m with
    | Some messageId => if decide (TrimSpace messageId = "") then None else Some (TrimSpace messageId)
    | None => None end |> in
  db ← get;
  _ ← fail_if (where_ (λ e, le_RawHash e = le_RawHash event ∨ le_MessageId event ≠ None ∧ le_MessageId e = le_MessageId event)
                 (ldxp_mail_events db) ≠ []) ErrDatabase;
  _ ← modify (λ d, d <| ldxp_mail_events ::= insert_row event |>);
  mret (inserted event (ldxp_mail_events db)).

(** A mail as it was read; it is stored once. *)
Record LdxpParsedMail := mkParsedMail {
  pm_MessageID : string;
  pm_RawHash : string;
  pm_Subject : string;
  pm_OrderNo : string;
  pm_Amount : float64;
  pm_CardKey : string;
  pm_PaidTime : Z;
  pm_BodyExcerpt : string;
}.

Definition validateLdxpParsedMailLengths (parsed : LdxpParsedMail) : Tx () :=
  _ ← lift (validateLdxpStringMax "mail subject" (pm_Subject parsed) 512);
  _ ← lift (validateLdxpStringMax "mail body excerpt" (pm_BodyExcerpt parsed) 4096);
  lift (validateLdxpStringMax "mail card key" (pm_CardKey parsed) 255).

Definition SaveLdxpMailEvent (env : Env) (parsed : LdxpParsedMail) : Tx LdxpMailEvent :=
  let rawHash := TrimSpace (pm_RawHash parsed) in
  _ ← fail_if (rawHash = "") ErrInvalidData;
  _ ← validateLdxpParsedMailLengths parsed;
  db ← get;
  let messageID := TrimSpace (pm_MessageID parsed) in
  let existing := match first (λ e, le_RawHash e = rawHash) (ldxp_mail_events db) with
    | Some event => Some event
    | None => if decide (messageID ≠ "") then first (λ e, le_MessageId e = Some messageID) (ldxp_mail_events db) else None
    end in
  match existing with
  | Some event => mret event
  | None =>
    InsertLdxpMailEvent (mkMail 0 (if decide (messageID ≠ "") then Some messageID else None) rawHash
      (TrimSpace (pm_OrderNo parsed)) (pm_Amount parsed) (TrimSpace (pm_CardKey parsed)) (pm_PaidTime parsed) "" false (app_now env))
  end.

Definition ldxpAmountCents (amount : float64) : Z := int_of_float (math_Round (float_mul amount (float_of_int 100))).

(** The transaction of [TryMatchLdxpMailEvent]: the mail is attached to the session. *)
Definition match_mail (env : Env) (event : LdxpMailEvent) (orderNo : string) : Tx LdxpTopupSession :=
  db ← get;
  session ← or_error (head (order_by by_update_desc
    (where_ (λ s, ls_WorkerOrderNo s = orderNo ∧ (ls_Status s = LdxpStatusWorkerPaid ∨ ls_Status s = LdxpStatusVerifyFailed))
       (ldxp_topup_sessions db)))) ErrRecordNotFound;
  if hasLdxpMailAttachment session then
    persistedEvent ← or_error (by_id (le_Id event) (ldxp_mail_events db)) ErrRecordNotFound;
    if decide (le_Processed persistedEvent = true ∧ TrimSpace (le_MatchedSessionId persistedEvent) = ls_SessionId session)
    then mret session
    else throw (invalid_request "ldxp mail already attached")
  else
    let workerCard := TrimSpace (ls_WorkerCardKey session) in
    let eventCard := TrimSpace (le_CardKey event) in
    _ ← fail_if (eventCard = "") (invalid_request "missing ldxp mail card");
    _ ← fail_if (workerCard ≠ "" ∧ workerCard ≠ eventCard) (invalid_request "ldxp mail card mismatch");
    _ ← fail_if ((le_Amount event <=? float_zero)%float = true) (invalid_request "missing ldxp mail amount");
    _ ← fail_if ((float_zero <? ls_WorkerAmount session)%float = true ∧
                 ldxpAmountCents (ls_WorkerAmount session) ≠ ldxpAmountCents (le_Amount event))
          (invalid_request "ldxp mail amount mismatch");
    rowsAffected ← update_sessions
      (λ s, ls_Id s = ls_Id session ∧ ls_MailOrderNo s = "" ∧ ls_MailCardKey s = "" ∧ ls_MailMessageId s = "")
      (λ s, s <| ls_MailMessageId := TrimSpace (default "" (le_MessageId event)) |> <| ls_MailOrderNo := orderNo |>
              <| ls_MailAmount := le_Amount event |> <| ls_MailCardKey := TrimSpace (le_CardKey event) |>
              <| ls_UpdatedTime := app_now env |>);
    _ ← fail_if (rowsAffected ≠ 1) (invalid_request "ldxp mail already attached");
    let open_event e := le_Id e = le_Id event ∧ le_Processed e = false ∧ le_MatchedSessionId e = "" in
    db ← get;
    _ ← modify (λ d, d <| ldxp_mail_events ::= update_where open_event
          (λ e, e <| le_MatchedSessionId := ls_SessionId session |> <| le_Processed := true |>) |>);
    _ ← fail_if (affected open_event (ldxp_mail_events db) ≠ 1) (invalid_request "ldxp mail event already processed");
    or_error (by_id (ls_Id session) (ldxp_topup_sessions db)) ErrRecordNotFound.

Definition TryMatchLdxpMailEvent (env : Env) (requireMail : bool) (uuid : string) (event : LdxpMailEvent) : Tx LdxpTopupSession :=
  let orderNo := TrimSpace (le_OrderNo event) in
  _ ← fail_if (orderNo = "") (invalid_request "missing mail order no");
  matched ← transaction (match_mail env event orderNo);
  _ ← tryVerifyAndRedeemLdxpSession env requireMail uuid (ls_SessionId matched) (Some event);
  db ← get;
  or_error (session_of (ls_SessionId matched) db) ErrRecordNotFound.
End Shop.

(** *** The administrator's check of mails *)

(** [VerifyLdxpMail] and the status that it leaves. *)
Definition VerifyLdxpMail (session : LdxpTopupSession) (mail : LdxpMailEvent) : string * refusal :=
  if decide (ls_WorkerOrderNo session = "" ∨ le_OrderNo mail = "" ∨ ls_WorkerOrderNo session ≠ le_OrderNo mail) then
    (LdxpStatusVerifyFailed, ("order_mismatch", "worker order number does not match mail order number"))
  else if decide (ldxpAmountCents (ls_WorkerAmount session) ≠ ldxpAmountCents (le_Amount mail)) then
    (LdxpStatusVerifyFailed, ("amount_mismatch", "external paid amount does not match mail paid amount"))
  else (LdxpStatusVerified, ("", "")).

(** The body of the loop of [verifySessions]: [session] is the row as it was read, [mails]
    those found in the mailbox. *)
Definition check_mail (env : Env) (mails : list LdxpMailEvent) (session : LdxpTopupSession) : Tx () :=
  let write f := (_ ← update_sessions (λ s, ls_Id s = ls_Id session) (λ s, (f s) <| ls_UpdatedTime := app_now env |>); mret tt) in
  _ ← write (λ s, s <| ls_ErrorCode := "checking" |> <| ls_ErrorMessage := "邮件核对中" |>);
  match head (filter (λ m, le_OrderNo m ≠ "" ∧ le_OrderNo m = ls_WorkerOrderNo session) mails) with
  | None => write (λ s, s <| ls_ErrorCode := "waiting_mail" |> <| ls_ErrorMessage := "未找到匹配订单确认邮件" |>)
  | Some mail =>
    let '(status, (code, message)) := VerifyLdxpMail session mail in
    write (λ s, s <| ls_MailMessageId := default "" (le_MessageId mail) |> <| ls_MailOrderNo := le_OrderNo mail |>
      <| ls_MailAmount := le_Amount mail |> <| ls_MailCardKey := le_CardKey mail |> <| ls_Status := status |>
      <| ls_ErrorCode := code |> <| ls_ErrorMessage := message |>
      <| ls_VerifiedTime ::= λ t, if decide (status = LdxpStatusVerified) then app_now env else t |>)
  end.

Definition markFetchFailed (env : Env) (message : string) (session : LdxpTopupSession) : Tx () :=
  _ ← update_sessions (λ s, ls_Id s = ls_Id session) (λ s, s <| ls_Status := LdxpStatusVerifyFailed |>
        <| ls_ErrorCode := "mail_fetch_failed" |> <| ls_ErrorMessage := message |> <| ls_UpdatedTime := app_now env |>);
  mret tt.
