(* ===== verification/Shop.v ===== *)
(** * Payments through the linked shop

    The proofs about [Ldxp.v]: an order of the shop is paid out once, whatever the users,
    the workers, the mails and repeated calls do; and what a session delivers when it
    succeeds. *)
From S2P Require Import Prelude Tables GoFloat GoTime Schema Plans Windows Cycles Consume Accounting Ledger Preferences Cards Purchases Lifecycle Topups Orders Redemptions Ldxp.

(** ** What the delivery leaves alone *)

Section Frames.
Context {D : Decimals}.

Lemma keeps_sessions_place env userId plan source now endUnix intent :
  keeps ldxp_topup_sessions (place_package env userId plan source now endUnix intent).
Proof.
  unfold place_package, extendValuePackageSubscriptionTx, maybeAdvanceValuePackageCycleTx, create_quota_reset,
    save_subscription, create_subscription, update_subscription. keeps_solve.
Qed.

Lemma keeps_sessions_grant env userId count source actor note :
  keeps ldxp_topup_sessions (grantValuePackageResetCountTx env userId count source actor note).
Proof.
  unfold grantValuePackageResetCountTx, ensureValuePackagePreferenceForUpdateTx, create_preference, set_reset_count,
    update_preference, create_ledger. keeps_solve.
Qed.
#[local] Hint Resolve keeps_sessions_place keeps_sessions_grant : keeps.

Lemma keeps_sessions_after env userId id plan count note :
  keeps ldxp_topup_sessions (ensureValuePackagePreferenceAfterPurchaseTx env userId id plan count note).
Proof.
  unfold ensureValuePackagePreferenceAfterPurchaseTx, upsertValuePackagePreferenceTx, ensureValuePackagePreferenceForUpdateTx,
    create_preference, update_preference. keeps_solve.
Qed.
Lemma keeps_sessions_cents userId cents : keeps ldxp_topup_sessions (AddUserValidTopupCentsTx userId cents).
Proof. unfold AddUserValidTopupCentsTx, update_user. keeps_solve. Qed.
Lemma keeps_sessions_commission env uuid t : keeps ldxp_topup_sessions (MaybeCreateAffiliateCommissionForTopUpTx env uuid t).
Proof. unfold MaybeCreateAffiliateCommissionForTopUpTx, create_commission. keeps_solve. Qed.
Lemma keeps_sessions_vip userId : keeps ldxp_topup_sessions (MaybeUpgradeUserToVIPTx userId).
Proof. unfold MaybeUpgradeUserToVIPTx. keeps_solve. Qed.
Lemma keeps_sessions_create_topup t : keeps ldxp_topup_sessions (create_topup t).
Proof. unfold create_topup. keeps_solve. Qed.
Lemma keeps_sessions_upsert env order : keeps ldxp_topup_sessions (upsertSubscriptionTopUpTx env order).
Proof. unfold upsertSubscriptionTopUpTx. keeps_solve. Qed.
#[local] Hint Resolve keeps_sessions_after keeps_sessions_cents keeps_sessions_commission keeps_sessions_vip
  keeps_sessions_create_topup keeps_sessions_upsert : keeps.

Lemma keeps_sessions_order env uuid tradeNo payload provider method confirmed :
  keeps ldxp_topup_sessions (CompleteValuePackageOrder env uuid tradeNo payload provider method confirmed).
Proof. unfold CompleteValuePackageOrder, save_order. keeps_solve. Qed.

Lemma keeps_sessions_redeem env uuid session : keeps ldxp_topup_sessions (RedeemLdxpSessionCardTx env uuid session).
Proof.
  unfold RedeemLdxpSessionCardTx, RedeemWithTx, redeemWithTxResult, redeemWithTx, redeem_subscription, redeem_cards, redeem_quota,
    claimRedemptionCodeTx, CreateValuePackageSubscriptionFromPlanTx, CreateUserSubscriptionFromPlanTx, raise_group,
    getUserGroupByIdTx, set_user_group, create_subscription, ensureExistingUserForUpdateTx, update_user,
    getSubscriptionPlanByIdFreshTx. keeps_solve.
Qed.

Lemma keeps_sessions_direct env uuid session : keeps ldxp_topup_sessions (directTopUpLdxpSessionTx env uuid session).
Proof. unfold directTopUpLdxpSessionTx, update_user. keeps_solve. Qed.
End Frames.

(** ** Sessions that have succeeded *)

(** The rows are well-formed, order numbers are trimmed, and no two sessions have
    succeeded with the same number. *)
Record orders_ok (t : table LdxpTopupSession) : Prop := {
  oo_wf : table_wf t;
  oo_trimmed : Forall (λ s, TrimSpace (ls_WorkerOrderNo s) = ls_WorkerOrderNo s) (rows t);
  oo_once : ∀ s1 s2, s1 ∈ rows t → s2 ∈ rows t → ls_Status s1 = LdxpStatusSuccess → ls_Status s2 = LdxpStatusSuccess →
    ls_WorkerOrderNo s1 = ls_WorkerOrderNo s2 → s1 = s2;
}.

(** Since [t0], the sessions that had succeeded are as they were. *)
Definition shop_inv (t0 : table LdxpTopupSession) (db : DB) : Prop :=
  orders_ok (ldxp_topup_sessions db) ∧
  ∀ s, s ∈ rows t0 → ls_Status s = LdxpStatusSuccess → s ∈ rows (ldxp_topup_sessions db).

Lemma shop_inv_keeps {A} t0 (m : Tx A) : keeps ldxp_topup_sessions m → preserves (shop_inv t0) m.
Proof. apply keeps_preserves. unfold shop_inv. by intros d d' ->. Qed.

(** A change of sessions that have not succeeded. *)
Record harmless (f : LdxpTopupSession → LdxpTopupSession) (s : LdxpTopupSession) : Prop := {
  ha_before : ls_Status s ≠ LdxpStatusSuccess;
  ha_after : ls_Status (f s) ≠ LdxpStatusSuccess;
  ha_trimmed : TrimSpace (ls_WorkerOrderNo s) = ls_WorkerOrderNo s → TrimSpace (ls_WorkerOrderNo (f s)) = ls_WorkerOrderNo (f s);
}.

Lemma rows_update (P : LdxpTopupSession → Prop) `{∀ s, Decision (P s)} f t x :
  x ∈ rows (update_where P f t) → ∃ s, s ∈ rows t ∧ x = if decide (P s) then f s else s.
Proof. intros (s & -> & Hs)%list_elem_of_fmap. eauto. Qed.

Lemma update_harmless_at t0 (P : LdxpTopupSession → Prop) `{∀ s, Decision (P s)} f db :
  (∀ s, ls_Id (f s) = ls_Id s) → (∀ s, s ∈ rows (ldxp_topup_sessions db) → P s → harmless f s) →
  shop_inv t0 db → shop_inv t0 (update_sessions P f db).2.
Proof.
  intros Hid Hf [[Hwf Htr Hone] Hfr]. unfold update_sessions. cbn -[update_where].
  assert (Hst : ∀ x, x ∈ rows (update_where P f (ldxp_topup_sessions db)) → ls_Status x = LdxpStatusSuccess →
    x ∈ rows (ldxp_topup_sessions db)).
  { intros x (s & Hs & ->)%rows_update Hx. case_decide as Hp; [|done]. by destruct (ha_after f s (Hf s Hs Hp)). }
  split; [split|].
  - apply wf_update_where; [|done]. intros s _. apply Hid.
  - apply Forall_forall. intros x (s & Hs & ->)%rows_update. rewrite Forall_forall in Htr. specialize (Htr s Hs).
    case_decide as Hp; [by apply (Hf s Hs Hp)|done].
  - intros s1 s2 H1 H2 Hs1 Hs2. apply Hone; auto.
  - intros s Hs Hsucc. apply list_elem_of_fmap. exists s. split; [|auto].
    rewrite decide_False; [done|]. intros Hp. by destruct (ha_before f s (Hf s (Hfr s Hs Hsucc) Hp)).
Qed.

Lemma update_harmless t0 (P : LdxpTopupSession → Prop) `{∀ s, Decision (P s)} f :
  (∀ s, ls_Id (f s) = ls_Id s) → (∀ s, P s → harmless f s) → preserves (shop_inv t0) (update_sessions P f).
Proof. intros Hid Hf db. apply update_harmless_at; auto. Qed.

Lemma head_order_by {R} (le : relation R) `{!RelDecision le} (l : list R) x : head (order_by le l) = Some x → x ∈ l.
Proof.
  unfold order_by. intros H. rewrite <-(merge_sort_Permutation le l).
  destruct (merge_sort le l); inversion H; subst. by left.
Qed.

(** The row of [s] has not succeeded. *)
Definition open_row (t : table LdxpTopupSession) (s : LdxpTopupSession) : Prop :=
  ∃ x, x ∈ rows t ∧ ls_Id x = ls_Id s ∧ ls_Status x ≠ LdxpStatusSuccess ∧ ls_WorkerOrderNo x = ls_WorkerOrderNo s.
(** No session has succeeded with the order number of [s]. *)
Definition unpaid (t : table LdxpTopupSession) (s : LdxpTopupSession) : Prop :=
  ∀ y, y ∈ rows t → ls_Status y = LdxpStatusSuccess → ls_WorkerOrderNo y ≠ ls_WorkerOrderNo s.

Lemma not_redeemed_open t s : s ∈ rows t → isLdxpSessionAlreadyRedeemed s = false → open_row t s.
Proof. intros Hs Hred%bool_decide_eq_false. exists s. split_and!; try done. tauto. Qed.
Lemma open_row_same t s s' : ls_Id s' = ls_Id s → ls_WorkerOrderNo s' = ls_WorkerOrderNo s → open_row t s → open_row t s'.
Proof. unfold open_row. by intros -> ->. Qed.

Lemma persist_run session f db :
  persist session f db = (Ok (f session), db <| ldxp_topup_sessions ::= update_where (λ s, ls_Id s = ls_Id session) f |>).
Proof. done. Qed.

(** The effect of a write of the row of a session: that row and no other. *)
Lemma persist_rows t s f (x : LdxpTopupSession) :
  table_wf t → x ∈ rows t → ls_Id x = ls_Id s →
  ∀ y, y ∈ rows (update_where (λ r, ls_Id r = ls_Id s) f t) ↔ y = f x ∨ y ∈ rows t ∧ ls_Id y ≠ ls_Id s.
Proof.
  intros Hwf Hx Hid y. split.
  - intros (r & Hr & ->)%rows_update. case_decide as Hp; [|auto]. left. f_equal.
    apply (wf_row_eq t); [done|done|done|]. cbn. congruence.
  - intros [->|[Hy Hn]]; apply list_elem_of_fmap; [exists x|exists y]; (split; [|done]);
      [by rewrite decide_True|by rewrite decide_False].
Qed.

Section Persist.
Context (t0 : table LdxpTopupSession) (s : LdxpTopupSession) (f : LdxpTopupSession → LdxpTopupSession) (db : DB).
Hypothesis Hinv : shop_inv t0 db.
Hypothesis Hopen : open_row (ldxp_topup_sessions db) s.
Hypothesis Hkeep : ∀ x, ls_Id (f x) = ls_Id x ∧ ls_WorkerOrderNo (f x) = ls_WorkerOrderNo x.
Let t' := update_where (λ r, ls_Id r = ls_Id s) f (ldxp_topup_sessions db).

Lemma persist_frozen x : x ∈ rows t0 → ls_Status x = LdxpStatusSuccess → x ∈ rows t'.
Proof.
  intros Hx Hs. destruct Hinv as [[Hwf _ _] Hfr], Hopen as (r & Hr & Hid & Hst & _).
  apply (persist_rows _ _ _ r Hwf Hr Hid). right. split; [auto|]. intros Hxid. apply Hst.
  by rewrite (wf_row_eq (ldxp_topup_sessions db) r x Hwf Hr (Hfr x Hx Hs) ltac:(cbn; congruence)).
Qed.

Lemma persist_trimmed : table_wf t' ∧ Forall (λ x, TrimSpace (ls_WorkerOrderNo x) = ls_WorkerOrderNo x) (rows t').
Proof.
  destruct Hinv as [[Hwf Htr _] _]. split; [apply wf_update_where; [|done]; intros r _; apply Hkeep|].
  apply Forall_forall. rewrite Forall_forall in Htr. intros x (r & Hr & ->)%rows_update.
  case_decide; [|auto]. rewrite (proj2 (Hkeep r)). auto.
Qed.

(** A write that does not make the session succeed. *)
Lemma persist_open :
  (∀ x, ls_Status (f x) ≠ LdxpStatusSuccess) →
  shop_inv t0 (db <| ldxp_topup_sessions := t' |>) ∧ open_row t' s ∧ (unpaid (ldxp_topup_sessions db) s → unpaid t' s).
Proof.
  intros Hst. destruct Hopen as (r & Hr & Hid & Hrs & Hno). pose proof (proj1 Hinv) as [Hwf _ Hone].
  assert (Hsucc : ∀ y, y ∈ rows t' → ls_Status y = LdxpStatusSuccess → y ∈ rows (ldxp_topup_sessions db)).
  { intros y Hy Hs. apply (persist_rows _ _ _ r Hwf Hr Hid) in Hy as [->|[Hy _]]; [by destruct (Hst r)|done]. }
  split_and!.
  - split; [split; [apply persist_trimmed..|]|exact persist_frozen].
    intros s1 s2 H1 H2 Hs1 Hs2. apply Hone; auto.
  - exists (f r). split_and!; [|by rewrite (proj1 (Hkeep r))|done|by rewrite (proj2 (Hkeep r))].
    apply (persist_rows _ _ _ r Hwf Hr Hid). by left.
  - intros Hun y Hy Hs. apply Hun; auto.
Qed.

(** The write that makes it succeed, with an order number that none has yet. *)
Lemma persist_paid : unpaid (ldxp_topup_sessions db) s → shop_inv t0 (db <| ldxp_topup_sessions := t' |>).
Proof.
  intros Hun. destruct Hopen as (r & Hr & Hid & Hrs & Hno). pose proof (proj1 Hinv) as [Hwf _ Hone].
  split; [split; [apply persist_trimmed..|]|exact persist_frozen].
  intros s1 s2 H1 H2 Hs1 Hs2 Heq.
  apply (persist_rows _ _ _ r Hwf Hr Hid) in H1 as [->|[H1 _]], H2 as [->|[H2 _]]; [done| | |by apply Hone].
  - rewrite (proj2 (Hkeep r)), Hno in Heq. by destruct (Hun s2 H2 Hs2).
  - rewrite (proj2 (Hkeep r)), Hno in Heq. by destruct (Hun s1 H1 Hs1).
Qed.
End Persist.

(** ** Verification *)

Lemma mail_fields_keep s e x :
  ls_Id (ldxpMailFieldsFromEvent s e x) = ls_Id x ∧ ls_WorkerOrderNo (ldxpMailFieldsFromEvent s e x) = ls_WorkerOrderNo x.
Proof.
  unfold ldxpMailFieldsFromEvent. destruct e as [e|]; [|done].
  repeat case_decide; destruct (_ && _), (le_MessageId e); done.
Qed.

Lemma first_refusal_None l r : first_refusal l = None → r ∈ l → r = None.
Proof.
  induction l as [|[x|] l IH]; cbn; [by intros _ ?%not_elem_of_nil|done|]. intros Hn [->|Hr]%elem_of_cons; auto.
Qed.

Lemma not_duplicate s e db :
  orders_ok (ldxp_topup_sessions db) → open_row (ldxp_topup_sessions db) s → TrimSpace (ls_WorkerOrderNo s) ≠ "" →
  rejectDuplicateSuccessfulLdxpSessionTx s e db = None → unpaid (ldxp_topup_sessions db) s.
Proof.
  intros [Hwf Htr _] (x & Hx & Hid & Hst & Hno) Hne Hrej y Hy Hs Heq.
  rewrite Forall_forall in Htr. pose proof (Htr x Hx) as Hx'. rewrite Hno in Hx'.
  assert (Hv : rejectDuplicateSuccessfulLdxpValueTx (ls_Id s) "duplicate_order" "order number"
    (λ s, [ls_WorkerOrderNo s; ls_MailOrderNo s]) (TrimSpace (ls_WorkerOrderNo s)) db = None).
  { eapply first_refusal_None; [exact Hrej|]. apply elem_of_app. left. cbn. left. }
  unfold rejectDuplicateSuccessfulLdxpValueTx in Hv. rewrite Hx' in *. rewrite Hx', decide_False in Hv by done.
  apply fmap_None in Hv. apply (first_None _ _ y Hv Hy). split_and!; [|done|rewrite Heq; left].
  intros Hyid. apply Hst. by rewrite (wf_row_eq (ldxp_topup_sessions db) x y Hwf Hx Hy ltac:(cbn; congruence)).
Qed.

Lemma verified_order session e :
  VerifyLdxpSessionFields session e = None ∨ VerifyLdxpWorkerPaidFields session = None →
  TrimSpace (ls_WorkerOrderNo session) ≠ "".
Proof.
  unfold VerifyLdxpSessionFields, VerifyLdxpWorkerPaidFields. by destruct (decide (TrimSpace (ls_WorkerOrderNo session) = "")) as [Hd|Hd]; [intros [|]|].
Qed.

Section Verify.
Context {D : Decimals} (t0 : table LdxpTopupSession).

Abbreviation kept := (λ (s : LdxpTopupSession) db, shop_inv t0 db ∧ open_row (ldxp_topup_sessions db) s ∧ unpaid (ldxp_topup_sessions db) s).

Lemma kept_keeps {A} (m : Tx A) s : keeps ldxp_topup_sessions m → preserves (kept s) m.
Proof. apply keeps_preserves. unfold shop_inv. by intros d d' ->. Qed.

(** The last write of a verification, and its result. *)
Lemma end_failure {A} env s msg (a : A) db :
  kept s db → wp (_ ← persistLdxpRedeemFailureTx env s msg; mret a) (λ r d, r = Ok a ∧ shop_inv t0 d) db.
Proof. intros (Hi & Ho & _). split; [done|]. by apply persist_open. Qed.

Lemma end_success {A} env s (a : A) db :
  kept s db → wp (_ ← persistLdxpRedeemSuccessTx env s; mret a) (λ r d, r = Ok a ∧ shop_inv t0 d) db.
Proof. intros (Hi & Ho & Hu). split; [done|]. by apply persist_paid. Qed.

Lemma kept_same s s' db :
  ls_Id s' = ls_Id s → ls_WorkerOrderNo s' = ls_WorkerOrderNo s → kept s db → kept s' db.
Proof. intros Hid Hno (Hi & Ho & Hu). split_and!; [done|by apply (open_row_same _ s)|]. unfold unpaid in *. by rewrite Hno. Qed.

Lemma verified_kept env s e db :
  kept s db → wp (persistLdxpVerifiedTx env s e) (λ r d, match r with Ok s' => kept s' d | Err _ => False end) db.
Proof.
  intros (Hi & Ho & Hu). unfold persistLdxpVerifiedTx.
  match goal with |- context [persist s ?g] => set (f := g) end. unfold wp. rewrite persist_run. cbn [fst snd].
  assert (Hf : ∀ x, ls_Id (f x) = ls_Id x ∧ ls_WorkerOrderNo (f x) = ls_WorkerOrderNo x) by (intros x; apply mail_fields_keep).
  destruct (persist_open t0 s f db) as (Hi' & Ho' & Hu'); [done|done|exact Hf|done|].
  apply (kept_same s); [apply Hf|apply Hf|]. split_and!; [exact Hi'|exact Ho'|by apply Hu'].
Qed.

(** A delivery returns the session with another note on it. *)
Definition noted (s : LdxpTopupSession) (db : DB) (r : result LdxpTopupSession) (d : DB) : Prop :=
  ldxp_topup_sessions d = ldxp_topup_sessions db ∧
  match r with Ok s' => ls_Id s' = ls_Id s ∧ ls_WorkerOrderNo s' = ls_WorkerOrderNo s | Err _ => True end.

Lemma wp_noted (m : Tx LdxpTopupSession) s db :
  keeps ldxp_topup_sessions m →
  wp m (λ r _, match r with Ok s' => ls_Id s' = ls_Id s ∧ ls_WorkerOrderNo s' = ls_WorkerOrderNo s | Err _ => True end) db →
  wp m (noted s db) db.
Proof. intros Hk Hm. split; [apply Hk|exact Hm]. Qed.

Lemma redeem_noted env uuid s db : wp (RedeemLdxpSessionCardTx env uuid s) (noted s db) db.
Proof.
  apply wp_noted; [apply keeps_sessions_redeem|]. unfold RedeemLdxpSessionCardTx. apply wp_bind.
  unfold wp. by destruct (RedeemWithTx _ _ _ _ db) as [[]].
Qed.

Lemma direct_noted env uuid s db : wp (directTopUpLdxpSessionTx env uuid s) (noted s db) db.
Proof.
  apply wp_noted; [apply keeps_sessions_direct|]. unfold directTopUpLdxpSessionTx.
  wp_guard as _; [done|]. cbv zeta. wp_guard as _; [done|]. wp_step. wp_step.
  assert (Hend : ∀ {A} (m : Tx A) (k : A → Tx LdxpTopupSession) (Q : result LdxpTopupSession → DB → Prop) d,
    (∀ e d', Q (Err e) d') → (∀ a d', wp (k a) Q d') → wp (m ≫= k) Q d).
  { intros A m k Q d He Hk. apply wp_bind. unfold wp at 1. destruct (m d) as [[a|e] d']; cbn; [apply Hk|apply He]. }
  destruct (topup_by_trade_no _ db); repeat (apply Hend; [done|intros ? ?]); by wp_step.
Qed.

Lemma kept_table s db d : ldxp_topup_sessions d = ldxp_topup_sessions db → kept s db → kept s d.
Proof. intros Hd (Hi & Ho & Hu). unfold shop_inv. by rewrite Hd. Qed.

Lemma deliver_inv env uuid s db b :
  kept s db → wp (if b : bool then deliver_code env uuid s else deliver_topup env uuid s) 
    (λ r d, (∃ res, r = Ok (inl res)) ∧ shop_inv t0 d) db.
Proof.
  intros Hk. assert (Hend : ∀ (m : Tx (LdxpVerifyResult + LdxpTopupSession)) res d,
    wp m (λ r d, r = Ok (inl res) ∧ shop_inv t0 d) d → wp m (λ r d, (∃ res, r = Ok (inl res)) ∧ shop_inv t0 d) d).
  { intros m res d Hm. eapply wp_mono; [exact Hm|]. intros r d' [-> ?]. eauto. }
  destruct b.
  - unfold deliver_code. wp_step. wp_step. wp_step. eapply wp_mono; [apply redeem_noted|].
    intros [s'|e] d [Hd Hs'].
    + eapply Hend, end_success. apply (kept_same s); [apply Hs'..|]. by apply (kept_table _ db).
    + wp_step. wp_step. set (s1 := s <| ls_RedemptionId := 0 |> <| ls_TopupId := 0 |>).
      assert (Hk1 : kept s1 db) by (by apply (kept_same s)).
      destruct (if error_is e ErrRedemptionUsed then _ else None) as [s2|] eqn:Hrec; [|by eapply Hend, end_failure].
      eapply Hend, end_success. apply (kept_same s1); [..|done];
        destruct (error_is e ErrRedemptionUsed); try done; unfold recoverLdxpSameUserUsedRedemptionTx in Hrec;
        repeat case_decide; try done; destruct (code_by_key _ _); try done; repeat case_decide; try done;
        destruct (ldxpRecoveredRedemptionHasCurrentSessionTopUpTx _ _ _); try done; by injection Hrec as <-.
  - unfold deliver_topup. wp_step. wp_step. eapply wp_mono; [apply direct_noted|].
    intros [s'|e] d [Hd Hs'].
    + eapply Hend, end_success. apply (kept_same s); [apply Hs'..|]. by apply (kept_table _ db).
    + eapply Hend, end_failure. by apply (kept_table _ db).
Qed.

Lemma refuse_inv env s e r db :
  shop_inv t0 db → open_row (ldxp_topup_sessions db) s →
  wp (refuse env s e r) (λ r d, shop_inv t0 d ∧ match r with Ok (inr _) => False | _ => True end) db.
Proof.
  intros Hi Ho. unfold refuse. split; [|done]. apply persist_open; [done|done| |].
  - intros x. cbn. apply mail_fields_keep.
  - done.
Qed.

Lemma verify_session_inv env requireMail uuid s e db :
  shop_inv t0 db → open_row (ldxp_topup_sessions db) s →
  wp (verify_session env requireMail uuid s e)
    (λ r d, shop_inv t0 d ∧ match r with Ok (inr s') => kept s' d | _ => True end) db.
Proof.
  intros Hi Ho. unfold verify_session. wp_step. wp_step.
  destruct (if requireMail then _ else _) as [event found]. destruct (_ && _); [by wp_step|].
  destruct (if requireMail then VerifyLdxpSessionFields s event else VerifyLdxpWorkerPaidFields s) as [r|] eqn:Hver.
  { eapply wp_mono; [by apply refuse_inv|]. intros [[]|] d [? ?]; done. }
  destruct (rejectDuplicateSuccessfulLdxpSessionTx s event db) as [r|] eqn:Hdup.
  { eapply wp_mono; [by apply refuse_inv|]. intros [[]|] d [? ?]; done. }
  assert (Hu : unpaid (ldxp_topup_sessions db) s).
  { apply (not_duplicate s event); [apply Hi|done| |done]. apply (verified_order s event). destruct requireMail; auto. }
  wp_step. eapply wp_mono; [by apply verified_kept|]. intros [s'|] d Hk; [|done].
  case_decide; [by wp_step; split; [apply Hk|]|].
  eapply wp_mono; [apply (deliver_inv env uuid s' d requireMail Hk)|]. by intros r d' [[res ->] ?].
Qed.

Lemma settle_inv env uuid s db :
  kept s db → wp (settleLdxpValuePackageSession env uuid s) (λ _ d, shop_inv t0 d) db.
Proof.
  intros Hk. unfold settleLdxpValuePackageSession. wp_step. wp_step. wp_step. wp_step.
  apply (wp_keeps id); [unfold ldxpLinkedValuePackageOrder; keeps_solve|].
  unfold wp at 1. destruct (ldxpLinkedValuePackageOrder s db) as [[order|e] d]; cbn [fst snd id]; intros ->.
  2: { destruct (error_is e ErrRecordNotFound); [|destruct (error_is e _); [|wp_step; apply Hk]];
         (eapply wp_mono; [by apply end_failure|]; intros r d' [-> Hi]; by wp_step). }
  wp_step. wp_step. wp_step. apply (wp_keeps ldxp_topup_sessions); [apply keeps_sessions_order|].
  unfold wp at 1. destruct (CompleteValuePackageOrder _ _ _ _ _ _ _ db) as [[sub|e] d]; cbn [fst snd]; intros Hd;
    apply (kept_table _ _ _ Hd) in Hk.
  - eapply wp_mono; [by apply end_success|]. by intros r d' [_ ?].
  - destruct (isLdxpValuePackageSettlementBusinessError e); [|wp_step; apply Hk].
    eapply wp_mono; [by apply end_failure|]. by intros r d' [_ ?].
Qed.
End Verify.

Section Shop.
Context {D : Decimals} (t0 : table LdxpTopupSession).

Lemma verify_inv env requireMail uuid sessionID e :
  preserves (shop_inv t0) (tryVerifyAndRedeemLdxpSession env requireMail uuid sessionID e).
Proof.
  intros db Hi. change (wp (tryVerifyAndRedeemLdxpSession env requireMail uuid sessionID e) (λ _ d, shop_inv t0 d) db).
  unfold tryVerifyAndRedeemLdxpSession. wp_guard as _; [done|]. wp_step. wp_step. wp_step.
  unfold getLdxpVerifySessionForUpdateTx. wp_guard as _; [done|]. wp_step. wp_step.
  apply wp_or_error; [|done]. intros s Hs. apply first_Some in Hs as [Hs _].
  destruct (isLdxpSessionAlreadyRedeemed s) eqn:Hred; [by wp_step|].
  assert (Ho : open_row (ldxp_topup_sessions db) s) by (by apply not_redeemed_open).
  eapply wp_mono; [by apply (verify_session_inv t0)|]. intros [[res|s']|err] d [Hd Hk]; [by wp_step| |done].
  by apply settle_inv.
Qed.

Lemma create_inv s :
  ls_Status s = LdxpStatusCreated → ls_WorkerOrderNo s = "" → preserves (shop_inv t0) (create_session s).
Proof.
  intros Hst Hno. unfold create_session. apply wp_preserves. intros db Hi. wp_step. wp_step.
  wp_guard as _; [done|]. wp_steps. destruct Hi as [[Hwf Htr Hone] Hfr].
  match goal with |- context [insert_row ?r] => set (row := r) end.
  set (t := insert_row row (ldxp_topup_sessions db)).
  assert (Hold : ∀ y, y ∈ rows t → ls_Status y = LdxpStatusSuccess → y ∈ rows (ldxp_topup_sessions db)).
  { intros y Hy Hs. apply elem_of_insert_row in Hy as [Hy|Hy]; [done|]. subst y. change (ls_Status s = LdxpStatusSuccess) in Hs. by rewrite Hst in Hs. }
  split; [split|].
  - by apply wf_insert_row.
  - apply Forall_insert_row; [done|]. cbn. by rewrite Hno.
  - intros s1 s2 H1 H2 Hs1 Hs2. apply Hone; auto.
  - intros y Hy Hs. apply elem_of_insert_row. left. auto.
Qed.

Lemma match_inv env e orderNo : preserves (shop_inv t0) (match_mail env e orderNo).
Proof.
  unfold match_mail. apply wp_preserves. intros db Hi. wp_step. wp_step. wp_step.
  apply wp_or_error; [|done]. intros s Hs. apply head_order_by, where_elem in Hs as [[Hno Hst] Hs].
  destruct (hasLdxpMailAttachment s).
  { apply preserves_wp; [|done]. preserves_solve. }
  wp_guard as _; [done|]. wp_guard as _; [done|]. wp_guard as _; [done|]. wp_guard as _; [done|].
  wp_step. match goal with |- wp ?m _ _ => assert (Hm : shop_inv t0 (m db).2) end.
  { apply update_harmless_at; [done| |done]. intros x Hx [Hid _].
    assert (x = s) as -> by (by apply (wf_row_eq (ldxp_topup_sessions db)); [apply Hi|..]).
    assert (ls_Status s ≠ LdxpStatusSuccess) by (by destruct Hst as [-> | ->]). by split. }
  unfold wp at 1. destruct (update_sessions _ _ db) as [[n|] d]; [|done]. cbn [fst snd] in *.
  apply preserves_wp; [|done]. preserves_solve. apply shop_inv_keeps. keeps_solve.
Qed.

Lemma claim_inv tries workerId now : preserves (shop_inv t0) (claim_loop tries workerId now).
Proof.
  induction tries as [|tries IH]; cbn [claim_loop]; [by apply preserves_read; keeps_solve|].
  preserves_solve; try done. unfold claimSelectedLdxpTopupSession. preserves_solve.
  apply update_harmless; [done|]. intros s (_ & Hst & _). split; [rewrite Hst|..]; done.
Qed.

(** An update that is guarded by the status of the row. *)
Ltac guarded := apply update_harmless; [done|]; intros s Hs;
  assert (ls_Status s ≠ LdxpStatusSuccess) by (unfold isLdxpCancelableStatus in Hs; intros Hsucc; rewrite Hsucc in Hs; naive_solver);
  split; [done|done|try done; intros _; apply TrimSpace_idem].

#[local] Hint Resolve claim_inv : keeps.

Lemma expire_inv now : preserves (shop_inv t0) (MarkExpiredLdxpTopupSessions now).
Proof. unfold MarkExpiredLdxpTopupSessions. guarded. Qed.
Lemma watch_inv workerId now : preserves (shop_inv t0) (ClaimNextLdxpPaidWatchSession workerId now).
Proof.
  unfold ClaimNextLdxpPaidWatchSession. preserves_solve.
  apply update_harmless; [done|]. intros s (_ & Hst & _). split; [|cbn|done]; by rewrite Hst.
Qed.
#[local] Hint Resolve expire_inv watch_inv : keeps.
Lemma claim_session_inv env workerID cfg : preserves (shop_inv t0) (ClaimLdxpTopupSession env workerID cfg).
Proof. unfold ClaimLdxpTopupSession, ClaimNextLdxpTopupSession. preserves_solve. Qed.
Lemma claim_watch_inv env workerID cfg : preserves (shop_inv t0) (ClaimLdxpPaidWatchSession env workerID cfg).
Proof. unfold ClaimLdxpPaidWatchSession. preserves_solve. Qed.
Lemma cancel_inv env sessionID userID : preserves (shop_inv t0) (CancelLdxpTopupSession env sessionID userID).
Proof. unfold CancelLdxpTopupSession. preserves_solve. guarded. Qed.
Lemma qr_inv env sessionID payload : preserves (shop_inv t0) (RecordLdxpQr env sessionID payload).
Proof. unfold RecordLdxpQr, unless_canceled. preserves_solve. guarded. Qed.
Lemma error_inv env sessionID workerID code message path :
  preserves (shop_inv t0) (RecordLdxpWorkerError env sessionID workerID code message path).
Proof. unfold RecordLdxpWorkerError, unless_canceled. preserves_solve. guarded. Qed.
Lemma result_inv env requireMail uuid sessionID payload :
  preserves (shop_inv t0) (RecordLdxpWorkerResult env requireMail uuid sessionID payload).
Proof. unfold RecordLdxpWorkerResult. preserves_solve; [guarded|apply verify_inv]. Qed.
Lemma topup_inv env sessionID userID amount cfg :
  preserves (shop_inv t0) (CreateLdxpTopupSession env sessionID userID amount cfg).
Proof. unfold CreateLdxpTopupSession, lockLdxpUserRowIfPossible. preserves_solve. by apply create_inv. Qed.
Lemma package_inv env sessionID tradeNo userID planID confirmed cfg :
  preserves (shop_inv t0) (CreateLdxpValuePackageSession env sessionID tradeNo userID planID confirmed cfg).
Proof.
  unfold CreateLdxpValuePackageSession, lockLdxpUserRowIfPossible, CheckValuePackagePurchaseIntent,
    CheckValuePackagePurchaseIntentTx, checkValuePackagePurchaseIntentTx, create_order.
  preserves_solve; [|by apply create_inv]. apply shop_inv_keeps. keeps_solve.
Qed.
Lemma save_mail_inv env parsed : preserves (shop_inv t0) (SaveLdxpMailEvent env parsed).
Proof.
  unfold SaveLdxpMailEvent, validateLdxpParsedMailLengths, InsertLdxpMailEvent.
  preserves_solve; apply shop_inv_keeps; keeps_solve.
Qed.
Lemma try_match_inv env requireMail uuid e : preserves (shop_inv t0) (TryMatchLdxpMailEvent env requireMail uuid e).
Proof. unfold TryMatchLdxpMailEvent. preserves_solve; [apply match_inv|apply verify_inv]. Qed.
End Shop.

(** ** Every operation of the shop *)

(** What users, workers, the reader of the mailbox and an administrator's repeated check ask for. *)
Inductive shop_op :=
  | op_topup (env : Env) (sessionID : string) (userID amount : Z) (cfg : LdxpConfig)
  | op_package (env : Env) (sessionID tradeNo : string) (userID planID : Z) (confirmed : bool) (cfg : LdxpConfig)
  | op_cancel (env : Env) (sessionID : string) (userID : Z)
  | op_claim (env : Env) (workerID : string) (cfg : LdxpConfig)
  | op_watch (env : Env) (workerID : string) (cfg : LdxpConfig)
  | op_qr (env : Env) (sessionID : string) (payload : LdxpWorkerQrPayload)
  | op_error (env : Env) (sessionID workerID code message path : string)
  | op_result (env : Env) (requireMail : bool) (uuid sessionID : string) (payload : LdxpWorkerResultPayload)
  | op_save_mail (env : Env) (parsed : LdxpParsedMail)
  | op_match_mail (env : Env) (requireMail : bool) (uuid : string) (e : LdxpMailEvent)
  | op_verify (env : Env) (requireMail : bool) (uuid sessionID : string).

Section Runs.
Context {D : Decimals}.

(** The state after a request, served or refused. *)
Definition run_shop_op (op : shop_op) (db : DB) : DB :=
  match op with
  | op_topup env sessionID userID amount cfg => (CreateLdxpTopupSession env sessionID userID amount cfg db).2
  | op_package env sessionID tradeNo userID planID confirmed cfg =>
    (CreateLdxpValuePackageSession env sessionID tradeNo userID planID confirmed cfg db).2
  | op_cancel env sessionID userID => (CancelLdxpTopupSession env sessionID userID db).2
  | op_claim env workerID cfg => (ClaimLdxpTopupSession env workerID cfg db).2
  | op_watch env workerID cfg => (ClaimLdxpPaidWatchSession env workerID cfg db).2
  | op_qr env sessionID payload => (RecordLdxpQr env sessionID payload db).2
  | op_error env sessionID workerID code message path => (RecordLdxpWorkerError env sessionID workerID code message path db).2
  | op_result env requireMail uuid sessionID payload => (RecordLdxpWorkerResult env requireMail uuid sessionID payload db).2
  | op_save_mail env parsed => (SaveLdxpMailEvent env parsed db).2
  | op_match_mail env requireMail uuid e => (TryMatchLdxpMailEvent env requireMail uuid e db).2
  | op_verify env requireMail uuid sessionID => (TryVerifyAndRedeemLdxpSession env requireMail uuid sessionID db).2
  end.
Definition run_shop (ops : list shop_op) (db : DB) : DB := foldl (λ d op, run_shop_op op d) db ops.

Lemma shop_op_inv t0 op db : shop_inv t0 db → shop_inv t0 (run_shop_op op db).
Proof.
  destruct op; cbn [run_shop_op]; intros Hi;
    first [by apply topup_inv|by apply package_inv|by apply cancel_inv|by apply claim_session_inv|by apply claim_watch_inv
          |by apply qr_inv|by apply error_inv|by apply result_inv|by apply save_mail_inv|by apply try_match_inv
          |by apply verify_inv].
Qed.

Lemma shop_inv_start db : orders_ok (ldxp_topup_sessions db) → shop_inv (ldxp_topup_sessions db) db.
Proof. by split. Qed.

(** C19: an order of the linked shop is paid out once.  Whatever users, workers and the
    reader of the mailbox ask for, in whatever order and however often, no two sessions
    succeed with the same order number, and a session that has succeeded is not changed
    any more. *)
Theorem order_paid_once ops db :
  orders_ok (ldxp_topup_sessions db) →
  let t := ldxp_topup_sessions (run_shop ops db) in
  (∀ s1 s2, s1 ∈ rows t → s2 ∈ rows t → ls_Status s1 = LdxpStatusSuccess → ls_Status s2 = LdxpStatusSuccess →
     ls_WorkerOrderNo s1 = ls_WorkerOrderNo s2 → s1 = s2) ∧
  ∀ s, s ∈ rows (ldxp_topup_sessions db) → ls_Status s = LdxpStatusSuccess → s ∈ rows t.
Proof.
  intros Hok t. cut (shop_inv (ldxp_topup_sessions db) (run_shop ops db)); [intros [[_ _ Hone] Hfr]; by split|].
  clear t. apply shop_inv_start in Hok. revert Hok. generalize (ldxp_topup_sessions db) as t0. revert db.
  induction ops as [|op ops IH]; intros db t0 Hi; [done|]. apply IH. by apply shop_op_inv.
Qed.

(** *** Direct top-ups *)

(** The part that the steps after the credit leave alone. *)
Abbreviation credits i := (λ d, (top_ups d, wallet d i)).

Lemma keeps_credits_update i userId f :
  (∀ u, u_Id (f u) = u_Id u ∧ u_Quota (f u) = u_Quota u) → keeps (credits i) (update_user userId f).
Proof.
  intros Hf db. unfold update_user. cbn -[update_where]. f_equal. apply same_wallets_wallet. cbn -[update_where].
  by apply same_wallets_update.
Qed.
Lemma keeps_credits_cents i userId cents : keeps (credits i) (AddUserValidTopupCentsTx userId cents).
Proof. unfold AddUserValidTopupCentsTx. keeps_solve. by apply keeps_credits_update. Qed.
Lemma keeps_credits_vip i userId : keeps (credits i) (MaybeUpgradeUserToVIPTx userId).
Proof.
  unfold MaybeUpgradeUserToVIPTx. keeps_solve. intros db. cbn -[update_where]. f_equal. apply same_wallets_wallet.
  cbn -[update_where]. by apply same_wallets_update.
Qed.
Lemma keeps_credits_commission i env uuid t : keeps (credits i) (MaybeCreateAffiliateCommissionForTopUpTx env uuid t).
Proof. unfold MaybeCreateAffiliateCommissionForTopUpTx, create_commission. keeps_solve. Qed.
#[local] Hint Resolve keeps_credits_cents keeps_credits_vip keeps_credits_commission : keeps.

(** The top-up that a session is paid out by. *)
Definition session_topup (env : Env) (s : LdxpTopupSession) : TopUp :=
  mkTopUp 0 (ls_UserId s) (ls_Amount s) (ls_Money s) (ldxpDirectTopUpTradeNo (ls_WorkerOrderNo s)) PaymentMethodLDXP
    PaymentProviderLDXP (app_now env) (app_now env) TopUpStatusSuccess.
Abbreviation order_topup s db := (topup_by_trade_no (ldxpDirectTopUpTradeNo (ls_WorkerOrderNo s)) db).

(** The wallet of the user grows by the worth of the session if the top-up of its order
    is new, and no wallet changes otherwise. *)
Definition credited_once (env : Env) (s : LdxpTopupSession) (db db' : DB) : Prop :=
  ∀ i, wallet db' i = (λ q, if decide (i = ls_UserId s ∧ order_topup s db = None ∧ order_topup s db' ≠ None)
                            then q + amount_quota env (session_topup env s) else q) <$> wallet db i.

Lemma credited_not env s db db' :
  (∀ i, wallet db' i = wallet db i) → order_topup s db' = order_topup s db → credited_once env s db db'.
Proof. intros Hw Ht i. rewrite Hw, Ht. destruct (wallet db i); cbn; [|done]. rewrite decide_False; [done|]. tauto. Qed.

Lemma wp_credits {A} (m : Tx A) (Q : result A → DB → Prop) db :
  (∀ i, keeps (credits i) m) →
  (∀ r d, top_ups d = top_ups db → (∀ i, wallet d i = wallet db i) → Q r d) → wp m Q db.
Proof.
  intros Hm HQ. apply HQ; [by injection (Hm 0 db)|]. intros i. by injection (Hm i db).
Qed.

(** The steps after the credit. *)
Lemma wp_credited env uuid t userId (s' : LdxpTopupSession) (Q : result LdxpTopupSession → DB → Prop) db :
  (∀ r d, top_ups d = top_ups db → (∀ i, wallet d i = wallet db i) → match r with Ok a => a = s' | Err _ => True end → Q r d) →
  wp (_ ← MaybeCreateAffiliateCommissionForTopUpTx env uuid t; _ ← MaybeUpgradeUserToVIPTx userId; mret s') Q db.
Proof.
  intros HQ. wp_step. apply wp_credits; [auto with keeps|]. intros [u|e] d1 Ht1 Hw1; [|by apply HQ].
  wp_step. apply wp_credits; [auto with keeps|]. intros [b|e] d2 Ht2 Hw2; [wp_step|];
    apply HQ; try done; try congruence; intros i; by rewrite Hw2.
Qed.

Lemma topup_inserted t db :
  topup_by_trade_no (tu_TradeNo t) db = None →
  topup_by_trade_no (tu_TradeNo t) (db <| top_ups ::= insert_row t |>) = Some (inserted t (top_ups db)).
Proof.
  unfold topup_by_trade_no, first, where_. cbn. intros Hn. rewrite filter_app.
  destruct (filter _ (rows (top_ups db))); [|done]. cbn. by rewrite decide_True.
Qed.

Lemma wp_direct env uuid s db :
  wp (directTopUpLdxpSessionTx env uuid s)
    (λ r d, credited_once env s db d ∧ match r with
      | Ok s' => ∃ t, order_topup s d = Some t ∧ tu_UserId t = ls_UserId s ∧ tu_Status t = TopUpStatusSuccess ∧
                      s' = s <| ls_TopupId := tu_Id t |>
      | Err _ => True end) db.
Proof.
  assert (Hsame : ∀ d, top_ups d = top_ups db → (∀ i, wallet d i = wallet db i) → credited_once env s db d).
  { intros d Ht Hw. apply credited_not; [done|]. unfold topup_by_trade_no. by rewrite Ht. }
  unfold directTopUpLdxpSessionTx. fold (session_topup env s). wp_guard as _; [by split; [apply Hsame|]|].
  wp_guard as _; [by split; [apply Hsame|]|]. wp_step. wp_step.
  destruct (order_topup s db) as [t|] eqn:Hold.
  - wp_guard as Hown; [by split; [apply Hsame|]|]. apply wp_credited. intros r d Ht Hw Hr.
    split; [by apply Hsame|]. destruct r as [s'|]; [|done]. exists t. split_and!; [|by apply dec_stable; tauto..|done].
    rewrite <-Hold. unfold topup_by_trade_no. by rewrite Ht.
  - wp_step. apply wp_create_topup; [|intros; by split; [apply Hsame|]].
    pose proof (topup_inserted (session_topup env s) db Hold) as Hnew. set (row := inserted _ _) in *.
    set (d0 := db <| top_ups ::= _ |>) in *. unfold update_user. do 6 wp_step. set (d1 := d0 <| users ::= _ |>).
    assert (Hrow : ∀ d, top_ups d = top_ups d1 → order_topup s d = Some row).
    { intros d Ht. rewrite <-Hnew. unfold topup_by_trade_no. by rewrite Ht. }
    assert (Hpaid : ∀ d, top_ups d = top_ups d1 → (∀ i, wallet d i = wallet d1 i) → credited_once env s db d).
    { intros d Ht Hw i. rewrite Hw, (Hrow d Ht). unfold d1.
      rewrite (wallet_update _ _ _ (λ q, q + amount_quota env (session_topup env s))) by done.
      change (wallet d0 i) with (wallet db i). destruct (wallet db i); cbn; [|done]. f_equal.
      apply decide_ext. naive_solver. }
    wp_step. apply wp_credits; [auto with keeps|]. intros [u|e] d2 Ht2 Hw2; [|by split; [apply Hpaid|]].
    apply wp_credited. intros r d Ht Hw Hr. split; [apply Hpaid; [congruence|]; intros i; by rewrite Hw|].
    destruct r as [s'|]; [|done]. exists row. split_and!; [apply Hrow; congruence|done..].
Qed.

(** The session has succeeded, with the top-up of its order. *)
Definition paid_by_topup (s : LdxpTopupSession) (db : DB) : Prop :=
  ∃ t x, order_topup s db = Some t ∧ tu_UserId t = ls_UserId s ∧ tu_Status t = TopUpStatusSuccess ∧
    x ∈ rows (ldxp_topup_sessions db) ∧ ls_Id x = ls_Id s ∧ ls_Status x = LdxpStatusSuccess ∧ ls_TopupId x = tu_Id t.

Lemma persisted_row s f db x :
  x ∈ rows (ldxp_topup_sessions db) → ls_Id x = ls_Id s → f x ∈ rows (ldxp_topup_sessions (persist s f db).2).
Proof. intros Hx Hid. rewrite persist_run. apply elem_of_update_where. right. by exists x. Qed.

Lemma wp_deliver_topup env uuid s x db :
  x ∈ rows (ldxp_topup_sessions db) → ls_Id x = ls_Id s →
  wp (deliver_topup env uuid s) (λ r d, credited_once env s db d ∧ match r with
    | Ok (inl res) => lv_Redeemed res = true → paid_by_topup s d | Ok (inr _) => False | Err _ => True end) db.
Proof.
  intros Hx Hid. unfold deliver_topup. wp_step. wp_step. apply (wp_keeps ldxp_topup_sessions); [apply keeps_sessions_direct|].
  eapply wp_mono; [apply wp_direct|]. intros [s'|e] d [Hc Hr] Hd.
  - destruct Hr as (t & Ht & Hu & Hs & ->). rewrite <-Hd in Hx. unfold persistLdxpRedeemSuccessTx. wp_step.
    match goal with |- context [persist _ ?g] => set (f := g) end. unfold wp at 1.
    pose proof (persisted_row (s <| ls_TopupId := tu_Id t |>) f d x Hx Hid) as Hin. split; [exact Hc|].
    intros _. exists t, (f x). split_and!; done.
  - split; [exact Hc|]. done.
Qed.

Lemma wp_verify_topup env uuid s db :
  s ∈ rows (ldxp_topup_sessions db) → ls_Purpose s ≠ LdxpPurposeValuePackage →
  wp (verify_session env false uuid s None) (λ r d, credited_once env s db d ∧ match r with
    | Ok (inl res) => lv_Redeemed res = true → VerifyLdxpWorkerPaidFields s = None ∧
        rejectDuplicateSuccessfulLdxpSessionTx s None db = None ∧ paid_by_topup s d
    | Ok (inr _) => False | Err _ => True end) db.
Proof.
  intros Hs Hp. unfold verify_session. wp_step. wp_step. cbn [negb andb].
  assert (Hrefuse : ∀ r, credited_once env s db (refuse env s None r db).2) by (intros r; by apply credited_not).
  destruct (VerifyLdxpWorkerPaidFields s) as [r|]; [by split; [apply Hrefuse|]|].
  destruct (rejectDuplicateSuccessfulLdxpSessionTx s None db) as [r|]; [by split; [apply Hrefuse|]|].
  wp_step. unfold persistLdxpVerifiedTx. match goal with |- context [persist _ ?g] => set (f := g) end.
  unfold wp at 1. pose proof (persisted_row s f db s Hs eq_refl) as Hin. rewrite persist_run in *. cbn [fst snd] in *.
  rewrite decide_False by done. eapply wp_mono; [by apply (wp_deliver_topup _ _ _ (f s))|].
  intros r d [Hc Hr]. split; [exact Hc|]. destruct r as [[res|]|]; [|done|done]. intros Hres. split_and!; [done..|by apply Hr].
Qed.

(** The session that a verification is asked for. *)
Lemma wp_session env requireMail uuid sessionID s e (Q : result LdxpVerifyResult → DB → Prop) db :
  session_of (TrimSpace sessionID) db = Some s → isLdxpSessionAlreadyRedeemed s = false →
  (∀ err, Q (Err err) db) →
  wp (verify_session env requireMail uuid s e) (λ r d, match r with
    | Ok (inl res) => Q (Ok res) d
    | Ok (inr s') => wp (settleLdxpValuePackageSession env uuid s') Q d
    | Err err => Q (Err err) db end) db →
  wp (tryVerifyAndRedeemLdxpSession env requireMail uuid sessionID e) Q db.
Proof.
  intros Hs Hred HErr HQ. unfold tryVerifyAndRedeemLdxpSession. wp_guard as _; [apply HErr|]. wp_step. wp_step. wp_step.
  unfold getLdxpVerifySessionForUpdateTx. wp_guard as _; [apply HErr|]. wp_step. wp_step. rewrite TrimSpace_idem, Hs.
  apply wp_or_error; [|done]. intros ? [= <-]. rewrite Hred. eapply wp_mono; [exact HQ|].
  intros [[res|s']|err] d Hd; [by wp_step|done|done].
Qed.

(** C25: a paid session is worth its amount, once.  Without mails, the verification of a
    top-up session changes no wallet but that of its user, which grows by the worth of
    the session exactly if no top-up of that order existed and one does now, however the
    verification ends; and when it reports that the session is redeemed, the worker has
    reported a paid order of an acceptable amount, no session had succeeded with that
    order number, and the session has succeeded with the top-up of its order. *)
Theorem shop_topup_delivered env uuid sessionID s db r db' :
  orders_ok (ldxp_topup_sessions db) → session_of (TrimSpace sessionID) db = Some s →
  ls_Purpose s ≠ LdxpPurposeValuePackage → isLdxpSessionAlreadyRedeemed s = false →
  TryVerifyAndRedeemLdxpSession env false uuid sessionID db = (r, db') →
  credited_once env s db db' ∧
  ∀ res, r = Ok res → lv_Redeemed res = true →
    VerifyLdxpWorkerPaidFields s = None ∧ unpaid (ldxp_topup_sessions db) s ∧ paid_by_topup s db'.
Proof.
  intros Hok Hs Hp Hred Hrun. refine (wp_run _ (λ r d, credited_once env s db d ∧ ∀ res, r = Ok res → lv_Redeemed res = true →
    VerifyLdxpWorkerPaidFields s = None ∧ unpaid (ldxp_topup_sessions db) s ∧ paid_by_topup s d) _ _ _ _ Hrun).
  assert (Hsame : credited_once env s db db) by (by apply credited_not).
  pose proof Hs as [Hin _]%first_Some. apply (wp_session _ _ _ _ s); [done|done|done|].
  eapply wp_mono; [by apply wp_verify_topup|]. intros [[res|]|e] d [Hc Hr]; [|done|by split].
  split; [done|]. intros ? [= <-] Hres. destruct (Hr Hres) as (Hv & Hd & Hpaid). split_and!; [done| |done].
  apply (not_duplicate s None); [done|by apply not_redeemed_open|by eapply (verified_order s None); auto|done].
Qed.

(** *** Packages *)

(** Nothing but the table of sessions differs. *)
Definition but_sessions (db db' : DB) : Prop := ∃ t, db' = db <| ldxp_topup_sessions := t |>.

Lemma but_sessions_refl db : but_sessions db db.
Proof. exists (ldxp_topup_sessions db). by destruct db. Qed.
Lemma but_sessions_trans db1 db2 db3 : but_sessions db1 db2 → but_sessions db2 db3 → but_sessions db1 db3.
Proof. intros [t ->] [t' ->]. by exists t'. Qed.
Lemma persist_but s f db : but_sessions db (persist s f db).2.
Proof. rewrite persist_run. by eexists. Qed.

(** What a purchase needs to be delivered. *)
Record ready (env : Env) (db : DB) : Prop := {
  rs_accounting : Accounting db;
  rs_cards : cards_ok db;
  rs_orders : ∀ order, order ∈ rows (subscription_orders db) →
    sellable env db order ∧ order_by_trade_no (so_TradeNo order) db = Some order;
}.

Lemma ready_but env db db' : but_sessions db db' → ready env db → ready env db'.
Proof.
  intros [t ->] [Hacc Hok Hord]. split; [exact Hacc|by apply (cards_ext db)|]. intros order Ho.
  destruct (Hord order Ho) as [Hsell Ht]. split; [|exact Ht]. intros plan Hplan. destruct (Hsell plan Hplan) as [Hty Hfits].
  split; [done|]. destruct Hfits. by split.
Qed.

(** The order of a session and its completion, from [db] to [db'] but for sessions. *)
Definition package_delivered (env : Env) (s : LdxpTopupSession) (db db' : DB) : Prop :=
  ∃ order sub, by_id (ls_SubscriptionOrderId s) (subscription_orders db) = Some order ∧
    isLdxpLinkedValuePackageOrderMatch s order ∧
    (so_Status order = TopUpStatusSuccess ∧ completed_sub db order sub ∧ but_sessions db db' ∨
     so_Status order = TopUpStatusPending ∧ ∃ plan d d', but_sessions db d ∧ but_sessions d' db' ∧
       package_order_paid env d d' order "ldxp session verified" PaymentMethodLDXP plan sub).

Definition settled (env : Env) (s : LdxpTopupSession) (db : DB) (r : result LdxpVerifyResult) (db' : DB) : Prop :=
  but_sessions db db' ∧ (∀ res, r = Ok res → lv_Redeemed res = false) ∨
  r = Ok verify_success ∧ package_delivered env s db db'.

Lemma wp_linked s (Q : result SubscriptionOrder → DB → Prop) db :
  (∀ order, by_id (ls_SubscriptionOrderId s) (subscription_orders db) = Some order →
     isLdxpLinkedValuePackageOrderMatch s order → Q (Ok order) db) →
  (∀ e, Q (Err e) db) → wp (ldxpLinkedValuePackageOrder s) Q db.
Proof.
  intros HOk HErr. unfold ldxpLinkedValuePackageOrder. wp_guard as _; [apply HErr|]. wp_step. wp_step. wp_step.
  apply wp_or_error; [|intros; apply HErr]. intros order Ho. wp_guard as Hm%dec_stable; [apply HErr|]. wp_step. by apply HOk.
Qed.

Lemma wp_settle_package env uuid s db :
  ready env db → wp (settleLdxpValuePackageSession env uuid s) (settled env s db) db.
Proof.
  intros Hready. unfold settleLdxpValuePackageSession.
  assert (Hfail : ∀ msg, wp (_ ← persistLdxpRedeemFailureTx env s msg; mret (redeem_failure msg)) (settled env s db) db).
  { intros msg. left. split; [apply persist_but|]. by intros res [= <-]. }
  assert (Hsame : ∀ e, settled env s db (Err e) db).
  { intros e. left. split; [apply but_sessions_refl|done]. }
  wp_step. wp_step. wp_step. wp_step. apply wp_linked.
  2: { intros e. destruct (error_is e ErrRecordNotFound); [|destruct (error_is e _); [|wp_step; apply Hsame]];
         (left; split; [apply persist_but|]; by intros res [= <-]). }
  intros order Ho Hm. wp_step. wp_step. wp_step. pose proof Ho as [Hin _]%by_id_Some.
  destruct (rs_orders _ _ Hready order Hin) as [Hsell Htn]. destruct Hready as [Hacc Hok _].
  apply wp_package_order; [done|done|rewrite Htn; by intros ? [= <-]|..].
  - intros o plan sub d [_ Hn _] Hp Hpaid. rewrite Htn in Hn. injection Hn as <-. right. split; [done|].
    exists order, sub. split_and!; [done|done|]. right. split; [done|]. exists plan, db, d.
    split_and!; [apply but_sessions_refl|apply persist_but|done].
  - intros o sub [_ Hn _] Hs Hsub. rewrite Htn in Hn. injection Hn as <-. right. split; [done|].
    exists order, sub. split_and!; [done|done|]. left. split_and!; [done|done|apply persist_but].
  - intros e. destruct (isLdxpValuePackageSettlementBusinessError e); [apply Hfail|wp_step; apply Hsame].
Qed.

(** A session that is verified is of the same user, with the same order and card. *)
Record same_link (s s' : LdxpTopupSession) : Prop := {
  sl_purpose : ls_Purpose s' = ls_Purpose s;
  sl_user : ls_UserId s' = ls_UserId s;
  sl_card : ls_WorkerCardKey s' = ls_WorkerCardKey s;
  sl_id : ls_SubscriptionOrderId s' = ls_SubscriptionOrderId s;
  sl_order : ∀ order, isLdxpLinkedValuePackageOrderMatch s' order ↔ isLdxpLinkedValuePackageOrderMatch s order;
}.

Lemma mail_fields_linked s e x : same_link x (ldxpMailFieldsFromEvent s e x).
Proof.
  unfold ldxpMailFieldsFromEvent. destruct e as [e|]; [|done].
  destruct (le_MessageId e); repeat case_decide; destruct (_ && _); done.
Qed.

Lemma delivered_link env s s' db d db' :
  same_link s s' → but_sessions db d → package_delivered env s' d db' → package_delivered env s db db'.
Proof.
  intros [_ _ _ Hid Hm] Hd (order & sub & Ho & Hmatch & Hor). rewrite Hid in Ho. apply Hm in Hmatch. destruct Hd as [t ->].
  exists order, sub. split_and!; [exact Ho|exact Hmatch|]. destruct Hor as [(Hs & Hsub & [t' ->])|(Hp & plan & d & d' & [t' ->] & Hd' & Hpaid)].
  - left. split_and!; [done|exact Hsub|by exists t'].
  - right. split; [done|]. exists plan, (db <| ldxp_topup_sessions := t' |>), d'. split_and!; [by exists t'|done|done].
Qed.

Lemma wp_verify_package env requireMail uuid s e db :
  ls_Purpose s = LdxpPurposeValuePackage →
  wp (verify_session env requireMail uuid s e) (λ r d, but_sessions db d ∧ match r with
    | Ok (inl res) => lv_Redeemed res = false
    | Ok (inr s') => same_link s s' ∧ TrimSpace (ls_WorkerOrderNo s) ≠ "" ∧
        ∃ e', rejectDuplicateSuccessfulLdxpSessionTx s e' db = None
    | Err _ => False end) db.
Proof.
  intros Hp. unfold verify_session. wp_step. wp_step.
  destruct (if requireMail then _ else _) as [event found].
  destruct (negb found && _); [by wp_step; split; [apply but_sessions_refl|]|].
  destruct (if requireMail then _ else _) as [r|] eqn:Hv; [split; [apply persist_but|done]|].
  destruct (rejectDuplicateSuccessfulLdxpSessionTx s event db) as [r|] eqn:Hdup; [split; [apply persist_but|done]|].
  wp_step. unfold persistLdxpVerifiedTx. match goal with |- context [persist _ ?g] => set (f := g) end.
  unfold wp at 1. rewrite persist_run. cbn [fst snd].
  assert (Hlink : same_link s (f s)) by (by destruct (mail_fields_linked s event s)).
  rewrite decide_True by (by rewrite (sl_purpose _ _ Hlink)). wp_step. split; [by eexists|]. split_and!; [done| |by exists event].
  apply (verified_order s event). destruct requireMail; auto.
Qed.

(** C24: a package that was paid in the shop is delivered.  When the verification of a
    package session reports that it is redeemed, no session had succeeded with its order
    number, the order of the session is one of its user, plan and price, and that order
    is completed: the package is placed, with its reset cards, top-up and commission, as
    by any other payment, or had been before, and then nothing but sessions changes.
    When the verification ends otherwise, nothing but sessions changes. *)
Theorem shop_package_delivered env requireMail uuid sessionID e s db r db' :
  orders_ok (ldxp_topup_sessions db) → ready env db → session_of (TrimSpace sessionID) db = Some s →
  ls_Purpose s = LdxpPurposeValuePackage → isLdxpSessionAlreadyRedeemed s = false →
  tryVerifyAndRedeemLdxpSession env requireMail uuid sessionID e db = (r, db') →
  but_sessions db db' ∧ (∀ res, r = Ok res → lv_Redeemed res = false) ∨
  r = Ok verify_success ∧ unpaid (ldxp_topup_sessions db) s ∧ package_delivered env s db db'.
Proof.
  intros Hok Hready Hs Hp Hred Hrun. refine (wp_run _ (λ r d, but_sessions db d ∧ (∀ res, r = Ok res → lv_Redeemed res = false) ∨
    r = Ok verify_success ∧ unpaid (ldxp_topup_sessions db) s ∧ package_delivered env s db d) _ _ _ _ Hrun).
  pose proof (but_sessions_refl db). pose proof Hs as [Hin _]%first_Some.
  apply (wp_session _ _ _ _ s); [done|done|by left|].
  eapply wp_mono; [by apply wp_verify_package|]. intros [[res|s']|err] d [Hd Hr]; [| |done].
  { left. split; [done|]. by intros ? [= <-]. }
  destruct Hr as (Hlink & Hne & e' & Hdup). eapply wp_mono; [apply wp_settle_package; by eapply ready_but|].
  intros r' d' [[Hd' Hr]|[-> Hdel]]; [left; split; [by eapply but_sessions_trans|done]|].
  right. split_and!; [done| |by eapply delivered_link]. apply (not_duplicate s e'); [done|by apply not_redeemed_open|done|done].
Qed.

(** *** Codes *)

Lemma redeem_savepoint env uuid key userId db :
  transaction (RedeemWithTx env uuid key userId) db = Redeem env uuid key userId db.
Proof.
  unfold Redeem, RedeemWithTx, redeemWithTxResult, transaction, fail_if, mbind, M_bind, m_bind, mret, M_ret, throw.
  cbn. repeat (case_decide; cbn; [done|]). destruct (attempt _ db) as [[[[b x]|e]|e] d]; done.
Qed.

Lemma wp_redeem_card env uuid s (Q : result LdxpTopupSession → DB → Prop) db :
  (∀ res d, Redeem env uuid (TrimSpace (ls_WorkerCardKey s)) (ls_UserId s) db = (Ok res, d) →
     Q (Ok (s <| ls_RedemptionId := rm_Id (re_Redemption res) |> <| ls_TopupId := 0 |>)) d) →
  (∀ e, Q (Err e) db) → wp (transaction (RedeemLdxpSessionCardTx env uuid s)) Q db.
Proof.
  intros HOk HErr. unfold wp, RedeemLdxpSessionCardTx, transaction, mbind, M_bind, m_bind.
  pose proof (redeem_savepoint env uuid (TrimSpace (ls_WorkerCardKey s)) (ls_UserId s) db) as Hr. unfold transaction in Hr.
  destruct (RedeemWithTx env uuid _ _ db) as [[res|e] d]; [|apply HErr]. by apply HOk.
Qed.

(** The code of a session is redeemed for its user, but for changes of sessions; or that
    user has used it already. *)
Definition code_delivered (env : Env) (uuid : string) (s : LdxpTopupSession) (db db' : DB) : Prop :=
  (∃ d res d', but_sessions db d ∧ but_sessions d' db' ∧
     Redeem env uuid (TrimSpace (ls_WorkerCardKey s)) (ls_UserId s) d = (Ok res, d')) ∨
  but_sessions db db' ∧ ∃ x, code_by_key (TrimSpace (ls_WorkerCardKey s)) db = Some x ∧
    rd_Status x = RedemptionCodeStatusUsed ∧ rd_UsedUserId x = ls_UserId s.

Lemma wp_deliver_code env uuid s s' db d :
  same_link s s' → but_sessions db d →
  wp (deliver_code env uuid s') (λ r d', match r with
    | Ok (inl res) => res = verify_success ∧ code_delivered env uuid s db d' ∨ lv_Redeemed res = false ∧ but_sessions db d'
    | Ok (inr _) => False | Err _ => but_sessions db d' end) d.
Proof.
  intros [_ Hu Hc _ _] Hd. unfold deliver_code. wp_step. wp_step. apply wp_redeem_card.
  - rewrite Hu, Hc. intros res d' Hr. left. split; [done|]. left. exists d, res, d'. split_and!; [done|apply persist_but|done].
  - intros e. cbv zeta. wp_step. wp_step. destruct (error_is e ErrRedemptionUsed).
    2: { right. split; [done|]. eapply but_sessions_trans; [exact Hd|apply persist_but]. }
    destruct (recoverLdxpSameUserUsedRedemptionTx _ d) as [s2|] eqn:Hrec.
    2: { right. split; [done|]. eapply but_sessions_trans; [exact Hd|apply persist_but]. }
    left. split; [done|]. right. split; [eapply but_sessions_trans; [exact Hd|apply persist_but]|].
    unfold recoverLdxpSameUserUsedRedemptionTx in Hrec. cbn -[code_by_key] in Hrec. rewrite Hu, Hc in Hrec.
    case_decide; [done|]. destruct (code_by_key _ d) as [x|] eqn:Hx; [|done]. case_decide as Hused; [done|].
    exists x. destruct Hd as [t ->]. split; [exact Hx|]. split; apply dec_stable; tauto.
Qed.

Lemma verified_mail s event :
  VerifyLdxpSessionFields s event = None → ∃ mail, event = Some mail ∧
    TrimSpace (le_OrderNo mail) = TrimSpace (ls_WorkerOrderNo s) ∧ TrimSpace (le_CardKey mail) = TrimSpace (ls_WorkerCardKey s).
Proof.
  unfold VerifyLdxpSessionFields. cbv zeta. case_decide; [done|]. destruct event as [mail|]; [|done].
  repeat (case_decide; [done|]). intros _. exists mail. by split_and!.
Qed.

(** A card that was paid in the shop is redeemed for its buyer.  With mails, the
    verification of a top-up session that reports success had a mail of the shop with the
    order number and the card of the worker, no session had succeeded with that number,
    and either the code of the card was redeemed for the user of the session in this call
    or that user had used it before; when it ends otherwise, nothing but sessions
    changes. *)
Theorem shop_code_delivered env uuid sessionID e s db r db' :
  orders_ok (ldxp_topup_sessions db) → session_of (TrimSpace sessionID) db = Some s →
  ls_Purpose s ≠ LdxpPurposeValuePackage → isLdxpSessionAlreadyRedeemed s = false →
  tryVerifyAndRedeemLdxpSession env true uuid sessionID e db = (r, db') →
  but_sessions db db' ∧ (∀ res, r = Ok res → lv_Redeemed res = false) ∨
  r = Ok verify_success ∧ unpaid (ldxp_topup_sessions db) s ∧ code_delivered env uuid s db db' ∧
  ∃ mail, (getLdxpVerifyMailEventTx s e db).1 = Some mail ∧
    TrimSpace (le_OrderNo mail) = TrimSpace (ls_WorkerOrderNo s) ∧ TrimSpace (le_CardKey mail) = TrimSpace (ls_WorkerCardKey s).
Proof.
  intros Hok Hs Hp Hred Hrun. refine (wp_run _ (λ r d, but_sessions db d ∧ (∀ res, r = Ok res → lv_Redeemed res = false) ∨
    r = Ok verify_success ∧ unpaid (ldxp_topup_sessions db) s ∧ code_delivered env uuid s db d ∧
    ∃ mail, (getLdxpVerifyMailEventTx s e db).1 = Some mail ∧ TrimSpace (le_OrderNo mail) = TrimSpace (ls_WorkerOrderNo s) ∧
      TrimSpace (le_CardKey mail) = TrimSpace (ls_WorkerCardKey s)) _ _ _ _ Hrun).
  pose proof (but_sessions_refl db) as Hsame. apply (wp_session _ _ _ _ s); [done|done|by left|]. unfold verify_session. wp_step. wp_step.
  destruct (getLdxpVerifyMailEventTx s e db) as [event found] eqn:Hev. cbn [fst].
  destruct (negb found && _); [wp_step; left; split; [done|]; by intros ? [= <-]|].
  assert (Hrefuse : ∀ rf, wp (refuse env s event rf) (λ r d, ∃ res, r = Ok (inl res) ∧ lv_Redeemed res = false ∧ but_sessions db d) db).
  { intros rf. eexists. split_and!; [done|done|apply persist_but]. }
  destruct (VerifyLdxpSessionFields s event) as [rf|] eqn:Hv.
  { eapply wp_mono; [apply Hrefuse|]. intros ? d (res & -> & Hres & Hd). left. split; [done|]. by intros ? [= <-]. }
  destruct (rejectDuplicateSuccessfulLdxpSessionTx s event db) as [rf|] eqn:Hdup.
  { eapply wp_mono; [apply Hrefuse|]. intros ? d (res & -> & Hres & Hd). left. split; [done|]. by intros ? [= <-]. }
  wp_step. unfold persistLdxpVerifiedTx. match goal with |- context [persist _ ?g] => set (f := g) end.
  unfold wp at 1. rewrite persist_run. cbn [fst snd].
  assert (Hlink : same_link s (f s)) by (by destruct (mail_fields_linked s event s)).
  rewrite decide_False by (by rewrite (sl_purpose _ _ Hlink)).
  eapply wp_mono; [eapply (wp_deliver_code _ _ s (f s) db); [done|by eexists]|].
  intros [[res|]|err] d Hr; [|done|by left]. destruct Hr as [[-> Hdel]|[Hres Hd]]; [|left; split; [done|]; by intros ? [= <-]].
  right. split_and!; [done| |done|].
  - apply (not_duplicate s event); [done|apply not_redeemed_open; [by apply first_Some in Hs as [? _]|done]| |done].
    apply (verified_order s event). by left.
  - apply verified_mail in Hv as (mail & -> & Ho & Hc). by exists mail.
Qed.
End Runs.

(** ** Examples *)

(** Two users buy ten units each; the second worker reports the order of the first. *)
Definition ten_cfg : LdxpConfig := mkLdxpConfig true {[ 10 := mkProduct 10000000 "https://shop/10" "ten" ]} 600.
Definition ten_db : DB := empty_DB <| users := Table [example_user 1 100 0 0; example_user 2 0 0 0] 3 |>.
Definition ten_paid (sessionID uuid orderNo : string) : list shop_op :=
  [op_claim topup_env "w" ten_cfg;
   op_qr topup_env sessionID (mkQr "w" orderNo (float_of_int 10) "https://qr" "https://page");
   op_result topup_env false uuid sessionID (mkWorkerResult "w" orderNo (float_of_int 10) "" "已付款")].
Definition ten_ops : list shop_op :=
  [op_topup topup_env "S1" 1 10 ten_cfg] ++ ten_paid "S1" "0-1" "N1" ++
  [op_topup topup_env "S2" 2 10 ten_cfg] ++ ten_paid "S2" "0-2" " N1 ".
Definition ten_done : DB := run_shop (D := fixed_decimals) ten_ops ten_db.

Example order_paid_once_witness :
  ls_Status <$> rows (ldxp_topup_sessions ten_done) = [LdxpStatusSuccess; LdxpStatusVerifyFailed] ∧
  wallet ten_done 1 = Some 5000100 ∧ wallet ten_done 2 = Some 0 ∧
  ∀ s1 s2, s1 ∈ rows (ldxp_topup_sessions ten_done) → s2 ∈ rows (ldxp_topup_sessions ten_done) →
    ls_Status s1 = LdxpStatusSuccess → ls_Status s2 = LdxpStatusSuccess → ls_WorkerOrderNo s1 = ls_WorkerOrderNo s2 → s1 = s2.
Proof.
  split; [vm_compute; reflexivity|]. split; [vm_compute; reflexivity|]. split; [vm_compute; reflexivity|].
  apply (order_paid_once (D := fixed_decimals) ten_ops ten_db).
  split; [split_and!; repeat constructor|constructor|]. intros s1 s2 H1. by apply not_elem_of_nil in H1.
Defined.

(** A session whose order was paid, and what its verification does. *)
Definition paid_session (id : Z) (sessionID purpose : string) (amount money orderId : Z) : LdxpTopupSession :=
  mkSession id sessionID 1 amount money "" "" purpose orderId 2 true LdxpStatusWorkerPaid "w" "" "" "N1"
    (money_float money) "" "已付款" "" "" float_zero "" 0 0 0 0 "" "" 900 900 99999 "" 0.
Definition ten_session : LdxpTopupSession := paid_session 1 "S1" LdxpPurposeTopup 10 10000000 0.
Definition ten_ready : DB := ten_db <| ldxp_topup_sessions := Table [ten_session] 2 |>.
Definition ten_run : result LdxpVerifyResult * DB :=
  TryVerifyAndRedeemLdxpSession (D := fixed_decimals) topup_env false "0-1" "S1" ten_ready.

Lemma one_order s n : TrimSpace (ls_WorkerOrderNo s) = ls_WorkerOrderNo s → 0 < ls_Id s < n → orders_ok (Table [s] n).
Proof.
  intros Ht Hn. split; [split_and!; [repeat constructor|repeat constructor; cbn; lia|cbn; lia]|by repeat constructor|].
  cbn. intros s1 s2 ->%list_elem_of_singleton ->%list_elem_of_singleton. done.
Qed.

Example shop_topup_delivered_witness : wallet ten_run.2 1 = Some 5000100 ∧ paid_by_topup ten_session ten_run.2.
Proof.
  destruct (shop_topup_delivered (D := fixed_decimals) topup_env "0-1" "S1" ten_session ten_ready ten_run.1 ten_run.2)
    as [Hc Hr].
  - apply one_order; vm_compute; done.
  - vm_compute. reflexivity.
  - discriminate.
  - vm_compute. reflexivity.
  - unfold ten_run. apply surjective_pairing.
  - split; [rewrite (Hc 1); vm_compute; reflexivity|].
    destruct (Hr verify_success) as (_ & _ & Hp); [vm_compute; reflexivity|reflexivity|exact Hp].
Defined.

(** A session with a card whose mail has arrived. *)
Definition card_session : LdxpTopupSession := ten_session <| ls_WorkerCardKey := "K1" |>.
Definition card_db : DB :=
  codes_db <| ldxp_topup_sessions := Table [card_session] 2 |>
    <| ldxp_mail_events := Table [mkMail 1 None "h" "N1" (float_of_int 10) "K1" 900 "S1" true 900] 2 |>.
Definition card_run : result LdxpVerifyResult * DB :=
  tryVerifyAndRedeemLdxpSession (D := fixed_decimals) cards_env true "0-1" "S1" None card_db.

Example shop_code_delivered_witness :
  code_delivered (D := fixed_decimals) cards_env "0-1" card_session card_db card_run.2 ∧
  wallet card_run.2 1 = wallet (redeem_run "K1").2 1.
Proof.
  split; [|vm_compute; reflexivity].
  destruct (shop_code_delivered (D := fixed_decimals) cards_env "0-1" "S1" None card_session card_db card_run.1 card_run.2)
    as [[_ Hno]|(_ & _ & Hdel & _)].
  - apply one_order; vm_compute; done.
  - vm_compute. reflexivity.
  - discriminate.
  - vm_compute. reflexivity.
  - unfold card_run. apply surjective_pairing.
  - specialize (Hno verify_success). vm_compute in Hno. by specialize (Hno eq_refl).
  - exact Hdel.
Defined.

(** A session for the month package of [Orders.v], and a second one. *)
Definition month_session (id : Z) (sessionID : string) : LdxpTopupSession :=
  paid_session id sessionID LdxpPurposeValuePackage 0 99000000 id.
Definition month_db : DB := ordered_db <| ldxp_topup_sessions := Table [month_session 1 "S1"] 2 |>.
Definition month_run (sessionID : string) (db : DB) : result LdxpVerifyResult * DB :=
  tryVerifyAndRedeemLdxpSession (D := fixed_decimals) cards_env false "0-1" sessionID None db.

Lemma month_ready : ready cards_env month_db.
Proof.
  split; [apply shop_accounting|apply (cards_ext (shop_db 1)); [done|done|apply shop_cards]|].
  intros order ->%list_elem_of_singleton. split; [|done]. intros plan Hplan.
  destruct (ordered_sellable package_order eq_refl plan Hplan) as [Ht Hf]. split; [done|]. destruct Hf. by split.
Qed.

Example shop_package_delivered_witness :
  package_delivered cards_env (month_session 1 "S1") month_db (month_run "S1" month_db).2.
Proof.
  destruct (shop_package_delivered (D := fixed_decimals) cards_env false "0-1" "S1" None (month_session 1 "S1") month_db
    (month_run "S1" month_db).1 (month_run "S1" month_db).2) as [[_ Hno]|(_ & _ & Hdel)].
  - apply one_order; vm_compute; done.
  - exact month_ready.
  - vm_compute. reflexivity.
  - reflexivity.
  - vm_compute. reflexivity.
  - unfold month_run. apply surjective_pairing.
  - specialize (Hno verify_success). vm_compute in Hno. by specialize (Hno eq_refl).
  - exact Hdel.
Defined.

(** Two sessions of one user for the same order of the shop. *)
Definition twice_db : DB :=
  month_db <| subscription_orders := Table [package_order; package_order <| so_Id := 2 |> <| so_TradeNo := "V2" |>] 3 |>
           <| ldxp_topup_sessions := Table [month_session 1 "S1"; month_session 2 "S2"] 3 |>.
Definition twice_once : DB := (month_run "S1" twice_db).2.
Definition twice_checked : DB := (markFetchFailed cards_env "timeout" (month_session 1 "S1") twice_once).2.

(** The administrator's check of mails undoes that protection.  A session was paid
    out; a second one with the same order number is refused.  But after an attempt to
    check the mails of the first, during which the mailbox could not be read, the first
    is not successful any more, and the second is paid out as well: the user has the
    reset cards of two purchases for one payment. *)
Theorem mail_check_pays_twice :
  (month_run "S1" twice_db).1 = Ok verify_success ∧
  (lv_ErrorCode <$> match (month_run "S2" twice_once).1 with Ok r => Some r | Err _ => None end) = Some "duplicate_order" ∧
  cards (month_run "S2" twice_once).2 1 = 7 ∧
  (month_run "S2" twice_checked).1 = Ok verify_success ∧ cards (month_run "S2" twice_checked).2 1 = 12.
Proof. repeat split; vm_compute; reflexivity. Qed.
