(* ===== verification/System.v ===== *)
(** * The billing system as a whole

    Every operation of the billing as one labelled transition, and the invariants
    of all its runs: whatever requests, payments, purchases, redemptions, card
    movements, withdrawals, cancellations and background tasks come, in whatever
    order, the accounting of the value packages, the ledger of the reset cards and
    the register of commissions stay right. *)
From S2P Require Import Prelude Tables GoFloat GoTime Schema Plans Windows Cycles Consume Accounting Ledger Preferences Cards Purchases Lifecycle Topups Svip Affiliates Orders Redemptions.

(** ** Frames *)

(** What the ledger of the reset cards and the register of commissions depend on. *)
Definition card_tables (db : DB) :=
  (value_package_preferences db, reset_count_ledgers db, affiliate_commissions db).

(** What the accounting and the register of commissions depend on. *)
Definition book_tables (db : DB) :=
  (subscription_plans db, user_subscriptions db, usage_records db, pre_consume_records db, affiliate_commissions db).

Lemma card_tables_ok db db' :
  card_tables db' = card_tables db → cards_ok db ∧ commissions_ok db → cards_ok db' ∧ commissions_ok db'.
Proof. intros [= Hp Hl Hc] [Hok Hco]. split; [by apply (cards_ext db)|by apply (commissions_ext db)]. Qed.

Lemma book_tables_ok {B : PostBilled} db db' : book_tables db' = book_tables db → Accounting db → Accounting db'.
Proof. intros [= Hp Hs Hu Hr _]. unfold Accounting. by rewrite Hp, Hs, Hu, Hr. Qed.

Lemma keeps_advance env sub plan now : keeps card_tables (maybeAdvanceValuePackageCycleTx env sub plan now).
Proof. unfold maybeAdvanceValuePackageCycleTx, create_quota_reset, save_subscription. keeps_solve. Qed.
#[export] Hint Resolve keeps_advance : keeps.

Lemma keeps_reset env sub plan now : keeps card_tables (maybeResetUserSubscriptionWithPlanTx env sub plan now).
Proof. unfold maybeResetUserSubscriptionWithPlanTx, save_subscription. keeps_solve. Qed.
#[export] Hint Resolve keeps_reset : keeps.

Lemma keeps_candidates env now req userId amount subs :
  keeps card_tables (pre_consume_candidates env now req userId amount subs).
Proof.
  induction subs as [|s subs IH]; cbn [pre_consume_candidates]; keeps_solve; try exact IH.
  all: unfold create_pre_consume_unique, create_pre_consume, save_subscription; keeps_solve.
Qed.
#[export] Hint Resolve keeps_candidates : keeps.

Lemma keeps_replay {B} (π : DB → B) existing : keeps π (replay_result existing).
Proof. unfold replay_result. keeps_solve. Qed.
#[export] Hint Resolve keeps_replay : keeps.

Lemma keeps_lock env now userId id : keeps card_tables (lock_active_package env now userId id).
Proof. unfold lock_active_package. keeps_solve. Qed.
#[export] Hint Resolve keeps_lock : keeps.

Lemma keeps_preconsume_package env req userId id amount :
  keeps card_tables (PreConsumeValuePackageSubscription env req userId id amount).
Proof.
  unfold PreConsumeValuePackageSubscription, create_pre_consume_unique, create_pre_consume,
    recordValuePackageUsageTx, save_subscription. keeps_solve.
Qed.

Lemma keeps_preconsume_user env req userId amount :
  keeps card_tables (PreConsumeUserSubscription env req userId amount).
Proof. unfold PreConsumeUserSubscription. keeps_solve. Qed.

Lemma keeps_reserve env req userId id target :
  keeps card_tables (ReserveValuePackageUsageToTarget env req userId id target).
Proof.
  unfold ReserveValuePackageUsageToTarget, recordValuePackageUsageTx, save_subscription,
    save_pre_consume, check_reserve_limits, getLastValuePackageQuotaResetAtTx. keeps_solve.
Qed.

Lemma keeps_refund env req : keeps card_tables (RefundSubscriptionPreConsume env req).
Proof.
  unfold RefundSubscriptionPreConsume, revokeValuePackageUsageReservationTx, save_pre_consume,
    postConsumeUserSubscriptionDeltaTx, save_subscription. keeps_solve.
Qed.

Lemma keeps_post_consume env id delta : keeps card_tables (PostConsumeUserSubscriptionDelta env id delta).
Proof.
  unfold PostConsumeUserSubscriptionDelta, postConsumeUserSubscriptionDeltaTx, save_subscription. keeps_solve.
Qed.

Lemma keeps_cleanup env secs : keeps card_tables (CleanupSubscriptionPreConsumeRecords env secs).
Proof. unfold CleanupSubscriptionPreConsumeRecords. keeps_solve. Qed.

Lemma keeps_reset_loop env now subs count : keeps card_tables (reset_due_loop env now subs count).
Proof.
  revert count. induction subs as [|s subs IH]; intros count; cbn [reset_due_loop]; unfold reset_due_one;
    keeps_solve; apply IH.
Qed.
#[export] Hint Resolve keeps_reset_loop : keeps.

Lemma keeps_reset_due env limit : keeps card_tables (ResetDueSubscriptions env limit).
Proof. unfold ResetDueSubscriptions. keeps_solve. Qed.

(** ** Preferences *)

Lemma keeps_upsert env userId enabled id :
  keeps book_tables (upsertValuePackagePreferenceTx env userId enabled id).
Proof. unfold upsertValuePackagePreferenceTx, create_preference. keeps_solve. Qed.
Lemma preserves_upsert env userId enabled id :
  preserves cards_ok (upsertValuePackagePreferenceTx env userId enabled id).
Proof.
  apply wp_preserves. intros db Hok. apply wp_upsert_preference. intros pref db' Hk _ _. by apply Hk.
Qed.
#[export] Hint Resolve keeps_upsert preserves_upsert : keeps.

Lemma keeps_package_state {B} (π : DB → B) env userId pref sub plan usage now :
  keeps π (package_state env userId pref sub plan usage now).
Proof. unfold package_state. keeps_solve. Qed.
#[export] Hint Resolve keeps_package_state : keeps.

Lemma keeps_load env userId usage : keeps book_tables (loadValuePackageStateTx env userId usage).
Proof. unfold loadValuePackageStateTx. keeps_solve. Qed.
Lemma preserves_load env userId usage : preserves cards_ok (loadValuePackageStateTx env userId usage).
Proof. unfold loadValuePackageStateTx. preserves_solve. Qed.
#[export] Hint Resolve keeps_load preserves_load : keeps.

Lemma keeps_activate env userId id : keeps book_tables (ActivateValuePackage env userId id).
Proof. unfold ActivateValuePackage. keeps_solve. Qed.
Lemma preserves_activate env userId id : preserves cards_ok (ActivateValuePackage env userId id).
Proof. unfold ActivateValuePackage. preserves_solve. Qed.

Lemma keeps_deactivate env userId : keeps book_tables (DeactivateValuePackage env userId).
Proof. unfold DeactivateValuePackage, getValuePackageStateTx. keeps_solve. Qed.
Lemma preserves_deactivate env userId : preserves cards_ok (DeactivateValuePackage env userId).
Proof. unfold DeactivateValuePackage, getValuePackageStateTx. preserves_solve. Qed.

Lemma keeps_ensure env userId : keeps book_tables (ensureValuePackagePreferenceForUpdateTx env userId).
Proof. unfold ensureValuePackagePreferenceForUpdateTx, create_preference. keeps_solve. Qed.
Lemma preserves_ensure env userId : preserves cards_ok (ensureValuePackagePreferenceForUpdateTx env userId).
Proof.
  apply wp_preserves. intros db Hok. apply wp_ensure_preference; [|done]. intros pref db' Hk _ _ _. by apply Hk.
Qed.
#[export] Hint Resolve keeps_ensure preserves_ensure : keeps.

Lemma keeps_fallback env userId enabled : keeps book_tables (UpdateValuePackageWalletFallback env userId enabled).
Proof.
  unfold UpdateValuePackageWalletFallback, getValuePackageStateTx, ensureExistingUserForUpdateTx,
    update_preference. keeps_solve.
Qed.
Lemma preserves_fallback env userId enabled :
  preserves cards_ok (UpdateValuePackageWalletFallback env userId enabled).
Proof.
  unfold UpdateValuePackageWalletFallback, getValuePackageStateTx, ensureExistingUserForUpdateTx.
  preserves_solve. intros db Hok. by apply keeps_cards_update.
Qed.

(** ** Cancellations and orders *)

Lemma keeps_downgrade sub now : keeps book_tables (downgradeUserGroupForSubscriptionTx sub now).
Proof. unfold downgradeUserGroupForSubscriptionTx, getUserGroupByIdTx, set_user_group. keeps_solve. Qed.
Lemma keeps_downgrade_cards sub now : keeps card_tables (downgradeUserGroupForSubscriptionTx sub now).
Proof. unfold downgradeUserGroupForSubscriptionTx, getUserGroupByIdTx, set_user_group. keeps_solve. Qed.
#[export] Hint Resolve keeps_downgrade keeps_downgrade_cards : keeps.

Lemma preserves_downgrade {B : PostBilled} sub now : preserves Accounting (downgradeUserGroupForSubscriptionTx sub now).
Proof. eapply keeps_preserves; [apply book_tables_ok|apply keeps_downgrade]. Qed.
#[export] Hint Resolve preserves_downgrade : keeps.

Lemma preserves_invalidate {B : PostBilled} env id : preserves Accounting (AdminInvalidateUserSubscription env id).
Proof.
  apply wp_preserves. intros db Hacc. unfold AdminInvalidateUserSubscription.
  wp_guard as _; [done|]. wp_step. wp_step. wp_step. wp_step. wp_step. apply wp_or_error; [|done].
  intros s [Hs _]%by_id_Some. wp_step. wp_step. set (s' := s <| us_Status := _ |> <| us_EndTime := _ |> <| us_UpdatedAt := _ |>).
  eapply wp_mono; [apply (preserves_wp Accounting); [auto with keeps|]|].
  - apply (accounting_save _ _ _ _ s); [exact Hacc|done|split; cbn; [done|done|lia]|].
    apply (sub_ok_keeps _ _ (λ x, x <| us_Status := UserSubscriptionStatusCancelled |>
      <| us_EndTime := app_now env |> <| us_UpdatedAt := app_now env |>)); [by split|exact (sub_of db s Hacc Hs)].
  - intros [t|e] db' Hdb'; [by wp_step|done].
Qed.

Lemma keeps_invalidate env id : keeps card_tables (AdminInvalidateUserSubscription env id).
Proof. unfold AdminInvalidateUserSubscription. keeps_solve. Qed.

Lemma preserves_delete {B : PostBilled} env id : preserves Accounting (AdminDeleteUserSubscription env id).
Proof.
  unfold AdminDeleteUserSubscription. preserves_solve.
  intros db Hacc. by apply accounting_delete.
Qed.

Lemma keeps_delete env id : keeps card_tables (AdminDeleteUserSubscription env id).
Proof. unfold AdminDeleteUserSubscription. keeps_solve. Qed.

Lemma keeps_expire_order env tradeNo provider :
  keeps (λ db, (book_tables db, card_tables db)) (ExpireSubscriptionOrder env tradeNo provider).
Proof. unfold ExpireSubscriptionOrder, save_order. keeps_solve. Qed.

(** ** Commissions *)

Lemma keeps_adjust_commissions env userId mode value reason admin :
  keeps affiliate_commissions (AdjustValuePackageResetCount env userId mode value reason admin).
Proof.
  unfold AdjustValuePackageResetCount, ensureExistingUserForUpdateTx, ensureValuePackagePreferenceForUpdateTx,
    create_preference, set_reset_count, update_preference, create_ledger. keeps_solve.
Qed.

Lemma keeps_spend_commissions env userId id resetAt actor note :
  keeps affiliate_commissions (ConsumeValuePackageResetCount env userId id resetAt actor note).
Proof.
  unfold ConsumeValuePackageResetCount, ensureValuePackagePreferenceForUpdateTx, create_preference,
    create_quota_reset, create_ledger, save_subscription. keeps_solve.
Qed.

Lemma keeps_purchase_commissions env userId plan source :
  keeps affiliate_commissions (CreateValuePackageSubscriptionFromPlanTx env userId plan source).
Proof. exact (keeps_part (λ '(_, _, _, _, _, _, _, _, c, _, _, _), c) _ _ (keeps_purchase env userId plan source)). Qed.
Lemma keeps_regular_commissions env userId plan source :
  keeps affiliate_commissions (CreateUserSubscriptionFromPlanTx env userId plan source).
Proof. exact (keeps_part fst _ _ (keeps_create_regular env userId plan source)). Qed.
Lemma keeps_vip_commissions userId : keeps affiliate_commissions (MaybeUpgradeUserToVIPTx userId).
Proof. exact (keeps_part (λ '(_, c, _, _), c) _ _ (keeps_vip userId)). Qed.
Lemma keeps_topup_commissions env order : keeps affiliate_commissions (upsertSubscriptionTopUpTx env order).
Proof. exact (keeps_part snd _ _ (keeps_upsert_topup env order)). Qed.
#[export] Hint Resolve keeps_purchase_commissions keeps_regular_commissions keeps_vip_commissions keeps_topup_commissions : keeps.

Lemma keeps_order_commissions env tradeNo payload provider method :
  keeps affiliate_commissions (CompleteSubscriptionOrder env tradeNo payload provider method).
Proof. unfold CompleteSubscriptionOrder, save_order. keeps_solve. Qed.

Lemma keeps_balance_commissions {D : Decimals} env tradeNo userId planId :
  keeps affiliate_commissions (PurchaseSubscriptionWithBalance env tradeNo userId planId).
Proof. unfold PurchaseSubscriptionWithBalance, create_order. keeps_solve. Qed.

Lemma keeps_bind_commissions env userId planId :
  keeps affiliate_commissions (AdminBindSubscription env userId planId).
Proof. unfold AdminBindSubscription. keeps_solve. Qed.

Lemma keeps_expire_users_commissions env now ids count :
  keeps affiliate_commissions (expire_users env now ids count).
Proof.
  revert count. induction ids as [|u ids IH]; intros count; cbn [expire_users]; [keeps_solve|].
  apply keeps_bind; [|auto]. unfold expire_user, getUserGroupByIdTx, set_user_group. keeps_solve.
Qed.

Lemma keeps_expire_commissions env shuffle limit :
  keeps affiliate_commissions (ExpireDueSubscriptions env shuffle limit).
Proof.
  unfold ExpireDueSubscriptions. cbv zeta. apply keeps_bind; [keeps_solve|]. intros db.
  apply keeps_expire_users_commissions.
Qed.

Section System.
Context {D : Decimals} (SUM : list float64 → float64) {B : PostBilled}.

Lemma preserves_commission env uuid t :
  preserves commissions_ok (MaybeCreateAffiliateCommissionForTopUpTx env uuid t).
Proof.
  apply wp_preserves. intros db Hok. apply wp_commission; [|done]. intros db' Hs. by eapply commission_step_ok.
Qed.
#[local] Hint Resolve preserves_commission keeps_commission : keeps.

(** ** The transition system *)

Inductive billing_op :=
| PreConsumePackage (requestId : string) (userId subId amount : Z)
| PreConsumeUser (requestId : string) (userId amount : Z)
| Reserve (requestId : string) (userId subId target : Z)
| Refund (requestId : string)
| PostConsume (subId delta : Z)
| Cleanup (olderThanSeconds : Z)
| ResetDue (limit : Z)
| ShowState (userId : Z)
| Activate (userId subId : Z)
| Deactivate (userId : Z)
| WalletFallback (userId : Z) (enabled : bool)
| AdjustCards (userId : Z) (mode : string) (value : Z) (reason : string) (admin : Z)
| SpendCard (userId subId resetAt actor : Z) (note : string)
| BuyPackage (userId : Z) (plan : SubscriptionPlan) (source : string)
| CompleteOrder (tradeNo payload provider method : string)
| ExpireOrder (tradeNo provider : string)
| BuyWithBalance (tradeNo : string) (userId planId : Z)
| Bind (userId planId : Z)
| Invalidate (subId : Z)
| DeleteSubscription (subId : Z)
| ExpireDue (shuffle : list Z → list Z) (limit : Z)
| CompleteTopUp (uuid tradeNo : string) (by_ : recharge_op)
| TopUpStatus (tradeNo provider status : string)
| CreditUser (userId quota cents : Z)
| CompletePackageOrder (uuid tradeNo payload provider method : string) (confirmed : bool)
| RedeemCode (uuid key : string) (userId : Z)
| DeleteCode (id : Z)
| DeleteInvalidCodes
| ExportCodes (batchId : string) (exportedTime : Z)
| CreateCode (code : Redemption)
| EditCode (code : Redemption)
| SetCodeStatus (code : Redemption)
| Withdraw (by_ : withdrawal_op)
| ReconcileTopUps.

(** The call an operation makes, its result dropped. *)
Definition call {A} (m : Tx A) : Tx () := _ ← m; mret tt.

Definition run_op (env : Env) (op : billing_op) : Tx () :=
  match op with
  | PreConsumePackage req userId id amount =>
    call (PreConsumeValuePackageSubscription env req userId id amount)
  | PreConsumeUser req userId amount => call (PreConsumeUserSubscription env req userId amount)
  | Reserve req userId id target => call (ReserveValuePackageUsageToTarget env req userId id target)
  | Refund req => RefundSubscriptionPreConsume env req
  | PostConsume id delta => PostConsumeUserSubscriptionDelta env id delta
  | Cleanup seconds => call (CleanupSubscriptionPreConsumeRecords env seconds)
  | ResetDue limit => call (ResetDueSubscriptions env limit)
  | ShowState userId => call (getValuePackageStateTx env userId)
  | Activate userId id => call (ActivateValuePackage env userId id)
  | Deactivate userId => call (DeactivateValuePackage env userId)
  | WalletFallback userId enabled => call (UpdateValuePackageWalletFallback env userId enabled)
  | AdjustCards userId mode value reason admin =>
    call (AdjustValuePackageResetCount env userId mode value reason admin)
  | SpendCard userId id resetAt actor note =>
    call (ConsumeValuePackageResetCount env userId id resetAt actor note)
  | BuyPackage userId plan source =>
    call (transaction (CreateValuePackageSubscriptionFromPlanTx env userId plan source))
  | CompleteOrder tradeNo payload provider method =>
    CompleteSubscriptionOrder env tradeNo payload provider method
  | ExpireOrder tradeNo provider => ExpireSubscriptionOrder env tradeNo provider
  | BuyWithBalance tradeNo userId planId => PurchaseSubscriptionWithBalance env tradeNo userId planId
  | Bind userId planId => call (AdminBindSubscription env userId planId)
  | Invalidate id => call (AdminInvalidateUserSubscription env id)
  | DeleteSubscription id => call (AdminDeleteUserSubscription env id)
  | ExpireDue shuffle limit => call (ExpireDueSubscriptions env shuffle limit)
  | CompleteTopUp uuid tradeNo by_ => recharge env uuid tradeNo by_
  | TopUpStatus tradeNo provider status => UpdatePendingTopUpStatus tradeNo provider status
  | CreditUser userId quota cents => IncreaseUserQuotaAndValidTopupCents userId quota cents
  | CompletePackageOrder uuid tradeNo payload provider method confirmed =>
    call (CompleteValuePackageOrder env uuid tradeNo payload provider method confirmed)
  | RedeemCode uuid key userId => call (Redeem env uuid key userId)
  | DeleteCode id => DeleteRedemptionById id
  | DeleteInvalidCodes => call (DeleteInvalidRedemptions env)
  | ExportCodes batchId exportedTime => MarkRedemptionsExported batchId exportedTime
  | CreateCode code => insert_redemption code
  | EditCode code => update_redemption code
  | SetCodeStatus code => SelectUpdate code
  | Withdraw by_ => call (run_withdrawal SUM env by_)
  | ReconcileTopUps => backfillUserValidTopupCents env
  end.

(** What the callers of the operations guarantee: amounts that fit a 64-bit
    integer; a request key that, once its record is cleaned up, is not used for the
    same package again; no reservation of a refunded request (the session refuses
    it); stored plans of a known type, on sale when they are sold. *)
Definition allowed (env : Env) (db : DB) (op : billing_op) : Prop :=
  match op with
  | PreConsumePackage req userId id amount =>
    room db id amount ∧ (pre_consume_of req db = None → usage_of id req db = None)
  | PreConsumeUser req userId amount => user_room db userId amount
  | Reserve req userId id target =>
    room db id target ∧ ∀ p, pre_consume_of req db = Some p → pc_Status p ≠ "refunded"
  | PostConsume id delta =>
    ∀ s, by_id id (user_subscriptions db) = Some s → in_int64 (us_AmountUsed s + delta)
  | AdjustCards userId _ value _ _ => cards db userId + value ≤ max_int64
  | BuyPackage userId plan _ =>
    on_sale db (normalizeValuePackagePlan plan) ∧
    purchase_fits env db userId (normalizeValuePackagePlan plan)
  | CompleteOrder _ _ _ _ | BuyWithBalance _ _ _ | Bind _ _ => plans_typed db
  | ExpireDue shuffle _ => ∀ l, shuffle l ≡ₚ l
  | CompletePackageOrder _ tradeNo _ _ _ _ =>
    ∀ order, order_by_trade_no tradeNo db = Some order → sellable env db order
  | RedeemCode _ key userId =>
    cards db userId + MaxRedemptionResetCardCount ≤ max_int64 ∧
    ∀ r, code_by_key key db = Some r → redeemable env db userId r
  | _ => True
  end.

(** The runs: any operations, in any order, each with its own clocks. *)
Inductive billing_run : list billing_op → DB → DB → Prop :=
| run_nil db : billing_run [] db db
| run_cons env op ops db1 r db2 db3 :
    allowed env db1 op → run_op env op db1 = (r, db2) → billing_run ops db2 db3 →
    billing_run (op :: ops) db1 db3.

(** The subscriptions a run moves without a usage record: those an asynchronous
    task or a plain settlement bills after the fact. *)
Definition posted_by (op : billing_op) : gset Z :=
  match op with PostConsume id _ => {[ id ]} | _ => ∅ end.
Definition posted (ops : list billing_op) : gset Z := ⋃ (posted_by <$> ops).

Definition billing_ok (db : DB) : Prop := Accounting db ∧ cards_ok db ∧ commissions_ok db.

Lemma wp_call {A} (m : Tx A) (I : DB → Prop) db : wp m (λ _ d, I d) db → wp (call m) (λ _ d, I d) db.
Proof. intros Hm. unfold call. wp_step. eapply wp_mono; [exact Hm|]. intros [a|e] d Hd; [by wp_step|done]. Qed.

(** An operation that leaves the card tables alone. *)
Lemma wp_cards_kept {A} (m : Tx A) db :
  keeps card_tables m → billing_ok db → wp m (λ _ d, Accounting d) db → wp m (λ _ d, billing_ok d) db.
Proof. intros Hk [_ Hok] Hm. unfold wp in *. split; [done|]. eapply card_tables_ok; [apply Hk|done]. Qed.

(** An operation that leaves the commissions alone. *)
Lemma wp_commissions_kept {A} (m : Tx A) db :
  keeps affiliate_commissions m → billing_ok db → wp m (λ _ d, Accounting d ∧ cards_ok d) db →
  wp m (λ _ d, billing_ok d) db.
Proof.
  intros Hk (_ & _ & Hco) [Hacc Hok]. split; [done|]. split; [done|]. by eapply commissions_ext; [apply Hk|].
Qed.

(** An operation that leaves the books alone. *)
Lemma wp_books_kept {A} (m : Tx A) db :
  keeps book_tables m → preserves cards_ok m → billing_ok db → wp m (λ _ d, billing_ok d) db.
Proof.
  intros Hk Hp (Hacc & Hok & Hco). unfold wp. pose proof (Hk db) as Hb. split; [by eapply book_tables_ok|].
  split; [by apply Hp|]. injection Hb as _ _ _ _ Hc. by eapply commissions_ext.
Qed.

(** An operation that leaves all three alone, or moves the commissions as they should be moved. *)
Lemma wp_tables_kept {A} (m : Tx A) db :
  keeps package_tables m → preserves commissions_ok m → billing_ok db → wp m (λ _ d, billing_ok d) db.
Proof.
  intros Hk Hp (Hacc & Hok & Hco). unfold wp. pose proof (Hk db) as [= H1 H2 H3 H4 _ H6 H7].
  split; [unfold Accounting; by rewrite H1, H2, H4, H7|]. split; [by apply (cards_ext db)|by apply Hp].
Qed.

Lemma request_ops_ok env db op :
  billing_ok db → allowed env db op → posted_by op ⊆ post_billed →
  match op with
  | PreConsumePackage _ _ _ _ | PreConsumeUser _ _ _ | Reserve _ _ _ _ | Refund _ | PostConsume _ _ =>
    wp (run_op env op) (λ _ d, billing_ok d) db
  | _ => True
  end.
Proof.
  intros Hb Hop Hposted. pose proof Hb as (Hacc & Hok & Hco).
  destruct op; try done; cbn [run_op allowed posted_by] in *.
  - destruct Hop as [Hroom Hnew]. apply wp_call, wp_cards_kept; [apply keeps_preconsume_package|done|].
    apply wp_preconsume_package; try done. intros * Hc. by eapply charge_accounting; [|apply Hnew, Hc].
  - apply wp_call, wp_cards_kept; [apply keeps_preconsume_user|done|]. by apply wp_preconsume_user.
  - destruct Hop as [Hroom Hnew]. apply wp_call, wp_cards_kept; [apply keeps_reserve|done|].
    apply wp_reserve; try done. intros. eapply reserve_accounting; [done|apply Hroom|done].
  - apply wp_cards_kept; [apply keeps_refund|done|]. apply wp_refund; try done.
    intros. by eapply refund_accounting.
  - apply wp_cards_kept; [apply keeps_post_consume|done|]. apply wp_post_consume; try done.
    right. by apply singleton_subseteq_l.
Qed.

Lemma preference_ops_ok env db op :
  billing_ok db → allowed env db op →
  match op with
  | ShowState _ | Activate _ _ | Deactivate _ | WalletFallback _ _ | AdjustCards _ _ _ _ _
  | SpendCard _ _ _ _ _ => wp (run_op env op) (λ _ d, billing_ok d) db
  | _ => True
  end.
Proof.
  intros Hb Hop. pose proof Hb as (Hacc & Hok & Hco). destruct op; try done; cbn [run_op allowed] in *; apply wp_call.
  - apply wp_books_kept; [apply keeps_load|apply preserves_load|done].
  - apply wp_books_kept; [apply keeps_activate|apply preserves_activate|done].
  - apply wp_books_kept; [apply keeps_deactivate|apply preserves_deactivate|done].
  - apply wp_books_kept; [apply keeps_fallback|apply preserves_fallback|done].
  - apply wp_commissions_kept; [apply keeps_adjust_commissions|done|]. destruct (decide (value < 0)) as [Hneg|Hpos].
    + unfold AdjustValuePackageResetCount. wp_guard as _; [done|]. wp_step. by wp_step.
    + apply wp_adjust; [done|lia|done| |done]. intros adj db' [Hok' _ _ _ _ Hsb].
      split; [by eapply same_books_accounting|done].
  - apply wp_commissions_kept; [apply keeps_spend_commissions|done|]. apply wp_consume_card; [done|done| |done]. intros st s s' db' Hs _.
    split; [by eapply card_spent_accounting|apply Hs].
Qed.

Lemma task_ops_ok env db op :
  billing_ok db → allowed env db op →
  match op with
  | Cleanup _ | ResetDue _ | ExpireOrder _ _ | Invalidate _ | DeleteSubscription _ =>
    wp (run_op env op) (λ _ d, billing_ok d) db
  | _ => True
  end.
Proof.
  intros Hb _. pose proof Hb as (Hacc & Hok & Hco). destruct op; try done; cbn [run_op].
  - apply wp_call, wp_cards_kept; [apply keeps_cleanup|done|]. unfold CleanupSubscriptionPreConsumeRecords.
    wp_step. wp_step. wp_step. wp_step. wp_step. unfold Accounting. by apply cleanup_accounting.
  - apply wp_call, wp_cards_kept; [apply keeps_reset_due|done|]. by apply wp_reset_due.
  - pose proof (keeps_expire_order env tradeNo provider db) as [=]. unfold wp. split.
    + apply (book_tables_ok db); [|done]. unfold book_tables. congruence.
    + apply (card_tables_ok db); [|done]. unfold card_tables. congruence.
  - apply wp_call, wp_cards_kept; [apply keeps_invalidate|done|]. by apply preserves_wp; [apply preserves_invalidate|].
  - apply wp_call, wp_cards_kept; [apply keeps_delete|done|]. by apply preserves_wp; [apply preserves_delete|].
Qed.

Lemma subscribed_ok env db db1 userId plan source sub :
  subscribed env db db1 userId plan source sub → Accounting db ∧ cards_ok db → Accounting db1 ∧ cards_ok db1.
Proof.
  intros Hs [Hacc Hok]. split; [by apply (sd_accounting _ _ _ _ _ _ _ Hs)|].
  by apply (sub_frame_cards _ _ (sd_frame _ _ _ _ _ _ _ Hs)).
Qed.

Lemma expire_users_ok env now ids count db :
  Forall (λ u, 0 < u) ids → Accounting db ∧ cards_ok db →
  wp (expire_users env now ids count) (λ _ d, Accounting d ∧ cards_ok d) db.
Proof.
  intros Hpos. revert count db. induction Hpos as [|u ids Hu _ IH]; intros count db Hb; cbn [expire_users].
  - by wp_step.
  - wp_step. apply wp_expire_user; [done|]. intros db1 [Hsubs Hfr _ _ _]. apply IH. destruct Hb as [Hacc Hok].
    split; [|by apply (sub_frame_cards _ _ Hfr)].
    unfold Accounting. rewrite Hsubs, (sf_plans _ _ Hfr), (sf_usage _ _ Hfr), (sf_pre _ _ Hfr).
    apply accounting_update; [by split|exact Hacc].
Qed.

Lemma purchase_ops_ok env db op :
  billing_ok db → allowed env db op →
  match op with
  | BuyPackage _ _ _ | CompleteOrder _ _ _ _ | BuyWithBalance _ _ _ | Bind _ _ | ExpireDue _ _ =>
    wp (run_op env op) (λ _ d, billing_ok d) db
  | _ => True
  end.
Proof.
  intros Hb Hop. pose proof Hb as (Hacc & Hok & Hco). destruct op; try done; cbn [run_op allowed] in *.
  - destruct Hop as [Hsale Hfits]. apply wp_call, wp_commissions_kept; [keeps_solve|done|]. wp_step. apply wp_purchase; try done.
    intros sub db' intent _ Hp. split; [apply Hp|apply Hp].
  - apply wp_commissions_kept; [apply keeps_order_commissions|done|]. apply wp_complete_order; try done. intros order plan sub db' _ _ _ [_ (db1 & Hs & [Hsubs Hfr]) _ _].
    destruct (subscribed_ok _ _ _ _ _ _ _ Hs (conj Hacc Hok)) as [Hacc1 Hok1].
    split; [by eapply sub_frame_accounting|by eapply sub_frame_cards].
  - apply wp_commissions_kept; [apply keeps_balance_commissions|done|]. apply wp_balance_purchase; try done. intros plan q sub db' Hp. split; [by apply Hp|by apply Hp].
  - apply wp_call, wp_commissions_kept; [apply keeps_bind_commissions|done|]. unfold AdminBindSubscription. wp_guard as _; [done|]. wp_step.
    apply wp_get_plan; [|done]. intros plan Hplan. cbv zeta. wp_guard as _; [done|]. wp_step. wp_step.
    set (np := normalizeValuePackagePlan plan) in *.
    assert (Hnp : normalizeValuePackagePlan np = np)
      by apply normalizeValuePackagePlan_fixpoint, normalizeValuePackagePlan_normal.
    apply wp_create_regular; [rewrite Hnp; by apply (Hop _ _ Hplan)| |done].
    intros sub db' Hs _ _. wp_step. by eapply subscribed_ok.
  - apply wp_call, wp_commissions_kept; [apply keeps_expire_commissions|done|]. unfold ExpireDueSubscriptions. wp_step. wp_step. apply expire_users_ok; [|done].
    apply Forall_forall. intros u. rewrite Hop, elem_of_remove_dups, list_elem_of_filter. lia.
Qed.

(** *** Payments *)

Lemma keeps_recharge env uuid tradeNo by_ : keeps package_tables (recharge env uuid tradeNo by_).
Proof.
  assert (Hc : ∀ t, keeps package_tables (MaybeCreateAffiliateCommissionForTopUpTx env uuid t))
    by (intros t; exact (keeps_part (λ '(p, _, _, _), p) _ _ (keeps_commission env uuid t))).
  destruct by_; cbn [recharge]; unfold Recharge, ManualCompleteTopUp, RechargeEpay, RechargeCreem, RechargeWaffo,
    RechargeWaffoPancake, recharge_amount, masked, save_topup, update_user; keeps_solve; apply Hc.
Qed.

Lemma preserves_recharge env uuid tradeNo by_ : preserves commissions_ok (recharge env uuid tradeNo by_).
Proof.
  destruct by_; cbn [recharge]; unfold Recharge, ManualCompleteTopUp, RechargeEpay, RechargeCreem, RechargeWaffo,
    RechargeWaffoPancake, recharge_amount, masked, save_topup, update_user; preserves_solve;
    (eapply keeps_preserves; [apply commissions_ext|keeps_solve]).
Qed.

(** An operation on tables that neither the books, the cards nor the commissions depend on. *)
Lemma wp_apart {A} (m : Tx A) db :
  keeps (λ d, (package_tables d, affiliate_commissions d)) m → billing_ok db → wp m (λ _ d, billing_ok d) db.
Proof.
  intros Hk. apply wp_tables_kept; [exact (keeps_part fst _ _ Hk)|].
  eapply keeps_preserves; [apply commissions_ext|exact (keeps_part snd _ _ Hk)].
Qed.

Lemma redeemed_ok env db db' userId r : redeemed env db db' userId r → billing_ok db → billing_ok db'.
Proof.
  intros [[_ Hs]|[[_ Hs]|[_ Hs]]] (Hacc & Hok & Hco).
  - destruct Hs as [plan sub _ _ Hp _ Hc|plan sub _ _ Hp Hc].
    + split; [apply Hp|]. split; [apply Hp|]. by apply (commissions_ext db).
    + destruct (subscribed_ok _ _ _ _ _ _ _ Hp (conj Hacc Hok)). split; [done|]. split; [done|].
      by apply (commissions_ext db).
  - destruct Hs as [_ [Hok' _] Hb [_ Hc]]. split; [by eapply same_books_accounting|]. split; [done|].
    by apply (commissions_ext db).
  - destruct Hs as [_ _ [= H1 H2 H3 H4 _ H6 H7] _ _ Hc]. split; [unfold Accounting; by rewrite H1, H2, H4, H7|].
    split; [by apply (cards_ext db)|auto].
Qed.

Lemma payment_ops_ok env db op :
  billing_ok db → allowed env db op →
  match op with
  | CompleteTopUp _ _ _ | TopUpStatus _ _ _ | CreditUser _ _ _ | CompletePackageOrder _ _ _ _ _ _ | RedeemCode _ _ _
  | DeleteCode _ | DeleteInvalidCodes | ExportCodes _ _ | CreateCode _ | EditCode _ | SetCodeStatus _ | Withdraw _ | ReconcileTopUps => wp (run_op env op) (λ _ d, billing_ok d) db
  | _ => True
  end.
Proof.
  intros Hb Hop. pose proof Hb as (Hacc & Hok & Hco). destruct op; try done; cbn [run_op allowed] in *.
  - apply wp_tables_kept; [apply keeps_recharge|apply preserves_recharge|done].
  - apply wp_apart; [|done]. unfold UpdatePendingTopUpStatus, save_topup. keeps_solve.
  - apply wp_apart; [|done]. unfold IncreaseUserQuotaAndValidTopupCents, update_user. keeps_solve.
  - apply wp_call, wp_package_order; try done. intros order plan sub db' _ _ [_ Hp _ _ _ _ _ Hc _].
    split; [apply Hp|]. split; [apply Hp|auto].
  - destruct Hop as [Hfit Hred]. apply wp_call, wp_redeem; try done. intros r res db' _ Hr _. by eapply redeemed_ok.
  - apply wp_apart; [|done]. unfold DeleteRedemptionById, delete_redemption. keeps_solve.
  - apply wp_call, wp_apart; [|done]. unfold DeleteInvalidRedemptions. keeps_solve.
  - apply wp_apart; [|done]. unfold MarkRedemptionsExported. keeps_solve.
  - apply wp_apart; [|done]. unfold insert_redemption. keeps_solve.
  - apply wp_apart; [|done]. unfold update_redemption. keeps_solve.
  - apply wp_apart; [|done]. unfold SelectUpdate. keeps_solve.
  - apply wp_call, wp_apart; [|done]. destruct by_; cbn [run_withdrawal];
      unfold CreateAffiliateWithdrawal, CreateAffiliateWithdrawalTx, lockAffiliateUserTx, GetAffiliateSummaryTx,
        create_withdrawal, MarkAffiliateWithdrawalPaid, RejectAffiliateWithdrawal, decide_withdrawal,
        loadPendingAffiliateWithdrawalForUpdate; keeps_solve.
  - apply wp_apart; [|done]. unfold backfillUserValidTopupCents, reconcile_user. keeps_solve.
Qed.

(** Every operation keeps the books, the card ledger and the commissions. *)
Lemma op_ok env db op :
  billing_ok db → allowed env db op → posted_by op ⊆ post_billed →
  wp (run_op env op) (λ _ d, billing_ok d) db.
Proof.
  intros Hb Hop Hpo. pose proof (request_ops_ok env db op Hb Hop Hpo). pose proof (preference_ops_ok env db op Hb Hop).
  pose proof (task_ops_ok env db op Hb Hop). pose proof (purchase_ops_ok env db op Hb Hop).
  pose proof (payment_ops_ok env db op Hb Hop). by destruct op.
Qed.

Lemma run_ok ops db db' :
  billing_run ops db db' → posted ops ⊆ post_billed → billing_ok db → billing_ok db'.
Proof.
  induction 1 as [db|env op ops db1 r db2 db3 Hop Hrun _ IH]; [done|].
  intros Hpo Hb. unfold posted in *. cbn in Hpo. apply union_subseteq in Hpo as [Ho Hos]. apply IH; [done|].
  exact (wp_run _ _ _ _ _ (op_ok env db1 op Hb Hop Ho) Hrun).
Qed.
End System.

(** A state in balance is in balance whatever was billed after the fact. *)
Lemma billing_ok_weaken (B : PostBilled) db :
  billing_ok (B := none_post_billed) db → billing_ok (B := B) db.
Proof.
  intros ([Hs Hu Hp Hsub Hreq Hui Hpi] & Hrest). split; [|done]. split; [done..| |done|done|done].
  eapply Forall_impl; [exact Hsub|]. intros s [He Hused Hf Ht Hc Heps]. split; try done.
  intros Hpk _. apply Hused; [done|apply not_billed].
Qed.

(** ** Properties *)


(** *** Example *)

(** A user with a week package buys a month package and uses it; a task then bills
    the month package after the fact. *)
Definition used_db : DB :=
  (PreConsumeValuePackageSubscription cards_env "r1" 1 2 100 upgrade_run.2).2.
Definition billed_db : DB := (PostConsumeUserSubscriptionDelta cards_env 2 50 used_db).2.

Definition use_ops : list billing_op :=
  [BuyPackage 1 example_package "order"; PreConsumePackage "r1" 1 2 100; PostConsume 2 50].

Lemma posted_fits (o : option UserSubscription) used delta :
  us_AmountUsed <$> o = Some used → in_int64 (used + delta) →
  ∀ s, o = Some s → in_int64 (us_AmountUsed s + delta).
Proof. by intros Hu Hd s ->; injection Hu as ->. Qed.

Lemma use_run : billing_run (D := fixed_decimals) exact_sum use_ops (shop_db 1) billed_db.
Proof.
  unfold use_ops. eapply (run_cons _ cards_env _ _ _ (Ok tt) upgrade_run.2); [|vm_compute; reflexivity|].
  { split; [split; [vm_compute; reflexivity|vm_compute; eauto]|]. apply shop_fits. vm_compute. done. }
  eapply (run_cons _ cards_env _ _ _ (Ok tt) used_db); [|vm_compute; reflexivity|].
  { split; [|vm_compute; reflexivity]. split; [done|].
    assert (Hrows : Forall (λ s, 0 < us_AmountTotal s) (rows (user_subscriptions upgrade_run.2)))
      by (vm_compute; repeat constructor).
    rewrite Forall_forall in Hrows. intros s Hs _ _ Ht. specialize (Hrows s Hs). lia. }
  eapply (run_cons _ cards_env _ _ _ (Ok tt) billed_db); [|vm_compute; reflexivity|apply run_nil].
  refine (posted_fits _ 100 50 _ _); [vm_compute; reflexivity|done].
Qed.

