(* ===== verification/Wallet.v ===== *)
(** * Wallets, API tokens and batched updates

    [model/user.go], [model/token.go], [model/utils.go], [model/channel.go]: the
    quota of users and tokens.  With batch updates enabled a change is first added
    to an in-memory store and written to the database by a background job; the
    theorems show that this delays changes and never loses or duplicates one.
    Redis is disabled, so that the cache calls do nothing. *)
From S2P Require Import Prelude Tables GoFloat GoTime Schema Plans Windows Cycles Consume Accounting Ledger Preferences Cards Purchases Lifecycle.

(** ** Definitions *)

Inductive BatchUpdateType :=
| BatchUpdateTypeUserQuota
| BatchUpdateTypeTokenQuota
| BatchUpdateTypeUsedQuota
| BatchUpdateTypeChannelUsedQuota
| BatchUpdateTypeRequestCount.

(** [batchUpdateStores], one map per type. *)
Record BatchStores := mkStores {
  bs_UserQuota : gmap Z Z;
  bs_TokenQuota : gmap Z Z;
  bs_UsedQuota : gmap Z Z;
  bs_ChannelUsedQuota : gmap Z Z;
  bs_RequestCount : gmap Z Z;
}.
Global Instance BatchStores_eta : Settable BatchStores := λ s,
  mkStores (bs_UserQuota s) (bs_TokenQuota s) (bs_UsedQuota s) (bs_ChannelUsedQuota s) (bs_RequestCount s).
Definition empty_stores : BatchStores := mkStores ∅ ∅ ∅ ∅ ∅.

(** The database and the stores. *)
Record World := mkWorld { w_db : DB; w_stores : BatchStores }.
Global Instance World_eta : Settable World := λ w, mkWorld (w_db w) (w_stores w).
Definition W : Type → Type := M World.

(** The configuration: [common.BatchUpdateEnabled] besides what database code reads. *)
Record Config := mkConfig { cf_env : Env; cf_batch : bool }.

Definition on_db {A} (m : Tx A) : W A := λ w, ((m (w_db w)).1, w <| w_db := (m (w_db w)).2 |>).

Definition add_to (id value : Z) (store : gmap Z Z) : gmap Z Z :=
  match store !! id with
  | None => <[id := value]> store
  | Some old => <[id := old +! value]> store
  end.

Definition addNewRecord (type_ : BatchUpdateType) (id value : Z) : W () :=
  modify (λ w, w <| w_stores ::= λ s,
    match type_ with
    | BatchUpdateTypeUserQuota => s <| bs_UserQuota ::= add_to id value |>
    | BatchUpdateTypeTokenQuota => s <| bs_TokenQuota ::= add_to id value |>
    | BatchUpdateTypeUsedQuota => s <| bs_UsedQuota ::= add_to id value |>
    | BatchUpdateTypeChannelUsedQuota => s <| bs_ChannelUsedQuota ::= add_to id value |>
    | BatchUpdateTypeRequestCount => s <| bs_RequestCount ::= add_to id value |>
    end |>).

(** *** Users *)

Definition increaseUserQuota (id quota : Z) : Tx () :=
  modify (λ d, d <| users ::= update_where (λ u, u_Id u = id) (λ u, u <| u_Quota ::= λ q, q + quota |>) |>).

Definition decreaseUserQuota (id quota : Z) : Tx () :=
  modify (λ d, d <| users ::= update_where (λ u, u_Id u = id) (λ u, u <| u_Quota ::= λ q, q - quota |>) |>).

Definition ErrNegativeQuota := ErrNew "quota 不能为负数！".

Definition IncreaseUserQuota (cfg : Config) (id quota : Z) (db : bool) : W () :=
  _ ← fail_if (quota < 0) ErrNegativeQuota;
  if negb db && cf_batch cfg then addNewRecord BatchUpdateTypeUserQuota id quota
  else on_db (increaseUserQuota id quota).

Definition DecreaseUserQuota (cfg : Config) (id quota : Z) (db : bool) : W () :=
  _ ← fail_if (quota < 0) ErrNegativeQuota;
  if negb db && cf_batch cfg then addNewRecord BatchUpdateTypeUserQuota id (-! quota)
  else on_db (decreaseUserQuota id quota).

Definition DecreaseUserQuotaIfEnough (id quota : Z) : W () :=
  _ ← fail_if (quota < 0) ErrNegativeQuota;
  if decide (quota = 0) then mret tt
  else
    _ ← fail_if (id ≤ 0) (ErrNew "invalid userId");
    on_db (
      db ← get;
      let enough u := u_Id u = id ∧ u_Quota u >= quota in
      _ ← modify (λ d, d <| users ::= update_where enough (λ u, u <| u_Quota ::= λ q, q - quota |>) |>);
      fail_if (affected enough (users db) = 0)
        (ErrNew ("user quota is not enough, need quota: " +:+ pretty quota))).

Definition DeltaUpdateUserQuota (cfg : Config) (id delta : Z) : W () :=
  if decide (delta = 0) then mret tt
  else if decide (delta > 0) then IncreaseUserQuota cfg id delta false
  else DecreaseUserQuota cfg id (-! delta) false.

(** [Find] of one column: 0 without the row. *)
Definition GetUserQuota (id : Z) : W Z :=
  w ← get;
  mret (from_option u_Quota 0 (by_id id (users (w_db w)))).

Definition updateUserUsedQuotaAndRequestCount (id quota count : Z) : Tx () :=
  modify (λ d, d <| users ::= update_where (λ u, u_Id u = id)
    (λ u, u <| u_UsedQuota ::= λ q, q + quota |> <| u_RequestCount ::= λ n, n + count |>) |>).

Definition UpdateUserUsedQuotaAndRequestCount (cfg : Config) (id quota : Z) : W () :=
  if cf_batch cfg then
    _ ← addNewRecord BatchUpdateTypeUsedQuota id quota;
    addNewRecord BatchUpdateTypeRequestCount id 1
  else on_db (updateUserUsedQuotaAndRequestCount id quota 1).

Definition updateUserQuotaUsedQuotaAndRequestCount (id quota usedQuota requestCount : Z) : Tx () :=
  if decide (quota = 0 ∧ usedQuota = 0 ∧ requestCount = 0) then mret tt
  else modify (λ d, d <| users ::= update_where (λ u, u_Id u = id)
         (λ u, u <| u_Quota ::= λ q, q + quota |> <| u_UsedQuota ::= λ q, q + usedQuota |>
                 <| u_RequestCount ::= λ n, n + requestCount |>) |>).

(** *** Tokens *)

Definition increaseTokenQuota (env : Env) (id quota : Z) : Tx () :=
  modify (λ d, d <| tokens ::= update_where (λ t, t_Id t = id)
    (λ t, t <| t_RemainQuota ::= λ q, q + quota |> <| t_UsedQuota ::= λ q, q - quota |>
            <| t_AccessedTime := app_now env |>) |>).

Definition decreaseTokenQuota (env : Env) (id quota : Z) : Tx () :=
  modify (λ d, d <| tokens ::= update_where (λ t, t_Id t = id)
    (λ t, t <| t_RemainQuota ::= λ q, q - quota |> <| t_UsedQuota ::= λ q, q + quota |>
            <| t_AccessedTime := app_now env |>) |>).

Definition IncreaseTokenQuota (cfg : Config) (tokenId quota : Z) : W () :=
  _ ← fail_if (quota < 0) ErrNegativeQuota;
  if cf_batch cfg then addNewRecord BatchUpdateTypeTokenQuota tokenId quota
  else on_db (increaseTokenQuota (cf_env cfg) tokenId quota).

Definition DecreaseTokenQuota (cfg : Config) (id quota : Z) : W () :=
  _ ← fail_if (quota < 0) ErrNegativeQuota;
  if cf_batch cfg then addNewRecord BatchUpdateTypeTokenQuota id (-! quota)
  else on_db (decreaseTokenQuota (cf_env cfg) id quota).

Definition GetTokenByKey (key : string) : W Token :=
  w ← get;
  or_error (first (λ t, t_Key t = key) (tokens (w_db w))) ErrRecordNotFound.

(** *** Channels *)

Definition updateChannelUsedQuota (id quota : Z) : Tx () :=
  modify (λ d, d <| channels ::= update_where (λ c, ch_Id c = id) (λ c, c <| ch_UsedQuota ::= λ q, q + quota |>) |>).

Definition UpdateChannelUsedQuota (cfg : Config) (id quota : Z) : W () :=
  if cf_batch cfg then addNewRecord BatchUpdateTypeChannelUsedQuota id quota
  else on_db (updateChannelUsedQuota id quota).

(** *** The background job *)

(** Go visits the keys of a map in an unspecified order: [shuffle] is the order of
    this run. *)
Definition batchUpdate (env : Env) (shuffle : ∀ A, list A → list A) : W () :=
  w ← get;
  let stores := w_stores w in
  if decide (bs_UserQuota stores = ∅ ∧ bs_TokenQuota stores = ∅ ∧ bs_UsedQuota stores = ∅ ∧
             bs_ChannelUsedQuota stores = ∅ ∧ bs_RequestCount stores = ∅)
  then mret tt
  else
    _ ← modify (λ w, w <| w_stores := empty_stores |>);
    _ ← on_db (for_each (shuffle _ (map_to_list (bs_TokenQuota stores)))
                 (λ kv, increaseTokenQuota env kv.1 kv.2));
    _ ← on_db (for_each (shuffle _ (map_to_list (bs_ChannelUsedQuota stores)))
                 (λ kv, updateChannelUsedQuota kv.1 kv.2));
    let userIDs : gset Z :=
      dom (bs_UserQuota stores) ∪ dom (bs_UsedQuota stores) ∪ dom (bs_RequestCount stores) in
    on_db (for_each (shuffle _ (elements userIDs)) (λ key,
      updateUserQuotaUsedQuotaAndRequestCount key (default 0 (bs_UserQuota stores !! key))
        (default 0 (bs_UsedQuota stores !! key)) (default 0 (bs_RequestCount stores !! key)))).

(** ** Balances *)

Definition user_view (db : DB) (id : Z) : option (Z * Z * Z) :=
  (λ u, (u_Quota u, u_UsedQuota u, u_RequestCount u)) <$> by_id id (users db).
Definition token_view (db : DB) (id : Z) : option (Z * Z) :=
  (λ t, (t_RemainQuota t, t_UsedQuota t)) <$> by_id id (tokens db).
Definition channel_view (db : DB) (id : Z) : option Z := ch_UsedQuota <$> by_id id (channels db).

Lemma user_view_ext db db' id : users db' = users db → user_view db' id = user_view db id.
Proof. unfold user_view. by intros ->. Qed.
Lemma token_view_ext db db' id : tokens db' = tokens db → token_view db' id = token_view db id.
Proof. unfold token_view. by intros ->. Qed.
Lemma channel_view_ext db db' id : channels db' = channels db → channel_view db' id = channel_view db id.
Proof. unfold channel_view. by intros ->. Qed.

Definition add_user (q u n : Z) (v : Z * Z * Z) : Z * Z * Z := (v.1.1 + q, v.1.2 + u, v.2 + n).
Definition add_token (q : Z) (v : Z * Z) : Z * Z := (v.1 + q, v.2 - q).

(** A balance with what is waiting in the stores. *)
Definition pending (store : gmap Z Z) (id : Z) : Z := default 0 (store !! id).
Definition user_balance (w : World) (id : Z) : option (Z * Z * Z) :=
  add_user (pending (bs_UserQuota (w_stores w)) id) (pending (bs_UsedQuota (w_stores w)) id)
    (pending (bs_RequestCount (w_stores w)) id) <$> user_view (w_db w) id.
Definition token_balance (w : World) (id : Z) : option (Z * Z) :=
  add_token (pending (bs_TokenQuota (w_stores w)) id) <$> token_view (w_db w) id.
Definition channel_balance (w : World) (id : Z) : option Z :=
  Z.add (pending (bs_ChannelUsedQuota (w_stores w)) id) <$> channel_view (w_db w) id.

Lemma add_user_0 v : add_user 0 0 0 v = v.
Proof. destruct v as [[? ?] ?]. unfold add_user. cbn. f_equal; [f_equal|]; lia. Qed.
Lemma add_token_0 v : add_token 0 v = v.
Proof. destruct v. unfold add_token. cbn. f_equal; lia. Qed.
Lemma add_user_add q u n q' u' n' v :
  add_user q u n (add_user q' u' n' v) = add_user (q + q') (u + u') (n + n') v.
Proof. unfold add_user. cbn. f_equal; [f_equal|]; lia. Qed.
Lemma add_token_add q q' v : add_token q (add_token q' v) = add_token (q + q') v.
Proof. unfold add_token. cbn. f_equal; lia. Qed.

Lemma pending_empty id : pending ∅ id = 0.
Proof. unfold pending. by rewrite lookup_empty. Qed.

Lemma pending_add store id v i :
  in_int64 (pending store id + v) →
  pending (add_to id v store) i = pending store i + if decide (i = id) then v else 0.
Proof.
  unfold pending, add_to. intros Hfit. destruct (store !! id) as [old|] eqn:E; cbn in Hfit;
    (destruct (decide (i = id)) as [->|Hi]; [rewrite lookup_insert_eq|rewrite lookup_insert_ne by done; lia]);
    rewrite ?E; cbn; [by rewrite wrap64_id|lia].
Qed.

Lemma by_id_users f j i (t : table User) :
  (∀ u, u_Id (f u) = u_Id u) →
  by_id i (update_where (λ u, u_Id u = j) f t) = (if decide (i = j) then f else id) <$> by_id i t.
Proof. exact (by_id_update (R := User) f j i t). Qed.
Lemma by_id_tokens f j i (t : table Token) :
  (∀ u, t_Id (f u) = t_Id u) →
  by_id i (update_where (λ u, t_Id u = j) f t) = (if decide (i = j) then f else id) <$> by_id i t.
Proof. exact (by_id_update (R := Token) f j i t). Qed.
Lemma by_id_channels f j i (t : table Channel) :
  (∀ u, ch_Id (f u) = ch_Id u) →
  by_id i (update_where (λ u, ch_Id u = j) f t) = (if decide (i = j) then f else id) <$> by_id i t.
Proof. exact (by_id_update (R := Channel) f j i t). Qed.

(** ** The job *)

(** What a list of changes adds at a key. *)
Definition sum_at (id : Z) (l : list (Z * Z)) : Z := sumZ snd (filter (λ kv, kv.1 = id) l).
Global Arguments sum_at : simpl never.

Lemma sum_at_map (m : gmap Z Z) id l : l ≡ₚ map_to_list m → sum_at id l = pending m id.
Proof.
  intros Hp. unfold sum_at. rewrite (sumZ_permutation _ _ _ (filter_Permutation _ _ _ Hp)). clear l Hp.
  unfold pending. induction m as [|k v m Hk IH] using map_ind.
  - by rewrite map_to_list_empty, lookup_empty.
  - rewrite (sumZ_permutation _ _ _ (filter_Permutation _ _ _ (map_to_list_insert m k v Hk))), filter_cons. cbn.
    destruct (decide (k = id)) as [->|Hne].
    + rewrite lookup_insert_eq. cbn. rewrite IH, Hk. cbn. lia.
    + by rewrite lookup_insert_ne.
Qed.

Lemma sum_at_cons id k v l : sum_at id ((k, v) :: l) = (if decide (k = id) then v else 0) + sum_at id l.
Proof. unfold sum_at. rewrite filter_cons. cbn. by case_decide. Qed.

Lemma wp_on_db {A} (m : Tx A) (Q : result A → World → Prop) w :
  wp m (λ r d, Q r (w <| w_db := d |>)) (w_db w) → wp (on_db m) Q w.
Proof. done. Qed.

Lemma flush_tokens env l db :
  wp (for_each l (λ kv, increaseTokenQuota env kv.1 kv.2))
    (λ r db', r = Ok tt ∧ (∀ id, token_view db' id = add_token (sum_at id l) <$> token_view db id) ∧
       users db' = users db ∧ channels db' = channels db) db.
Proof.
  revert db. induction l as [|[k v] l IH]; intros db; cbn [for_each].
  - wp_step. split_and!; try done. intros id. destruct (token_view db id); cbn; [by rewrite add_token_0|done].
  - wp_step. unfold increaseTokenQuota at 1. wp_step. eapply wp_mono; [apply IH|].
    intros r db' (-> & IHt & IHu & IHc). split_and!; [done| |exact IHu|exact IHc].
    intros id. rewrite IHt, sum_at_cons. unfold token_view. cbn -[by_id update_where].
    rewrite by_id_tokens by done. destruct (by_id id (tokens db)) as [t|]; cbn; [|done].
    destruct (decide (id = k)) as [->|Hne].
    + rewrite decide_True by done. unfold add_token. cbn. do 2 f_equal; lia.
    + by rewrite decide_False by congruence.
Qed.

Lemma flush_channels l db :
  wp (for_each l (λ kv, updateChannelUsedQuota kv.1 kv.2))
    (λ r db', r = Ok tt ∧ (∀ id, channel_view db' id = Z.add (sum_at id l) <$> channel_view db id) ∧
       users db' = users db ∧ tokens db' = tokens db) db.
Proof.
  revert db. induction l as [|[k v] l IH]; intros db; cbn [for_each].
  - wp_step. split_and!; try done. intros id. by destruct (channel_view db id).
  - wp_step. unfold updateChannelUsedQuota at 1. wp_step. eapply wp_mono; [apply IH|].
    intros r db' (-> & IHt & IHu & IHc). split_and!; [done| |exact IHu|exact IHc].
    intros id. rewrite IHt, sum_at_cons. unfold channel_view. cbn -[by_id update_where].
    rewrite by_id_channels by done. destruct (by_id id (channels db)) as [c|]; cbn; [|done].
    destruct (decide (id = k)) as [->|Hne].
    + rewrite decide_True by done. cbn. f_equal. lia.
    + by rewrite decide_False by congruence.
Qed.

(** One user's changes. *)
Definition user_flushed (P : Prop) `{Decision P} (q u n : Z) (v : Z * Z * Z) : Z * Z * Z :=
  if decide P then add_user q u n v else v.

Lemma flush_user k q u n db :
  wp (updateUserQuotaUsedQuotaAndRequestCount k q u n)
    (λ r db', r = Ok tt ∧ (∀ id, user_view db' id = user_flushed (id = k) q u n <$> user_view db id) ∧
       tokens db' = tokens db ∧ channels db' = channels db) db.
Proof.
  unfold updateUserQuotaUsedQuotaAndRequestCount, user_flushed. wp_step; wp_step; split_and!; try done; intros id.
  - destruct a as (-> & -> & ->). destruct (user_view db id); [|done]. cbn. case_decide; [by rewrite add_user_0|done].
  - unfold user_view. cbn -[by_id update_where]. rewrite by_id_users by done.
    destruct (by_id id (users db)); cbn; [|done]. f_equal. by case_decide.
Qed.

Lemma flush_users (fq fu fn : Z → Z) ids db :
  NoDup ids →
  wp (for_each ids (λ id, updateUserQuotaUsedQuotaAndRequestCount id (fq id) (fu id) (fn id)))
    (λ r db', r = Ok tt ∧
       (∀ id, user_view db' id = user_flushed (id ∈ ids) (fq id) (fu id) (fn id) <$> user_view db id) ∧
       tokens db' = tokens db ∧ channels db' = channels db) db.
Proof.
  intros Hnd. revert db. induction Hnd as [|k ids Hk _ IH]; intros db; cbn [for_each].
  - wp_step. split_and!; try done. intros id. unfold user_flushed. destruct (user_view db id); [|done]. cbn.
    by rewrite decide_False by apply not_elem_of_nil.
  - wp_step. eapply wp_mono; [apply flush_user|]. intros r db1 (-> & Hv & Ht & Hc).
    eapply wp_mono; [apply IH|]. intros r db' (-> & IHv & IHt & IHc). split_and!; [done| |congruence|congruence].
    intros id. rewrite IHv, Hv. destruct (user_view db id) as [v|]; [|done]. cbn. f_equal. unfold user_flushed.
    pose proof (elem_of_cons ids id k). destruct (decide (id = k)) as [->|Hne].
    + rewrite decide_False by done. by rewrite decide_True by tauto.
    + case_decide; case_decide; tauto.
Qed.

(** The state after the job: the stores are empty and hold nothing back. *)
Record flushed (w w' : World) : Prop := {
  fl_stores : w_stores w' = empty_stores;
  fl_users : ∀ id, user_view (w_db w') id = user_balance w id;
  fl_tokens : ∀ id, token_view (w_db w') id = token_balance w id;
  fl_channels : ∀ id, channel_view (w_db w') id = channel_balance w id;
}.

Lemma flushed_empty w : w_stores w = empty_stores → flushed w w.
Proof.
  intros He. split; [done|..]; intros id; unfold user_balance, token_balance, channel_balance; rewrite He;
    cbn -[pending]; rewrite ?pending_empty.
  - destruct (user_view (w_db w) id); cbn; [by rewrite add_user_0|done].
  - destruct (token_view (w_db w) id); cbn; [by rewrite add_token_0|done].
  - by destruct (channel_view (w_db w) id).
Qed.

Lemma wp_batch_update env shuffle w :
  (∀ A (l : list A), shuffle A l ≡ₚ l) →
  wp (batchUpdate env shuffle) (λ r w', r = Ok tt ∧ flushed w w') w.
Proof.
  intros Hsh. unfold batchUpdate. wp_step. wp_step. wp_step.
  { wp_step. split; [done|]. apply flushed_empty. destruct (w_stores w). cbn in *. naive_solver. }
  wp_step. wp_step. wp_step. apply wp_on_db. eapply wp_mono; [apply flush_tokens|].
  intros r db1 (-> & Ht1 & Hu1 & Hc1). wp_step. apply wp_on_db. eapply wp_mono; [apply flush_channels|].
  intros r db2 (-> & Hc2 & Hu2 & Ht2). apply wp_on_db. eapply wp_mono; [apply flush_users|].
  { rewrite Hsh. apply NoDup_elements. }
  intros r db3 (-> & Hu3 & Ht3 & Hc3). split; [done|]. cbn in *. split; [done|..]; intros id; cbn.
  - rewrite Hu3, (user_view_ext _ _ id Hu2), (user_view_ext _ _ id Hu1). unfold user_balance.
    destruct (user_view (w_db w) id) as [v|]; [|done]. cbn. f_equal. unfold user_flushed, pending.
    destruct (decide _) as [Hin|Hin]; [done|]. rewrite Hsh in Hin.
    rewrite elem_of_elements, !not_elem_of_union, !not_elem_of_dom in Hin.
    destruct Hin as ((-> & ->) & ->). symmetry. apply add_user_0.
  - rewrite (token_view_ext _ _ id Ht3), (token_view_ext _ _ id Ht2), Ht1.
    unfold token_balance. by rewrite (sum_at_map (bs_TokenQuota (w_stores w))).
  - rewrite (channel_view_ext _ _ id Hc3), Hc2, (channel_view_ext _ _ id Hc1).
    unfold channel_balance. by rewrite (sum_at_map (bs_ChannelUsedQuota (w_stores w))).
Qed.

(** ** Batched and direct updates *)

(** The changes of balances that may be batched. *)
Inductive quota_op :=
| IncreaseUser (id quota : Z)
| DecreaseUser (id quota : Z)
| DeltaUser (id delta : Z)
| IncreaseToken (id quota : Z)
| DecreaseToken (id quota : Z)
| CountRequest (id quota : Z)
| UseChannel (id quota : Z).

Definition run_quota_op (cfg : Config) (op : quota_op) : W () :=
  match op with
  | IncreaseUser id q => IncreaseUserQuota cfg id q false
  | DecreaseUser id q => DecreaseUserQuota cfg id q false
  | DeltaUser id d => DeltaUpdateUserQuota cfg id d
  | IncreaseToken id q => IncreaseTokenQuota cfg id q
  | DecreaseToken id q => DecreaseTokenQuota cfg id q
  | CountRequest id q => UpdateUserUsedQuotaAndRequestCount cfg id q
  | UseChannel id q => UpdateChannelUsedQuota cfg id q
  end.

(** A sequence of calls, each of them on its own. *)
Definition run_quota_ops (cfg : Config) (ops : list quota_op) : W () :=
  for_each ops (λ op, _ ← attempt (run_quota_op cfg op); mret tt).

(** What a call changes: the quota and the counters of the user [id], the quota of
    the token [id], the counter of the channel [id].  A negative quota is an error
    and changes nothing. *)
Definition user_change (op : quota_op) (id : Z) : Z * Z * Z :=
  match op with
  | IncreaseUser i q => if decide (id = i ∧ 0 ≤ q) then (q, 0, 0) else (0, 0, 0)
  | DecreaseUser i q => if decide (id = i ∧ 0 ≤ q) then (- q, 0, 0) else (0, 0, 0)
  | DeltaUser i d => if decide (id = i) then (d, 0, 0) else (0, 0, 0)
  | CountRequest i q => if decide (id = i) then (0, q, 1) else (0, 0, 0)
  | _ => (0, 0, 0)
  end.
Definition token_change (op : quota_op) (id : Z) : Z :=
  match op with
  | IncreaseToken i q => if decide (id = i ∧ 0 ≤ q) then q else 0
  | DecreaseToken i q => if decide (id = i ∧ 0 ≤ q) then - q else 0
  | _ => 0
  end.
Definition channel_change (op : quota_op) (id : Z) : Z :=
  match op with
  | UseChannel i q => if decide (id = i) then q else 0
  | _ => 0
  end.

Definition size (op : quota_op) : Z :=
  match op with
  | IncreaseUser _ q | DecreaseUser _ q | DeltaUser _ q | IncreaseToken _ q | DecreaseToken _ q
  | UseChannel _ q => Z.abs q
  | CountRequest _ q => Z.abs q + 1
  end.

Definition add_user3 (d v : Z * Z * Z) : Z * Z * Z := add_user d.1.1 d.1.2 d.2 v.

(** The balances of every user, token and channel change by the given amounts. *)
Record shifted (w w' : World) (du : Z → Z * Z * Z) (dt dc : Z → Z) : Prop := {
  sh_users : ∀ id, user_balance w' id = add_user3 (du id) <$> user_balance w id;
  sh_tokens : ∀ id, token_balance w' id = add_token (dt id) <$> token_balance w id;
  sh_channels : ∀ id, channel_balance w' id = Z.add (dc id) <$> channel_balance w id;
}.

(** All that waits in the stores is at most [n] in size. *)
Definition stores_within (n : Z) (s : BatchStores) : Prop :=
  ∀ id, Z.abs (pending (bs_UserQuota s) id) ≤ n ∧ Z.abs (pending (bs_TokenQuota s) id) ≤ n ∧
    Z.abs (pending (bs_UsedQuota s) id) ≤ n ∧ Z.abs (pending (bs_ChannelUsedQuota s) id) ≤ n ∧
    Z.abs (pending (bs_RequestCount s) id) ≤ n.

Lemma shifted_0 w : shifted w w (λ _, (0, 0, 0)) (λ _, 0) (λ _, 0).
Proof.
  split; intros id; [destruct (user_balance w id)|destruct (token_balance w id)|destruct (channel_balance w id)];
    cbn; [unfold add_user3; cbn; by rewrite add_user_0|done|by rewrite add_token_0|done..].
Qed.

Lemma shifted_ext w w' du dt dc du' dt' dc' :
  shifted w w' du dt dc → (∀ id, du id = du' id) → (∀ id, dt id = dt' id) → (∀ id, dc id = dc' id) →
  shifted w w' du' dt' dc'.
Proof. intros [Hu Ht Hc] H1 H2 H3. split; intros id; [by rewrite <-H1|by rewrite <-H2|by rewrite <-H3]. Qed.

Lemma shifted_trans w w1 w2 du dt dc du' dt' dc' :
  shifted w w1 du dt dc → shifted w1 w2 du' dt' dc' →
  shifted w w2 (λ id, add_user3 (du' id) (du id)) (λ id, dt id + dt' id) (λ id, dc id + dc' id).
Proof.
  intros [Hu Ht Hc] [Hu' Ht' Hc']. split; intros id.
  - rewrite Hu', Hu. destruct (user_balance w id); [|done]. cbn. f_equal. unfold add_user3, add_user. cbn.
    repeat match goal with |- (_, _) = (_, _) => f_equal end; lia.
  - rewrite Ht', Ht. destruct (token_balance w id); [|done]. cbn. f_equal. rewrite add_token_add. f_equal. lia.
  - rewrite Hc', Hc. destruct (channel_balance w id); [|done]. cbn. f_equal. lia.
Qed.

Definition at_key {A} (zero v : A) (id i : Z) : A := if decide (i = id) then v else zero.

Lemma stores_within_mono n m s : n ≤ m → stores_within n s → stores_within m s.
Proof. intros Hnm Hs id. specialize (Hs id). lia. Qed.

(** A change recorded in the stores. *)
Lemma record_shifted t id v w n :
  stores_within n (w_stores w) → n + Z.abs v ≤ max_int64 →
  wp (addNewRecord t id v) (λ r w', r = Ok tt ∧ stores_within (n + Z.abs v) (w_stores w') ∧
    shifted w w'
      (at_key (0, 0, 0) match t with
                        | BatchUpdateTypeUserQuota => (v, 0, 0)
                        | BatchUpdateTypeUsedQuota => (0, v, 0)
                        | BatchUpdateTypeRequestCount => (0, 0, v)
                        | _ => (0, 0, 0) end id)
      (at_key 0 match t with BatchUpdateTypeTokenQuota => v | _ => 0 end id)
      (at_key 0 match t with BatchUpdateTypeChannelUsedQuota => v | _ => 0 end id)) w.
Proof.
  intros Hw Hfit. pose proof (Hw id) as Hid. unfold addNewRecord. wp_step. split; [done|]. split.
  - intros i. specialize (Hw i). destruct t; cbn -[pending]; rewrite ?pending_add by (unfold in_int64; lia);
      split_and!; try lia; case_decide; lia.
  - unfold at_key.
    split; intros i; unfold user_balance, token_balance, channel_balance; destruct t; cbn -[pending];
      rewrite ?pending_add by (unfold in_int64; lia);
      match goal with
      | |- context [user_view ?d i] => destruct (user_view d i) as [[[? ?] ?]|]
      | |- context [token_view ?d i] => destruct (token_view d i) as [[? ?]|]
      | |- context [channel_view ?d i] => destruct (channel_view d i)
      end; try done; cbn -[pending];
      unfold add_user3, add_user, add_token; case_decide; cbn -[pending]; f_equal;
      repeat match goal with |- (_, _) = (_, _) => f_equal end; lia.
Qed.

(** A change written to the database. *)
Lemma direct_users f du w :
  (∀ u, u_Id (f u) = u_Id u) →
  (∀ u, (u_Quota (f u), u_UsedQuota (f u), u_RequestCount (f u)) =
        add_user3 du (u_Quota u, u_UsedQuota u, u_RequestCount u)) →
  ∀ id, shifted w (w <| w_db ::= λ d, d <| users ::= update_where (λ u, u_Id u = id) f |> |>)
          (at_key (0, 0, 0) du id) (at_key 0 0 id) (at_key 0 0 id).
Proof.
  intros Hid Hf id. unfold at_key.
  split; intros i; unfold user_balance, token_balance, channel_balance; cbn -[pending user_view].
  - unfold user_view. cbn -[by_id update_where pending]. rewrite by_id_users by done.
    destruct (by_id i (users (w_db w))) as [u|]; cbn -[pending]; [|done]. f_equal.
    destruct (decide (i = id)); cbn -[pending]; [rewrite Hf|]; unfold add_user3, add_user; cbn -[pending];
      repeat match goal with |- (_, _) = (_, _) => f_equal end; lia.
  - rewrite (token_view_ext (w_db w)) by done. destruct (token_view (w_db w) i); [|done].
    case_decide; cbn -[pending]; by rewrite add_token_0.
  - rewrite (channel_view_ext (w_db w)) by done. destruct (channel_view (w_db w) i); [|done]. by case_decide.
Qed.

Lemma direct_tokens env q id w :
  shifted w (w <| w_db := (increaseTokenQuota env id q (w_db w)).2 |>)
    (at_key (0, 0, 0) (0, 0, 0) id) (at_key 0 q id) (at_key 0 0 id).
Proof.
  unfold at_key. split; intros i; unfold user_balance, token_balance, channel_balance; cbn -[pending token_view].
  - rewrite (user_view_ext (w_db w)) by done. destruct (user_view (w_db w) i); [|done].
    case_decide; cbn -[pending]; unfold add_user3; cbn -[pending]; by rewrite add_user_0.
  - unfold token_view. cbn -[by_id update_where pending]. rewrite by_id_tokens by done.
    destruct (by_id i (tokens (w_db w))) as [t|]; cbn -[pending]; [|done]. f_equal.
    destruct (decide (i = id)); unfold add_token; cbn -[pending]; f_equal; lia.
  - rewrite (channel_view_ext (w_db w)) by done. destruct (channel_view (w_db w) i); [|done]. by case_decide.
Qed.

Lemma decrease_token_increase env id q db :
  (decreaseTokenQuota env id q db).2 = (increaseTokenQuota env id (- q) db).2.
Proof.
  cbn. unfold update_where. cbn. do 2 f_equal. apply list_fmap_ext. intros i t _. case_decide; [|done].
  destruct t. cbn. f_equal; lia.
Qed.

Lemma direct_channels q id w :
  shifted w (w <| w_db := (updateChannelUsedQuota id q (w_db w)).2 |>)
    (at_key (0, 0, 0) (0, 0, 0) id) (at_key 0 0 id) (at_key 0 q id).
Proof.
  unfold at_key. split; intros i; unfold user_balance, token_balance, channel_balance; cbn -[pending channel_view].
  - rewrite (user_view_ext (w_db w)) by done. destruct (user_view (w_db w) i); [|done].
    case_decide; cbn -[pending]; unfold add_user3; cbn -[pending]; by rewrite add_user_0.
  - rewrite (token_view_ext (w_db w)) by done. destruct (token_view (w_db w) i); [|done].
    case_decide; cbn -[pending]; by rewrite add_token_0.
  - unfold channel_view. cbn -[by_id update_where pending]. rewrite by_id_channels by done.
    destruct (by_id i (channels (w_db w))) as [c|]; cbn -[pending]; [|done]. f_equal.
    destruct (decide (i = id)); cbn -[pending]; lia.
Qed.

(** What a call leaves: the balances shifted, the stores within bounds, and
    untouched without batching. *)
Definition quota_post (cfg : Config) (w : World) (n : Z) (du : Z → Z * Z * Z) (dt dc : Z → Z) (w' : World) : Prop :=
  shifted w w' du dt dc ∧ stores_within n (w_stores w') ∧ (cf_batch cfg = false → w_stores w' = w_stores w).

Lemma user_quota_post cfg id q (m : Z → Tx ()) v w n :
  (∀ d, m q d = (Ok tt, d <| users ::= update_where (λ u, u_Id u = id) (λ u, u <| u_Quota ::= λ x, x + v |>) |>)) →
  stores_within n (w_stores w) → n + Z.abs v ≤ max_int64 →
  wp (if cf_batch cfg then addNewRecord BatchUpdateTypeUserQuota id v else on_db (m q))
    (λ _ w', quota_post cfg w (n + Z.abs v) (at_key (0, 0, 0) (v, 0, 0) id) (at_key 0 0 id) (at_key 0 0 id) w') w.
Proof.
  intros Hm Hw Hfit. unfold quota_post. destruct (cf_batch cfg).
  - eapply wp_mono; [by apply record_shifted|]. intros r w' (_ & Hs & Hsh). by split_and!.
  - unfold wp, on_db. rewrite Hm. cbn [fst snd]. split_and!.
    + apply (direct_users (λ u, u <| u_Quota ::= λ x, x + v |>) (v, 0, 0) w); [done|].
      intros u. unfold add_user3, add_user. cbn. repeat match goal with |- (_, _) = (_, _) => f_equal end; lia.
    + apply (stores_within_mono n); [lia|done].
    + done.
Qed.

Lemma token_quota_post cfg id q (m : Z → Tx ()) v w n :
  (∀ d, m q d = (Ok tt, (increaseTokenQuota (cf_env cfg) id v d).2)) →
  stores_within n (w_stores w) → n + Z.abs v ≤ max_int64 →
  wp (if cf_batch cfg then addNewRecord BatchUpdateTypeTokenQuota id v else on_db (m q))
    (λ _ w', quota_post cfg w (n + Z.abs v) (at_key (0, 0, 0) (0, 0, 0) id) (at_key 0 v id) (at_key 0 0 id) w') w.
Proof.
  intros Hm Hw Hfit. unfold quota_post. destruct (cf_batch cfg).
  - eapply wp_mono; [by apply record_shifted|]. intros r w' (_ & Hs & Hsh). by split_and!.
  - unfold wp, on_db. rewrite Hm. cbn [fst snd]. split_and!; [apply direct_tokens| |done].
    apply (stores_within_mono n); [lia|done].
Qed.

Lemma count_post cfg id q w n :
  stores_within n (w_stores w) → n + (Z.abs q + 1) ≤ max_int64 →
  wp (UpdateUserUsedQuotaAndRequestCount cfg id q)
    (λ _ w', quota_post cfg w (n + (Z.abs q + 1)) (at_key (0, 0, 0) (0, q, 1) id) (at_key 0 0 id) (at_key 0 0 id) w') w.
Proof.
  intros Hw Hfit. unfold UpdateUserUsedQuotaAndRequestCount, quota_post. destruct (cf_batch cfg).
  - wp_step. eapply wp_mono; [apply (record_shifted _ _ _ _ n); [done|lia]|]. intros r w1 (-> & Hs1 & H1).
    eapply wp_mono; [apply (record_shifted _ _ _ _ (n + Z.abs q)); [done|lia]|]. intros r w2 (_ & Hs2 & H2).
    split_and!; [|apply (stores_within_mono (n + Z.abs q + Z.abs 1)); [lia|done]|done].
    eapply shifted_ext; [exact (shifted_trans _ _ _ _ _ _ _ _ _ H1 H2)|..]; intros i; unfold at_key, add_user3, add_user;
      case_decide; cbn; try done; repeat match goal with |- (_, _) = (_, _) => f_equal end; lia.
  - apply wp_on_db. unfold updateUserUsedQuotaAndRequestCount. wp_step. split_and!.
    + apply (direct_users (λ u, u <| u_UsedQuota ::= λ x, x + q |> <| u_RequestCount ::= λ x, x + 1 |>) (0, q, 1) w); [done|].
      intros u. unfold add_user3, add_user. cbn. repeat match goal with |- (_, _) = (_, _) => f_equal end; lia.
    + apply (stores_within_mono n); [lia|done].
    + done.
Qed.

Lemma channel_post cfg id q w n :
  stores_within n (w_stores w) → n + Z.abs q ≤ max_int64 →
  wp (UpdateChannelUsedQuota cfg id q)
    (λ _ w', quota_post cfg w (n + Z.abs q) (at_key (0, 0, 0) (0, 0, 0) id) (at_key 0 0 id) (at_key 0 q id) w') w.
Proof.
  intros Hw Hfit. unfold UpdateChannelUsedQuota, quota_post. destruct (cf_batch cfg).
  - eapply wp_mono; [by apply record_shifted|]. intros r w' (_ & Hs & Hsh). by split_and!.
  - unfold wp, on_db. cbn [fst snd]. split_and!; [apply direct_channels| |done].
    apply (stores_within_mono n); [lia|done].
Qed.

Lemma quota_post_ext cfg w n n' du dt dc du' dt' dc' w' :
  quota_post cfg w n du dt dc w' → n ≤ n' → (∀ id, du id = du' id) → (∀ id, dt id = dt' id) →
  (∀ id, dc id = dc' id) → quota_post cfg w n' du' dt' dc' w'.
Proof.
  intros (Hs & Hw & Hb) Hn Hu Ht Hc. split_and!; [by eapply shifted_ext|by eapply stores_within_mono|done].
Qed.

(** The changes of a call against those of its case. *)
Ltac change_solve :=
  intros ?; unfold user_change, token_change, channel_change, at_key; repeat case_decide;
  repeat match goal with |- (_, _) = (_, _) => f_equal end; solve [done | lia].

Lemma increase_user_post cfg id q w n :
  stores_within n (w_stores w) → 0 ≤ q → n + q ≤ max_int64 →
  wp (IncreaseUserQuota cfg id q false)
    (λ _ w', quota_post cfg w (n + q) (at_key (0, 0, 0) (q, 0, 0) id) (at_key 0 0 id) (at_key 0 0 id) w') w.
Proof.
  intros Hw Hq Hfit. unfold IncreaseUserQuota. wp_pass. cbn [negb andb].
  eapply wp_mono; [apply (user_quota_post cfg id q (increaseUserQuota id) q w n); [done|done|lia]|].
  intros r w' Hp. eapply quota_post_ext; [exact Hp|lia|done..].
Qed.

Lemma decrease_user_post cfg id q w n :
  stores_within n (w_stores w) → 0 ≤ n → 0 ≤ q → n + q ≤ max_int64 →
  wp (DecreaseUserQuota cfg id q false)
    (λ _ w', quota_post cfg w (n + q) (at_key (0, 0, 0) (- q, 0, 0) id) (at_key 0 0 id) (at_key 0 0 id) w') w.
Proof.
  intros Hw Hn Hq Hfit. unfold DecreaseUserQuota. wp_pass. cbn [negb andb]. unwrap.
  eapply wp_mono; [apply (user_quota_post cfg id q (decreaseUserQuota id) (- q) w n); [done|done|lia]|].
  intros r w' Hp. eapply quota_post_ext; [exact Hp|lia|done..].
Qed.

Lemma op_post cfg op w n :
  stores_within n (w_stores w) → 0 ≤ n → n + size op ≤ max_int64 →
  wp (run_quota_op cfg op)
    (λ _ w', quota_post cfg w (n + size op) (user_change op) (token_change op) (channel_change op) w') w.
Proof.
  intros Hw Hn Hfit.
  assert (Hnone : quota_post cfg w (n + size op) (λ _, (0, 0, 0)) (λ _, 0) (λ _, 0) w).
  { split_and!; [apply shifted_0|apply (stores_within_mono n); [destruct op; cbn; lia|done]|done]. }
  destruct op as [id q|id q|id d|id q|id q|id q|id q]; cbn [run_quota_op size] in *.
  - destruct (decide (q < 0)) as [Hneg|Hpos].
    + unfold IncreaseUserQuota. wp_step. wp_step; [|done]. eapply quota_post_ext; [exact Hnone|lia|change_solve..].
    + eapply wp_mono; [apply (increase_user_post cfg id q w n); [done|lia..]|].
      intros r w' Hp. eapply quota_post_ext; [exact Hp|lia|change_solve..].
  - destruct (decide (q < 0)) as [Hneg|Hpos].
    + unfold DecreaseUserQuota. wp_step. wp_step; [|done]. eapply quota_post_ext; [exact Hnone|lia|change_solve..].
    + eapply wp_mono; [apply (decrease_user_post cfg id q w n); [done|lia..]|].
      intros r w' Hp. eapply quota_post_ext; [exact Hp|lia|change_solve..].
  - unfold DeltaUpdateUserQuota. wp_step; [|wp_step].
    + wp_step. eapply quota_post_ext; [exact Hnone|lia|change_solve..].
    + eapply wp_mono; [apply (increase_user_post cfg id d w n); [done|lia..]|].
      intros r w' Hp. eapply quota_post_ext; [exact Hp|lia|change_solve..].
    + unwrap. eapply wp_mono; [apply (decrease_user_post cfg id (- d) w n); [done|lia..]|].
      intros r w' Hp. eapply quota_post_ext; [exact Hp|lia|change_solve..].
  - unfold IncreaseTokenQuota. wp_step. wp_step.
    + eapply quota_post_ext; [exact Hnone|lia|change_solve..].
    + eapply wp_mono; [apply (token_quota_post cfg id q (increaseTokenQuota (cf_env cfg) id) q w n); [done|done|lia]|].
      intros r w' Hp. eapply quota_post_ext; [exact Hp|lia|change_solve..].
  - unfold DecreaseTokenQuota. wp_step. wp_step.
    + eapply quota_post_ext; [exact Hnone|lia|change_solve..].
    + unwrap. eapply wp_mono.
      { apply (token_quota_post cfg id q (decreaseTokenQuota (cf_env cfg) id) (- q) w n); [|done|lia].
        intros d. by rewrite <-decrease_token_increase. }
      intros r w' Hp. eapply quota_post_ext; [exact Hp|lia|change_solve..].
  - eapply wp_mono; [by apply (count_post cfg id q w n)|].
    intros r w' Hp. eapply quota_post_ext; [exact Hp|lia|change_solve..].
  - eapply wp_mono; [by apply (channel_post cfg id q w n)|].
    intros r w' Hp. eapply quota_post_ext; [exact Hp|lia|change_solve..].
Qed.

Definition user_changes (ops : list quota_op) (id : Z) : Z * Z * Z :=
  foldr (λ op acc, add_user3 acc (user_change op id)) (0, 0, 0) ops.

Lemma ops_post cfg ops w n :
  stores_within n (w_stores w) → 0 ≤ n → n + sumZ size ops ≤ max_int64 →
  wp (run_quota_ops cfg ops)
    (λ r w', r = Ok tt ∧ quota_post cfg w (n + sumZ size ops) (user_changes ops)
       (λ id, sumZ (λ op, token_change op id) ops) (λ id, sumZ (λ op, channel_change op id) ops) w') w.
Proof.
  unfold run_quota_ops. revert w n. induction ops as [|op ops IH]; intros w n Hw Hn Hfit; cbn [for_each].
  - wp_step. split; [done|]. split_and!; [apply shifted_0|apply (stores_within_mono n); [cbn; lia|done]|done].
  - cbn [sumZ] in Hfit. assert (Hsize : 0 ≤ size op) by (destruct op; cbn; lia).
    assert (Hrest : 0 ≤ sumZ size ops) by (apply sumZ_nonneg; apply Forall_forall; intros [] _; cbn; lia).
    wp_step. wp_step. wp_step. eapply wp_mono; [by apply (op_post cfg op w n); [done|done|lia]|].
    intros r w1 (Hs1 & Hw1 & Hb1). wp_step. eapply wp_mono; [by apply (IH w1 (n + size op)); [done|lia|lia]|].
    intros r' w2 (-> & Hs2 & Hw2 & Hb2). split; [done|]. split_and!.
    + eapply shifted_ext; [exact (shifted_trans _ _ _ _ _ _ _ _ _ Hs1 Hs2)|done..].
    + apply (stores_within_mono (n + size op + sumZ size ops)); [cbn; lia|done].
    + intros Hb. by rewrite Hb2, Hb1.
Qed.

(** Without pending changes the balances are the database's. *)
Lemma views_of_balances w id :
  w_stores w = empty_stores →
  user_view (w_db w) id = user_balance w id ∧ token_view (w_db w) id = token_balance w id ∧
  channel_view (w_db w) id = channel_balance w id.
Proof. intros He. destruct (flushed_empty w He) as [_ Hu Ht Hc]. by rewrite Hu, Ht, Hc. Qed.

Definition quota_views (db : DB) (id : Z) : option (Z * Z * Z) * option (Z * Z) * option Z :=
  (user_view db id, token_view db id, channel_view db id).

(** C7: Batching delays changes of quotas and counters and never loses, duplicates or
    misplaces one.  From empty stores, a sequence of calls that increase or decrease
    user quotas, token quotas, request counters and channel counters, made with batch
    updates enabled and followed by one run of the background job, leaves every user,
    token and channel with the figures that the same calls leave without batching,
    whatever order the job visits its maps in, as long as the amounts involved add up
    to at most the largest 64-bit integer. *)
Theorem batch_equivalent env shuffle ops w :
  (∀ A (l : list A), shuffle A l ≡ₚ l) → w_stores w = empty_stores → sumZ size ops ≤ max_int64 →
  let direct := (run_quota_ops (mkConfig env false) ops w).2 in
  let batched := (batchUpdate env shuffle (run_quota_ops (mkConfig env true) ops w).2).2 in
  w_stores direct = empty_stores ∧ w_stores batched = empty_stores ∧
  ∀ id, quota_views (w_db batched) id = quota_views (w_db direct) id.
Proof.
  intros Hsh He Hfit direct batched.
  assert (Hw : stores_within 0 (w_stores w)).
  { intros id. rewrite He. cbn -[pending]. rewrite pending_empty. lia. }
  destruct (ops_post (mkConfig env false) ops w 0 Hw ltac:(lia) Hfit) as (_ & Hd & _ & Hstores).
  destruct (ops_post (mkConfig env true) ops w 0 Hw ltac:(lia) Hfit) as (_ & Hb & _).
  destruct (wp_batch_update env shuffle (run_quota_ops (mkConfig env true) ops w).2 Hsh) as [_ [Hs Hu Ht Hc]].
  fold direct in Hd, Hstores. fold batched in Hs, Hu, Ht, Hc.
  assert (Hde : w_stores direct = empty_stores) by (by rewrite Hstores).
  split_and!; [done|done|]. intros id. unfold quota_views. rewrite Hu, Ht, Hc.
  destruct (views_of_balances direct id Hde) as (-> & -> & ->).
  destruct Hd as [Hdu Hdt Hdc], Hb as [Hbu Hbt Hbc]. by rewrite Hdu, Hdt, Hdc, Hbu, Hbt, Hbc.
Qed.

Definition wallet_env : Env := mkEnv 1000 1000 0 (float_of_int 500000).
Definition wallet_db : DB :=
  empty_DB <| users := Table [example_user 1 500 0 0; example_user 2 80 5 1] 3 |>
           <| tokens := Table [mkToken 7 "sk" 300 0 0 false] 8 |>
           <| channels := Table [mkChannel 3 1 None "" "" 0 None] 4 |>.
Definition wallet_ops : list quota_op :=
  [DecreaseUser 1 120; DecreaseToken 7 120; DeltaUser 1 20; IncreaseToken 7 20; CountRequest 1 100;
   UseChannel 3 100; IncreaseUser 2 (-5); DecreaseUser 2 30].

Lemma batch_equivalent_witness :
  let batched :=
    (batchUpdate wallet_env (@reverse) (run_quota_ops (mkConfig wallet_env true) wallet_ops
       (mkWorld wallet_db empty_stores)).2).2 in
  quota_views (w_db batched) 1 =
    quota_views (w_db (run_quota_ops (mkConfig wallet_env false) wallet_ops (mkWorld wallet_db empty_stores)).2) 1 ∧
  quota_views (w_db batched) 1 = (Some (400, 100, 1), None, None).
Proof.
  split; [|vm_compute; reflexivity].
  apply (batch_equivalent wallet_env (@reverse) wallet_ops (mkWorld wallet_db empty_stores)).
  - intros A l. apply reverse_Permutation.
  - reflexivity.
  - vm_compute. discriminate.
Defined.
