(* ===== verification/Groups.v ===== *)
(** * Groups and their ratios

    [setting/ratio_setting/group_ratio.go], [setting/user_usable_group.go],
    [setting/auto_group.go] and [service/group.go]: the tables of the ratio each
    group of models is billed at, the overrides for groups of users, and the groups
    a user may choose.  The tables are replaced as a whole under a lock, so an
    update is one step.  The iteration order of a Go map is an argument [shuffle];
    the JSON decoder is a parameter of the updates that use it. *)
From S2P Require Import Prelude Tables GoFloat.

(** ** Definitions *)

Record GroupRatioInfo := mkRatio {
  gr_GroupRatio : float64;
  gr_GroupSpecialRatio : float64;
  gr_HasSpecialRatio : bool;
}.

(** The package variables that hold the tables. *)
Record GroupSettings := mkGroups {
  groupRatioMap : gmap string float64;
  groupGroupRatioMap : gmap string (gmap string float64);
  GroupSpecialUsableGroup : gmap string (gmap string string);
  userUsableGroups : gmap string string;
  autoGroups : list string;
}.
Global Instance GroupSettings_eta : Settable GroupSettings := λ g,
  mkGroups (groupRatioMap g) (groupGroupRatioMap g) (GroupSpecialUsableGroup g) (userUsableGroups g) (autoGroups g).

(** 0.3, 0.4, 0.99 and 1.32. *)
Definition defaultGroupRatio : gmap string float64 :=
  list_to_map [("gpt-plus", S754_finite false 5404319552844595 (-54));
               ("gpt-pro", S754_finite false 7205759403792794 (-54))].
Definition defaultGroupGroupRatio : gmap string (gmap string float64) :=
  list_to_map [("体验用户", list_to_map [("gpt-plus", S754_finite false 8917127262193582 (-53));
                                     ("gpt-pro", S754_finite false 5944751508129055 (-52))])].

(** The tables when the program starts. *)
Definition initial_groups : GroupSettings :=
  mkGroups defaultGroupRatio defaultGroupGroupRatio ∅
    (list_to_map [("gpt-plus", "Plus 模型分组"); ("gpt-pro", "PRO 模型分组")]) ["default"].

(** *** Reading *)

Definition ContainsGroupRatio (g : GroupSettings) (name : string) : bool :=
  bool_decide (is_Some (groupRatioMap g !! name)).

Definition GetGroupRatio (g : GroupSettings) (name : string) : float64 :=
  default float_one (groupRatioMap g !! name).

Definition GetGroupGroupRatio (g : GroupSettings) (userGroup usingGroup : string) : float64 * bool :=
  match groupGroupRatioMap g !! userGroup with
  | None => (float_minus_one, false)
  | Some gp =>
    match gp !! usingGroup with
    | None => (float_minus_one, false)
    | Some ratio =>
      if negb (isFiniteRatio ratio) || (ratio <=? float_zero)%float then (float_minus_one, false)
      else (ratio, true)
    end
  end.

Definition GetGroupRatioInfo (g : GroupSettings) (userGroup usingGroup : string) : GroupRatioInfo :=
  match GetGroupGroupRatio g userGroup usingGroup with
  | (specialRatio, true) => mkRatio specialRatio specialRatio true
  | (_, false) => mkRatio (GetGroupRatio g usingGroup) float_minus_one false
  end.

Section Order.
Context (shuffle : ∀ {A}, list A → list A).

(** The ratio of every group for a user, as the page of prices shows it. *)
Definition GetUserGroupRatioSnapshot (g : GroupSettings) (userGroup : string) : gmap string float64 :=
  match groupGroupRatioMap g !! userGroup with
  | None => groupRatioMap g
  | Some specialRatios =>
    foldl (λ (snapshot : gmap string float64) '(group, ratio),
             if decide (is_Some (snapshot !! group) ∧ isFiniteRatio ratio = true ∧ (float_zero <? ratio)%float = true)
             then <[group := ratio]> snapshot else snapshot)
      (groupRatioMap g) (shuffle _ (map_to_list specialRatios))
  end.

Definition GetUserGroupRatio (g : GroupSettings) (userGroup group : string) : float64 :=
  gr_GroupRatio (GetGroupRatioInfo g userGroup group).

Definition GetValuePackageGroupRatio (g : GroupSettings) (packageGroup group : string) : float64 :=
  match GetGroupGroupRatio g (TrimSpace packageGroup) (TrimSpace group) with
  | (ratio, true) => ratio
  | (_, false) => float_one
  end.

(** [strings.TrimPrefix]. *)
Definition TrimPrefix (s prefix : string) : string :=
  if String.prefix prefix s then String.substring (String.length prefix) (String.length s - String.length prefix) s
  else s.

Definition GetUserUsableGroups (g : GroupSettings) (userGroup : string) : gmap string string :=
  let groupsCopy := userUsableGroups g in
  if decide (userGroup = "") then groupsCopy
  else match GroupSpecialUsableGroup g !! userGroup with
       | None => groupsCopy
       | Some specialSettings =>
         foldl (λ (groupsCopy : gmap string string) '(specialGroup, desc),
                  if String.prefix "-:" specialGroup then delete (TrimPrefix specialGroup "-:") groupsCopy
                  else if String.prefix "+:" specialGroup then <[TrimPrefix specialGroup "+:" := desc]> groupsCopy
                  else <[specialGroup := desc]> groupsCopy)
           groupsCopy (shuffle _ (map_to_list specialSettings))
       end.

Definition GroupInUserUsableGroups (g : GroupSettings) (userGroup groupName : string) : bool :=
  bool_decide (is_Some (GetUserUsableGroups g userGroup !! groupName)).

Definition GetUserAutoGroup (g : GroupSettings) (userGroup : string) : list string :=
  filter (λ group, is_Some (GetUserUsableGroups g userGroup !! group)) (autoGroups g).

Definition ContainsAutoGroup (g : GroupSettings) (group : string) : bool :=
  existsb (λ autoGroup, bool_decide (autoGroup = group)) (autoGroups g).

(** *** Updating *)

(** The map a loop that starts from an empty one ends with. *)
Definition collected {K V} `{Countable K} (m : M (gmap K V) ()) : result (gmap K V) :=
  match m ∅ with
  | (Ok _, acc) => Ok acc
  | (Err e, _) => Err e
  end.

(** One round of the loop of [NormalizeGroupRatio]. *)
Definition add_group_ratio (entry : string * float64) : M (gmap string float64) () :=
  let '(rawName, ratio) := entry in
  let name := TrimSpace rawName in
  _ ← fail_if (name = "") (ErrNew "group ratio name must not be empty");
  normalized ← get;
  _ ← fail_if (is_Some (normalized !! name)) (ErrNew ("group ratio name conflicts after trimming: " +:+ name));
  _ ← fail_if (isFiniteRatio ratio = false) (ErrNew ("group ratio must be finite: " +:+ name));
  _ ← fail_if ((ratio <? float_zero)%float = true) (ErrNew ("group ratio must be not less than 0: " +:+ name));
  modify (insert name ratio).

Definition NormalizeGroupRatio (groupRatios : gmap string float64) : result (gmap string float64) :=
  collected (for_each (shuffle _ (map_to_list groupRatios)) add_group_ratio).

(** One round of the inner and of the outer loop of [NormalizeGroupGroupRatio];
    a missing map of children is JSON's null.  The outer loop keeps the parents it
    has seen beside the result. *)
Definition add_child_ratio (parent : string) (entry : string * float64) : M (gmap string float64) () :=
  let '(rawChild, ratio) := entry in
  let child := TrimSpace rawChild in
  _ ← fail_if (child = "") (ErrNew ("group group ratio child must not be empty: " +:+ parent));
  normalizedChildren ← get;
  _ ← fail_if (is_Some (normalizedChildren !! child))
        (ErrNew ("group group ratio child conflicts after trimming: " +:+ parent +:+ "/" +:+ child));
  _ ← fail_if (isFiniteRatio ratio = false ∨ (ratio <=? float_zero)%float = true)
        (ErrNew ("group group ratio must be finite and greater than 0: " +:+ parent +:+ "/" +:+ child));
  modify (insert child ratio).

Definition add_parent (entry : string * option (gmap string float64)) :
    M (gmap string (gmap string float64) * gset string) () :=
  let '(rawParent, childRatios) := entry in
  let parent := TrimSpace rawParent in
  _ ← fail_if (parent = "") (ErrNew "group group ratio parent must not be empty");
  '(_, seenParents) ← get;
  _ ← fail_if (parent ∈ seenParents) (ErrNew ("group group ratio parent conflicts after trimming: " +:+ parent));
  _ ← modify (prod_map id (union {[parent]}));
  childRatios ← or_error childRatios (ErrNew ("group group ratio children must be a JSON object: " +:+ parent));
  normalizedChildren ← lift (collected (for_each (shuffle _ (map_to_list childRatios)) (add_child_ratio parent)));
  if decide (normalizedChildren = ∅) then mret tt
  else modify (prod_map (insert parent normalizedChildren) id).

Definition NormalizeGroupGroupRatio (groupGroupRatios : gmap string (option (gmap string float64))) :
    result (gmap string (gmap string float64)) :=
  match for_each (shuffle _ (map_to_list groupGroupRatios)) add_parent (∅, ∅) with
  | (Ok _, (normalized, _)) => Ok normalized
  | (Err e, _) => Err e
  end.

(** [common.UnmarshalJsonStr] into the map of each table; null is [None]. *)
Context (unmarshal_ratios : string → result (option (gmap string (option float64)))).
Context (unmarshal_overrides : string → result (option (gmap string (option (gmap string float64))))).

(** The first ratio that is null, in the order of the loop, or the ratios. *)
Definition dereferenced (parsedPointers : gmap string (option float64)) : result (gmap string float64) :=
  collected (for_each (shuffle _ (map_to_list parsedPointers)) (λ '(name, ratio),
    ratio ← or_error ratio (ErrNew ("group ratio must not be null: " +:+ TrimSpace name));
    modify (insert name ratio))).

Definition ParseAndNormalizeGroupRatioJSON (jsonStr : string) : M GroupSettings (gmap string float64) :=
  parsedPointers ← lift (unmarshal_ratios jsonStr);
  parsedPointers ← or_error parsedPointers (ErrNew "group ratio must be a JSON object");
  parsed ← lift (dereferenced parsedPointers);
  lift (NormalizeGroupRatio parsed).

Definition ParseAndNormalizeGroupGroupRatioJSON (jsonStr : string) :
    M GroupSettings (gmap string (gmap string float64)) :=
  parsed ← lift (unmarshal_overrides jsonStr);
  parsed ← or_error parsed (ErrNew "group group ratio must be a JSON object");
  lift (NormalizeGroupGroupRatio parsed).

Definition UpdateGroupRatioByJSONString (jsonStr : string) : M GroupSettings () :=
  normalized ← ParseAndNormalizeGroupRatioJSON jsonStr;
  modify (λ g, g <| groupRatioMap := normalized |>).

Definition UpdateGroupGroupRatioByJSONString (jsonStr : string) : M GroupSettings () :=
  normalized ← ParseAndNormalizeGroupGroupRatioJSON jsonStr;
  modify (λ g, g <| groupGroupRatioMap := normalized |>).

Definition UpdateGroupRatioPairByJSONString (groupRatioJSON groupGroupRatioJSON : string) : M GroupSettings () :=
  groupRatio ← ParseAndNormalizeGroupRatioJSON groupRatioJSON;
  groupGroupRatio ← ParseAndNormalizeGroupGroupRatioJSON groupGroupRatioJSON;
  modify (λ g, g <| groupRatioMap := groupRatio |> <| groupGroupRatioMap := groupGroupRatio |>).
End Order.

(** ** Lemmas *)

(** *** Normalisation *)

(** The entries of a map under the names the program keeps them by. *)
Definition trimmed_entries {V} (l : list (string * V)) : list (string * V) := prod_map TrimSpace id <$> l.

(** A round of a loop that adds an entry under its trimmed name if it is [good] and
    the name is free, and fails otherwise. *)
Definition adds {V} (good : string → V → Prop) (f : string * V → M (gmap string V) ()) : Prop :=
  ∀ n v acc, wp (f (n, v)) (λ r acc', match r with
    | Ok _ => good (TrimSpace n) v ∧ acc !! TrimSpace n = None ∧ acc' = <[TrimSpace n := v]> acc
    | Err _ => ¬ (good (TrimSpace n) v ∧ acc !! TrimSpace n = None)
    end) acc.

(** What such a loop accepts. *)
Definition acceptable {V} (good : string → V → Prop) (l : list (string * V)) : Prop :=
  Forall (λ e, good (TrimSpace e.1) e.2) l ∧ NoDup (trimmed_entries l).*1.

Lemma acceptable_permutation {V} (good : string → V → Prop) l k : l ≡ₚ k → acceptable good l ↔ acceptable good k.
Proof. intros Hp. unfold acceptable, trimmed_entries. by rewrite Hp. Qed.

Lemma wp_adds {V} (good : string → V → Prop) f l acc :
  adds good f →
  wp (for_each l f) (λ r acc', match r with
    | Ok _ => acceptable good l ∧ (∀ n, n ∈ (trimmed_entries l).*1 → acc !! n = None) ∧
              acc' = list_to_map (trimmed_entries l) ∪ acc
    | Err _ => ¬ (acceptable good l ∧ ∀ n, n ∈ (trimmed_entries l).*1 → acc !! n = None)
    end) acc.
Proof.
  intros Hf. revert acc. induction l as [|[n v] l IH]; intros acc; cbn [for_each].
  { wp_step. split_and!; [by split; constructor|by intros n ?%elem_of_nil|]. cbn. by rewrite (left_id_L ∅ (∪)). }
  wp_step. eapply wp_mono; [apply Hf|]. intros [_|e] acc1.
  - intros (Hg & Hn & ->). eapply wp_mono; [apply IH|]. unfold acceptable. cbn -[TrimSpace list_to_map]. intros [[]|e] acc2.
    + intros ((Hall & Hnd) & Hfree & ->).
      assert (Hnew : TrimSpace n ∉ (trimmed_entries l).*1).
      { intros Hin. specialize (Hfree _ Hin). by rewrite lookup_insert_eq in Hfree. }
      split_and!; [by constructor|by constructor| |].
      * intros m [->|Hin]%elem_of_cons; [done|]. specialize (Hfree _ Hin). by apply lookup_insert_None in Hfree as [].
      * cbn -[TrimSpace]. rewrite <-insert_union_l, insert_union_r; [done|]. by apply not_elem_of_list_to_map_1.
    + intros Hbad [[Hall Hnd] Hfree]. apply Forall_cons in Hall as [_ Hall]. apply NoDup_cons in Hnd as [Hnew Hnd].
      apply Hbad. split; [done|]. intros m Hin. rewrite lookup_insert_ne by (by intros <-). apply Hfree. by right.
  - intros Hbad [[Hall _] Hfree]. apply Hbad. split; [by apply Forall_cons in Hall as [? _]|apply Hfree; by left].
Qed.

(** The loop on a map, whatever the order. *)
Lemma collected_adds {V} (good : string → V → Prop) f l :
  adds good f →
  match collected (for_each l f) with
  | Ok m => acceptable good l ∧ m = list_to_map (trimmed_entries l)
  | Err _ => ¬ acceptable good l
  end.
Proof.
  intros Hf. pose proof (wp_adds good f l ∅ Hf) as Hw. unfold wp in Hw. unfold collected.
  destruct (for_each l f ∅) as [[[]|e] m]; cbn in Hw.
  - destruct Hw as (? & _ & ->). by rewrite (right_id_L ∅ (∪)).
  - intros Hok. apply Hw. split; [done|]. intros. apply lookup_empty.
Qed.

Definition ratio_ok (name : string) (ratio : float64) : Prop := name ≠ "" ∧ nonneg_ratio ratio = true.
Definition override_ok (name : string) (ratio : float64) : Prop := name ≠ "" ∧ positive_ratio ratio = true.

Lemma adds_group_ratio : adds ratio_ok add_group_ratio.
Proof.
  intros n v acc. unfold add_group_ratio, ratio_ok, nonneg_ratio. apply wp_bind, wp_fail_if; intros H1; [naive_solver|].
  apply wp_bind, wp_get. apply wp_bind, wp_fail_if; intros H2; [intros [_ E]; rewrite E in H2; by destruct H2|].
  apply wp_bind, wp_fail_if; intros H3; [rewrite H3; naive_solver|].
  apply wp_bind, wp_fail_if; intros H4; [rewrite H4, andb_false_r; naive_solver|].
  wp_step. apply not_true_is_false in H4. apply not_false_is_true in H3. rewrite H3, H4.
  split_and!; [done..|by apply eq_None_not_Some|done].
Qed.

Lemma adds_child_ratio parent : adds override_ok (add_child_ratio parent).
Proof.
  intros n v acc. unfold add_child_ratio, override_ok. rewrite positive_not_le.
  apply wp_bind, wp_fail_if; intros H1; [naive_solver|].
  apply wp_bind, wp_get. apply wp_bind, wp_fail_if; intros H2; [intros [_ E]; rewrite E in H2; by destruct H2|].
  apply wp_bind, wp_fail_if; intros H3; [destruct H3 as [E|E]; rewrite E, ?andb_false_r; naive_solver|].
  wp_step. split_and!; [done| |by apply eq_None_not_Some|done].
  destruct (isFiniteRatio v), (v <=? float_zero)%float; naive_solver.
Qed.

Lemma trimmed_entries_keys {V} (l : list (string * V)) n : n ∈ (trimmed_entries l).*1 → TrimSpace n = n.
Proof.
  unfold trimmed_entries. rewrite <-list_fmap_compose. intros ([m v] & -> & _)%list_elem_of_fmap. apply TrimSpace_idem.
Qed.

Lemma acceptable_wf {V} (good : string → V → Prop) l :
  acceptable good l → map_Forall (λ n v, TrimSpace n = n ∧ good n v) (list_to_map (trimmed_entries l) : gmap string V).
Proof.
  intros [Hall Hnd] n v Hin%elem_of_list_to_map_2. split.
  - apply (trimmed_entries_keys l), list_elem_of_fmap. by exists (n, v).
  - apply list_elem_of_fmap in Hin as ([m w] & [= -> ->] & Hin). by rewrite Forall_forall in Hall; apply Hall in Hin.
Qed.

(** *** Well-formed tables *)

Definition ratios_wf (m : gmap string float64) : Prop := map_Forall (λ n r, TrimSpace n = n ∧ ratio_ok n r) m.
Definition children_wf (m : gmap string float64) : Prop := map_Forall (λ n r, TrimSpace n = n ∧ override_ok n r) m.
Definition overrides_wf (m : gmap string (gmap string float64)) : Prop :=
  map_Forall (λ n c, TrimSpace n = n ∧ n ≠ "" ∧ c ≠ ∅ ∧ children_wf c) m.
Definition groups_wf (g : GroupSettings) : Prop :=
  ratios_wf (groupRatioMap g) ∧ overrides_wf (groupGroupRatioMap g).

Section Facts.
Context (shuffle : ∀ A, list A → list A).

Lemma normalized_ratios_wf m m' : NormalizeGroupRatio shuffle m = Ok m' → ratios_wf m'.
Proof.
  unfold NormalizeGroupRatio. intros E. pose proof (collected_adds _ _ (shuffle _ (map_to_list m)) adds_group_ratio) as Hc.
  rewrite E in Hc. destruct Hc as [Hok ->]. by apply acceptable_wf.
Qed.

Lemma normalized_overrides_wf m m' : NormalizeGroupGroupRatio shuffle m = Ok m' → overrides_wf m'.
Proof.
  unfold NormalizeGroupGroupRatio. intros E.
  assert (Hw : wp (for_each (shuffle _ (map_to_list m)) (add_parent shuffle)) (λ _ s, overrides_wf s.1) (∅, ∅)).
  { apply wp_for_each; [apply map_Forall_empty|]. clear E. intros [raw cs] [acc seen] _ Hacc. cbn in Hacc.
    unfold add_parent. wp_guard as Hne; [done|]. do 2 wp_step. wp_guard as _; [done|]. do 2 wp_step. wp_step.
    wp_step; [|done]. wp_step. wp_step. destruct (collected _) as [children|e] eqn:Ec; [|done].
    wp_step; [by wp_step|]. wp_step. apply map_Forall_insert_2; [|done].
    pose proof (collected_adds _ _ (shuffle _ (map_to_list a)) (adds_child_ratio (TrimSpace raw))) as Hc.
    rewrite Ec in Hc. destruct Hc as [Hok ->]. split_and!; [apply TrimSpace_idem|done..|by apply acceptable_wf]. }
  destruct (for_each _ _ _) as [[[]|e] [acc seen]] eqn:Er; [|done]. injection E as <-. exact (wp_run _ _ _ _ _ Hw Er).
Qed.

Context (unmarshal_ratios : string → result (option (gmap string (option float64)))).
Context (unmarshal_overrides : string → result (option (gmap string (option (gmap string float64))))).

(** The updates of the tables by an administrator. *)
Inductive group_update :=
| SetRatios (json : string)
| SetOverrides (json : string)
| SetPair (ratios overrides : string).

Definition run_group_update (u : group_update) : M GroupSettings () :=
  match u with
  | SetRatios json => UpdateGroupRatioByJSONString shuffle unmarshal_ratios json
  | SetOverrides json => UpdateGroupGroupRatioByJSONString shuffle unmarshal_overrides json
  | SetPair ratios overrides =>
    UpdateGroupRatioPairByJSONString shuffle unmarshal_ratios unmarshal_overrides ratios overrides
  end.

Lemma wp_parse_ratios json g :
  wp (ParseAndNormalizeGroupRatioJSON shuffle unmarshal_ratios json)
    (λ r g', g' = g ∧ match r with Ok m => ratios_wf m | Err _ => True end) g.
Proof.
  unfold ParseAndNormalizeGroupRatioJSON. do 2 wp_step. destruct (unmarshal_ratios json); [|done].
  wp_step. wp_step; [|done]. do 2 wp_step. destruct (dereferenced _ _); [|done]. wp_step. split; [done|].
  destruct (NormalizeGroupRatio _ _) eqn:E; [|done]. by eapply normalized_ratios_wf.
Qed.

Lemma wp_parse_overrides json g :
  wp (ParseAndNormalizeGroupGroupRatioJSON shuffle unmarshal_overrides json)
    (λ r g', g' = g ∧ match r with Ok m => overrides_wf m | Err _ => True end) g.
Proof.
  unfold ParseAndNormalizeGroupGroupRatioJSON. do 2 wp_step. destruct (unmarshal_overrides json); [|done].
  wp_step. wp_step; [|done]. wp_step. split; [done|].
  destruct (NormalizeGroupGroupRatio _ _) eqn:E; [|done]. by eapply normalized_overrides_wf.
Qed.

Lemma wp_group_update u g :
  groups_wf g → wp (run_group_update u) (λ r g', groups_wf g' ∧ match r with Ok _ => True | Err _ => g' = g end) g.
Proof.
  intros [Hr Ho]. destruct u; cbn [run_group_update]; unfold UpdateGroupRatioByJSONString,
    UpdateGroupGroupRatioByJSONString, UpdateGroupRatioPairByJSONString; wp_step.
  - eapply wp_mono; [apply wp_parse_ratios|]. intros [m|e] g' [-> Hm]; [|done]. by wp_step.
  - eapply wp_mono; [apply wp_parse_overrides|]. intros [m|e] g' [-> Hm]; [|done]. by wp_step.
  - eapply wp_mono; [apply wp_parse_ratios|]. intros [m|e] g' [-> Hm]; [|done]. wp_step.
    eapply wp_mono; [apply wp_parse_overrides|]. intros [m'|e] g' [-> Hm']; [|done]. by wp_step.
Qed.

(** Updates one after the other; an update that fails is not the last. *)
Fixpoint run_group_updates (us : list group_update) (g : GroupSettings) : GroupSettings :=
  match us with
  | [] => g
  | u :: us => run_group_updates us (run_group_update u g).2
  end.

Lemma run_group_updates_wf us g : groups_wf g → groups_wf (run_group_updates us g).
Proof. revert g. induction us as [|u us IH]; intros g Hg; [done|]. cbn. apply IH. apply (wp_group_update u g Hg). Qed.
End Facts.

Lemma initial_groups_wf : groups_wf initial_groups.
Proof. by split; repeat (apply map_Forall_insert_2; [split_and!; try done|]); try apply map_Forall_empty. Qed.

Lemma override_positive g user group ratio : GetGroupGroupRatio g user group = (ratio, true) → positive_ratio ratio = true.
Proof.
  unfold GetGroupGroupRatio. rewrite positive_not_le. repeat case_match; try done. intros [= <-].
  by destruct (isFiniteRatio _), (_ <=? _)%float.
Qed.

Lemma no_unnamed_override g user group : groups_wf g → user = "" → GetGroupGroupRatio g user group = (float_minus_one, false).
Proof.
  intros [_ Ho] ->. unfold GetGroupGroupRatio. destruct (groupGroupRatioMap g !! "") as [c|] eqn:E; [|done].
  by apply Ho in E as (_ & Hne & _).
Qed.

Lemma group_ratio_nonneg g name : groups_wf g → nonneg_ratio (GetGroupRatio g name) = true.
Proof.
  intros [Hr _]. unfold GetGroupRatio. destruct (groupRatioMap g !! name) as [r|] eqn:E; [|done]. by apply Hr in E as (_ & _ & ?).
Qed.

(** *** Loops over a map *)

(** Loops that write each key of a map at most once see the same result in every
    order: the value at a key is the one its entry, if any, leaves there. *)
Section Folds.
Context {V : Type} (step : gmap string V → string * V → gmap string V) (target : string → string).
Context (effect : string * V → option V → option V).
Hypothesis step_at : ∀ m e g, step m e !! g = if decide (target e.1 = g) then effect e (m !! g) else m !! g.

Lemma foldl_other l m g : g ∉ target <$> l.*1 → foldl step m l !! g = m !! g.
Proof.
  revert m. induction l as [|e l IH]; intros m Hg; [done|]. cbn in *. apply not_elem_of_cons in Hg as [Hne Hg].
  rewrite IH by done. by rewrite step_at, decide_False.
Qed.

Lemma foldl_at l m e :
  NoDup (target <$> l.*1) → e ∈ l → foldl step m l !! target e.1 = effect e (m !! target e.1).
Proof.
  revert m. induction l as [|x l IH]; intros m Hnd Hin; [by apply elem_of_nil in Hin|].
  cbn in *. apply NoDup_cons in Hnd as [Hx Hnd]. apply elem_of_cons in Hin as [<-|Hin].
  - rewrite foldl_other by done. by rewrite step_at, decide_True.
  - rewrite IH by done. rewrite step_at, decide_False; [done|]. intros E. apply Hx. rewrite E.
    by do 2 apply list_elem_of_fmap_2.
Qed.
End Folds.

Lemma shuffled_entries {V} (shuffle : ∀ A, list A → list A) (m : gmap string V) e :
  (∀ A l, shuffle A l ≡ₚ l) → e ∈ shuffle _ (map_to_list m) ↔ m !! e.1 = Some e.2.
Proof. intros Hp. rewrite Hp. destruct e. apply elem_of_map_to_list. Qed.

Lemma shuffled_keys {V} (shuffle : ∀ A, list A → list A) (m : gmap string V) :
  (∀ A l, shuffle A l ≡ₚ l) → NoDup (shuffle _ (map_to_list m)).*1.
Proof. intros Hp. rewrite Hp. apply NoDup_fst_map_to_list. Qed.

(** ** Theorems *)

(** C40: whatever an administrator sends, in any number of updates, every table
    holds only trimmed, non-empty names with finite ratios, not negative for the
    groups and above zero for the overrides; so every ratio a request is billed at
    is finite and not negative, and an override is above zero. *)
Theorem group_ratios_finite shuffle unmarshal_ratios unmarshal_overrides us :
  let g := run_group_updates shuffle unmarshal_ratios unmarshal_overrides us initial_groups in
  groups_wf g ∧
  ∀ userGroup usingGroup, let info := GetGroupRatioInfo g userGroup usingGroup in
    nonneg_ratio (gr_GroupRatio info) = true ∧
    if gr_HasSpecialRatio info then gr_GroupSpecialRatio info = gr_GroupRatio info ∧ positive_ratio (gr_GroupRatio info) = true
    else gr_GroupRatio info = GetGroupRatio g usingGroup ∧ gr_GroupSpecialRatio info = float_minus_one.
Proof.
  intros g. assert (Hwf : groups_wf g) by apply run_group_updates_wf, initial_groups_wf. clearbody g. split; [done|].
  intros user group. unfold GetGroupRatioInfo. destruct (GetGroupGroupRatio g user group) as [r []] eqn:E; cbn.
  - apply override_positive in E. split; [by apply positive_nonneg|done].
  - split; [by apply group_ratio_nonneg|done].
Qed.

(** Normalising a table does not depend on the order in which Go visits its
    map: it succeeds exactly when every name is non-empty after trimming, no two
    names collide and every ratio is finite and not negative, and then the result
    holds every entry under its trimmed name; a result is accepted again and comes
    out unchanged. *)
Theorem normalize_ratios_ordered shuffle m :
  (∀ A l, shuffle A l ≡ₚ l) →
  match NormalizeGroupRatio shuffle m with
  | Ok m' => acceptable ratio_ok (map_to_list m) ∧ m' = list_to_map (trimmed_entries (map_to_list m)) ∧
             (∀ n r, m !! n = Some r → m' !! TrimSpace n = Some r) ∧ NormalizeGroupRatio shuffle m' = Ok m'
  | Err _ => ¬ acceptable ratio_ok (map_to_list m)
  end.
Proof.
  intros Hp. assert (Hspec : ∀ m, match NormalizeGroupRatio shuffle m with
    | Ok m' => acceptable ratio_ok (map_to_list m) ∧ m' = list_to_map (trimmed_entries (map_to_list m))
    | Err _ => ¬ acceptable ratio_ok (map_to_list m) end).
  { clear m. intros m. unfold NormalizeGroupRatio.
    pose proof (collected_adds _ _ (shuffle _ (map_to_list m)) adds_group_ratio) as Hc.
    pose proof (acceptable_permutation ratio_ok _ _ (Hp _ (map_to_list m))) as Hiff. destruct (collected _); [|by rewrite <-Hiff].
    destruct Hc as [Hok ->]. split; [by apply Hiff|]. destruct Hok as [_ Hnd]. apply list_to_map_proper; [done|].
    unfold trimmed_entries. by rewrite Hp. }
  pose proof (Hspec m) as Hm. destruct (NormalizeGroupRatio shuffle m) as [m'|] eqn:E; [|done]. destruct Hm as [Hok Hm'].
  split_and!; [done|done| |].
  - intros n r Hn. rewrite Hm'. destruct Hok as [_ Hnd]. apply elem_of_list_to_map_1; [done|].
    apply (list_elem_of_fmap_2 (prod_map TrimSpace id) _ (n, r)). by apply elem_of_map_to_list.
  - apply normalized_ratios_wf in E. pose proof (Hspec m') as Hm2.
    assert (Hid : trimmed_entries (map_to_list m') = map_to_list m').
    { unfold trimmed_entries. rewrite <-(list_fmap_id (map_to_list m')) at 2. apply list_fmap_ext.
      intros i [n r] Hi%list_elem_of_lookup_2%elem_of_map_to_list. apply E in Hi as [Hn _]. cbn -[TrimSpace]. by rewrite Hn. }
    rewrite Hid, list_to_map_to_list in Hm2. destruct (NormalizeGroupRatio shuffle m'); [by destruct Hm2 as [_ ->]|].
    exfalso. apply Hm2. split; [|rewrite Hid; apply NoDup_fst_map_to_list].
    apply Forall_forall. intros [n r] Hi%elem_of_map_to_list. apply E in Hi as [Hn ?]. cbn -[TrimSpace]. by rewrite Hn.
Qed.

(** The prices shown to a user are the ratios requests are billed at: the
    snapshot lists exactly the groups of the table, each with the ratio
    [GetGroupRatioInfo] bills. *)
Theorem snapshot_is_billed shuffle g userGroup group :
  (∀ A l, shuffle A l ≡ₚ l) →
  GetUserGroupRatioSnapshot shuffle g userGroup !! group =
    (λ _, GetUserGroupRatio g userGroup group) <$> groupRatioMap g !! group.
Proof.
  intros Hp. unfold GetUserGroupRatio, GetGroupRatioInfo, GetUserGroupRatioSnapshot, GetGroupGroupRatio, GetGroupRatio.
  destruct (groupGroupRatioMap g !! userGroup) as [sp|]; [|by destruct (groupRatioMap g !! group)].
  set (step := λ (s : gmap string float64) '(group, ratio), _).
  set (effect := λ (e : string * float64) (o : option float64), if positive_ratio e.2 then (λ _, e.2) <$> o else o).
  assert (Hstep : ∀ m e h, step m e !! h = if decide (e.1 = h) then effect e (m !! h) else m !! h).
  { intros m [n r] h. unfold step, effect, positive_ratio. cbn [fst snd]. case_decide as Hc; case_decide as Hn; subst; try done.
    - destruct Hc as ([x Hx] & -> & ->). by rewrite lookup_insert_eq, Hx.
    - by rewrite lookup_insert_ne.
    - destruct (m !! h) eqn:E; [|by case_match]. destruct (isFiniteRatio r), (float_zero <? r)%float; naive_solver. }
  destruct (sp !! group) as [r|] eqn:E.
  - assert (Hin : (group, r) ∈ shuffle _ (map_to_list sp)) by (by apply shuffled_entries).
    rewrite (foldl_at step id effect Hstep _ (groupRatioMap g) (group, r)); [|by rewrite list_fmap_id; apply shuffled_keys|done].
    unfold effect. cbn [fst snd]. change (id group) with group. rewrite positive_not_le.
    by destruct (groupRatioMap g !! group), (isFiniteRatio r), (r <=? float_zero)%float.
  - rewrite (foldl_other step id effect Hstep); [by destruct (groupRatioMap g !! group)|].
    rewrite list_fmap_id. intros ([n r] & -> & Hin)%list_elem_of_fmap. apply shuffled_entries in Hin; [|done]. cbn in *. congruence.
Qed.

(** The group a special setting adds or removes. *)
Definition usable_target (specialGroup : string) : string :=
  if String.prefix "-:" specialGroup then TrimPrefix specialGroup "-:"
  else if String.prefix "+:" specialGroup then TrimPrefix specialGroup "+:" else specialGroup.

(** Which groups a user may choose does not depend on the order in which Go
    visits the special settings of the user's group, as long as no two of them name
    the same group: a group with a setting is there, with the description of the
    setting, unless the setting removes it, and every other group is there as for
    everybody. *)
Theorem usable_groups_ordered shuffle g userGroup specialSettings group :
  (∀ A l, shuffle A l ≡ₚ l) → userGroup ≠ "" → GroupSpecialUsableGroup g !! userGroup = Some specialSettings →
  NoDup (usable_target <$> (map_to_list specialSettings).*1) →
  let usable := GetUserUsableGroups shuffle g userGroup in
  (∀ special desc, specialSettings !! special = Some desc → usable_target special = group →
     usable !! group = if String.prefix "-:" special then None else Some desc) ∧
  ((∀ special, is_Some (specialSettings !! special) → usable_target special ≠ group) →
     usable !! group = userUsableGroups g !! group).
Proof.
  intros Hp Hne Hsp Hnd usable. subst usable. unfold GetUserUsableGroups. rewrite decide_False, Hsp by done.
  set (step := λ (s : gmap string string) '(special, desc), _).
  set (effect := λ (e : string * string) (_ : option string), if String.prefix "-:" e.1 then None else Some e.2).
  assert (Hstep : ∀ m e h, step m e !! h = if decide (usable_target e.1 = h) then effect e (m !! h) else m !! h).
  { intros m [n d] h. unfold step, effect, usable_target. cbn [fst snd].
    destruct (String.prefix "-:" n); [|destruct (String.prefix "+:" n)]; case_decide as Hn;
      (rewrite <-Hn, ?lookup_delete_eq, ?lookup_insert_eq || rewrite ?lookup_delete_ne, ?lookup_insert_ne by done); done. }
  rewrite <-(Hp _ (map_to_list specialSettings)) in Hnd. split.
  - intros special desc Hin <-. apply (foldl_at step usable_target effect Hstep _ _ (special, desc)); [done|].
    by apply shuffled_entries.
  - intros Hno. apply (foldl_other step usable_target effect Hstep). rewrite <-list_fmap_compose.
    intros ([n d] & -> & Hin)%list_elem_of_fmap. apply shuffled_entries in Hin; [|done]. by apply (Hno n).
Qed.

(** ** Examples *)

Definition padded_ratios : gmap string float64 := {[ " gpt-plus " := float_one; "gpt-pro" := float_zero ]}.

Lemma normalize_ratios_ordered_witness :
  NormalizeGroupRatio (@reverse) padded_ratios = Ok {[ "gpt-plus" := float_one; "gpt-pro" := float_zero ]} ∧
  match NormalizeGroupRatio (@reverse) padded_ratios with
  | Ok m' => acceptable ratio_ok (map_to_list padded_ratios) ∧ m' = list_to_map (trimmed_entries (map_to_list padded_ratios)) ∧
             (∀ n r, padded_ratios !! n = Some r → m' !! TrimSpace n = Some r) ∧ NormalizeGroupRatio (@reverse) m' = Ok m'
  | Err _ => ¬ acceptable ratio_ok (map_to_list padded_ratios)
  end.
Proof.
  split; [vm_compute; reflexivity|]. apply normalize_ratios_ordered. intros A l. apply reverse_Permutation.
Defined.

Lemma snapshot_is_billed_witness :
  GetUserGroupRatioSnapshot (@reverse) initial_groups "体验用户" !! "gpt-pro" =
    Some (GetUserGroupRatio initial_groups "体验用户" "gpt-pro") ∧
  GetUserGroupRatio initial_groups "体验用户" "gpt-pro" = S754_finite false 5944751508129055 (-52).
Proof.
  split; [|vm_compute; reflexivity].
  refine (eq_trans (snapshot_is_billed (@reverse) initial_groups "体验用户" "gpt-pro" _) _).
  - intros A l. apply reverse_Permutation.
  - vm_compute. reflexivity.
Defined.

Definition special_groups : GroupSettings :=
  initial_groups <| GroupSpecialUsableGroup := {[ "体验用户" := {[ "-:gpt-plus" := ""; "+:trial" := "试用" ]} ]} |>.

Lemma usable_groups_ordered_witness :
  let usable := GetUserUsableGroups (@reverse) special_groups "体验用户" in
  usable !! "gpt-plus" = None ∧ usable !! "trial" = Some "试用" ∧ usable !! "gpt-pro" = Some "PRO 模型分组".
Proof.
  assert (Hp : ∀ A (l : list A), reverse l ≡ₚ l) by (intros A l; apply reverse_Permutation).
  pose proof (λ group, usable_groups_ordered (@reverse) special_groups "体验用户"
    {[ "-:gpt-plus" := ""; "+:trial" := "试用" ]} group Hp ltac:(discriminate) ltac:(vm_compute; reflexivity)
    ltac:(vm_compute; repeat constructor; set_solver)) as Hu.
  split; [|split].
  - refine (proj1 (Hu "gpt-plus") "-:gpt-plus" "" _ _); vm_compute; reflexivity.
  - refine (proj1 (Hu "trial") "+:trial" "试用" _ _); vm_compute; reflexivity.
  - refine (eq_trans (proj2 (Hu "gpt-pro") _) _); [|vm_compute; reflexivity].
    intros special [desc Hd]. apply lookup_insert_Some in Hd as [[<- _]|[_ Hd]]; [by vm_compute|].
    apply lookup_singleton_Some in Hd as [<- _]. by vm_compute.
Defined.
