(* ===== verification/Channels.v ===== *)
(** * The choice of an upstream channel

    [model/ability.go], [model/channel_cache.go], [service/channel_select.go] and the
    loop of [controller/relay.go] that tries a request again: which channel serves a
    request.  The channels of a group and a model are kept in a cache that is rebuilt
    from the database; among those of the priority in question one is drawn with a
    chance proportional to its weight.  A request that fails moves on to lower
    priorities and, for the group [auto], to the next group.

    [Intn] stands for [rand.Intn], which returns a number from 0 up to its argument;
    [shuffle] for the order in which [sort.Slice] and the database leave equal elements.
    The keys of channels with several keys, locks and logs are left out. *)
From S2P Require Import Prelude Tables GoFloat Schema Groups.

(** ** Definitions *)

Definition ChannelStatusEnabled := 1.

(** A run-time panic, which ends the request. *)
Definition ErrPanic := ErrVar "panic".

Definition GetPriority (channel : Channel) : Z := default 0 (ch_Priority channel).

(** The column is unsigned; [int] reads it as a signed number. *)
Definition GetWeight (channel : Channel) : Z := wrap64 (default 0 (ch_Weight channel)).

(** [strings.Split(s, sep)] for a separator of one byte. *)
Fixpoint split_on (sep : ascii) (s : string) : list string :=
  match s with
  | EmptyString => [""]
  | String a s' =>
    if decide (a = sep) then "" :: split_on sep s'
    else match split_on sep s' with
         | [] => [String a ""]
         | part :: parts => String a part :: parts
         end
  end.

(** *** Abilities *)

(** The abilities that a channel declares, each once. *)
Definition declared_abilities (channel : Channel) : list Ability :=
  let models_ := split_on "," (ch_Models channel) in
  let groups_ := split_on "," (ch_Group channel) in
  foldl (λ abilities '(model, group),
           if decide (Exists (λ a, ab_Group a +:+ "|" +:+ ab_Model a = group +:+ "|" +:+ model) abilities) then abilities
           else abilities ++ [mkAbility group model (ch_Id channel) (bool_decide (ch_Status channel = ChannelStatusEnabled))
                                (default 0 (ch_Priority channel)) (default 0 (ch_Weight channel))])
    [] (m ← models_; (λ g, (m, g)) <$> groups_).

(** The primary key of the table. *)
Definition ability_key (a : Ability) : string * string * Z := (ab_Group a, ab_Model a, ab_ChannelId a).

(** [INSERT ... ON CONFLICT DO NOTHING]. *)
Definition insert_ability (table : list Ability) (a : Ability) : list Ability :=
  if decide (ability_key a ∈ ability_key <$> table) then table else table ++ [a].

Definition AddAbilities (channel : Channel) : Tx () :=
  modify (λ d, d <| abilities ::= λ t, foldl insert_ability t (declared_abilities channel) |>).

Definition DeleteAbilities (channel : Channel) : Tx () :=
  modify (λ d, d <| abilities ::= filter (λ a, ab_ChannelId a ≠ ch_Id channel) |>).

Definition UpdateAbilities (channel : Channel) : Tx () :=
  transaction (_ ← DeleteAbilities channel; AddAbilities channel).

Definition UpdateAbilityStatus (channelId : Z) (status : bool) : Tx () :=
  modify (λ d, d <| abilities ::= fmap (λ a, if decide (ab_ChannelId a = channelId)
                                             then a <| ab_Enabled := status |> else a) |>).

(** *** Without the cache *)

Section Database.
Context (shuffle : ∀ {A}, list A → list A) (Intn : Z → Z).

Definition serves (group model : string) (a : Ability) : Prop :=
  ab_Group a = group ∧ ab_Model a = model ∧ ab_Enabled a = true.
Global Instance serves_dec group model a : Decision (serves group model a).
Proof. unfold serves. solve_decision. Defined.

(** [SELECT DISTINCT(priority) ... ORDER BY priority DESC]. *)
Definition priorities_desc (l : list Z) : list Z := merge_sort (flip Z.le) (remove_dups l).

Definition getPriority (group model : string) (retry : Z) : Tx Z :=
  db ← get;
  let priorities := priorities_desc (ab_Priority <$> filter (serves group model) (abilities db)) in
  let count := Z.of_nat (length priorities) in
  _ ← fail_if (count = 0) (ErrNew "数据库一致性被破坏");
  if decide (retry >= count) then or_error (last priorities) ErrPanic
  else if decide (retry < 0) then throw ErrPanic
  else or_error (priorities !! Z.to_nat retry) ErrPanic.

(** The rows of the query; with no row there is no greatest priority. *)
Definition getChannelQuery (group model : string) (retry : Z) : Tx (list Ability) :=
  db ← get;
  let found := filter (serves group model) (abilities db) in
  if decide (retry ≠ 0) then
    priority ← getPriority group model retry;
    mret (filter (λ a, ab_Priority a = priority) found)
  else mret (filter (λ a, Forall (λ b, ab_Priority b ≤ ab_Priority a) found) found).

Definition by_weight_desc (a b : Ability) : Prop := ab_Weight b ≤ ab_Weight a.
Global Instance by_weight_desc_dec : RelDecision by_weight_desc.
Proof. intros a b. unfold by_weight_desc. solve_decision. Defined.

(** The loop that finds the ability for the number drawn. *)
Fixpoint pick_ability (abilities : list Ability) (weight : Z) : option Ability :=
  match abilities with
  | [] => None
  | ability_ :: abilities =>
    let weight := weight -! (wrap64 (ab_Weight ability_) +! 10) in
    if decide (weight ≤ 0) then Some ability_ else pick_ability abilities weight
  end.

Definition GetChannel (group model : string) (retry : Z) : Tx (option Channel) :=
  found ← getChannelQuery group model retry;
  let abilities := order_by by_weight_desc (shuffle _ found) in
  if decide (abilities = []) then mret None
  else
    let weightSum := wrap64 (sumZ (λ a, ab_Weight a + 10) abilities) in
    _ ← fail_if (weightSum ≤ 0) ErrPanic;
    let id := from_option ab_ChannelId 0 (pick_ability abilities (Intn weightSum)) in
    db ← get;
    channel ← or_error (by_id id (channels db)) ErrRecordNotFound;
    mret (Some channel).
End Database.

(** *** The cache *)

(** [group2model2channels] and [channelsIDM]. *)
Abbreviation routes := (gmap string (gmap string (list Z))).
Record ChannelCache := mkCache {
  group2model2channels : routes;
  channelsIDM : gmap Z Channel;
}.
Global Instance ChannelCache_eta : Settable ChannelCache := λ c,
  mkCache (group2model2channels c) (channelsIDM c).

(** [m[group][model]]. *)
Definition route (m : routes) (group model : string) : list Z := default [] (default ∅ (m !! group) !! model).

Definition set_route (group model : string) (channels : list Z) (m : routes) : routes :=
  <[group := <[model := channels]> (default ∅ (m !! group))]> m.

Definition map_routes (f : list Z → list Z) (m : routes) : routes := (λ m2 : gmap string (list Z), f <$> m2) <$> m.

Definition containsInt (values : list Z) (target : Z) : bool := existsb (Z.eqb target) values.

(** The first loop over the abilities. *)
Definition route_ability (channels : gmap Z Channel) (m : routes) (ability : Ability) : routes :=
  if decide (ab_Enabled ability = false ∨ ab_Group ability = "" ∨ ab_Model ability = "") then m
  else match channels !! ab_ChannelId ability with
       | None => m
       | Some channel =>
         if decide (ch_Status channel ≠ ChannelStatusEnabled) then m
         else set_route (ab_Group ability) (ab_Model ability)
                (route m (ab_Group ability) (ab_Model ability) ++ [ab_ChannelId ability]) m
       end.

(** The loop over the models and groups that a channel declares. *)
Definition route_declared (m : routes) (channel : Channel) : routes :=
  if decide (ch_Status channel ≠ ChannelStatusEnabled) then m
  else foldl (λ m '(group, model),
         if decide (group = "" ∨ model = "") then m
         else if containsInt (route m group model) (ch_Id channel) then m
         else set_route group model (route m group model ++ [ch_Id channel]) m)
       m (g ← split_on "," (ch_Group channel); (λ md, (TrimSpace g, TrimSpace md)) <$> split_on "," (ch_Models channel)).

Definition by_priority_desc (channels : gmap Z Channel) (i j : Z) : Prop :=
  from_option GetPriority 0 (channels !! j) ≤ from_option GetPriority 0 (channels !! i).
Global Instance by_priority_desc_dec channels : RelDecision (by_priority_desc channels).
Proof. intros i j. unfold by_priority_desc. solve_decision. Defined.

Definition InitChannelCache (shuffle : ∀ A, list A → list A) (db : DB) : ChannelCache :=
  let newChannelId2channel := list_to_map ((λ c, (ch_Id c, c)) <$> rows (channels db)) in
  let m : routes := foldl (λ m a, <[ab_Group a := ∅]> m) ∅ (abilities db) in
  let m := foldl (route_ability newChannelId2channel) m (abilities db) in
  let m := foldl route_declared m (rows (channels db)) in
  let sorted channels := merge_sort (by_priority_desc newChannelId2channel) (shuffle _ channels) in
  mkCache (map_routes sorted m) newChannelId2channel.

(** [append(channels[:i], channels[i+1:]...)] for the first [i] that holds the channel. *)
Fixpoint remove_first (id : Z) (channels : list Z) : list Z :=
  match channels with
  | [] => []
  | channelId :: channels => if decide (channelId = id) then channels else channelId :: remove_first id channels
  end.

Definition CacheUpdateChannelStatus (id status : Z) (cc : ChannelCache) : ChannelCache :=
  let cc := cc <| channelsIDM ::= alter (λ c, c <| ch_Status := status |>) id |> in
  if decide (status ≠ ChannelStatusEnabled) then cc <| group2model2channels ::= map_routes (remove_first id) |>
  else cc.

Definition CacheGetChannel (cc : ChannelCache) (id : Z) : result Channel :=
  match channelsIDM cc !! id with
  | Some c => Ok c
  | None => Err (ErrNew ("渠道# " +:+ pretty id +:+ "，已不存在"))
  end.

Definition handleThinkingBudgetModel (name prefix wildcard : string) : string :=
  if String.prefix prefix name && Contains name "-thinking-" then wildcard else name.

Definition FormatMatchingModelName (name : string) : string :=
  let name :=
    if String.prefix "gemini-2.5-flash-lite" name
    then handleThinkingBudgetModel name "gemini-2.5-flash-lite" "gemini-2.5-flash-lite-thinking-*"
    else if String.prefix "gemini-2.5-flash" name
    then handleThinkingBudgetModel name "gemini-2.5-flash" "gemini-2.5-flash-thinking-*"
    else if String.prefix "gemini-2.5-pro" name
    then handleThinkingBudgetModel name "gemini-2.5-pro" "gemini-2.5-pro-thinking-*"
    else name in
  let name := if String.prefix "gpt-4-gizmo" name then "gpt-4-gizmo-*" else name in
  if String.prefix "gpt-4o-gizmo" name then "gpt-4o-gizmo-*" else name.

(** The channels that serve a model for a group. *)
Definition satisfying (cc : ChannelCache) (group model : string) : list Z :=
  let channels := route (group2model2channels cc) group model in
  if decide (channels = []) then route (group2model2channels cc) group (FormatMatchingModelName model) else channels.

(** The cached channels of a list of keys; the first that is missing is an error. *)
Fixpoint load_channels (cc : ChannelCache) (ids : list Z) : result (list Channel) :=
  match ids with
  | [] => Ok []
  | id :: ids =>
    match channelsIDM cc !! id with
    | None => Err (ErrNew ("数据库一致性错误，渠道# " +:+ pretty id +:+ " 不存在，请联系管理员修复"))
    | Some channel =>
      match load_channels cc ids with
      | Ok channels => Ok (channel :: channels)
      | Err e => Err e
      end
    end
  end.

(** The loop that finds the channel for the number drawn. *)
Fixpoint pick_channel (smoothingFactor smoothingAdjustment : Z) (targetChannels : list Channel)
    (randomWeight : Z) : option Channel :=
  match targetChannels with
  | [] => None
  | channel :: targetChannels =>
    let randomWeight := randomWeight -! (GetWeight channel *! smoothingFactor +! smoothingAdjustment) in
    if decide (randomWeight < 0) then Some channel
    else pick_channel smoothingFactor smoothingAdjustment targetChannels randomWeight
  end.

(** The sum of the weights, the factor and the adjustment. *)
Definition smoothing (targetChannels : list Channel) : Z * Z * Z :=
  let sumWeight := foldl (λ s c, s +! GetWeight c) 0 targetChannels in
  let count := Z.of_nat (length targetChannels) in
  if decide (sumWeight = 0) then (count *! 100, 1, 100)
  else if decide (Z.quot sumWeight count < 10) then (sumWeight, 100, 0)
  else (sumWeight, 1, 0).

(** The draw among the channels of one priority. *)
Definition draw (Intn : Z → Z) (targetChannels : list Channel) : result (option Channel) :=
  let '(sumWeight, smoothingFactor, smoothingAdjustment) := smoothing targetChannels in
  let totalWeight := sumWeight *! smoothingFactor in
  if decide (totalWeight ≤ 0) then Err ErrPanic
  else match pick_channel smoothingFactor smoothingAdjustment targetChannels (Intn totalWeight) with
       | Some channel => Ok (Some channel)
       | None => Err (ErrNew "channel not found")
       end.

Definition GetRandomSatisfiedChannel (Intn : Z → Z) (cc : ChannelCache) (group model : string) (retry : Z) :
    result (option Channel) :=
  match satisfying cc group model with
  | [] => Ok None
  | channels =>
    match load_channels cc channels with
    | Err e => Err e
    | Ok [channel] => Ok (Some channel)
    | Ok loaded =>
      let sortedUniquePriorities := priorities_desc (GetPriority <$> loaded) in
      let count := Z.of_nat (length sortedUniquePriorities) in
      let retry := if decide (retry >= count) then count - 1 else retry in
      if decide (retry < 0) then Err ErrPanic
      else match sortedUniquePriorities !! Z.to_nat retry with
           | None => Err ErrPanic
           | Some targetPriority => draw Intn (filter (λ c, GetPriority c = targetPriority) loaded)
           end
    end
  end.

(** *** Retries *)

Record RetryParam := mkRetryParam {
  rp_TokenGroup : string;
  rp_ModelName : string;
  rp_Retry : option Z;
  rp_resetNextTry : bool;
}.
Global Instance RetryParam_eta : Settable RetryParam := λ p,
  mkRetryParam (rp_TokenGroup p) (rp_ModelName p) (rp_Retry p) (rp_resetNextTry p).

Definition GetRetry (p : RetryParam) : Z := default 0 (rp_Retry p).

Definition SetRetry (retry : Z) (p : RetryParam) : RetryParam := p <| rp_Retry := Some retry |>.

Definition IncreaseRetry (p : RetryParam) : RetryParam :=
  if rp_resetNextTry p then p <| rp_resetNextTry := false |>
  else p <| rp_Retry := Some (GetRetry p +! 1) |>.

Definition ResetRetryNextTry (p : RetryParam) : RetryParam := p <| rp_resetNextTry := true |>.

(** What the choice keeps in the context of the request: the group chosen, the index
    of the group to go on with, and a second index that is written only. *)
Record AutoKeys := mkAutoKeys {
  ak_AutoGroup : option string;
  ak_AutoGroupIndex : option Z;
  ak_AutoGroupRetryIndex : option Z;
}.
Global Instance AutoKeys_eta : Settable AutoKeys := λ k,
  mkAutoKeys (ak_AutoGroup k) (ak_AutoGroupIndex k) (ak_AutoGroupRetryIndex k).

Record Selection := mkSelection { se_param : RetryParam; se_keys : AutoKeys }.
Global Instance Selection_eta : Settable Selection := λ s, mkSelection (se_param s) (se_keys s).

(** [pick i group model retry] is what the call of [GetRandomSatisfiedChannel] for the
    [i]-th group returns; the others are settings. *)
Abbreviation picker := (Z → string → string → Z → result (option Channel)).

Section Select.
Context (RetryTimes : Z) (crossGroupRetry : bool) (autoGroups : list string).

(** The loop over the groups from index [i] on. *)
Fixpoint auto_loop (pick : picker) (startGroupIndex i : Z) (groups : list string) : M Selection (option (Channel * string)) :=
  match groups with
  | [] => mret None
  | autoGroup :: groups =>
    s ← get;
    let priorityRetry := if decide (i > startGroupIndex) then 0 else GetRetry (se_param s) in
    match pick i autoGroup (rp_ModelName (se_param s)) priorityRetry with
    | Ok (Some channel) =>
      _ ← modify (λ s, s <| se_keys ::= λ k, k <| ak_AutoGroup := Some autoGroup |> |>);
      _ ← (if decide (crossGroupRetry = true ∧ priorityRetry >= RetryTimes) then
             modify (λ s, s <| se_keys ::= λ k, k <| ak_AutoGroupIndex := Some (i +! 1) |> |>
                            <| se_param ::= λ p, ResetRetryNextTry (SetRetry 0 p) |>)
           else modify (λ s, s <| se_keys ::= λ k, k <| ak_AutoGroupIndex := Some i |> |>));
      mret (Some (channel, autoGroup))
    | _ =>
      _ ← modify (λ s, s <| se_keys ::= λ k, k <| ak_AutoGroupIndex := Some (i +! 1) |>
                                               <| ak_AutoGroupRetryIndex := Some 0 |> |>
                         <| se_param ::= SetRetry 0 |>);
      auto_loop pick startGroupIndex (i +! 1) groups
    end
  end.

(** [autoEnabled] tells whether [setting.GetAutoGroups()] has any; the slice of the
    groups from the start index is empty when that index is past their end. *)
Definition CacheGetRandomSatisfiedChannel (autoEnabled : bool) (pick : picker) : M Selection (option Channel * string) :=
  s ← get;
  let TokenGroup := rp_TokenGroup (se_param s) in
  if decide (TokenGroup = "auto") then
    _ ← fail_if (autoEnabled = false) (ErrNew "auto groups is not enabled");
    let startGroupIndex := default 0 (ak_AutoGroupIndex (se_keys s)) in
    r ← auto_loop pick startGroupIndex startGroupIndex (drop (Z.to_nat startGroupIndex) autoGroups);
    mret (match r with Some (channel, group) => (Some channel, group) | None => (None, TokenGroup) end)
  else
    channel ← lift (pick 0 TokenGroup (rp_ModelName (se_param s)) (GetRetry (se_param s)));
    mret (channel, TokenGroup).

(** The loop of [Relay]: attempts until one succeeds, fails for good, or no channel is
    left.  [again n left] tells whether attempt [n] (setting up the channel, reading the
    body, and the relay itself) fails with an error that [shouldRetry] accepts when
    [left] retries remain; [hasMeta] is false for the first attempt, which uses the
    channel the distributor chose.  The result is the number of attempts made. *)
Context (autoEnabled : bool) (picks : nat → picker) (again : nat → Z → bool).

Fixpoint relay_loop (fuel : nat) (hasMeta : bool) (n : nat) : M Selection nat :=
  match fuel with
  | O => throw ErrDiverges
  | S fuel =>
    s ← get;
    if decide (GetRetry (se_param s) ≤ RetryTimes) then
      r ← attempt (if hasMeta then r ← CacheGetRandomSatisfiedChannel autoEnabled (picks n); mret (bool_decide (is_Some r.1))
                   else mret true);
      match r with
      | Ok true =>
        s ← get;
        if again n (RetryTimes -! GetRetry (se_param s)) then
          _ ← modify (λ s, s <| se_param ::= IncreaseRetry |>);
          relay_loop fuel true (S n)
        else mret (S n)
      | _ => mret n
      end
    else mret n
  end.
End Select.

(** ** Priorities *)

Lemma rank_sorted (s : list Z) k p :
  StronglySorted (flip Z.le) s → NoDup s → s !! k = Some p → length (filter (λ q, p < q) s) = k.
Proof.
  intros Hs. revert k. induction Hs as [|x s _ IH Hx]; intros k Hnd Hk; [done|].
  apply NoDup_cons in Hnd as [Hnin Hnd]. rewrite Forall_forall in Hx. destruct k as [|k]; cbn in Hk.
  - injection Hk as ->. rewrite filter_none; [done|]. intros q [->|Hq]%elem_of_cons; [lia|].
    specialize (Hx q Hq). cbn in Hx. lia.
  - pose proof (list_elem_of_lookup_2 _ _ _ Hk) as Hp. specialize (Hx p Hp). cbn in Hx.
    assert (x ≠ p) by (intros ->; done). rewrite filter_cons_True by lia. cbn. by rewrite (IH k).
Qed.

Lemma priorities_desc_perm l : priorities_desc l ≡ₚ remove_dups l.
Proof. apply merge_sort_Permutation. Qed.

Global Instance desc_total : Total (flip Z.le).
Proof. intros x y. cbn. lia. Qed.

Lemma priorities_desc_sorted l : StronglySorted (flip Z.le) (priorities_desc l).
Proof. apply (StronglySorted_merge_sort _). Qed.

Lemma priorities_desc_NoDup l : NoDup (priorities_desc l).
Proof. rewrite priorities_desc_perm. apply NoDup_remove_dups. Qed.

(** The number of distinct priorities above that of a channel. *)
Definition rank (chs : list Channel) (c : Channel) : nat :=
  length (filter (λ p, GetPriority c < p) (remove_dups (GetPriority <$> chs))).

Lemma rank_lookup chs c k :
  priorities_desc (GetPriority <$> chs) !! k = Some (GetPriority c) → rank chs c = k.
Proof.
  intros Hk. unfold rank. rewrite <-priorities_desc_perm.
  by apply rank_sorted; [apply priorities_desc_sorted|apply priorities_desc_NoDup|].
Qed.

Lemma rank_target chs k p c :
  priorities_desc (GetPriority <$> chs) !! k = Some p → c ∈ chs → GetPriority c = p ↔ rank chs c = k.
Proof.
  intros Hk Hc. split; [intros <-; by apply rank_lookup|]. intros Hr.
  assert (Hin : GetPriority c ∈ priorities_desc (GetPriority <$> chs))
    by (rewrite priorities_desc_perm; apply elem_of_remove_dups, list_elem_of_fmap; eauto).
  apply list_elem_of_lookup in Hin as [j Hj]. pose proof (rank_lookup _ _ _ Hj). simplify_eq. congruence.
Qed.

(** ** The draw *)

(** The chances of a channel out of their total. *)
Definition chances (factor adjustment : Z) (c : Channel) : Z := GetWeight c * factor + adjustment.

(** The weights are not negative, and their sums fit. *)
Definition weights_fit (chs : list Channel) : Prop :=
  Forall (λ c, 0 ≤ GetWeight c) chs ∧ (sumZ GetWeight chs + Z.of_nat (length chs)) * 100 ≤ max_int64.

Lemma weights_fit_filter P `{∀ c, Decision (P c)} chs : weights_fit chs → weights_fit (filter P chs).
Proof.
  intros [Hpos Hsum]. split; [by apply Forall_filter_keep|].
  pose proof (sumZ_filter_le P GetWeight chs Hpos). pose proof (length_filter P chs). lia.
Qed.

Section Draw.
Context (factor adjustment : Z).
Abbreviation total := (sumZ (chances factor adjustment)).

Definition drawable (chs : list Channel) : Prop :=
  Forall (λ c, 0 ≤ GetWeight c ∧ 0 ≤ GetWeight c * factor ∧ 0 ≤ chances factor adjustment c) chs ∧
  0 ≤ adjustment ∧ total chs ≤ max_int64.

Lemma pick_cons c chs r :
  drawable (c :: chs) → 0 ≤ r ≤ max_int64 →
  pick_channel factor adjustment (c :: chs) r =
  if decide (r < chances factor adjustment c) then Some c
  else pick_channel factor adjustment chs (r - chances factor adjustment c).
Proof.
  intros (Hpos & Hadj & Hfit) Hr. apply Forall_cons in Hpos as [(Hw & Hwf & Hc) Hpos].
  assert (0 ≤ total chs) by (apply sumZ_nonneg; eapply Forall_impl; [exact Hpos|]; naive_solver).
  cbn in Hfit. cbn [pick_channel]. cbv zeta. unfold chances in *.
  assert (Heq : GetWeight c *! factor +! adjustment = GetWeight c * factor + adjustment) by (unwrap; lia).
  rewrite Heq. replace (r -! _) with (r - (GetWeight c * factor + adjustment)) by (unwrap; lia).
  destruct (decide (r - _ < 0)), (decide (r < _)); done || lia.
Qed.

Lemma drawable_cons c chs : drawable (c :: chs) → drawable chs ∧ 0 ≤ chances factor adjustment c.
Proof.
  intros (Hpos & Hadj & Hfit). apply Forall_cons in Hpos as [(_ & _ & Hc) Hpos]. cbn in Hfit.
  split; [|done]. split; [done|]. split; [done|lia].
Qed.

(** Every number in range draws a channel of the list. *)
Lemma pick_found chs r :
  drawable chs → 0 ≤ r < total chs → ∃ c, pick_channel factor adjustment chs r = Some c ∧ c ∈ chs.
Proof.
  revert r. induction chs as [|c chs IH]; intros r Hd Hr; cbn in Hr; [lia|].
  pose proof (proj2 (proj2 Hd)) as Hmax. cbn in Hmax. rewrite pick_cons by (done || lia).
  apply drawable_cons in Hd as [Hd Hc]. case_decide.
  - exists c. split; [done|left].
  - destruct (IH (r - chances factor adjustment c)) as (x & Hx & Hin); [done|lia|]. exists x. split; [done|by right].
Qed.

(** The numbers that draw a channel are as many as its chances. *)
Lemma pick_count chs c :
  drawable chs →
  Z.of_nat (length (filter (λ r, pick_channel factor adjustment chs r = Some c) (seqZ 0 (total chs)))) =
  sumZ (λ x, if decide (x = c) then chances factor adjustment x else 0) chs.
Proof.
  induction chs as [|x chs IH]; intros Hd; [done|]. pose proof (proj2 (proj2 Hd)) as Hmax.
  pose proof (drawable_cons _ _ Hd) as [Hd' Hx].
  assert (0 ≤ total chs) by (apply sumZ_nonneg; eapply Forall_impl; [exact (proj1 Hd')|]; naive_solver).
  cbn -[pick_channel] in Hmax |- *. rewrite seqZ_app, filter_app, length_app, Nat2Z.inj_add by lia. f_equal.
  - assert (Hpick : ∀ r, r ∈ seqZ 0 (chances factor adjustment x) → pick_channel factor adjustment (x :: chs) r = Some x).
    { intros r Hr%elem_of_seqZ. rewrite pick_cons by (done || lia). by rewrite decide_True by lia. }
    destruct (decide (x = c)) as [->|Hne].
    + rewrite filter_all; [rewrite length_seqZ; lia|]. apply Forall_forall. exact Hpick.
    + rewrite filter_none; [done|]. intros r Hr. rewrite (Hpick r Hr). congruence.
  - rewrite <-IH by done. f_equal. rewrite Z.add_0_l, <-(Z.add_0_r (chances _ _ x)) at 1.
    rewrite <-fmap_add_seqZ, filter_fmap_list, length_fmap. f_equal. apply filter_ext_elem.
    intros r Hr%elem_of_seqZ. cbn -[pick_channel]. rewrite pick_cons by (done || lia). rewrite decide_False by lia.
    by replace (chances factor adjustment x + r - chances factor adjustment x) with r by lia.
Qed.
End Draw.

Lemma sum_weights_wrap chs s :
  Forall (λ c, 0 ≤ GetWeight c) chs → 0 ≤ s → s + sumZ GetWeight chs ≤ max_int64 →
  foldl (λ s c, s +! GetWeight c) s chs = s + sumZ GetWeight chs.
Proof.
  intros Hpos. revert s. induction Hpos as [|c chs Hc Hpos IH]; intros s Hs Hfit; cbn in *; [lia|].
  pose proof (sumZ_nonneg GetWeight chs Hpos). replace (s +! GetWeight c) with (s + GetWeight c) by (unwrap; lia).
  rewrite IH; lia.
Qed.

Lemma sumZ_chances f a chs :
  sumZ (chances f a) chs = sumZ GetWeight chs * f + a * Z.of_nat (length chs).
Proof. induction chs as [|c chs IH]; cbn [sumZ length]; [lia|]. rewrite IH. unfold chances. lia. Qed.

(** What the smoothing makes of the weights of the candidates. *)
Lemma smoothing_spec chs :
  chs ≠ [] → weights_fit chs → ∃ sumWeight f a, smoothing chs = (sumWeight, f, a) ∧
    sumWeight *! f = sumZ (chances f a) chs ∧ 0 < sumZ (chances f a) chs ∧ drawable f a chs ∧
    (sumZ GetWeight chs = 0 ∧ a = 100 ∧ f = 1 ∨ 0 < sumZ GetWeight chs ∧ a = 0 ∧ 0 < f).
Proof.
  intros Hne [Hpos Hfit]. pose proof (sumZ_nonneg GetWeight chs Hpos) as Hsum.
  assert (Hlen : 0 < Z.of_nat (length chs)) by (destruct chs; [done|cbn; lia]).
  unfold smoothing. rewrite (sum_weights_wrap chs 0), Z.add_0_l by (done || lia).
  assert (Hd : ∀ f a, 0 ≤ f ≤ 100 → 0 ≤ a ≤ 100 → drawable f a chs).
  { intros f a Hf Ha. split; [|split; [lia|rewrite sumZ_chances; nia]]. eapply Forall_impl; [exact Hpos|].
    intros c Hc. unfold chances. cbn in *. nia. }
  case_decide as Hz; [|case_decide].
  - exists (Z.of_nat (length chs) *! 100), 1, 100. rewrite sumZ_chances, Hz.
    split_and!; [done|unwrap; lia|lia|apply Hd; lia|]. left. lia.
  - exists (sumZ GetWeight chs), 100, 0. rewrite sumZ_chances.
    split_and!; [done|unwrap; lia|lia|apply Hd; lia|]. right. lia.
  - exists (sumZ GetWeight chs), 1, 0. rewrite sumZ_chances.
    split_and!; [done|unwrap; lia|lia|apply Hd; lia|]. right. lia.
Qed.

(** [rand.Intn]. *)
Definition draws (Intn : Z → Z) : Prop := ∀ n, 0 < n → 0 ≤ Intn n < n.

Lemma draw_found Intn chs :
  draws Intn → chs ≠ [] → weights_fit chs → ∃ c, draw Intn chs = Ok (Some c) ∧ c ∈ chs.
Proof.
  intros Hi Hne Hw. destruct (smoothing_spec chs Hne Hw) as (s & f & a & Hs & Ht & Hpos & Hd & _).
  unfold draw. rewrite Hs, Ht, decide_False by lia.
  destruct (pick_found f a chs (Intn (sumZ (chances f a) chs)) Hd (Hi _ Hpos)) as (c & -> & Hc). eauto.
Qed.

(** How often a channel is drawn, out of how many numbers. *)
Lemma draw_share chs :
  chs ≠ [] → NoDup chs → weights_fit chs → ∃ total, 0 < total ∧
    (∀ Intn, draw Intn chs = draw (λ _, Intn total) chs) ∧
    ∀ c, c ∈ chs →
      let n := Z.of_nat (length (filter (λ r, draw (λ _, r) chs = Ok (Some c)) (seqZ 0 total))) in
      n * sumZ GetWeight chs = GetWeight c * total ∧
      (sumZ GetWeight chs = 0 → n * Z.of_nat (length chs) = total).
Proof.
  intros Hne Hnd Hw. destruct (smoothing_spec chs Hne Hw) as (s & f & a & Hs & Ht & Hpos & Hd & Hcase).
  exists (sumZ (chances f a) chs). split; [done|].
  assert (Hdraw : ∀ Intn, draw Intn chs = match pick_channel f a chs (Intn (sumZ (chances f a) chs)) with
    Some c => Ok (Some c) | None => Err (ErrNew "channel not found") end)
    by (intros Intn; unfold draw; by rewrite Hs, Ht, decide_False by lia).
  split; [intros Intn; by rewrite !Hdraw|]. intros c Hc n.
  assert (Hn : n = chances f a c).
  { unfold n. rewrite (filter_ext_elem _ (λ r, pick_channel f a chs r = Some c)).
    - rewrite pick_count by done. rewrite (sumZ_ext _ (λ x, if decide (x = c) then chances f a c else 0))
        by (apply Forall_forall; intros x _; case_decide; congruence).
      clear -Hc Hnd. induction Hnd as [|x l Hx Hnd IH]; [by apply not_elem_of_nil in Hc|]. cbn.
      apply elem_of_cons in Hc as [->|Hc]; [|rewrite decide_False, IH by (done || congruence); lia].
      rewrite decide_True by done. rewrite (sumZ_zero _ l); [lia|]. apply Forall_forall. intros y Hy.
      rewrite decide_False; [done|congruence].
    - intros r _. rewrite Hdraw. destruct (pick_channel f a chs r); split; congruence. }
  rewrite Hn, sumZ_chances. unfold chances. destruct Hcase as [(H0 & -> & ->)|(H0 & -> & _)]; [|split; lia].
  assert (GetWeight c = 0); [|split; lia].
  destruct Hw as [Hw _]. pose proof (sumZ_elem_le GetWeight chs c Hw Hc). rewrite Forall_forall in Hw. specialize (Hw c Hc). cbn in Hw. lia.
Qed.

(** ** The cache *)

Lemma route_set group model l m g md :
  route (set_route group model l m) g md = if decide (g = group ∧ md = model) then l else route m g md.
Proof.
  unfold route, set_route. destruct (decide (g = group)) as [->|Hg].
  - rewrite lookup_insert_eq. cbn. destruct (decide (md = model)) as [->|Hmd].
    + by rewrite lookup_insert_eq, decide_True.
    + rewrite lookup_insert_ne, decide_False by (done || tauto). by destruct (m !! group).
  - by rewrite lookup_insert_ne, decide_False by (done || tauto).
Qed.

Lemma route_map f m g md : f [] = [] → route (map_routes f m) g md = f (route m g md).
Proof.
  intros Hf. unfold route, map_routes. rewrite lookup_fmap. destruct (m !! g) as [m2|]; cbn; [|done].
  rewrite lookup_fmap. by destruct (m2 !! md).
Qed.

(** The abilities that put a channel on the list of a group and a model. *)
Definition routable (channels : gmap Z Channel) (group model : string) (a : Ability) : Prop :=
  serves group model a ∧ group ≠ "" ∧ model ≠ "" ∧
  ch_Status <$> channels !! ab_ChannelId a = Some ChannelStatusEnabled.
Global Instance routable_dec channels group model a : Decision (routable channels group model a).
Proof. unfold routable. solve_decision. Defined.

Lemma route_abilities channels l m g md :
  route (foldl (route_ability channels) m l) g md =
  route m g md ++ (ab_ChannelId <$> filter (routable channels g md) l).
Proof.
  revert m. induction l as [|a l IH]; intros m; cbn [foldl]; [by rewrite app_nil_r|].
  rewrite IH, filter_cons. unfold route_ability.
  destruct (decide (routable channels g md a)) as [((<- & <- & He) & Hg & Hm & Hs)|Hno].
  - rewrite decide_False by (rewrite He; naive_solver).
    destruct (channels !! ab_ChannelId a) as [c|]; cbn in Hs; [|done]. injection Hs as Hs.
    by rewrite decide_False, route_set, decide_True, <-app_assoc by auto.
  - destruct (decide (_ ∨ _)) as [|Hok]; [done|]. destruct (channels !! ab_ChannelId a) as [c|] eqn:Hc; [|done].
    destruct (decide _) as [|Hs%dec_stable]; [done|]. rewrite route_set, decide_False; [done|]. intros [-> ->].
    apply Hno. split; [|split_and!; [tauto|tauto|by rewrite Hc; cbn; rewrite Hs]].
    split_and!; [done|done|]. destruct (ab_Enabled a); tauto.
Qed.

Lemma containsInt_spec l x : containsInt l x = true ↔ x ∈ l.
Proof.
  unfold containsInt. rewrite existsb_exists. setoid_rewrite Z.eqb_eq. setoid_rewrite <-list_elem_of_In. naive_solver.
Qed.

(** What a channel declares. *)
Definition declares (c : Channel) (group model : string) : Prop :=
  group ≠ "" ∧ model ≠ "" ∧ group ∈ TrimSpace <$> split_on "," (ch_Group c) ∧
  model ∈ TrimSpace <$> split_on "," (ch_Models c).

(** A step of the loop over declared pairs: the channel is on the list afterwards, once. *)
Lemma route_pairs id pairs m g md :
  NoDup (route m g md) →
  let m' := foldl (λ m '(group, model),
         if decide (group = "" ∨ model = "") then m
         else if containsInt (route m group model) id then m
         else set_route group model (route m group model ++ [id]) m) m pairs in
  NoDup (route m' g md) ∧
  ∀ x, x ∈ route m' g md ↔ x ∈ route m g md ∨ x = id ∧ g ≠ "" ∧ md ≠ "" ∧ (g, md) ∈ pairs.
Proof.
  revert m. induction pairs as [|[group model] pairs IH]; intros m Hnd m'; unfold m'; cbn [foldl].
  { split; [done|]. intros x. rewrite elem_of_nil. tauto. }
  destruct (decide (group = "" ∨ model = "")) as [Hskip|Hok].
  { destruct (IH m Hnd) as [Hnd' Hin]. split; [done|]. intros x. rewrite Hin, elem_of_cons. naive_solver. }
  destruct (containsInt _ _) eqn:Hc.
  { apply containsInt_spec in Hc. destruct (IH m Hnd) as [Hnd' Hin]. split; [done|]. intros x.
    rewrite Hin, elem_of_cons. naive_solver. }
  assert (Hno : id ∉ route m group model) by (intros Hin; apply containsInt_spec in Hin; congruence).
  edestruct (IH (set_route group model (route m group model ++ [id]) m)) as [Hnd' Hin].
  { rewrite route_set. case_decide as Heq; [|done]. destruct Heq as [-> ->]. apply NoDup_app. split; [done|].
    split; [|apply NoDup_singleton]. intros y Hy ->%list_elem_of_singleton. done. }
  split; [exact Hnd'|]. intros x. rewrite Hin, route_set, elem_of_cons.
  case_decide as Heq; [|naive_solver]. destruct Heq as [-> ->]. rewrite elem_of_app, list_elem_of_singleton. naive_solver.
Qed.

Lemma route_channels cs m g md :
  NoDup (route m g md) →
  let m' := foldl route_declared m cs in
  NoDup (route m' g md) ∧
  ∀ x, x ∈ route m' g md ↔ x ∈ route m g md ∨
    ∃ c, c ∈ cs ∧ ch_Id c = x ∧ ch_Status c = ChannelStatusEnabled ∧ declares c g md.
Proof.
  revert m. induction cs as [|c cs IH]; intros m Hnd m'; unfold m'; cbn [foldl].
  { split; [done|]. intros x. split; [auto|]. intros [?|(c & []%not_elem_of_nil & _)]. done. }
  assert (Hstep : NoDup (route (route_declared m c) g md) ∧ ∀ x, x ∈ route (route_declared m c) g md ↔
    x ∈ route m g md ∨ ch_Id c = x ∧ ch_Status c = ChannelStatusEnabled ∧ declares c g md).
  { unfold route_declared. case_decide as Hs; [split; [done|naive_solver]|].
    edestruct (route_pairs (ch_Id c)) as [Hnd' Hin]; [exact Hnd|]. split; [exact Hnd'|]. intros x. rewrite Hin.
    unfold declares. rewrite list_elem_of_bind, !list_elem_of_fmap. setoid_rewrite list_elem_of_fmap. naive_solver. }
  destruct Hstep as [Hnd1 Hin1]. destruct (IH _ Hnd1) as [Hnd2 Hin2]. split; [exact Hnd2|].
  intros x. rewrite Hin2, Hin1. setoid_rewrite elem_of_cons. naive_solver.
Qed.

(** The cache is right: every channel on a list is cached under its key, enabled, and
    listed once. *)
Record cache_ok (cc : ChannelCache) : Prop := {
  ck_ids : map_Forall (λ id c, ch_Id c = id) (channelsIDM cc);
  ck_once : ∀ g md, NoDup (route (group2model2channels cc) g md);
  ck_enabled : ∀ g md id, id ∈ route (group2model2channels cc) g md →
    ch_Status <$> channelsIDM cc !! id = Some ChannelStatusEnabled;
}.

(** The database as far as channels are concerned. *)
Definition channels_wf (db : DB) : Prop :=
  table_wf (channels db) ∧ NoDup (ability_key <$> abilities db).

Lemma channel_map_lookup db id c :
  table_wf (channels db) →
  (list_to_map ((λ c, (ch_Id c, c)) <$> rows (channels db)) : gmap Z Channel) !! id = Some c ↔
  c ∈ rows (channels db) ∧ ch_Id c = id.
Proof.
  intros Hwf. rewrite <-elem_of_list_to_map.
  - rewrite list_elem_of_fmap. naive_solver.
  - rewrite <-list_fmap_compose. exact (wf_NoDup _ Hwf).
Qed.

Lemma routable_once channels g md l :
  NoDup (ability_key <$> l) → NoDup (ab_ChannelId <$> filter (routable channels g md) l).
Proof.
  induction l as [|a l IH]; intros Hnd; [constructor|]. csimpl in *. apply NoDup_cons in Hnd as [Ha Hnd].
  rewrite filter_cons. case_decide as Hr; [|auto]. csimpl. apply NoDup_cons. split; [|auto].
  intros (b & Hb & [Hrb Hin]%list_elem_of_filter)%list_elem_of_fmap. apply Ha, list_elem_of_fmap. exists b.
  destruct Hr as ((? & ? & _) & _), Hrb as ((? & ? & _) & _). split; [|done]. unfold ability_key. congruence.
Qed.

Lemma route_reset (abilities : list Ability) (m : routes) g md :
  route m g md = [] → route (foldl (λ m a, <[ab_Group a := ∅]> m) m abilities) g md = [].
Proof.
  revert m. induction abilities as [|a l IH]; intros m Hm; cbn; [done|]. apply IH. unfold route in *.
  destruct (decide (ab_Group a = g)) as [->|Hne]; [by rewrite lookup_insert_eq|by rewrite lookup_insert_ne].
Qed.

(** Which channels the cache lists. *)
Definition listed (db : DB) (g md : string) (id : Z) : Prop :=
  ∃ c, c ∈ rows (channels db) ∧ ch_Id c = id ∧ ch_Status c = ChannelStatusEnabled ∧
    (declares c g md ∨ g ≠ "" ∧ md ≠ "" ∧ ∃ a, a ∈ abilities db ∧ serves g md a ∧ ab_ChannelId a = id).

Lemma init_routes (shuffle : ∀ A : Set, list A → list A) db g md :
  (∀ l, shuffle Z l ≡ₚ l) → channels_wf db →
  NoDup (route (group2model2channels (InitChannelCache shuffle db)) g md) ∧
  ∀ id, id ∈ route (group2model2channels (InitChannelCache shuffle db)) g md ↔ listed db g md id.
Proof.
  intros Hsh [Hwf Hab]. unfold InitChannelCache. cbn -[route]. set (chs := list_to_map _).
  set (sorted := λ l, merge_sort _ (shuffle Z l)).
  assert (Hperm : ∀ l, sorted l ≡ₚ l) by (intros l; unfold sorted; by rewrite merge_sort_Permutation).
  rewrite route_map by (apply Permutation_nil_r, Hperm).
  set (m0 := foldl _ ∅ (abilities db)). assert (Hm0 : route m0 g md = []) by (by apply route_reset).
  edestruct (route_channels (rows (channels db)) (foldl (route_ability chs) m0 (abilities db)) g md) as [Hnd Hin].
  { rewrite route_abilities, Hm0. by apply routable_once. }
  split; [by rewrite Hperm|]. intros id. rewrite Hperm, Hin, route_abilities, Hm0, app_nil_l, list_elem_of_fmap.
  setoid_rewrite list_elem_of_filter. unfold listed. split.
  - intros [(a & -> & (Hs & Hg & Hmd & Hst) & Ha)|(c & Hc & Hid & Hst & Hd)]; [|exists c; auto].
    destruct (chs !! ab_ChannelId a) as [c|] eqn:Hc; [|done]. apply channel_map_lookup in Hc as [Hc Hid]; [|done].
    injection Hst as Hst. exists c. split_and!; [done..|]. right. eauto 10.
  - intros (c & Hc & Hid & Hst & [Hd|(Hg & Hmd & a & Ha & Hs & Haid)]); [right; eauto|]. left. exists a.
    split; [done|]. split; [|done]. split_and!; [done..|]. rewrite Haid.
    assert (Hl : chs !! id = Some c) by (by apply channel_map_lookup). rewrite Hl. cbn. congruence.
Qed.

Lemma init_ok (shuffle : ∀ A : Set, list A → list A) db :
  (∀ l, shuffle Z l ≡ₚ l) → channels_wf db → cache_ok (InitChannelCache shuffle db).
Proof.
  intros Hsh Hwf. split.
  - intros id c Hc. cbn in Hc. apply channel_map_lookup in Hc as [_ Hid]; [done|apply Hwf].
  - intros g md. by apply init_routes.
  - intros g md id Hin. apply init_routes in Hin as (c & Hc & Hid & Hst & _); [|done..]. cbn.
    assert (Hl : (list_to_map ((λ c, (ch_Id c, c)) <$> rows (channels db)) : gmap Z Channel) !! id = Some c)
      by (apply channel_map_lookup; [apply Hwf|done]). rewrite Hl. cbn. congruence.
Qed.

Lemma remove_first_spec id l : NoDup l → NoDup (remove_first id l) ∧ ∀ x, x ∈ remove_first id l ↔ x ∈ l ∧ x ≠ id.
Proof.
  induction 1 as [|y l Hy Hnd IH]; cbn.
  - split; [constructor|]. set_solver.
  - destruct IH as [IH1 IH2]. case_decide as Heq.
    + subst. split; [done|]. set_solver.
    + split; [apply NoDup_cons; split; [rewrite IH2; tauto|done]|]. intros x. rewrite !elem_of_cons, IH2. naive_solver.
Qed.

Lemma status_ok id status cc : cache_ok cc → cache_ok (CacheUpdateChannelStatus id status cc).
Proof.
  intros [Hids Honce Hen]. unfold CacheUpdateChannelStatus.
  assert (Hids' : map_Forall (λ i c, ch_Id c = i) (alter (λ c, c <| ch_Status := status |>) id (channelsIDM cc))).
  { intros i c Hc. rewrite lookup_alter in Hc. case_decide; [|by apply Hids].
    subst. apply fmap_Some in Hc as (c0 & Hc0 & ->). exact (Hids i c0 Hc0). }
  case_decide as Hs; split; cbn -[route map_routes]; try done.
  - intros g md. rewrite route_map by done. by apply remove_first_spec.
  - intros g md i. rewrite route_map by done. intros [Hin Hne]%remove_first_spec; [|done].
    rewrite lookup_alter_ne by done. by apply (Hen g md).
  - intros g md i Hin. specialize (Hen g md i Hin). rewrite lookup_alter.
    case_decide; [|done]. subst. apply fmap_Some in Hen as (c0 & -> & _). done.
Qed.

(** The caches of a run: built from any database, its channels switched off and on. *)
Inductive cache_reachable : ChannelCache → Prop :=
  | reach_init (shuffle : ∀ A : Set, list A → list A) db :
      (∀ l, shuffle Z l ≡ₚ l) → channels_wf db → cache_reachable (InitChannelCache shuffle db)
  | reach_status id status cc :
      cache_reachable cc → cache_reachable (CacheUpdateChannelStatus id status cc).

Lemma cache_reachable_ok cc : cache_reachable cc → cache_ok cc.
Proof. induction 1; [by apply init_ok|by apply status_ok]. Qed.

(** ** The choice *)

(** The channels of the cache that may serve a request. *)
Definition candidates (cc : ChannelCache) (group model : string) : list Channel :=
  omap (λ id, channelsIDM cc !! id) (satisfying cc group model).

(** The place of a retry in the order of the priorities: the last one is used again
    when they are exhausted. *)
Definition tier (chs : list Channel) (retry : Z) : list Channel :=
  filter (λ c, Z.of_nat (rank chs c) = Z.min retry (Z.of_nat (length (remove_dups (GetPriority <$> chs))) - 1)) chs.

Lemma satisfying_routed cc group model :
  ∃ md, satisfying cc group model = route (group2model2channels cc) group md.
Proof. unfold satisfying. case_decide; eauto. Qed.

Lemma load_all cc ids :
  (∀ id, id ∈ ids → is_Some (channelsIDM cc !! id)) →
  load_channels cc ids = Ok (omap (λ id, channelsIDM cc !! id) ids) ∧
  length (omap (λ id, channelsIDM cc !! id) ids) = length ids.
Proof.
  induction ids as [|id ids IH]; intros Hall; [done|]. destruct (Hall id) as [c Hc]; [left|].
  destruct IH as [IH1 IH2]; [intros; apply Hall; by right|]. csimpl. rewrite Hc, IH1. cbn. by rewrite IH2.
Qed.

Lemma candidates_spec cc group model c :
  cache_ok cc → c ∈ candidates cc group model →
  ch_Id c ∈ satisfying cc group model ∧ channelsIDM cc !! ch_Id c = Some c ∧ ch_Status c = ChannelStatusEnabled.
Proof.
  intros Hok (id & Hin & Hc)%list_elem_of_omap. pose proof (ck_ids _ Hok _ _ Hc) as Hid. cbn in Hid. subst.
  split_and!; [done..|]. destruct (satisfying_routed cc group model) as [md Hmd]. rewrite Hmd in Hin.
  pose proof (ck_enabled _ Hok _ _ _ Hin) as He. rewrite Hc in He. cbn in He. congruence.
Qed.

Lemma candidates_load cc group model :
  cache_ok cc → load_channels cc (satisfying cc group model) = Ok (candidates cc group model) ∧
    length (candidates cc group model) = length (satisfying cc group model).
Proof.
  intros Hok. apply load_all. intros id Hin. destruct (satisfying_routed cc group model) as [md Hmd].
  rewrite Hmd in Hin. pose proof (ck_enabled _ Hok _ _ _ Hin) as (c & Hc & _)%fmap_Some. eauto.
Qed.

Lemma candidates_NoDup cc group model : cache_ok cc → NoDup (candidates cc group model).
Proof.
  intros Hok. destruct (satisfying_routed cc group model) as [md Hmd]. unfold candidates. rewrite Hmd.
  pose proof (ck_once _ Hok group md) as Hnd. clear Hmd. induction Hnd as [|id l Hid Hnd IH]; csimpl; [constructor|].
  destruct (channelsIDM cc !! id) as [c|] eqn:Hc; [|exact IH]. apply NoDup_cons. split; [|exact IH].
  intros (id' & Hin & Hc')%list_elem_of_omap.
  pose proof (ck_ids _ Hok _ _ Hc). pose proof (ck_ids _ Hok _ _ Hc'). cbn in *. congruence.
Qed.

Lemma tier_nonempty chs retry : chs ≠ [] → 0 ≤ retry →
  ∃ k p, priorities_desc (GetPriority <$> chs) !! k = Some p ∧
    Z.of_nat k = Z.min retry (Z.of_nat (length (remove_dups (GetPriority <$> chs))) - 1) ∧
    filter (λ c, GetPriority c = p) chs = tier chs retry ∧ tier chs retry ≠ [].
Proof.
  intros Hne Hr. set (n := length (remove_dups (GetPriority <$> chs))).
  assert (Hn : (0 < n)%nat).
  { destruct chs as [|c chs]; [done|]. unfold n. assert (GetPriority c ∈ remove_dups (GetPriority <$> c :: chs)) as Hc
      by (apply elem_of_remove_dups; left). destruct (remove_dups _); [by apply not_elem_of_nil in Hc|cbn; lia]. }
  assert (Hlen : length (priorities_desc (GetPriority <$> chs)) = n) by (by rewrite priorities_desc_perm).
  set (k := Z.to_nat (Z.min retry (Z.of_nat n - 1))).
  destruct (lookup_lt_is_Some_2 (priorities_desc (GetPriority <$> chs)) k) as [p Hp]; [lia|].
  assert (Hf : filter (λ c, GetPriority c = p) chs = tier chs retry).
  { apply filter_ext_elem. intros c Hc. rewrite (rank_target _ _ _ _ Hp Hc). fold n. lia. }
  exists k, p. split_and!; [done|fold n; lia|done|]. rewrite <-Hf.
  assert (Hin : p ∈ GetPriority <$> chs)
    by (apply elem_of_remove_dups; rewrite <-priorities_desc_perm; by eapply list_elem_of_lookup_2).
  apply list_elem_of_fmap in Hin as (c & -> & Hc).
  assert (c ∈ filter (λ x, GetPriority x = GetPriority c) chs) as Hcf by (by apply list_elem_of_filter).
  intros Hnil. rewrite Hnil in Hcf. by apply not_elem_of_nil in Hcf.
Qed.

Lemma choice_spec Intn cc group model retry :
  cache_ok cc → satisfying cc group model ≠ [] → 0 ≤ retry →
  GetRandomSatisfiedChannel Intn cc group model retry =
  match candidates cc group model with
  | [c] => Ok (Some c)
  | chs => draw Intn (tier chs retry)
  end.
Proof.
  intros Hok Hne Hr. destruct (candidates_load cc group model Hok) as [Hload Hlen].
  unfold GetRandomSatisfiedChannel. destruct (satisfying cc group model) as [|id ids] eqn:Hs; [done|]. rewrite Hload.
  assert (Hc : candidates cc group model ≠ []) by (by destruct (candidates cc group model)).
  destruct (tier_nonempty _ _ Hc Hr) as (k & p & Hk & Hmin & Hf & _).
  assert (Hdraw : ∀ X : Z → result (option Channel), (let count := Z.of_nat (length (priorities_desc (GetPriority <$> candidates cc group model))) in
    let retry := if decide (retry >= count) then count - 1 else retry in
    if decide (retry < 0) then Err ErrPanic
    else match priorities_desc (GetPriority <$> candidates cc group model) !! Z.to_nat retry with
         | None => Err ErrPanic | Some p => X p end) = X p).
  { intros X. cbv zeta. rewrite (Permutation_length (priorities_desc_perm _)).
    assert (Hr' : (if decide (retry >= Z.of_nat (length (remove_dups (GetPriority <$> candidates cc group model))))
      then Z.of_nat (length (remove_dups (GetPriority <$> candidates cc group model))) - 1 else retry) = Z.of_nat k)
      by (case_decide; lia).
    rewrite Hr', decide_False by lia. by rewrite Nat2Z.id, Hk. }
  destruct (candidates cc group model) as [|c1 [|c2 chs]]; [done|done|]. rewrite <-Hf. apply Hdraw.
Qed.

Lemma candidates_nonempty cc group model :
  cache_ok cc → satisfying cc group model ≠ [] → candidates cc group model ≠ [].
Proof.
  intros Hok Hne Hnil. destruct (candidates_load cc group model Hok) as [_ Hlen]. rewrite Hnil in Hlen.
  by destruct (satisfying cc group model).
Qed.

(** A list of one channel is a single tier. *)
Lemma tier_single c retry : 0 ≤ retry → tier [c] retry = [c].
Proof.
  intros Hr. unfold tier. assert (rank [c] c = 0%nat) as H0.
  { unfold rank. rewrite filter_none; [done|]. intros p ->%list_elem_of_singleton. lia. }
  rewrite filter_cons_True; [done|]. rewrite H0. change (length (remove_dups _)) with 1%nat. lia.
Qed.

Lemma choice_found cc Intn group model retry :
  cache_ok cc → draws Intn → 0 ≤ retry → satisfying cc group model ≠ [] → weights_fit (candidates cc group model) →
  ∃ c, GetRandomSatisfiedChannel Intn cc group model retry = Ok (Some c) ∧ c ∈ tier (candidates cc group model) retry.
Proof.
  intros Hok Hi Hr Hne Hw. pose proof (candidates_nonempty _ _ _ Hok Hne) as Hc.
  rewrite choice_spec by done. destruct (tier_nonempty _ _ Hc Hr) as (_ & _ & _ & _ & _ & Ht).
  destruct (candidates cc group model) as [|c1 [|c2 chs]]; [done| |].
  - exists c1. rewrite tier_single by done. split; [done|left].
  - apply draw_found; [done..|]. by apply weights_fit_filter.
Qed.

(** C18: in every cache of a run, a request that some channel may serve gets one: a
    cached, enabled channel off the list of the model and the group, of the priority
    that the number of the retry selects (the highest first, the lowest for all
    retries past their number). *)
Theorem channel_chosen cc Intn group model retry :
  cache_reachable cc → draws Intn → 0 ≤ retry → satisfying cc group model ≠ [] →
  weights_fit (candidates cc group model) →
  ∃ c, GetRandomSatisfiedChannel Intn cc group model retry = Ok (Some c) ∧
    ch_Id c ∈ satisfying cc group model ∧ channelsIDM cc !! ch_Id c = Some c ∧
    ch_Status c = ChannelStatusEnabled ∧ c ∈ tier (candidates cc group model) retry.
Proof.
  intros Hreach%cache_reachable_ok Hi Hr Hne Hw. destruct (choice_found cc Intn group model retry) as (c & Hget & Hin); [done..|].
  exists c. pose proof Hin as [_ Hcin]%list_elem_of_filter.
  destruct (candidates_spec _ _ _ _ Hreach Hcin) as (? & ? & ?). done.
Qed.

(** Among the channels of one priority the load is shared by weight: of the numbers
    that can be drawn, those that select a channel are to all of them as its weight to
    the sum of the weights, and equally many for each channel when no weight is set. *)
Theorem channel_share cc group model retry :
  cache_reachable cc → 0 ≤ retry → (2 ≤ length (satisfying cc group model))%nat →
  weights_fit (candidates cc group model) →
  let chs := tier (candidates cc group model) retry in
  let choice r := GetRandomSatisfiedChannel r cc group model retry in
  ∃ total, 0 < total ∧ (∀ Intn, choice Intn = choice (λ _, Intn total)) ∧
    ∀ c, c ∈ chs →
      let n := Z.of_nat (length (filter (λ r, choice (λ _, r) = Ok (Some c)) (seqZ 0 total))) in
      n * sumZ GetWeight chs = GetWeight c * total ∧
      (sumZ GetWeight chs = 0 → n * Z.of_nat (length chs) = total).
Proof.
  intros Hreach%cache_reachable_ok Hr Hlen Hw chs choice.
  assert (Hne : satisfying cc group model ≠ []) by (by destruct (satisfying cc group model); cbn in Hlen; [lia|]).
  assert (Hch : ∀ Intn, choice Intn = draw Intn chs).
  { intros Intn. unfold choice, chs. rewrite choice_spec by done.
    destruct (candidates_load cc group model Hreach) as [_ Hl].
    destruct (candidates cc group model) as [|c1 [|c2 l]]; cbn in Hl; [lia|lia|done]. }
  destruct (tier_nonempty _ _ (candidates_nonempty _ _ _ Hreach Hne) Hr) as (_ & _ & _ & _ & _ & Ht).
  destruct (draw_share chs) as (total & Hpos & Hdep & Hshare);
    [done|by apply NoDup_filter, candidates_NoDup|by apply weights_fit_filter|].
  exists total. split; [done|]. split; [intros Intn; rewrite !Hch; apply Hdep|]. intros c Hc n.
  assert (Hn : n = Z.of_nat (length (filter (λ r, draw (λ _, r) chs = Ok (Some c)) (seqZ 0 total)))).
  { unfold n. f_equal. f_equal. apply filter_ext_elem. intros r _. by rewrite Hch. }
  rewrite Hn. by apply Hshare.
Qed.


Definition example_channel (id status weight priority : Z) : Channel :=
  mkChannel id status (Some weight) "gpt-4o,gpt-4.1" "default, vip" 0 (Some priority).
Definition channels_db : DB :=
  empty_DB <| channels := Table [example_channel 1 1 30 10; example_channel 2 1 10 10;
                                 example_channel 3 2 50 10; example_channel 4 1 0 0] 5 |>.
Definition channels_cache : ChannelCache := CacheUpdateChannelStatus 3 2 (InitChannelCache (λ _ l, l) channels_db).

Lemma channels_cache_reachable : cache_reachable channels_cache.
Proof.
  apply reach_status, reach_init; [done|]. split; [|constructor]. split_and!; [|repeat constructor; cbn; lia|cbn; lia].
  repeat constructor; cbn; lia.
Qed.

Lemma channels_satisfying : satisfying channels_cache "vip" "gpt-4o" = [1; 2; 4].
Proof. by vm_compute. Qed.

Lemma channels_candidates :
  candidates channels_cache "vip" "gpt-4o" = [example_channel 1 1 30 10; example_channel 2 1 10 10; example_channel 4 1 0 0].
Proof. by vm_compute. Qed.

Lemma channels_weights : weights_fit (candidates channels_cache "vip" "gpt-4o").
Proof. rewrite channels_candidates. split; [repeat constructor; done|done]. Qed.

Lemma channel_chosen_witness :
  ∃ c, GetRandomSatisfiedChannel (λ _, 0) channels_cache "vip" "gpt-4o" 5 = Ok (Some c) ∧
    ch_Id c ∈ satisfying channels_cache "vip" "gpt-4o" ∧ channelsIDM channels_cache !! ch_Id c = Some c ∧
    ch_Status c = ChannelStatusEnabled ∧ c ∈ tier (candidates channels_cache "vip" "gpt-4o") 5.
Proof.
  apply channel_chosen; [exact channels_cache_reachable|intros n Hn; lia|lia|by rewrite channels_satisfying|].
  exact channels_weights.
Defined.

Lemma channel_share_witness :
  let chs := tier (candidates channels_cache "vip" "gpt-4o") 0 in
  let choice r := GetRandomSatisfiedChannel r channels_cache "vip" "gpt-4o" 0 in
  ∃ total, 0 < total ∧ (∀ Intn, choice Intn = choice (λ _, Intn total)) ∧
    ∀ c, c ∈ chs →
      let n := Z.of_nat (length (filter (λ r, choice (λ _, r) = Ok (Some c)) (seqZ 0 total))) in
      n * sumZ GetWeight chs = GetWeight c * total ∧
      (sumZ GetWeight chs = 0 → n * Z.of_nat (length chs) = total).
Proof.
  apply channel_share; [exact channels_cache_reachable|lia|rewrite channels_satisfying; cbn; lia|].
  exact channels_weights.
Defined.

(** ** Retries *)

Section Retries.
Context (RetryTimes : Z) (crossGroupRetry : bool) (autoGroups : list string).
Hypothesis HRT : 0 ≤ RetryTimes < max_int64.
Hypothesis Hgroups : Z.of_nat (length autoGroups) < max_int64.

Abbreviation group_count := (Z.of_nat (length autoGroups)).

(** The first group of the list that has a channel, with its index, or none. *)
Fixpoint first_group (pick : picker) (start retry : Z) (model : string) (i : Z) (groups : list string) :
    option (Z * Channel * string) :=
  match groups with
  | [] => None
  | group :: groups =>
    match pick i group model (if decide (i > start) then 0 else retry) with
    | Ok (Some c) => Some (i, c, group)
    | _ => first_group pick start retry model (i + 1) groups
    end
  end.

(** What a choice in group [j] leaves behind, for the attempt after it. *)
Definition chosen_at (start j retry : Z) (s s' : Selection) : Prop :=
  rp_TokenGroup (se_param s') = rp_TokenGroup (se_param s) ∧
  ((ak_AutoGroupIndex (se_keys s') = Some j ∧ rp_resetNextTry (se_param s') = rp_resetNextTry (se_param s) ∧
    GetRetry (se_param s') = if decide (j > start) then 0 else retry) ∨
   (ak_AutoGroupIndex (se_keys s') = Some (j + 1) ∧ rp_resetNextTry (se_param s') = true ∧ GetRetry (se_param s') = 0)).

Definition stay (i : Z) (group : string) (s : Selection) : Selection :=
  s <| se_keys ::= λ k, k <| ak_AutoGroup := Some group |> <| ak_AutoGroupIndex := Some i |> |>.
Definition move_on (i : Z) (group : string) (s : Selection) : Selection :=
  s <| se_keys ::= λ k, k <| ak_AutoGroup := Some group |> <| ak_AutoGroupIndex := Some (i +! 1) |> |>
    <| se_param ::= λ p, ResetRetryNextTry (SetRetry 0 p) |>.
Definition skip (i : Z) (s : Selection) : Selection :=
  s <| se_keys ::= λ k, k <| ak_AutoGroupIndex := Some (i +! 1) |> <| ak_AutoGroupRetryIndex := Some 0 |> |>
    <| se_param ::= SetRetry 0 |>.

Lemma auto_loop_cons pick start i group groups s :
  let retry := if decide (i > start) then 0 else GetRetry (se_param s) in
  auto_loop RetryTimes crossGroupRetry pick start i (group :: groups) s =
  match pick i group (rp_ModelName (se_param s)) retry with
  | Ok (Some c) => (Ok (Some (c, group)), if decide (crossGroupRetry = true ∧ retry >= RetryTimes)
                                          then move_on i group s else stay i group s)
  | _ => auto_loop RetryTimes crossGroupRetry pick start (i +! 1) groups (skip i s)
  end.
Proof.
  intros retry. cbn [auto_loop]. unfold mbind, M_bind, m_bind, get, modify. fold retry.
  destruct (pick i group _ retry) as [[c|]|e]; [|done..]. by case_decide.
Qed.

Lemma first_group_past pick start retry model i groups :
  i > start → first_group pick start retry model i groups = first_group pick start 0 model i groups.
Proof.
  revert i. induction groups as [|g l IH]; intros i Hi; [done|]. cbn. rewrite !(decide_True (P := i > start)) by done.
  destruct (pick i g model 0) as [[c|]|e]; [done|apply IH; lia..].
Qed.

Lemma auto_loop_spec pick start i groups s :
  0 ≤ start ≤ i → i + Z.of_nat (length groups) < max_int64 → (i > start → GetRetry (se_param s) = 0) →
  ∃ s', match first_group pick start (GetRetry (se_param s)) (rp_ModelName (se_param s)) i groups with
        | Some (j, c, g) =>
          auto_loop RetryTimes crossGroupRetry pick start i groups s = (Ok (Some (c, g)), s') ∧
          i ≤ j < i + Z.of_nat (length groups) ∧ chosen_at start j (GetRetry (se_param s)) s s'
        | None => auto_loop RetryTimes crossGroupRetry pick start i groups s = (Ok None, s')
        end.
Proof.
  revert i s. induction groups as [|group groups IH]; intros i s Hi Hlen H0; [by exists s|].
  cbn [length] in Hlen |- *. assert (Hi1 : i +! 1 = i + 1) by (unwrap; lia).
  rewrite auto_loop_cons. cbv zeta. cbn [first_group].
  set (retry := if decide (i > start) then 0 else GetRetry (se_param s)).
  edestruct (IH (i + 1) (skip i s)) as [s' Hs']; [lia|lia|done|]. change (GetRetry (se_param (skip i s))) with 0 in Hs'.
  change (rp_ModelName (se_param (skip i s))) with (rp_ModelName (se_param s)) in Hs'.
  destruct (pick i group (rp_ModelName (se_param s)) retry) as [[c|]|e] eqn:Hp.
  { eexists. split; [reflexivity|]. split; [lia|]. case_decide; (split; [done|]).
    - right. cbn -[wrap64]. by rewrite Hi1.
    - left. split_and!; [done..|]. cbn. case_decide; auto. }
  all: exists s'; rewrite Hi1, first_group_past by lia;
    destruct (first_group _ _ _ _ _ _) as [[[j c] g]|]; [|done]; destruct Hs' as (-> & Hj & Hch);
    (split; [done|]); (split; [lia|]); unfold chosen_at in *; rewrite !decide_True in * by lia; exact Hch.
Qed.

Definition index (s : Selection) : Z := default 0 (ak_AutoGroupIndex (se_keys s)).

(** Between two attempts. *)
Definition loop_ok (s : Selection) : Prop :=
  0 ≤ index s ≤ group_count ∧ 0 ≤ GetRetry (se_param s) ≤ RetryTimes + 1 ∧ rp_resetNextTry (se_param s) = false.

(** An upper bound on the attempts that are left: those of the groups after the current
    one and the rest of the current one. *)
Definition attempts_left (s : Selection) : Z :=
  let here := RetryTimes + 1 - GetRetry (se_param s) in
  if decide (rp_TokenGroup (se_param s) = "auto") then
    if decide (index s < group_count) then (group_count - index s - 1) * (RetryTimes + 1) + here else 0
  else here.

Lemma auto_select autoEnabled pick s :
  loop_ok s → rp_TokenGroup (se_param s) = "auto" → autoEnabled = true →
  ∃ s', match first_group pick (index s) (GetRetry (se_param s)) (rp_ModelName (se_param s)) (index s)
                (drop (Z.to_nat (index s)) autoGroups) with
        | Some (j, c, g) =>
          CacheGetRandomSatisfiedChannel RetryTimes crossGroupRetry autoGroups autoEnabled pick s = (Ok (Some c, g), s') ∧
          index s ≤ j < group_count ∧ chosen_at (index s) j (GetRetry (se_param s)) s s'
        | None => CacheGetRandomSatisfiedChannel RetryTimes crossGroupRetry autoGroups autoEnabled pick s =
                  (Ok (None, "auto"), s')
        end.
Proof.
  intros (Hi & _ & _) Hauto ->. unfold CacheGetRandomSatisfiedChannel, mbind, M_bind, m_bind, get. fold (index s).
  rewrite decide_True by done. unfold fail_if. rewrite decide_False by done. cbn -[auto_loop].
  assert (Hl : Z.of_nat (length (drop (Z.to_nat (index s)) autoGroups)) = group_count - index s)
    by (rewrite length_drop; lia).
  destruct (auto_loop_spec pick (index s) (index s) (drop (Z.to_nat (index s)) autoGroups) s) as [s' Hs']; [lia..|].
  exists s'. destruct (first_group _ _ _ _ _ _) as [[[j c] g]|].
  - destruct Hs' as (-> & Hj & Hch). split; [done|]. split; [lia|done].
  - rewrite Hs'. cbn. by rewrite Hauto.
Qed.

(** A choice uses up one of the attempts that were left. *)
Lemma select_uses autoEnabled pick s c g s' :
  loop_ok s → GetRetry (se_param s) ≤ RetryTimes →
  CacheGetRandomSatisfiedChannel RetryTimes crossGroupRetry autoGroups autoEnabled pick s = (Ok (Some c, g), s') →
  let next := s' <| se_param ::= IncreaseRetry |> in
  loop_ok next ∧ attempts_left next < attempts_left s.
Proof.
  intros Hok Hr Hsel next. pose proof Hok as (Hi & Hr0 & Hnext). unfold attempts_left. cbv zeta.
  destruct (decide (rp_TokenGroup (se_param s) = "auto")) as [Hauto|Hne].
  - destruct autoEnabled; [|unfold CacheGetRandomSatisfiedChannel, mbind, M_bind, m_bind, get in Hsel;
      by rewrite decide_True in Hsel].
    destruct (auto_select true pick s Hok Hauto eq_refl) as [s2 Hs2].
    destruct (first_group _ _ _ _ _ _) as [[[j c'] g']|]; [|rewrite Hs2 in Hsel; congruence].
    destruct Hs2 as (Heq & Hj & Hg & Hch). rewrite Heq in Hsel. injection Hsel as <- <- <-.
    unfold next, loop_ok, index, IncreaseRetry in *.
    destruct Hch as [(Hidx & Hreset & Hretry)|(Hidx & Hreset & Hretry)].
    + cbn -[wrap64]. rewrite Hreset, Hnext. cbn -[wrap64]. rewrite Hg, Hidx, Hretry, (decide_True (P := rp_TokenGroup _ = _)) by done. cbn -[wrap64].
      rewrite !(decide_True (P := _ < group_count)) by lia. destruct (decide (j > _)); unwrap; nia.
    + cbn -[wrap64]. rewrite Hreset. cbn -[wrap64]. unfold GetRetry in *. cbn -[wrap64].
      rewrite Hg, Hidx, Hretry, decide_True by done. cbn. rewrite (decide_True (P := default 0 _ < group_count)) by lia.
      case_decide; nia.
  - unfold CacheGetRandomSatisfiedChannel, mbind, M_bind, m_bind, get in Hsel. rewrite decide_False in Hsel by done.
    unfold lift in Hsel. destruct (pick _ _ _ _); [|done]. injection Hsel as _ _ <-.
    unfold next, loop_ok, index, IncreaseRetry in *. cbn -[wrap64]. rewrite Hnext. cbn -[wrap64].
    rewrite decide_False by done. unwrap; lia.
Qed.

Lemma left_nonneg s : loop_ok s → 0 ≤ attempts_left s.
Proof. intros (? & ? & _). unfold attempts_left. repeat case_decide; nia. Qed.

(** What is left after a choice, given what comes of it. *)
Lemma again_ends autoEnabled picks again fuel n s s' :
  (∀ hasMeta n s, hasMeta = true → loop_ok s → attempts_left s < Z.of_nat fuel →
     ∃ m s', relay_loop RetryTimes crossGroupRetry autoGroups autoEnabled picks again fuel hasMeta n s = (Ok m, s') ∧
       Z.of_nat m ≤ Z.of_nat n + attempts_left s) →
  loop_ok (s' <| se_param ::= IncreaseRetry |>) →
  attempts_left (s' <| se_param ::= IncreaseRetry |>) < Z.of_nat fuel →
  attempts_left (s' <| se_param ::= IncreaseRetry |>) < s →
  ∃ m s2, (if again n (RetryTimes -! GetRetry (se_param s')) then λ s,
      relay_loop RetryTimes crossGroupRetry autoGroups autoEnabled picks again fuel true (S n)
        (s <| se_param ::= IncreaseRetry |>) else λ s, (Ok (S n), s)) s' = (Ok m, s2) ∧
    Z.of_nat m ≤ Z.of_nat n + s.
Proof.
  intros IH Hok' Hfuel Hlt. pose proof (left_nonneg _ Hok'). destruct (again _ _); [|eexists _, _; split; [done|lia]].
  destruct (IH true (S n) _ eq_refl Hok') as (m & s2 & Heq & Hm); [lia|]. exists m, s2. split; [done|lia].
Qed.

Lemma relay_loop_ends autoEnabled picks again fuel hasMeta n s :
  hasMeta = true → loop_ok s → attempts_left s < Z.of_nat fuel →
  ∃ m s', relay_loop RetryTimes crossGroupRetry autoGroups autoEnabled picks again fuel hasMeta n s = (Ok m, s') ∧
    Z.of_nat m ≤ Z.of_nat n + attempts_left s.
Proof.
  revert hasMeta n s. induction fuel as [|fuel IH]; intros hasMeta n s -> Hok Hfuel; pose proof (left_nonneg s Hok) as Hpos;
    pose proof Hok as (Hi & Hr & Hreset); [lia|]. cbn [relay_loop]. unfold mbind, M_bind, m_bind, get.
  case_decide as Hle; [|exists n, s; split; [done|lia]].
  unfold attempt, modify, mret, M_ret, m_ret in *.
  destruct (CacheGetRandomSatisfiedChannel _ _ _ _ _ s) as [[[[c|] g]|e] s'] eqn:Hsel; cbn -[wrap64];
    [|eexists _, _; split; [done|lia]..].
  destruct (select_uses _ _ _ _ _ _ Hok Hle Hsel) as [Hok' Hlt]. by apply again_ends; [|done|lia|].
Qed.

(** The first attempt takes the channel that was chosen for the request. *)
Lemma first_attempt_ends autoEnabled picks again fuel n s :
  loop_ok s → Z.max 1 (attempts_left s) < Z.of_nat fuel →
  ∃ m s', relay_loop RetryTimes crossGroupRetry autoGroups autoEnabled picks again fuel false n s = (Ok m, s') ∧
    Z.of_nat m ≤ Z.of_nat n + Z.max 1 (attempts_left s).
Proof.
  intros Hok Hfuel. pose proof Hok as (Hi & Hr & Hreset). pose proof (left_nonneg s Hok) as Hpos.
  destruct fuel as [|fuel]; [lia|]. cbn [relay_loop]. unfold mbind, M_bind, m_bind, get.
  case_decide as Hle; [|exists n, s; split; [done|lia]].
  unfold attempt, modify, mret, M_ret, m_ret in *.
  assert (Hnext : loop_ok (s <| se_param ::= IncreaseRetry |>) ∧
    attempts_left (s <| se_param ::= IncreaseRetry |>) < Z.max 1 (attempts_left s)).
  { unfold loop_ok, attempts_left, index, IncreaseRetry in *; cbn -[wrap64]; rewrite ?Hreset; cbn -[wrap64]; unwrap.
    repeat case_decide; nia. }
  destruct Hnext as [Hok' Hlt]. apply again_ends; [intros; by apply relay_loop_ends|done|lia|done].
Qed.
End Retries.

(** C34: the retries of a request end: whatever the channels chosen and the errors they
    give, the loop makes at most [RetryTimes + 1] attempts for each group it can use (the
    group of the request or, for an automatic group, those from the current one on), and
    one attempt, with the channel it was given, if there is none. *)
Theorem relay_retries_end RetryTimes crossGroupRetry autoGroups autoEnabled picks again TokenGroup ModelName keys fuel :
  0 ≤ RetryTimes < max_int64 → Z.of_nat (length autoGroups) < max_int64 →
  0 ≤ default 0 (ak_AutoGroupIndex keys) ≤ Z.of_nat (length autoGroups) →
  let groups := if decide (TokenGroup = "auto") then Z.of_nat (length autoGroups) - default 0 (ak_AutoGroupIndex keys) else 1 in
  let attempts := Z.max 1 (groups * (RetryTimes + 1)) in
  attempts < Z.of_nat fuel →
  ∃ n s', relay_loop RetryTimes crossGroupRetry autoGroups autoEnabled picks again fuel false 0
      (mkSelection (mkRetryParam TokenGroup ModelName (Some 0) false) keys) = (Ok n, s') ∧
    Z.of_nat n ≤ attempts.
Proof.
  intros HRT Hg Hi groups attempts Hfuel. set (s := mkSelection _ keys).
  assert (Hok : loop_ok RetryTimes autoGroups s) by (unfold loop_ok, index; cbn; lia).
  assert (Hleft : attempts_left RetryTimes autoGroups s = groups * (RetryTimes + 1)).
  { unfold attempts_left, groups, index. cbn. repeat case_decide; nia. }
  destruct (first_attempt_ends RetryTimes crossGroupRetry autoGroups HRT Hg autoEnabled picks again fuel 0 s)
    as (m & s' & Hrun & Hm); [done|by rewrite Hleft|]. exists m, s'. rewrite Hleft in Hm. split; [done|exact Hm].
Qed.

Lemma relay_retries_end_witness :
  ∃ n s', relay_loop 2 true ["a"; "b"] true (λ _ _ _ _ _, Ok None) (λ _ _, true) 10 false 0
      (mkSelection (mkRetryParam "auto" "gpt-4o" (Some 0) false) (mkAutoKeys None None None)) = (Ok n, s') ∧
    Z.of_nat n ≤ 2 * (2 + 1).
Proof. apply (relay_retries_end 2 true ["a"; "b"]); [lia|by vm_compute|cbn; lia|by vm_compute]. Defined.

Lemma last_priority chs k p c x :
  priorities_desc (GetPriority <$> chs) !! k = Some p →
  Z.of_nat k = Z.of_nat (length (remove_dups (GetPriority <$> chs))) - 1 →
  c ∈ chs → x ∈ chs → rank chs c = k → GetPriority c ≤ GetPriority x.
Proof.
  intros Hk Hlast Hc Hx Hrank. apply (rank_target _ _ _ _ Hk Hc) in Hrank as ->.
  assert (Hin : GetPriority x ∈ priorities_desc (GetPriority <$> chs))
    by (rewrite priorities_desc_perm; apply elem_of_remove_dups, list_elem_of_fmap; eauto).
  rewrite <-(take_drop_middle _ _ _ Hk) in Hin. rewrite (drop_ge _ (S k)) in Hin
    by (rewrite (Permutation_length (priorities_desc_perm _)); lia).
  pose proof (priorities_desc_sorted (GetPriority <$> chs)) as Hs. rewrite <-(take_drop_middle _ _ _ Hk) in Hs.
  apply elem_of_app in Hin as [Hin|Hin]; [|apply list_elem_of_singleton in Hin; lia].
  apply (StronglySorted_app_1_elem_of _ _ _ _ p Hs Hin). left.
Qed.

(** A group is not left while it has channels: a retry past the number of its
    priorities uses a channel of its lowest priority again and stays in the group, so
    the next group is only reached after [RetryTimes] retries, and never when the
    token does not retry across groups. *)
Theorem auto_group_not_left RetryTimes crossGroupRetry autoGroups Intn cc s g :
  cache_reachable cc → draws Intn → 0 ≤ RetryTimes < max_int64 → Z.of_nat (length autoGroups) < max_int64 →
  rp_TokenGroup (se_param s) = "auto" → 0 ≤ index s → autoGroups !! Z.to_nat (index s) = Some g →
  satisfying cc g (rp_ModelName (se_param s)) ≠ [] → weights_fit (candidates cc g (rp_ModelName (se_param s))) →
  let chs := candidates cc g (rp_ModelName (se_param s)) in
  Z.of_nat (length (remove_dups (GetPriority <$> chs))) ≤ GetRetry (se_param s) < RetryTimes →
  ∃ c s', CacheGetRandomSatisfiedChannel RetryTimes crossGroupRetry autoGroups true
      (λ _, GetRandomSatisfiedChannel Intn cc) s = (Ok (Some c, g), s') ∧
    Forall (λ x, GetPriority c ≤ GetPriority x) chs ∧
    index s' = index s ∧ GetRetry (se_param s') = GetRetry (se_param s).
Proof.
  intros Hreach%cache_reachable_ok Hi HRT Hlen Hauto Hidx Hg Hne Hw chs Hr.
  destruct (choice_found cc Intn g (rp_ModelName (se_param s)) (GetRetry (se_param s))) as (c & Hget & Hin); [done..|lia|done|done|].
  assert (Hdrop : drop (Z.to_nat (index s)) autoGroups = g :: drop (S (Z.to_nat (index s))) autoGroups)
    by (by apply drop_S).
  exists c. eexists. split_and!.
  - unfold CacheGetRandomSatisfiedChannel, mbind, M_bind, m_bind, get. fold (index s).
    rewrite decide_True by done. unfold fail_if. rewrite decide_False by done. cbn -[auto_loop]. rewrite Hdrop.
    rewrite auto_loop_cons. cbv zeta. rewrite (decide_False (P := index s > index s)) by lia. rewrite Hget.
    rewrite decide_False by lia. reflexivity.
  - apply list_elem_of_filter in Hin as [Hrank Hc]. fold chs in Hrank, Hc. apply Forall_forall. intros x Hx.
    destruct (tier_nonempty chs (GetRetry (se_param s))) as (k & p & Hk & Hmin & _ & _); [by intros Hnil; rewrite Hnil in Hc; apply not_elem_of_nil in Hc|lia|].
    apply (last_priority chs k p c x); [done|fold chs in Hr; lia|done|done|lia].
  - done.
  - done.
Qed.

Lemma auto_group_not_left_witness :
  ∃ c s', CacheGetRandomSatisfiedChannel 3 true ["vip"; "default"] true
      (λ _, GetRandomSatisfiedChannel (λ _, 0) channels_cache)
      (mkSelection (mkRetryParam "auto" "gpt-4o" (Some 2) false) (mkAutoKeys None None None)) = (Ok (Some c, "vip"), s') ∧
    Forall (λ x, GetPriority c ≤ GetPriority x) (candidates channels_cache "vip" "gpt-4o") ∧ index s' = 0 ∧ GetRetry (se_param s') = 2.
Proof.
  apply auto_group_not_left; [exact channels_cache_reachable|intros n Hn; lia|lia|by vm_compute|done|done|done| |exact channels_weights|].
  - cbn. by rewrite channels_satisfying.
  - cbn [se_param rp_ModelName]. rewrite channels_candidates. cbn. split; vm_compute; congruence.
Defined.

(** ** Abilities *)

Lemma insert_abilities table l :
  NoDup (ability_key <$> l) → (∀ a, a ∈ l → ability_key a ∉ ability_key <$> table) →
  foldl insert_ability table l = table ++ l.
Proof.
  revert table. induction l as [|a l IH]; intros table Hnd Hnew; cbn; [by rewrite app_nil_r|].
  csimpl in Hnd. apply NoDup_cons in Hnd as [Ha Hnd]. unfold insert_ability at 2.
  rewrite decide_False by (apply Hnew; left). rewrite IH, <-app_assoc; [done|done|].
  intros b Hb. rewrite fmap_app, not_elem_of_app. split; [apply Hnew; by right|].
  cbn. intros Heq%list_elem_of_singleton. apply Ha. rewrite <-Heq. by apply list_elem_of_fmap_2.
Qed.

Lemma declared_once c : NoDup (ability_key <$> declared_abilities c) ∧
  Forall (λ a, ab_ChannelId a = ch_Id c) (declared_abilities c).
Proof.
  unfold declared_abilities. cbv zeta. generalize (m ← split_on "," (ch_Models c); (λ g, (m, g)) <$> split_on "," (ch_Group c)) as l.
  assert (Hgen : ∀ l acc, NoDup (ability_key <$> acc) → Forall (λ a, ab_ChannelId a = ch_Id c) acc →
    let r := foldl (λ abilities '(model, group),
           if decide (Exists (λ a, ab_Group a +:+ "|" +:+ ab_Model a = group +:+ "|" +:+ model) abilities) then abilities
           else abilities ++ [mkAbility group model (ch_Id c) (bool_decide (ch_Status c = ChannelStatusEnabled))
                                (default 0 (ch_Priority c)) (default 0 (ch_Weight c))]) acc l in
    NoDup (ability_key <$> r) ∧ Forall (λ a, ab_ChannelId a = ch_Id c) r); [|intros l; apply (Hgen l []); constructor].
  induction l as [|[m g] l IH]; intros acc Hnd Hall; [done|]. cbn. destruct (decide (Exists _ acc)) as [|Hno]; [by apply IH|].
  apply IH; [|apply Forall_app; by auto]. rewrite fmap_app. apply NoDup_app. split; [done|]. split; [|apply NoDup_singleton].
  intros k (a & -> & Ha)%list_elem_of_fmap Hk. cbn in Hk. apply list_elem_of_singleton in Hk. 
  injection Hk as Hg Hm _. apply Hno, Exists_exists. exists a. by rewrite Hg, Hm.
Qed.

(** The abilities of a channel are replaced by those it declares now, those of other
    channels stay. *)
Theorem abilities_replaced c db :
  NoDup (ability_key <$> abilities db) →
  let db' := (UpdateAbilities c db).2 in
  abilities db' = filter (λ a, ab_ChannelId a ≠ ch_Id c) (abilities db) ++ declared_abilities c ∧
  NoDup (ability_key <$> abilities db').
Proof.
  intros Hnd db'. destruct (declared_once c) as [Hd Hid]. rewrite Forall_forall in Hid.
  assert (Hfresh : ∀ a, a ∈ declared_abilities c →
    ability_key a ∉ ability_key <$> filter (λ a, ab_ChannelId a ≠ ch_Id c) (abilities db)).
  { intros a Ha (b & Heq & [Hb _]%list_elem_of_filter)%list_elem_of_fmap. apply Hb. rewrite <-(Hid a Ha).
    unfold ability_key in Heq. congruence. }
  assert (Heq : abilities db' = filter (λ a, ab_ChannelId a ≠ ch_Id c) (abilities db) ++ declared_abilities c).
  { unfold db', UpdateAbilities, transaction. cbn. by apply insert_abilities. }
  split; [done|]. rewrite Heq, fmap_app. apply NoDup_app. split.
  - by apply NoDup_fmap_filter.
  - split; [|done]. intros k Hk (a & -> & Ha)%list_elem_of_fmap. by apply (Hfresh a).
Qed.

Lemma status_keys channelId status db :
  ability_key <$> abilities (UpdateAbilityStatus channelId status db).2 = ability_key <$> abilities db.
Proof.
  cbn. rewrite <-list_fmap_compose. apply list_fmap_ext. intros i a _. cbn. by case_decide.
Qed.

(** Without the cache the first of several abilities is favoured: the draw stops at
    [weight <= 0] where the numbers start at 0, so one number more than its share
    selects it. *)
Theorem first_ability_favoured a b l :
  let abilities := a :: b :: l in
  Forall (λ x, 0 ≤ ab_Weight x) abilities → sumZ (λ x, ab_Weight x + 10) abilities ≤ max_int64 → a ∉ b :: l →
  Z.of_nat (length (filter (λ r, pick_ability abilities r = Some a) (seqZ 0 (sumZ (λ x, ab_Weight x + 10) abilities)))) =
  ab_Weight a + 10 + 1.
Proof.
  intros abilities Hpos Hfit Ha. pose proof Hpos as [Hwa [Hwb Hwl]%Forall_cons]%Forall_cons. cbn in Hwa, Hwb.
  assert (Hl : 0 ≤ sumZ (λ x, ab_Weight x + 10) l)
    by (apply sumZ_nonneg; eapply Forall_impl; [exact Hwl|]; cbn; lia).
  cbn in Hfit. set (total := sumZ _ abilities). assert (Htot : total = ab_Weight a + 10 + (ab_Weight b + 10 + sumZ (λ x, ab_Weight x + 10) l)) by done.
  rewrite (filter_ext_elem _ (λ r, r ≤ ab_Weight a + 10)).
  - replace total with ((ab_Weight a + 11) + (total - (ab_Weight a + 11))) by lia.
    rewrite seqZ_app, filter_app, length_app by lia. rewrite filter_all, filter_none; [rewrite length_seqZ; cbn; lia| |].
    + intros r Hr%elem_of_seqZ. lia.
    + apply Forall_forall. intros r Hr%elem_of_seqZ. lia.
  - intros r Hr%elem_of_seqZ. unfold abilities. cbn [pick_ability].
    assert (Hw : wrap64 (ab_Weight a) = ab_Weight a) by (unwrap; lia). rewrite Hw.
    replace (r -! (ab_Weight a +! 10)) with (r - (ab_Weight a + 10)) by (unwrap; lia).
    case_decide; [split; [lia|done]|]. split; [|lia]. intros Hpick. exfalso. apply Ha.
    assert (Hin : ∀ l r, pick_ability l r = Some a → a ∈ l).
    { clear. induction l as [|x l IH]; intros r; cbn; [done|]. case_decide; [intros [= ->]; left|]. intros H'. right. eauto. }
    exact (Hin (b :: l) (r - (ab_Weight a + 10)) Hpick).
Qed.

Lemma first_ability_favoured_witness :
  let a := mkAbility "default" "gpt-4o" 1 true 0 0 in
  let b := mkAbility "default" "gpt-4o" 2 true 0 0 in
  Z.of_nat (length (filter (λ r, pick_ability [a; b] r = Some a) (seqZ 0 20))) = 11.
Proof.
  intros a b. apply (first_ability_favoured a b []); [repeat constructor; done|done|].
  intros Hin%list_elem_of_singleton. discriminate.
Defined.
