(* ===== verification/Ratios.v ===== *)
(** * Requests and their billing ratios

    [relay/common/relay_info.go], [types/price_data.go] and
    [service/billing_ratio.go]: what a relayed request knows about its price, and
    which ratio a subscription or a value package is charged at.  Warnings in the
    log are left out. *)
From S2P Require Import Prelude Tables GoTime Schema Plans Windows Cycles Consume Preferences GoFloat Groups.

(** ** Definitions *)

(** The prices of a request. *)
Record PriceData := mkPrice {
  pd_FreeModel : bool;
  pd_OtherRatios : gmap string float64;
  pd_Quota : Z;
  pd_QuotaToPreConsume : Z;
  pd_QuotaBeforeGroup : float64;
  pd_FreeByGroupRatio : bool;
  pd_GroupRatioInfo : GroupRatioInfo;
  pd_HasOriginalGroupRatioInfo : bool;
  pd_OriginalGroupRatioInfo : GroupRatioInfo;
  pd_SubscriptionRatioApplied : bool;
  pd_SubscriptionRatioSource : string;
  pd_UsePrice : bool;
  pd_ModelPrice : float64;
  pd_ModelRatio : float64;
  pd_CompletionRatio : float64;
  pd_CacheRatio : float64;
  pd_CacheCreationRatio : float64;
  pd_CacheCreation5mRatio : float64;
  pd_CacheCreation1hRatio : float64;
  pd_ImageRatio : float64;
  pd_AudioRatio : float64;
  pd_AudioCompletionRatio : float64;
}.
Global Instance PriceData_eta : Settable PriceData := λ p,
  mkPrice (pd_FreeModel p) (pd_OtherRatios p) (pd_Quota p) (pd_QuotaToPreConsume p)
    (pd_QuotaBeforeGroup p) (pd_FreeByGroupRatio p) (pd_GroupRatioInfo p)
    (pd_HasOriginalGroupRatioInfo p) (pd_OriginalGroupRatioInfo p) (pd_SubscriptionRatioApplied p)
    (pd_SubscriptionRatioSource p) (pd_UsePrice p) (pd_ModelPrice p) (pd_ModelRatio p) (pd_CompletionRatio p)
    (pd_CacheRatio p) (pd_CacheCreationRatio p) (pd_CacheCreation5mRatio p) (pd_CacheCreation1hRatio p)
    (pd_ImageRatio p) (pd_AudioRatio p) (pd_AudioCompletionRatio p).

(** [types.PriceData{}]. *)
Definition no_price : PriceData :=
  mkPrice false ∅ 0 0 float_zero false (mkRatio float_zero float_zero false) false
    (mkRatio float_zero float_zero false) false "" false float_zero float_zero float_zero float_zero float_zero
    float_zero float_zero float_zero float_zero float_zero.

Record BillingSnapshot := mkTiered {
  tb_BillingMode : string;
  tb_GroupRatio : float64;
  tb_EstimatedQuotaBeforeGroup : float64;
  tb_EstimatedQuotaAfterGroup : Z;
  tb_ModelName : string;
  tb_ExprString : string;
  tb_ExprHash : string;
  tb_EstimatedPromptTokens : Z;
  tb_EstimatedCompletionTokens : Z;
  tb_EstimatedTier : string;
  tb_QuotaPerUnit : float64;
  tb_ExprVersion : Z;
}.
Global Instance BillingSnapshot_eta : Settable BillingSnapshot := λ b,
  mkTiered (tb_BillingMode b) (tb_GroupRatio b) (tb_EstimatedQuotaBeforeGroup b)
    (tb_EstimatedQuotaAfterGroup b) (tb_ModelName b) (tb_ExprString b) (tb_ExprHash b)
    (tb_EstimatedPromptTokens b) (tb_EstimatedCompletionTokens b) (tb_EstimatedTier b) (tb_QuotaPerUnit b)
    (tb_ExprVersion b).

(** The value package that pays for a request, chosen by the middleware. *)
Record ValuePackageInfo := mkPackageInfo {
  ri_ValuePackageSubscriptionId : Z;
  ri_ValuePackagePlanId : Z;
  ri_ValuePackageBillingGroup : string;
  ri_ValuePackageModelGroup : string;
  ri_ValuePackagePackageType : string;
  ri_ValuePackageWalletFallback : bool;
  ri_ValuePackageUseWallet : bool;
}.
Global Instance ValuePackageInfo_eta : Settable ValuePackageInfo := λ v,
  mkPackageInfo (ri_ValuePackageSubscriptionId v) (ri_ValuePackagePlanId v)
    (ri_ValuePackageBillingGroup v) (ri_ValuePackageModelGroup v) (ri_ValuePackagePackageType v)
    (ri_ValuePackageWalletFallback v) (ri_ValuePackageUseWallet v).

(** What a session reports about the subscription it charges. *)
Record SubscriptionInfo := mkSubInfo {
  ri_SubscriptionId : Z;
  ri_SubscriptionPreConsumed : Z;
  ri_SubscriptionPostDelta : Z;
  ri_SubscriptionPlanId : Z;
  ri_SubscriptionPlanTitle : string;
  ri_SubscriptionAmountTotal : Z;
  ri_SubscriptionAmountUsedAfterPreConsume : Z;
}.
Global Instance SubscriptionInfo_eta : Settable SubscriptionInfo := λ s,
  mkSubInfo (ri_SubscriptionId s) (ri_SubscriptionPreConsumed s) (ri_SubscriptionPostDelta s)
    (ri_SubscriptionPlanId s) (ri_SubscriptionPlanTitle s) (ri_SubscriptionAmountTotal s)
    (ri_SubscriptionAmountUsedAfterPreConsume s).

(** The part of a request that expressions of a price may read: its headers and its body. *)
Record RequestInput := mkInput { rq_Headers : gmap string string; rq_Body : string }.

(** The channel of a request, when it has been chosen. *)
Record ChannelMeta := mkMeta { cm_ChannelType : Z; cm_ChannelId : Z }.

(** What is called and how: the model, the formats the request was converted to, the
    channel, the built-in tools the response used with the number of their calls. *)
Record CallInfo := mkCall {
  ri_OriginModelName : string;
  ri_RelayFormat : string;
  ri_RequestConversionChain : list string;
  ri_FinalRequestRelayFormat : string;
  ri_ChannelMeta : option ChannelMeta;
  ri_ResponsesUsageInfo : option (gmap string Z);
  ri_UsePrice : bool;
  ri_IsChannelTest : bool;
  ri_AcceptUnsetRatioModel : bool;
  ri_estimatePromptTokens : Z;
  ri_RequestHeaders : gmap string string;
  ri_BillingRequestInput : option RequestInput;
}.
Global Instance CallInfo_eta : Settable CallInfo := λ c,
  mkCall (ri_OriginModelName c) (ri_RelayFormat c) (ri_RequestConversionChain c)
    (ri_FinalRequestRelayFormat c) (ri_ChannelMeta c) (ri_ResponsesUsageInfo c) (ri_UsePrice c)
    (ri_IsChannelTest c) (ri_AcceptUnsetRatioModel c) (ri_estimatePromptTokens c) (ri_RequestHeaders c)
    (ri_BillingRequestInput c).
Definition no_call : CallInfo := mkCall "" "" [] "" None None false false false 0 ∅ None.

(** The fields of a relayed request that billing reads or writes.  [ri_Frozen] is
    the ratio of the billing session attached to the request, when that session
    charges a subscription: it does not change in the life of a session. *)
Record RelayInfo := mkRelay {
  ri_TokenId : Z;
  ri_TokenKey : string;
  ri_UserId : Z;
  ri_UsingGroup : string;
  ri_BillingUsingGroup : string;
  ri_UserGroup : string;
  ri_RealUserGroup : string;
  ri_BillingUserGroup : string;
  ri_TokenUnlimited : bool;
  ri_IsPlayground : bool;
  ri_BillingPreference : string;
  ri_UserQuota : Z;
  ri_FinalPreConsumedQuota : Z;
  ri_RealtimeActualQuota : Z;
  ri_RealtimeReservedQuota : Z;
  ri_ForcePreConsume : bool;
  ri_BillingSource : string;
  ri_RequestId : string;
  ri_Frozen : option (float64 * string);
  ri_Subscription : SubscriptionInfo;
  ri_Package : ValuePackageInfo;
  ri_PriceData : PriceData;
  ri_TieredBillingSnapshot : option BillingSnapshot;
  ri_Call : CallInfo;
}.
Global Instance RelayInfo_eta : Settable RelayInfo := λ i,
  mkRelay (ri_TokenId i) (ri_TokenKey i) (ri_UserId i) (ri_UsingGroup i) (ri_BillingUsingGroup i)
    (ri_UserGroup i) (ri_RealUserGroup i) (ri_BillingUserGroup i) (ri_TokenUnlimited i)
    (ri_IsPlayground i) (ri_BillingPreference i) (ri_UserQuota i) (ri_FinalPreConsumedQuota i)
    (ri_RealtimeActualQuota i) (ri_RealtimeReservedQuota i) (ri_ForcePreConsume i)
    (ri_BillingSource i) (ri_RequestId i) (ri_Frozen i) (ri_Subscription i) (ri_Package i)
    (ri_PriceData i) (ri_TieredBillingSnapshot i) (ri_Call i).

(** [BillingRatioUserGroup] and [BillingGroup]. *)
Definition BillingRatioUserGroup (info : RelayInfo) : string :=
  if decide (TrimSpace (ri_BillingUserGroup info) ≠ "") then TrimSpace (ri_BillingUserGroup info)
  else if decide (TrimSpace (ri_ValuePackageBillingGroup (ri_Package info)) ≠ "")
  then TrimSpace (ri_ValuePackageBillingGroup (ri_Package info))
  else TrimSpace (ri_UserGroup info).
Definition BillingGroup (info : RelayInfo) : string :=
  if decide (TrimSpace (ri_BillingUsingGroup info) ≠ "") then TrimSpace (ri_BillingUsingGroup info)
  else TrimSpace (ri_UsingGroup info).

(** [auto_group] is what the distributor of channels chose, if it chose. *)
Definition HandleGroupRatio (g : GroupSettings) (autoGroup : option string) (info : RelayInfo) :
    GroupRatioInfo * RelayInfo :=
  let info := match autoGroup with Some group => info <| ri_UsingGroup := group |> | None => info end in
  (GetGroupRatioInfo g (BillingRatioUserGroup info) (ri_UsingGroup info), info).

Definition SubscriptionRatioSourceRegular := "regular_subscription_1x".
Definition SubscriptionRatioSourceDefault := "default_1x".
Definition SubscriptionRatioSourceConfigured := "configured".

Definition validSubscriptionBillingRatio (ratio : float64) : bool :=
  isFiniteRatio ratio && (float_zero <? ratio)%float.

Definition package_id (info : RelayInfo) : Z := ri_ValuePackageSubscriptionId (ri_Package info).

Definition defaultSubscriptionBillingRatio (info : RelayInfo) : float64 * string :=
  if decide (package_id info > 0) then (float_one, SubscriptionRatioSourceDefault)
  else (float_one, SubscriptionRatioSourceRegular).

Definition normalizeFrozenSubscriptionBillingRatio (info : RelayInfo) (ratio : float64)
    (source : string) : float64 * string :=
  if negb (validSubscriptionBillingRatio ratio) then defaultSubscriptionBillingRatio info
  else if decide ((source = SubscriptionRatioSourceRegular ∧ package_id info ≤ 0 ∧ (ratio =? float_one)%float = true) ∨
                  (source = SubscriptionRatioSourceDefault ∧ package_id info > 0 ∧ (ratio =? float_one)%float = true) ∨
                  (source = SubscriptionRatioSourceConfigured ∧ package_id info > 0))
  then (ratio, source)
  else defaultSubscriptionBillingRatio info.

Definition resolveSubscriptionBillingRatio (info : RelayInfo) : float64 * string :=
  let price := ri_PriceData info in
  if pd_SubscriptionRatioApplied price then
    normalizeFrozenSubscriptionBillingRatio info (gr_GroupRatio (pd_GroupRatioInfo price))
      (pd_SubscriptionRatioSource price)
  else if decide (package_id info ≤ 0) then (float_one, SubscriptionRatioSourceRegular)
  else
    let packageGroup := TrimSpace (ri_ValuePackageBillingGroup (ri_Package info)) in
    if decide (packageGroup = "") then (float_one, SubscriptionRatioSourceDefault)
    else
      let billingUserGroup := TrimSpace (ri_BillingUserGroup info) in
      if decide (billingUserGroup ≠ "" ∧ billingUserGroup ≠ packageGroup)
      then (float_one, SubscriptionRatioSourceDefault)
      else
        let candidate := pd_GroupRatioInfo price in
        if gr_HasSpecialRatio candidate && validSubscriptionBillingRatio (gr_GroupSpecialRatio candidate)
        then (gr_GroupSpecialRatio candidate, SubscriptionRatioSourceConfigured)
        else (float_one, SubscriptionRatioSourceDefault).

(** The ratio of the session attached to the request, or the one the request
    itself resolves to; the flag says which. *)
Definition resolveAuthoritativeSubscriptionBillingRatio (info : RelayInfo) : float64 * string * bool :=
  match ri_Frozen info with
  | Some (ratio, source) => (normalizeFrozenSubscriptionBillingRatio info ratio source, true)
  | None => (resolveSubscriptionBillingRatio info, false)
  end.

(** The snapshot of tiered billing, when there is one. *)
Definition tiered (info : RelayInfo) : option BillingSnapshot :=
  match ri_TieredBillingSnapshot info with
  | Some snap => if decide (tb_BillingMode snap = "tiered_expr") then Some snap else None
  | None => None
  end.

(** The keys of a map in the order of [sort.Strings]. *)
Definition string_le (a b : string) : Prop := String.leb a b = true.
Global Instance string_le_dec : RelDecision string_le := λ a b, bool_eq_dec (String.leb a b) true.
Definition sorted_keys {V} (m : gmap string V) : list string := order_by string_le (map_to_list m).*1.

Definition applyOtherRatiosStepwise (quota : Z) (ratios : gmap string float64) : Z :=
  foldl (λ quota key,
           let ratio := default float_zero (ratios !! key) in
           if (float_zero <? ratio)%float && negb (ratio =? float_one)%float
           then int_of_float (float_mul (float_of_int quota) ratio) else quota) quota (sorted_keys ratios).

Definition ApplyTaskOtherRatios (quota : Z) (ratios : gmap string float64) : Z :=
  applyOtherRatiosStepwise quota ratios.

Section Ratios.
Context `{Decimals}.

Definition quotaWithGroupRatio (priceData : PriceData) (groupRatio : float64) : Z :=
  let base := NewFromFloat (pd_QuotaBeforeGroup priceData) in
  let current := gr_GroupRatio (pd_GroupRatioInfo priceData) in
  let base := if IsZero base && negb (current =? float_zero)%float
              then Div (NewFromInt (pd_QuotaToPreConsume priceData)) (NewFromFloat current) else base in
  let quota := IntPart (Mul base (NewFromFloat groupRatio)) in
  applyOtherRatiosStepwise quota (pd_OtherRatios priceData).

Definition subscriptionPreConsumeQuota (info : RelayInfo) (fallback : Z) (ratio : float64)
    (source : string) : Z :=
  let ratio := (normalizeFrozenSubscriptionBillingRatio info ratio source).1 in
  let price := ri_PriceData info in
  match tiered info with
  | Some snap => QuotaRound (float_mul (tb_EstimatedQuotaBeforeGroup snap) ratio)
  | None =>
    let quota := quotaWithGroupRatio price ratio in
    if decide (quota ≤ 0) then
      if (float_zero <? pd_QuotaBeforeGroup price)%float then
        applyOtherRatiosStepwise (IntPart (Mul (NewFromFloat (pd_QuotaBeforeGroup price)) (NewFromFloat ratio)))
          (pd_OtherRatios price)
      else fallback
    else quota
  end.

(** The price and the snapshot under a new ratio of tiered billing. *)
Definition sync_tiered (info : RelayInfo) (ratio : float64) (syncQuota : bool) : RelayInfo :=
  match tiered info with
  | None => info
  | Some snap =>
    let after := QuotaRound (float_mul (tb_EstimatedQuotaBeforeGroup snap) ratio) in
    info <| ri_TieredBillingSnapshot :=
              Some (snap <| tb_GroupRatio := ratio |> <| tb_EstimatedQuotaAfterGroup := after |>) |>
         <| ri_PriceData ::= λ p, p <| pd_QuotaToPreConsume := after |>
              <| pd_Quota := if syncQuota then after else pd_Quota p |> |>
  end.

Definition applySubscriptionBillingRatio (info : RelayInfo) (preConsumedQuota : Z) (ratio : float64)
    (source : string) : RelayInfo :=
  let price := ri_PriceData info in
  let '(ratio, source) :=
    match resolveAuthoritativeSubscriptionBillingRatio info with
    | (frozen, true) => frozen
    | _ => if pd_SubscriptionRatioApplied price then resolveSubscriptionBillingRatio info
           else normalizeFrozenSubscriptionBillingRatio info ratio source
    end in
  let shouldSyncPerCallQuota := bool_decide (pd_Quota price > 0) || pd_FreeByGroupRatio price in
  let price := price
    <| pd_OriginalGroupRatioInfo := if pd_HasOriginalGroupRatioInfo price
                                    then pd_OriginalGroupRatioInfo price else pd_GroupRatioInfo price |>
    <| pd_HasOriginalGroupRatioInfo := true |>
    <| pd_SubscriptionRatioApplied := true |> <| pd_SubscriptionRatioSource := source |>
    <| pd_GroupRatioInfo := mkRatio ratio float_minus_one false |>
    <| pd_FreeByGroupRatio := false |> <| pd_FreeModel := false |>
    <| pd_QuotaToPreConsume := preConsumedQuota |>
    <| pd_Quota := if shouldSyncPerCallQuota then preConsumedQuota else pd_Quota price |> in
  sync_tiered (info <| ri_PriceData := price |>) ratio shouldSyncPerCallQuota.

Definition restoreOriginalBillingRatio (info : RelayInfo) : RelayInfo :=
  let price := ri_PriceData info in
  if negb (pd_HasOriginalGroupRatioInfo price) then info
  else
    let price := price <| pd_GroupRatioInfo := pd_OriginalGroupRatioInfo price |>
      <| pd_SubscriptionRatioApplied := false |> <| pd_SubscriptionRatioSource := "" |> in
    let groupRatio := gr_GroupRatio (pd_GroupRatioInfo price) in
    let restoredQuota := quotaWithGroupRatio price groupRatio in
    let sync p := bool_decide (pd_Quota p > 0) || pd_FreeByGroupRatio p in
    let price :=
      if decide (restoredQuota > 0 ∨ pd_FreeByGroupRatio price = true)
      then price <| pd_QuotaToPreConsume := restoredQuota |>
                 <| pd_Quota := if sync price then restoredQuota else pd_Quota price |>
      else price in
    sync_tiered (info <| ri_PriceData := price |>) groupRatio (sync price).

Definition prepareValuePackageWalletFallback (g : GroupSettings) (info : RelayInfo) : RelayInfo :=
  let userGroup := TrimSpace (ri_RealUserGroup info) in
  let userGroup := if decide (userGroup = "") then TrimSpace (ri_UserGroup info) else userGroup in
  let price := ri_PriceData info in
  let price :=
    if decide (ri_TieredBillingSnapshot info = None ∧ (pd_QuotaBeforeGroup price =? float_zero)%float = true ∧
               (float_zero <? gr_GroupRatio (pd_GroupRatioInfo price))%float = true ∧ pd_QuotaToPreConsume price > 0)
    then price <| pd_QuotaBeforeGroup :=
           float_div (float_of_int (pd_QuotaToPreConsume price)) (gr_GroupRatio (pd_GroupRatioInfo price)) |>
    else price in
  let walletGroupRatioInfo := GetGroupRatioInfo g userGroup (ri_UsingGroup info) in
  let price := price <| pd_OriginalGroupRatioInfo := walletGroupRatioInfo |>
    <| pd_HasOriginalGroupRatioInfo := true |>
    <| pd_FreeByGroupRatio := (gr_GroupRatio walletGroupRatioInfo =? float_zero)%float |> in
  restoreOriginalBillingRatio
    (info <| ri_BillingUserGroup := userGroup |> <| ri_PriceData := price |>
          <| ri_Package := mkPackageInfo 0 0 "" "" "" (ri_ValuePackageWalletFallback (ri_Package info)) true |>).

End Ratios.

(** ** Lemmas *)

(** A ratio with its source as [normalizeFrozenSubscriptionBillingRatio] leaves it. *)
Definition ratio_normal (info : RelayInfo) (r : float64 * string) : Prop :=
  validSubscriptionBillingRatio r.1 = true ∧
  ((r.2 = SubscriptionRatioSourceRegular ∧ package_id info ≤ 0 ∧ (r.1 =? float_one)%float = true) ∨
   (r.2 = SubscriptionRatioSourceDefault ∧ package_id info > 0 ∧ (r.1 =? float_one)%float = true) ∨
   (r.2 = SubscriptionRatioSourceConfigured ∧ package_id info > 0)).

Lemma default_ratio_normal info : ratio_normal info (defaultSubscriptionBillingRatio info).
Proof.
  unfold defaultSubscriptionBillingRatio, ratio_normal. case_decide; cbn [fst snd]; (split; [done|]);
    [right; left|left]; split_and!; done || lia.
Qed.

Lemma normalize_normal info ratio source : ratio_normal info (normalizeFrozenSubscriptionBillingRatio info ratio source).
Proof.
  unfold normalizeFrozenSubscriptionBillingRatio. destruct (validSubscriptionBillingRatio ratio) eqn:Hv; cbn [negb];
    [|apply default_ratio_normal]. case_decide; [by split|apply default_ratio_normal].
Qed.

Lemma ratio_normalize_id info r : ratio_normal info r → normalizeFrozenSubscriptionBillingRatio info r.1 r.2 = r.
Proof.
  intros [Hv Hs]. unfold normalizeFrozenSubscriptionBillingRatio. rewrite Hv. cbn [negb]. rewrite decide_True by done.
  by destruct r.
Qed.

Lemma resolve_normal info : ratio_normal info (resolveSubscriptionBillingRatio info).
Proof.
  unfold resolveSubscriptionBillingRatio. destruct (pd_SubscriptionRatioApplied _); [apply normalize_normal|].
  unfold ratio_normal. case_decide; [split; [done|left; done]|].
  repeat case_decide; cbn [fst snd]; try (split; [done|right; left; split_and!; done || lia]).
  destruct (gr_HasSpecialRatio _ && _) eqn:E; cbn [fst snd].
  - apply andb_true_iff in E as [_ E]. split; [done|right; right; split; done || lia].
  - split; [done|right; left; split_and!; done || lia].
Qed.

Lemma authoritative_normal info : ratio_normal info (resolveAuthoritativeSubscriptionBillingRatio info).1.
Proof.
  unfold resolveAuthoritativeSubscriptionBillingRatio. destruct (ri_Frozen info) as [[]|]; [apply normalize_normal|apply resolve_normal].
Qed.

Section RatioFacts.
Context `{Decimals}.

Lemma sync_tiered_ratio info ratio b :
  pd_GroupRatioInfo (ri_PriceData (sync_tiered info ratio b)) = pd_GroupRatioInfo (ri_PriceData info) ∧
  pd_SubscriptionRatioApplied (ri_PriceData (sync_tiered info ratio b)) = pd_SubscriptionRatioApplied (ri_PriceData info) ∧
  pd_SubscriptionRatioSource (ri_PriceData (sync_tiered info ratio b)) = pd_SubscriptionRatioSource (ri_PriceData info) ∧
  pd_HasOriginalGroupRatioInfo (ri_PriceData (sync_tiered info ratio b)) = pd_HasOriginalGroupRatioInfo (ri_PriceData info) ∧
  pd_OriginalGroupRatioInfo (ri_PriceData (sync_tiered info ratio b)) = pd_OriginalGroupRatioInfo (ri_PriceData info) ∧
  ri_Package (sync_tiered info ratio b) = ri_Package info ∧ ri_Frozen (sync_tiered info ratio b) = ri_Frozen info.
Proof. unfold sync_tiered. by destruct (tiered info). Qed.

(** What applying the ratio a request resolves to leaves behind. *)
Lemma applied_ratio info quota :
  let r := (resolveAuthoritativeSubscriptionBillingRatio info).1 in
  let info' := applySubscriptionBillingRatio info quota r.1 r.2 in
  let price := ri_PriceData info in
  pd_GroupRatioInfo (ri_PriceData info') = mkRatio r.1 float_minus_one false ∧
  pd_SubscriptionRatioApplied (ri_PriceData info') = true ∧ pd_SubscriptionRatioSource (ri_PriceData info') = r.2 ∧
  pd_HasOriginalGroupRatioInfo (ri_PriceData info') = true ∧
  pd_OriginalGroupRatioInfo (ri_PriceData info') =
    (if pd_HasOriginalGroupRatioInfo price then pd_OriginalGroupRatioInfo price else pd_GroupRatioInfo price) ∧
  ri_Package info' = ri_Package info ∧ ri_Frozen info' = ri_Frozen info.
Proof.
  intros r info' price. subst info'. unfold applySubscriptionBillingRatio. fold price.
  assert (Hpick : (match resolveAuthoritativeSubscriptionBillingRatio info with
    | (frozen, true) => frozen
    | _ => if pd_SubscriptionRatioApplied price then resolveSubscriptionBillingRatio info
           else normalizeFrozenSubscriptionBillingRatio info r.1 r.2 end) = r).
  { pose proof (authoritative_normal info) as Hn. fold r in Hn. apply ratio_normalize_id in Hn.
    subst r. unfold resolveAuthoritativeSubscriptionBillingRatio in *. destruct (ri_Frozen info) as [[]|]; [done|].
    by destruct (pd_SubscriptionRatioApplied price). }
  rewrite Hpick. clearbody r. destruct r as [ratio source]. cbn [fst snd].
  match goal with |- context [sync_tiered ?i ?x ?b] => destruct (sync_tiered_ratio i x b) as (-> & -> & -> & -> & -> & -> & ->) end.
  done.
Qed.

Lemma restored_ratio info :
  pd_HasOriginalGroupRatioInfo (ri_PriceData info) = true →
  pd_GroupRatioInfo (ri_PriceData (restoreOriginalBillingRatio info)) = pd_OriginalGroupRatioInfo (ri_PriceData info) ∧
  pd_SubscriptionRatioApplied (ri_PriceData (restoreOriginalBillingRatio info)) = false.
Proof.
  intros Ho. unfold restoreOriginalBillingRatio. rewrite Ho. cbn [negb].
  set (p := (ri_PriceData info) <| pd_GroupRatioInfo := _ |> <| pd_SubscriptionRatioApplied := _ |> <| pd_SubscriptionRatioSource := _ |>).
  assert (Hp : pd_GroupRatioInfo p = pd_OriginalGroupRatioInfo (ri_PriceData info) ∧ pd_SubscriptionRatioApplied p = false) by done.
  clearbody p. match goal with |- context [if decide ?P then ?x else p] => set (p' := if decide P then x else p) end.
  assert (Hp' : pd_GroupRatioInfo p' = pd_GroupRatioInfo p ∧ pd_SubscriptionRatioApplied p' = pd_SubscriptionRatioApplied p).
  { subst p'. by case_decide. }
  clearbody p'. destruct (sync_tiered_ratio (info <| ri_PriceData := p' |>) (gr_GroupRatio (pd_GroupRatioInfo p))
    (bool_decide (pd_Quota p' > 0) || pd_FreeByGroupRatio p')) as (-> & -> & _).
  cbn [ri_PriceData update_field]. naive_solver congruence.
Qed.

(** ** Theorems *)

(** The ratio of a subscription is a positive finite number, and 1 unless the
    value package has a configured one.  Once it is applied to the price of a
    request it is final: the request resolves to the same ratio and source whenever
    it is asked again, and restoring the price for the wallet brings back the group
    ratio the request came with. *)
Theorem subscription_ratio_frozen info quota :
  let '(ratio, source) := (resolveAuthoritativeSubscriptionBillingRatio info).1 in
  let info' := applySubscriptionBillingRatio info quota ratio source in
  let price := ri_PriceData info in
  validSubscriptionBillingRatio ratio = true ∧
  (source ≠ SubscriptionRatioSourceConfigured → (ratio =? float_one)%float = true) ∧
  resolveSubscriptionBillingRatio info' = (ratio, source) ∧
  (resolveAuthoritativeSubscriptionBillingRatio info').1 = (ratio, source) ∧
  pd_GroupRatioInfo (ri_PriceData (restoreOriginalBillingRatio info')) =
    if pd_HasOriginalGroupRatioInfo price then pd_OriginalGroupRatioInfo price else pd_GroupRatioInfo price.
Proof.
  pose proof (authoritative_normal info) as Hn. pose proof (applied_ratio info quota) as Ha. cbv zeta in Ha.
  destruct (resolveAuthoritativeSubscriptionBillingRatio info).1 as [ratio source] eqn:E. cbn [fst snd] in Ha.
  set (info' := applySubscriptionBillingRatio _ _ _ _) in *. intros info'' price. subst info''.
  destruct Ha as (Hg & Happ & Hsrc & Hhas & Horig & Hpkg & Hfr).
  assert (Hres : resolveSubscriptionBillingRatio info' = (ratio, source)).
  { unfold resolveSubscriptionBillingRatio. rewrite Happ, Hg, Hsrc. apply (ratio_normalize_id info' (ratio, source)).
    unfold ratio_normal, package_id in *. by rewrite Hpkg. }
  split_and!; [apply Hn| |done| |by rewrite (proj1 (restored_ratio info' Hhas))].
  - destruct Hn as [_ Hs]. cbn [fst snd] in Hs. naive_solver.
  - unfold resolveAuthoritativeSubscriptionBillingRatio in *. rewrite Hfr. destruct (ri_Frozen info) as [[r0 s0]|]; [|done].
    cbn [fst] in *. rewrite <-E. unfold normalizeFrozenSubscriptionBillingRatio, defaultSubscriptionBillingRatio, package_id.
    by rewrite Hpkg.
Qed.
End RatioFacts.

(** The ratio of a package whose price was looked up for the group of the package: the
    override of the pair of groups, or 1. *)
Lemma package_ratio_resolved g autoGroup info :
  groups_wf g → package_id info > 0 → pd_SubscriptionRatioApplied (ri_PriceData info) = false →
  let packageGroup := ri_ValuePackageBillingGroup (ri_Package info) in
  (TrimSpace packageGroup ≠ "" →
     TrimSpace (ri_BillingUserGroup info) = "" ∨ TrimSpace (ri_BillingUserGroup info) = TrimSpace packageGroup) →
  let '(groupRatioInfo, info') := HandleGroupRatio g autoGroup info in
  TrimSpace (ri_UsingGroup info') = ri_UsingGroup info' →
  (resolveSubscriptionBillingRatio (info' <| ri_PriceData ::= λ p, p <| pd_GroupRatioInfo := groupRatioInfo |> |>)).1 =
    GetValuePackageGroupRatio g packageGroup (ri_UsingGroup info').
Proof.
  intros Hwf Hid Happ packageGroup Hug. unfold HandleGroupRatio.
  set (info' := match autoGroup with Some _ => _ | None => _ end).
  assert (Hsame : ri_Package info' = ri_Package info ∧ ri_BillingUserGroup info' = ri_BillingUserGroup info ∧
                  ri_PriceData info' = ri_PriceData info) by (by destruct autoGroup).
  clearbody info'. destruct Hsame as (Hpk & Hbu & Hpd). intros Huse.
  unfold resolveSubscriptionBillingRatio, GetValuePackageGroupRatio, package_id in *. rewrite Huse.
  cbn [ri_PriceData ri_Package ri_BillingUserGroup pd_SubscriptionRatioApplied pd_GroupRatioInfo update_field].
  rewrite Hpd, Happ, Hpk, Hbu, decide_False by lia. subst packageGroup.
  set (pg := TrimSpace (ri_ValuePackageBillingGroup (ri_Package info))) in *.
  case_decide as Hpg; [by rewrite (no_unnamed_override g _ _ Hwf Hpg)|].
  specialize (Hug Hpg). rewrite decide_False by naive_solver.
  assert (Hgrp : BillingRatioUserGroup info' = pg).
  { unfold BillingRatioUserGroup. rewrite Hbu, Hpk. fold pg. destruct Hug as [->| ->].
    - rewrite decide_False by (by intros []). by rewrite decide_True.
    - by rewrite decide_True. }
  rewrite Hgrp. unfold GetGroupRatioInfo. destruct (GetGroupGroupRatio g pg (ri_UsingGroup info')) as [r []] eqn:E; [|done].
  apply override_positive in E. cbn [gr_HasSpecialRatio gr_GroupSpecialRatio]. unfold validSubscriptionBillingRatio.
  fold (positive_ratio r). by rewrite E.
Qed.
