(* ===== verification/Expressions.v ===== *)
(** * Prices as expressions

    [pkg/billingexpr]: a price may be an expression over the token counts of a
    request.  The compiler and the interpreter of expressions ([expr-lang]), the JSON
    reader ([gjson]), SHA-256 and the time-zone database are third-party code: the
    class [ExprEngine].  The cache of compiled expressions is the state; its read and
    its write are one step, as two requests that compile the same expression at once
    store the same entry. *)
From S2P Require Import Prelude GoText GoTime GoFloat GoDecimal PriceTables Groups Ratios.

(** ** Definitions *)

Record TokenParams := mkTokens {
  tp_P : float64; tp_C : float64; tp_Len : float64; tp_CR : float64; tp_CC : float64; tp_CC1h : float64;
  tp_Img : float64; tp_ImgO : float64; tp_AI : float64; tp_AO : float64;
}.
Global Instance TokenParams_eta : Settable TokenParams := λ t,
  mkTokens (tp_P t) (tp_C t) (tp_Len t) (tp_CR t) (tp_CC t) (tp_CC1h t) (tp_Img t) (tp_ImgO t) (tp_AI t) (tp_AO t).
Definition no_tokens : TokenParams :=
  mkTokens float_zero float_zero float_zero float_zero float_zero float_zero float_zero float_zero float_zero float_zero.

Record TraceResult := mkTrace { MatchedTier : string; tr_Cost : float64 }.
Record TieredResult := mkTieredResult {
  ActualQuotaBeforeGroup : float64; ActualQuotaAfterGroup : Z; tr_MatchedTier : string; CrossedTier : bool;
}.

(** The names an expression can use, apart from the functions of [math]: variables,
    and the functions that the gateway supplies ([Value] is a value that is not nil). *)
Record ExprEnv (Value : Type) := mkExprEnv {
  env_vars : list (string * float64);
  env_header : string → string;
  env_param : string → option Value;
  env_has : option Value → string → bool;
  env_hour : string → Z;
  env_minute : string → Z;
  env_weekday : string → Z;
  env_month : string → Z;
  env_day : string → Z;
}.
Arguments mkExprEnv {_}.

(** A run calls [tier] some number of times, in an order, and fails or yields a value:
    a number, or a value of the type whose name is given. *)
Inductive outcome := OutFloat (f : float64) | OutOther (typ : string).
Class ExprEngine := {
  Program : Type;
  Value : Type;
  expr_Compile : string → result Program;
  expr_Identifiers : Program → list string;
  expr_Run : Program → ExprEnv Value → list (string * float64) * result outcome;
  gjson_GetBytes : string → string → option Value;
  fmt_Sprint : Value → string;
  sha256 : string → string;
  LoadLocation : string → option (Z → Z);
}.

Definition DefaultExprVersion : Z := 1.
Definition maxCacheSize : nat := 256.

Definition ParseExprVersion (exprStr : string) : Z * string :=
  if HasPrefix exprStr "v1:" then (1, String.substring 3 (String.length exprStr - 3) exprStr)
  else (DefaultExprVersion, exprStr).

(** A JSON text, its double quotes written as single ones. *)
Fixpoint json_text (s : string) : string :=
  match s with
  | EmptyString => EmptyString
  | String a s => String (if decide (a = "'"%char) then Ascii.ascii_of_nat 34 else a) (json_text s)
  end.

Definition smoke_vectors : list (string * TokenParams) :=
  prod_map id (λ n, no_tokens <| tp_P := float_of_int n |> <| tp_C := float_of_int n |> <| tp_Len := float_of_int n |>)
    <$> [("0", 0); ("1000", 1000); ("100000", 100000); ("1e+06", 1000000)].
Definition smoke_requests : list RequestInput :=
  [mkInput ∅ "";
   mkInput {["anthropic-beta" := "fast-mode-2026-02-01"]}
     (json_text "{'service_tier':'fast','stream_options':{'include_usage':true},'messages':[1,2,3,4,5,6,7,8,9,10,11,12,13,14,15,16,17,18,19,20,21]}")].

(** The cache, from the hash of an expression to its program. *)
Record cachedEntry `{ExprEngine} := mkEntry { ce_prog : Program; ce_usedVars : list string; ce_version : Z }.
Arguments mkEntry {_}.
Abbreviation ExprCache := (gmap string cachedEntry).

Section Expressions.
Context {Engine : ExprEngine} (shuffle : ∀ {A}, list A → list A).

Definition normalizeHeaders (headers : gmap string string) : gmap string string :=
  foldl (λ normalized '(key, value),
           let k := ToLower (TrimSpace key) in
           let v := TrimSpace value in
           if decide (k = "" ∨ v = "") then normalized else <[k := v]> normalized)
        ∅ (shuffle _ (map_to_list headers)).

(** The offset of a zone at an instant; an unknown zone is UTC. *)
Definition timeInZone (now : Z) (tz : string) : Z :=
  let tz := TrimSpace tz in
  if decide (tz = "") then 0 else match LoadLocation tz with None => 0 | Some loc => loc now end.

Definition exprEnv (now : Z) (params : TokenParams) (request : RequestInput) : ExprEnv Value :=
  let headers := normalizeHeaders (rq_Headers request) in
  mkExprEnv
    [("p", tp_P params); ("c", tp_C params); ("len", tp_Len params); ("cr", tp_CR params); ("cc", tp_CC params);
     ("cc1h", tp_CC1h params); ("img", tp_Img params); ("img_o", tp_ImgO params); ("ai", tp_AI params); ("ao", tp_AO params)]
    (λ key, default "" (headers !! ToLower (TrimSpace key)))
    (λ path, let path := TrimSpace path in
             if decide (path = "" ∨ rq_Body request = "") then None else gjson_GetBytes (rq_Body request) path)
    (λ source substr, match source with
                      | None => false
                      | Some v => if decide (substr = "") then false else Contains (fmt_Sprint v) substr
                      end)
    (λ tz, clock (timeInZone now tz) now / 3600)
    (λ tz, clock (timeInZone now tz) now mod 3600 / 60)
    (λ tz, Weekday (timeInZone now tz) now)
    (λ tz, (civil (local_day (timeInZone now tz) now)).1 mod 12 + 1)
    (λ tz, (civil (local_day (timeInZone now tz) now)).2).

(** The trace keeps the last call of [tier]. *)
Definition runProgram (now : Z) (prog : Program) (params : TokenParams) (request : RequestInput) :
    result (float64 * TraceResult) :=
  let '(tiers, out) := expr_Run prog (exprEnv now params request) in
  let trace := foldl (λ _ '(name, value), mkTrace name value) (mkTrace "" float_zero) tiers in
  match out with
  | Err e => Err (ErrWrap "expr run error" e)
  | Ok (OutFloat f) => Ok (f, trace)
  | Ok (OutOther typ) => Err (ErrNew ("expr result is " +:+ typ +:+ ", want float64"))
  end.

Definition ExprHashString (expr : string) : string := sha256 expr.

Definition compileFromCacheByHash (exprStr hash : string) : M ExprCache Program :=
  cache ← get;
  match cache !! hash with
  | Some entry => mret (ce_prog entry)
  | None =>
    let '(version, body) := ParseExprVersion exprStr in
    match expr_Compile body with
    | Err e => throw (ErrWrap "expr compile error" e)
    | Ok prog =>
      let vars := expr_Identifiers prog in
      _ ← modify (λ cache, <[hash := mkEntry prog vars version]>
                             (if decide (maxCacheSize ≤ size cache)%nat then ∅ else cache));
      mret prog
    end
  end.

Definition CompileFromCache (exprStr : string) : M ExprCache Program :=
  compileFromCacheByHash exprStr (ExprHashString exprStr).

Definition RunExprWithRequest (now : Z) (exprStr : string) (params : TokenParams) (request : RequestInput) :
    M ExprCache (float64 * TraceResult) :=
  prog ← CompileFromCache exprStr;
  lift (runProgram now prog params request).

Definition RunExprByHashWithRequest (now : Z) (exprStr hash : string) (params : TokenParams)
    (request : RequestInput) : M ExprCache (float64 * TraceResult) :=
  prog ← compileFromCacheByHash exprStr hash;
  lift (runProgram now prog params request).

Definition ExprVersion (cache : ExprCache) (exprStr : string) : Z :=
  if decide (exprStr = "") then DefaultExprVersion
  else match cache !! ExprHashString exprStr with
       | Some entry => ce_version entry
       | None => (ParseExprVersion exprStr).1
       end.

(** Nil, like no variable at all, when the expression does not compile. *)
Definition UsedVars (exprStr : string) : M ExprCache (list string) :=
  if decide (exprStr = "") then mret []
  else
    let hash := ExprHashString exprStr in
    cache ← get;
    match cache !! hash with
    | Some entry => mret (ce_usedVars entry)
    | None =>
      compiled ← attempt (compileFromCacheByHash exprStr hash);
      match compiled with
      | Err _ => mret []
      | Ok _ =>
        cache ← get;
        mret (match cache !! hash with Some entry => ce_usedVars entry | None => [] end)
      end
    end.

Definition InvalidateCache : M ExprCache () := modify (λ _, ∅).

(** Every version is converted as the first one: prices are per million tokens. *)
Definition quotaConversion (exprOutput : float64) (snap : BillingSnapshot) : float64 :=
  float_mul (float_div exprOutput (float_of_int 1000000)) (tb_QuotaPerUnit snap).

Definition ComputeTieredQuotaWithRequest (now : Z) (snap : BillingSnapshot) (params : TokenParams)
    (request : RequestInput) : M ExprCache TieredResult :=
  '(cost, trace) ← RunExprByHashWithRequest now (tb_ExprString snap) (tb_ExprHash snap) params request;
  let quotaBeforeGroup := quotaConversion cost snap in
  let afterGroup := QuotaRound (float_mul quotaBeforeGroup (tb_GroupRatio snap)) in
  let crossed := bool_decide (MatchedTier trace ≠ tb_EstimatedTier snap) in
  mret (mkTieredResult quotaBeforeGroup afterGroup (MatchedTier trace) crossed).

(** The check of an expression before it is saved: eight runs.  The texts of the
    errors leave out the number that was below zero. *)
Definition smokeTestExpr (now : Z) (exprStr : string) : M ExprCache () :=
  for_each smoke_vectors (λ '(n, v), for_each smoke_requests (λ request,
    let vector := "vector {p=" +:+ n +:+ ", c=" +:+ n +:+ "}: " in
    run ← attempt (RunExprWithRequest now exprStr v request);
    match run with
    | Err e => throw (ErrWrap (vector +:+ "run failed") e)
    | Ok (result, _) => fail_if ((result <? float_zero)%float = true) (ErrNew (vector +:+ "result < 0"))
    end)).

End Expressions.

(** ** The cache is transparent *)

Section Transparent.
Context {Engine : ExprEngine} (shuffle : ∀ {A}, list A → list A) (now : Z).

(** What the operations compute, without a cache. *)
Definition compiled (e : string) : result Program :=
  match expr_Compile (ParseExprVersion e).2 with
  | Ok prog => Ok prog
  | Err err => Err (ErrWrap "expr compile error" err)
  end.
Definition evaluated (e : string) (params : TokenParams) (request : RequestInput) : result (float64 * TraceResult) :=
  match compiled e with Ok prog => runProgram (@shuffle) now prog params request | Err err => Err err end.
Definition variables (e : string) : list string :=
  if decide (e = "") then [] else match compiled e with Ok prog => expr_Identifiers prog | Err _ => [] end.

(** The operations that reach the cache. *)
Inductive cache_op :=
| OpRun (e : string) (params : TokenParams) (request : RequestInput)
| OpSettle (e : string) (params : TokenParams) (request : RequestInput)
| OpVars (e : string)
| OpSmoke (e : string)
| OpInvalidate.
Definition op_expr (op : cache_op) : option string :=
  match op with OpRun e _ _ | OpSettle e _ _ | OpVars e | OpSmoke e => Some e | OpInvalidate => None end.
Definition run_op (op : cache_op) : M ExprCache () :=
  match op with
  | OpRun e params request => _ ← RunExprWithRequest (@shuffle) now e params request; mret tt
  | OpSettle e params request => _ ← RunExprByHashWithRequest (@shuffle) now e (ExprHashString e) params request; mret tt
  | OpVars e => _ ← UsedVars e; mret tt
  | OpSmoke e => smokeTestExpr (@shuffle) now e
  | OpInvalidate => InvalidateCache
  end.
Definition cache_from (cache : ExprCache) (ops : list cache_op) : ExprCache := foldl (λ cache op, (run_op op cache).2) cache ops.
Definition cache_after (ops : list cache_op) : ExprCache := cache_from ∅ ops.

(** An entry holds what compiling its expression gives; [E] are the expressions in use. *)
Context (E : string → Prop) (Hsha : ∀ e e', E e → E e' → sha256 e = sha256 e' → e = e').

Definition entry_ok (h : string) (entry : cachedEntry) : Prop :=
  ∃ e, E e ∧ h = sha256 e ∧ compiled e = Ok (ce_prog entry) ∧
       ce_usedVars entry = expr_Identifiers (ce_prog entry) ∧ ce_version entry = (ParseExprVersion e).1.
Definition exprs_ok (cache : ExprCache) : Prop := map_Forall entry_ok cache ∧ (size cache ≤ maxCacheSize)%nat.

Lemma compiled_entry e cache entry :
  E e → exprs_ok cache → cache !! sha256 e = Some entry →
  compiled e = Ok (ce_prog entry) ∧ ce_usedVars entry = expr_Identifiers (ce_prog entry) ∧
  ce_version entry = (ParseExprVersion e).1.
Proof.
  intros He [Hc _] Hl. destruct (Hc _ _ Hl) as (e' & He' & Hh & Hp & Hv & Hver).
  by rewrite (Hsha e e' He He' Hh).
Qed.

(** One compilation: the program of the expression, which is cached, or its error. *)
Lemma wp_compile e cache :
  E e → exprs_ok cache →
  wp (compileFromCacheByHash e (sha256 e))
     (λ r cache', r = compiled e ∧ exprs_ok cache' ∧
        match r with Ok prog => ∃ entry, cache' !! sha256 e = Some entry ∧ ce_prog entry = prog | Err _ => cache' = cache end)
     cache.
Proof.
  intros He Hok. unfold compileFromCacheByHash. wp_step. wp_step. destruct (cache !! sha256 e) as [entry|] eqn:Hl.
  - apply wp_ret. destruct (compiled_entry e cache entry He Hok Hl) as [Hc _]. split_and!; [done|done|eauto].
  - destruct (ParseExprVersion e) as [version body] eqn:Hv. destruct (expr_Compile body) as [prog|err] eqn:Hc.
    + wp_step. wp_step. wp_step. unfold compiled. rewrite Hv; cbn [snd]. rewrite Hc. split_and!; [done| |].
      * set (base := if decide _ then _ else _).
        assert (Hb : map_Forall entry_ok base ∧ (size base < maxCacheSize)%nat).
        { unfold base. case_decide; split; [apply map_Forall_empty|rewrite map_size_empty; unfold maxCacheSize; lia|apply Hok|lia]. }
        split; [|rewrite map_size_insert; destruct (base !! sha256 e); cbn [id]; lia].
        apply map_Forall_insert_2; [|apply Hb]. exists e. unfold compiled. rewrite Hv; cbn [fst snd]. rewrite Hc. done.
      * eexists. rewrite lookup_insert_eq. done.
    + wp_step. unfold compiled. rewrite Hv; cbn [snd]. by rewrite Hc.
Qed.

Lemma wp_evaluate e params request cache :
  E e → exprs_ok cache →
  wp (RunExprByHashWithRequest (@shuffle) now e (sha256 e) params request)
     (λ r cache', r = evaluated e params request ∧ exprs_ok cache') cache.
Proof.
  intros He Hok. unfold RunExprByHashWithRequest. wp_step. eapply wp_mono; [by apply wp_compile|].
  intros [prog|err] cache' (Hr & Hok' & _); unfold evaluated; rewrite <-Hr; [by wp_step|done].
Qed.

Lemma wp_variables e cache :
  E e → exprs_ok cache → wp (UsedVars e) (λ r cache', r = Ok (variables e) ∧ exprs_ok cache') cache.
Proof.
  intros He Hok. unfold UsedVars, variables. case_decide; [by wp_step|]. wp_step. wp_step.
  destruct (cache !! ExprHashString e) as [entry|] eqn:Hl; unfold ExprHashString in *.
  - wp_step. destruct (compiled_entry e cache entry He Hok Hl) as (-> & -> & _). done.
  - wp_step. wp_step. eapply wp_mono; [by apply wp_compile|]. intros [prog|err] cache' (Hr & Hok' & Hc); rewrite <-Hr.
    + destruct Hc as (entry & Hl' & <-). repeat wp_step. rewrite Hl'.
      destruct (compiled_entry e cache' entry He Hok' Hl') as (_ & -> & _). done.
    + by wp_step.
Qed.

Lemma preserves_for_each {S A} (I : S → Prop) (l : list A) (f : A → M S ()) :
  (∀ a, a ∈ l → preserves I (f a)) → preserves I (for_each l f).
Proof.
  induction l as [|a l IH]; intros Hf; [by intros s|]. cbn [for_each]. apply preserves_bind; [apply Hf; left|].
  intros _. apply IH. intros a' Ha. apply Hf. by right.
Qed.

Lemma cache_op_ok op : (∀ e, op_expr op = Some e → E e) → preserves exprs_ok (run_op op).
Proof.
  assert (Hrun : ∀ e params request, E e →
    preserves exprs_ok (RunExprByHashWithRequest (@shuffle) now e (sha256 e) params request)).
  { intros e params request He. apply wp_preserves. intros cache Hok. eapply wp_mono; [by apply wp_evaluate|]. naive_solver. }
  destruct op as [e params request|e params request|e|e|]; cbn [op_expr run_op]; intros He.
  - apply preserves_bind; [by apply Hrun, He|]. intros _. by intros s.
  - apply preserves_bind; [by apply Hrun, He|]. intros _. by intros s.
  - apply preserves_bind; [|intros _; by intros s]. apply wp_preserves. intros cache Hok.
    eapply wp_mono; [by apply wp_variables; [apply He|]|]. naive_solver.
  - apply preserves_for_each. intros [n v] _. apply preserves_for_each. intros request _.
    apply preserves_bind; [by apply preserves_attempt, Hrun, He|]. intros [[f trace]|err]; [|by intros s].
    apply preserves_read, keeps_fail_if.
  - intros s _. split; [apply map_Forall_empty|]. cbn. rewrite map_size_empty. unfold maxCacheSize. lia.
Qed.

Lemma cache_from_ok cache ops :
  exprs_ok cache → Forall (λ op, ∀ e, op_expr op = Some e → E e) ops → exprs_ok (cache_from cache ops).
Proof.
  intros Hok Hops. unfold cache_from. revert cache Hok. induction Hops as [|op ops Hop _ IH]; intros cache Hok; [done|].
  cbn [foldl]. apply IH. by apply (cache_op_ok op).
Qed.

Lemma cache_after_ok ops : Forall (λ op, ∀ e, op_expr op = Some e → E e) ops → exprs_ok (cache_after ops).
Proof.
  apply cache_from_ok. split; [apply map_Forall_empty|]. rewrite map_size_empty. unfold maxCacheSize. lia.
Qed.

End Transparent.

(** C12: whatever was compiled, settled, smoke-tested or invalidated before, in any
    order and through any number of evictions, running an expression, by its text or by
    the hash a snapshot keeps, gives what compiling it afresh gives; so do its variables
    and its version; and the cache never holds more than 256 programs.  SHA-256 is
    assumed not to collide on the expressions in use. *)
Theorem expression_cache_transparent {Engine : ExprEngine} (shuffle : ∀ A, list A → list A) (now : Z)
    (E : string → Prop) (ops : list cache_op) (e : string) (params : TokenParams) (request : RequestInput) :
  (∀ e e', E e → E e' → sha256 e = sha256 e' → e = e') →
  Forall (λ op, ∀ e, op_expr op = Some e → E e) ops → E e →
  let cache := cache_after shuffle now ops in
  (RunExprWithRequest shuffle now e params request cache).1 = evaluated shuffle now e params request ∧
  (RunExprByHashWithRequest shuffle now e (ExprHashString e) params request cache).1 = evaluated shuffle now e params request ∧
  (UsedVars e cache).1 = Ok (variables e) ∧
  ExprVersion cache e = (ParseExprVersion e).1 ∧
  (size cache ≤ maxCacheSize)%nat.
Proof.
  intros Hsha Hops He cache. assert (Hok := cache_after_ok shuffle now E Hsha ops Hops). fold cache in Hok.
  destruct (wp_result _ _ _ (wp_evaluate shuffle now E Hsha e params request cache He Hok)) as (r & c & Hrun & -> & _).
  destruct (wp_result _ _ _ (wp_variables E Hsha e cache He Hok)) as (r & c' & Hvars & -> & _).
  split_and!; [by change (RunExprWithRequest _ _ _ _ _) with
    (RunExprByHashWithRequest shuffle now e (sha256 e) params request); rewrite Hrun| |by rewrite Hvars| |apply Hok].
  - unfold ExprHashString. by rewrite Hrun.
  - unfold ExprVersion. case_decide as H0; [by rewrite H0|]. unfold ExprHashString.
    destruct (cache !! sha256 e) as [entry|] eqn:Hl; [|done]. by destruct (compiled_entry E Hsha e cache entry He Hok Hl) as (_ & _ & ->).
Qed.

(** ** Example *)

(** Expressions that are the name of a variable, priced in one tier. *)
Definition variable_engine : ExprEngine := {|
  Program := string;
  Value := string;
  expr_Compile body := if decide (body = "") then Err (ErrNew "unexpected token EOF") else Ok body;
  expr_Identifiers prog := [prog];
  expr_Run prog env :=
    match list_find (λ '(name, _), name = prog) (env_vars _ env) with
    | Some (_, (_, x)) => ([("base", x)], Ok (OutFloat x))
    | None => ([], Err (ErrNew "unknown name"))
    end;
  gjson_GetBytes _ _ := None;
  fmt_Sprint := id;
  sha256 := id;
  LoadLocation _ := None;
|}.

Lemma expression_cache_transparent_witness :
  let shuffle := λ A (l : list A), l in
  let params := no_tokens <| tp_P := float_of_int 7 |> in
  let cache := cache_after (Engine := variable_engine) shuffle 0 [OpSmoke "v1:c"; OpVars "p"; OpInvalidate; OpRun "p" params (mkInput ∅ "")] in
  (RunExprWithRequest (Engine := variable_engine) shuffle 0 "v1:p" params (mkInput ∅ "") cache).1 = Ok (float_of_int 7, mkTrace "base" (float_of_int 7)).
Proof.
  intros shuffle params cache.
  destruct (@expression_cache_transparent variable_engine shuffle 0 (λ _, True)
    [OpSmoke "v1:c"; OpVars "p"; OpInvalidate; OpRun "p" params (mkInput ∅ "")] "v1:p" params (mkInput ∅ "")) as [H _].
  - intros e e' _ _ H. exact H.
  - repeat constructor.
  - exact I.
  - unfold cache. rewrite H. vm_compute. reflexivity.
Defined.
