(* ===== verification/Prices.v ===== *)
(** * What models and tools cost

    [setting/ratio_setting/model_ratio.go], [cache_ratio.go], [types/rw_map.go],
    [setting/operation_setting/tools.go], [setting/billing_setting] and
    [relay/helper/price.go]: the tables of prices and ratios, how a model or a tool is
    looked up in them, and the price of a request before it is sent.  The settings are a
    record of the current tables; log lines are left out. *)
From S2P Require Import Prelude GoText Tables GoTime Schema GoFloat GoDecimal PriceTables Groups Channels Ratios Expressions.

(** ** Definitions *)

Definition CompactModelSuffix := "-openai-compact".
Definition CompactWildcardModelKey := "*" +:+ CompactModelSuffix.
Definition BillingModeRatio := "ratio".
Definition BillingModeTieredExpr := "tiered_expr".

Record PriceSettings := mkPrices {
  modelPriceMap : gmap string float64;
  modelRatioMap : gmap string float64;
  completionRatioMap : gmap string float64;
  cacheRatioMap : gmap string float64;
  createCacheRatioMap : gmap string float64;
  imageRatioMap : gmap string float64;
  audioRatioMap : gmap string float64;
  audioCompletionRatioMap : gmap string float64;
  SelfUseModeEnabled : bool;
  EnableFreeModelPreConsume : bool;
  PreConsumedQuota : Z;
  QuotaPerUnit : float64;
  ps_BillingMode : gmap string string;
  ps_BillingExpr : gmap string string;
}.
Global Instance PriceSettings_eta : Settable PriceSettings := λ s,
  mkPrices (modelPriceMap s) (modelRatioMap s) (completionRatioMap s) (cacheRatioMap s) (createCacheRatioMap s)
    (imageRatioMap s) (audioRatioMap s) (audioCompletionRatioMap s) (SelfUseModeEnabled s)
    (EnableFreeModelPreConsume s) (PreConsumedQuota s) (QuotaPerUnit s) (ps_BillingMode s) (ps_BillingExpr s).

(** The settings before and after [InitRatioSettings]. *)
Definition no_prices : PriceSettings :=
  mkPrices ∅ ∅ ∅ ∅ ∅ ∅ ∅ ∅ false true 500 (float_of_int 500000) ∅ ∅.

(** [RWMap.AddAll]. *)
Definition AddAll (other m : gmap string float64) : gmap string float64 := other ∪ m.

Definition InitRatioSettings (s : PriceSettings) : PriceSettings :=
  s <| modelPriceMap ::= AddAll (map_literal defaultModelPrice) |>
    <| modelRatioMap ::= AddAll (map_literal defaultModelRatio) |>
    <| completionRatioMap ::= AddAll (map_literal defaultCompletionRatio) |>
    <| cacheRatioMap ::= AddAll (map_literal defaultCacheRatio) |>
    <| createCacheRatioMap ::= AddAll (map_literal defaultCreateCacheRatio) |>
    <| imageRatioMap ::= AddAll (map_literal defaultImageRatio) |>
    <| audioRatioMap ::= AddAll (map_literal defaultAudioRatio) |>
    <| audioCompletionRatioMap ::= AddAll (map_literal defaultAudioCompletionRatio) |>.

(** [LoadFromJsonString]: the map is emptied, then filled with what was decoded before an
    error, if there was one.  [Unmarshal] is [encoding/json]'s decoder of an object of
    numbers; dropping the cache of published prices after a success is left out. *)
Section Updates.
Context (Unmarshal : string → gmap string float64 * option error).

Definition LoadFromJsonString (jsonStr : string) : M (gmap string float64) () :=
  let '(data, err) := Unmarshal jsonStr in
  _ ← modify (λ _, data);
  match err with None => mret tt | Some e => throw e end.

Definition on_table (π : PriceSettings → gmap string float64) `{!Setter π} (m : M (gmap string float64) ()) :
    M PriceSettings () := λ s, ((m (π s)).1, s <| π := (m (π s)).2 |>).

Definition UpdateModelPriceByJSONString (jsonStr : string) : M PriceSettings () :=
  on_table modelPriceMap (LoadFromJsonString jsonStr).
Definition UpdateModelRatioByJSONString (jsonStr : string) : M PriceSettings () :=
  on_table modelRatioMap (LoadFromJsonString jsonStr).
Definition UpdateCompletionRatioByJSONString (jsonStr : string) : M PriceSettings () :=
  on_table completionRatioMap (LoadFromJsonString jsonStr).
Definition UpdateCacheRatioByJSONString (jsonStr : string) : M PriceSettings () :=
  on_table cacheRatioMap (LoadFromJsonString jsonStr).
Definition UpdateCreateCacheRatioByJSONString (jsonStr : string) : M PriceSettings () :=
  on_table createCacheRatioMap (LoadFromJsonString jsonStr).
Definition UpdateImageRatioByJSONString (jsonStr : string) : M PriceSettings () :=
  on_table imageRatioMap (LoadFromJsonString jsonStr).
Definition UpdateAudioRatioByJSONString (jsonStr : string) : M PriceSettings () :=
  on_table audioRatioMap (LoadFromJsonString jsonStr).
Definition UpdateAudioCompletionRatioByJSONString (jsonStr : string) : M PriceSettings () :=
  on_table audioCompletionRatioMap (LoadFromJsonString jsonStr).

End Updates.

(** *** Models *)

Definition GetModelPrice (s : PriceSettings) (name : string) : float64 * bool :=
  let name := FormatMatchingModelName name in
  match modelPriceMap s !! name with
  | Some price => (price, true)
  | None =>
    if HasSuffix name CompactModelSuffix then
      match modelPriceMap s !! CompactWildcardModelKey with
      | Some price => (price, true)
      | None => (float_minus_one, false)
      end
    else (float_minus_one, false)
  end.

Definition GetModelRatio (s : PriceSettings) (name : string) : float64 * bool * string :=
  let name := FormatMatchingModelName name in
  match modelRatioMap s !! name with
  | Some ratio => (ratio, true, name)
  | None =>
    let missing := (float_const 37.5, SelfUseModeEnabled s, name) in
    if HasSuffix name CompactModelSuffix then
      match modelRatioMap s !! CompactWildcardModelKey with
      | Some wildcardRatio => (wildcardRatio, true, name)
      | None => missing
      end
    else missing
  end.

Definition getHardcodedCompletionModelRatio (name : string) : float64 * bool :=
  let eq := λ x, bool_decide (name = x) in
  let ratio (q : Q) locked := (float_const q, locked) in
  if HasSuffix name "-all" || HasSuffix name "-gizmo-*" then ratio 2%Q false
  else if HasPrefix name "gpt-" then
    if HasPrefix name "gpt-4o" then
      if eq "gpt-4o-2024-05-13" then ratio 3%Q true
      else if HasPrefix name "gpt-4o-mini-tts" then ratio 20%Q false
      else ratio 4%Q false
    else if HasPrefix name "gpt-5" then
      if eq "gpt-5.6" || eq "gpt-5.6-sol" || eq "gpt-5.6-terra" || eq "gpt-5.6-luna" then ratio 6%Q true
      else if HasPrefix name "gpt-5.5" then ratio 6%Q true
      else if HasPrefix name "gpt-5.4" then
        if HasPrefix name "gpt-5.4-nano" then ratio 6.25%Q true else ratio 6%Q true
      else ratio 8%Q true
    else if HasPrefix name "gpt-4.5-preview" then ratio 2%Q true
    else if HasPrefix name "gpt-4-turbo" || HasSuffix name "gpt-4-1106" || HasSuffix name "gpt-4-1105" then ratio 3%Q true
    else ratio 2%Q false
  else if HasPrefix name "o1" || HasPrefix name "o3" then ratio 4%Q true
  else if eq "chatgpt-4o-latest" then ratio 3%Q true
  else if Contains name "claude-3" then ratio 5%Q true
  else if Contains name "claude-sonnet-4" || Contains name "claude-opus-4" || Contains name "claude-haiku-4" then ratio 5%Q true
  else if HasPrefix name "gpt-3.5" then
    if eq "gpt-3.5-turbo" || HasSuffix name "0125" then ratio 3%Q true
    else if HasSuffix name "1106" then ratio 2%Q true
    else ratio (4.0 / 3.0)%Q true
  else if HasPrefix name "mistral-" then ratio 3%Q true
  else if HasPrefix name "gemini-" then
    if HasPrefix name "gemini-1.5" then ratio 4%Q true
    else if HasPrefix name "gemini-2.0" then ratio 4%Q true
    else if HasPrefix name "gemini-2.5-pro" then ratio 8%Q false
    else if HasPrefix name "gemini-2.5-flash" then
      if HasPrefix name "gemini-2.5-flash-preview" then
        if HasSuffix name "-nothinking" then ratio 4%Q false else ratio (3.5 / 0.15)%Q false
      else if HasPrefix name "gemini-2.5-flash-lite" then ratio 4%Q false
      else ratio (2.5 / 0.3)%Q false
    else if HasPrefix name "gemini-robotics-er-1.5" then ratio (2.5 / 0.3)%Q false
    else if HasPrefix name "gemini-3-pro" then
      if HasPrefix name "gemini-3-pro-image" then ratio 60%Q false else ratio 6%Q false
    else ratio 4%Q false
  else if HasPrefix name "command" then
    if eq "command-r" then ratio 3%Q true
    else if eq "command-r-plus" then ratio 5%Q true
    else if eq "command-r-08-2024" then ratio 4%Q true
    else if eq "command-r-plus-08-2024" then ratio 4%Q true
    else ratio 4%Q false
  else if HasPrefix name "ERNIE-Speed-" then ratio 2%Q true
  else if HasPrefix name "ERNIE-Lite-" then ratio 2%Q true
  else if HasPrefix name "ERNIE-Character" then ratio 2%Q true
  else if HasPrefix name "ERNIE-Functions" then ratio 2%Q true
  else if eq "llama2-70b-4096" then ratio (0.8 / 0.64)%Q true
  else if eq "llama3-8b-8192" then ratio 2%Q true
  else if eq "llama3-70b-8192" then ratio (0.79 / 0.59)%Q true
  else ratio 1%Q false.

Definition GetCompletionRatio (s : PriceSettings) (name : string) : float64 :=
  let name := FormatMatchingModelName name in
  let configured := completionRatioMap s !! name in
  let rest :=
    let '(hardCodedRatio, contain) := getHardcodedCompletionModelRatio name in
    if contain then hardCodedRatio
    else match configured with Some ratio => ratio | None => hardCodedRatio end in
  if Contains name "/" then match configured with Some ratio => ratio | None => rest end else rest.

Record CompletionRatioInfo := mkCompletionRatio { cr_Ratio : float64; cr_Locked : bool }.
Definition GetCompletionRatioInfo (s : PriceSettings) (name : string) : CompletionRatioInfo :=
  let name := FormatMatchingModelName name in
  let configured := completionRatioMap s !! name in
  let rest :=
    let '(hardCodedRatio, locked) := getHardcodedCompletionModelRatio name in
    if locked then mkCompletionRatio hardCodedRatio true
    else match configured with
         | Some ratio => mkCompletionRatio ratio false
         | None => mkCompletionRatio hardCodedRatio false
         end in
  if Contains name "/" then match configured with Some ratio => mkCompletionRatio ratio false | None => rest end
  else rest.

Definition GetAudioRatio (s : PriceSettings) (name : string) : float64 :=
  default float_one (audioRatioMap s !! FormatMatchingModelName name).
Definition GetAudioCompletionRatio (s : PriceSettings) (name : string) : float64 :=
  default float_one (audioCompletionRatioMap s !! FormatMatchingModelName name).
Definition GetImageRatio (s : PriceSettings) (name : string) : float64 * bool :=
  match imageRatioMap s !! name with Some ratio => (ratio, true) | None => (float_one, false) end.
Definition GetCacheRatio (s : PriceSettings) (name : string) : float64 * bool :=
  match cacheRatioMap s !! name with Some ratio => (ratio, true) | None => (float_one, false) end.
Definition GetCreateCacheRatio (s : PriceSettings) (name : string) : float64 * bool :=
  match createCacheRatioMap s !! name with Some ratio => (ratio, true) | None => (float_const 1.25, false) end.

Definition GetModelRatioOrPrice (s : PriceSettings) (model : string) : float64 * bool * bool :=
  let '(price, usePrice) := GetModelPrice s model in
  if usePrice then (price, true, true)
  else
    let '(modelRatio, success, _) := GetModelRatio s model in
    if success then (modelRatio, false, true) else (float_const 37.5, false, false).

Definition GetBillingMode (s : PriceSettings) (model : string) : string :=
  default BillingModeRatio (ps_BillingMode s !! model).
Definition GetBillingExpr (s : PriceSettings) (model : string) : option string := ps_BillingExpr s !! model.

Definition HasModelBillingConfig (s : PriceSettings) (modelName : string) : bool :=
  if (GetModelPrice s modelName).2 then true
  else if (GetModelRatio s modelName).1.2 then true
  else if decide (GetBillingMode s modelName ≠ BillingModeTieredExpr) then false
  else match GetBillingExpr s modelName with
       | Some expr => bool_decide (TrimSpace expr ≠ "")
       | None => false
       end.

(** *** Tools *)

Definition defaultToolPrices : gmap string float64 := map_literal
  [("web_search", 10%Q); ("web_search_preview", 10%Q); ("file_search", 2.5%Q); ("google_search", 14%Q)].
Definition defaultToolPriceOverrides : gmap string float64 := map_literal
  [("web_search_preview:gpt-4o*", 25%Q); ("web_search_preview:gpt-4.1*", 25%Q);
   ("web_search_preview:gpt-4o-mini*", 25%Q); ("web_search_preview:gpt-4.1-mini*", 25%Q)].

(** The text before and after the first colon of a key. *)
Fixpoint split_colon (key : string) : option (string * string) :=
  match key with
  | EmptyString => None
  | String a rest =>
    if decide (a = ":"%char) then Some ("", rest)
    else match split_colon rest with Some (x, y) => Some (String a x, y) | None => None end
  end.
(** [strings.TrimSuffix(s, "*")]. *)
Fixpoint trim_star (s : string) : string :=
  match s with
  | EmptyString => ""
  | String a rest => if decide (s = "*") then "" else String a (trim_star rest)
  end.

Record prefixEntry := mkPrefix { pe_prefix : string; pe_price : float64 }.
Record toolPriceIndex := mkIndex { ix_defaults : gmap string float64; ix_prefixes : gmap string (list prefixEntry) }.
Global Instance toolPriceIndex_eta : Settable toolPriceIndex := λ i, mkIndex (ix_defaults i) (ix_prefixes i).

(** [sort.Slice] by the length of the prefix, the longest first. *)
Definition longer_prefix (a b : prefixEntry) : Prop := (String.length (pe_prefix b) ≤ String.length (pe_prefix a))%nat.
Global Instance longer_prefix_dec : RelDecision longer_prefix.
Proof. intros a b. unfold longer_prefix. solve_decision. Defined.

Definition merged_prices (prices : gmap string float64) : gmap string float64 :=
  prices ∪ (defaultToolPriceOverrides ∪ defaultToolPrices).
Definition index_key (idx : toolPriceIndex) (kv : string * float64) : toolPriceIndex :=
  let '(key, price) := kv in
  match split_colon key with
  | None => idx <| ix_defaults ::= insert key price |>
  | Some (toolName, modelPart) =>
    let entry := mkPrefix (trim_star modelPart) price in
    idx <| ix_prefixes ::= partial_alter (λ entries, Some (default [] entries ++ [entry])) toolName |>
  end.
Definition RebuildToolPriceIndex (shuffle : ∀ A, list A → list A) (prices : gmap string float64) : toolPriceIndex :=
  (foldl index_key (mkIndex ∅ ∅) (shuffle _ (map_to_list (merged_prices prices))))
    <| ix_prefixes ::= fmap (λ entries, merge_sort longer_prefix (shuffle _ entries)) |>.

Definition GetToolPriceForModel (idx : toolPriceIndex) (toolName modelName : string) : float64 :=
  let fallback := default float_zero (ix_defaults idx !! toolName) in
  match ix_prefixes idx !! toolName with
  | Some entries =>
    if decide (modelName ≠ "") then
      match list_find (λ e, HasPrefix modelName (pe_prefix e) = true) entries with
      | Some (_, e) => pe_price e
      | None => fallback
      end
    else fallback
  | None => fallback
  end.
Definition GetToolPrice (idx : toolPriceIndex) (toolName : string) : float64 := GetToolPriceForModel idx toolName "".

Definition GetGPTImage1PriceOnceCall (quality size : string) : float64 :=
  let price q1024 q1536 q1536w : option float64 :=
    if decide (size = "1024x1024") then Some (float_const q1024)
    else if decide (size = "1024x1536") then Some (float_const q1536)
    else if decide (size = "1536x1024") then Some (float_const q1536w) else None in
  default (float_const 0.167)
    (if decide (quality = "low") then price 0.011%Q 0.016%Q 0.016%Q
     else if decide (quality = "medium") then price 0.042%Q 0.063%Q 0.063%Q
     else if decide (quality = "high") then price 0.167%Q 0.25%Q 0.25%Q else None).

Definition GetGeminiInputAudioPricePerMillionTokens (modelName : string) : float64 :=
  if HasPrefix modelName "gemini-2.5-flash-preview-native-audio" then float_const 3.00
  else if HasPrefix modelName "gemini-2.5-flash-preview-lite" then float_const 0.50
  else if HasPrefix modelName "gemini-2.5-flash-preview" then float_const 1.00
  else if HasPrefix modelName "gemini-2.5-flash" then float_const 1.00
  else if HasPrefix modelName "gemini-2.0-flash" then float_const 0.70
  else if HasPrefix modelName "gemini-robotics-er-1.5" then float_const 1.00
  else float_zero.

(** *** The price of a request *)

Record TokenCountMeta := mkCount { mt_MaxTokens : Z; mt_ImagePriceRatio : float64 }.

Definition RoleAdminUser := 10.
Definition IsAdmin (d : DB) (userId : Z) : bool :=
  if decide (userId = 0) then false
  else match by_id userId (users d) with Some user => bool_decide (RoleAdminUser ≤ u_Role user) | None => false end.

Definition modelPriceNotConfiguredError (d : DB) (modelName : string) (userId : Z) : error :=
  if IsAdmin d userId then
    ErrNew ("模型 " +:+ modelName +:+ " 的价格未配置。请前往「系统设置 → 运营设置」开启自用模式，或在「系统设置 → 分组与模型定价设置」中为该模型配置价格；Model "
      +:+ modelName +:+ " price not configured. Go to System Settings → Operation Settings to enable self-use mode, or configure the model price in System Settings → Group & Model Pricing.")
  else
    ErrNew ("模型 " +:+ modelName +:+ " 的价格尚未由管理员配置，暂时无法使用，请联系站点管理员开启该模型；Model "
      +:+ modelName +:+ " has not been priced by the administrator yet. Please contact the site administrator to enable this model.").

Definition claudeCacheCreation1hMultiplier : float64 := float_const (6 / 3.75)%Q.

Definition isJSONContentType (contentType : string) : bool :=
  HasPrefix (ToLower (TrimSpace contentType)) "application/json".
Definition cloneStringMap (src : gmap string string) : gmap string string :=
  filter (λ kv, TrimSpace kv.1 ≠ "") src.

(** The HTTP request: its content type and its body, as far as it could be read. *)
Definition readIncomingBillingExprBody (http : option (string * result string)) : result string :=
  match http with
  | Some (contentType, body) => if isJSONContentType contentType then body else Ok ""
  | None => Ok ""
  end.
Definition ResolveIncomingBillingExprRequestInput (http : option (string * result string)) (info : RelayInfo) :
    result RequestInput :=
  match ri_BillingRequestInput (ri_Call info) with
  | Some input =>
    Ok (mkInput (cloneStringMap (rq_Headers input) ∪ cloneStringMap (ri_RequestHeaders (ri_Call info))) (rq_Body input))
  | None =>
    match readIncomingBillingExprBody http with
    | Ok body => Ok (mkInput (cloneStringMap (ri_RequestHeaders (ri_Call info))) body)
    | Err e => Err e
    end
  end.

Section Helper.
Context {Engine : ExprEngine} (shuffle : ∀ A, list A → list A) (now : Z).
Context (d : DB) (g : GroupSettings) (s : PriceSettings).
Context (autoGroup : option string) (http : option (string * result string)).

(** The request, which a price is attached to, and the cache of expressions. *)
Definition Pricing := (RelayInfo * ExprCache)%type.
Definition info_of : M Pricing RelayInfo := x ← get; mret x.1.
Definition put_info (info : RelayInfo) : M Pricing () := modify (λ x, (info, x.2)).
Definition on_cache {A} (m : M ExprCache A) : M Pricing A := λ x, ((m x.2).1, (x.1, (m x.2).2)).

Definition handle_group : M Pricing GroupRatioInfo :=
  info ← info_of;
  let '(groupRatioInfo, info) := HandleGroupRatio g autoGroup info in
  _ ← put_info info;
  mret groupRatioInfo.

Definition modelPriceHelperTiered (promptTokens : Z) (meta : TokenCountMeta) (groupRatioInfo : GroupRatioInfo) :
    M Pricing PriceData :=
  info ← info_of;
  let model := ri_OriginModelName (ri_Call info) in
  exprStr ← or_error (GetBillingExpr s model)
    (ErrNew ("model " +:+ model +:+ " is configured as tiered_expr but has no billing expression"));
  let estimatedCompletionTokens := mt_MaxTokens meta in
  requestInput ← lift (ResolveIncomingBillingExprRequestInput http info);
  run ← attempt (on_cache (RunExprWithRequest shuffle now exprStr
    (no_tokens <| tp_P := float_of_int promptTokens |> <| tp_C := float_of_int estimatedCompletionTokens |>
               <| tp_Len := float_of_int promptTokens |>) requestInput));
  match run with
  | Err e => throw (ErrWrap ("model " +:+ model +:+ " tiered expr run failed") e)
  | Ok (rawCost, trace) =>
    let quotaBeforeGroup := float_mul (float_div rawCost (float_of_int 1000000)) (QuotaPerUnit s) in
    let freeByGroupRatio := negb (EnableFreeModelPreConsume s) && (gr_GroupRatio groupRatioInfo =? float_zero)%float in
    let preConsumedQuota :=
      if freeByGroupRatio then 0 else QuotaRound (float_mul quotaBeforeGroup (gr_GroupRatio groupRatioInfo)) in
    x ← get;
    let snapshot := mkTiered BillingModeTieredExpr (gr_GroupRatio groupRatioInfo) quotaBeforeGroup preConsumedQuota
      model exprStr (ExprHashString exprStr) promptTokens estimatedCompletionTokens (MatchedTier trace)
      (QuotaPerUnit s) (ExprVersion x.2 exprStr) in
    let priceData := no_price <| pd_FreeModel := freeByGroupRatio |> <| pd_FreeByGroupRatio := freeByGroupRatio |>
      <| pd_GroupRatioInfo := groupRatioInfo |> <| pd_QuotaToPreConsume := preConsumedQuota |>
      <| pd_QuotaBeforeGroup := quotaBeforeGroup |> in
    _ ← put_info (info <| ri_TieredBillingSnapshot := Some snapshot |>
                       <| ri_Call ::= λ c, c <| ri_BillingRequestInput := Some requestInput |> |>
                       <| ri_PriceData := priceData |>);
    mret priceData
  end.

(** The ratio of a model that is not sold at a price, with the completion ratio of a
    channel test; a model without a ratio is refused unless the user accepts it. *)
Definition model_ratio (info : RelayInfo) : M Pricing (float64 * float64 * bool) :=
  let '(modelRatio, success, matchName) := GetModelRatio s (ri_OriginModelName (ri_Call info)) in
  if success then mret (modelRatio, float_zero, false)
  else if ri_IsChannelTest (ri_Call info) then mret (float_zero, float_one, true)
  else if ri_AcceptUnsetRatioModel (ri_Call info) then mret (modelRatio, float_zero, false)
  else throw (modelPriceNotConfiguredError d matchName (ri_UserId info)).

(** The end of [ModelPriceHelper]: a free model reserves nothing, if so configured. *)
Definition finish_price (free : bool) (priceData : PriceData) : PriceData :=
  let groupRatio := gr_GroupRatio (pd_GroupRatioInfo priceData) in
  let isFree := negb (EnableFreeModelPreConsume s) in
  let freeByGroupRatio := isFree && (groupRatio =? float_zero)%float in
  let freeByModel := isFree && ((if pd_UsePrice priceData then pd_ModelPrice priceData else pd_ModelRatio priceData) =? float_zero)%float in
  let freeNow := freeByGroupRatio || freeByModel in
  priceData <| pd_FreeModel := free || freeNow |> <| pd_FreeByGroupRatio := freeByGroupRatio |>
    <| pd_QuotaToPreConsume := if freeNow then 0 else pd_QuotaToPreConsume priceData |>.

Definition ModelPriceHelper (promptTokens : Z) (meta : TokenCountMeta) : M Pricing PriceData :=
  info ← info_of;
  let model := ri_OriginModelName (ri_Call info) in
  let '(modelPrice, usePrice) := GetModelPrice s model in
  groupRatioInfo ← handle_group;
  if decide (GetBillingMode s model = BillingModeTieredExpr) then
    modelPriceHelperTiered promptTokens meta groupRatioInfo
  else
    let price := no_price <| pd_GroupRatioInfo := groupRatioInfo |> <| pd_UsePrice := usePrice |> in
    info ← info_of;
    priceData ←
      if usePrice then
        let modelPrice := if negb (mt_ImagePriceRatio meta =? float_zero)%float
                          then float_mul modelPrice (mt_ImagePriceRatio meta) else modelPrice in
        let quotaBeforeGroup := float_mul modelPrice (QuotaPerUnit s) in
        mret (finish_price false (price <| pd_ModelPrice := modelPrice |> <| pd_QuotaBeforeGroup := quotaBeforeGroup |>
          <| pd_QuotaToPreConsume := int_of_float (float_mul quotaBeforeGroup (gr_GroupRatio groupRatioInfo)) |>))
      else
        let preConsumedTokens := Z.max promptTokens (PreConsumedQuota s) in
        let preConsumedTokens := (preConsumedTokens +! mt_MaxTokens meta)%go in
        '(modelRatio, completionRatio, free) ← model_ratio info;
        let completionRatio := if (completionRatio =? float_zero)%float then GetCompletionRatio s model else completionRatio in
        let cacheCreationRatio := (GetCreateCacheRatio s model).1 in
        let quotaBeforeGroup := float_mul (float_of_int preConsumedTokens) modelRatio in
        mret (finish_price free (price <| pd_ModelPrice := modelPrice |> <| pd_ModelRatio := modelRatio |>
          <| pd_CompletionRatio := completionRatio |> <| pd_CacheRatio := (GetCacheRatio s model).1 |>
          <| pd_CacheCreationRatio := cacheCreationRatio |> <| pd_CacheCreation5mRatio := cacheCreationRatio |>
          <| pd_CacheCreation1hRatio := float_mul cacheCreationRatio claudeCacheCreation1hMultiplier |>
          <| pd_ImageRatio := (GetImageRatio s model).1 |> <| pd_AudioRatio := GetAudioRatio s model |>
          <| pd_AudioCompletionRatio := GetAudioCompletionRatio s model |>
          <| pd_QuotaBeforeGroup := quotaBeforeGroup |>
          <| pd_QuotaToPreConsume := int_of_float (float_mul quotaBeforeGroup (gr_GroupRatio groupRatioInfo)) |>));
    _ ← put_info (info <| ri_PriceData := priceData |>);
    mret priceData.

(** The configured price of a model, its built-in price, or its ratio. *)
Definition call_price (info : RelayInfo) : M Pricing (float64 * float64 * bool) :=
  let model := ri_OriginModelName (ri_Call info) in
  match GetModelPrice s model with
  | (modelPrice, true) => mret (modelPrice, float_zero, true)
  | (modelPrice, false) =>
    match map_literal defaultModelPrice !! model with
    | Some defaultPrice => mret (defaultPrice, float_zero, true)
    | None =>
      let '(modelRatio, ratioSuccess, matchName) := GetModelRatio s model in
      if negb ratioSuccess && negb (ri_AcceptUnsetRatioModel (ri_Call info))
      then throw (modelPriceNotConfiguredError d matchName (ri_UserId info))
      else mret (modelPrice, modelRatio, false)
    end
  end.

Definition ModelPriceHelperPerCall : M Pricing PriceData :=
  groupRatioInfo ← handle_group;
  info ← info_of;
  '(modelPrice, modelRatio, usePrice) ← call_price info;
  let groupRatio := gr_GroupRatio groupRatioInfo in
  let quotaBeforeGroup :=
    if (usePrice : bool) then float_mul modelPrice (QuotaPerUnit s)
    else float_mul (float_div modelRatio (float_of_int 2)) (QuotaPerUnit s) in
  let free := negb (EnableFreeModelPreConsume s) &&
    ((groupRatio =? float_zero)%float || ((if usePrice then modelPrice else modelRatio) =? float_zero)%float) in
  let quota := if free then 0 else int_of_float (float_mul quotaBeforeGroup groupRatio) in
  mret (no_price <| pd_FreeModel := free |> <| pd_ModelPrice := if usePrice then modelPrice else float_minus_one |>
    <| pd_ModelRatio := modelRatio |> <| pd_UsePrice := usePrice |> <| pd_Quota := quota |>
    <| pd_QuotaBeforeGroup := quotaBeforeGroup |>
    <| pd_FreeByGroupRatio := free && (groupRatio =? float_zero)%float |> <| pd_GroupRatioInfo := groupRatioInfo |>).

End Helper.

(** ** Tool prices *)

(** The price of a tool for the models with a prefix, as a key of the settings sets it. *)
Definition tool_override (m : gmap string float64) (tool prefix : string) (price : float64) : Prop :=
  ∃ key part, m !! key = Some price ∧ split_colon key = Some (tool, part) ∧ trim_star part = prefix.

Lemma prefixes_update idx f : ix_prefixes (idx <| ix_prefixes ::= f |>) = f (ix_prefixes idx).
Proof. done. Qed.
Lemma defaults_update idx f : ix_defaults (idx <| ix_defaults ::= f |>) = f (ix_defaults idx).
Proof. done. Qed.

(** The entries of one tool among the keys of a list. *)
Definition tool_entries (tool : string) (l : list (string * float64)) : list prefixEntry :=
  omap (λ '(key, price), match split_colon key with
                         | Some (t, part) => if decide (t = tool) then Some (mkPrefix (trim_star part) price) else None
                         | None => None
                         end) l.

Lemma index_prefixes tool l : ∀ idx,
  default [] (ix_prefixes (foldl index_key idx l) !! tool) = default [] (ix_prefixes idx !! tool) ++ tool_entries tool l.
Proof.
  induction l as [|[key price] l IH]; intros idx; cbn [foldl]; [by rewrite app_nil_r|]. rewrite IH. cbn [tool_entries omap list_omap].
  unfold index_key. destruct (split_colon key) as [[t part]|] eqn:E; cbn [ix_prefixes]; [|done].
  case_decide as Ht; [subst t|].
  - rewrite prefixes_update, lookup_partial_alter_eq; cbn [from_option id]. by rewrite <-app_assoc.
  - by rewrite prefixes_update, lookup_partial_alter_ne.
Qed.

Lemma index_defaults tool l : ∀ idx,
  NoDup l.*1 →
  ix_defaults (foldl index_key idx l) !! tool =
    match split_colon tool with
    | None => match list_to_map (M := gmap string float64) l !! tool with Some p => Some p | None => ix_defaults idx !! tool end
    | Some _ => ix_defaults idx !! tool
    end.
Proof.
  induction l as [|[key price] l IH]; intros idx Hl; cbn [foldl].
  { rewrite list_to_map_nil, lookup_empty. by destruct (split_colon tool). }
  cbn [fmap list_fmap fst] in Hl. apply NoDup_cons in Hl as [Hnew Hl]. rewrite IH by done. unfold index_key.
  destruct (split_colon tool) eqn:Et.
  - destruct (split_colon key) as [[]|] eqn:Ek; [done|]. rewrite defaults_update. apply lookup_insert_ne. congruence.
  - destruct (decide (key = tool)) as [->|Hne].
    + rewrite list_to_map_cons, Et, defaults_update, !lookup_insert_eq.
      apply not_elem_of_list_to_map in Hnew. rewrite Hnew. done.
    + rewrite list_to_map_cons, lookup_insert_ne by done. destruct (list_to_map l !! tool); [done|].
      destruct (split_colon key) as [[]|]; [done|]. rewrite defaults_update. by apply lookup_insert_ne.
Qed.

Lemma tool_entries_spec tool (m : gmap string float64) l e :
  l ≡ₚ map_to_list m → e ∈ tool_entries tool l ↔ tool_override m tool (pe_prefix e) (pe_price e).
Proof.
  intros Hl. unfold tool_entries. rewrite list_elem_of_omap. split.
  - intros ([key price] & Hin & He). rewrite Hl in Hin. apply elem_of_map_to_list in Hin.
    destruct (split_colon key) as [[t part]|] eqn:E; [|done]. case_decide; [|done]. simplify_eq. by exists key, part.
  - intros (key & part & Hm & E & Hp). exists (key, pe_price e). rewrite Hl. split; [by apply elem_of_map_to_list|].
    rewrite E, decide_True by done. destruct e; cbn in *. by rewrite Hp.
Qed.

Lemma tool_price_alt idx tool model :
  GetToolPriceForModel idx tool model =
    match list_find (λ e, HasPrefix model (pe_prefix e) = true ∧ model ≠ "") (default [] (ix_prefixes idx !! tool)) with
    | Some (_, e) => pe_price e
    | None => default float_zero (ix_defaults idx !! tool)
    end.
Proof.
  unfold GetToolPriceForModel. destruct (ix_prefixes idx !! tool) as [entries|]; [|done]. cbn [from_option id].
  case_decide as Hm.
  - by rewrite (list_find_ext (λ e, HasPrefix model (pe_prefix e) = true) (λ e, HasPrefix model (pe_prefix e) = true ∧ model ≠ ""))
      by naive_solver.
  - assert (Hn : list_find (λ e, HasPrefix model (pe_prefix e) = true ∧ model ≠ "") entries = None).
    { apply list_find_None, Forall_forall. naive_solver. }
    by rewrite Hn.
Qed.

(** The first match in a sorted list is a longest one. *)
Lemma longest_found entries (P : prefixEntry → Prop) `{∀ e, Decision (P e)} i e :
  list_find P (merge_sort longer_prefix entries) = Some (i, e) →
  e ∈ entries ∧ P e ∧ ∀ e', e' ∈ entries → P e' → longer_prefix e e'.
Proof.
  intros (Hi & Hp & Hfirst)%list_find_Some. assert (Hperm := merge_sort_Permutation longer_prefix entries).
  assert (Hs : StronglySorted longer_prefix (merge_sort longer_prefix entries)).
  { apply StronglySorted_merge_sort; unfold longer_prefix; [intros a b c; lia|intros a b; lia]. }
  split_and!; [rewrite <-Hperm; by eapply list_elem_of_lookup_2|done|].
  intros e' Hin Hp'. rewrite <-Hperm in Hin. rewrite <-(take_drop_middle _ _ _ Hi) in Hin, Hs.
  apply StronglySorted_app_1_r in Hs. apply StronglySorted_inv in Hs as [_ Hall]. rewrite Forall_forall in Hall.
  rewrite elem_of_app, elem_of_cons in Hin. destruct Hin as [Hin|[->|Hin]]; [|unfold longer_prefix; lia|by apply Hall].
  apply list_elem_of_lookup in Hin as [j Hj]. apply lookup_take_Some in Hj as [Hj Hlt]. by destruct (Hfirst j e' Hj Hlt).
Qed.

(** A match of a model: a key of the tool whose prefix starts the name of the model. *)
Definition tool_match (m : gmap string float64) (tool model prefix : string) (price : float64) : Prop :=
  tool_override m tool prefix price ∧ HasPrefix model prefix = true ∧ model ≠ "".

Lemma tool_price_spec (shuffle : ∀ A, list A → list A) prices tool model :
  (∀ A (l : list A), shuffle A l ≡ₚ l) →
  let m := merged_prices prices in
  let price := GetToolPriceForModel (RebuildToolPriceIndex shuffle prices) tool model in
  (∃ prefix, tool_match m tool model prefix price ∧
     ∀ prefix' price', tool_match m tool model prefix' price' → (String.length prefix' ≤ String.length prefix)%nat) ∨
  ((∀ prefix price', ¬ tool_match m tool model prefix price') ∧
   price = default float_zero (match split_colon tool with None => m !! tool | Some _ => None end)).
Proof.
  intros Hsh m price. set (l := shuffle _ (map_to_list m)). assert (Hl : l ≡ₚ map_to_list m) by apply Hsh.
  assert (Hnd : NoDup l.*1) by (rewrite Hl; apply NoDup_fst_map_to_list).
  set (sorted := merge_sort longer_prefix (shuffle _ (tool_entries tool l))).
  assert (Hp : default [] (ix_prefixes (RebuildToolPriceIndex shuffle prices) !! tool) = sorted).
  { unfold RebuildToolPriceIndex. fold m. fold l. rewrite prefixes_update, lookup_fmap. unfold sorted.
    rewrite <-(app_nil_l (tool_entries tool l)). change [] with (default [] (ix_prefixes (mkIndex ∅ ∅) !! tool)) at 2.
    rewrite <-index_prefixes. destruct (ix_prefixes _ !! tool); cbn; [done|].
    assert (E := Hsh prefixEntry []). apply Permutation_nil_r in E. by rewrite E. }
  assert (Hin : ∀ e, e ∈ shuffle _ (tool_entries tool l) ↔ tool_override m tool (pe_prefix e) (pe_price e)).
  { intros e. rewrite (Hsh _ (tool_entries tool l)). by apply tool_entries_spec. }
  unfold price. rewrite tool_price_alt, Hp. destruct (list_find _ sorted) as [[i e]|] eqn:Hf.
  - left. apply longest_found in Hf as (He & [Hpre Hne] & Hmax). exists (pe_prefix e). split; [by split; [apply Hin|]|].
    intros prefix' price' (Ho & Hpre' & _). apply (Hmax (mkPrefix prefix' price')); [by apply Hin|done].
  - right. apply list_find_None in Hf. rewrite Forall_forall in Hf. split.
    + intros prefix price' (Ho & Hpre & Hne). apply (Hf (mkPrefix prefix price')); [|done].
      unfold sorted. rewrite merge_sort_Permutation. by apply Hin.
    + f_equal. unfold RebuildToolPriceIndex. fold m. fold l.
      etransitivity; [apply (index_defaults tool l (mkIndex ∅ ∅) Hnd)|]. cbn [ix_defaults]. rewrite lookup_empty.
      rewrite (list_to_map_proper _ _ Hnd Hl), list_to_map_to_list. destruct (split_colon tool); [done|]. by destruct (m !! tool).
Qed.

(** Two prefixes of one text that are equally long are equal. *)
Lemma prefix_same_length model a b :
  HasPrefix model a = true → HasPrefix model b = true → String.length a = String.length b → a = b.
Proof.
  unfold HasPrefix. revert a b. induction model as [|c model IH]; intros [|x a] [|y b]; cbn; try done.
  destruct (ascii_dec x c), (ascii_dec y c); try done. intros Ha Hb Hlen. subst. f_equal. auto.
Qed.

(** C16: the price of a tool for a model is the one configured for the longest prefix of
    the model's name, or else the tool's own price, or else zero; and unless two keys set
    the same prefix of the same tool, it does not depend on the order in which Go iterates
    over the map of prices or sorts the prefixes of one length. *)
Theorem tool_price_longest_prefix (shuffle shuffle' : ∀ A, list A → list A) (prices : gmap string float64)
    (tool model : string) :
  (∀ A (l : list A), shuffle A l ≡ₚ l) → (∀ A (l : list A), shuffle' A l ≡ₚ l) →
  let m := merged_prices prices in
  let price := GetToolPriceForModel (RebuildToolPriceIndex shuffle prices) tool model in
  ((∃ prefix, tool_match m tool model prefix price ∧
      ∀ prefix' price', tool_match m tool model prefix' price' → (String.length prefix' ≤ String.length prefix)%nat) ∨
   ((∀ prefix price', ¬ tool_match m tool model prefix price') ∧
    price = default float_zero (match split_colon tool with None => m !! tool | Some _ => None end))) ∧
  ((∀ prefix p p', tool_override m tool prefix p → tool_override m tool prefix p' → p = p') →
   GetToolPriceForModel (RebuildToolPriceIndex shuffle' prices) tool model = price).
Proof.
  intros Hs Hs' m price. assert (H := tool_price_spec shuffle prices tool model Hs). assert (H' := tool_price_spec shuffle' prices tool model Hs').
  cbv zeta in H, H'. fold m price in H. fold m in H'. split; [exact H|]. intros Huniq.
  destruct H as [(a & Ha & Hla)|[Hn ->]], H' as [(b & Hb & Hlb)|[Hn' ->]].
  - assert (a = b) as <-. { apply (prefix_same_length model); [apply Ha|apply Hb|]. specialize (Hla _ _ Hb). specialize (Hlb _ _ Ha). lia. }
    destruct Ha as [Ha _], Hb as [Hb _]. by apply (Huniq a).
  - by destruct (Hn' _ _ Ha).
  - by destruct (Hn _ _ Hb).
  - done.
Qed.

(** An order of iteration: pairs are swapped. *)
Definition swapped {A} (l : list A) : list A := match l with [x; y] => [y; x] | _ => l end.
Lemma swapped_perm A (l : list A) : swapped l ≡ₚ l.
Proof. destruct l as [|x [|y [|]]]; try done. apply Permutation_swap. Qed.

Definition mini_search : gmap string float64 := {["web_search_preview:gpt-4o-mini*" := float_of_int 30]}.
Lemma mini_search_unique prefix p p' :
  tool_override (merged_prices mini_search) "web_search_preview" prefix p →
  tool_override (merged_prices mini_search) "web_search_preview" prefix p' → p = p'.
Proof.
  set (m := merged_prices mini_search). assert (Hl : map_to_list m ≡ₚ map_to_list m) by done. intros H H'.
  apply (tool_entries_spec _ m _ (mkPrefix prefix p) Hl) in H. apply (tool_entries_spec _ m _ (mkPrefix prefix p') Hl) in H'.
  revert H H'. set (l := tool_entries _ _). let l' := eval vm_compute in l in assert (El : l = l') by (vm_compute; reflexivity).
  rewrite El, !elem_of_cons, !elem_of_nil. clear. intros H H'.
  destruct_or! H; destruct_or! H'; congruence.
Qed.

Lemma tool_price_longest_prefix_witness :
  GetToolPriceForModel (RebuildToolPriceIndex (@swapped) mini_search) "web_search_preview" "gpt-4o-mini-2024" = float_of_int 30.
Proof.
  destruct (tool_price_longest_prefix (λ _ l, l) (@swapped) mini_search "web_search_preview" "gpt-4o-mini-2024") as [_ H].
  - intros A l. reflexivity.
  - intros A l. apply swapped_perm.
  - rewrite (H mini_search_unique). vm_compute. reflexivity.
Defined.

(** Two keys that set one prefix, with and without the star, are ordered by Go's map:
    the price of the tool is one or the other from one rebuild of the index to the next. *)
Lemma tool_price_depends_on_order :
  let prices := {["file_search:gpt-5*" := float_of_int 4; "file_search:gpt-5" := float_of_int 9]} in
  GetToolPriceForModel (RebuildToolPriceIndex (λ _ l, l) prices) "file_search" "gpt-5-mini" ≠
  GetToolPriceForModel (RebuildToolPriceIndex (@swapped) prices) "file_search" "gpt-5-mini".
Proof. vm_compute. congruence. Qed.

(** ** The price of a request *)

Section PriceTheorems.
Context {Engine : ExprEngine} (shuffle : ∀ A, list A → list A) (now : Z).
Context (d : DB) (g : GroupSettings) (s : PriceSettings).
Context (autoGroup : option string) (http : option (string * result string)).

Lemma GetCompletionRatio_info name : cr_Ratio (GetCompletionRatioInfo s name) = GetCompletionRatio s name.
Proof.
  unfold GetCompletionRatio, GetCompletionRatioInfo. destruct (getHardcodedCompletionModelRatio _) as [r []];
    destruct (Contains (FormatMatchingModelName name) "/"), (completionRatioMap s !! FormatMatchingModelName name); done.
Qed.

Lemma GetModelRatio_cases model : ∃ r ok,
  GetModelRatio s model = (r, ok, FormatMatchingModelName model) ∧ (ok = false → r = float_const 37.5).
Proof.
  unfold GetModelRatio. destruct (modelRatioMap s !! _); [by eexists _, _|].
  destruct (HasSuffix _ _); [destruct (modelRatioMap s !! _)|]; by eexists _, _.
Qed.

(** What is reserved at a price. *)
Definition reservation (p : PriceData) : Z :=
  int_of_float (float_mul (pd_QuotaBeforeGroup p) (gr_GroupRatio (pd_GroupRatioInfo p))).

(** What is left of a price once it is known which are free. *)
Lemma finish_price_spec free p :
  let q := finish_price s free p in
  pd_UsePrice q = pd_UsePrice p ∧ pd_ModelPrice q = pd_ModelPrice p ∧ pd_ModelRatio q = pd_ModelRatio p ∧
  (pd_FreeByGroupRatio q = true → pd_FreeModel q = true) ∧
  ((free = true → pd_UsePrice p = false ∧ pd_ModelRatio p = float_zero) →
   EnableFreeModelPreConsume s = false → pd_FreeModel q = true → pd_QuotaToPreConsume q = 0) ∧
  pd_QuotaBeforeGroup q = pd_QuotaBeforeGroup p ∧
  (pd_QuotaToPreConsume p = reservation p → pd_FreeModel q = false → pd_QuotaToPreConsume q = reservation q).
Proof.
  unfold finish_price; cbn. split_and!; [done|done|done| | |done|].
  3: { intros Hp [_ ->]%orb_false_iff. exact Hp. }
  - intros ->. by destruct free.
  - intros Hf -> H. cbn in *. destruct free; [|cbn in H; by rewrite H]. destruct Hf as [-> ->]; [done|]. by rewrite orb_true_r.
Qed.

(** The request with the group that the distributor chose. *)
Definition grouped (info : RelayInfo) : RelayInfo := (HandleGroupRatio g autoGroup info).2.
Lemma grouped_call info : ri_Call (grouped info) = ri_Call info ∧ ri_UserId (grouped info) = ri_UserId info.
Proof. unfold grouped, HandleGroupRatio. by destruct autoGroup. Qed.

Lemma wp_handle_group info cache (Q : result GroupRatioInfo → Pricing → Prop) :
  Q (Ok (HandleGroupRatio g autoGroup info).1) (grouped info, cache) → wp (handle_group g autoGroup) Q (info, cache).
Proof.
  intros HQ. unfold handle_group, info_of. wp_step. wp_step. wp_step. wp_step. cbn [fst].
  unfold grouped in HQ. destruct (HandleGroupRatio g autoGroup info) as [gr info'] eqn:E. unfold put_info. wp_steps. exact HQ.
Qed.

End PriceTheorems.

(** ** Examples *)

Definition priced_request (model : string) (accept : bool) : RelayInfo :=
  mkRelay 7 "sk" 1 "default" "" "default" "default" "" false false "" 0 0 0 0 false "" "req-1" None
    (mkSubInfo 0 0 0 0 "" 0 0) (mkPackageInfo 0 0 "" "" "" false false) no_price None
    (no_call <| ri_OriginModelName := model |> <| ri_AcceptUnsetRatioModel := accept |>).
Definition initial_prices : PriceSettings := InitRatioSettings no_prices.


(** ** What the built-in tables and the updates really do *)

(** [1 / 1000 * USD] is an integer constant, zero: the large models of the family are
    given away, while the small ones cost a tenth. *)
Lemma sonar_large_is_free :
  GetModelRatio initial_prices "llama-3-sonar-large-32k-chat" = (float_zero, true, "llama-3-sonar-large-32k-chat") ∧
  GetModelRatio initial_prices "llama-3-sonar-large-32k-online" = (float_zero, true, "llama-3-sonar-large-32k-online") ∧
  GetModelRatio initial_prices "llama-3-sonar-small-32k-chat" = (float_const 0.1, true, "llama-3-sonar-small-32k-chat").
Proof. split_and!; vm_compute; reflexivity. Qed.

(** The ratios of the GPT-3.5 models come after a branch that returns for every name that
    starts with [gpt-]: 2 instead of the 3 and the 4/3 that are written there. *)
Lemma gpt35_ratio_unreachable :
  getHardcodedCompletionModelRatio "gpt-3.5-turbo" = (float_const 2, false) ∧
  getHardcodedCompletionModelRatio "gpt-3.5-turbo-0125" = (float_const 2, false) ∧
  getHardcodedCompletionModelRatio "gpt-3.5-turbo-16k" = (float_const 2, false).
Proof. split_and!; vm_compute; reflexivity. Qed.

(** An update that is refused has already emptied the table: afterwards no model has the
    price it had, and the requests for models without a ratio are refused. *)
Lemma refused_update_clears_prices (Unmarshal : string → gmap string float64 * option error) jsonStr e s :
  Unmarshal jsonStr = (∅, Some e) →
  let '(r, s') := UpdateModelPriceByJSONString Unmarshal jsonStr s in
  r = Err e ∧ ∀ model, GetModelPrice s' model = (float_minus_one, false).
Proof.
  intros H. unfold UpdateModelPriceByJSONString, on_table, LoadFromJsonString. rewrite H. split; [done|].
  intros model. unfold GetModelPrice.
  match goal with |- context [modelPriceMap ?s'] => change (modelPriceMap s') with (∅ : gmap string float64) end.
  rewrite !lookup_empty. by destruct (HasSuffix _ _).
Qed.
