(* ===== verification/Billing.v ===== *)
(** * Billing sessions

    [service/billing_session.go], [service/funding_source.go],
    [service/billing.go], [service/quota.go] and [service/pre_consume_quota.go]:
    how one relayed request is paid.  A session charges an estimate to a funding
    source (the wallet or a subscription) and to the API token before the request
    is sent, raises the charge while a stream runs, and in the end settles the
    actual cost or refunds everything.  The theorems on sessions are in
    [Sessions.v].  A session is locked by a mutex while an operation runs, so its
    operations are atomic; logs and notifications are left out, as are the amounts
    in the texts of errors. *)
From S2P Require Import Prelude Tables GoTime Schema Plans Windows Cycles Consume Accounting Ledger Preferences Cards Purchases Lifecycle Wallet GoFloat Groups Ratios.

(** ** Funding sources *)

Definition BillingSourceWallet := "wallet".
Definition BillingSourceSubscription := "subscription".

(** [FundingSource].  [PreConsume] returns the source as it leaves it; the other
    methods do not change it. *)
Class FundingSource (F : Type) := {
  Source : F → string;
  PreConsume : Config → F → Z → W F;
  SettleFunding : Config → F → Z → W ();
  RefundFunding : Config → F → W ();
}.

Record WalletFunding := mkWallet { wf_userId : Z; wf_consumed : Z }.
Global Instance WalletFunding_eta : Settable WalletFunding := λ f, mkWallet (wf_userId f) (wf_consumed f).

Definition WalletFunding_PreConsume (w : WalletFunding) (amount : Z) : W WalletFunding :=
  if decide (amount ≤ 0) then mret w
  else
    _ ← DecreaseUserQuotaIfEnough (wf_userId w) amount;
    mret (w <| wf_consumed := amount |>).

Definition WalletFunding_Settle (cfg : Config) (w : WalletFunding) (delta : Z) : W () :=
  if decide (delta = 0) then mret tt
  else if decide (delta > 0) then DecreaseUserQuota cfg (wf_userId w) delta false
  else IncreaseUserQuota cfg (wf_userId w) (-! delta) false.

Definition WalletFunding_Refund (cfg : Config) (w : WalletFunding) : W () :=
  if decide (wf_consumed w ≤ 0) then mret tt
  else IncreaseUserQuota cfg (wf_userId w) (wf_consumed w) false.

Global Instance WalletFunding_source : FundingSource WalletFunding := {
  Source := λ _, BillingSourceWallet;
  PreConsume := λ _, WalletFunding_PreConsume;
  SettleFunding := WalletFunding_Settle;
  RefundFunding := WalletFunding_Refund;
}.

Record SubscriptionFunding := mkFunding {
  sf_requestId : string;
  sf_userId : Z;
  sf_amount : Z;
  sf_valuePackageSubscriptionId : Z;
  sf_subscriptionId : Z;
  sf_preConsumed : Z;
  sf_AmountTotal : Z;
  sf_AmountUsedAfter : Z;
  sf_PlanId : Z;
  sf_PlanTitle : string;
}.
Global Instance SubscriptionFunding_eta : Settable SubscriptionFunding := λ f,
  mkFunding (sf_requestId f) (sf_userId f) (sf_amount f) (sf_valuePackageSubscriptionId f)
    (sf_subscriptionId f) (sf_preConsumed f) (sf_AmountTotal f) (sf_AmountUsedAfter f) (sf_PlanId f)
    (sf_PlanTitle f).

(** The funding with the answer of a pre-consumption. *)
Definition funded (s : SubscriptionFunding) (res : SubscriptionPreConsumeResult)
    (planInfo : result SubscriptionPlanInfo) : SubscriptionFunding :=
  let s := s <| sf_subscriptionId := pr_UserSubscriptionId res |>
    <| sf_preConsumed := pr_PreConsumed res |> <| sf_AmountTotal := pr_AmountTotal res |>
    <| sf_AmountUsedAfter := pr_AmountUsedAfter res |> in
  match planInfo with
  | Ok info => s <| sf_PlanId := pi_PlanId info |> <| sf_PlanTitle := pi_PlanTitle info |>
  | Err _ => s
  end.

Definition SubscriptionFunding_PreConsume (cfg : Config) (s : SubscriptionFunding) (_ : Z) :
    W SubscriptionFunding :=
  let env := cf_env cfg in
  res ← on_db (if decide (sf_valuePackageSubscriptionId s > 0)
               then PreConsumeValuePackageSubscription env (sf_requestId s) (sf_userId s)
                      (sf_valuePackageSubscriptionId s) (sf_amount s)
               else PreConsumeUserSubscription env (sf_requestId s) (sf_userId s) (sf_amount s));
  planInfo ← attempt (on_db (GetSubscriptionPlanInfoByUserSubscriptionId (pr_UserSubscriptionId res)));
  mret (funded s res planInfo).

Definition SubscriptionFunding_Settle (cfg : Config) (s : SubscriptionFunding) (delta : Z) : W () :=
  if decide (delta = 0) then mret tt
  else on_db (PostConsumeUserSubscriptionDelta (cf_env cfg) (sf_subscriptionId s) delta).

(** [n] attempts of a call that is a transaction; the last error stays. *)
Fixpoint retry {S} (n : nat) (lastErr : error) (fn : M S ()) : M S () :=
  match n with
  | O => throw lastErr
  | Datatypes.S n =>
    r ← attempt fn;
    match r with Ok _ => mret tt | Err e => retry n e fn end
  end.

Definition refundWithRetry {S} (fn : M S ()) : M S () := retry 3 (ErrNew "") fn.

Definition SubscriptionFunding_Refund (cfg : Config) (s : SubscriptionFunding) : W () :=
  if decide (sf_preConsumed s ≤ 0) then mret tt
  else refundWithRetry (on_db (RefundSubscriptionPreConsume (cf_env cfg) (sf_requestId s))).

Global Instance SubscriptionFunding_source : FundingSource SubscriptionFunding := {
  Source := λ _, BillingSourceSubscription;
  PreConsume := SubscriptionFunding_PreConsume;
  SettleFunding := SubscriptionFunding_Settle;
  RefundFunding := SubscriptionFunding_Refund;
}.

(** The dynamic type of a session's funding source. *)
Inductive Funding :=
| Wallet (w : WalletFunding)
| Subscription (s : SubscriptionFunding).

Global Instance Funding_source : FundingSource Funding := {
  Source := λ f, match f with Wallet w => Source w | Subscription s => Source s end;
  PreConsume := λ cfg f amount,
    match f with
    | Wallet w => w ← PreConsume cfg w amount; mret (Wallet w)
    | Subscription s => s ← PreConsume cfg s amount; mret (Subscription s)
    end;
  SettleFunding := λ cfg f delta,
    match f with Wallet w => SettleFunding cfg w delta | Subscription s => SettleFunding cfg s delta end;
  RefundFunding := λ cfg f,
    match f with Wallet w => RefundFunding cfg w | Subscription s => RefundFunding cfg s end;
}.

(** The value package a funding source charges, 0 for the others. *)
Definition funding_package (f : Funding) : Z :=
  match f with Wallet _ => 0 | Subscription s => sf_valuePackageSubscriptionId s end.

(** ** Sessions *)

Record BillingSession := mkSession {
  bs_funding : Funding;
  bs_preConsumedQuota : Z;
  bs_tokenConsumed : Z;
  bs_extraReserved : Z;
  bs_trusted : bool;
  bs_fundingSettled : bool;
  bs_settled : bool;
  bs_refunded : bool;
  bs_subscriptionRatio : float64;
  bs_subscriptionRatioSource : string;
  bs_billingUsingGroup : string;
  bs_billingGroupRatioInfo : option GroupRatioInfo;
  bs_tieredBillingTuple : option (float64 * Z);
}.
Global Instance BillingSession_eta : Settable BillingSession := λ s,
  mkSession (bs_funding s) (bs_preConsumedQuota s) (bs_tokenConsumed s) (bs_extraReserved s)
    (bs_trusted s) (bs_fundingSettled s) (bs_settled s) (bs_refunded s) (bs_subscriptionRatio s)
    (bs_subscriptionRatioSource s) (bs_billingUsingGroup s) (bs_billingGroupRatioInfo s)
    (bs_tieredBillingTuple s).

Definition new_session (funding : Funding) (ratio : float64) (source group : string) : BillingSession :=
  mkSession funding 0 0 0 false false false false ratio source group None None.

(** A session at work: the database with its stores, the request and the
    session. *)
Record Ctx := mkCtx { cx_world : World; cx_info : RelayInfo; cx_session : BillingSession }.
Global Instance Ctx_eta : Settable Ctx := λ c, mkCtx (cx_world c) (cx_info c) (cx_session c).
Definition B : Type → Type := M Ctx.

Definition on_world {A} (m : W A) : B A := λ c,
  ((m (cx_world c)).1, c <| cx_world := (m (cx_world c)).2 |>).
Definition set_session (f : BillingSession → BillingSession) : B () :=
  modify (λ c, c <| cx_session ::= f |>).
Definition set_info (f : RelayInfo → RelayInfo) : B () := modify (λ c, c <| cx_info ::= f |>).
Definition the_session : B BillingSession := c ← get; mret (cx_session c).
Definition the_info : B RelayInfo := c ← get; mret (cx_info c).

(** [types.NewAPIError]: an error with a code. *)
Definition api_error (code : string) (e : error) : error := ErrWrap code e.
Definition GetErrorCode (e : error) : string := match e with ErrWrap code _ => code | _ => "" end.
Definition ErrorCodeQueryDataError := "query_data_error".
Definition ErrorCodeUpdateDataError := "update_data_error".
Definition ErrorCodeInsufficientUserQuota := "insufficient_user_quota".
Definition ErrorCodePreConsumeTokenQuotaFailed := "pre_consume_token_quota_failed".

(** An error of a call under a code. *)
Definition coded {S A} (code : string) (m : M S A) : M S A :=
  r ← attempt m;
  match r with Ok a => mret a | Err e => throw (api_error code e) end.

(** *** The price a session was opened at *)

Definition freezeBillingTuple : B () :=
  info ← the_info;
  set_session (λ s, s <| bs_billingGroupRatioInfo := Some (pd_GroupRatioInfo (ri_PriceData info)) |>
    <| bs_tieredBillingTuple :=
         match tiered info with
         | Some snap => Some (tb_GroupRatio snap, tb_EstimatedQuotaAfterGroup snap)
         | None => bs_tieredBillingTuple s
         end |>).

(** [restoreBillingTuple] on the request. *)
Definition restored_tuple (s : BillingSession) (info : RelayInfo) : RelayInfo :=
  let info := if decide (bs_billingUsingGroup s = "") then info
              else info <| ri_BillingUsingGroup := bs_billingUsingGroup s |> in
  let info := match bs_billingGroupRatioInfo s with
              | Some r => info <| ri_PriceData ::= λ p, p <| pd_GroupRatioInfo := r |> |>
              | None => info
              end in
  match bs_tieredBillingTuple s, tiered info with
  | Some (ratio, quota), Some snap =>
    info <| ri_TieredBillingSnapshot :=
      Some (snap <| tb_GroupRatio := ratio |> <| tb_EstimatedQuotaAfterGroup := quota |>) |>
  | _, _ => info
  end.

(** [syncRelayInfo] on the request. *)
Definition synced (s : BillingSession) (info : RelayInfo) : RelayInfo :=
  let info := restored_tuple s info in
  let info := info <| ri_FinalPreConsumedQuota := bs_preConsumedQuota s |>
    <| ri_BillingSource := Source (bs_funding s) |>
    <| ri_BillingUsingGroup := if decide (bs_billingUsingGroup s ≠ "") then bs_billingUsingGroup s
                               else if decide (ri_BillingUsingGroup info = "")
                               then TrimSpace (ri_UsingGroup info) else ri_BillingUsingGroup info |> in
  match bs_funding s with
  | Subscription sub =>
    info <| ri_Subscription := mkSubInfo (sf_subscriptionId sub)
              (sf_preConsumed sub +! bs_extraReserved s) 0 (sf_PlanId sub) (sf_PlanTitle sub)
              (sf_AmountTotal sub) (sf_AmountUsedAfter sub +! bs_extraReserved s) |>
  | Wallet _ =>
    info <| ri_Subscription ::= λ r, r <| ri_SubscriptionId := 0 |> <| ri_SubscriptionPreConsumed := 0 |> |>
  end.

Definition restoreBillingTuple : B () := modify (λ c, c <| cx_info ::= restored_tuple (cx_session c) |>).
Definition syncRelayInfo : B () := modify (λ c, c <| cx_info ::= synced (cx_session c) |>).

(** *** Tokens *)

Definition PreConsumeTokenQuota (cfg : Config) (info : RelayInfo) (quota : Z) : W () :=
  _ ← fail_if (quota < 0) ErrNegativeQuota;
  if ri_IsPlayground info then mret tt
  else
    token ← GetTokenByKey (ri_TokenKey info);
    _ ← fail_if (ri_TokenUnlimited info = false ∧ t_RemainQuota token < quota)
          (ErrNew "token quota is not enough");
    DecreaseTokenQuota cfg (ri_TokenId info) quota.

(** The session's adjustment of its token by a difference. *)
Definition adjust_token (cfg : Config) (info : RelayInfo) (delta : Z) : W () :=
  if decide (delta > 0) then DecreaseTokenQuota cfg (ri_TokenId info) delta
  else IncreaseTokenQuota cfg (ri_TokenId info) (-! delta).

(** *** Opening a session *)

Definition GetTrustQuota (env : Env) : Z := int_of_float (float_mul (float_of_int 10) (quota_per_unit env)).

(** [tokenQuota] is the quota of the token when the request was authenticated. *)
Definition shouldTrust (env : Env) (tokenQuota : Z) (info : RelayInfo) (funding : Funding) : bool :=
  let trustQuota := GetTrustQuota env in
  if ri_ForcePreConsume info then false
  else if decide (trustQuota ≤ 0) then false
  else if negb (ri_TokenUnlimited info || bool_decide (tokenQuota > trustQuota)) then false
  else match funding with
       | Wallet _ => bool_decide (ri_UserQuota info > trustQuota)
       | Subscription _ => false
       end.

(** The code under which an error of the funding source is reported. *)
Definition funding_error (e : error) : error :=
  let errMsg := error_text e in
  if Contains errMsg "no active subscription" || Contains errMsg "subscription quota insufficient"
  then api_error ErrorCodeInsufficientUserQuota (ErrNew ("订阅额度不足或未配置订阅: " +:+ errMsg))
  else api_error ErrorCodeUpdateDataError e.

Definition preConsume (cfg : Config) (tokenQuota quota : Z) : B () :=
  info ← the_info;
  s ← the_session;
  let trusted := shouldTrust (cf_env cfg) tokenQuota info (bs_funding s) in
  let effectiveQuota := if trusted then 0 else quota in
  _ ← set_session (λ s, s <| bs_trusted := if trusted then true else bs_trusted s |>);
  _ ← (if decide (effectiveQuota > 0) then
         _ ← coded ErrorCodePreConsumeTokenQuotaFailed
               (on_world (PreConsumeTokenQuota cfg info effectiveQuota));
         set_session (λ s, s <| bs_tokenConsumed :=
           if ri_IsPlayground info then bs_tokenConsumed s else effectiveQuota |>)
       else mret tt);
  r ← attempt (on_world (PreConsume cfg (bs_funding s) effectiveQuota));
  match r with
  | Err e =>
    s ← the_session;
    _ ← (if decide (bs_tokenConsumed s > 0 ∧ ri_IsPlayground info = false) then
           _ ← attempt (on_world (IncreaseTokenQuota cfg (ri_TokenId info) (bs_tokenConsumed s)));
           set_session (λ s, s <| bs_tokenConsumed := 0 |>)
         else mret tt);
    throw (funding_error e)
  | Ok funding =>
    _ ← set_session (λ s, s <| bs_funding := funding |> <| bs_preConsumedQuota := effectiveQuota |>);
    syncRelayInfo
  end.

(** *** Raising the charge *)

Definition reserveFunding (cfg : Config) (delta : Z) : B () :=
  s ← the_session;
  match bs_funding s with
  | Wallet funding =>
    _ ← coded ErrorCodeUpdateDataError (on_world (DecreaseUserQuotaIfEnough (wf_userId funding) delta));
    set_session (λ s, s <| bs_funding := Wallet (funding <| wf_consumed := wf_consumed funding +! delta |>) |>)
  | Subscription funding =>
    coded ErrorCodeInsufficientUserQuota
      (on_world (on_db (PostConsumeUserSubscriptionDelta (cf_env cfg) (sf_subscriptionId funding) delta)))
  end.

Definition rollbackFundingReserve (cfg : Config) (delta : Z) : B () :=
  s ← the_session;
  match bs_funding s with
  | Wallet funding =>
    r ← attempt (on_world (IncreaseUserQuota cfg (wf_userId funding) delta false));
    match r with
    | Ok _ => set_session (λ s, s <| bs_funding :=
                Wallet (funding <| wf_consumed := wf_consumed funding -! delta |>) |>)
    | Err _ => mret tt
    end
  | Subscription funding =>
    _ ← attempt (on_world (on_db (PostConsumeUserSubscriptionDelta (cf_env cfg)
          (sf_subscriptionId funding) (-! delta))));
    mret tt
  end.

Definition reserveToken (cfg : Config) (delta : Z) : B bool :=
  info ← the_info;
  if decide (delta ≤ 0 ∨ ri_IsPlayground info = true) then mret false
  else
    _ ← coded ErrorCodePreConsumeTokenQuotaFailed (on_world (PreConsumeTokenQuota cfg info delta));
    mret true.

(** The counters after a successful reservation. *)
Definition reserved (delta : Z) (tokenReserved : bool) (s : BillingSession) : BillingSession :=
  s <| bs_preConsumedQuota ::= λ q, q +! delta |>
    <| bs_tokenConsumed ::= λ q, if tokenReserved then q +! delta else q |>
    <| bs_extraReserved ::= λ q, q +! delta |>.

(** Charge [delta] more to the funding source and to the token, or to neither. *)
Definition reserve_both (cfg : Config) (delta : Z) : B () :=
  _ ← reserveFunding cfg delta;
  r ← attempt (reserveToken cfg delta);
  match r with
  | Err e =>
    _ ← rollbackFundingReserve cfg delta;
    throw e
  | Ok tokenReserved =>
    _ ← set_session (reserved delta tokenReserved);
    syncRelayInfo
  end.

Definition Reserve (cfg : Config) (targetQuota : Z) : B () :=
  s ← the_session;
  if decide (bs_settled s = true ∨ bs_refunded s = true ∨ bs_trusted s = true ∨
             targetQuota ≤ bs_preConsumedQuota s) then mret tt
  else
    let delta := targetQuota -! bs_preConsumedQuota s in
    if decide (delta ≤ 0) then mret tt else reserve_both cfg delta.

(** The reservation of a value package: the token first, then the package. *)
Definition reserve_package (cfg : Config) (funding : SubscriptionFunding) (target extraDelta : Z) : B () :=
  info ← the_info;
  tokenReserved ← reserveToken cfg extraDelta;
  r ← attempt (on_world (on_db (ReserveValuePackageUsageToTarget (cf_env cfg) (sf_requestId funding)
        (sf_userId funding) (sf_valuePackageSubscriptionId funding) target)));
  match r with
  | Err e =>
    _ ← (if tokenReserved : bool then
           _ ← attempt (on_world (IncreaseTokenQuota cfg (ri_TokenId info) extraDelta)); mret tt
         else mret tt);
    throw e
  | Ok res =>
    _ ← set_session (λ s, s <| bs_preConsumedQuota := target |>
          <| bs_tokenConsumed ::= λ q, if tokenReserved : bool then q +! extraDelta else q |>
          <| bs_extraReserved ::= λ q, q +! (target -! bs_preConsumedQuota s) |>
          <| bs_funding := Subscription (funding <| sf_subscriptionId := pr_UserSubscriptionId res |>
                                                 <| sf_AmountTotal := pr_AmountTotal res |>) |>);
    syncRelayInfo
  end.

Definition ReserveRealtime (cfg : Config) (deltaQuota : Z) : B Z :=
  s ← the_session;
  info ← the_info;
  let currentTarget := ri_RealtimeReservedQuota info in
  if decide (deltaQuota ≤ 0 ∨ bs_settled s = true ∨ bs_refunded s = true) then mret currentTarget
  else
    let nextActual := ri_RealtimeActualQuota info +! deltaQuota in
    let target := if decide (bs_preConsumedQuota s > nextActual) then bs_preConsumedQuota s
                  else nextActual in
    let noted (i : RelayInfo) := i <| ri_RealtimeActualQuota := nextActual |> <| ri_RealtimeReservedQuota := target |> in
    if decide (currentTarget >= target) then
      _ ← set_info (λ i, i <| ri_RealtimeActualQuota := nextActual |>);
      mret currentTarget
    else if decide (target ≤ bs_preConsumedQuota s) then
      _ ← set_info noted;
      mret target
    else
      let extraDelta := target -! bs_preConsumedQuota s in
      _ ← match bs_funding s with
          | Subscription funding =>
            if decide (sf_valuePackageSubscriptionId funding > 0)
            then reserve_package cfg funding target extraDelta
            else reserve_both cfg extraDelta
          | Wallet _ => reserve_both cfg extraDelta
          end;
      _ ← set_info noted;
      mret target.

(** *** Closing a session *)

Definition RecordValuePackageUsage (env : Env) (record : ValuePackageUsageRecord) : Tx () :=
  recordValuePackageUsageTx env record.

Definition recordValuePackageUsageForRelay (cfg : Config) (info : RelayInfo) (actualQuota : Z) : W () :=
  let p := ri_Package info in
  if decide (actualQuota < 0 ∨ ri_ValuePackageSubscriptionId p ≤ 0) then mret tt
  else on_db (RecordValuePackageUsage (cf_env cfg)
         (mkUsage 0 (ri_UserId info) (ri_ValuePackageSubscriptionId p) (ri_ValuePackagePlanId p)
            (ri_ValuePackagePackageType p) (ri_ValuePackageModelGroup p) (ri_RequestId info)
            actualQuota 0 0)).

Definition recordValuePackageUsage (cfg : Config) (actualQuota : Z) : B () :=
  info ← the_info;
  on_world (recordValuePackageUsageForRelay cfg info actualQuota).

(** The funding part of a settlement. *)
Definition settle_funding (cfg : Config) (funding : Funding) (actualQuota delta : Z) : W () :=
  match funding with
  | Subscription f =>
    if decide (sf_valuePackageSubscriptionId f > 0) then
      _ ← on_db (ReserveValuePackageUsageToTarget (cf_env cfg) (sf_requestId f) (sf_userId f)
            (sf_valuePackageSubscriptionId f) actualQuota);
      mret tt
    else SettleFunding cfg funding delta
  | Wallet _ => SettleFunding cfg funding delta
  end.

Definition Settle (cfg : Config) (actualQuota : Z) : B () :=
  s ← the_session;
  info ← the_info;
  if bs_settled s then mret tt
  else
    let delta := actualQuota -! bs_preConsumedQuota s in
    if decide (delta = 0) then
      _ ← set_session (λ s, s <| bs_settled := true |>);
      recordValuePackageUsage cfg actualQuota
    else
      _ ← (if bs_fundingSettled s then mret tt
           else
             _ ← on_world (settle_funding cfg (bs_funding s) actualQuota delta);
             set_session (λ s, s <| bs_fundingSettled := true |>));
      tokenErr ← (if ri_IsPlayground info then mret (Ok tt)
                  else attempt (on_world (adjust_token cfg info delta)));
      _ ← (if decide (Source (bs_funding s) = BillingSourceSubscription) then
             set_info (λ i, i <| ri_Subscription ::= λ r, r <| ri_SubscriptionPostDelta ::= λ d, d +! delta |> |>)
           else mret tt);
      _ ← set_session (λ s, s <| bs_settled := true |>);
      usageErr ← attempt (recordValuePackageUsage cfg actualQuota);
      match tokenErr, usageErr with
      | Err e, Err e' => throw (ErrWrap (error_text e') e)
      | Err e, Ok _ => throw e
      | Ok _, r => lift r
      end.

Definition needsRefundLocked (s : BillingSession) : bool :=
  if bs_settled s || bs_refunded s || bs_fundingSettled s then false
  else if decide (bs_tokenConsumed s > 0) then true
  else match bs_funding s with
       | Subscription sub => bool_decide (sf_preConsumed sub > 0)
       | Wallet _ => false
       end.

Definition NeedsRefund (s : BillingSession) : bool := needsRefundLocked s.

(** The goroutine a refund starts, with the values it captures. *)
Definition refund_task (s : BillingSession) (info : RelayInfo) (cfg : Config) : W () :=
  let subscriptionId := ri_SubscriptionId (ri_Subscription info) in
  _ ← attempt (RefundFunding cfg (bs_funding s));
  _ ← (if decide (bs_extraReserved s > 0 ∧ Source (bs_funding s) = BillingSourceSubscription ∧
                  subscriptionId > 0 ∧ funding_package (bs_funding s) ≤ 0) then
         _ ← attempt (on_db (PostConsumeUserSubscriptionDelta (cf_env cfg) subscriptionId
               (-! bs_extraReserved s)));
         mret tt
       else mret tt);
  if decide (bs_tokenConsumed s > 0 ∧ ri_IsPlayground info = false) then
    _ ← attempt (IncreaseTokenQuota cfg (ri_TokenId info) (bs_tokenConsumed s));
    mret tt
  else mret tt.

(** The task to run in the background, if there is one. *)
Definition Refund : B (option (Config → W ())) :=
  s ← the_session;
  info ← the_info;
  if bs_settled s || bs_refunded s || negb (needsRefundLocked s) then mret None
  else
    _ ← set_session (λ s, s <| bs_refunded := true |>);
    mret (Some (refund_task s info)).

Definition GetPreConsumedQuota (s : BillingSession) : Z := bs_preConsumedQuota s.

Record BillingQuotaSnapshot := mkQuotaSnapshot { qs_FundingQuota : Z; qs_TokenQuota : Z }.
Definition GetQuotaSnapshot (s : BillingSession) : BillingQuotaSnapshot :=
  mkQuotaSnapshot (bs_preConsumedQuota s) (bs_tokenConsumed s).

(** *** Choosing the funding source *)

Definition HasActiveUserSubscription (env : Env) (userId : Z) : Tx bool :=
  _ ← fail_if (userId ≤ 0) (ErrNew "invalid userId");
  db ← get;
  mret (existsb (λ s, bool_decide (us_UserId s = userId ∧ us_Status s = UserSubscriptionStatusActive ∧
                                   us_EndTime s > app_now env) &&
                      match by_id (us_PlanId s) (subscription_plans db) with
                      | Some plan => bool_decide (sp_PlanKind plan = SubscriptionPlanKindSubscription ∨
                                                  sp_PlanKind plan = "")
                      | None => false
                      end) (rows (user_subscriptions db))).

Definition NormalizeBillingPreference (pref : string) : string :=
  let pref := TrimSpace pref in
  if decide (pref = "subscription_first" ∨ pref = "wallet_first" ∨ pref = "subscription_only" ∨
             pref = "wallet_only") then pref
  else "subscription_first".

Section Open.
Context `{Decimals} (groups : GroupSettings).

Definition wallet_consume (info : RelayInfo) (preConsumedQuota : Z) : Z :=
  let price := ri_PriceData info in
  if decide (pd_QuotaToPreConsume price > 0) then pd_QuotaToPreConsume price
  else if decide (pd_Quota price > 0) then pd_Quota price
  else preConsumedQuota.

Definition tryWallet (cfg : Config) (tokenQuota preConsumedQuota : Z) : B () :=
  _ ← set_info restoreOriginalBillingRatio;
  info ← the_info;
  let walletConsume := wallet_consume info preConsumedQuota in
  userQuota ← on_world (GetUserQuota (ri_UserId info));
  _ ← set_info (λ i, i <| ri_UserQuota := userQuota |>);
  _ ← fail_if (walletConsume > 0 ∧ userQuota ≤ 0)
        (api_error ErrorCodeInsufficientUserQuota (ErrNew "用户额度不足"));
  _ ← fail_if (walletConsume > 0 ∧ userQuota -! walletConsume < 0)
        (api_error ErrorCodeInsufficientUserQuota (ErrNew "预扣费额度失败"));
  _ ← set_session (λ _, new_session (Wallet (mkWallet (ri_UserId info) 0)) float_zero ""
                          (TrimSpace (ri_UsingGroup info)));
  _ ← freezeBillingTuple;
  preConsume cfg tokenQuota walletConsume.

(** The quota a subscription is charged before the request: at least 1. *)
Definition sub_consume (info : RelayInfo) (preConsumedQuota : Z) : Z :=
  let '(ratio, source) := resolveSubscriptionBillingRatio info in
  let quota := subscriptionPreConsumeQuota info preConsumedQuota ratio source in
  if decide (quota ≤ 0) then 1 else quota.

(** A new session on a subscription; [package] is 0 for a regular one. *)
Definition subscription_session (info : RelayInfo) (package amount : Z) : BillingSession :=
  let '(ratio, source) := resolveSubscriptionBillingRatio info in
  new_session (Subscription (mkFunding (ri_RequestId info) (ri_UserId info) amount package 0 0 0 0 0 ""))
    ratio source (TrimSpace (ri_UsingGroup info)).

(** What both kinds of subscription do after the charge. *)
Definition open_subscription (info : RelayInfo) (subConsume : Z) : B () :=
  let '(ratio, source) := resolveSubscriptionBillingRatio info in
  _ ← set_info (λ i, applySubscriptionBillingRatio i subConsume ratio source);
  _ ← set_session (λ s, s <| bs_preConsumedQuota := subConsume |>);
  _ ← freezeBillingTuple;
  syncRelayInfo.

Definition tryPackage (cfg : Config) (tokenQuota preConsumedQuota : Z) : B () :=
  info ← the_info;
  let subConsume := sub_consume info preConsumedQuota in
  _ ← set_session (λ _, subscription_session info (package_id info) subConsume);
  r ← attempt (preConsume cfg tokenQuota subConsume);
  match r with
  | Err e =>
    if decide (ri_ValuePackageWalletFallback (ri_Package info) = true ∧
               GetErrorCode e = ErrorCodeInsufficientUserQuota) then
      _ ← set_info (prepareValuePackageWalletFallback groups);
      tryWallet cfg tokenQuota preConsumedQuota
    else throw e
  | Ok _ => open_subscription info subConsume
  end.

Definition trySubscription (cfg : Config) (tokenQuota preConsumedQuota : Z) : B () :=
  info ← the_info;
  let subConsume := sub_consume info preConsumedQuota in
  _ ← set_session (λ _, subscription_session info 0 subConsume);
  r ← attempt (preConsume cfg tokenQuota subConsume);
  match r with
  | Err e =>
    _ ← set_info restoreOriginalBillingRatio;
    throw e
  | Ok _ => open_subscription info subConsume
  end.

(** Run [m], and [m'] if [m] fails for lack of quota. *)
Definition or_else (m m' : B ()) : B () :=
  r ← attempt m;
  match r with
  | Err e => if decide (GetErrorCode e = ErrorCodeInsufficientUserQuota) then m' else throw e
  | Ok _ => mret tt
  end.

Definition NewBillingSession (cfg : Config) (tokenQuota preConsumedQuota : Z) : B () :=
  info ← the_info;
  let pref := NormalizeBillingPreference (ri_BillingPreference info) in
  let wallet := tryWallet cfg tokenQuota preConsumedQuota in
  let subscription := trySubscription cfg tokenQuota preConsumedQuota in
  if ri_ValuePackageUseWallet (ri_Package info) then wallet
  else if decide (package_id info > 0) then tryPackage cfg tokenQuota preConsumedQuota
  else if decide (pref = "subscription_only") then subscription
  else if decide (pref = "wallet_only") then wallet
  else if decide (pref = "wallet_first") then or_else wallet subscription
  else
    hasSub ← coded ErrorCodeQueryDataError
               (on_world (on_db (HasActiveUserSubscription (cf_env cfg) (ri_UserId info))));
    if hasSub : bool then or_else subscription wallet else wallet.

(** [hasBilling]: a session is attached to the request. *)
Definition RestoreBillingSessionTuple (hasBilling : bool) : B () :=
  if hasBilling then restoreBillingTuple else mret tt.

Definition EnsureSubscriptionBillingRatio (hasBilling : bool) : B () :=
  info ← the_info;
  s ← the_session;
  if decide (ri_BillingSource info ≠ BillingSourceSubscription) then mret tt
  else
    let '(ratio, source) := (resolveAuthoritativeSubscriptionBillingRatio info).1 in
    let info := if decide (hasBilling = true ∧ bs_billingUsingGroup s ≠ "")
                then info <| ri_BillingUsingGroup := bs_billingUsingGroup s |> else info in
    let preConsumedQuota := if hasBilling then GetPreConsumedQuota s else ri_FinalPreConsumedQuota info in
    let preConsumedQuota :=
      if decide (preConsumedQuota ≤ 0)
      then subscriptionPreConsumeQuota info (pd_QuotaToPreConsume (ri_PriceData info)) ratio source
      else preConsumedQuota in
    set_info (λ _, if decide (preConsumedQuota ≤ 0) then info
                   else applySubscriptionBillingRatio info preConsumedQuota ratio source).

(** The session is attached to the request. *)
Definition PreConsumeBilling (cfg : Config) (tokenQuota preConsumedQuota : Z) : B () :=
  _ ← NewBillingSession cfg tokenQuota preConsumedQuota;
  s ← the_session;
  set_info (λ i, i <| ri_Frozen :=
    match bs_funding s with
    | Subscription _ => Some (bs_subscriptionRatio s, bs_subscriptionRatioSource s)
    | Wallet _ => None
    end |>).
End Open.

(** *** Requests without a session *)

Definition PostConsumeQuota (cfg : Config) (quota : Z) : B () :=
  info ← the_info;
  _ ← (if decide (ri_BillingSource info = BillingSourceSubscription) then
         let subscriptionId := ri_SubscriptionId (ri_Subscription info) in
         _ ← fail_if (subscriptionId = 0) (ErrNew "subscription id is missing");
         if decide (quota ≠ 0) then
           _ ← on_world (on_db (PostConsumeUserSubscriptionDelta (cf_env cfg) subscriptionId quota));
           set_info (λ i, i <| ri_Subscription ::= λ r, r <| ri_SubscriptionPostDelta ::= λ d, d +! quota |> |>)
         else mret tt
       else on_world (if decide (quota > 0) then DecreaseUserQuota cfg (ri_UserId info) quota false
                      else IncreaseUserQuota cfg (ri_UserId info) (-! quota) false));
  if ri_IsPlayground info then mret tt else on_world (adjust_token cfg info quota).

Definition SettleBilling (cfg : Config) (hasBilling : bool) (actualQuota : Z) : B () :=
  if hasBilling then Settle cfg actualQuota
  else
    info ← the_info;
    let quotaDelta := actualQuota -! ri_FinalPreConsumedQuota info in
    if decide (quotaDelta ≠ 0) then PostConsumeQuota cfg quotaDelta else mret tt.

Definition PreConsumeQuota (cfg : Config) (tokenQuota preConsumedQuota : Z) : B () :=
  info ← the_info;
  userQuota ← on_world (GetUserQuota (ri_UserId info));
  _ ← fail_if (userQuota ≤ 0) (api_error ErrorCodeInsufficientUserQuota (ErrNew "用户额度不足"));
  _ ← fail_if (userQuota -! preConsumedQuota < 0)
        (api_error ErrorCodeInsufficientUserQuota (ErrNew "预扣费额度失败"));
  let trustQuota := GetTrustQuota (cf_env cfg) in
  _ ← set_info (λ i, i <| ri_UserQuota := userQuota |>);
  let trusted := userQuota > trustQuota ∧ (ri_TokenUnlimited info = true ∨ tokenQuota > trustQuota) in
  let preConsumedQuota := if decide trusted then 0 else preConsumedQuota in
  _ ← (if decide (preConsumedQuota > 0) then
         _ ← coded ErrorCodePreConsumeTokenQuotaFailed
               (on_world (PreConsumeTokenQuota cfg info preConsumedQuota));
         coded ErrorCodeUpdateDataError
           (on_world (DecreaseUserQuota cfg (ri_UserId info) preConsumedQuota false))
       else mret tt);
  set_info (λ i, i <| ri_FinalPreConsumedQuota := preConsumedQuota |>).

(** The goroutine works on a copy of the request. *)
Definition ReturnPreConsumedQuota (cfg : Config) : B () :=
  c ← get;
  let quota := ri_FinalPreConsumedQuota (cx_info c) in
  if decide (quota ≠ 0) then
    _ ← attempt (PostConsumeQuota cfg (-! quota));
    set_info (λ _, cx_info c)
  else mret tt.
