(* ===== verification/Sessions.v ===== *)
(** * What a billing session charges

    Theorems on [Billing.v]: a wallet session that settles has charged the wallet
    and the token exactly the actual cost, and one that is refunded has charged
    nothing, whatever was reserved on the way; a session that cannot be opened
    leaves no trace in any balance or subscription. *)
From S2P Require Import Prelude Tables GoTime Schema Plans Windows Cycles Consume Accounting Ledger Limits Preferences Cards Purchases Lifecycle Wallet GoFloat Groups Ratios Billing.

(** ** Running sessions *)

Lemma wp_on_world {A} (m : W A) (Q : result A → Ctx → Prop) c :
  wp m (λ r w, Q r (c <| cx_world := w |>)) (cx_world c) → wp (on_world m) Q c.
Proof. done. Qed.

Lemma wp_coded {S A} code (m : M S A) (Q : result A → S → Prop) s :
  wp m (λ r s', match r with Ok a => Q (Ok a) s' | Err e => Q (Err (api_error code e)) s' end) s →
  wp (coded code m) Q s.
Proof.
  intros H. unfold coded. apply wp_bind, wp_attempt. eapply wp_mono; [exact H|].
  intros [a|e] s' HQ; done.
Qed.

(** ** Payments *)

(** The user [uid] pays [u] from the wallet and [t] from the token [tid]: nobody
    else's balance changes.  [n] bounds what waits in the stores afterwards. *)
Record paid (uid tid u t n : Z) (w w' : World) : Prop := {
  pa_shift : shifted w w' (at_key (0, 0, 0) (- u, 0, 0) uid) (at_key 0 (- t) tid) (λ _, 0);
  pa_stores : stores_within n (w_stores w');
  pa_users : table_wf (users (w_db w'));
}.

Definition ready (n : Z) (w : World) : Prop :=
  stores_within n (w_stores w) ∧ table_wf (users (w_db w)).

Lemma paid_ready uid tid u t n w w' : paid uid tid u t n w w' → ready n w'.
Proof. by intros [? ? ?]. Qed.

Lemma paid_refl uid tid n w : ready n w → paid uid tid 0 0 n w w.
Proof.
  intros [Hs Hu]. split; [|done|done].
  eapply shifted_ext; [apply shifted_0|..]; intros id; unfold at_key; try case_decide; done.
Qed.

Lemma paid_trans uid tid u t n u' t' n' w w1 w2 :
  paid uid tid u t n w w1 → paid uid tid u' t' n' w1 w2 → paid uid tid (u + u') (t + t') n' w w2.
Proof.
  intros [H1 _ _] [H2 Hs Hu]. split; [|done|done].
  eapply shifted_ext; [exact (shifted_trans _ _ _ _ _ _ _ _ _ H1 H2)|..]; intros id; unfold at_key, add_user3, add_user;
    repeat case_decide; cbn; repeat match goal with |- (_, _) = (_, _) => f_equal end; lia.
Qed.

Lemma paid_eq uid tid u t n u' t' n' w w' :
  paid uid tid u t n w w' → u = u' → t = t' → n ≤ n' → paid uid tid u' t' n' w w'.
Proof. intros [H1 Hs Hu] -> -> Hn. split; [done| |done]. by apply (stores_within_mono n). Qed.

Lemma quota_post_paid cfg uid tid u t n du dt dc w w' :
  quota_post cfg w n du dt dc w' → table_wf (users (w_db w')) →
  (∀ id, du id = at_key (0, 0, 0) (- u, 0, 0) uid id) → (∀ id, dt id = at_key 0 (- t) tid id) →
  (∀ id, dc id = 0) → paid uid tid u t n w w'.
Proof. intros (Hs & Hw & _) Hu H1 H2 H3. split; [by eapply shifted_ext|done|done]. Qed.

(** Writes to the user table keep its keys. *)
Lemma users_update_wf (P : User → Prop) `{∀ u, Decision (P u)} f t :
  (∀ u, u_Id (f u) = u_Id u) → table_wf t → table_wf (update_where P f t).
Proof. intros Hf. apply (wf_update_where (R := User)). intros r _. apply Hf. Qed.

Lemma wp_users_kept cfg id q w :
  table_wf (users (w_db w)) → 0 ≤ q →
  wp (IncreaseUserQuota cfg id q false) (λ r w', r = Ok tt ∧ table_wf (users (w_db w'))) w ∧
  wp (DecreaseUserQuota cfg id q false) (λ r w', r = Ok tt ∧ table_wf (users (w_db w'))) w ∧
  wp (IncreaseTokenQuota cfg id q) (λ r w', r = Ok tt ∧ table_wf (users (w_db w'))) w ∧
  wp (DecreaseTokenQuota cfg id q) (λ r w', r = Ok tt ∧ table_wf (users (w_db w'))) w.
Proof.
  intros Hwf Hq. unfold IncreaseUserQuota, DecreaseUserQuota, IncreaseTokenQuota, DecreaseTokenQuota.
  split_and!; wp_pass; cbn [negb andb]; destruct (cf_batch cfg); (split; [done|]); try exact Hwf;
    by apply users_update_wf.
Qed.

Section Primitives.
Context (cfg : Config) (uid tid q n : Z) (w : World).
Context (Hready : ready n w) (Hn : 0 ≤ n) (Hq : 0 ≤ q) (Hfit : n + q ≤ max_int64).

Lemma wp_increase_user :
  wp (IncreaseUserQuota cfg uid q false) (λ r w', r = Ok tt ∧ paid uid tid (- q) 0 (n + q) w w') w.
Proof.
  destruct Hready as [Hs Hu]. pose proof (wp_users_kept cfg uid q w Hu Hq) as (Hk & _).
  eapply wp_mono; [exact (wp_and _ _ _ _ Hk (increase_user_post cfg uid q w n Hs Hq Hfit))|].
  intros r w' [[-> Hwf] Hp]. split; [done|]. eapply quota_post_paid; [exact Hp|done|change_solve..].
Qed.

Lemma wp_decrease_user :
  wp (DecreaseUserQuota cfg uid q false) (λ r w', r = Ok tt ∧ paid uid tid q 0 (n + q) w w') w.
Proof.
  destruct Hready as [Hs Hu]. pose proof (wp_users_kept cfg uid q w Hu Hq) as (_ & Hk & _).
  eapply wp_mono; [exact (wp_and _ _ _ _ Hk (decrease_user_post cfg uid q w n Hs Hn Hq Hfit))|].
  intros r w' [[-> Hwf] Hp]. split; [done|]. eapply quota_post_paid; [exact Hp|done|change_solve..].
Qed.

Lemma wp_increase_token :
  wp (IncreaseTokenQuota cfg tid q) (λ r w', r = Ok tt ∧ paid uid tid 0 (- q) (n + q) w w') w.
Proof.
  destruct Hready as [Hs Hu]. pose proof (wp_users_kept cfg tid q w Hu Hq) as (_ & _ & Hk & _).
  pose proof (op_post cfg (IncreaseToken tid q) w n Hs Hn) as Hop. cbn [size run_quota_op] in Hop.
  rewrite Z.abs_eq in Hop by done. eapply wp_mono; [exact (wp_and _ _ _ _ Hk (Hop Hfit))|].
  intros r w' [[-> Hwf] Hp]. split; [done|]. eapply quota_post_paid; [exact Hp|done|change_solve..].
Qed.

Lemma wp_decrease_token :
  wp (DecreaseTokenQuota cfg tid q) (λ r w', r = Ok tt ∧ paid uid tid 0 q (n + q) w w') w.
Proof.
  destruct Hready as [Hs Hu]. pose proof (wp_users_kept cfg tid q w Hu Hq) as (_ & _ & _ & Hk).
  pose proof (op_post cfg (DecreaseToken tid q) w n Hs Hn) as Hop. cbn [size run_quota_op] in Hop.
  rewrite Z.abs_eq in Hop by done. eapply wp_mono; [exact (wp_and _ _ _ _ Hk (Hop Hfit))|].
  intros r w' [[-> Hwf] Hp]. split; [done|]. eapply quota_post_paid; [exact Hp|done|change_solve..].
Qed.

(** The wallet is charged at once, or not at all. *)
Lemma enough_none db :
  affected (λ u, u_Id u = uid ∧ u_Quota u >= q) (users db) = 0 →
  db <| users ::= update_where (λ u, u_Id u = uid ∧ u_Quota u >= q) (λ u, u <| u_Quota ::= λ x, x - q |>) |> = db.
Proof.
  unfold affected, where_. intros Haff. destruct db as [[l k] ? ? ? ? ? ? ? ? ? ? ?]. cbn in *. do 2 f_equal.
  unfold update_where. cbn. f_equal. rewrite <-(list_fmap_id l) at 2. apply list_fmap_ext. intros i u Hi.
  rewrite decide_False; [done|]. intros Henough. apply list_elem_of_lookup_2 in Hi.
  assert (Hin : u ∈ filter (λ u, u_Id u = uid ∧ u_Quota u >= q) l) by (by apply list_elem_of_filter).
  destruct (filter _ l); [by apply not_elem_of_nil in Hin|cbn in Haff; lia].
Qed.

Lemma enough_some (t : table User) f :
  table_wf t → affected (λ u, u_Id u = uid ∧ u_Quota u >= q) t ≠ 0 →
  update_where (λ u, u_Id u = uid ∧ u_Quota u >= q) f t = update_where (λ u, u_Id u = uid) f t.
Proof.
  intros Hwf Haff. unfold affected, where_ in Haff.
  destruct (filter _ (rows t)) as [|u0 l] eqn:E; [done|].
  assert (Hu0 : u0 ∈ filter (λ u, u_Id u = uid ∧ u_Quota u >= q) (rows t)) by (rewrite E; left).
  apply list_elem_of_filter in Hu0 as [[Hid Henough] Hin]. unfold update_where. f_equal. apply list_fmap_ext.
  intros i u Hi. apply list_elem_of_lookup_2 in Hi. destruct (decide (u_Id u = uid)) as [Heq|Hne].
  - rewrite (wf_row_eq t u u0 Hwf Hi Hin) by (cbn; congruence). by rewrite decide_True.
  - by rewrite decide_False by tauto.
Qed.

Lemma wp_decrease_enough :
  wp (DecreaseUserQuotaIfEnough uid q)
    (λ r w', r = Ok tt ∧ paid uid tid q 0 n w w' ∨ (∃ e, r = Err e) ∧ w' = w) w.
Proof.
  destruct Hready as [Hs Hu]. unfold DecreaseUserQuotaIfEnough. wp_pass.
  wp_step; [wp_step; left; split; [done|]; eapply paid_eq; [by apply paid_refl|done..]|].
  wp_guard as Hid; [right; eauto|]. apply wp_on_db. wp_step. wp_step. wp_step. wp_step.
  apply wp_fail_if; intros Haff.
  - right. split; [eauto|]. rewrite (enough_none _ Haff). by destruct w.
  - left. split; [done|]. split; [|done|by apply users_update_wf].
    pose proof (direct_users (λ u, u <| u_Quota ::= λ x, x - q |>) (- q, 0, 0) w) as Hd.
    apply (shifted_ext _ _ (at_key (0, 0, 0) (- q, 0, 0) uid) (at_key 0 0 uid) (at_key 0 0 uid));
      [|done|change_solve..].
    cbn. rewrite (enough_some _ _ Hu Haff). apply Hd; [done|].
    intros u. unfold add_user3, add_user. cbn. repeat match goal with |- (_, _) = (_, _) => f_equal end; lia.
Qed.
End Primitives.

(** A request from the playground does not charge its token. *)
Definition token_share (info : RelayInfo) (amount : Z) : Z := if ri_IsPlayground info then 0 else amount.

Lemma wp_preconsume_token cfg uid info q n w :
  ready n w → 0 ≤ n → 0 ≤ q → n + q ≤ max_int64 →
  wp (PreConsumeTokenQuota cfg info q)
    (λ r w', r = Ok tt ∧ paid uid (ri_TokenId info) 0 (token_share info q) (n + q) w w' ∨
             (∃ e, r = Err e) ∧ w' = w) w.
Proof.
  intros Hr Hn Hq Hfit. unfold PreConsumeTokenQuota, token_share. wp_pass. destruct (ri_IsPlayground info).
  - wp_step. left. split; [done|]. eapply paid_eq; [by apply paid_refl|lia..].
  - wp_step. unfold GetTokenByKey. wp_step. wp_step. wp_step; [|right; eauto]. wp_guard as Henough; [right; eauto|].
    eapply wp_mono; [by apply (wp_decrease_token cfg uid _ q n)|]. intros r w' Hp. by left.
Qed.

(** ** Open wallet sessions *)

(** The parts of a request that a session does not change. *)
Definition same_request (i i' : RelayInfo) : Prop :=
  ri_UserId i' = ri_UserId i ∧ ri_TokenId i' = ri_TokenId i ∧ ri_IsPlayground i' = ri_IsPlayground i ∧
  ri_Package i' = ri_Package i.

Lemma same_request_refl i : same_request i i.
Proof. done. Qed.
Lemma same_request_trans i i' i'' : same_request i i' → same_request i' i'' → same_request i i''.
Proof. unfold same_request. intros (-> & -> & -> & ->) (-> & -> & -> & ->). done. Qed.

Lemma synced_request s i :
  same_request i (synced s i) ∧ ri_RealtimeActualQuota (synced s i) = ri_RealtimeActualQuota i ∧
  ri_RealtimeReservedQuota (synced s i) = ri_RealtimeReservedQuota i.
Proof.
  unfold synced, restored_tuple, same_request. cbv zeta.
  destruct (decide (bs_billingUsingGroup s = "")), (bs_billingGroupRatioInfo s), (bs_tieredBillingTuple s) as [[? ?]|],
    (bs_funding s); cbn -[tiered TrimSpace]; try done;
    match goal with |- context [tiered ?x] => destruct (tiered x) end; done.
Qed.

(** A session on the wallet that has charged [p] so far and is not closed. *)
Record wallet_open (p : Z) (c : Ctx) : Prop := {
  wo_funding : bs_funding (cx_session c) = Wallet (mkWallet (ri_UserId (cx_info c)) p);
  wo_pre : bs_preConsumedQuota (cx_session c) = p;
  wo_token : bs_tokenConsumed (cx_session c) = token_share (cx_info c) p;
  wo_funding_open : bs_fundingSettled (cx_session c) = false;
  wo_open : bs_settled (cx_session c) = false;
  wo_kept : bs_refunded (cx_session c) = false;
  wo_actual : 0 ≤ ri_RealtimeActualQuota (cx_info c) ≤ p;
  wo_reserved : ri_RealtimeReservedQuota (cx_info c) ≤ p;
}.

(** A step of a session: from [p] charged to [p'] charged, paid for. *)
Record charges (p p' n : Z) (c c' : Ctx) : Prop := {
  cg_open : wallet_open p' c';
  cg_paid : paid (ri_UserId (cx_info c)) (ri_TokenId (cx_info c)) (p' - p) (token_share (cx_info c) (p' - p)) n
              (cx_world c) (cx_world c');
  cg_request : same_request (cx_info c) (cx_info c');
}.

Lemma token_share_add i x y : token_share i (x + y) = token_share i x + token_share i y.
Proof. unfold token_share. by destruct (ri_IsPlayground i). Qed.
Lemma token_share_same i i' x : same_request i i' → token_share i' x = token_share i x.
Proof. unfold token_share. by intros (_ & _ & -> & _). Qed.
Lemma token_share_0 i : token_share i 0 = 0.
Proof. unfold token_share. by destruct (ri_IsPlayground i). Qed.

Lemma charges_refl p n c : wallet_open p c → ready n (cx_world c) → charges p p n c c.
Proof.
  intros Ho Hr. split; [done| |done]. eapply paid_eq; [by apply paid_refl|lia|by rewrite Z.sub_diag, token_share_0|lia].
Qed.

Lemma charges_trans p p1 p2 n n' c c1 c2 :
  charges p p1 n c c1 → charges p1 p2 n' c1 c2 → charges p p2 n' c c2.
Proof.
  intros [_ Hp1 Hr1] [Ho2 Hp2 Hr2]. split; [done| |by eapply same_request_trans].
  pose proof Hr1 as (Hu & Ht & _). rewrite Hu, Ht, (token_share_same _ _ _ Hr1) in Hp2.
  eapply paid_eq; [exact (paid_trans _ _ _ _ _ _ _ _ _ _ _ Hp1 Hp2)|lia| |lia].
  rewrite <-token_share_add. f_equal. lia.
Qed.

Lemma wp_reserve_token cfg uid d n c :
  ready n (cx_world c) → 0 ≤ n → 0 < d → n + d ≤ max_int64 →
  wp (reserveToken cfg d)
    (λ r c', (∃ w', r = Ok (negb (ri_IsPlayground (cx_info c))) ∧ c' = c <| cx_world := w' |> ∧
                paid uid (ri_TokenId (cx_info c)) 0 (token_share (cx_info c) d) (n + d) (cx_world c) w') ∨
             (∃ e, r = Err e) ∧ c' = c) c.
Proof.
  intros Hr Hn Hd Hfit. unfold reserveToken, the_info. wp_step. wp_step. wp_step. wp_step.
  destruct (decide _) as [Hpg|Hpg].
  - wp_step. destruct Hpg as [?|Hpg]; [lia|]. left. exists (cx_world c). rewrite Hpg. split_and!; [done|by destruct c|].
    eapply paid_eq; [by apply paid_refl|lia|unfold token_share; by rewrite Hpg|lia].
  - wp_step. apply wp_coded, wp_on_world. eapply wp_mono; [apply (wp_preconsume_token cfg uid _ d n); [done|lia..]|].
    intros r w' [[-> Hp]|[[e ->] ->]].
    + wp_step. left. exists w'. split_and!; [|done|done]. by destruct (ri_IsPlayground (cx_info c)); [tauto|].
    + right. split; [eauto|by destruct c].
Qed.

(** Contexts with the same request and the same open session. *)
Lemma wallet_open_ext p c c' :
  cx_info c' = cx_info c → cx_session c' = cx_session c → wallet_open p c → wallet_open p c'.
Proof. intros Hi Hs [? ? ? ? ? ? ? ?]. split; rewrite ?Hi, ?Hs; done. Qed.

(** The session with another amount charged to the wallet. *)
Lemma wallet_open_set p p' w w' i i' s s' :
  wallet_open p (mkCtx w i s) → same_request i i' →
  ri_RealtimeActualQuota i' = ri_RealtimeActualQuota i → ri_RealtimeReservedQuota i' = ri_RealtimeReservedQuota i →
  p ≤ p' → bs_funding s' = Wallet (mkWallet (ri_UserId i) p') → bs_preConsumedQuota s' = p' →
  bs_tokenConsumed s' = token_share i p' → bs_fundingSettled s' = bs_fundingSettled s →
  bs_settled s' = bs_settled s → bs_refunded s' = bs_refunded s →
  wallet_open p' (mkCtx w' i' s').
Proof.
  intros [? ? ? ? ? ? ? ?] Hr HA HR Hle Hf Hpre Htok H1 H2 H3. pose proof Hr as (Hu & _). cbn in *.
  split; cbn; rewrite ?HA, ?HR, ?Hu, ?(token_share_same _ _ _ Hr); try congruence; lia.
Qed.

Lemma wp_reserve_both cfg d p n c :
  wallet_open p c → ready n (cx_world c) → 0 ≤ n → 0 < d → n + d ≤ max_int64 → p + d ≤ max_int64 →
  wp (reserve_both cfg d)
    (λ r c', charges p (p + d) (n + d) c c' ∧ r = Ok tt ∨ charges p p (n + d) c c' ∧ ∃ e, r = Err e) c.
Proof.
  intros Ho Hr Hn Hd Hfit Hp. destruct c as [w i s]. pose proof Ho as [Hf Hpre Htok Hfs Hset Hk Ha Hres]. cbn in *.
  unfold reserve_both, reserveFunding, the_session. wp_step. wp_step. wp_step. wp_step. wp_step. cbn [cx_session]. rewrite Hf.
  wp_step. apply wp_coded, wp_on_world. eapply wp_mono.
  { apply (wp_decrease_enough (ri_UserId i) (ri_TokenId i) d n w); [done|lia]. }
  intros r w1 [[-> Hp1]|[[e ->] ->]].
  2:{ right. split; [|eauto]. apply charges_refl; [done|]. destruct Hr as [Hs Hu].
      split; [|done]. by apply (stores_within_mono n); [lia|]. }
  unfold set_session at 1. wp_step. wp_step. wp_step. cbn. unwrap.
  eapply wp_mono; [apply (wp_reserve_token cfg (ri_UserId i) d n); [by eapply paid_ready|lia..]|].
  cbn [cx_world cx_info cx_session].
  intros r c2 [(w2 & -> & -> & Hp2)|[[e ->] ->]].
  - unfold set_session, syncRelayInfo. wp_step. wp_step. wp_step. left. split; [|done].
    set (s1 := reserved d (negb (ri_IsPlayground i)) (s <| bs_funding := Wallet (mkWallet (ri_UserId i) (p + d)) |>)).
    destruct (synced_request s1 i) as (Hsr & HA & HR).
    split; [|eapply paid_eq; [exact (paid_trans _ _ _ _ _ _ _ _ _ _ _ Hp1 Hp2)|cbn; lia| |lia]|exact Hsr].
    + eapply (wallet_open_set p (p + d) w _ i _ s s1 Ho Hsr HA HR); cbn; try done; [lia|..].
      * rewrite Hpre. by unwrap.
      * rewrite Htok. unfold token_share. destruct (ri_IsPlayground i); cbn; [done|]. by unwrap.
    + cbn. rewrite Z.add_simpl_l. lia.
  - unfold rollbackFundingReserve, the_session. wp_step. wp_step. wp_step. wp_step. wp_step. cbn.
    wp_step. wp_step. apply wp_on_world. eapply wp_mono.
    { apply (wp_increase_user cfg (ri_UserId i) (ri_TokenId i) d n); [by eapply paid_ready|lia..]. }
    intros r w2 [-> Hp2]. unfold set_session. wp_step. wp_step. cbn. unwrap. rewrite Z.add_simpl_r. right.
    split; [|eauto]. split; cbn; [|eapply paid_eq; [exact (paid_trans _ _ _ _ _ _ _ _ _ _ _ Hp1 Hp2)|lia| |lia]|done].
    + eapply (wallet_open_set p p w _ i i s _ Ho); done.
    + by rewrite Z.sub_diag, token_share_0.
Qed.

(** ** Reservations *)

Inductive reserve_op :=
| ReserveTo (targetQuota : Z)
| ReserveMore (deltaQuota : Z).

Definition amount_of (op : reserve_op) : Z :=
  match op with ReserveTo q => Z.max 0 q | ReserveMore q => Z.max 0 q end.

(** Calls made while the request runs, each with its own clock; errors are
    reported to the client and end nothing here. *)
Definition run_reserve (cfg : Config) (op : reserve_op) : B () :=
  _ ← match op with
      | ReserveTo q => attempt (Reserve cfg q)
      | ReserveMore q => attempt (_ ← ReserveRealtime cfg q; mret tt)
      end;
  mret tt.
Definition run_reserves (ops : list (Config * reserve_op)) : B () :=
  for_each ops (λ co, run_reserve co.1 co.2).

(** The request with what a realtime session has seen. *)
Lemma wallet_open_noted p w i s actual reserved :
  wallet_open p (mkCtx w i s) → 0 ≤ actual ≤ p → reserved ≤ p →
  wallet_open p (mkCtx w (i <| ri_RealtimeActualQuota := actual |> <| ri_RealtimeReservedQuota := reserved |>) s).
Proof. intros [? ? ? ? ? ? ? ?] ? ?. by split. Qed.

Lemma charges_noted p p' n c w i s actual reserved :
  charges p p' n c (mkCtx w i s) → 0 ≤ actual ≤ p' → reserved ≤ p' →
  charges p p' n c (mkCtx w (i <| ri_RealtimeActualQuota := actual |> <| ri_RealtimeReservedQuota := reserved |>) s).
Proof. intros [Ho Hp Hr] ? ?. split; [by apply wallet_open_noted|done|exact Hr]. Qed.

Lemma wp_reserve_realtime cfg d p n c :
  wallet_open p c → ready n (cx_world c) → 0 ≤ n → 0 < d → n + d ≤ max_int64 → p + d ≤ max_int64 →
  wp (ReserveRealtime cfg d) (λ _ c', ∃ p', p ≤ p' ≤ p + d ∧ charges p p' (n + d) c c') c.
Proof.
  intros Ho Hr Hn Hd Hfit Hp. destruct c as [w i s]. pose proof Ho as [Hf Hpre Htok Hfs Hset Hk Ha Hres]. cbn in *.
  assert (Hsame : charges p p (n + d) (mkCtx w i s) (mkCtx w i s)).
  { apply charges_refl; [done|]. destruct Hr as [Hs Hu]. split; [|done]. by apply (stores_within_mono n); [lia|]. }
  unfold ReserveRealtime, the_session, the_info. do 8 wp_step. cbn [cx_session cx_info]. rewrite Hpre, Hset, Hk. unwrap.
  rewrite decide_False by (intros [?|[?|?]]; [lia|done..]).
  set (target := if decide (p > _) then p else _).
  assert (Ht : p ≤ target ∧ ri_RealtimeActualQuota i + d ≤ target ≤ p + d) by (unfold target; case_decide; lia).
  wp_step; [|wp_step].
  - unfold set_info. do 3 wp_step. exists p. split; [lia|].
    pose proof (charges_noted _ _ _ _ _ _ _ (ri_RealtimeActualQuota i + d) (ri_RealtimeReservedQuota i) Hsame) as Hn'.
    destruct i. apply Hn'; cbn in *; lia.
  - unfold set_info. do 3 wp_step. exists p. split; [lia|]. apply charges_noted; [done|lia..].
  - wp_step. rewrite Hf. unwrap. eapply wp_mono; [apply (wp_reserve_both cfg (target - p) p n); [done|done|lia..]|].
    intros r [w' i' s'] [[Hc ->]|[Hc [e ->]]].
    + unfold set_info. do 3 wp_step. exists target. split; [lia|]. replace (p + (target - p)) with target in Hc by lia.
      destruct (charges_noted _ _ _ _ _ _ _ (ri_RealtimeActualQuota i + d) target Hc) as [Ho' Hp' Hr']; [lia..|].
      split; [exact Ho'| |exact Hr']. eapply paid_eq; [exact Hp'|done|done|lia].
    + exists p. split; [lia|]. destruct Hc as [Ho' Hp' Hr']. split; [done| |done]. eapply paid_eq; [exact Hp'|done|done|lia].
Qed.

Lemma ready_mono n m w : n ≤ m → ready n w → ready m w.
Proof. intros Hnm [Hs Hu]. split; [by apply (stores_within_mono n)|done]. Qed.

Lemma charges_mono p p' n m c c' : charges p p' n c c' → n ≤ m → charges p p' m c c'.
Proof. intros [Ho Hp Hr] Hnm. split; [done| |done]. by eapply paid_eq. Qed.

Lemma wp_run_reserve cfg op p n c :
  wallet_open p c → ready n (cx_world c) → 0 ≤ n → n + amount_of op ≤ max_int64 → p + amount_of op ≤ max_int64 →
  wp (run_reserve cfg op)
    (λ r c', r = Ok tt ∧ ∃ p', p ≤ p' ≤ p + amount_of op ∧ charges p p' (n + amount_of op) c c') c.
Proof.
  intros Ho Hr Hn Hfit Hp. unfold run_reserve.
  assert (Hsame : charges p p (n + amount_of op) c c).
  { apply charges_refl; [done|]. apply (ready_mono n); [destruct op; cbn; lia|done]. }
  pose proof Ho as [_ Hpre _ _ Hset Hk Ha _].
  assert (Hstay : p ≤ p ≤ p + amount_of op) by (destruct op; cbn; lia).
  destruct op as [t|d]; cbn [amount_of] in *; wp_step; wp_step.
  - unfold Reserve, the_session. do 4 wp_step. rewrite Hpre, Hset, Hk. wp_step; [do 2 wp_step; eauto|]. unwrap.
    wp_step; [do 2 wp_step; eauto|].
    eapply wp_mono; [apply (wp_reserve_both cfg (t - p) p n); [done|done|lia..]|].
    intros r c' Hc. wp_step. split; [done|]. destruct Hc as [[Hc _]|[Hc _]]; [exists (p + (t - p))|exists p];
      (split; [lia|]); (eapply charges_mono; [exact Hc|lia]).
  - destruct (decide (d ≤ 0)) as [Hneg|Hpos].
    + unfold ReserveRealtime, the_session, the_info. do 9 wp_step. rewrite decide_True by tauto. do 3 wp_step. eauto.
    + wp_step. eapply wp_mono; [apply (wp_reserve_realtime cfg d p n); [done|done|lia..]|].
      intros r c' (p' & Hle & Hc). destruct r; wp_steps; (split; [done|]); (exists p'; split; [lia|]);
        (eapply charges_mono; [exact Hc|lia]).
Qed.

Lemma amount_of_nonneg op : 0 ≤ amount_of op.
Proof. destruct op; cbn; lia. Qed.

Lemma wp_run_reserves ops p n c :
  wallet_open p c → ready n (cx_world c) → 0 ≤ n →
  n + sumZ (λ co, amount_of co.2) ops ≤ max_int64 → p + sumZ (λ co, amount_of co.2) ops ≤ max_int64 →
  wp (run_reserves ops)
    (λ r c', r = Ok tt ∧ ∃ p', p ≤ p' ≤ p + sumZ (λ co, amount_of co.2) ops ∧
       charges p p' (n + sumZ (λ co, amount_of co.2) ops) c c') c.
Proof.
  unfold run_reserves. revert p n c. induction ops as [|[cfg op] ops IH]; intros p n c Ho Hr Hn Hfit Hp; cbn [for_each].
  - wp_step. split; [done|]. exists p. cbn. split; [lia|]. apply charges_refl; [done|]. by apply (ready_mono n); [lia|].
  - cbn [sumZ snd] in *. pose proof (amount_of_nonneg op).
    assert (Hrest : 0 ≤ sumZ (λ co, amount_of co.2) ops).
    { apply sumZ_nonneg, Forall_forall. intros co _. apply amount_of_nonneg. }
    wp_step. eapply wp_mono; [apply (wp_run_reserve cfg op p n); [done|done|lia..]|].
    intros r c1 (-> & p1 & Hle1 & Hc1).
    eapply wp_mono; [apply (IH p1 (n + amount_of op)); [apply Hc1|eapply paid_ready, Hc1|lia..]|].
    intros r c2 (-> & p2 & Hle2 & Hc2). split; [done|]. exists p2. split; [lia|].
    eapply charges_mono; [exact (charges_trans _ _ _ _ _ _ _ _ Hc1 Hc2)|lia].
Qed.

(** ** Closing *)

(** The adjustments of a settlement. *)
Lemma wp_settle_wallet cfg uid tid consumed d n w :
  ready n w → 0 ≤ n → n + Z.abs d ≤ max_int64 →
  wp (SettleFunding cfg (Wallet (mkWallet uid consumed)) d)
    (λ r w', r = Ok tt ∧ paid uid tid d 0 (n + Z.abs d) w w') w.
Proof.
  intros Hr Hn Hfit. cbn -[Z.abs]. unfold WalletFunding_Settle. cbn [wf_userId]. wp_step; [|wp_step].
  - wp_step. split; [done|]. eapply paid_eq; [by apply paid_refl|lia..].
  - eapply wp_mono; [apply (wp_decrease_user cfg uid tid d n); [done|lia..]|].
    intros r w' [-> Hp]. split; [done|]. eapply paid_eq; [exact Hp|lia..].
  - unwrap. eapply wp_mono; [apply (wp_increase_user cfg uid tid (- d) n); [done|lia..]|].
    intros r w' [-> Hp]. split; [done|]. eapply paid_eq; [exact Hp|lia..].
Qed.

Lemma wp_adjust_token cfg uid info d n w :
  ready n w → 0 ≤ n → n + Z.abs d ≤ max_int64 →
  wp (adjust_token cfg info d) (λ r w', r = Ok tt ∧ paid uid (ri_TokenId info) 0 d (n + Z.abs d) w w') w.
Proof.
  intros Hr Hn Hfit. unfold adjust_token. wp_step.
  - eapply wp_mono; [apply (wp_decrease_token cfg uid _ d n); [done|lia..]|].
    intros r w' [-> Hp]. split; [done|]. eapply paid_eq; [exact Hp|lia..].
  - unwrap. eapply wp_mono; [apply (wp_increase_token cfg uid _ (- d) n); [done|lia..]|].
    intros r w' [-> Hp]. split; [done|]. eapply paid_eq; [exact Hp|lia..].
Qed.

Lemma wp_settle cfg actual p n c :
  wallet_open p c → ready n (cx_world c) → 0 ≤ n → 0 ≤ actual → p ≤ max_int64 → package_id (cx_info c) ≤ 0 →
  n + 2 * Z.abs (actual - p) ≤ max_int64 → actual ≤ max_int64 →
  wp (Settle cfg actual)
    (λ r c', r = Ok tt ∧ bs_settled (cx_session c') = true ∧
       paid (ri_UserId (cx_info c)) (ri_TokenId (cx_info c)) (actual - p) (token_share (cx_info c) (actual - p))
         (n + 2 * Z.abs (actual - p)) (cx_world c) (cx_world c')) c.
Proof.
  intros Ho Hr Hn Hact Hp Hpk Hfit Hmax. destruct c as [w i s]. pose proof Ho as [Hf Hpre Htok Hfs Hset Hk Ha Hres].
  cbn -[Z.abs] in *. unfold Settle, the_session, the_info. do 8 wp_step. cbn [cx_session cx_info].
  rewrite Hset, Hfs, Hf, Hpre. unwrap. set (d := actual - p) in *.
  assert (Hrec : ∀ c', cx_info c' = i → recordValuePackageUsage cfg actual c' = (Ok tt, c')).
  { intros [w' i' s'] Hi. cbn in Hi. subst i'. unfold recordValuePackageUsage.
    eapply run_bind; [reflexivity|]. cbn [cx_info]. unfold on_world, recordValuePackageUsageForRelay.
    by rewrite decide_True by (right; exact Hpk). }
  wp_step.
  - unfold set_session. do 2 wp_step. unfold wp. rewrite Hrec by done. cbn [fst snd cx_session cx_world]. split_and!; [done|done|].
    eapply paid_eq; [by apply paid_refl|lia|by rewrite e, token_share_0|lia].
  - unfold set_session. wp_step. wp_step. apply wp_on_world. cbn [settle_funding cx_world].
    eapply wp_mono; [apply (wp_settle_wallet cfg _ (ri_TokenId i) p d n); [done|lia..]|].
    intros r w1 [-> Hp1]. wp_step. wp_step.
    apply (wp_mono _ (λ r c2, r = Ok (Ok tt) ∧ cx_info c2 = i ∧
      paid (ri_UserId i) (ri_TokenId i) d (token_share i d) (n + 2 * Z.abs d) w (cx_world c2))).
    { destruct (ri_IsPlayground i) eqn:Hpg.
      - wp_step. split_and!; [done|done|]. eapply paid_eq; [exact Hp1|done|unfold token_share; by rewrite Hpg|lia].
      - wp_step. apply wp_on_world. eapply wp_mono; [apply (wp_adjust_token cfg (ri_UserId i) i d); [by eapply paid_ready|lia..]|].
        intros r w2 [-> Hp2]. split_and!; [done|done|]. cbn [cx_world].
        eapply paid_eq; [exact (paid_trans _ _ _ _ _ _ _ _ _ _ _ Hp1 Hp2)|lia|unfold token_share; rewrite Hpg; lia|lia]. }
    intros r [w2 i2 s2] (-> & Hi & Hp2). cbn in Hi. subst i2. do 2 wp_step; [done|]. do 5 wp_step.
    unfold wp at 1. rewrite Hrec by done. cbn [fst snd]. by wp_step.
Qed.

(** A settled session is closed: another settlement or a refund does nothing. *)
Lemma settled_closed cfg actual c :
  bs_settled (cx_session c) = true → Settle cfg actual c = (Ok tt, c) ∧ Refund c = (Ok None, c).
Proof.
  destruct c as [w i s]. cbn [cx_session]. intros Hs.
  split; (eapply run_bind; [reflexivity|]); (eapply run_bind; [reflexivity|]); cbn [cx_session]; by rewrite Hs.
Qed.

Lemma refund_none c : needsRefundLocked (cx_session c) = false → Refund c = (Ok None, c).
Proof.
  destruct c as [w i s]. cbn [cx_session]. intros Hs.
  eapply run_bind; [reflexivity|]. eapply run_bind; [reflexivity|]. cbn [cx_session]. rewrite Hs. by rewrite orb_true_r.
Qed.

(** A refund with its task run to the end. *)
Definition refund_now (cfg : Config) : B () :=
  task ← Refund;
  match task with
  | Some task => on_world (task cfg)
  | None => mret tt
  end.

Lemma wp_refund_now cfg p n c :
  wallet_open p c → ri_IsPlayground (cx_info c) = false → ready n (cx_world c) → 0 ≤ n → n + 2 * p ≤ max_int64 →
  wp (refund_now cfg)
    (λ r c', r = Ok tt ∧ Refund c' = (Ok None, c') ∧
       paid (ri_UserId (cx_info c)) (ri_TokenId (cx_info c)) (- p) (- p) (n + 2 * p) (cx_world c) (cx_world c')) c.
Proof.
  intros Ho Hpg Hr Hn Hfit. destruct c as [w i s]. pose proof Ho as [Hf Hpre Htok Hfs Hset Hk Ha Hres]. cbn in *.
  unfold token_share in Htok. rewrite Hpg in Htok.
  unfold refund_now, Refund, the_session, the_info. do 9 wp_step. cbn [cx_session cx_info].
  unfold needsRefundLocked. rewrite Hset, Hk, Hfs, Hf, Htok. cbn [orb]. destruct (decide (p > 0)) as [Hpos|Hneg]; cbn [negb].
  - unfold set_session. do 3 wp_step. apply wp_on_world. cbn [cx_world]. unfold refund_task. rewrite Hf, Htok, Hpg.
    cbn [RefundFunding Funding_source WalletFunding_source Source]. unfold WalletFunding_Refund. cbn [wf_consumed wf_userId].
    wp_step. wp_step. rewrite decide_False by lia.
    eapply wp_mono; [apply (wp_increase_user cfg (ri_UserId i) (ri_TokenId i) p n); [done|lia..]|].
    intros r w1 [-> Hp1]. wp_step. rewrite decide_False by (intros (_ & ? & _); done). wp_step.
    rewrite decide_True by (split; [lia|done]). wp_step. wp_step.
    eapply wp_mono; [apply (wp_increase_token cfg (ri_UserId i) (ri_TokenId i) p); [by eapply paid_ready|lia..]|].
    intros r w2 [-> Hp2]. wp_step. split_and!; [done| |].
    + apply refund_none. unfold needsRefundLocked. cbn. by rewrite orb_true_r.
    + eapply paid_eq; [exact (paid_trans _ _ _ _ _ _ _ _ _ _ _ Hp1 Hp2)|lia..].
  - do 2 wp_step. split_and!; [done| |eapply paid_eq; [by apply paid_refl|lia..]].
    apply refund_none. cbn [cx_session]. unfold needsRefundLocked. rewrite Hset, Hk, Hfs, Hf, Htok.
    by rewrite decide_False by lia.
Qed.

(** ** Opening *)

(** A session that has charged nothing yet. *)
Record wallet_new (i : RelayInfo) (s : BillingSession) : Prop := {
  wn_funding : bs_funding s = Wallet (mkWallet (ri_UserId i) 0);
  wn_token : bs_tokenConsumed s = 0;
  wn_flags : bs_fundingSettled s = false ∧ bs_settled s = false ∧ bs_refunded s = false;
}.

Definition fresh_request (i : RelayInfo) : Prop :=
  ri_RealtimeActualQuota i = 0 ∧ ri_RealtimeReservedQuota i ≤ 0.

(** What opening a session does when it succeeds. *)
Definition opened (q n : Z) (w : World) (i : RelayInfo) (c' : Ctx) : Prop :=
  ∃ p, 0 ≤ p ≤ q ∧ wallet_open p c' ∧ same_request i (cx_info c') ∧
    paid (ri_UserId i) (ri_TokenId i) p (token_share i p) n w (cx_world c').

Lemma wp_wallet_preconsume uid tid q n w :
  ready n w → 0 ≤ q →
  wp (WalletFunding_PreConsume (mkWallet uid 0) q)
    (λ r w', (r = Ok (mkWallet uid q) ∧ paid uid tid q 0 n w w') ∨ (∃ e, r = Err e) ∧ w' = w) w.
Proof.
  intros Hr Hq. unfold WalletFunding_PreConsume. wp_step.
  - wp_step. left. assert (q = 0) as -> by lia. split; [done|by apply paid_refl].
  - wp_step. eapply wp_mono; [by apply (wp_decrease_enough uid tid q n)|].
    intros r w' [[-> Hp]|[[e ->] ->]]; [wp_step; by left|right; eauto].
Qed.

Lemma wp_preconsume_wallet cfg tokenQuota q n w i s :
  wallet_new i s → fresh_request i → ready n w → 0 ≤ n → 0 ≤ q → n + q ≤ max_int64 →
  wp (preConsume cfg tokenQuota q) (λ r c', r = Ok tt → opened q (n + q) w i c') (mkCtx w i s).
Proof.
  intros [Hf Ht (H1 & H2 & H3)] [Hra Hrr] Hr Hn Hq Hfit. unfold preConsume, the_info, the_session. do 8 wp_step.
  cbn [cx_info cx_session]. set (e := if shouldTrust _ _ _ _ then 0 else q).
  assert (He : 0 ≤ e ≤ q) by (unfold e; destruct (shouldTrust _ _ _ _); lia). clearbody e.
  wp_step. unfold set_session at 1. wp_step. wp_step.
  apply (wp_mono _ (λ r c1, r = Ok tt → cx_info c1 = i ∧ wallet_new i ((cx_session c1) <| bs_tokenConsumed := 0 |>) ∧
    bs_tokenConsumed (cx_session c1) = token_share i e ∧
    paid (ri_UserId i) (ri_TokenId i) 0 (token_share i e) (n + q) w (cx_world c1))).
  { wp_step.
    - wp_step. apply wp_coded, wp_on_world. cbn [cx_world].
      eapply wp_mono; [apply (wp_preconsume_token cfg (ri_UserId i) i e n); [done|lia..]|].
      intros r w1 [[-> Hp1]|[[er ->] ->]]; [|done]. unfold set_session. wp_step. intros _. cbn. split_and!; [done|by split| |].
      + rewrite Ht. unfold token_share. by destruct (ri_IsPlayground i).
      + eapply paid_eq; [exact Hp1|lia..].
    - wp_step. intros _. assert (e = 0) as -> by lia. cbn. rewrite token_share_0. split_and!; [done|by split|done|].
      eapply paid_eq; [by apply paid_refl|lia..]. }
  intros [[]|er] [w1 i1 s1] Hstep; [|done]. destruct (Hstep eq_refl) as (Hi & [Hf1 _ (H11 & H12 & H13)] & Ht1 & Hp1).
  cbn in *. subst i1. wp_step. wp_step. apply wp_on_world. rewrite Hf. cbn [PreConsume Funding_source WalletFunding_source cx_world].
  wp_step. eapply wp_mono; [apply (wp_wallet_preconsume _ (ri_TokenId i) e (n + q)); [by eapply paid_ready|lia]|].
  intros r w2 [[-> Hp2]|[[er ->] ->]].
  - wp_step. unfold set_session, syncRelayInfo. do 3 wp_step. intros _. exists e.
    set (s2 := s1 <| bs_funding := Wallet (mkWallet (ri_UserId i) e) |> <| bs_preConsumedQuota := e |>).
    destruct (synced_request s2 i) as (Hsr & HA & HR). pose proof Hsr as (Hu & _).
    split; [done|]. split; [|split; [exact Hsr|eapply paid_eq; [exact (paid_trans _ _ _ _ _ _ _ _ _ _ _ Hp1 Hp2)|lia..]]].
    change (wallet_open e (mkCtx w2 (synced s2 i) s2)).
    split; cbn [cx_info cx_session]; rewrite ?HA, ?HR, ?Hu, ?(token_share_same _ _ _ Hsr); try done; lia.
  - cbv beta iota. do 4 wp_step. wp_step.
    apply (wp_mono _ (λ _ _, True)); [done|]. intros [[]|?] ? _; [|done]. by wp_step.
Qed.

Section Open.
Context `{Decimals}.

Lemma sync_tiered_request i ratio b :
  same_request i (sync_tiered i ratio b) ∧
  ri_RealtimeActualQuota (sync_tiered i ratio b) = ri_RealtimeActualQuota i ∧
  ri_RealtimeReservedQuota (sync_tiered i ratio b) = ri_RealtimeReservedQuota i.
Proof. unfold sync_tiered. by destruct (tiered i). Qed.

Lemma restore_request i :
  same_request i (restoreOriginalBillingRatio i) ∧
  ri_RealtimeActualQuota (restoreOriginalBillingRatio i) = ri_RealtimeActualQuota i ∧
  ri_RealtimeReservedQuota (restoreOriginalBillingRatio i) = ri_RealtimeReservedQuota i.
Proof.
  unfold restoreOriginalBillingRatio. destruct (pd_HasOriginalGroupRatioInfo _); [|done]. cbn [negb].
  match goal with |- context [sync_tiered ?i' ?r ?b] => exact (sync_tiered_request i' r b) end.
Qed.

Lemma freeze_new i s f :
  wallet_new i s →
  wallet_new i (s <| bs_billingGroupRatioInfo := Some (pd_GroupRatioInfo (ri_PriceData i)) |> <| bs_tieredBillingTuple := f |>).
Proof. by intros [? ? ?]. Qed.

Lemma wp_try_wallet cfg tokenQuota quota q n w i s :
  fresh_request i → ready n w → 0 ≤ n → wallet_consume (restoreOriginalBillingRatio i) quota = q → 0 ≤ q →
  n + q ≤ max_int64 →
  wp (tryWallet cfg tokenQuota quota) (λ r c', r = Ok tt → opened q (n + q) w i c') (mkCtx w i s).
Proof.
  intros Hfr Hr Hn Hamt Hq Hfit. destruct (restore_request i) as (Hsr & HA & HR).
  unfold tryWallet, the_info. wp_step. unfold set_info at 1. wp_step. do 4 wp_step. cbn [cx_info update_field]. rewrite Hamt.
  unfold GetUserQuota. wp_step. apply wp_on_world. wp_step. wp_step. wp_step. cbn [cx_world].
  set (i1 := restoreOriginalBillingRatio i) in *. clearbody i1.
  wp_step. unfold set_info at 1. wp_step. wp_guard as H1; [done|]. wp_guard as H2; [done|].
  wp_step. unfold set_session at 1. wp_step. wp_step. unfold freezeBillingTuple, the_info, set_session. do 5 wp_step.
  set (i2 := i1 <| ri_UserQuota := from_option u_Quota 0 (by_id (ri_UserId i1) (users (w_db w))) |>).
  assert (Hsr2 : same_request i i2) by exact Hsr. pose proof Hsr2 as (Hu & Ht & _).
  eapply wp_mono.
  { apply (wp_preconsume_wallet cfg tokenQuota q n w i2); [by apply freeze_new| |done|lia..].
    unfold fresh_request. cbn. rewrite HA, HR. exact Hfr. }
  clearbody i2. intros r c' Hop Hok. destruct (Hop Hok) as (p & Hp & Ho & Hs & Hpaid). exists p.
  rewrite Hu, Ht, (token_share_same i i2) in Hpaid by done.
  split_and!; [lia|lia|done| |done]. exact (same_request_trans _ _ _ Hsr2 Hs).
Qed.
End Open.

(** ** The life of a wallet session *)

Section Life.
Context `{Decimals}.

(** The amounts of a session fit 64-bit integers with room to spare. *)
Definition affordable (n : Z) (i : RelayInfo) (quota : Z) (ops : list (Config * reserve_op)) (actual : Z) : Prop :=
  let q := wallet_consume (restoreOriginalBillingRatio i) quota in
  0 ≤ n ∧ 0 ≤ q ∧ 0 ≤ actual ∧ n + 3 * (q + sumZ (λ co, amount_of co.2) ops + actual) ≤ max_int64.

Lemma session_runs cfg tokenQuota quota ops actual n w i s c1 :
  fresh_request i → ready n w → affordable n i quota ops actual →
  tryWallet cfg tokenQuota quota (mkCtx w i s) = (Ok tt, c1) →
  let c2 := (run_reserves ops c1).2 in
  let total := wallet_consume (restoreOriginalBillingRatio i) quota + sumZ (λ co, amount_of co.2) ops in
  ∃ p, 0 ≤ p ≤ total ∧ wallet_open p c2 ∧ same_request i (cx_info c2) ∧
    paid (ri_UserId i) (ri_TokenId i) p (token_share i p) (n + total) w (cx_world c2).
Proof.
  intros Hfr Hr (Hn & Hq & Ha & Hfit) Hrun. cbv zeta.
  assert (Hrest : 0 ≤ sumZ (λ co, amount_of co.2) ops).
  { apply sumZ_nonneg, Forall_forall. intros co _. apply amount_of_nonneg. }
  set (q := wallet_consume _ _) in *.
  destruct (wp_run _ _ _ _ _ (wp_try_wallet cfg tokenQuota quota q n w i s Hfr Hr Hn eq_refl Hq ltac:(lia)) Hrun eq_refl)
    as (p & Hp & Ho & Hsr & Hpaid).
  destruct (wp_run_reserves ops p (n + q) c1 Ho) as (_ & p' & Hle & Hc);
    [by eapply paid_ready|lia..|]. exists p'.
  destruct Hc as [Ho' Hpaid' Hsr']. pose proof Hsr as (Hu & Ht & _).
  rewrite Hu, Ht, (token_share_same _ _ _ Hsr) in Hpaid'.
  split_and!; [lia|lia|exact Ho'|by eapply same_request_trans|].
  eapply paid_eq; [exact (paid_trans _ _ _ _ _ _ _ _ _ _ _ Hpaid Hpaid')|lia| |lia].
  rewrite <-token_share_add. f_equal. lia.
Qed.

(** C2: a wallet session charges exactly what the request cost.  However the
    estimate was charged when the session was opened (or waived for a trusted user),
    and whatever was reserved while the request ran, after the settlement the wallet
    of the user and the token have paid the actual quota (the token nothing for a
    playground request), no other balance has changed, with or without batch
    updates, and the session is closed: a second settlement or a refund does
    nothing. *)
Theorem wallet_session_settles cfg tokenQuota quota ops cfg' actual n w i s c1 :
  fresh_request i → package_id i ≤ 0 → ready n w → affordable n i quota ops actual →
  tryWallet cfg tokenQuota quota (mkCtx w i s) = (Ok tt, c1) →
  let c2 := (run_reserves ops c1).2 in
  let c3 := (Settle cfg' actual c2).2 in
  Settle cfg' actual c2 = (Ok tt, c3) ∧
  shifted w (cx_world c3) (at_key (0, 0, 0) (- actual, 0, 0) (ri_UserId i))
    (at_key 0 (- token_share i actual) (ri_TokenId i)) (λ _, 0) ∧
  (∀ cfg'' actual', Settle cfg'' actual' c3 = (Ok tt, c3)) ∧ Refund c3 = (Ok None, c3).
Proof.
  intros Hfr Hpk Hr Haff Hrun c2 c3. pose proof Haff as (Hn & Hq & Ha & Hfit).
  destruct (session_runs _ _ _ ops _ _ _ _ _ _ Hfr Hr Haff Hrun) as (p & Hp & Ho & Hsr & Hpaid). fold c2 in Ho, Hsr, Hpaid.
  pose proof Hsr as (Hu & Ht & _ & Hpkg).
  destruct (wp_settle cfg' actual p _ c2 Ho (paid_ready _ _ _ _ _ _ _ Hpaid)) as (Hres & Hset & Hpaid');
    [lia..|by unfold package_id in *; rewrite Hpkg|lia|lia|].
  fold c3 in Hset, Hpaid'. rewrite Hu, Ht, (token_share_same _ _ _ Hsr) in Hpaid'.
  split_and!; [by rewrite <-Hres; destruct (Settle cfg' actual c2)| | |by apply (settled_closed cfg' actual)].
  - eapply pa_shift, paid_eq; [exact (paid_trans _ _ _ _ _ _ _ _ _ _ _ Hpaid Hpaid')|lia| |done].
    rewrite <-token_share_add. f_equal. lia.
  - intros cfg'' actual'. by apply settled_closed.
Qed.

(** A session of the playground: it charges the wallet of the user but not the token, and
    [needsRefundLocked] looks at the token and at subscriptions only, so a refund starts
    no task. *)
Lemma playground_not_refunded cfg p c :
  wallet_open p c → ri_IsPlayground (cx_info c) = true → Refund c = (Ok None, c) ∧ refund_now cfg c = (Ok tt, c).
Proof.
  intros [Hf Hpre Htok Hfs Hset Hk _ _] Hpg. unfold token_share in Htok. rewrite Hpg in Htok.
  assert (Hno : Refund c = (Ok None, c)).
  { apply refund_none. unfold needsRefundLocked. by rewrite Hset, Hk, Hfs, Hf, Htok. }
  split; [done|]. unfold refund_now. by rewrite (bind_ok _ _ _ _ _ Hno).
Qed.

(** C9: a failed request costs nothing, unless it comes from the playground.  When a
    session that the wallet pays for is refunded, whatever was charged when it was opened
    and reserved while it ran, and the background task of the refund has run, every
    balance is what it was before the session was opened; a second refund does nothing.
    A request from the playground is not refunded: nothing changes, and the wallet, and no
    other balance, has paid everything the session charged. *)
Theorem wallet_session_refunds cfg tokenQuota quota ops cfg' n w i s c1 :
  fresh_request i → ready n w → affordable n i quota ops 0 →
  tryWallet cfg tokenQuota quota (mkCtx w i s) = (Ok tt, c1) →
  let c2 := (run_reserves ops c1).2 in
  let c3 := (refund_now cfg' c2).2 in
  (refund_now cfg' c2).1 = Ok tt ∧ Refund c3 = (Ok None, c3) ∧
  (ri_IsPlayground i = false → ∀ id,
     user_balance (cx_world c3) id = user_balance w id ∧ token_balance (cx_world c3) id = token_balance w id ∧
     channel_balance (cx_world c3) id = channel_balance w id) ∧
  (ri_IsPlayground i = true → c3 = c2 ∧
     shifted w (cx_world c3) (at_key (0, 0, 0) (- bs_preConsumedQuota (cx_session c2), 0, 0) (ri_UserId i))
       (λ _, 0) (λ _, 0)).
Proof.
  intros Hfr Hr Haff Hrun c2 c3. pose proof Haff as (Hn & Hq & Ha & Hfit).
  destruct (session_runs _ _ _ ops _ _ _ _ _ _ Hfr Hr Haff Hrun) as (p & Hp & Ho & Hsr & Hpaid). fold c2 in Ho, Hsr, Hpaid.
  pose proof Hsr as (Hu & Ht & Hpg' & _). destruct (ri_IsPlayground i) eqn:Hpg.
  - destruct (playground_not_refunded cfg' p c2 Ho Hpg') as [Hno Hnow].
    unfold c3. rewrite Hnow. cbn [fst snd]. split_and!; [done|done|done|]. intros _. split; [done|].
    rewrite (wo_pre _ _ Ho). eapply shifted_ext; [exact (pa_shift _ _ _ _ _ _ _ Hpaid)|done| |done].
    intros id. unfold at_key, token_share. rewrite Hpg. by case_decide.
  - destruct (wp_refund_now cfg' p _ c2 Ho ltac:(congruence) (paid_ready _ _ _ _ _ _ _ Hpaid)) as (Hres & Hno & Hpaid'); [lia..|].
    fold c3 in Hno, Hpaid'. rewrite Hu, Ht in Hpaid'. split_and!; [done|done| |done].
    destruct (pa_shift _ _ _ _ _ _ _ (paid_trans _ _ _ _ _ _ _ _ _ _ _ Hpaid Hpaid')) as [Su St Sc].
    intros _ id. rewrite Su, St, Sc. unfold at_key, token_share. rewrite Hpg, !Z.add_opp_diag_r. split_and!.
    + destruct (user_balance w id); [|done]. cbn. f_equal. unfold add_user3. case_decide; cbn; apply add_user_0.
    + destruct (token_balance w id); [|done]. cbn. f_equal. case_decide; cbn; apply add_token_0.
    + by destruct (channel_balance w id).
Qed.
End Life.

(** ** Sessions that cannot be opened *)

Definition int_store (st : gmap Z Z) : Prop := map_Forall (λ _ v, in_int64 v) st.

(** Nothing changes but the rows of tokens and what waits for them, and these keep
    their balances. *)
Record traceless (w w' : World) : Prop := {
  tr_db : (w_db w') <| tokens := tokens (w_db w) |> = w_db w;
  tr_stores : (w_stores w') <| bs_TokenQuota := bs_TokenQuota (w_stores w) |> = w_stores w;
  tr_tokens : ∀ id, token_balance w' id = token_balance w id;
  tr_int : int_store (bs_TokenQuota (w_stores w'));
}.

Lemma traceless_refl w : int_store (bs_TokenQuota (w_stores w)) → traceless w w.
Proof. destruct w as [[] []]. by split. Qed.
Lemma traceless_trans w w1 w2 : traceless w w1 → traceless w1 w2 → traceless w w2.
Proof.
  intros [Hd Hs Ht _] [Hd' Hs' Ht' Hi']. split; [| |intros id; by rewrite Ht', Ht|done].
  - rewrite <-Hd, <-Hd'. by destruct (w_db w2).
  - rewrite <-Hs, <-Hs'. by destruct (w_stores w2).
Qed.

Lemma roundtrip_int id q st : int_store st → int_store (add_to id q (add_to id (-! q) st)).
Proof.
  intros Hs. unfold add_to. destruct (st !! id); rewrite lookup_insert_eq;
    repeat apply map_Forall_insert_2; try done; apply wrap64_range.
Qed.

Lemma pending_roundtrip st id q i :
  int_store st → pending (add_to id q (add_to id (-! q) st)) i = pending st i.
Proof.
  intros Hs. unfold pending, add_to. destruct (st !! id) as [old|] eqn:E; rewrite lookup_insert_eq;
    (destruct (decide (i = id)) as [->|Hi]; [rewrite lookup_insert_eq, E|by rewrite !lookup_insert_ne]); cbn.
  - rewrite wrap64_wrap64_add. replace (old + wrap64 (- q) + q) with (wrap64 (- q) + (old + q)) by lia.
    rewrite wrap64_wrap64_add. replace (- q + (old + q)) with old by lia. apply wrap64_id. exact (Hs id old E).
  - rewrite wrap64_wrap64_add. by replace (- q + q) with 0 by lia.
Qed.

(** A token that is charged and credited again. *)
Lemma token_roundtrip cfg cfg' id q w w1 w2 :
  0 ≤ q → int_store (bs_TokenQuota (w_stores w)) → cf_batch cfg' = cf_batch cfg →
  DecreaseTokenQuota cfg id q w = (Ok tt, w1) → IncreaseTokenQuota cfg' id q w1 = (Ok tt, w2) → traceless w w2.
Proof.
  intros Hq Hs Hb. unfold DecreaseTokenQuota, IncreaseTokenQuota. rewrite Hb. destruct w as [db st].
  intros H1 H2. rewrite (bind_ok _ _ tt _ (mkWorld db st)) in H1 by (apply fail_if_pass; lia).
  rewrite (bind_ok _ _ tt _ w1) in H2 by (apply fail_if_pass; lia).
  destruct (cf_batch cfg); cbn in H1; injection H1 as <-; cbn in H2; injection H2 as <-; cbn in Hs.
  - split; [by destruct db|by destruct st| |by apply roundtrip_int].
    intros i. unfold token_balance. cbn -[pending add_to]. by rewrite pending_roundtrip.
  - split; [by destruct db|by destruct st| |done].
    intros i. unfold token_balance, token_view. cbn -[pending by_id update_where].
    rewrite !by_id_tokens by done. destruct (by_id _ (tokens db)) as [t|]; cbn -[pending]; [|done].
    case_decide; cbn -[pending]; [|done]. unfold add_token. cbn -[pending]. do 2 f_equal; lia.
Qed.

(** A computation that changes nothing when it fails. *)
Definition atomic {S A} (m : M S A) : Prop := ∀ s, wp m (λ r s', match r with Ok _ => True | Err _ => s' = s end) s.

Lemma atomic_run {S A} (m : M S A) s e s' : atomic m → m s = (Err e, s') → s' = s.
Proof. intros Hm. exact (wp_run _ _ _ _ _ (Hm s)). Qed.
Lemma atomic_guard {S A} P `{Decision P} e (m : M S A) : atomic m → atomic (_ ← fail_if P e; m).
Proof. intros Hm s. wp_guard as Hp; [done|apply Hm]. Qed.
Lemma atomic_transaction {S A} (m : M S A) : atomic (transaction m).
Proof. intros s. wp_step. unfold wp. by destruct (m s) as [[] ?]. Qed.
Lemma atomic_on_db {A} (m : Tx A) : atomic m → atomic (on_db m).
Proof.
  intros Hm [db st]. specialize (Hm db). unfold wp, on_db in *. cbn in *. destruct (m db) as [[] db']; cbn in *; [done|]. by subst.
Qed.

Lemma atomic_wallet cfg f amount : atomic (WalletFunding_PreConsume f amount) ∧ atomic (PreConsume cfg (Wallet f) amount).
Proof.
  assert (Ha : atomic (WalletFunding_PreConsume f amount)).
  { intros w. unfold WalletFunding_PreConsume. wp_step; [by wp_step|]. wp_step. unfold DecreaseUserQuotaIfEnough.
    wp_guard as _; [done|]. wp_step; [by wp_steps|]. wp_guard as _; [done|]. apply wp_on_db. do 5 wp_step; [|by wp_step].
    rewrite (enough_none _ _ (w_db w)) by done. by destruct w. }
  split; [done|]. intros w. cbn [PreConsume Funding_source WalletFunding_source]. wp_step.
  eapply wp_mono; [apply Ha|]. intros [] w' Hw; [by wp_step|done].
Qed.

Lemma atomic_subscription cfg f amount : atomic (PreConsume cfg (Subscription f) amount).
Proof.
  intros w. cbn [PreConsume Funding_source SubscriptionFunding_source]. wp_step. unfold SubscriptionFunding_PreConsume. wp_step.
  eapply wp_mono.
  { apply atomic_on_db. case_decide.
    - unfold PreConsumeValuePackageSubscription. repeat apply atomic_guard. apply atomic_transaction.
    - unfold PreConsumeUserSubscription. repeat apply atomic_guard. apply atomic_transaction. }
  intros [] w' Hw; [|done]. cbv beta. do 2 wp_step. unfold wp at 1. by wp_steps.
Qed.

Lemma atomic_preconsume cfg f amount : atomic (PreConsume cfg f amount).
Proof. destruct f; [apply atomic_wallet|apply atomic_subscription]. Qed.

Lemma token_changes_ok cfg id q w :
  0 ≤ q → (∃ w', DecreaseTokenQuota cfg id q w = (Ok tt, w')) ∧ (∃ w', IncreaseTokenQuota cfg id q w = (Ok tt, w')).
Proof.
  intros Hq. unfold DecreaseTokenQuota, IncreaseTokenQuota.
  rewrite !(bind_ok _ _ tt _ w) by (apply fail_if_pass; lia). destruct (cf_batch cfg); split; by eexists.
Qed.

(** What the failure of an attempt to open a session leaves. *)
Definition clean {A} (w : World) (r : result A) (c : Ctx) : Prop :=
  match r with Ok _ => True | Err _ => traceless w (cx_world c) end.

Lemma clean_after {A} (m : B A) w c :
  traceless w (cx_world c) → wp m (clean (cx_world c)) c → wp m (clean w) c.
Proof. intros Hw Hm. eapply wp_mono; [exact Hm|]. intros [] c' Hc; [done|]. by eapply traceless_trans. Qed.

(** The token's part of [preConsume]. *)
Definition token_taken (cfg : Config) (w : World) (i : RelayInfo) (f : Funding) (c : Ctx) : Prop :=
  cx_info c = i ∧ bs_funding (cx_session c) = f ∧
  (cx_world c = w ∧ (bs_tokenConsumed (cx_session c) = 0 ∨ ri_IsPlayground i = true) ∨
   ∃ e, 0 < e ∧ ri_IsPlayground i = false ∧ bs_tokenConsumed (cx_session c) = e ∧
     DecreaseTokenQuota cfg (ri_TokenId i) e w = (Ok tt, cx_world c)).

Lemma wp_token_taken cfg i e w :
  0 < e →
  wp (PreConsumeTokenQuota cfg i e) (λ r w', match r with
    | Ok _ => if ri_IsPlayground i then w' = w else DecreaseTokenQuota cfg (ri_TokenId i) e w = (Ok tt, w')
    | Err _ => w' = w
    end) w.
Proof.
  intros He. unfold PreConsumeTokenQuota. wp_pass. destruct (ri_IsPlayground i); [by wp_step|].
  unfold GetTokenByKey. do 4 wp_step; [|done]. wp_guard as _; [done|].
  destruct (proj1 (token_changes_ok cfg (ri_TokenId i) e w ltac:(lia))) as [w' Hw']. unfold wp. by rewrite Hw'.
Qed.

Lemma wp_give_back cfg w i f c er :
  int_store (bs_TokenQuota (w_stores w)) → token_taken cfg w i f c →
  wp (s ← the_session;
      _ ← (if decide (bs_tokenConsumed s > 0 ∧ ri_IsPlayground i = false) then
             _ ← attempt (on_world (IncreaseTokenQuota cfg (ri_TokenId i) (bs_tokenConsumed s)));
             set_session (λ s, s <| bs_tokenConsumed := 0 |>)
           else mret tt);
      throw er) (clean (A := ()) w) c.
Proof.
  intros Hs (_ & _ & [[Hw Ht]|(e & He & Hpg & Ht & Hdec)]); unfold the_session; do 4 wp_step; wp_step; wp_step.
  - destruct Ht; lia || naive_solver congruence.
  - wp_steps. cbn. rewrite Hw. by apply traceless_refl.
  - wp_step. apply wp_attempt, wp_on_world. rewrite Ht.
    destruct (proj2 (token_changes_ok cfg (ri_TokenId i) e (cx_world c) ltac:(lia))) as [w2 Hinc].
    unfold wp at 1. rewrite Hinc. cbn. unfold set_session. wp_steps. cbn.
    by apply (token_roundtrip cfg cfg (ri_TokenId i) e w (cx_world c)); [lia|..].
  - exfalso. rewrite Ht in *. lia || naive_solver lia.
Qed.

Lemma wp_preconsume_clean cfg tokenQuota quota w i s :
  int_store (bs_TokenQuota (w_stores w)) → bs_tokenConsumed s = 0 →
  wp (preConsume cfg tokenQuota quota) (clean w) (mkCtx w i s).
Proof.
  intros Hs Ht. unfold preConsume, the_info, the_session. do 8 wp_step.
  set (e := if shouldTrust _ _ _ _ then 0 else quota). wp_step. unfold set_session at 1. wp_step. wp_step.
  apply (wp_mono _ (λ r c, match r with Ok _ => token_taken cfg w i (bs_funding s) c | Err _ => cx_world c = w end)).
  { wp_step; [|wp_step; by split_and!; [..|left; split; [|left]]].
    wp_step. apply wp_coded, wp_on_world. cbn [cx_world cx_info].
    eapply wp_mono; [apply wp_token_taken; lia|]. intros [[]|er] w1 Hw1; [|exact Hw1].
    unfold set_session. wp_step. split_and!; [done..|]. cbn.
    destruct (ri_IsPlayground i) eqn:Hpg; [by left; split; [|right]|right]. exists e. split_and!; [lia|done..]. }
  intros [[]|er] c Hc; [|cbn; rewrite Hc; by apply traceless_refl].
  wp_step. wp_step. apply wp_on_world. eapply wp_mono; [apply atomic_preconsume|].
  intros [f'|er] w' Hw'; [unfold set_session, syncRelayInfo; by wp_steps|]. cbn [cx_info cx_session].
  apply (wp_give_back cfg w i (bs_funding s)); [done|]. subst w'. by destruct c.
Qed.

Section NoTrace.
Context `{Decimals}.

Lemma wp_try_wallet_clean cfg tokenQuota quota w i s :
  int_store (bs_TokenQuota (w_stores w)) → wp (tryWallet cfg tokenQuota quota) (clean w) (mkCtx w i s).
Proof.
  intros Hs. pose proof (traceless_refl w Hs) as Hrefl.
  unfold tryWallet, set_info, the_info, GetUserQuota. do 6 wp_step. wp_step. apply wp_on_world. do 3 wp_step.
  wp_step. wp_step. wp_guard as _; [done|]. wp_guard as _; [done|]. unfold set_session at 1. wp_step. wp_step. wp_step.
  unfold freezeBillingTuple, the_info, set_session. do 5 wp_step. by apply wp_preconsume_clean.
Qed.

Lemma fresh_subscription i package amount : bs_tokenConsumed (subscription_session i package amount) = 0.
Proof. unfold subscription_session. by destruct (resolveSubscriptionBillingRatio i). Qed.

Lemma wp_open_clean i amount w c : wp (open_subscription i amount) (clean w) c.
Proof.
  unfold open_subscription. destruct (resolveSubscriptionBillingRatio i).
  unfold set_info, set_session, freezeBillingTuple, the_info, syncRelayInfo, set_session. by wp_steps.
Qed.

(** The charge both kinds of subscription start with. *)
Lemma wp_charge_clean cfg tokenQuota amount package i Q w s :
  int_store (bs_TokenQuota (w_stores w)) →
  (∀ r c', clean w r c' → Q (Ok r) c') →
  wp (attempt (preConsume cfg tokenQuota amount)) Q (mkCtx w i (subscription_session i package s)).
Proof.
  intros Hs HQ. wp_step. eapply wp_mono; [apply wp_preconsume_clean; [done|apply fresh_subscription]|]. apply HQ.
Qed.

Lemma wp_try_subscription_clean cfg tokenQuota quota w i s :
  int_store (bs_TokenQuota (w_stores w)) → wp (trySubscription cfg tokenQuota quota) (clean w) (mkCtx w i s).
Proof.
  intros Hs. unfold trySubscription, the_info, set_session. do 6 wp_step. wp_step. apply wp_charge_clean; [done|].
  intros [[]|er] c' Hc; [apply wp_open_clean|]. unfold set_info. by wp_steps.
Qed.

Lemma wp_try_package_clean groups cfg tokenQuota quota w i s :
  int_store (bs_TokenQuota (w_stores w)) → wp (tryPackage groups cfg tokenQuota quota) (clean w) (mkCtx w i s).
Proof.
  intros Hs. unfold tryPackage, the_info, set_session. do 6 wp_step. wp_step. apply wp_charge_clean; [done|].
  intros [[]|er] [w1 i1 s1] Hc; [apply wp_open_clean|]. wp_step; [|by wp_steps]. unfold set_info. wp_step. wp_step.
  apply clean_after; [done|]. by apply wp_try_wallet_clean, (tr_int w).
Qed.

Lemma wp_or_else_clean (m m' : B ()) w c :
  wp m (clean w) c → (∀ w1 i1 s1, traceless w w1 → wp m' (clean w1) (mkCtx w1 i1 s1)) → wp (or_else m m') (clean w) c.
Proof.
  intros Hm Hm'. unfold or_else. wp_step. wp_step. eapply wp_mono; [exact Hm|].
  intros [[]|er] [w1 i1 s1] Hc; [by wp_step|]. wp_step; [|by wp_step]. by apply clean_after, Hm'.
Qed.

(** C8: a request that is turned away costs nothing.  Whatever the preference of
    the user, the value package of the request and the fallbacks tried on the way,
    when no session can be opened every balance (the token's included, although it
    is charged first), every subscription, usage record and pending update is what
    it was before. *)
Theorem failed_open_traceless groups cfg tokenQuota quota c e c' :
  int_store (bs_TokenQuota (w_stores (cx_world c))) →
  NewBillingSession groups cfg tokenQuota quota c = (Err e, c') → traceless (cx_world c) (cx_world c').
Proof.
  intros Hs Hrun. refine (wp_run _ (clean (cx_world c)) _ _ _ _ Hrun). clear Hrun. destruct c as [[db st] i s]. cbn in Hs.
  unfold NewBillingSession, the_info. do 4 wp_step.
  wp_step; [by apply wp_try_wallet_clean|]. wp_step; [by apply wp_try_package_clean|].
  wp_step; [by apply wp_try_subscription_clean|]. wp_step; [by apply wp_try_wallet_clean|].
  wp_step; [apply wp_or_else_clean; [by apply wp_try_wallet_clean|
    intros w1 i1 s1 H1; by apply wp_try_subscription_clean, (tr_int (mkWorld db st))]|].
  wp_step. apply wp_coded, wp_on_world, wp_on_db. unfold HasActiveUserSubscription. wp_guard as _; [by apply traceless_refl|].
  do 3 wp_step. destruct (existsb _ _).
  - apply wp_or_else_clean; [by apply wp_try_subscription_clean|].
    intros w1 i1 s1 H1. by apply wp_try_wallet_clean, (tr_int (mkWorld db st)).
  - by apply wp_try_wallet_clean.
Qed.
End NoTrace.

(** ** Examples *)

(** Decimals rounded to integers, enough for the whole numbers below. *)
Local Instance whole_decimals : Decimals := {|
  Decimal := Z; NewFromFloat := int_of_float; NewFromInt := id; Mul := Z.mul; Div := Z.div; Add := Z.add; Sub := Z.sub;
  LessThanOrEqual := Z.leb; IntPart := id;
  IsZero := Z.eqb 0; Ceil := id; Round d _ := d; Float64 := float_of_int |}.

Definition session_cfg : Config := mkConfig wallet_env true.
Definition session_price : PriceData :=
  no_price <| pd_QuotaToPreConsume := 100 |> <| pd_QuotaBeforeGroup := float_of_int 100 |>
           <| pd_GroupRatioInfo := mkRatio float_one float_minus_one false |>.
Definition session_request (playground : bool) (package : Z) : RelayInfo :=
  mkRelay 7 "sk" 1 "default" "" "default" "default" "" false playground "wallet_first" 0 0 0 0 false "" "req-1" None
    (mkSubInfo 0 0 0 0 "" 0 0) (mkPackageInfo package 0 "" "" "" true false) session_price None no_call.
Definition session_start (i : RelayInfo) : Ctx :=
  mkCtx (mkWorld wallet_db empty_stores) i (new_session (Wallet (mkWallet 0 0)) float_zero "" "").
Definition session_ops : list (Config * reserve_op) := [(session_cfg, ReserveTo 150); (session_cfg, ReserveMore 170)].

(** The session of the request after it was opened, and after the reservations. *)
Definition session_opened (playground : bool) : Ctx := (tryWallet session_cfg 300 100 (session_start (session_request playground 0))).2.
Definition session_reserved : Ctx := (run_reserves session_ops (session_opened false)).2.

Lemma session_ready : ready 0 (mkWorld wallet_db empty_stores).
Proof. split; [done|]. vm_compute. repeat constructor; set_solver. Qed.

Lemma wallet_session_settles_witness :
  Settle session_cfg 120 session_reserved = (Ok tt, (Settle session_cfg 120 session_reserved).2) ∧
  (user_balance (cx_world session_reserved) 1, token_balance (cx_world session_reserved) 7) =
    (Some (330, 0, 0), Some (130, 170)) ∧
  (user_balance (cx_world (Settle session_cfg 120 session_reserved).2) 1,
   token_balance (cx_world (Settle session_cfg 120 session_reserved).2) 7) = (Some (380, 0, 0), Some (180, 120)).
Proof.
  split; [|split; vm_compute; reflexivity].
  refine (proj1 (wallet_session_settles session_cfg 300 100 session_ops session_cfg 120 0 (mkWorld wallet_db empty_stores)
    (session_request false 0) (cx_session (session_start (session_request false 0))) (session_opened false) _ _ _ _ _)).
  - by split.
  - by vm_compute.
  - exact session_ready.
  - vm_compute. repeat split; discriminate.
  - vm_compute. reflexivity.
Defined.

Lemma wallet_session_refunds_witness :
  (refund_now session_cfg session_reserved).1 = Ok tt ∧
  (user_balance (cx_world (refund_now session_cfg session_reserved).2) 1,
   token_balance (cx_world (refund_now session_cfg session_reserved).2) 7) = (Some (500, 0, 0), Some (300, 0)).
Proof.
  split; [|vm_compute; reflexivity].
  refine (proj1 (wallet_session_refunds session_cfg 300 100 session_ops session_cfg 0 (mkWorld wallet_db empty_stores)
    (session_request false 0) (cx_session (session_start (session_request false 0))) (session_opened false) _ _ _ _)).
  - by split.
  - exact session_ready.
  - vm_compute. repeat split; discriminate.
  - vm_compute. reflexivity.
Defined.

(** The failed request of a playground: the refund does nothing, and 100 are lost. *)
Lemma playground_refund_lost :
  Refund (session_opened true) = (Ok None, session_opened true) ∧
  (user_balance (cx_world (session_opened true)) 1, token_balance (cx_world (session_opened true)) 7) =
    (Some (400, 0, 0), Some (300, 0)).
Proof. split; vm_compute; reflexivity. Qed.

(** A package that does not exist, with the wallet as fallback, and a request that
    costs more than the wallet holds: the token is charged and credited, the package
    refuses, and then the wallet does. *)
Definition failed_start : Ctx :=
  session_start ((session_request false 5) <| ri_TokenUnlimited := true |>
    <| ri_PriceData ::= λ p, p <| pd_QuotaBeforeGroup := float_of_int 600 |> |>).
Definition failed_open : result () * Ctx := NewBillingSession initial_groups session_cfg 300 600 failed_start.

Lemma failed_open_traceless_witness :
  ∃ e, failed_open.1 = Err e ∧ GetErrorCode e = ErrorCodeInsufficientUserQuota ∧
    traceless (mkWorld wallet_db empty_stores) (cx_world failed_open.2).
Proof.
  exists (api_error ErrorCodeInsufficientUserQuota (ErrNew "预扣费额度失败")). split; [vm_compute; reflexivity|].
  split; [reflexivity|].
  refine (failed_open_traceless initial_groups session_cfg 300 600 failed_start _ failed_open.2 _ _).
  - apply map_Forall_empty.
  - vm_compute. reflexivity.
Defined.
