(* ===== verification/Quotas.v ===== *)
(** * The cost of a request

    [service/text_quota.go], [service/tiered_settle.go], [service/tool_billing.go],
    [service/violation_fee.go] and the parts of [service/quota.go] that turn the tokens
    of a response into quota and settle it: text, audio and realtime requests, prices that
    are expressions, tool calls and the fee for refused content.  The usage log keeps the
    columns that say who paid what; the other columns, system logs and metrics are left out. *)
From S2P Require Import Prelude Tables GoTime Schema Plans Windows Cycles Consume Accounting Ledger Preferences Cards Purchases Lifecycle Wallet GoFloat GoDecimal PriceTables Groups Channels Ratios Expressions Prices Billing.

(** ** Definitions *)

Record InputTokenDetails := mkIn {
  CachedTokens : Z; CachedCreationTokens : Z; in_TextTokens : Z; in_AudioTokens : Z; in_ImageTokens : Z;
}.
Record OutputTokenDetails := mkOut { out_TextTokens : Z; out_AudioTokens : Z; out_ImageTokens : Z }.

(** A value of the type [any], as far as the code tells them apart. *)
Inductive any := AnyNil | AnyInt (n : Z) | AnyFloat (x : float64) | AnyOther.

Record Usage := mkUsageTokens {
  ug_PromptTokens : Z;
  ug_CompletionTokens : Z;
  ug_TotalTokens : Z;
  ug_UsageSemantic : string;
  ug_UsageSource : string;
  ug_PromptTokensDetails : InputTokenDetails;
  ug_CompletionTokenDetails : OutputTokenDetails;
  ug_ClaudeCacheCreation5mTokens : Z;
  ug_ClaudeCacheCreation1hTokens : Z;
  ug_Cost : any;
}.
Global Instance Usage_eta : Settable Usage := λ u,
  mkUsageTokens (ug_PromptTokens u) (ug_CompletionTokens u) (ug_TotalTokens u) (ug_UsageSemantic u) (ug_UsageSource u)
    (ug_PromptTokensDetails u) (ug_CompletionTokenDetails u) (ug_ClaudeCacheCreation5mTokens u)
    (ug_ClaudeCacheCreation1hTokens u) (ug_Cost u).
Definition no_usage : Usage := mkUsageTokens 0 0 0 "" "" (mkIn 0 0 0 0 0) (mkOut 0 0 0) 0 0 AnyNil.

Record RealtimeUsage := mkRealtime {
  ru_TotalTokens : Z; ru_InputTokens : Z; ru_OutputTokens : Z;
  ru_InputTokenDetails : InputTokenDetails; ru_OutputTokenDetails : OutputTokenDetails;
}.

(** What the relay left in the context of the request. *)
Record TextContext := mkTextContext {
  claude_web_search_requests : Z;
  image_generation_call : bool;
  image_generation_call_quality : string;
  image_generation_call_size : string;
}.

Definition ChannelTypeOpenRouter := 20.
Definition RelayFormatClaude := "claude".
Definition BuildInToolWebSearchPreview := "web_search_preview".
Definition BuildInToolFileSearch := "file_search".

Definition GetFinalRequestRelayFormat (info : RelayInfo) : string :=
  let call := ri_Call info in
  if decide (ri_FinalRequestRelayFormat call ≠ "") then ri_FinalRequestRelayFormat call
  else default (ri_RelayFormat call) (last (ri_RequestConversionChain call)).

Definition usageSemanticFromUsage (info : RelayInfo) (usage : option Usage) : string :=
  let rest := if decide (GetFinalRequestRelayFormat info = RelayFormatClaude) then "anthropic" else "openai" in
  match usage with
  | Some usage => if decide (ug_UsageSemantic usage ≠ "") then ug_UsageSemantic usage else rest
  | None => rest
  end.

Definition isLegacyClaudeDerivedOpenAIUsage (info : RelayInfo) (usage : Usage) : bool :=
  if decide (GetFinalRequestRelayFormat info = RelayFormatClaude) then false
  else if decide (ug_UsageSource usage ≠ "" ∨ ug_UsageSemantic usage ≠ "") then false
  else bool_decide (ug_ClaudeCacheCreation5mTokens usage > 0 ∨ ug_ClaudeCacheCreation1hTokens usage > 0).

Definition hasCustomModelRatio (modelName : string) (currentRatio : float64) : bool :=
  match map_literal defaultModelRatio !! modelName with
  | None => true
  | Some defaultRatio => negb (currentRatio =? defaultRatio)%float
  end.

(** [usage.Cost != 0]: the constant is an [int], so only an [int] can be equal to it. *)
Definition cost_not_zero (cost : any) : bool := match cost with AnyInt 0 => false | _ => true end.

Definition CalcOpenRouterCacheCreateTokens (s : PriceSettings) (usage : Usage) (priceData : PriceData) : Z :=
  if (pd_CacheCreationRatio priceData =? float_one)%float then 0
  else
    let quotaPrice := float_div (pd_ModelRatio priceData) (QuotaPerUnit s) in
    let promptCacheCreatePrice := float_mul quotaPrice (pd_CacheCreationRatio priceData) in
    let promptCacheReadPrice := float_mul quotaPrice (pd_CacheRatio priceData) in
    let completionPrice := float_mul quotaPrice (pd_CompletionRatio priceData) in
    let cost := match ug_Cost usage with AnyFloat x => x | _ => float_zero end in
    let totalPromptTokens := float_of_int (ug_PromptTokens usage) in
    let completionTokens := float_of_int (ug_CompletionTokens usage) in
    let promptCacheReadTokens := float_of_int (CachedTokens (ug_PromptTokensDetails usage)) in
    int_of_float (math_Round (float_div
      (float_sub (float_add (float_sub cost (float_mul totalPromptTokens quotaPrice))
                            (float_mul promptCacheReadTokens (float_sub quotaPrice promptCacheReadPrice)))
                 (float_mul completionTokens completionPrice))
      (float_sub promptCacheCreatePrice quotaPrice))).

(** *** Expressions *)

Definition BuildTieredTokenParams (usage : Usage) (isClaudeUsageSemantic : bool) (usedVars : list string) : TokenParams :=
  let details := ug_PromptTokensDetails usage in
  let p := float_of_int (ug_PromptTokens usage) in
  let c := float_of_int (ug_CompletionTokens usage) in
  let cr := float_of_int (CachedTokens details) in
  let cc5m := float_of_int (if isClaudeUsageSemantic then ug_ClaudeCacheCreation5mTokens usage else CachedCreationTokens details) in
  let cc1h := if isClaudeUsageSemantic then float_of_int (ug_ClaudeCacheCreation1hTokens usage) else float_zero in
  let img := float_of_int (in_ImageTokens details) in
  let ai := float_of_int (in_AudioTokens details) in
  let imgO := float_of_int (out_ImageTokens (ug_CompletionTokenDetails usage)) in
  let ao := float_of_int (out_AudioTokens (ug_CompletionTokenDetails usage)) in
  let inputLen := if isClaudeUsageSemantic then float_add (float_add (float_add p cr) cc5m) cc1h else p in
  let less name amount x :=
    if negb isClaudeUsageSemantic && bool_decide (name ∈ usedVars) then float_sub x amount else x in
  let p := less "ai" ai (less "img" img (less "cc1h" cc1h (less "cc" cc5m (less "cr" cr p)))) in
  let c := less "ao" ao (less "img_o" imgO c) in
  let floor_zero x := if (x <? float_zero)%float then float_zero else x in
  mkTokens (floor_zero p) (floor_zero c) inputLen cr cc5m cc1h img imgO ai ao.

Section Settle.
Context {Engine : ExprEngine} (shuffle : ∀ A, list A → list A) (now : Z).

(** The answer is the quota, with the result of the expression if it ran. *)
Definition TryTieredSettle (info : RelayInfo) (params : TokenParams) : M ExprCache (option (Z * option TieredResult)) :=
  match tiered info with
  | None => mret None
  | Some snap =>
    let requestInput := default (mkInput ∅ "") (ri_BillingRequestInput (ri_Call info)) in
    r ← attempt (ComputeTieredQuotaWithRequest shuffle now snap params requestInput);
    match r with
    | Err _ =>
      let quota := ri_FinalPreConsumedQuota info in
      let quota := if decide (quota ≤ 0) then tb_EstimatedQuotaAfterGroup snap else quota in
      mret (Some (quota, None))
    | Ok tr => mret (Some (ActualQuotaAfterGroup tr, Some tr))
    end
  end.
End Settle.

(** *** Text *)

Section Text.
Context {D : Decimals} (shuffle : ∀ A, list A → list A) (s : PriceSettings) (idx : toolPriceIndex).

(** [decimal.Zero], the zero value of the type. *)
Definition decimal_Zero : Decimal := NewFromInt 0.

Record textQuotaSummary := mkSummary {
  sm_PromptTokens : Z;
  sm_CompletionTokens : Z;
  sm_TotalTokens : Z;
  sm_CacheTokens : Z;
  sm_CacheCreationTokens : Z;
  sm_CacheCreationTokens5m : Z;
  sm_CacheCreationTokens1h : Z;
  sm_ImageTokens : Z;
  sm_AudioTokens : Z;
  sm_Quota : Z;
  sm_IsClaudeUsageSemantic : bool;
  sm_WebSearchCallCount : Z;
  sm_ClaudeWebSearchCallCount : Z;
  sm_FileSearchCallCount : Z;
  sm_AudioInputPrice : float64;
  sm_ToolCallSurchargeQuota : Decimal;
}.
Global Instance textQuotaSummary_eta : Settable textQuotaSummary := λ x,
  mkSummary (sm_PromptTokens x) (sm_CompletionTokens x) (sm_TotalTokens x) (sm_CacheTokens x)
    (sm_CacheCreationTokens x) (sm_CacheCreationTokens5m x) (sm_CacheCreationTokens1h x) (sm_ImageTokens x)
    (sm_AudioTokens x) (sm_Quota x) (sm_IsClaudeUsageSemantic x) (sm_WebSearchCallCount x)
    (sm_ClaudeWebSearchCallCount x) (sm_FileSearchCallCount x) (sm_AudioInputPrice x) (sm_ToolCallSurchargeQuota x).

Definition cacheWriteTokensTotal (summary : textQuotaSummary) : Z :=
  if decide (sm_CacheCreationTokens5m summary > 0 ∨ sm_CacheCreationTokens1h summary > 0) then
    let splitCacheWriteTokens := (sm_CacheCreationTokens5m summary +! sm_CacheCreationTokens1h summary)%go in
    if decide (sm_CacheCreationTokens summary > splitCacheWriteTokens) then sm_CacheCreationTokens summary
    else splitCacheWriteTokens
  else sm_CacheCreationTokens summary.

(** The surcharge for tool calls, and the counts of web and file searches. *)
Definition calculateTextToolCallSurcharge (ctx : TextContext) (info : RelayInfo) : Decimal * (Z * Z * Z) :=
  let modelName := ri_OriginModelName (ri_Call info) in
  let dGroupRatio := NewFromFloat (gr_GroupRatio (pd_GroupRatioInfo (ri_PriceData info))) in
  let dQuotaPerUnit := NewFromFloat (QuotaPerUnit s) in
  let in_quota d := Mul (Mul d dGroupRatio) dQuotaPerUnit in
  let calls tool := match ri_ResponsesUsageInfo (ri_Call info) with
                    | Some tools => default 0 (tools !! tool)
                    | None => 0
                    end in
  let '(surcharge, webSearches) :=
    match ri_ResponsesUsageInfo (ri_Call info) with
    | Some _ =>
      let n := calls BuildInToolWebSearchPreview in
      if decide (n > 0) then
        (Add decimal_Zero (in_quota (Div (Mul (NewFromFloat (GetToolPriceForModel idx "web_search_preview" modelName)) (NewFromInt n))
                                         (NewFromInt 1000))), n)
      else (decimal_Zero, 0)
    | None =>
      if HasSuffix modelName "search-preview" then
        (Add decimal_Zero (in_quota (Div (NewFromFloat (GetToolPriceForModel idx "web_search_preview" modelName)) (NewFromInt 1000))), 1)
      else (decimal_Zero, 0)
    end in
  let claudeSearches := claude_web_search_requests ctx in
  let surcharge :=
    if decide (claudeSearches > 0) then
      Add surcharge (Mul (in_quota (Div (NewFromFloat (GetToolPrice idx "web_search")) (NewFromInt 1000))) (NewFromInt claudeSearches))
    else surcharge in
  let fileSearches := calls BuildInToolFileSearch in
  let surcharge :=
    if decide (fileSearches > 0) then
      Add surcharge (in_quota (Div (Mul (NewFromFloat (GetToolPrice idx "file_search")) (NewFromInt fileSearches)) (NewFromInt 1000)))
    else surcharge in
  let surcharge :=
    if image_generation_call ctx then
      Add surcharge (in_quota (NewFromFloat (GetGPTImage1PriceOnceCall (image_generation_call_quality ctx) (image_generation_call_size ctx))))
    else surcharge in
  (surcharge, (webSearches, claudeSearches, Z.max 0 fileSearches)).

(** The tokens of a response: an answer without usage counts as the estimated prompt, and
    an OpenRouter answer in Claude's terms reports cached tokens within the prompt. *)
Definition reported (info : RelayInfo) (usage : option Usage) : Usage :=
  let estimate := ri_estimatePromptTokens (ri_Call info) in
  default (no_usage <| ug_PromptTokens := estimate |> <| ug_TotalTokens := estimate |>) usage.

Definition openrouter_claude (info : RelayInfo) (usage : option Usage) : bool :=
  match ri_ChannelMeta (ri_Call info) with
  | Some meta => bool_decide (cm_ChannelType meta = ChannelTypeOpenRouter ∧ usageSemanticFromUsage info usage = "anthropic")
  | None => false
  end.

Definition initial_summary (info : RelayInfo) (usage : option Usage) : textQuotaSummary :=
  let usage' := reported info usage in
  let details := ug_PromptTokensDetails usage' in
  let priceData := ri_PriceData info in
  let cached := CachedTokens details in
  let created := CachedCreationTokens details in
  let '(prompt, created) :=
    if openrouter_claude info usage then
      let prompt := (ug_PromptTokens usage' -! cached)%go in
      let isUsingCustomSettings :=
        pd_UsePrice priceData || hasCustomModelRatio (ri_OriginModelName (ri_Call info)) (pd_ModelRatio priceData) in
      let created :=
        if bool_decide (created = 0) && negb (pd_CacheCreationRatio priceData =? float_one)%float &&
           cost_not_zero (ug_Cost usage') && negb isUsingCustomSettings then
          let maybe := CalcOpenRouterCacheCreateTokens s usage' priceData in
          if decide (0 ≤ maybe ∧ maybe ≤ prompt) then maybe else created
        else created in
      ((prompt -! created)%go, created)
    else (ug_PromptTokens usage', created) in
  mkSummary prompt (ug_CompletionTokens usage') (ug_PromptTokens usage' +! ug_CompletionTokens usage')%go cached created
    (ug_ClaudeCacheCreation5mTokens usage') (ug_ClaudeCacheCreation1hTokens usage') (in_ImageTokens details)
    (in_AudioTokens details) 0 (bool_decide (usageSemanticFromUsage info usage = "anthropic")) 0 0 0 float_zero decimal_Zero.

Definition times_other_ratios (priceData : PriceData) (quota : Decimal) : Decimal :=
  foldl (λ quota '(_, otherRatio), Mul quota (NewFromFloat otherRatio)) quota
    (shuffle _ (map_to_list (pd_OtherRatios priceData))).

(** The weighted tokens of a prompt, and the quota of audio that is priced on its own. *)
Definition prompt_tokens (info : RelayInfo) (legacyClaudeDerived : bool) (summary : textQuotaSummary) : Decimal * Decimal :=
  let priceData := ri_PriceData info in
  let ratio x := NewFromFloat (x priceData) in
  let claude := sm_IsClaudeUsageSemantic summary || legacyClaudeDerived in
  let dCacheTokens := NewFromInt (sm_CacheTokens summary) in
  let dCachedCreationTokens := NewFromInt (sm_CacheCreationTokens summary) in
  let dImageTokens := NewFromInt (sm_ImageTokens summary) in
  let dAudioTokens := NewFromInt (sm_AudioTokens summary) in
  let dGroupRatio := NewFromFloat (gr_GroupRatio (pd_GroupRatioInfo priceData)) in
  let baseTokens := NewFromInt (sm_PromptTokens summary) in
  let '(baseTokens, cachedTokensWithRatio) :=
    if IsZero dCacheTokens then (baseTokens, decimal_Zero)
    else (if claude then baseTokens else Sub baseTokens dCacheTokens, Mul dCacheTokens (ratio pd_CacheRatio)) in
  let hasSplit := bool_decide (sm_CacheCreationTokens5m summary > 0 ∨ sm_CacheCreationTokens1h summary > 0) in
  let '(baseTokens, cachedCreationTokensWithRatio) :=
    if negb (IsZero dCachedCreationTokens) || hasSplit then
      if claude then
        let remaining := (sm_CacheCreationTokens summary -! sm_CacheCreationTokens5m summary -! sm_CacheCreationTokens1h summary)%go in
        let remaining := if decide (remaining < 0) then 0 else remaining in
        (baseTokens,
         Add (Add (Mul (NewFromInt remaining) (ratio pd_CacheCreationRatio))
                  (Mul (NewFromInt (sm_CacheCreationTokens5m summary)) (ratio pd_CacheCreation5mRatio)))
             (Mul (NewFromInt (sm_CacheCreationTokens1h summary)) (ratio pd_CacheCreation1hRatio)))
      else (Sub baseTokens dCachedCreationTokens, Mul dCachedCreationTokens (ratio pd_CacheCreationRatio))
    else (baseTokens, decimal_Zero) in
  let '(baseTokens, imageTokensWithRatio) :=
    if IsZero dImageTokens then (baseTokens, decimal_Zero)
    else (Sub baseTokens dImageTokens, Mul dImageTokens (ratio pd_ImageRatio)) in
  let audioPrice := GetGeminiInputAudioPricePerMillionTokens (ri_OriginModelName (ri_Call info)) in
  let '(baseTokens, audioInputQuota) :=
    if negb (IsZero dAudioTokens) && (float_zero <? audioPrice)%float then
      (Sub baseTokens dAudioTokens,
       Mul (Mul (Mul (Div (NewFromFloat audioPrice) (NewFromInt 1000000)) dAudioTokens) dGroupRatio) (NewFromFloat (QuotaPerUnit s)))
    else (baseTokens, decimal_Zero) in
  (Add (Add (Add baseTokens cachedTokensWithRatio) imageTokensWithRatio) cachedCreationTokensWithRatio, audioInputQuota).

(** The quota of a summary, before the cases of no tokens and of no quota. *)
Definition price_summary (info : RelayInfo) (legacyClaudeDerived : bool) (summary : textQuotaSummary) : textQuotaSummary :=
  let priceData := ri_PriceData info in
  let dGroupRatio := NewFromFloat (gr_GroupRatio (pd_GroupRatioInfo priceData)) in
  let ratio := Mul (NewFromFloat (pd_ModelRatio priceData)) dGroupRatio in
  if negb (pd_UsePrice priceData) then
    let '(promptQuota, audioInputQuota) := prompt_tokens info legacyClaudeDerived summary in
    let completionQuota := Mul (NewFromInt (sm_CompletionTokens summary)) (NewFromFloat (pd_CompletionRatio priceData)) in
    let quota := Mul (Add promptQuota completionQuota) ratio in
    let quota := Add (Add quota (sm_ToolCallSurchargeQuota summary)) audioInputQuota in
    let quota := times_other_ratios priceData quota in
    let quota := if negb (IsZero ratio) && LessThanOrEqual quota decimal_Zero then NewFromInt 1 else quota in
    summary <| sm_Quota := IntPart (Round quota 0) |>
      <| sm_AudioInputPrice := if IsZero (NewFromInt (sm_AudioTokens summary)) then float_zero
                               else GetGeminiInputAudioPricePerMillionTokens (ri_OriginModelName (ri_Call info)) |>
  else
    let quota := Mul (Mul (NewFromFloat (pd_ModelPrice priceData)) (NewFromFloat (QuotaPerUnit s))) dGroupRatio in
    let quota := Add (Add quota (sm_ToolCallSurchargeQuota summary)) decimal_Zero in
    summary <| sm_Quota := IntPart (Round (times_other_ratios priceData quota) 0) |>.

Definition finish_summary (paid : bool) (summary : textQuotaSummary) : textQuotaSummary :=
  if decide (sm_TotalTokens summary = 0) then summary <| sm_Quota := 0 |>
  else if paid && bool_decide (sm_Quota summary = 0) then summary <| sm_Quota := 1 |>
  else summary.

Definition calculateTextQuotaSummary (ctx : TextContext) (info : RelayInfo) (usage : option Usage) : textQuotaSummary :=
  let priceData := ri_PriceData info in
  let ratio := Mul (NewFromFloat (pd_ModelRatio priceData)) (NewFromFloat (gr_GroupRatio (pd_GroupRatioInfo priceData))) in
  let legacyClaudeDerived := isLegacyClaudeDerivedOpenAIUsage info (reported info usage) in
  let '(surcharge, (webSearches, claudeSearches, fileSearches)) := calculateTextToolCallSurcharge ctx info in
  let summary := (initial_summary info usage) <| sm_ToolCallSurchargeQuota := surcharge |>
    <| sm_WebSearchCallCount := webSearches |> <| sm_ClaudeWebSearchCallCount := claudeSearches |>
    <| sm_FileSearchCallCount := fileSearches |> in
  finish_summary (negb (IsZero ratio)) (price_summary info legacyClaudeDerived summary).

Definition composeTieredTextQuota (info : RelayInfo) (summary : textQuotaSummary) (tieredQuota : Z)
    (tieredResult : option TieredResult) : Z :=
  let surcharge := sm_ToolCallSurchargeQuota summary in
  if IsZero surcharge then tieredQuota
  else
    let separately := (tieredQuota +! IntPart (Round surcharge 0))%go in
    match tieredResult, ri_TieredBillingSnapshot info with
    | Some tr, Some snap =>
      IntPart (Round (Add (Mul (NewFromFloat (ActualQuotaBeforeGroup tr)) (NewFromFloat (tb_GroupRatio snap))) surcharge) 0)
    | _, _ => separately
    end.
End Text.

(** *** Audio *)

Record TokenDetails := mkDetails { td_TextTokens : Z; td_AudioTokens : Z }.
Record QuotaInfo := mkQuotaInfo {
  qi_InputDetails : TokenDetails;
  qi_OutputDetails : TokenDetails;
  qi_ModelName : string;
  qi_UsePrice : bool;
  qi_ModelPrice : float64;
  qi_ModelRatio : float64;
  qi_GroupRatio : float64;
}.

Section Audio.
Context {D : Decimals} (s : PriceSettings).

Definition calculateAudioQuota (info : QuotaInfo) : Z :=
  let groupRatio := NewFromFloat (qi_GroupRatio info) in
  if qi_UsePrice info then
    IntPart (Mul (Mul (NewFromFloat (qi_ModelPrice info)) (NewFromFloat (QuotaPerUnit s))) groupRatio)
  else
    let completionRatio := NewFromFloat (GetCompletionRatio s (qi_ModelName info)) in
    let audioRatio := NewFromFloat (GetAudioRatio s (qi_ModelName info)) in
    let audioCompletionRatio := NewFromFloat (GetAudioCompletionRatio s (qi_ModelName info)) in
    let ratio := Mul groupRatio (NewFromFloat (qi_ModelRatio info)) in
    let quota := Add decimal_Zero (NewFromInt (td_TextTokens (qi_InputDetails info))) in
    let quota := Add quota (Mul (NewFromInt (td_TextTokens (qi_OutputDetails info))) completionRatio) in
    let quota := Add quota (Mul (NewFromInt (td_AudioTokens (qi_InputDetails info))) audioRatio) in
    let quota := Add quota (Mul (Mul (NewFromInt (td_AudioTokens (qi_OutputDetails info))) audioRatio) audioCompletionRatio) in
    let quota := Mul quota ratio in
    let quota := if negb (IsZero ratio) && LessThanOrEqual quota decimal_Zero then NewFromInt 1 else quota in
    IntPart (Round quota 0).
End Audio.

(** *** Tool calls *)

Record ToolCallUsage := mkToolUsage {
  tc_ModelName : string;
  tc_WebSearchCalls : Z;
  tc_WebSearchToolName : string;
  tc_FileSearchCalls : Z;
  tc_ImageGenerationCall : bool;
  tc_ImageGenerationQuality : string;
  tc_ImageGenerationSize : string;
}.
Record ToolCallItem := mkToolItem {
  ti_Name : string; ti_CallCount : Z; ti_PricePer1K : float64; ti_TotalPrice : float64; ti_Quota : Z;
}.
Record ToolCallResult := mkToolResult { TotalQuota : Z; Items : list ToolCallItem }.

Section Tools.
Context (s : PriceSettings) (idx : toolPriceIndex).

Definition add_item (item : ToolCallItem) (r : ToolCallResult) : ToolCallResult :=
  mkToolResult (TotalQuota r +! ti_Quota item)%go (Items r ++ [item]).

Definition ComputeToolCallQuota (usage : ToolCallUsage) (groupRatio : float64) : ToolCallResult :=
  let quota_of price := int_of_float (math_Round (float_mul (float_mul price (QuotaPerUnit s)) groupRatio)) in
  let addItem toolName count r :=
    if decide (count ≤ 0) then r
    else
      let pricePer1K := GetToolPriceForModel idx toolName (tc_ModelName usage) in
      if (pricePer1K <=? float_zero)%float then r
      else
        let totalPrice := float_div (float_mul pricePer1K (float_of_int count)) (float_of_int 1000) in
        add_item (mkToolItem toolName count pricePer1K totalPrice (quota_of totalPrice)) r in
  let r := mkToolResult 0 [] in
  let r := if decide (tc_WebSearchCalls usage > 0 ∧ tc_WebSearchToolName usage ≠ "")
           then addItem (tc_WebSearchToolName usage) (tc_WebSearchCalls usage) r else r in
  let r := if decide (tc_FileSearchCalls usage > 0) then addItem "file_search" (tc_FileSearchCalls usage) r else r in
  if tc_ImageGenerationCall usage then
    let price := GetGPTImage1PriceOnceCall (tc_ImageGenerationQuality usage) (tc_ImageGenerationSize usage) in
    add_item (mkToolItem "image_generation" 1 price price (quota_of price)) r
  else r.
End Tools.

(** *** Settling *)

(** A row of the usage log. *)
Record ConsumeLog := mkConsumeLog {
  lg_UserId : Z;
  lg_ChannelId : Z;
  lg_TokenId : Z;
  lg_ModelName : string;
  lg_PromptTokens : Z;
  lg_CompletionTokens : Z;
  lg_Quota : Z;
  lg_Group : string;
}.

(** A request at its end: the billing session, the cache of expressions, the usage log. *)
Record Relay `{ExprEngine} := mkRelaying { rl_ctx : Ctx; rl_cache : ExprCache; rl_logs : list ConsumeLog }.
Arguments mkRelaying {_}.
Global Instance Relay_eta `{ExprEngine} : Settable Relay := λ r, mkRelaying (rl_ctx r) (rl_cache r) (rl_logs r).

Section Post.
Context {D : Decimals} {Engine : ExprEngine} (shuffle : ∀ A, list A → list A) (now : Z).
Context (cfg : Config) (g : GroupSettings) (s : PriceSettings) (idx : toolPriceIndex).
(** Whether a billing session is attached to the request, and whether usage is logged. *)
Context (hasBilling LogConsumeEnabled : bool).

Definition in_session {A} (m : B A) : M Relay A := λ r, ((m (rl_ctx r)).1, r <| rl_ctx := (m (rl_ctx r)).2 |>).
Definition in_cache {A} (m : M ExprCache A) : M Relay A := λ r, ((m (rl_cache r)).1, r <| rl_cache := (m (rl_cache r)).2 |>).
Definition RecordConsumeLog (log : ConsumeLog) : M Relay () :=
  if LogConsumeEnabled then modify (λ r, r <| rl_logs ::= λ l, l ++ [log] |>) else mret tt.

Definition channel_id (info : RelayInfo) : Z := from_option cm_ChannelId 0 (ri_ChannelMeta (ri_Call info)).

(** The end of every kind of request: the counters of the user and of the channel, the
    settlement, whose error is only logged, and the row of the log. *)
Definition count_and_settle (totalTokens quota : Z) : M Relay () :=
  info ← in_session the_info;
  _ ← (if decide (totalTokens = 0) then mret tt
       else
         _ ← in_session (on_world (UpdateUserUsedQuotaAndRequestCount cfg (ri_UserId info) quota));
         in_session (on_world (UpdateChannelUsedQuota cfg (channel_id info) quota)));
  _ ← attempt (in_session (SettleBilling cfg hasBilling quota));
  mret tt.
Definition log_usage (logModel : string) (promptTokens completionTokens quota : Z) : M Relay () :=
  info ← in_session the_info;
  RecordConsumeLog (mkConsumeLog (ri_UserId info) (channel_id info) (ri_TokenId info) logModel promptTokens
    completionTokens quota (BillingGroup info)).

Definition tiered_vars (info : RelayInfo) : M ExprCache (list string) :=
  match ri_TieredBillingSnapshot info with Some snap => UsedVars (tb_ExprString snap) | None => mret [] end.

Definition PostTextConsumeQuota (ctx : TextContext) (usage : option Usage) : M Relay () :=
  info ← in_session the_info;
  let summary := calculateTextQuotaSummary shuffle s idx ctx info usage in
  quota ← match usage with
          | None => mret (sm_Quota summary)
          | Some usage =>
            vars ← in_cache (tiered_vars info);
            r ← in_cache (TryTieredSettle shuffle now info (BuildTieredTokenParams usage (sm_IsClaudeUsageSemantic summary) vars));
            mret (match r with
                  | Some (tieredQuota, tieredRes) => composeTieredTextQuota info summary tieredQuota tieredRes
                  | None => sm_Quota summary
                  end)
          end;
  _ ← count_and_settle (sm_TotalTokens summary) quota;
  let modelName := ri_OriginModelName (ri_Call info) in
  let logModel := if HasPrefix modelName "gpt-4-gizmo" then "gpt-4-gizmo-*" else modelName in
  let logModel := if HasPrefix logModel "gpt-4o-gizmo" then "gpt-4o-gizmo-*" else logModel in
  log_usage logModel (sm_PromptTokens summary) (sm_CompletionTokens summary) quota.

(** The price of audio and realtime requests at their end. *)
(** The price of the model is not among the fields that are set. *)
Definition audio_quota_info (info : RelayInfo) (modelName : string) (input output : TokenDetails) : QuotaInfo :=
  let priceData := ri_PriceData info in
  mkQuotaInfo input output modelName (pd_UsePrice priceData) float_zero (pd_ModelRatio priceData)
    (gr_GroupRatio (pd_GroupRatioInfo priceData)).

Definition PostAudioConsumeQuota (usage : Usage) : M Relay () :=
  info ← in_session the_info;
  vars ← in_cache (tiered_vars info);
  r ← in_cache (TryTieredSettle shuffle now info (BuildTieredTokenParams usage false vars));
  let model := ri_OriginModelName (ri_Call info) in
  let input := mkDetails (in_TextTokens (ug_PromptTokensDetails usage)) (in_AudioTokens (ug_PromptTokensDetails usage)) in
  let output := mkDetails (out_TextTokens (ug_CompletionTokenDetails usage)) (out_AudioTokens (ug_CompletionTokenDetails usage)) in
  let quota := match r with
               | Some (tieredQuota, _) => tieredQuota
               | None => calculateAudioQuota s (audio_quota_info info model input output)
               end in
  let quota := if decide (ug_TotalTokens usage = 0) then 0 else quota in
  _ ← count_and_settle (ug_TotalTokens usage) quota;
  log_usage model (ug_PromptTokens usage) (ug_CompletionTokens usage) quota.

Definition PostWssConsumeQuota (modelName : string) (usage : RealtimeUsage) : M Relay () :=
  _ ← in_session (EnsureSubscriptionBillingRatio hasBilling);
  info ← in_session the_info;
  r ← in_cache (TryTieredSettle shuffle now info
        (no_tokens <| tp_P := float_of_int (ru_InputTokens usage) |> <| tp_C := float_of_int (ru_OutputTokens usage) |>
                   <| tp_Len := float_of_int (ru_InputTokens usage) |>));
  let input := mkDetails (in_TextTokens (ru_InputTokenDetails usage)) (in_AudioTokens (ru_InputTokenDetails usage)) in
  let output := mkDetails (out_TextTokens (ru_OutputTokenDetails usage)) (out_AudioTokens (ru_OutputTokenDetails usage)) in
  let quota := match r with
               | Some (tieredQuota, _) => tieredQuota
               | None => calculateAudioQuota s (audio_quota_info info modelName input output)
               end in
  let quota := if decide (ru_TotalTokens usage = 0) then 0 else quota in
  _ ← count_and_settle (ru_TotalTokens usage) quota;
  log_usage modelName (ru_InputTokens usage) (ru_OutputTokens usage) quota.

(** A part of a realtime stream.  [ri_UsePrice] is a field of its own: nothing sets it. *)
Definition PreWssConsumeQuota (autoGroup : option string) (usage : RealtimeUsage) : B () :=
  info ← the_info;
  if ri_UsePrice (ri_Call info) then mret tt
  else
    let modelName := ri_OriginModelName (ri_Call info) in
    let '(modelRatio, _, _) := GetModelRatio s modelName in
    let '((authoritativeRatio, _), hasSubscriptionSession) := resolveAuthoritativeSubscriptionBillingRatio info in
    let subscribed := hasSubscriptionSession || pd_SubscriptionRatioApplied (ri_PriceData info) in
    _ ← (if subscribed then mret tt
         else set_info (λ i, match autoGroup with Some group => i <| ri_UsingGroup := group |> | None => i end));
    info ← the_info;
    let actualGroupRatio :=
      if subscribed then authoritativeRatio
      else gr_GroupRatio (GetGroupRatioInfo g (BillingRatioUserGroup info) (ri_UsingGroup info)) in
    let input := mkDetails (in_TextTokens (ru_InputTokenDetails usage)) (in_AudioTokens (ru_InputTokenDetails usage)) in
    let output := mkDetails (out_TextTokens (ru_OutputTokenDetails usage)) (out_AudioTokens (ru_OutputTokenDetails usage)) in
    let quota := calculateAudioQuota s
      (mkQuotaInfo input output modelName (ri_UsePrice (ri_Call info)) float_zero modelRatio actualGroupRatio) in
    if decide (quota ≤ 0) then mret tt
    else if hasBilling then _ ← ReserveRealtime cfg quota; mret tt
    else
      userQuota ← on_world (GetUserQuota (ri_UserId info));
      token ← on_world (GetTokenByKey (TrimPrefix (ri_TokenKey info) "sk-"));
      _ ← fail_if (userQuota < quota) (ErrNew "user quota is not enough");
      _ ← fail_if (t_UnlimitedQuota token = false ∧ t_RemainQuota token < quota) (ErrNew "token quota is not enough");
      _ ← PostConsumeQuota cfg quota;
      set_info (λ i, i <| ri_RealtimeReservedQuota ::= λ q, (q +! quota)%go |>).

(** *** The fee for refused content *)

(** An upstream error: its code, its text and the message it has in OpenAI's format. *)
Record UpstreamError := mkUpstreamError { ue_code : string; ue_text : string; ue_message : string }.

Definition CSAMViolationMarker := "Failed check: SAFETY_CHECK_TYPE".
Definition ContentViolatesUsageMarker := "Content violates usage guidelines".
Definition ErrorCodeViolationFeeGrokCSAM := "violation_fee.grok.csam".

Definition HasCSAMViolationMarker (err : UpstreamError) : bool :=
  if Contains (ue_text err) CSAMViolationMarker || Contains (ue_text err) ContentViolatesUsageMarker then true
  else Contains (ue_message err) CSAMViolationMarker || Contains (ue_text err) ContentViolatesUsageMarker.

Definition shouldChargeViolationFee (err : UpstreamError) : bool :=
  if decide (ue_code err = ErrorCodeViolationFeeGrokCSAM) then true else HasCSAMViolationMarker err.

Definition calcViolationFeeQuota (amount groupRatio : float64) : Z :=
  if (amount <=? float_zero)%float then 0
  else if (groupRatio <=? float_zero)%float then 0
  else
    let quota := IntPart (Round (Mul (Mul (NewFromFloat amount) (NewFromFloat (QuotaPerUnit s))) (NewFromFloat groupRatio)) 0) in
    if decide (quota ≤ 0) then 0 else quota.

Record GrokSettings := mkGrok { ViolationDeductionEnabled : bool; ViolationDeductionAmount : float64 }.

Definition ChargeViolationFeeIfNeeded (settings : GrokSettings) (apiErr : UpstreamError) : M Relay bool :=
  info ← in_session the_info;
  if negb (shouldChargeViolationFee apiErr) then mret false
  else if negb (ViolationDeductionEnabled settings) then mret false
  else
    let groupRatio := gr_GroupRatio (pd_GroupRatioInfo (ri_PriceData info)) in
    let feeQuota := calcViolationFeeQuota (ViolationDeductionAmount settings) groupRatio in
    if decide (feeQuota ≤ 0) then mret false
    else
      r ← attempt (in_session (PostConsumeQuota cfg feeQuota));
      match r with
      | Err _ => mret false
      | Ok _ =>
        _ ← in_session (on_world (UpdateUserUsedQuotaAndRequestCount cfg (ri_UserId info) feeQuota));
        _ ← in_session (on_world (UpdateChannelUsedQuota cfg (channel_id info) feeQuota));
        info ← in_session the_info;
        _ ← RecordConsumeLog (mkConsumeLog (ri_UserId info) (channel_id info) (ri_TokenId info)
              (ri_OriginModelName (ri_Call info)) 0 0 feeQuota (ri_UsingGroup info));
        mret true
      end.
End Post.
