(* ===== verification/Costs.v ===== *)
(** * What a request is charged

    The theorems on [Quotas.v]: the quota of a text request is a formula over the tokens
    it reports, whatever the order in which Go visits the other ratios; an estimate by an
    expression that turns out exact settles at the reserved quota; the quota that is
    computed is the one that is settled and logged. *)
From S2P Require Import Prelude Tables GoTime Schema Plans Windows Cycles Consume Accounting Ledger Preferences Cards Purchases Lifecycle Wallet GoFloat GoDecimal PriceTables Groups Channels Ratios Expressions Prices Billing Sessions Quotas.
Local Open Scope Q_scope.

Section Reference.
Context {D : Decimals} {L : DecimalLaws D} (s : PriceSettings) (idx : toolPriceIndex).

(** ** The formula *)

(** The rational that a setting stands for. *)
Definition val (x : float64) : Q := value (NewFromFloat x).

(** A price per thousand calls or per million tokens, to sixteen places. *)
Definition per (n : Z) (q : Q) : Q := Qplaces (q / inject_Z n) 16.

Definition group_ratio (info : RelayInfo) : Q := val (gr_GroupRatio (pd_GroupRatioInfo (ri_PriceData info))).

(** The calls of tools, in units of money. *)
Definition tool_cost (ctx : TextContext) (info : RelayInfo) : Q :=
  let model := ri_OriginModelName (ri_Call info) in
  let calls tool := from_option (λ tools, default 0%Z (tools !! tool)) 0%Z (ri_ResponsesUsageInfo (ri_Call info)) in
  let web := match ri_ResponsesUsageInfo (ri_Call info) with
             | Some _ => Z.max 0 (calls BuildInToolWebSearchPreview)
             | None => if HasSuffix model "search-preview" then 1%Z else 0%Z
             end in
  per 1000 (val (GetToolPriceForModel idx "web_search_preview" model) * inject_Z web) +
  per 1000 (val (GetToolPrice idx "web_search")) * inject_Z (Z.max 0 (claude_web_search_requests ctx)) +
  per 1000 (val (GetToolPrice idx "file_search") * inject_Z (Z.max 0 (calls BuildInToolFileSearch))) +
  (if image_generation_call ctx
   then val (GetGPTImage1PriceOnceCall (image_generation_call_quality ctx) (image_generation_call_size ctx)) else 0).

(** The tokens of a prompt, each kind at its ratio.  Cached tokens are part of the prompt
    unless usage is reported in Claude's terms ([claude]), image tokens always are, and
    audio tokens are priced on their own where the model has a price for them. *)
Definition audio_price (info : RelayInfo) : option Q :=
  let price := GetGeminiInputAudioPricePerMillionTokens (ri_OriginModelName (ri_Call info)) in
  if (float_zero <? price)%float then Some (per 1000000 (val price)) else None.
Definition prompt_weight (info : RelayInfo) (claude : bool) (x : textQuotaSummary) : Q :=
  let p := ri_PriceData info in
  let within := (if claude then 0 else sm_CacheTokens x + sm_CacheCreationTokens x)%Z in
  let split := (sm_CacheCreationTokens5m x + sm_CacheCreationTokens1h x)%Z in
  inject_Z (sm_PromptTokens x - within - sm_ImageTokens x - from_option (λ _, sm_AudioTokens x) 0 (audio_price info))%Z +
  inject_Z (sm_CacheTokens x) * val (pd_CacheRatio p) +
  inject_Z (sm_ImageTokens x) * val (pd_ImageRatio p) +
  (if claude then
     inject_Z (Z.max 0 (sm_CacheCreationTokens x - split)) * val (pd_CacheCreationRatio p) +
     inject_Z (sm_CacheCreationTokens5m x) * val (pd_CacheCreation5mRatio p) +
     inject_Z (sm_CacheCreationTokens1h x) * val (pd_CacheCreation1hRatio p)
   else inject_Z (sm_CacheCreationTokens x) * val (pd_CacheCreationRatio p)).

Definition other_ratios (p : PriceData) : Q := foldr (λ kv q, val kv.2 * q) 1 (map_to_list (pd_OtherRatios p)).

(** What the request costs, before it is rounded. *)
Definition text_cost (ctx : TextContext) (info : RelayInfo) (claude : bool) (x : textQuotaSummary) : Q :=
  let p := ri_PriceData info in
  let money q := q * group_ratio info * val (QuotaPerUnit s) in
  (if pd_UsePrice p then money (val (pd_ModelPrice p)) + money (tool_cost ctx info)
   else
     (prompt_weight info claude x + inject_Z (sm_CompletionTokens x) * val (pd_CompletionRatio p)) *
       (val (pd_ModelRatio p) * group_ratio info) +
     money (tool_cost ctx info) +
     money (from_option (λ price, price * inject_Z (sm_AudioTokens x)) 0 (audio_price info))) * other_ratios p.

(** The quota for a cost: rounded half away from zero; a request that is not free costs
    at least one, and one without tokens nothing. *)
Definition text_charge (info : RelayInfo) (total : Z) (cost : Q) : Z :=
  let p := ri_PriceData info in
  if decide (total = 0%Z) then 0
  else if Qeq_bool (val (pd_ModelRatio p) * group_ratio info) 0 then Qround_half cost
  else if pd_UsePrice p then (if decide (Qround_half cost = 0%Z) then 1 else Qround_half cost)
  else Z.max 1 (Qround_half cost).

(** ** The code computes it *)

Ltac values := repeat first
  [rewrite value_add | rewrite value_sub | rewrite value_mul | rewrite value_int].

Lemma value_per n d : (0 < n)%Z → value (Div d (NewFromInt n)) == per n (value d).
Proof.
  intros Hn. unfold per. rewrite value_div; rewrite ?value_int.
  - unfold Qplaces. by rewrite value_int.
  - unfold inject_Z, Qeq; cbn. lia.
Qed.

Global Instance Qplaces_proper : Proper (Qeq ==> eq ==> Qeq) Qplaces.
Proof. intros x y E n ? <-. unfold Qplaces. by rewrite E. Qed.
Global Instance per_proper : Proper (eq ==> Qeq ==> Qeq) per.
Proof. intros n ? <- x y E. unfold per. by rewrite E. Qed.

Lemma per_0 n : per n 0 == 0.
Proof. unfold per. assert (E : 0 / inject_Z n == 0) by apply Qmult_0_l. rewrite E. reflexivity. Qed.

Lemma decimal_zero : value decimal_Zero == 0.
Proof. apply value_int. Qed.

Lemma is_zero_int n : IsZero (NewFromInt n) = bool_decide (n = 0%Z).
Proof.
  apply eq_true_iff_eq. rewrite value_zero, value_int, bool_decide_eq_true. unfold inject_Z, Qeq; cbn. lia.
Qed.

(** Tokens are counted from zero, and far below the limit of an [int]. *)
Definition counts (n : Z) : Prop := (0 ≤ n ≤ 2 ^ 61)%Z.
Definition summary_ok (x : textQuotaSummary) : Prop :=
  counts (sm_CacheTokens x) ∧ counts (sm_CacheCreationTokens x) ∧ counts (sm_CacheCreationTokens5m x) ∧
  counts (sm_CacheCreationTokens1h x) ∧ counts (sm_ImageTokens x) ∧ counts (sm_AudioTokens x).

(** A kind of tokens that is taken out of the rest and weighted, unless there are none. *)
Lemma weighted b n r (within : bool) :
  let y := if bool_decide (n = 0%Z) then (b, decimal_Zero)
           else (if within then Sub b (NewFromInt n) else b, Mul (NewFromInt n) r) in
  value y.1 == value b - (if within then inject_Z n else 0) ∧ value y.2 == inject_Z n * value r.
Proof.
  cbv zeta. case_bool_decide as Hn; cbn [fst snd].
  - subst n. rewrite decimal_zero. destruct within; split; ring.
  - destruct within; values; split; ring.
Qed.

Lemma created_tokens b claude x p :
  summary_ok x →
  let remaining := (sm_CacheCreationTokens x -! sm_CacheCreationTokens5m x -! sm_CacheCreationTokens1h x)%Z in
  let split := (sm_CacheCreationTokens5m x + sm_CacheCreationTokens1h x)%Z in
  let y :=
    if negb (bool_decide (sm_CacheCreationTokens x = 0%Z)) ||
       bool_decide (sm_CacheCreationTokens5m x > 0 ∨ sm_CacheCreationTokens1h x > 0)%Z then
      if claude : bool then
        (b, Add (Add (Mul (NewFromInt (if decide (remaining < 0)%Z then 0%Z else remaining)) (NewFromFloat (pd_CacheCreationRatio p)))
                     (Mul (NewFromInt (sm_CacheCreationTokens5m x)) (NewFromFloat (pd_CacheCreation5mRatio p))))
                (Mul (NewFromInt (sm_CacheCreationTokens1h x)) (NewFromFloat (pd_CacheCreation1hRatio p))))
      else (Sub b (NewFromInt (sm_CacheCreationTokens x)),
            Mul (NewFromInt (sm_CacheCreationTokens x)) (NewFromFloat (pd_CacheCreationRatio p)))
    else (b, decimal_Zero) in
  value y.1 == value b - (if claude then 0 else inject_Z (sm_CacheCreationTokens x)) ∧
  value y.2 ==
    (if claude then
       inject_Z (Z.max 0 (sm_CacheCreationTokens x - split)) * val (pd_CacheCreationRatio p) +
       inject_Z (sm_CacheCreationTokens5m x) * val (pd_CacheCreation5mRatio p) +
       inject_Z (sm_CacheCreationTokens1h x) * val (pd_CacheCreation1hRatio p)
     else inject_Z (sm_CacheCreationTokens x) * val (pd_CacheCreationRatio p)).
Proof.
  intros (Hc & Hcc & H5 & H1 & Hi & Ha). unfold counts in *. cbv zeta. set (split := (_ + _)%Z).
  assert (Hr : (sm_CacheCreationTokens x -! sm_CacheCreationTokens5m x -! sm_CacheCreationTokens1h x)%Z =
               (sm_CacheCreationTokens x - split)%Z).
  { unfold split. rewrite (wrap64_id (_ - sm_CacheCreationTokens5m x)); [rewrite wrap64_id; [lia|]|];
      unfold in_int64; lia. }
  rewrite Hr. replace (if decide (_ < 0)%Z then 0%Z else _) with (Z.max 0 (sm_CacheCreationTokens x - split))
    by (case_decide; lia).
  destruct (negb _ || _) eqn:E; [by destruct claude; cbn [fst snd]; values; split; try ring; unfold val|].
  apply orb_false_iff in E as [E1 E2]. rewrite negb_false_iff, bool_decide_eq_true in E1. apply bool_decide_eq_false in E2.
  replace (Z.max 0 (sm_CacheCreationTokens x - split)) with 0%Z by (unfold split; lia). unfold split.
  replace (sm_CacheCreationTokens5m x) with 0%Z by lia. replace (sm_CacheCreationTokens1h x) with 0%Z by lia.
  rewrite E1. cbn [fst snd]. rewrite decimal_zero. destruct claude; split; ring.
Qed.

(** Sums of tokens, as rationals. *)
Ltac weights claude :=
  unfold Z.sub; rewrite !inject_Z_plus, !inject_Z_opp; destruct claude; cbn [negb]; rewrite ?inject_Z_plus; unfold val; ring.

Lemma prompt_value info legacy x :
  summary_ok x →
  value (prompt_tokens s info legacy x).1 == prompt_weight info (sm_IsClaudeUsageSemantic x || legacy) x ∧
  value (prompt_tokens s info legacy x).2 ==
    from_option (λ price, price * inject_Z (sm_AudioTokens x)) 0 (audio_price info) * group_ratio info * val (QuotaPerUnit s).
Proof.
  intros Hok. unfold prompt_tokens, prompt_weight, audio_price. cbv zeta.
  rewrite !is_zero_int. set (claude := _ || _). set (p := ri_PriceData info).
  assert (Hswap : ∀ b, (if claude then b else Sub b (NewFromInt (sm_CacheTokens x))) =
    (if negb claude then Sub b (NewFromInt (sm_CacheTokens x)) else b)) by by destruct claude.
  rewrite Hswap. destruct (weighted (NewFromInt (sm_PromptTokens x)) (sm_CacheTokens x) (NewFromFloat (pd_CacheRatio p)) (negb claude)) as [E1 E1'].
  destruct (if bool_decide (sm_CacheTokens x = 0%Z) then _ else _) as [b1 w1]. cbn [fst snd] in E1, E1'.
  destruct (created_tokens b1 claude x p Hok) as [E2 E2'].
  destruct (if negb _ || _ then _ else _) as [b2 w2]. cbn [fst snd] in E2, E2'.
  destruct (weighted b2 (sm_ImageTokens x) (NewFromFloat (pd_ImageRatio p)) true) as [E3 E3'].
  destruct (if bool_decide (sm_ImageTokens x = 0%Z) then _ else _) as [b3 w3]. cbn [fst snd] in E3, E3'.
  set (price := GetGeminiInputAudioPricePerMillionTokens _).
  rewrite value_int in E1. unfold group_ratio, val. fold p.
  destruct (float_zero <? price)%float eqn:Ep; cbn [from_option].
  - rewrite andb_true_r. case_bool_decide as Ha; cbn [negb fst snd]; values.
    + rewrite Ha, E3, E1', E2', E3', E2, E1, decimal_zero. split; [|ring].
      weights claude.
    + rewrite E3, E1', E2', E3', E2, E1, value_per by lia. split; [|ring].
      weights claude.
  - rewrite andb_false_r; cbn [fst snd]; values. rewrite E3, E1', E2', E3', E2, E1, decimal_zero. split; [|ring].
    weights claude.
Qed.

(** The calls of one tool, priced per thousand. *)
Lemma priced_calls a price n gr unit :
  value (if decide (n > 0)%Z then Add a (Mul (Mul (Div (Mul price (NewFromInt n)) (NewFromInt 1000)) gr) unit) else a) ==
  value a + per 1000 (value price * inject_Z (Z.max 0 n)) * value gr * value unit.
Proof.
  case_decide as Hn.
  - values. rewrite value_per by lia. values. rewrite Z.max_r by lia. ring.
  - rewrite Z.max_l by lia. rewrite Qmult_0_r, per_0. ring.
Qed.

Lemma surcharge_value ctx info :
  value (calculateTextToolCallSurcharge s idx ctx info).1 == tool_cost ctx info * group_ratio info * val (QuotaPerUnit s).
Proof.
  unfold calculateTextToolCallSurcharge, tool_cost, group_ratio. cbv zeta.
  set (model := ri_OriginModelName (ri_Call info)). set (gr := NewFromFloat (gr_GroupRatio _)). set (unit := NewFromFloat (QuotaPerUnit s)).
  set (tools := ri_ResponsesUsageInfo (ri_Call info)).
  set (web := match tools with Some _ => _ | None => _ end).
  set (n := match tools with Some _ => Z.max 0 _ | None => _ end).
  assert (Hweb : value web.1 == per 1000 (val (GetToolPriceForModel idx "web_search_preview" model) * inject_Z n) * value gr * value unit).
  { unfold web, n. destruct tools as [tools|]; cbn [from_option].
    - assert (H := priced_calls decimal_Zero (NewFromFloat (GetToolPriceForModel idx "web_search_preview" model))
        (default 0%Z (tools !! BuildInToolWebSearchPreview)) gr unit).
      rewrite decimal_zero, Qplus_0_l in H. by destruct (decide _).
    - destruct (HasSuffix _ _); cbn [fst].
      + values. rewrite value_per by lia. change (inject_Z 1) with 1. rewrite Qmult_1_r, decimal_zero. unfold val. ring.
      + rewrite Qmult_0_r, per_0, decimal_zero. ring. }
  destruct web as [w web]; cbn [fst] in Hweb |- *.
  assert (Himage : ∀ a (b : bool) price, value (if b then Add a (Mul (Mul (NewFromFloat price) gr) unit) else a) ==
    value a + (if b then val price else 0) * value gr * value unit).
  { intros a [] price; values; unfold val; ring. }
  rewrite Himage, priced_calls.
  assert (Hclaude : value (if decide (claude_web_search_requests ctx > 0)%Z
      then Add w (Mul (Mul (Mul (Div (NewFromFloat (GetToolPrice idx "web_search")) (NewFromInt 1000)) gr) unit)
                      (NewFromInt (claude_web_search_requests ctx))) else w) ==
    value w + per 1000 (val (GetToolPrice idx "web_search")) * inject_Z (Z.max 0 (claude_web_search_requests ctx)) * value gr * value unit).
  { case_decide; [values; rewrite value_per, Z.max_r by lia; unfold val; ring|]. rewrite Z.max_l by lia. ring. }
  rewrite Hclaude, Hweb. unfold val. fold gr unit n. clearbody n. unfold tools. destruct (ri_ResponsesUsageInfo _); cbn [from_option]; ring.
Qed.

(** The product of the other ratios does not depend on the order. *)
Lemma ratio_product_perm (l l' : list (string * float64)) :
  l ≡ₚ l' → foldr (λ kv q, val kv.2 * q) 1 l == foldr (λ kv q, val kv.2 * q) 1 l'.
Proof. induction 1 as [|kv l l' _ IH|kv kv' l|l l' l'' _ IH _ IH']; cbn; [done|by rewrite IH|ring|by rewrite IH]. Qed.

Lemma other_ratios_value (shuffle : ∀ A, list A → list A) p quota :
  (∀ A (l : list A), shuffle A l ≡ₚ l) → value (times_other_ratios shuffle p quota) == value quota * other_ratios p.
Proof.
  intros Hsh. unfold times_other_ratios, other_ratios. rewrite <-(ratio_product_perm _ _ (Hsh _ (map_to_list (pd_OtherRatios p)))).
  generalize (shuffle _ (map_to_list (pd_OtherRatios p))) as l. intros l. revert quota.
  induction l as [|[k r] l IH]; intros quota; cbn [foldl foldr]; [ring|]. rewrite IH, value_mul. cbn [snd]. unfold val. ring.
Qed.

(** Rounding, with the least charge of a request that is not free. *)
Lemma least_charge ratio quota cost :
  value quota == cost → in_int64 (Qround_half cost) →
  let quota' := if negb (IsZero ratio) && LessThanOrEqual quota decimal_Zero then NewFromInt 1 else quota in
  let q := IntPart (Round quota' 0) in
  (if negb (IsZero ratio) && bool_decide (q = 0%Z) then 1%Z else q) =
  if IsZero ratio then Qround_half cost else Z.max 1 (Qround_half cost).
Proof.
  intros Hv Hr. cbv zeta. destruct (IsZero ratio); cbn [negb andb]; [by rewrite int_of_round; rewrite Hv|].
  destruct (LessThanOrEqual quota decimal_Zero) eqn:Hle; cbv iota.
  - assert (E : Qround_half (value (NewFromInt 1)) = 1%Z) by (rewrite value_int; apply Qround_half_int).
    rewrite int_of_round, E by (rewrite E; unfold in_int64; lia).
    rewrite value_le, Hv, decimal_zero in Hle. apply Qround_half_le in Hle. change (Qround_half 0) with 0%Z in Hle. case_bool_decide; lia.
  - assert (E : Qround_half (value quota) = Qround_half cost) by by rewrite Hv.
    rewrite int_of_round, E by by rewrite E. assert (0 ≤ Qround_half cost)%Z.
    { apply Qround_half_nonneg, Qlt_le_weak, Qnot_le_lt. rewrite <-decimal_zero, <-Hv, <-value_le. by rewrite Hle. }
    case_bool_decide; lia.
Qed.

Lemma ratio_value info :
  IsZero (Mul (NewFromFloat (pd_ModelRatio (ri_PriceData info))) (NewFromFloat (gr_GroupRatio (pd_GroupRatioInfo (ri_PriceData info))))) =
  Qeq_bool (val (pd_ModelRatio (ri_PriceData info)) * group_ratio info) 0.
Proof. apply eq_true_iff_eq. rewrite value_zero, value_mul. unfold val, group_ratio, val. by rewrite Qeq_bool_iff. Qed.
(** The last step of a summary changes its quota only. *)
Lemma finish_summary_spec ctx info legacy x q price paid :
  let y := finish_summary paid (x <| sm_Quota := q |> <| sm_AudioInputPrice := price |>) in
  let claude x := sm_IsClaudeUsageSemantic x || legacy in
  text_cost ctx info (claude y) y = text_cost ctx info (claude x) x ∧ (summary_ok y → summary_ok x) ∧
  sm_TotalTokens y = sm_TotalTokens x ∧
  sm_Quota y = if decide (sm_TotalTokens x = 0%Z) then 0%Z else if paid && bool_decide (q = 0%Z) then 1%Z else q.
Proof.
  cbv zeta. unfold finish_summary. change (sm_TotalTokens (x <| sm_Quota := q |> <| sm_AudioInputPrice := price |>)) with (sm_TotalTokens x).
  case_decide; [done|]. change (sm_Quota (x <| sm_Quota := q |> <| sm_AudioInputPrice := price |>)) with q.
  by destruct (paid && bool_decide (q = 0%Z)).
Qed.

(** A summary whose surcharge is that of its tool calls is charged the formula. *)
Lemma price_summary_spec (shuffle : ∀ A, list A → list A) ctx info legacy x :
  (∀ A (l : list A), shuffle A l ≡ₚ l) →
  value (sm_ToolCallSurchargeQuota x) == tool_cost ctx info * group_ratio info * val (QuotaPerUnit s) →
  let ratio := Mul (NewFromFloat (pd_ModelRatio (ri_PriceData info))) (NewFromFloat (gr_GroupRatio (pd_GroupRatioInfo (ri_PriceData info)))) in
  let y := finish_summary (negb (IsZero ratio)) (price_summary shuffle s info legacy x) in
  let cost := text_cost ctx info (sm_IsClaudeUsageSemantic y || legacy) y in
  summary_ok y → in_int64 (Qround_half cost) → sm_Quota y = text_charge info (sm_TotalTokens y) cost.
Proof.
  intros Hsh Hs. unfold price_summary. cbv zeta. rewrite ratio_value. set (zero := Qeq_bool _ 0).
  destruct (pd_UsePrice (ri_PriceData info)) eqn:Hu; cbn [negb].
  - set (quota := times_other_ratios _ _ _).
    change (x <| sm_Quota := IntPart (Round quota 0) |>) with
      (x <| sm_Quota := IntPart (Round quota 0) |> <| sm_AudioInputPrice := sm_AudioInputPrice x |>).
    destruct (finish_summary_spec ctx info legacy x (IntPart (Round quota 0)) (sm_AudioInputPrice x) (negb zero)) as (-> & Hok & -> & Hq).
    intros _ Hr. refine (eq_trans Hq _). unfold text_charge. fold zero. rewrite Hu. case_decide; [done|].
    assert (Hv : value quota == text_cost ctx info (sm_IsClaudeUsageSemantic x || legacy) x).
    { unfold quota, text_cost. rewrite other_ratios_value, Hu by done. values. rewrite Hs, decimal_zero. unfold group_ratio, val. ring. }
    assert (E : IntPart (Round quota 0) = Qround_half (text_cost ctx info (sm_IsClaudeUsageSemantic x || legacy) x))
      by by rewrite int_of_round; rewrite Hv.
    rewrite E. destruct zero; [done|].
    cbn [negb andb]. generalize (Qround_half (text_cost ctx info (sm_IsClaudeUsageSemantic x || legacy) x)). clear.
    intros r. case_bool_decide; case_decide; done || lia.
  - set (audio := if IsZero _ then float_zero else _).
    destruct (prompt_tokens s info legacy x) as [prompt aq] eqn:Hp. set (quota := times_other_ratios _ _ _). set (q := IntPart _).
    destruct (finish_summary_spec ctx info legacy x q audio (negb zero)) as (-> & Hok & -> & Hq).
    intros Hok' Hr. apply Hok in Hok'. refine (eq_trans Hq _). unfold text_charge. fold zero. rewrite Hu. case_decide; [done|].
    destruct (prompt_value info legacy x Hok') as [Hv1 Hv2]. rewrite Hp in Hv1, Hv2. cbn [fst snd] in Hv1, Hv2.
    assert (Hv : value quota == text_cost ctx info (sm_IsClaudeUsageSemantic x || legacy) x).
    { unfold quota, text_cost. rewrite other_ratios_value, Hu by done. values. rewrite Hs, Hv1, Hv2. unfold group_ratio, val. ring. }
    assert (Hl := least_charge (Mul (NewFromFloat (pd_ModelRatio (ri_PriceData info))) (NewFromFloat (gr_GroupRatio (pd_GroupRatioInfo (ri_PriceData info)))))
      quota _ Hv Hr). cbv zeta in Hl. rewrite ratio_value in Hl. fold zero in Hl. exact Hl.
Qed.

Lemma summary_charge (shuffle : ∀ A, list A → list A) ctx info usage :
  (∀ A (l : list A), shuffle A l ≡ₚ l) →
  let x := calculateTextQuotaSummary shuffle s idx ctx info usage in
  let cost := text_cost ctx info (sm_IsClaudeUsageSemantic x || isLegacyClaudeDerivedOpenAIUsage info (reported info usage)) x in
  summary_ok x → in_int64 (Qround_half cost) → sm_Quota x = text_charge info (sm_TotalTokens x) cost.
Proof.
  intros Hsh. unfold calculateTextQuotaSummary. cbv zeta.
  assert (Hs := surcharge_value ctx info).
  destruct (calculateTextToolCallSurcharge s idx ctx info) as [surcharge [[web claudes] files]].
  apply price_summary_spec; [done|exact Hs].
Qed.
End Reference.

(** C5: the quota of a text request is the formula [text_cost] over the tokens in its
    summary: each kind of prompt token at its ratio, completion tokens at theirs, the
    whole at the ratios of the model and of the group, plus the tool calls and the audio
    in units of money, times the other ratios; rounded half away from zero, at least one
    unless the request is free, and nothing without tokens.  The order in which Go visits
    the other ratios does not matter.  (Cached, cache-writing, picture and audio tokens
    between 0 and 2^61 each, and a cost that rounds to an int64.) *)
Theorem text_quota_formula {D : Decimals} {L : DecimalLaws D} (shuffle : ∀ A, list A → list A)
    (s : PriceSettings) (idx : toolPriceIndex) (ctx : TextContext) (info : RelayInfo) (usage : option Usage) :
  (∀ A (l : list A), shuffle A l ≡ₚ l) →
  let x := calculateTextQuotaSummary shuffle s idx ctx info usage in
  let claude := sm_IsClaudeUsageSemantic x || isLegacyClaudeDerivedOpenAIUsage info (reported info usage) in
  let cost := text_cost s idx ctx info claude x in
  summary_ok x → in_int64 (Qround_half cost) →
  sm_Quota x = text_charge info (sm_TotalTokens x) cost.
Proof. apply summary_charge. Qed.

(** ** A request earns nothing *)

Section Nonnegative.
Context {D : Decimals} {L : DecimalLaws D} (s : PriceSettings) (idx : toolPriceIndex).

Lemma inject_nonneg n : (0 ≤ n)%Z → 0 <= inject_Z n.
Proof. intros H. unfold Qle, inject_Z; cbn. lia. Qed.

Lemma per_nonneg n q : (0 < n)%Z → 0 <= q → 0 <= per n q.
Proof.
  intros Hn Hq. unfold per, Qplaces, Qdiv. apply Qmult_le_0_compat; [|by vm_compute].
  apply inject_nonneg, Qround_half_nonneg. apply Qmult_le_0_compat; [|by vm_compute].
  apply Qmult_le_0_compat; [done|]. apply Qinv_le_0_compat, inject_nonneg. lia.
Qed.

(** Prices and ratios that are not below zero. *)
Definition prices_ok (info : RelayInfo) : Prop :=
  let p := ri_PriceData info in
  nonneg_ratio (gr_GroupRatio (pd_GroupRatioInfo p)) = true ∧ nonneg_ratio (QuotaPerUnit s) = true ∧
  (pd_UsePrice p = true → nonneg_ratio (pd_ModelPrice p) = true) ∧
  (∀ tool model, nonneg_ratio (GetToolPriceForModel idx tool model) = true) ∧
  map_Forall (λ _ r, nonneg_ratio r = true) (pd_OtherRatios p).

Lemma image_price_nonneg quality size : nonneg_ratio (GetGPTImage1PriceOnceCall quality size) = true.
Proof. unfold GetGPTImage1PriceOnceCall. repeat case_decide; vm_compute; reflexivity. Qed.
Lemma audio_price_nonneg model : nonneg_ratio (GetGeminiInputAudioPricePerMillionTokens model) = true.
Proof. unfold GetGeminiInputAudioPricePerMillionTokens. repeat (destruct (HasPrefix _ _); [vm_compute; reflexivity|]). done. Qed.

Lemma tool_cost_nonneg ctx info : prices_ok info → 0 <= tool_cost idx ctx info.
Proof.
  intros (_ & _ & _ & Ht & _). assert (Hv : ∀ tool model, 0 <= val (GetToolPriceForModel idx tool model))
    by (intros; apply value_float_nonneg, Ht).
  unfold tool_cost, GetToolPrice. cbv zeta. repeat apply (Qplus_le_compat 0 _ 0 _).
  - apply per_nonneg; [lia|]. apply Qmult_le_0_compat; [apply Hv|]. apply inject_nonneg.
    destruct (ri_ResponsesUsageInfo _); [lia|]. destruct (HasSuffix _ _); lia.
  - apply Qmult_le_0_compat; [apply per_nonneg; [lia|apply Hv]|apply inject_nonneg; lia].
  - apply per_nonneg; [lia|]. apply Qmult_le_0_compat; [apply Hv|apply inject_nonneg; lia].
  - destruct (image_generation_call ctx); [apply value_float_nonneg, image_price_nonneg|apply Qle_refl].
Qed.

Lemma other_ratios_nonneg p : map_Forall (λ _ r, nonneg_ratio r = true) (pd_OtherRatios p) → 0 <= other_ratios p.
Proof.
  rewrite map_Forall_to_list. unfold other_ratios. induction 1 as [|[k r] l Hr _ IH]; cbn [foldr snd]; [by vm_compute|].
  apply Qmult_le_0_compat; [by apply value_float_nonneg|done].
Qed.

(** The cost of a request whose tokens are free, or that has a price. *)
Lemma fixed_cost_nonneg ctx info claude x :
  prices_ok info → summary_ok x →
  pd_UsePrice (ri_PriceData info) = true ∨ val (pd_ModelRatio (ri_PriceData info)) * group_ratio info == 0 →
  0 <= text_cost s idx ctx info claude x.
Proof.
  intros Hp (_ & _ & _ & _ & _ & [Ha _]) Hfree. assert (Ht := tool_cost_nonneg ctx info Hp).
  destruct Hp as (Hg%value_float_nonneg & Hu%value_float_nonneg & Hm & _ & Ho%other_ratios_nonneg).
  unfold text_cost. cbv zeta. apply Qmult_le_0_compat; [|done].
  assert (Hmoney : ∀ q, 0 <= q → 0 <= q * group_ratio info * val (QuotaPerUnit s)).
  { intros q Hq. apply Qmult_le_0_compat; [|done]. by apply Qmult_le_0_compat. }
  destruct (pd_UsePrice (ri_PriceData info)).
  - apply (Qplus_le_compat 0 _ 0 _); apply Hmoney; [by apply value_float_nonneg, Hm|done].
  - destruct Hfree as [|Hfree]; [done|]. rewrite Hfree, Qmult_0_r, Qplus_0_l.
    apply (Qplus_le_compat 0 _ 0 _); apply Hmoney; [done|]. unfold audio_price. destruct (_ <? _)%float; [|apply Qle_refl].
    cbn [from_option]. apply Qmult_le_0_compat; [|by apply inject_nonneg].
    apply per_nonneg; [lia|]. apply value_float_nonneg, audio_price_nonneg.
Qed.
End Nonnegative.

(** C15: with prices and ratios that are not negative, a text request whose cached,
    cache-writing, picture and audio tokens are each reported between 0 and 2^61 is never
    charged a negative quota, which would be a gift, whatever prompt and completion tokens
    the upstream reports; and one with tokens at a model ratio and a group ratio above
    zero is charged at least one.  The exact cost must round to an int64. *)
Theorem text_quota_bounds {D : Decimals} {L : DecimalLaws D} (shuffle : ∀ A, list A → list A)
    (s : PriceSettings) (idx : toolPriceIndex) (ctx : TextContext) (info : RelayInfo) (usage : option Usage) :
  (∀ A (l : list A), shuffle A l ≡ₚ l) → prices_ok s idx info →
  let x := calculateTextQuotaSummary shuffle s idx ctx info usage in
  let claude := sm_IsClaudeUsageSemantic x || isLegacyClaudeDerivedOpenAIUsage info (reported info usage) in
  summary_ok x → in_int64 (Qround_half (text_cost s idx ctx info claude x)) →
  (0 ≤ sm_Quota x)%Z ∧
  (positive_ratio (pd_ModelRatio (ri_PriceData info)) = true →
   positive_ratio (gr_GroupRatio (pd_GroupRatioInfo (ri_PriceData info))) = true →
   sm_TotalTokens x ≠ 0%Z → (1 ≤ sm_Quota x)%Z).
Proof.
  intros Hsh Hp x claude Hok Hr. assert (Hq := summary_charge s idx shuffle ctx info usage Hsh Hok Hr). fold x claude in Hq.
  set (cost := text_cost s idx ctx info claude x) in *. rewrite Hq. unfold text_charge.
  assert (Hfix := fixed_cost_nonneg s idx ctx info claude x Hp Hok). fold cost in Hfix.
  split.
  - case_decide; [lia|]. destruct (Qeq_bool _ 0) eqn:E.
    + apply Qround_half_nonneg, Hfix. right. by apply Qeq_bool_iff.
    + destruct (pd_UsePrice (ri_PriceData info)); [|lia]. case_decide; [lia|]. apply Qround_half_nonneg, Hfix. by left.
  - intros Hm%value_float_pos Hg%value_float_pos Htotal. rewrite decide_False by done.
    destruct (Qeq_bool _ 0) eqn:E.
    + apply Qeq_bool_iff, Qmult_integral in E as [E|E]; unfold val, group_ratio, val in E; rewrite E in *; by apply Qlt_irrefl in Hm || apply Qlt_irrefl in Hg.
    + destruct (pd_UsePrice (ri_PriceData info)); [|lia]. case_decide; [lia|].
      assert (0 ≤ Qround_half cost)%Z by (apply Qround_half_nonneg, Hfix; by left). lia.
Qed.

(** ** An exact estimate *)

(** The tokens an estimate assumes. *)
Definition estimate (promptTokens : Z) (meta : TokenCountMeta) : TokenParams :=
  no_tokens <| tp_P := float_of_int promptTokens |> <| tp_C := float_of_int (mt_MaxTokens meta) |>
            <| tp_Len := float_of_int promptTokens |>.

(** The usage an upstream reports when it used just that: nothing cached, no picture, no
    sound. *)
Record as_estimated (promptTokens : Z) (meta : TokenCountMeta) (usage : Usage) : Prop := {
  ae_prompt : ug_PromptTokens usage = promptTokens;
  ae_completion : ug_CompletionTokens usage = mt_MaxTokens meta;
  ae_input : CachedTokens (ug_PromptTokensDetails usage) = 0%Z ∧ CachedCreationTokens (ug_PromptTokensDetails usage) = 0%Z ∧
             in_ImageTokens (ug_PromptTokensDetails usage) = 0%Z ∧ in_AudioTokens (ug_PromptTokensDetails usage) = 0%Z;
  ae_output : out_ImageTokens (ug_CompletionTokenDetails usage) = 0%Z ∧ out_AudioTokens (ug_CompletionTokenDetails usage) = 0%Z;
  ae_cache : ug_ClaudeCacheCreation5mTokens usage = 0%Z ∧ ug_ClaudeCacheCreation1hTokens usage = 0%Z;
  ae_range : (0 ≤ promptTokens)%Z ∧ (0 ≤ mt_MaxTokens meta)%Z;
}.

Lemma estimated_params promptTokens meta usage claude vars :
  as_estimated promptTokens meta usage → BuildTieredTokenParams usage claude vars = estimate promptTokens meta.
Proof.
  intros [Hpt Hct (H1 & H2 & H3 & H4) (H5 & H6) (H7 & H8) [Hp Hm]]. unfold BuildTieredTokenParams.
  rewrite Hpt, Hct, H1, H2, H3, H4, H5, H6, H7, H8. change float_zero with (float_of_int 0).
  destruct (float_of_int_nonneg _ Hp) as [Hp1 Hp2], (float_of_int_nonneg _ Hm) as [Hm1 Hm2].
  change float_zero with (float_of_int 0) in *. cbv zeta.
  assert (Hless : ∀ (b : bool) n, (if b then float_sub (float_of_int n) (float_of_int 0) else float_of_int n) = float_of_int n).
  { intros [] n; [apply float_of_int_sub_0|done]. }
  destruct claude; rewrite ?float_of_int_add_0 by done; rewrite !Hless, Hp1, Hm1; reflexivity.
Qed.

Section Estimate.
Context {Engine : ExprEngine} (shuffle : ∀ A, list A → list A) (now : Z).
Context (d : DB) (g : GroupSettings) (s : PriceSettings).
Context (autoGroup : option string) (http : option (string * result string)).
Context (E : string → Prop) (Hsha : ∀ e e', E e → E e' → sha256 e = sha256 e' → e = e').

Lemma wp_on_cache {A} (m : M ExprCache A) (Q : result A → Pricing → Prop) info cache :
  wp m (λ r cache', Q r (info, cache')) cache → wp (on_cache m) Q (info, cache).
Proof. done. Qed.

(** The price of a model that is billed by an expression: what the snapshot freezes. *)
Lemma wp_tiered_price promptTokens meta info cache e :
  ps_BillingExpr s !! ri_OriginModelName (ri_Call info) = Some e → E e → exprs_ok E cache →
  GetBillingMode s (ri_OriginModelName (ri_Call info)) = BillingModeTieredExpr →
  wp (ModelPriceHelper shuffle now d g s autoGroup http promptTokens meta)
    (λ r st, exprs_ok E st.2 ∧ ∀ p, r = Ok p →
       ∃ snap request cost trace,
         tiered st.1 = Some snap ∧ ri_BillingRequestInput (ri_Call st.1) = Some request ∧
         tb_ExprString snap = e ∧ tb_ExprHash snap = sha256 e ∧ tb_EstimatedTier snap = MatchedTier trace ∧
         evaluated shuffle now e (estimate promptTokens meta) request = Ok (cost, trace) ∧
         pd_QuotaBeforeGroup p = quotaConversion cost snap ∧
         (pd_FreeByGroupRatio p = true → (tb_GroupRatio snap =? float_zero)%float = true) ∧
         pd_QuotaToPreConsume p =
           (if pd_FreeByGroupRatio p then 0 else QuotaRound (float_mul (quotaConversion cost snap) (tb_GroupRatio snap)))%Z)
    (info, cache).
Proof.
  intros He HE Hok Hmode. destruct (grouped_call g autoGroup info) as [Hcall _].
  unfold ModelPriceHelper, info_of. wp_step. wp_step. wp_step. wp_step. cbn [fst].
  destruct (GetModelPrice s _) as [modelPrice use]. wp_step. apply wp_handle_group. cbv beta iota. rewrite decide_True by done.
  unfold modelPriceHelperTiered, info_of. wp_step. wp_step. wp_step. wp_step. cbn [fst]. rewrite Hcall. wp_step.
  unfold GetBillingExpr. rewrite He. wp_step; [|by split].
  match goal with Ha : Some _ = Some _ |- _ => injection Ha as <- end. wp_step. wp_step.
  destruct (ResolveIncomingBillingExprRequestInput _ _) as [request|err]; [|by split].
  wp_step. wp_step. apply wp_on_cache. change (estimate promptTokens meta) with
    (no_tokens <| tp_P := float_of_int promptTokens |> <| tp_C := float_of_int (mt_MaxTokens meta) |> <| tp_Len := float_of_int promptTokens |>).
  eapply wp_mono; [apply (wp_evaluate shuffle now E Hsha e _ request cache HE Hok)|].
  intros r cache' [Hr Hok']. destruct r as [[cost trace]|err]; [|by wp_step]. unfold put_info.
  wp_step. wp_step. wp_step. wp_step. wp_step. cbn [fst snd]. split; [done|]. intros p [= <-].
  eexists _, request, cost, trace. split_and!; [reflexivity..|by symmetry|reflexivity| |reflexivity].
  cbn. intros [_ ?]%andb_true_iff. done.
Qed.

(** A settlement by expression: what the expression gives, or, if it fails, what was
    reserved. *)
Definition expression_settle (info : RelayInfo) (params : TokenParams) : option (Z * option TieredResult) :=
  (λ snap,
     match evaluated shuffle now (tb_ExprString snap) params (default (mkInput ∅ "") (ri_BillingRequestInput (ri_Call info))) with
     | Ok (cost, trace) =>
       let quotaBeforeGroup := quotaConversion cost snap in
       let quota := QuotaRound (float_mul quotaBeforeGroup (tb_GroupRatio snap)) in
       (quota, Some (mkTieredResult quotaBeforeGroup quota (MatchedTier trace)
                       (bool_decide (MatchedTier trace ≠ tb_EstimatedTier snap))))
     | Err _ => (if decide (ri_FinalPreConsumedQuota info ≤ 0)%Z then tb_EstimatedQuotaAfterGroup snap
                 else ri_FinalPreConsumedQuota info, None)
     end) <$> tiered info.

(** A snapshot as [ModelPriceHelper] writes it, of an expression in use. *)
Definition snapshot_ok (info : RelayInfo) : Prop :=
  ∀ snap, ri_TieredBillingSnapshot info = Some snap →
    E (tb_ExprString snap) ∧ tb_ExprHash snap = sha256 (tb_ExprString snap).

(** It settles so from any state of the cache. *)
Lemma wp_settle_tiered info params cache :
  snapshot_ok info → exprs_ok E cache →
  wp (TryTieredSettle shuffle now info params)
    (λ r cache', r = Ok (expression_settle info params) ∧ exprs_ok E cache') cache.
Proof.
  intros Hsnap Hok. unfold TryTieredSettle, expression_settle. destruct (tiered info) as [snap|] eqn:Ht; [|by wp_step].
  assert (Hs : ri_TieredBillingSnapshot info = Some snap).
  { unfold tiered in Ht. destruct (ri_TieredBillingSnapshot info); [|done]. case_decide; congruence. }
  destruct (Hsnap snap Hs) as [HE Hhash]. wp_step. wp_step. unfold ComputeTieredQuotaWithRequest. wp_step. rewrite Hhash.
  eapply wp_mono; [apply (wp_evaluate shuffle now E Hsha _ params _ cache HE Hok)|].
  intros r cache' [-> Hok']. cbn [fmap option_fmap option_map]. destruct (evaluated _ _ _ _ _) as [[cost trace]|err]; by repeat wp_step.
Qed.
End Estimate.

(** C10: a request whose price is an expression and that uses exactly the tokens it was
    estimated at (all of the tokens it may answer with, nothing cached, no picture or
    sound) is settled at exactly the quota that was reserved for it, in the tier of the
    estimate, whatever else was compiled, evicted or invalidated before the estimate and
    between it and the settlement (and although the settings may have changed since: the
    snapshot holds the expression).  The expression is one that gives the same answers at
    the time of the settlement as at the time of the estimate, which a price that depends
    on the hour does not across a change of price.  A free group reserves nothing and
    settles at nothing, as long as the price does not overflow a float. *)
Theorem exact_estimate_settles {Engine : ExprEngine} (shuffle shuffle' : ∀ A, list A → list A) (now now' : Z) (E : string → Prop)
    (d : DB) (g : GroupSettings) (s : PriceSettings) (autoGroup : option string) (http : option (string * result string))
    (promptTokens : Z) (meta : TokenCountMeta) (info : RelayInfo) (e : string) (ops ops' : list cache_op) (p : PriceData) (st : Pricing)
    (usage : Usage) (claude : bool) (vars : list string) :
  (∀ e e', E e → E e' → sha256 e = sha256 e' → e = e') →
  Forall (λ op, ∀ e, op_expr op = Some e → E e) ops → Forall (λ op, ∀ e, op_expr op = Some e → E e) ops' →
  GetBillingMode s (ri_OriginModelName (ri_Call info)) = BillingModeTieredExpr →
  GetBillingExpr s (ri_OriginModelName (ri_Call info)) = Some e → E e →
  (∀ params request, evaluated shuffle' now' e params request = evaluated shuffle now e params request) →
  as_estimated promptTokens meta usage →
  ModelPriceHelper shuffle now d g s autoGroup http promptTokens meta (info, cache_after shuffle now ops) = (Ok p, st) →
  (pd_FreeByGroupRatio p = true → isFiniteRatio (pd_QuotaBeforeGroup p) = true) →
  ∃ tr, (TryTieredSettle shuffle' now' st.1 (BuildTieredTokenParams usage claude vars) (cache_from shuffle' now' st.2 ops')).1 =
          Ok (Some (pd_QuotaToPreConsume p, Some tr)) ∧
        CrossedTier tr = false ∧ ActualQuotaBeforeGroup tr = pd_QuotaBeforeGroup p.
Proof.
  intros Hsha Hops Hops' Hmode He HE Hclock Huse Hrun Hfree.
  assert (H := wp_run _ _ _ _ _ (wp_tiered_price shuffle now d g s autoGroup http E Hsha promptTokens meta info _ e He HE
    (cache_after_ok shuffle now E Hsha ops Hops) Hmode) Hrun).
  destruct H as [Hok H].
  destruct (H p eq_refl) as (snap & request & cost & trace & Ht & Hreq & <- & Hhash & Htier & Hev & Hq & Hzero & Hpre).
  rewrite (estimated_params _ _ _ _ _ Huse). rewrite <-Hclock in Hev.
  assert (Hsnap : snapshot_ok E st.1).
  { intros snap' Hs'. unfold tiered in Ht. rewrite Hs' in Ht. case_decide; [|done]. injection Ht as ->. by split. }
  destruct (wp_result _ _ _ (wp_settle_tiered shuffle' now' E Hsha st.1 (estimate promptTokens meta) _ Hsnap
    (cache_from_ok shuffle' now' E Hsha _ _ Hok Hops'))) as (r & cache' & Hset & -> & _).
  unfold expression_settle in Hset. rewrite Ht, Hreq in Hset. cbn [fmap option_fmap option_map from_option id] in Hset. rewrite Hev in Hset.
  eexists. split.
  - rewrite Hset. cbn [fst]. rewrite Hpre. destruct (pd_FreeByGroupRatio p); [|reflexivity].
    rewrite finite_mul_zero; [reflexivity|by rewrite <-Hq; apply Hfree|by apply Hzero].
  - cbn. rewrite Htier, Hq. split; [by apply bool_decide_eq_false; intros []|done].
Qed.

(** ** What is computed is what is paid *)

Local Close Scope Q_scope.
Section Paid.
Context {D : Decimals} {Engine : ExprEngine} (shuffle : ∀ A, list A → list A) (now : Z).
Context (cfg : Config) (s : PriceSettings) (idx : toolPriceIndex).

(** What a settlement keeps of a request: all but the report on a subscription. *)
Definition kept_info (c : Ctx) : RelayInfo := (cx_info c) <| ri_Subscription := mkSubInfo 0 0 0 0 "" 0 0 |>.
Lemma on_world_keeps_info {A} (m : W A) : keeps kept_info (on_world m).
Proof. by intros c. Qed.
Lemma Settle_keeps_info actual : keeps kept_info (Settle cfg actual).
Proof.
  unfold Settle, the_session, the_info, set_session, set_info, recordValuePackageUsage, the_info.
  keeps_solve; try apply on_world_keeps_info. repeat match goal with r : result () |- _ => destruct r end; by intros c.
Qed.

(** The counters of the user and of the channel. *)
Lemma counters_kept uid cid q w :
  table_wf (users (w_db w)) →
  wp (UpdateUserUsedQuotaAndRequestCount cfg uid q) (λ r w', r = Ok tt ∧ table_wf (users (w_db w'))) w ∧
  wp (UpdateChannelUsedQuota cfg cid q) (λ r w', r = Ok tt ∧ table_wf (users (w_db w'))) w.
Proof.
  intros Hu. unfold UpdateUserUsedQuotaAndRequestCount, UpdateChannelUsedQuota.
  split; destruct (cf_batch cfg); (split; [done|]); try exact Hu. by apply users_update_wf.
Qed.

Lemma wp_counters uid cid q n w :
  ready n w → 0 ≤ n → 0 ≤ q → n + 2 * q + 1 ≤ max_int64 →
  wp (_ ← UpdateUserUsedQuotaAndRequestCount cfg uid q; UpdateChannelUsedQuota cfg cid q)
    (λ r w', r = Ok tt ∧ ready (n + 2 * q + 1) w' ∧
       shifted w w' (at_key (0, 0, 0) (0, q, 1) uid) (λ _, 0) (at_key 0 q cid)) w.
Proof.
  intros [Hs Hu] Hn Hq Hfit. wp_step.
  eapply wp_mono; [exact (wp_and _ _ _ _ (proj1 (counters_kept uid cid q w Hu)) (count_post cfg uid q w n Hs ltac:(lia)))|].
  intros r w1 [[-> Hu1] (Hs1 & Hw1 & _)].
  eapply wp_mono; [exact (wp_and _ _ _ _ (proj2 (counters_kept uid cid q w1 Hu1)) (channel_post cfg cid q w1 _ Hw1 ltac:(lia)))|].
  intros r w2 [[-> Hu2] (Hs2 & Hw2 & _)]. split; [done|]. split; [split; [|done]; by eapply stores_within_mono; [|done]; lia|].
  eapply shifted_ext; [exact (shifted_trans _ _ _ _ _ _ _ _ _ Hs1 Hs2)|..]; intros id; unfold at_key, add_user3, add_user;
    repeat case_decide; cbn; repeat match goal with |- (_, _) = (_, _) => f_equal end; lia.
Qed.

Lemma wp_bind_inv {S A C} (m : M S A) (k : A → M S C) Q st :
  wp (m ≫= k) Q st → wp m (λ r st', match r with Ok a => wp (k a) Q st' | Err e => Q (Err e) st' end) st.
Proof. unfold wp, mbind, M_bind, m_bind. by destruct (m st) as [[] ?]. Qed.
Lemma wp_in_session {A} (m : B A) (Q : result A → Relay → Prop) c cache logs :
  wp m (λ r c', Q r (mkRelaying c' cache logs)) c → wp (in_session m) Q (mkRelaying c cache logs).
Proof. done. Qed.
Lemma wp_in_cache {A} (m : M ExprCache A) (Q : result A → Relay → Prop) c cache logs :
  wp m (λ r cache', Q r (mkRelaying c cache' logs)) cache → wp (in_cache m) Q (mkRelaying c cache logs).
Proof. done. Qed.

(** The end of a request that a wallet session pays for. *)
Lemma wp_count_and_settle total q p n st :
  let c := rl_ctx st in
  let uid := ri_UserId (cx_info c) in
  wallet_open p c → ready n (cx_world c) → package_id (cx_info c) ≤ 0 → 0 ≤ n → 0 ≤ q → 0 ≤ p →
  n + 3 * (p + q) + 2 * q + 1 ≤ max_int64 →
  wp (count_and_settle cfg true total q)
    (λ r st', r = Ok tt ∧ rl_cache st' = rl_cache st ∧ rl_logs st' = rl_logs st ∧
       kept_info (rl_ctx st') = kept_info c ∧ bs_settled (cx_session (rl_ctx st')) = true ∧
       shifted (cx_world c) (cx_world (rl_ctx st'))
         (at_key (0, 0, 0) (p - q, if decide (total = 0) then 0 else q, if decide (total = 0) then 0 else 1) uid)
         (at_key 0 (token_share (cx_info c) (p - q)) (ri_TokenId (cx_info c)))
         (at_key 0 (if decide (total = 0) then 0 else q) (channel_id (cx_info c)))) st.
Proof.
  destruct st as [[w i ses] cache logs]. cbv zeta. cbn [rl_ctx rl_cache rl_logs cx_info cx_world]. intros Ho Hr Hpk Hn Hq Hp Hfit.
  unfold count_and_settle. wp_step. apply wp_in_session. unfold the_info. wp_step. wp_step. wp_step. cbn [cx_info].
  set (used := if decide (total = 0) then 0 else q). set (count := if decide (total = 0) then 0 else 1).
  wp_step. apply (wp_mono _ (λ r st, r = Ok tt ∧ ∃ w1, st = mkRelaying (mkCtx w1 i ses) cache logs ∧ ready (n + 2 * q + 1) w1 ∧
    shifted w w1 (at_key (0, 0, 0) (0, used, count) (ri_UserId i)) (λ _, 0) (at_key 0 used (channel_id i)))).
  { unfold used, count. case_decide.
    - wp_step. split; [done|]. exists w. split_and!; [done|by apply (ready_mono n); [lia|]|].
      eapply shifted_ext; [apply shifted_0|..]; intros id; unfold at_key; by repeat case_decide.
    - wp_step. apply wp_in_session, wp_on_world. assert (Hc := wp_counters (ri_UserId i) (channel_id i) q n w Hr Hn Hq ltac:(lia)).
      apply wp_bind_inv in Hc. eapply wp_mono; [exact Hc|]. intros [[]|e] w1 Hw1; [|by destruct Hw1].
      apply wp_in_session, wp_on_world. eapply wp_mono; [exact Hw1|]. intros r w2 (-> & Hr2 & Hs2). split; [done|]. by exists w2. }
  intros r st (-> & w1 & -> & Hr1 & Hs1). wp_step. wp_step. apply wp_in_session. unfold SettleBilling.
  assert (Hset := wp_settle cfg q p (n + 2 * q + 1) (mkCtx w1 i ses)). cbn [cx_world cx_info] in Hset.
  assert (Ho1 : wallet_open p (mkCtx w1 i ses)) by by destruct Ho.
  specialize (Hset Ho1 Hr1 ltac:(lia) Hq ltac:(lia) Hpk ltac:(lia) ltac:(lia)).
  apply (wp_keeps kept_info _ _ _ (Settle_keeps_info q)). eapply wp_mono; [exact Hset|].
  intros r [w2 i2 ses2] (-> & Hclosed & [Hs2 _ _]) Hkept. wp_step. cbn [rl_ctx rl_cache rl_logs cx_session cx_world] in *.
  split_and!; [done|done|done|exact Hkept|done|].
  eapply shifted_ext; [exact (shifted_trans _ _ _ _ _ _ _ _ _ Hs1 Hs2)|..]; intros id; unfold at_key, add_user3, add_user;
    repeat case_decide; cbn; repeat match goal with |- (_, _) = (_, _) => f_equal end; try lia.
  unfold token_share. destruct (ri_IsPlayground i); lia.
Qed.

Lemma kept_fields c c' : kept_info c' = kept_info c →
  ri_UserId (cx_info c') = ri_UserId (cx_info c) ∧ ri_TokenId (cx_info c') = ri_TokenId (cx_info c).
Proof. unfold kept_info. intros H. split; [exact (f_equal ri_UserId H)|exact (f_equal ri_TokenId H)]. Qed.

(** The bill of a text request: what the expression of its price gives, with the tool
    calls on top, or the quota of the summary. *)
Definition text_bill (ctx : TextContext) (info : RelayInfo) (usage : option Usage) : Z :=
  let x := calculateTextQuotaSummary shuffle s idx ctx info usage in
  let vars := from_option (λ snap, variables (tb_ExprString snap)) [] (ri_TieredBillingSnapshot info) in
  match usage ≫= λ u, expression_settle shuffle now info (BuildTieredTokenParams u (sm_IsClaudeUsageSemantic x) vars) with
  | Some (tieredQuota, tieredRes) => composeTieredTextQuota info x tieredQuota tieredRes
  | None => sm_Quota x
  end.

(** Without tokens the quota of the summary is nothing. *)
Lemma empty_bill ctx info usage :
  sm_TotalTokens (calculateTextQuotaSummary shuffle s idx ctx info usage) = 0 → tiered info = None →
  text_bill ctx info usage = 0.
Proof.
  intros H0 Ht. unfold text_bill, expression_settle. rewrite Ht.
  assert (Hq : sm_Quota (calculateTextQuotaSummary shuffle s idx ctx info usage) = 0).
  { revert H0. unfold calculateTextQuotaSummary. cbv zeta. destruct (calculateTextToolCallSurcharge _ _ _ _) as [surcharge [[webs claudes] files]].
    unfold finish_summary. case_decide; [done|]. by destruct (_ && _). }
  by destruct usage.
Qed.

(** A text request paid by a wallet session that has charged [p]. *)
Lemma wp_post_text (E : string → Prop) ctx usage p n c cache logs :
  (∀ e e', E e → E e' → sha256 e = sha256 e' → e = e') → snapshot_ok E (cx_info c) → exprs_ok E cache →
  let x := calculateTextQuotaSummary shuffle s idx ctx (cx_info c) usage in
  let q := text_bill ctx (cx_info c) usage in
  let counted := if decide (sm_TotalTokens x = 0) then 0 else 1 in
  wallet_open p c → ready n (cx_world c) → package_id (cx_info c) ≤ 0 → 0 ≤ n → 0 ≤ q → 0 ≤ p →
  n + 3 * (p + q) + 2 * q + 1 ≤ max_int64 →
  wp (PostTextConsumeQuota shuffle now cfg s idx true true ctx usage)
    (λ r st, r = Ok tt ∧
       shifted (cx_world c) (cx_world (rl_ctx st)) (at_key (0, 0, 0) (p - q, counted * q, counted) (ri_UserId (cx_info c)))
         (at_key 0 (token_share (cx_info c) (p - q)) (ri_TokenId (cx_info c)))
         (at_key 0 (counted * q) (channel_id (cx_info c))) ∧
       bs_settled (cx_session (rl_ctx st)) = true ∧
       ∃ log, rl_logs st = logs ++ [log] ∧ lg_UserId log = ri_UserId (cx_info c) ∧ lg_TokenId log = ri_TokenId (cx_info c) ∧
              lg_Quota log = q) (mkRelaying c cache logs).
Proof.
  cbv zeta. intros Hsha Hsnap Hcache Ho Hr Hpk Hn Hq Hp Hfit. unfold PostTextConsumeQuota.
  wp_step. apply wp_in_session. unfold the_info at 1. wp_step. wp_step. wp_step.
  set (q := text_bill ctx (cx_info c) usage) in *.
  assert (Hquota : q = text_bill ctx (cx_info c) usage) by done. unfold text_bill in Hquota. cbv zeta in Hquota.
  set (x := calculateTextQuotaSummary shuffle s idx ctx (cx_info c) usage) in *. clearbody q.
  wp_step. apply (wp_mono _ (λ r st, r = Ok q ∧ ∃ cache', st = mkRelaying c cache' logs)).
  { destruct usage as [usage|]; [|wp_step; split; [by rewrite Hquota|eauto]]. wp_step. apply wp_in_cache.
    apply (wp_mono _ (λ r cache', r = Ok (from_option (λ snap, variables (tb_ExprString snap)) [] (ri_TieredBillingSnapshot (cx_info c))) ∧
      exprs_ok E cache')).
    { unfold tiered_vars. destruct (ri_TieredBillingSnapshot (cx_info c)) as [snap|] eqn:Hs; [|by wp_step].
      by apply (wp_variables E Hsha); [apply Hsnap|]. }
    intros r cache1 [-> Hcache1]. wp_step. apply wp_in_cache.
    eapply wp_mono; [by apply (wp_settle_tiered shuffle now E Hsha (cx_info c) _ cache1)|].
    intros r cache2 [-> _]. cbn [mbind option_bind] in Hquota.
    wp_step. split; [|by exists cache2]. rewrite Hquota. reflexivity. }
  intros r st (-> & cache1 & ->). wp_step.
  eapply wp_mono; [by apply (wp_count_and_settle (sm_TotalTokens x) q p n (mkRelaying c cache1 logs))|].
  intros r [c' cache' logs'] (-> & _ & Hl & Hk & Hset & Hsh). cbn [rl_ctx rl_cache rl_logs] in *. subst logs'.
  destruct (kept_fields _ _ Hk) as [Hu Ht].
  unfold log_usage. wp_step. apply wp_in_session. unfold the_info. wp_step. wp_step. wp_step. unfold RecordConsumeLog. wp_step.
  cbn [rl_ctx rl_logs]. split_and!; [done| |done|by eexists].
  eapply shifted_ext; [exact Hsh|..]; intros id; unfold at_key; repeat case_decide; try done; try lia;
    repeat match goal with |- (_, _) = (_, _) => f_equal end; lia.
Qed.
End Paid.

(** C4: a text request that the wallet pays for costs exactly its bill: the quota its
    tokens come to or, when the price of its model is an expression, what the expression
    makes of the usage, plus the tool calls.  However much was charged when its session
    was opened and reserved while it ran, after [PostTextConsumeQuota] (with the usage
    log enabled) the wallet and the token have paid that bill (the token nothing for a
    playground request), the user's counters and the channel's have grown by it and by
    one request, no other balance has changed, the usage log has one more row, with that
    bill, and the session is closed.  A request without tokens is not counted, and it
    costs nothing unless it is billed by an expression.  The bill must not be negative
    and the amounts must fit an int64 together; the expression cache may hold anything
    that compiling expressions leaves in it. *)
Theorem text_request_charged {D : Decimals} {Engine : ExprEngine} (shuffle : ∀ A, list A → list A) (now : Z)
    (E : string → Prop) (cfg cfg' : Config) (s : PriceSettings) (idx : toolPriceIndex) (ctx : TextContext) (usage : option Usage)
    (tokenQuota quota n : Z) (ops : list (Config * reserve_op)) (w : World) (i : RelayInfo) (ses : BillingSession) (c1 : Ctx)
    (cache : ExprCache) (logs : list ConsumeLog) :
  (∀ e e', E e → E e' → sha256 e = sha256 e' → e = e') → exprs_ok E cache →
  fresh_request i → package_id i ≤ 0 → ready n w → tryWallet cfg tokenQuota quota (mkCtx w i ses) = (Ok tt, c1) →
  let c2 := (run_reserves ops c1).2 in
  let x := calculateTextQuotaSummary shuffle s idx ctx (cx_info c2) usage in
  let q := text_bill shuffle now s idx ctx (cx_info c2) usage in
  snapshot_ok E (cx_info c2) → affordable n i quota ops q →
  n + 7 * (wallet_consume (restoreOriginalBillingRatio i) quota + sumZ (λ co, amount_of co.2) ops + q) + 1 ≤ max_int64 →
  let run := PostTextConsumeQuota shuffle now cfg' s idx true true ctx usage (mkRelaying c2 cache logs) in
  let st := run.2 in
  let counted := if decide (sm_TotalTokens x = 0) then 0 else 1 in
  run.1 = Ok tt ∧
  shifted w (cx_world (rl_ctx st)) (at_key (0, 0, 0) (- q, counted * q, counted) (ri_UserId i))
    (at_key 0 (- token_share i q) (ri_TokenId i)) (at_key 0 (counted * q) (channel_id (cx_info c2))) ∧
  bs_settled (cx_session (rl_ctx st)) = true ∧
  (∃ log, rl_logs st = logs ++ [log] ∧ lg_UserId log = ri_UserId i ∧ lg_TokenId log = ri_TokenId i ∧ lg_Quota log = q) ∧
  (sm_TotalTokens x = 0 → tiered (cx_info c2) = None → q = 0).
Proof.
  intros Hsha Hcache Hfr Hpk Hr Hrun c2 x q Hsnap Haff Hfit.
  destruct (session_runs _ _ _ ops _ _ _ _ _ _ Hfr Hr Haff Hrun) as (p & Hp & Ho & Hsr & Hpaid). fold c2 in Ho, Hsr, Hpaid.
  destruct Haff as (Hn & Hq & Hqq & _). set (total := wallet_consume _ _ + _) in *.
  pose proof Hsr as (Hu & Ht & _ & Hpkg).
  assert (H := wp_post_text shuffle now cfg' s idx E ctx usage p (n + total) c2 cache logs Hsha Hsnap Hcache Ho (paid_ready _ _ _ _ _ _ _ Hpaid)
    ltac:(unfold package_id in *; by rewrite Hpkg) ltac:(lia) Hqq ltac:(lia)). fold x q in H. specialize (H ltac:(lia)).
  cbv zeta. unfold wp in H. destruct (PostTextConsumeQuota _ _ _ _ _ _ _ _ _ _) as [r st]. cbn [fst snd] in H |- *.
  destruct H as (-> & Hsh & Hset & log & Hlog & Hlu & Hlt & Hlq). rewrite Hu, Ht, (token_share_same _ _ _ Hsr) in *.
  split_and!; [done| |done|exists log; by rewrite Hlu, Hlt|apply empty_bill].
  eapply shifted_ext; [exact (shifted_trans _ _ _ _ _ _ _ _ _ (pa_shift _ _ _ _ _ _ _ Hpaid) Hsh)|..];
    intros id; unfold at_key, add_user3, add_user; repeat case_decide; cbn;
    repeat match goal with |- (_, _) = (_, _) => f_equal end; try lia; unfold token_share; destruct (ri_IsPlayground i); lia.
Qed.

(** ** Tool calls and tiers *)

(** The bill of the tool calls adds up, and lists only calls that cost something. *)
Lemma tool_calls_total (s : PriceSettings) (idx : toolPriceIndex) (usage : ToolCallUsage) (groupRatio : float64) :
  let r := ComputeToolCallQuota s idx usage groupRatio in
  TotalQuota r = foldl (λ n item, (n +! ti_Quota item)%go) 0 (Items r) ∧
  Forall (λ item, 0 < ti_CallCount item ∧ ((float_zero <? ti_PricePer1K item)%float = true ∨ ti_PricePer1K item = S754_nan)) (Items r).
Proof.
  set (good := λ r, TotalQuota r = foldl (λ n item, (n +! ti_Quota item)%go) 0 (Items r) ∧
    Forall (λ item, 0 < ti_CallCount item ∧ ((float_zero <? ti_PricePer1K item)%float = true ∨ ti_PricePer1K item = S754_nan)) (Items r)).
  assert (Hadd : ∀ item r, good r → 0 < ti_CallCount item → (ti_PricePer1K item <=? float_zero)%float = false → good (add_item item r)).
  { intros item r [Ht Hf] Hc Hp. unfold good, add_item; cbn [TotalQuota Items]. rewrite foldl_app. cbn [foldl]. split; [by rewrite Ht|].
    rewrite Forall_app, Forall_singleton. split_and!; [done|done|].
    destruct (ti_PricePer1K item) as [[]|[]| |[]]; cbn in *; first [discriminate Hp|by left|by right]. }
  cbv zeta. change (good (ComputeToolCallQuota s idx usage groupRatio)). unfold ComputeToolCallQuota.
  assert (H0 : good (mkToolResult 0 [])) by by split.
  assert (Himg : ∀ q z, (GetGPTImage1PriceOnceCall q z <=? float_zero)%float = false).
  { intros q z. unfold GetGPTImage1PriceOnceCall. repeat case_decide; vm_compute; reflexivity. }
  repeat match goal with
  | |- good (match ?x with _ => _ end) => destruct x eqn:?
  | |- good (add_item _ _) => apply Hadd; cbn [ti_CallCount ti_PricePer1K]; [|lia|done || apply Himg]
  | |- good _ => exact H0
  end.
Qed.

(** ** The fee for refused content *)

Section Fee.
Context {D : Decimals} {Engine : ExprEngine} (cfg : Config) (s : PriceSettings).

(** A charge after the end of a request that no subscription pays for. *)
Lemma wp_charge_after q n w i ses :
  ri_BillingSource i ≠ BillingSourceSubscription → 0 < q → ready n w → 0 ≤ n → n + 2 * q ≤ max_int64 →
  wp (PostConsumeQuota cfg q)
    (λ r c, r = Ok tt ∧ ∃ w', c = mkCtx w' i ses ∧ paid (ri_UserId i) (ri_TokenId i) q (token_share i q) (n + 2 * q) w w')
    (mkCtx w i ses).
Proof.
  intros Hsrc Hq Hr Hn Hfit. unfold PostConsumeQuota, the_info. wp_step. wp_step. wp_step. wp_step. cbn [cx_info].
  wp_step. rewrite decide_False by done. apply wp_on_world. rewrite decide_True by lia. cbn [cx_world].
  eapply wp_mono; [apply (wp_decrease_user cfg (ri_UserId i) (ri_TokenId i) q n); [done|lia..]|].
  intros r w1 [-> Hp]. destruct (ri_IsPlayground i) eqn:Hpg.
  - wp_step. split; [done|]. exists w1. split; [done|]. eapply paid_eq; [exact Hp|done|unfold token_share; by rewrite Hpg|lia].
  - apply wp_on_world. cbn [cx_world].
    eapply wp_mono; [apply (wp_adjust_token cfg (ri_UserId i) i q (n + q)); [by eapply paid_ready|lia..]|].
    intros r w2 [-> Hp2]. split; [done|]. exists w2. split; [done|].
    eapply paid_eq; [exact (paid_trans _ _ _ _ _ _ _ _ _ _ _ Hp Hp2)|lia|unfold token_share; rewrite Hpg; lia|lia].
Qed.

End Fee.

(** The errors a fee is charged for, and the fee: the configured amount of dollars at the
    ratio of the group, rounded to a quota. *)
Definition refused_content (err : UpstreamError) : bool :=
  bool_decide (ue_code err = "violation_fee.grok.csam") || Contains (ue_text err) "Failed check: SAFETY_CHECK_TYPE" ||
  Contains (ue_text err) "Content violates usage guidelines" || Contains (ue_message err) "Failed check: SAFETY_CHECK_TYPE".
Lemma should_charge_alt err : shouldChargeViolationFee err = refused_content err.
Proof.
  unfold shouldChargeViolationFee, HasCSAMViolationMarker, refused_content, CSAMViolationMarker, ContentViolatesUsageMarker,
    ErrorCodeViolationFeeGrokCSAM.
  case_decide; [by rewrite bool_decide_true by done|rewrite bool_decide_false by done].
  destruct (Contains (ue_text err) "Failed check: SAFETY_CHECK_TYPE"), (Contains (ue_text err) "Content violates usage guidelines"); [done..|].
  apply orb_false_r.
Qed.

Definition fee_ratio (info : RelayInfo) : float64 := gr_GroupRatio (pd_GroupRatioInfo (ri_PriceData info)).

Section FeeAmount.
Context {D : Decimals} {L : DecimalLaws D} (s : PriceSettings) (settings : GrokSettings) (info : RelayInfo).

Definition fee_value : Z :=
  Qround_half (val (ViolationDeductionAmount settings) * val (QuotaPerUnit s) * val (fee_ratio info))%Q.
Definition violation_fee (apiErr : UpstreamError) : Z :=
  if refused_content apiErr && ViolationDeductionEnabled settings &&
     positive_ratio (ViolationDeductionAmount settings) && positive_ratio (fee_ratio info)
  then Z.max 0 fee_value else 0.

Lemma calc_fee_alt :
  isFiniteRatio (ViolationDeductionAmount settings) = true → isFiniteRatio (fee_ratio info) = true → in_int64 fee_value →
  calcViolationFeeQuota s (ViolationDeductionAmount settings) (fee_ratio info) =
    if positive_ratio (ViolationDeductionAmount settings) && positive_ratio (fee_ratio info) then Z.max 0 fee_value else 0.
Proof.
  intros Ha Hg Hfit. rewrite !positive_not_le, Ha, Hg. unfold calcViolationFeeQuota.
  destruct (ViolationDeductionAmount settings <=? float_zero)%float; [done|].
  destruct (fee_ratio info <=? float_zero)%float; [done|]. cbn [andb negb].
  assert (E : (value (Mul (Mul (NewFromFloat (ViolationDeductionAmount settings)) (NewFromFloat (QuotaPerUnit s)))
                (NewFromFloat (fee_ratio info))) == val (ViolationDeductionAmount settings) * val (QuotaPerUnit s) * val (fee_ratio info))%Q)
    by (rewrite !value_mul; reflexivity).
  apply Qround_half_proper in E. fold fee_value in E. rewrite int_of_round; rewrite E; [|exact Hfit]. case_decide; lia.
Qed.
End FeeAmount.


(** ** Examples *)

Local Existing Instance rational_decimals.
Local Existing Instance variable_engine.

Definition in_order (A : Type) (l : list A) : list A := l.
Lemma in_order_perm A (l : list A) : in_order A l ≡ₚ l.
Proof. done. Qed.

(** 100 prompt tokens of which 40 are cached, and 20 of completion, of a model at 1.25 and 4. *)
Definition text_call : CallInfo :=
  no_call <| ri_OriginModelName := "gpt-4o" |> <| ri_ChannelMeta := Some (mkMeta 1 3) |>.
Definition text_request : RelayInfo :=
  (session_request false 0) <| ri_Call := text_call |>
    <| ri_PriceData ::= λ p, p <| pd_ModelRatio := float_const 1.25 |> <| pd_CompletionRatio := float_const 4 |>
                               <| pd_CacheRatio := float_const 0.5 |> <| pd_OtherRatios := {["n" := float_one]} |> |>.
Definition text_usage : Usage :=
  no_usage <| ug_PromptTokens := 100 |> <| ug_CompletionTokens := 20 |> <| ug_PromptTokensDetails := mkIn 40 0 0 0 0 |>.
Definition plain_context : TextContext := mkTextContext 0 false "" "".
Definition tool_index : toolPriceIndex := RebuildToolPriceIndex in_order ∅.

Lemma text_quota_formula_witness :
  sm_Quota (calculateTextQuotaSummary in_order initial_prices tool_index plain_context text_request (Some text_usage)) = 200.
Proof.
  refine (eq_trans (text_quota_formula in_order initial_prices tool_index plain_context text_request (Some text_usage) in_order_perm _ _) _).
  - vm_compute. repeat split; discriminate.
  - vm_compute. split; discriminate.
  - vm_compute. reflexivity.
Defined.

Lemma tool_index_nonneg tool model : nonneg_ratio (GetToolPriceForModel tool_index tool model) = true.
Proof.
  rewrite tool_price_alt. destruct (list_find _ _) as [[i e]|] eqn:Hf.
  - apply list_find_Some in Hf as (Hi & _). apply list_elem_of_lookup_2 in Hi.
    assert (H : Forall (λ e, nonneg_ratio (pe_price e) = true) (default [] (ix_prefixes tool_index !! tool))); [|by rewrite Forall_forall in H; apply H].
    assert (Hm : map_Forall (λ _, Forall (λ e, nonneg_ratio (pe_price e) = true)) (ix_prefixes tool_index)).
    { rewrite map_Forall_to_list. vm_compute. repeat constructor. }
    destruct (ix_prefixes tool_index !! tool) eqn:E; [by apply (Hm _ _ E)|constructor].
  - assert (Hm : map_Forall (λ _ p, nonneg_ratio p = true) (ix_defaults tool_index)).
    { rewrite map_Forall_to_list. vm_compute. repeat constructor. }
    destruct (ix_defaults tool_index !! tool) eqn:E; [by apply (Hm _ _ E)|done].
Qed.

Lemma text_quota_bounds_witness :
  1 ≤ sm_Quota (calculateTextQuotaSummary in_order initial_prices tool_index plain_context text_request (Some text_usage)).
Proof.
  refine (proj2 (text_quota_bounds in_order initial_prices tool_index plain_context text_request (Some text_usage) in_order_perm _ _ _) _ _ _).
  - split_and!; [reflexivity|reflexivity|discriminate|exact tool_index_nonneg|].
    rewrite map_Forall_to_list. vm_compute. repeat constructor.
  - vm_compute. repeat split; discriminate.
  - vm_compute. split; discriminate.
  - vm_compute. reflexivity.
  - vm_compute. reflexivity.
  - vm_compute. discriminate.
Defined.

(** A model whose price is the number of its prompt tokens, in dollars per million. *)
Definition tiered_prices : PriceSettings :=
  initial_prices <| ps_BillingMode := {["my-model" := "tiered_expr"]} |> <| ps_BillingExpr := {["my-model" := "v1:p"]} |>.
Definition tiered_run : result PriceData * Pricing :=
  ModelPriceHelper in_order 0 channels_db initial_groups tiered_prices None None 3000 (mkCount 50 float_zero)
    (priced_request "my-model" false, cache_after in_order 0 [OpRun "c" no_tokens (mkInput ∅ "")]).
Definition tiered_price : PriceData := match tiered_run.1 with Ok p => p | Err _ => no_price end.

(** An answer of 3000 and 50 tokens, settled an hour later. *)
Definition expected_usage : Usage := no_usage <| ug_PromptTokens := 3000 |> <| ug_CompletionTokens := 50 |>.

Lemma exact_estimate_settles_witness :
  pd_QuotaToPreConsume tiered_price = 1500 ∧
  ∃ tr, (TryTieredSettle in_order 3600 tiered_run.2.1 (BuildTieredTokenParams expected_usage false ["p"])
           (cache_from in_order 3600 tiered_run.2.2 [OpInvalidate; OpSmoke "c"])).1 = Ok (Some (pd_QuotaToPreConsume tiered_price, Some tr)) ∧
        CrossedTier tr = false ∧ ActualQuotaBeforeGroup tr = pd_QuotaBeforeGroup tiered_price.
Proof.
  split; [vm_compute; reflexivity|].
  apply (exact_estimate_settles in_order in_order 0 3600 (λ _, True) channels_db initial_groups tiered_prices None None 3000 (mkCount 50 float_zero)
    (priced_request "my-model" false) "v1:p" [OpRun "c" no_tokens (mkInput ∅ "")] [OpInvalidate; OpSmoke "c"] tiered_price tiered_run.2).
  - intros e e' _ _ H. exact H.
  - repeat constructor.
  - repeat constructor.
  - vm_compute. reflexivity.
  - vm_compute. reflexivity.
  - exact I.
  - reflexivity.
  - by split.
  - vm_compute. reflexivity.
  - vm_compute. discriminate.
Defined.

(** The request above, from the opening of its session to the end. *)
Definition text_opened : Ctx := (tryWallet session_cfg 300 100 (session_start text_request)).2.
Definition text_finished : result () * Relay :=
  PostTextConsumeQuota in_order 0 session_cfg initial_prices tool_index true true plain_context (Some text_usage)
    (mkRelaying (run_reserves session_ops text_opened).2 ∅ []).

Lemma text_request_charged_witness :
  text_finished.1 = Ok tt ∧
  (user_balance (cx_world (rl_ctx text_finished.2)) 1, token_balance (cx_world (rl_ctx text_finished.2)) 7,
   channel_balance (cx_world (rl_ctx text_finished.2)) 3) = (Some (300, 200, 1), Some (100, 200), Some 200).
Proof.
  split; [|vm_compute; reflexivity].
  refine (proj1 (text_request_charged in_order 0 (λ _, True) session_cfg session_cfg initial_prices tool_index plain_context (Some text_usage)
    300 100 0 session_ops (mkWorld wallet_db empty_stores) text_request (cx_session (session_start text_request)) text_opened ∅ []
    _ _ _ _ _ _ _ _ _)).
  - intros e e' _ _ H. exact H.
  - split; [apply map_Forall_empty|vm_compute; lia].
  - by split.
  - by vm_compute.
  - exact session_ready.
  - vm_compute. reflexivity.
  - intros snap Hsnap. vm_compute in Hsnap. discriminate Hsnap.
  - vm_compute. repeat split; discriminate.
  - vm_compute. discriminate.
Defined.

(** ** Where the code and its intentions differ *)

(** A realtime request at a fixed price: the field that would end the reservation by
    tokens is not the one that holds the price, so 4 tokens reserve 150 on the wallet,
    at the ratio of a model that has none. *)
Definition fixed_price_ctx : Ctx :=
  text_opened <| cx_info ::= λ i, i <| ri_PriceData ::= λ p, p <| pd_UsePrice := true |> <| pd_ModelPrice := float_const 0.0001 |> |>
                                    <| ri_Call ::= λ c, c <| ri_OriginModelName := "my-realtime" |> |> |>.
Lemma realtime_price_ignored :
  let usage := mkRealtime 4 4 0 (mkIn 0 0 4 0 0) (mkOut 0 0 0) in
  let '(r, c) := PreWssConsumeQuota session_cfg initial_groups initial_prices true None usage fixed_price_ctx in
  r = Ok tt ∧ pd_UsePrice (ri_PriceData (cx_info c)) = true ∧ ri_RealtimeActualQuota (cx_info c) = 150 ∧
  user_balance (cx_world fixed_price_ctx) 1 = Some (400, 0, 0) ∧ user_balance (cx_world c) 1 = Some (350, 0, 0) ∧
  calculateAudioQuota initial_prices (audio_quota_info (cx_info c) "my-realtime" (mkDetails 4 0) (mkDetails 0 0)) = 0.
Proof. vm_compute. split_and!; reflexivity. Qed.

(** The price never reaches the computation either: an audio or a realtime request to a
    model with a fixed price is settled at nothing, whatever the price and the tokens. *)
Lemma fixed_price_audio_free `{DecimalLaws} (s : PriceSettings) info modelName input output :
  pd_UsePrice (ri_PriceData info) = true → calculateAudioQuota s (audio_quota_info info modelName input output) = 0.
Proof.
  intros Hprice. unfold calculateAudioQuota. cbn [audio_quota_info qi_UsePrice qi_ModelPrice qi_GroupRatio]. rewrite Hprice.
  assert (Hzero : (value (NewFromFloat float_zero) == 0)%Q) by (by apply value_float_zero).
  rewrite value_whole; rewrite !value_mul, Hzero, !Qmult_0_l; [reflexivity|by vm_compute].
Qed.

(** The total of cache writes is not the sum of its parts when the whole is larger. *)
Lemma cache_write_total_not_sum :
  let x := (initial_summary initial_prices text_request (Some text_usage))
    <| sm_CacheCreationTokens := 30 |> <| sm_CacheCreationTokens5m := 10 |> <| sm_CacheCreationTokens1h := 5 |> in
  cacheWriteTokensTotal x = 30 ∧ sm_CacheCreationTokens5m x + sm_CacheCreationTokens1h x = 15.
Proof. vm_compute. split; reflexivity. Qed.

(** The second marker is looked for in the text of the error only, twice. *)
Lemma message_marker_missed :
  shouldChargeViolationFee (mkUpstreamError "bad_response" "upstream error" "Content violates usage guidelines") = false ∧
  shouldChargeViolationFee (mkUpstreamError "bad_response" "upstream error" "Failed check: SAFETY_CHECK_TYPE") = true.
Proof. vm_compute. split; reflexivity. Qed.

(** An answer without any token, which audio and realtime requests are not charged for and
    the log calls impossible to charge, is charged in full when the price is an expression:
    here the expression fails, and the reserved 100 are kept, without being counted. *)
Definition failing_snapshot : BillingSnapshot :=
  mkTiered "tiered_expr" float_one (float_of_int 100) 100 "gpt-4o" "unknown" "unknown" 10 0 "" (float_of_int 500000) 1.
Definition empty_answer : result () * Relay :=
  PostTextConsumeQuota in_order 0 session_cfg initial_prices tool_index true true plain_context (Some no_usage)
    (mkRelaying (text_opened <| cx_info ::= λ i, i <| ri_TieredBillingSnapshot := Some failing_snapshot |> |>) ∅ []).
Lemma empty_answer_charged :
  sm_TotalTokens (calculateTextQuotaSummary in_order initial_prices tool_index plain_context text_request (Some no_usage)) = 0 ∧
  sm_Quota (calculateTextQuotaSummary in_order initial_prices tool_index plain_context text_request (Some no_usage)) = 0 ∧
  lg_Quota <$> rl_logs empty_answer.2 = [100] ∧
  user_balance (cx_world (rl_ctx empty_answer.2)) 1 = Some (400, 0, 0).
Proof. vm_compute. split_and!; reflexivity. Qed.

