(* ===== verification/Slots.v ===== *)
(** * Concurrency slots

    [middleware/value_package.go]: how many requests of one value package may run at
    the same time.  Without Redis the program keeps a counter per subscription in a
    map that goroutines share; a counter is created by the first request, protected
    by its own mutex and removed from the map by the last request that releases its
    slot.  Every access to the map and every operation on a mutex is one step of a
    thread, so the theorems hold for all interleavings of any number of threads.
    With Redis the slots are the members of a sorted set that three scripts change;
    Redis runs a script as one step. *)
From S2P Require Import Prelude Tables.

Definition normalizeValuePackageConcurrencyLimit (limit : Z) : Z := if decide (limit ≤ 0) then 1 else limit.

(** ** Counters in memory *)

(** [valuePackageConcurrencyCounter] with the thread that holds the mutex. *)
Record Counter := mkCounter { ct_mu : option nat; ct_count : Z }.
Global Instance Counter_eta : Settable Counter := λ c, mkCounter (ct_mu c) (ct_count c).

(** The identity of a counter: the subscription it was created for and a serial
    number. *)
Abbreviation address := (Z * nat)%type.

(** What the function returned by a successful acquisition captures. *)
Record Ticket := mkTicket { tk_counter : address; tk_released : bool }.

(** The next operation of a thread in [acquireValuePackageMemorySlot] or in the
    function it returns. *)
Inductive pc :=
| PLoadOrStore (sub limit : Z)
| PLock (a : address) (limit : Z)
| PLoad (a : address) (limit : Z)
| PRetry (a : address) (limit : Z)
| PCount (a : address) (limit : Z)
| PReturn (a : address)
| RLock (t : nat) (a : address)
| RCount (t : nat) (a : address)
| RDelete (a : address)
| RReturn (a : address).

(** [valuePackageConcurrencyCounters], the counters, the slots handed out so far and
    the threads that are in the middle of a call. *)
Record Slots := mkSlots {
  sl_map : gmap Z nat;
  sl_heap : gmap address Counter;
  sl_next : nat;
  sl_tickets : list Ticket;
  sl_threads : gmap nat pc;
}.
Global Instance Slots_eta : Settable Slots := λ s,
  mkSlots (sl_map s) (sl_heap s) (sl_next s) (sl_tickets s) (sl_threads s).

Definition no_slots : Slots := mkSlots ∅ ∅ 0 [] ∅.

Inductive call :=
| Acquire (userSubscriptionId limit : Z)
| Release (ticket : nat).

(** A thread that is not in a call starts one.  An acquisition for an invalid
    subscription is refused at once and changes nothing. *)
Definition start (i : nat) (k : call) (s : Slots) : option Slots :=
  match sl_threads s !! i with
  | Some _ => None
  | None =>
    match k with
    | Acquire sub limit =>
      if decide (sub ≤ 0) then Some s
      else Some (s <| sl_threads ::= insert i (PLoadOrStore sub (normalizeValuePackageConcurrencyLimit limit)) |>)
    | Release t =>
      match sl_tickets s !! t with
      | Some tk => Some (s <| sl_threads ::= insert i (RLock t (tk_counter tk)) |>)
      | None => None
      end
    end
  end.

Section Advance.
Context (i : nat).

Definition goto (p : pc) (s : Slots) : Slots := s <| sl_threads ::= insert i p |>.
Definition finish (s : Slots) : Slots := s <| sl_threads ::= delete i |>.
Definition set_counter (a : address) (c : Counter) (s : Slots) : Slots := s <| sl_heap ::= insert a c |>.

(** [mu.Lock], which waits while another thread holds the mutex, and [mu.Unlock]. *)
Definition lock (a : address) (s : Slots) : option Slots :=
  match sl_heap s !! a with
  | Some c => match ct_mu c with
              | None => Some (set_counter a (c <| ct_mu := Some i |>) s)
              | Some _ => None
              end
  | None => None
  end.
Definition unlock (a : address) (s : Slots) : option Slots :=
  match sl_heap s !! a with
  | Some c => Some (set_counter a (c <| ct_mu := None |>) s)
  | None => None
  end.

(** The next operation of the thread; [None] while it waits for a mutex. *)
Definition advance (s : Slots) : option Slots :=
  match sl_threads s !! i with
  | None => None
  | Some p =>
    match p with
    | PLoadOrStore sub limit =>
      match sl_map s !! sub with
      | Some n => Some (goto (PLock (sub, n) limit) s)
      | None =>
        let a := (sub, sl_next s) in
        Some (goto (PLock a limit)
          (set_counter a (mkCounter None 0) (s <| sl_map ::= insert sub (sl_next s) |> <| sl_next ::= S |>)))
      end
    | PLock a limit => goto (PLoad a limit) <$> lock a s
    | PLoad a limit => Some (goto (if decide (sl_map s !! a.1 = Some a.2) then PCount a limit else PRetry a limit) s)
    | PRetry a limit => goto (PLoadOrStore a.1 limit) <$> unlock a s
    | PCount a limit =>
      match sl_heap s !! a with
      | None => None
      | Some c =>
        if decide (ct_count c >= limit) then Some (goto (PReturn a) s)
        else Some (goto (PReturn a) (set_counter a (c <| ct_count ::= λ n, n +! 1 |>)
                                       (s <| sl_tickets ::= λ ts, ts ++ [mkTicket a false] |>)))
      end
    | PReturn a => finish <$> unlock a s
    | RLock t a => goto (RCount t a) <$> lock a s
    | RCount t a =>
      match sl_tickets s !! t, sl_heap s !! a with
      | Some tk, Some c =>
        if tk_released tk then Some (goto (RReturn a) s)
        else
          let count := if decide (ct_count c > 0) then ct_count c -! 1 else ct_count c in
          Some (goto (if decide (count = 0) then RDelete a else RReturn a)
                  (set_counter a (c <| ct_count := count |>)
                     (s <| sl_tickets ::= insert t (mkTicket (tk_counter tk) true) |>)))
      | _, _ => None
      end
    | RDelete a =>
      Some (goto (RReturn a)
        (if decide (sl_map s !! a.1 = Some a.2) then s <| sl_map ::= delete a.1 |> else s))
    | RReturn a => finish <$> unlock a s
    end
  end.
End Advance.

(** Any thread may start a call or take its next step.  [bound] is a limit the
    acquisitions for a subscription stay below. *)
Inductive step (bound : Z → Z) (s s' : Slots) : Prop :=
| step_start i k :
    match k with
    | Acquire sub limit => in_int64 limit ∧ normalizeValuePackageConcurrencyLimit limit ≤ bound sub
    | Release _ => True
    end → start i k s = Some s' → step bound s s'
| step_advance i : advance i s = Some s' → step bound s s'.

Definition reachable (bound : Z → Z) (s : Slots) : Prop := rtc (step bound) no_slots s.

(** The slots of a subscription, and of a counter, that are not released. *)
Definition holders (s : Slots) (sub : Z) : Z :=
  sumZ (λ tk, if decide ((tk_counter tk).1 = sub ∧ tk_released tk = false) then 1 else 0) (sl_tickets s).
Definition live (a : address) (ts : list Ticket) : Z :=
  sumZ (λ tk, if decide (tk_counter tk = a ∧ tk_released tk = false) then 1 else 0) ts.

(** ** Slots in Redis *)

(** A sorted set with the time its key expires; a key without members is absent. *)
Record SlotSet := mkSet { rs_members : gmap string Z; rs_expires : Z }.
Abbreviation redis := (gmap string SlotSet).

Definition valuePackageConcurrencySlotTTL := 120.
Definition valuePackageConcurrencyRedisKey (userSubscriptionId : Z) : string :=
  "value_package_concurrency:" +:+ pretty userSubscriptionId.

(** The members of a key at a time; Redis drops a key that has expired. *)
Definition members (now : Z) (key : string) (r : redis) : gmap string Z :=
  match r !! key with
  | Some set => if decide (now < rs_expires set) then rs_members set else ∅
  | None => ∅
  end.
(** The key with these members, [EXPIRE]d after [ttl] seconds. *)
Definition store_members (now ttl : Z) (key : string) (ms : gmap string Z) (r : redis) : redis :=
  if decide (ms = ∅) then delete key r else <[key := mkSet ms (now + ttl)]> r.

(** The three scripts.  Application and Redis read the same clock. *)
Definition valuePackageConcurrencyRedisAcquireScript (key token : string) (limit now ttl : Z) (r : redis) : bool * redis :=
  let ms := filter (λ m, now - ttl < m.2) (members now key r) in
  if decide (Z.of_nat (size ms) >= limit) then (false, store_members now ttl key ms r)
  else (true, store_members now ttl key (<[token := now]> ms) r).

Definition valuePackageConcurrencyRedisReleaseScript (key token : string) (now ttl : Z) (r : redis) : redis :=
  store_members now ttl key (delete token (members now key r)) r.

Definition valuePackageConcurrencyRedisRefreshScript (key token : string) (now ttl : Z) (r : redis) : bool * redis :=
  let ms := members now key r in
  if decide (is_Some (ms !! token)) then (true, store_members now ttl key (<[token := now]> ms) r)
  else (false, if decide (ms = ∅) then delete key r else r).

Definition acquireValuePackageRedisSlot (userSubscriptionId limit : Z) (token : string) (now : Z) (r : redis) : bool * redis :=
  valuePackageConcurrencyRedisAcquireScript (valuePackageConcurrencyRedisKey userSubscriptionId) token
    (normalizeValuePackageConcurrencyLimit limit) now valuePackageConcurrencySlotTTL r.
Definition refreshValuePackageRedisSlot (key token : string) (now : Z) (r : redis) : bool * redis :=
  valuePackageConcurrencyRedisRefreshScript key token now valuePackageConcurrencySlotTTL r.
Definition releaseValuePackageRedisSlot (key token : string) (now : Z) (r : redis) : redis :=
  valuePackageConcurrencyRedisReleaseScript key token now valuePackageConcurrencySlotTTL r.

(** What the instances of the program do for one subscription, at a time each: a
    request asks for a slot, the background task of a request refreshes its slot, or
    a request ends.  The second component of the state is the time each slot that is
    held was acquired or last refreshed. *)
Inductive slot_event :=
| EvAcquire (token : string) (limit : Z)
| EvRefresh (token : string)
| EvRelease (token : string).

Definition slot_event_step (sub now : Z) (e : slot_event) (st : redis * gmap string Z) : redis * gmap string Z :=
  let key := valuePackageConcurrencyRedisKey sub in
  let '(r, held) := st in
  match e with
  | EvAcquire token limit =>
    let '(ok, r) := acquireValuePackageRedisSlot sub limit token now r in (r, if ok then <[token := now]> held else held)
  | EvRefresh token =>
    let '(ok, r) := refreshValuePackageRedisSlot key token now r in (r, if ok then alter (λ _, now) token held else held)
  | EvRelease token => (releaseValuePackageRedisSlot key token now r, delete token held)
  end.

Fixpoint run_slot_events (sub : Z) (es : list (Z * slot_event)) (st : redis * gmap string Z) : redis * gmap string Z :=
  match es with
  | [] => st
  | (now, e) :: es => run_slot_events sub es (slot_event_step sub now e st)
  end.

(** Times do not go back, and limits stay below [bound]. *)
Fixpoint in_order (bound last : Z) (es : list (Z * slot_event)) : Prop :=
  match es with
  | [] => True
  | (now, e) :: es =>
    last ≤ now ∧
    match e with EvAcquire _ limit => normalizeValuePackageConcurrencyLimit limit ≤ bound | _ => True end ∧
    in_order bound now es
  end.

(** ** Invariants *)

(** The mutex a thread holds at an operation, and the counter it works on. *)
Definition owns (p : pc) : option address :=
  match p with
  | PLoad a _ | PRetry a _ | PCount a _ | PReturn a | RCount _ a | RDelete a | RReturn a => Some a
  | PLoadOrStore _ _ | PLock _ _ | RLock _ _ => None
  end.
Definition works_on (p : pc) : option address :=
  match p with PLoadOrStore _ _ => None | PLock a _ | RLock _ a => Some a | _ => owns p end.
Definition releases (p : pc) : option (nat * address) :=
  match p with RLock t a | RCount t a => Some (t, a) | _ => None end.

(** Mutexes and pointers: a thread that is inside a critical section holds the mutex,
    and nobody else does; every counter that is named exists. *)
Record locks_ok (s : Slots) : Prop := {
  lo_held : ∀ i p a, sl_threads s !! i = Some p → owns p = Some a →
    ∃ c, sl_heap s !! a = Some c ∧ ct_mu c = Some i;
  lo_owner : ∀ a c i, sl_heap s !! a = Some c → ct_mu c = Some i →
    ∃ p, sl_threads s !! i = Some p ∧ owns p = Some a;
  lo_works : ∀ i p a, sl_threads s !! i = Some p → works_on p = Some a → is_Some (sl_heap s !! a);
  lo_fresh : ∀ a, is_Some (sl_heap s !! a) → (a.2 < sl_next s)%nat;
  lo_map : ∀ sub n, sl_map s !! sub = Some n → is_Some (sl_heap s !! (sub, n));
  lo_tickets : ∀ t tk, sl_tickets s !! t = Some tk → is_Some (sl_heap s !! tk_counter tk);
  lo_releases : ∀ i p t a, sl_threads s !! i = Some p → releases p = Some (t, a) →
    ∃ tk, sl_tickets s !! t = Some tk ∧ tk_counter tk = a;
}.

Lemma owns_works p a : owns p = Some a → works_on p = Some a.
Proof. by destruct p. Qed.

(** Case analysis on lookups in updated maps. *)
Ltac look :=
  repeat match goal with
  | H : <[_ := _]> _ !! _ = Some _ |- _ => apply lookup_insert_Some in H as [[? ?]|[? ?]]
  | H : delete _ _ !! _ = Some _ |- _ => apply lookup_delete_Some in H as [? ?]
  | H : is_Some (<[_ := _]> _ !! _) |- _ => apply lookup_insert_is_Some in H as [?|[? ?]]
  end; simplify_eq.

(** A change of the thread's own position outside of critical sections. *)
Lemma locks_goto i p q s :
  locks_ok s → sl_threads s !! i = Some p → owns q = owns p →
  (∀ a, works_on q = Some a → is_Some (sl_heap s !! a)) →
  (∀ t a, releases q = Some (t, a) → releases p = Some (t, a)) → locks_ok (goto i q s).
Proof.
  intros [Hh Ho Hw Hf Hm Ht Hr] Hi Hown Hq Hrel. split; cbn; try done.
  - intros j r a Hj Ha. look; [by rewrite Hown in Ha; eauto|eauto].
  - intros a c j Hc Hmu. destruct (Ho a c j Hc Hmu) as (r & Hj & Ha). destruct (decide (j = i)) as [->|Hne].
    + exists q. rewrite lookup_insert_eq. split; [done|congruence].
    + exists r. by rewrite lookup_insert_ne.
  - intros j r a Hj Ha. look; eauto.
  - intros j r t a Hj Ha. look; eauto.
Qed.

(** Changes that keep every mutex and every counter that exists. *)
Lemma locks_counter a c c' s :
  locks_ok s → sl_heap s !! a = Some c → ct_mu c' = ct_mu c → locks_ok (set_counter a c' s).
Proof.
  intros [Hh Ho Hw Hf Hm Ht Hr] Ha Hmu.
  assert (Hsome : ∀ b, is_Some (sl_heap s !! b) → is_Some (<[a:=c']> (sl_heap s) !! b)).
  { intros b Hb. rewrite lookup_insert_is_Some. destruct (decide (a = b)); eauto. }
  split; cbn; try by eauto.
  - intros j r b Hj Hb. destruct (Hh j r b Hj Hb) as (d & Hd & Hj'). destruct (decide (a = b)) as [->|Hne].
    + exists c'. rewrite lookup_insert_eq. split; [done|congruence].
    + exists d. by rewrite lookup_insert_ne.
  - intros b d j Hd Hj. look; [apply (Ho b c); [done|congruence]|eauto].
  - intros b Hb. look; eauto.
Qed.

Lemma locks_lock i a p q s s' :
  locks_ok s → sl_threads s !! i = Some p → owns p = None → owns q = Some a → works_on p = Some a →
  (∀ t b, releases q = Some (t, b) → releases p = Some (t, b)) →
  lock i a s = Some s' → locks_ok (goto i q s').
Proof.
  intros [Hh Ho Hw Hf Hm Ht Hr] Hi Hp Hq Hwp Hrel. unfold lock. destruct (sl_heap s !! a) as [c|] eqn:Ha; [|done].
  destruct (ct_mu c) eqn:Hmu; [done|]. intros [= <-].
  assert (Hsome : ∀ b, is_Some (sl_heap s !! b) → is_Some (<[a:=c <| ct_mu := Some i |>]> (sl_heap s) !! b)).
  { intros b Hb. rewrite lookup_insert_is_Some. destruct (decide (a = b)); eauto. }
  split; cbn in *; try by eauto.
  - intros j r b Hj Hb. look.
    + exists (c <| ct_mu := Some j |>). by rewrite lookup_insert_eq.
    + destruct (Hh j r b) as (d & Hd & Hj'); [done..|]. exists d. rewrite lookup_insert_ne; [done|]. intros <-. congruence.
  - intros b d j Hd Hj. look; cbn in *; look.
    + exists q. by rewrite lookup_insert_eq.
    + destruct (Ho b d j) as (r & Hr' & Hb); [done..|]. exists r. rewrite lookup_insert_ne; [done|]. intros <-. congruence.
  - intros j r b Hj Hb. look; [|eauto]. apply owns_works in Hq. apply Hsome. rewrite Hq in Hb. look. eauto.
  - intros b Hb. look; eauto.
  - intros j r t b Hj Hb. look; eauto.
Qed.

(** The thread leaves its critical section, for another operation or for good. *)
Lemma locks_unlock i a p s s' (threads' : gmap nat pc) :
  locks_ok s → sl_threads s !! i = Some p → owns p = Some a → unlock a s = Some s' →
  (∀ j, j ≠ i → threads' !! j = sl_threads s !! j) →
  (∀ q, threads' !! i = Some q → works_on q = None ∧ releases q = None) → locks_ok (s' <| sl_threads := threads' |>).
Proof.
  intros [Hh Ho Hw Hf Hm Ht Hr] Hi Hp Hun Hother Hself. unfold unlock in Hun.
  destruct (sl_heap s !! a) as [c|] eqn:Ha; [|done]. injection Hun as <-.
  assert (Hsome : ∀ b, is_Some (sl_heap s !! b) → is_Some (<[a:=c <| ct_mu := None |>]> (sl_heap s) !! b)).
  { intros b Hb. rewrite lookup_insert_is_Some. destruct (decide (a = b)); eauto. }
  assert (Hcase : ∀ j q, threads' !! j = Some q → sl_threads s !! j = Some q ∧ j ≠ i ∨ works_on q = None ∧ releases q = None).
  { intros j q Hj. destruct (decide (j = i)) as [->|Hne]; [right; by apply Hself|left]. by rewrite <-Hother. }
  split; cbn; try by eauto.
  - intros j r b Hj Hb. destruct (Hcase j r Hj) as [[Hj' Hne]|[Hno _]]; [|apply owns_works in Hb; congruence].
    destruct (Hh j r b) as (d & Hd & Hmu); [done..|]. exists d. rewrite lookup_insert_ne; [done|]. intros <-.
    destruct (Hh i p a) as (? & ? & ?); [done..|]. congruence.
  - intros b d j Hd Hj. look; cbn in *; look. destruct (Ho b d j) as (r & Hr' & Hb); [done..|]. exists r. split; [|done].
    rewrite Hother; [done|]. intros ->. congruence.
  - intros j r b Hj Hb. destruct (Hcase j r Hj) as [[Hj' _]|[Hno _]]; [eauto|congruence].
  - intros b Hb. look; eauto.
  - intros j r t b Hj Hb. destruct (Hcase j r Hj) as [[Hj' _]|[_ Hno]]; [eauto|congruence].
Qed.

(** Slots are only added or marked as released. *)
Lemma locks_tickets ts s :
  locks_ok s → (∀ t tk, sl_tickets s !! t = Some tk → ∃ tk', ts !! t = Some tk' ∧ tk_counter tk' = tk_counter tk) →
  (∀ t tk, ts !! t = Some tk → is_Some (sl_heap s !! tk_counter tk)) → locks_ok (s <| sl_tickets := ts |>).
Proof.
  intros [Hh Ho Hw Hf Hm Ht Hr] Hold Hnew. split; cbn; try done. intros j r t a Hj Hb.
  destruct (Hr j r t a Hj Hb) as (tk & Hl & <-). by apply Hold.
Qed.

Lemma locks_delete sub s : locks_ok s → locks_ok (s <| sl_map ::= delete sub |>).
Proof. intros [Hh Ho Hw Hf Hm Ht Hr]. split; cbn; try done. intros sub' n Hn. look. eauto. Qed.

Lemma locks_alloc sub s :
  locks_ok s → locks_ok (set_counter (sub, sl_next s) (mkCounter None 0) (s <| sl_map ::= insert sub (sl_next s) |> <| sl_next ::= S |>)).
Proof.
  intros [Hh Ho Hw Hf Hm Ht Hr].
  assert (Hnew : ∀ n, sl_heap s !! (n, sl_next s) = None).
  { intros n. apply eq_None_not_Some. intros Hn%Hf. cbn in Hn. lia. }
  assert (Hsome : ∀ b, is_Some (sl_heap s !! b) → is_Some (<[(sub, sl_next s):=mkCounter None 0]> (sl_heap s) !! b)).
  { intros b Hb. rewrite lookup_insert_is_Some. destruct (decide ((sub, sl_next s) = b)); eauto. }
  split; cbn; try by eauto.
  - intros j r b Hj Hb. destruct (Hh j r b Hj Hb) as (d & Hd & Hmu). exists d. rewrite lookup_insert_ne; [done|].
    intros <-. by rewrite Hnew in Hd.
  - intros b d j Hd Hj. look. eauto.
  - intros b Hb. look; cbn; [lia|]. pose proof (Hf b). naive_solver lia.
  - intros sub' n Hn. look; [|by eauto]. rewrite lookup_insert_is_Some. by left.
Qed.

Lemma locks_unlock_goto i a p q s s' :
  locks_ok s → sl_threads s !! i = Some p → owns p = Some a → works_on q = None → releases q = None →
  unlock a s = Some s' → locks_ok (goto i q s').
Proof.
  intros Hs Hi Hp Hq Hq' Hun. change (locks_ok (s' <| sl_threads := <[i := q]> (sl_threads s') |>)).
  assert (Ht : sl_threads s' = sl_threads s).
  { unfold unlock in Hun. destruct (sl_heap s !! a); [|done]. by injection Hun as <-. }
  eapply locks_unlock; [done..| |].
  - intros j Hj. by rewrite Ht, lookup_insert_ne.
  - intros r. rewrite lookup_insert_eq. by intros [= <-].
Qed.

Lemma locks_unlock_finish i a p s s' :
  locks_ok s → sl_threads s !! i = Some p → owns p = Some a → unlock a s = Some s' → locks_ok (finish i s').
Proof.
  intros Hs Hi Hp Hun. change (locks_ok (s' <| sl_threads := delete i (sl_threads s') |>)).
  assert (Ht : sl_threads s' = sl_threads s).
  { unfold unlock in Hun. destruct (sl_heap s !! a); [|done]. by injection Hun as <-. }
  eapply locks_unlock; [done..| |].
  - intros j Hj. by rewrite Ht, lookup_delete_ne.
  - intros r. by rewrite lookup_delete_eq.
Qed.

Lemma locks_start i k s s' : locks_ok s → start i k s = Some s' → locks_ok s'.
Proof.
  intros Hs. unfold start. destruct (sl_threads s !! i) eqn:Hi; [done|].
  assert (Hnew : ∀ p, owns p = None → (∀ a, works_on p = Some a → is_Some (sl_heap s !! a)) →
    (∀ t a, releases p = Some (t, a) → ∃ tk, sl_tickets s !! t = Some tk ∧ tk_counter tk = a) →
    locks_ok (s <| sl_threads ::= insert i p |>)).
  { destruct Hs as [Hh Ho Hw Hf Hm Ht Hr]. intros p Hp Hwp Hrp. split; cbn; try done.
    - intros j r a Hj Ha. look. eauto.
    - intros a c j Hc Hmu. destruct (Ho a c j Hc Hmu) as (r & Hj & Ha). exists r. rewrite lookup_insert_ne; [done|congruence].
    - intros j r a Hj Ha. look; eauto.
    - intros j r t a Hj Ha. look; eauto. }
  destruct k as [sub limit|t].
  - case_decide; [by intros [= <-]|]. intros [= <-]. by apply Hnew.
  - destruct (sl_tickets s !! t) as [tk|] eqn:Ht; [|done]. intros [= <-]. apply Hnew; [done|..].
    + intros a [= <-]. by apply (lo_tickets s Hs t).
    + intros t' a [= <- <-]. eauto.
Qed.

Lemma locks_advance i s s' : locks_ok s → advance i s = Some s' → locks_ok s'.
Proof.
  intros Hs. unfold advance. destruct (sl_threads s !! i) as [p|] eqn:Hi; [|done].
  pose proof (λ a, lo_works s Hs i p a Hi) as Hw.
  destruct p as [sub limit|a limit|a limit|a limit|a limit|a|t a|t a|a|a]; cbn in Hw.
  - destruct (sl_map s !! sub) as [n|] eqn:Hm; intros [= <-].
    + eapply locks_goto; [done|exact Hi|done| |done]. intros a [= <-]. by apply (lo_map s Hs).
    + eapply locks_goto; [by apply locks_alloc|exact Hi|done| |done]. intros a [= <-]. cbn. rewrite lookup_insert_eq. eauto.
  - intros (s1 & Hl & ->)%fmap_Some. by eapply locks_lock.
  - intros [= <-]. case_decide; (eapply locks_goto; [done|exact Hi|done|done|done]).
  - intros (s1 & Hl & ->)%fmap_Some. by eapply locks_unlock_goto.
  - destruct (sl_heap s !! a) as [c|] eqn:Ha; [|done]. case_decide; intros [= <-].
    + eapply locks_goto; [done|exact Hi|done|done|done].
    + eapply locks_goto; [|exact Hi|done| |done].
      * apply (locks_counter a c); [|done|done]. apply locks_tickets; [done|..].
        -- intros t tk Ht. exists tk. by rewrite lookup_app_l by (by eapply lookup_lt_Some).
        -- intros t tk [Ht|[_ Ht]]%lookup_app_Some; [by eapply (lo_tickets s Hs)|].
           apply list_lookup_singleton_Some in Ht as [_ <-]. cbn. rewrite Ha. eauto.
      * intros b [= <-]. cbn. rewrite lookup_insert_eq. eauto.
  - intros (s1 & Hl & ->)%fmap_Some. by eapply locks_unlock_finish.
  - intros (s1 & Hl & ->)%fmap_Some. by eapply locks_lock.
  - destruct (sl_tickets s !! t) as [tk|] eqn:Ht; [|done]. destruct (sl_heap s !! a) as [c|] eqn:Ha; [|done].
    destruct (tk_released tk); intros [= <-]; [eapply locks_goto; [done|exact Hi|done|done|done]|].
    eapply locks_goto; [|exact Hi|by case_decide| |by case_decide].
    + apply (locks_counter a c); [|done|done]. apply locks_tickets; [done|..].
      * intros t' tk' Ht'. destruct (decide (t = t')) as [<-|Hne].
        -- eexists. rewrite list_lookup_insert_eq by (by eapply lookup_lt_Some). by simplify_eq.
        -- exists tk'. by rewrite list_lookup_insert_ne.
      * intros t' tk' Ht'. apply list_lookup_insert_Some in Ht' as [(<- & <- & _)|[_ Ht']]; [exact (lo_tickets s Hs _ _ Ht)|exact (lo_tickets s Hs _ _ Ht')].
    + intros b Hb. assert (b = a) as -> by (revert Hb; case_decide; cbn; congruence). cbn. rewrite lookup_insert_eq. eauto.
  - intros [= <-]. eapply locks_goto; [|by case_decide; exact Hi|done| |done].
    + case_decide; [by apply locks_delete|done].
    + intros b [= <-]. case_decide; by apply Hw.
  - intros (s1 & Hl & ->)%fmap_Some. by eapply locks_unlock_finish.
Qed.

(** The limit an acquisition works with, and whether a thread will make use of a
    counter that is in the map with nobody counted, or remove it. *)
Definition wants (p : pc) : option (Z * Z) :=
  match p with
  | PLoadOrStore sub limit => Some (sub, limit)
  | PLock a limit | PLoad a limit | PRetry a limit | PCount a limit => Some (a.1, limit)
  | _ => None
  end.
Definition attends (p : pc) : option address :=
  match p with PLock a _ | PLoad a _ | PCount a _ | RDelete a => Some a | _ => None end.

(** Counters: each counts the slots it handed out that are not released, at most as
    many as the limit; one that counts anybody is in the map, and one in the map that
    counts nobody is attended to by some thread. *)
Record counts_ok (bound : Z → Z) (s : Slots) : Prop := {
  co_checked : ∀ i a l, sl_threads s !! i = Some (PCount a l) → sl_map s !! a.1 = Some a.2;
  co_empty : ∀ i a c, sl_threads s !! i = Some (RDelete a) → sl_heap s !! a = Some c → ct_count c = 0;
  co_current : ∀ a c, sl_heap s !! a = Some c → 0 < ct_count c → sl_map s !! a.1 = Some a.2;
  co_count : ∀ a c, sl_heap s !! a = Some c → ct_count c = live a (sl_tickets s);
  co_limit : ∀ i p sub l, sl_threads s !! i = Some p → wants p = Some (sub, l) → 1 ≤ l ≤ max_int64 ∧ l ≤ bound sub;
  co_bound : ∀ a c, sl_heap s !! a = Some c → 0 < ct_count c → ct_count c ≤ max_int64 ∧ ct_count c ≤ bound a.1;
  co_attended : ∀ sub n c, sl_map s !! sub = Some n → sl_heap s !! (sub, n) = Some c → ct_count c = 0 →
    ∃ i p, sl_threads s !! i = Some p ∧ attends p = Some (sub, n);
}.

(** A thread moves on without changing any count or the map. *)
Lemma counts_move bound i s s' :
  counts_ok bound s → sl_map s' = sl_map s → sl_tickets s' = sl_tickets s →
  (∀ a, ct_count <$> sl_heap s' !! a = ct_count <$> sl_heap s !! a) →
  (∀ j, j ≠ i → sl_threads s' !! j = sl_threads s !! j) →
  (∀ q, sl_threads s' !! i = Some q →
     (∀ a l, q = PCount a l → sl_map s !! a.1 = Some a.2) ∧ (∀ a, q ≠ RDelete a) ∧
     (∀ sub l, wants q = Some (sub, l) → 1 ≤ l ≤ max_int64 ∧ l ≤ bound sub)) →
  (∀ sub n c p, sl_threads s !! i = Some p → attends p = Some (sub, n) → sl_map s !! sub = Some n →
     sl_heap s !! (sub, n) = Some c → ct_count c = 0 → ∃ q, sl_threads s' !! i = Some q ∧ attends q = Some (sub, n)) →
  counts_ok bound s'.
Proof.
  intros [H1 H2 H3 H4 H5 H6 H7] Hm Ht Hh Hother Hq Hat.
  assert (Hback : ∀ a c, sl_heap s' !! a = Some c → ∃ d, sl_heap s !! a = Some d ∧ ct_count d = ct_count c).
  { intros a c Hc. specialize (Hh a). rewrite Hc in Hh. symmetry in Hh. apply fmap_Some in Hh as (d & ? & ?). eauto. }
  split; rewrite ?Hm, ?Ht.
  - intros j a l Hj. destruct (decide (j = i)) as [->|Hne]; [by eapply (Hq (PCount a l))|]. rewrite Hother in Hj by done. eauto.
  - intros j a c Hj Hc. destruct (Hback a c Hc) as (d & Hd & <-). destruct (decide (j = i)) as [->|Hne].
    + destruct (Hq _ Hj) as (_ & Hno & _). by destruct (Hno a).
    + rewrite Hother in Hj by done. eauto.
  - intros a c Hc. destruct (Hback a c Hc) as (d & Hd & <-). eauto.
  - intros a c Hc. destruct (Hback a c Hc) as (d & Hd & <-). eauto.
  - intros j p sub l Hj. destruct (decide (j = i)) as [->|Hne]; [by apply Hq|]. rewrite Hother in Hj by done. eauto.
  - intros a c Hc. destruct (Hback a c Hc) as (d & Hd & <-). eauto.
  - intros sub n c Hsub Hc H0. destruct (Hback _ c Hc) as (d & Hd & Hdc). rewrite <-Hdc in H0.
    destruct (H7 sub n d Hsub Hd H0) as (j & p & Hj & Hp). destruct (decide (j = i)) as [->|Hne].
    + destruct (Hat sub n d p) as (q & ? & ?); eauto.
    + exists j, p. by rewrite Hother.
Qed.

Lemma lock_counts i a s s' :
  lock i a s = Some s' → sl_map s' = sl_map s ∧ sl_tickets s' = sl_tickets s ∧ sl_threads s' = sl_threads s ∧
  ∀ b, ct_count <$> sl_heap s' !! b = ct_count <$> sl_heap s !! b.
Proof.
  unfold lock. destruct (sl_heap s !! a) as [c|] eqn:Ha; [|done]. destruct (ct_mu c); [done|]. intros [= <-].
  split_and!; try done. intros b. cbn. destruct (decide (a = b)) as [<-|Hne]; [by rewrite lookup_insert_eq, Ha|by rewrite lookup_insert_ne].
Qed.
Lemma unlock_counts a s s' :
  unlock a s = Some s' → sl_map s' = sl_map s ∧ sl_tickets s' = sl_tickets s ∧ sl_threads s' = sl_threads s ∧
  ∀ b, ct_count <$> sl_heap s' !! b = ct_count <$> sl_heap s !! b.
Proof.
  unfold unlock. destruct (sl_heap s !! a) as [c|] eqn:Ha; [|done]. intros [= <-].
  split_and!; try done. intros b. cbn. destruct (decide (a = b)) as [<-|Hne]; [by rewrite lookup_insert_eq, Ha|by rewrite lookup_insert_ne].
Qed.

(** [counts_move] for a thread that goes on to [q], or that finishes. *)
Lemma counts_goto bound i p q s s1 :
  counts_ok bound s → sl_threads s !! i = Some p →
  sl_map s1 = sl_map s ∧ sl_tickets s1 = sl_tickets s ∧ sl_threads s1 = sl_threads s ∧
  (∀ b, ct_count <$> sl_heap s1 !! b = ct_count <$> sl_heap s !! b) →
  (∀ a l, q = PCount a l → sl_map s !! a.1 = Some a.2) → (∀ a, q ≠ RDelete a) →
  (∀ sub l, wants q = Some (sub, l) → 1 ≤ l ≤ max_int64 ∧ l ≤ bound sub) →
  (∀ sub n c, attends p = Some (sub, n) → sl_map s !! sub = Some n → sl_heap s !! (sub, n) = Some c → ct_count c = 0 →
     attends q = Some (sub, n)) → counts_ok bound (goto i q s1).
Proof.
  intros Hs Hi (Hm & Ht & Hth & Hh) Hq1 Hq2 Hq3 Hat. eapply (counts_move bound i s); try done; cbn; rewrite ?Hth.
  - intros j Hj. by rewrite lookup_insert_ne.
  - intros r. rewrite lookup_insert_eq. intros [= <-]. done.
  - intros sub n c r Hr Hrn Hsub Hc H0. exists q. rewrite lookup_insert_eq. simplify_eq. split; [done|]. by eapply Hat.
Qed.

Lemma counts_finish bound i p s s1 :
  counts_ok bound s → sl_threads s !! i = Some p → attends p = None →
  sl_map s1 = sl_map s ∧ sl_tickets s1 = sl_tickets s ∧ sl_threads s1 = sl_threads s ∧
  (∀ b, ct_count <$> sl_heap s1 !! b = ct_count <$> sl_heap s !! b) → counts_ok bound (finish i s1).
Proof.
  intros Hs Hi Hp (Hm & Ht & Hth & Hh). eapply (counts_move bound i s); try done; cbn; rewrite ?Hth.
  - intros j Hj. by rewrite lookup_delete_ne.
  - intros r. by rewrite lookup_delete_eq.
  - intros sub n c r Hr Hrn. congruence.
Qed.

Section Live.
Implicit Types ts : list Ticket.

Lemma live_app a b ts : live a (ts ++ [mkTicket b false]) = live a ts + (if decide (b = a) then 1 else 0).
Proof. unfold live. rewrite sumZ_app. cbn. repeat case_decide; naive_solver lia. Qed.

Lemma live_release a t tk ts :
  ts !! t = Some tk → tk_released tk = false →
  live a (<[t := mkTicket (tk_counter tk) true]> ts) = live a ts - (if decide (tk_counter tk = a) then 1 else 0).
Proof. intros Ht Hr. unfold live. rewrite (sumZ_set _ _ _ _ tk) by done. rewrite Hr. cbn. repeat case_decide; naive_solver lia. Qed.

Lemma live_nonneg a ts : 0 ≤ live a ts.
Proof. apply sumZ_nonneg, Forall_forall. intros tk _. case_decide; lia. Qed.

Lemma live_pos t tk ts : ts !! t = Some tk → tk_released tk = false → 0 < live (tk_counter tk) ts.
Proof.
  intros Ht Hr. pose proof (live_release (tk_counter tk) t tk ts Ht Hr) as Hl. rewrite decide_True in Hl by done.
  pose proof (live_nonneg (tk_counter tk) (<[t := mkTicket (tk_counter tk) true]> ts)). lia.
Qed.

Lemma live_none a ts : (∀ t tk, ts !! t = Some tk → tk_counter tk ≠ a) → live a ts = 0.
Proof.
  intros Hno. apply sumZ_zero, Forall_forall. intros tk [t Ht]%list_elem_of_lookup. rewrite decide_False; [done|].
  intros [Hc _]. by apply (Hno t tk).
Qed.
End Live.

(** Two threads are never inside the critical section of one counter. *)
Lemma locks_exclusive s i j p q a :
  locks_ok s → sl_threads s !! i = Some p → sl_threads s !! j = Some q → owns p = Some a → owns q = Some a → i = j.
Proof.
  intros Hs Hi Hj Hp Hq. destruct (lo_held s Hs i p a Hi Hp) as (c & Hc & Hci).
  destruct (lo_held s Hs j q a Hj Hq) as (d & Hd & Hdj). congruence.
Qed.

(** Another thread inside the critical section of the counter is impossible. *)
Ltac exclusive Hex := match goal with H : sl_threads _ !! ?j = Some _ |- _ => by pose proof (Hex j _ H eq_refl) end.

Lemma counts_alloc bound i sub limit s :
  locks_ok s → counts_ok bound s → sl_threads s !! i = Some (PLoadOrStore sub limit) → sl_map s !! sub = None →
  counts_ok bound (goto i (PLock (sub, sl_next s) limit) (set_counter (sub, sl_next s) (mkCounter None 0)
    (s <| sl_map ::= insert sub (sl_next s) |> <| sl_next ::= S |>))).
Proof.
  intros Hlo [H1 H2 H3 H4 H5 H6 H7] Hi Hm.
  assert (Hnew : sl_heap s !! (sub, sl_next s) = None).
  { apply eq_None_not_Some. intros Hn%(lo_fresh s Hlo). cbn in Hn. lia. }
  split; cbn -[live app].
  - intros j a l Hj. look. assert (sl_map s !! a.1 = Some a.2) by eauto. rewrite lookup_insert_ne; [done|congruence].
  - intros j a c Hj Hc. look; [done|eauto].
  - intros a c Hc Hpos. look; cbn in *; [lia|]. assert (sl_map s !! a.1 = Some a.2) by eauto.
    rewrite lookup_insert_ne; [done|congruence].
  - intros a c Hc. look; [|eauto]. cbn. symmetry. apply live_none. intros t tk Ht Heq.
    destruct (lo_tickets s Hlo t tk Ht) as [d Hd]. congruence.
  - intros j p sub' l Hj Hw. look; cbn in *; simplify_eq; [|by eauto]. by apply (H5 j (PLoadOrStore sub' l)).
  - intros a c Hc Hpos. look; cbn in *; [lia|eauto].
  - intros sub' n c Hsub Hc H0. look.
    + exists i, (PLock (sub', sl_next s) limit). by rewrite lookup_insert_eq.
    + destruct (H7 sub' n c) as (j & p & Hj & Hp); [done..|]. exists j, p. rewrite lookup_insert_ne; [done|].
      intros <-. by simplify_eq.
Qed.

Lemma counts_increment bound i a limit c s :
  locks_ok s → counts_ok bound s → sl_threads s !! i = Some (PCount a limit) → sl_heap s !! a = Some c → ct_count c < limit →
  counts_ok bound (goto i (PReturn a) (set_counter a (c <| ct_count ::= λ n, n +! 1 |>)
    (s <| sl_tickets ::= λ ts, ts ++ [mkTicket a false] |>))).
Proof.
  intros Hlo [H1 H2 H3 H4 H5 H6 H7] Hi Ha Hlt.
  destruct (H5 i _ a.1 limit Hi eq_refl) as [Hl Hb]. pose proof (live_nonneg a (sl_tickets s)) as Hnn. rewrite <-(H4 a c Ha) in Hnn.
  assert (Hex : ∀ j q, sl_threads s !! j = Some q → owns q = Some a → i = j) by (intros; by eapply locks_exclusive).
  assert (Hw : ct_count c +! 1 = ct_count c + 1) by (apply wrap64_id; unfold in_int64; lia).
  split; cbn -[live app].
  - intros j b l Hj. look. eauto.
  - intros j b d Hj Hd. look; [exclusive Hex|eauto].
  - intros b d Hd Hpos. look; eauto.
  - intros b d Hd. rewrite live_app. look; cbn.
    + rewrite decide_True, Hw by done. by rewrite (H4 b c).
    + rewrite decide_False by done. rewrite (H4 b d) by done. lia.
  - intros j p sub l Hj Hwt. look. eauto.
  - intros b d Hd Hpos. look; cbn in *; [rewrite Hw; lia|eauto].
  - intros sub n d Hsub Hd H0. look; cbn in *; [lia|]. destruct (H7 sub n d) as (j & p & Hj & Hp); [done..|].
    exists j, p. rewrite lookup_insert_ne; [done|]. intros <-. simplify_eq. cbn in Hp. congruence.
Qed.

Lemma counts_decrement bound i t a tk c s :
  locks_ok s → counts_ok bound s → sl_threads s !! i = Some (RCount t a) → sl_tickets s !! t = Some tk → tk_counter tk = a →
  tk_released tk = false → sl_heap s !! a = Some c →
  let count := if decide (ct_count c > 0) then ct_count c -! 1 else ct_count c in
  counts_ok bound (goto i (if decide (count = 0) then RDelete a else RReturn a)
    (set_counter a (c <| ct_count := count |>) (s <| sl_tickets ::= insert t (mkTicket (tk_counter tk) true) |>))).
Proof.
  intros Hlo [H1 H2 H3 H4 H5 H6 H7] Hi Ht Htk Hrel Ha count.
  assert (Hex : ∀ j q, sl_threads s !! j = Some q → owns q = Some a → i = j) by (intros; by eapply locks_exclusive).
  pose proof (live_pos t tk _ Ht Hrel) as Hpos. rewrite Htk, <-(H4 a c Ha) in Hpos.
  assert (count = ct_count c - 1) as Hcount.
  { subst count. rewrite decide_True by lia. apply wrap64_id. unfold in_int64. destruct (H6 a c Ha Hpos). lia. }
  clearbody count. split; cbn -[live insert].
  - intros j b l Hj. look; [by case_decide|eauto].
  - intros j b d Hj Hd. look; try exclusive Hex; try by eauto; by case_decide; simplify_eq.
  - intros b d Hd Hp. look; cbn in *; eauto with lia.
  - intros b d Hd. rewrite (live_release b t tk) by done. look; cbn.
    + rewrite decide_True by done. by rewrite (H4 (tk_counter tk) c).
    + rewrite decide_False by done. rewrite (H4 b d) by done. lia.
  - intros j p sub l Hj Hwt. look; [by case_decide|eauto].
  - intros b d Hd Hp. look; cbn in *; [|eauto]. destruct (H6 (tk_counter tk) c Ha Hpos). lia.
  - intros sub n d Hsub Hd H0. look; cbn in *.
    + exists i, (RDelete (tk_counter tk)). rewrite lookup_insert_eq, decide_True by done. split; [done|]. cbn. congruence.
    + destruct (H7 sub n d) as (j & p & Hj & Hp); [done..|]. exists j, p. rewrite lookup_insert_ne; [done|].
      intros <-. by simplify_eq.
Qed.

Lemma counts_delete bound i a s :
  locks_ok s → counts_ok bound s → sl_threads s !! i = Some (RDelete a) →
  counts_ok bound (goto i (RReturn a) (if decide (sl_map s !! a.1 = Some a.2) then s <| sl_map ::= delete a.1 |> else s)).
Proof.
  intros Hlo Hs Hi. pose proof Hs as [H1 H2 H3 H4 H5 H6 H7].
  assert (Hex : ∀ j q, sl_threads s !! j = Some q → owns q = Some a → i = j) by (intros; by eapply locks_exclusive).
  case_decide as Hcur.
  - assert (Hother : ∀ b, sl_map s !! b.1 = Some b.2 → b ≠ a → a.1 ≠ b.1).
    { intros [b n] Hb Hne Heq. apply Hne. destruct a. cbn in *. congruence. }
    split; cbn -[live].
    + intros j b l Hj. look. rewrite lookup_delete_ne; [eauto|]. apply Hother; [eauto|]. intros ->. exclusive Hex.
    + intros j b c Hj Hc. look. eauto.
    + intros b c Hc Hp. rewrite lookup_delete_ne; [eauto|]. apply Hother; [eauto|]. intros ->. specialize (H2 i a c Hi Hc). lia.
    + done.
    + intros j p sub l Hj Hwt. look. eauto.
    + done.
    + intros sub n c Hsub Hc H0. look. destruct (H7 sub n c) as (j & p & Hj & Hp); [done..|]. exists j, p.
      rewrite lookup_insert_ne; [done|]. intros <-. simplify_eq. by simplify_eq/=.
  - apply (counts_goto bound i (RDelete a) _ s); try done. intros sub n c [= ->] Hsub. done.
Qed.

Lemma counts_start bound i k s s' :
  counts_ok bound s →
  match k with
  | Acquire sub limit => in_int64 limit ∧ normalizeValuePackageConcurrencyLimit limit ≤ bound sub
  | Release _ => True
  end → start i k s = Some s' → counts_ok bound s'.
Proof.
  intros Hs Hk. unfold start. destruct (sl_threads s !! i) eqn:Hi; [done|].
  assert (Hnew : ∀ p, attends p = None → (∀ a l, p ≠ PCount a l) →
    (∀ sub l, wants p = Some (sub, l) → 1 ≤ l ≤ max_int64 ∧ l ≤ bound sub) → counts_ok bound (s <| sl_threads ::= insert i p |>)).
  { intros p Hp Hp' Hw. eapply (counts_move bound i s); try done; cbn.
    - intros j Hj. by rewrite lookup_insert_ne.
    - intros q. rewrite lookup_insert_eq. intros [= <-]. split_and!; [naive_solver| |done]. by intros a ->.
    - congruence. }
  destruct k as [sub limit|t].
  - case_decide; [by intros [= <-]|]. intros [= <-]. apply Hnew; [done..|]. intros ? ? [= <- <-]. destruct Hk as [Hr Hk].
    split; [|done]. unfold normalizeValuePackageConcurrencyLimit, in_int64 in *. case_decide; lia.
  - destruct (sl_tickets s !! t); [|done]. intros [= <-]. by apply Hnew.
Qed.

Lemma counts_advance bound i s s' : locks_ok s → counts_ok bound s → advance i s = Some s' → counts_ok bound s'.
Proof.
  intros Hlo Hs. unfold advance. destruct (sl_threads s !! i) as [p|] eqn:Hi; [|done].
  pose proof (λ sub l, co_limit bound s Hs i p sub l Hi) as Hl.
  destruct p as [sub limit|a limit|a limit|a limit|a limit|a|t a|t a|a|a]; cbn in Hl.
  - destruct (sl_map s !! sub) as [n|] eqn:Hm; intros [= <-]; [|by apply counts_alloc].
    eapply counts_goto; [done|exact Hi|done..].
  - intros (s1 & Hk & ->)%fmap_Some. eapply counts_goto; [done|exact Hi|by apply lock_counts in Hk|done..].
  - intros [= <-]. eapply counts_goto; [done|exact Hi|done|..].
    + intros b l. by case_decide; intros [= <- <-].
    + intros b. by case_decide.
    + by case_decide.
    + intros sub n c [= ->] Hsub. by rewrite decide_True.
  - intros (s1 & Hk & ->)%fmap_Some. eapply counts_goto; [done|exact Hi|by apply unlock_counts in Hk|done..].
  - destruct (sl_heap s !! a) as [c|] eqn:Ha; [|done]. case_decide; intros [= <-]; [|by apply (counts_increment bound i a limit); [..|lia]].
    eapply counts_goto; [done|exact Hi|done..|]. intros sub n d [= ->] Hsub Hd H0. simplify_eq. destruct (Hl sub limit eq_refl). lia.
  - intros (s1 & Hk & ->)%fmap_Some. eapply counts_finish; [done|exact Hi|done|by apply unlock_counts in Hk].
  - intros (s1 & Hk & ->)%fmap_Some. eapply counts_goto; [done|exact Hi|by apply lock_counts in Hk|done..].
  - destruct (lo_releases s Hlo i _ t a Hi eq_refl) as (tk & Ht & Htk). rewrite Ht.
    destruct (sl_heap s !! a) as [c|] eqn:Ha; [|done]. destruct (tk_released tk) eqn:Hr; intros [= <-].
    + eapply counts_goto; [done|exact Hi|done..].
    + by apply counts_decrement.
  - intros [= <-]. by apply counts_delete.
  - intros (s1 & Hk & ->)%fmap_Some. eapply counts_finish; [done|exact Hi|done|by apply unlock_counts in Hk].
Qed.

Lemma reachable_ok bound s : reachable bound s → locks_ok s ∧ counts_ok bound s.
Proof.
  unfold reachable. intros Hr.
  assert (Hinit : locks_ok no_slots ∧ counts_ok bound no_slots) by (split; split; cbn; intros; rewrite ?lookup_empty, ?lookup_nil in *;
    match goal with H : is_Some None |- _ => by destruct H | |- _ => done end).
  revert Hinit. induction Hr as [|s1 s2 s3 Hstep _ IH]; [done|]. intros [Hlo Hco]. apply IH.
  destruct Hstep as [i k Hk Hs|i Hs].
  - split; [by eapply locks_start|by eapply counts_start].
  - split; [by eapply locks_advance|by eapply counts_advance].
Qed.

(** The slots held for a subscription are those of the counter in the map. *)
Lemma holders_current bound s sub :
  locks_ok s → counts_ok bound s →
  holders s sub = match sl_map s !! sub with
                  | Some n => from_option ct_count 0 (sl_heap s !! (sub, n))
                  | None => 0
                  end.
Proof.
  intros Hlo Hco.
  assert (Hcur : ∀ t tk, sl_tickets s !! t = Some tk → tk_released tk = false → sl_map s !! (tk_counter tk).1 = Some (tk_counter tk).2).
  { intros t tk Ht Hr. destruct (lo_tickets s Hlo t tk Ht) as [c Hc]. apply (co_current bound s Hco _ c Hc).
    rewrite (co_count bound s Hco _ c Hc). by eapply live_pos. }
  destruct (sl_map s !! sub) as [n|] eqn:Hm.
  - destruct (lo_map s Hlo sub n Hm) as [c Hc]. rewrite Hc. cbn. rewrite (co_count bound s Hco _ c Hc).
    apply sumZ_ext, Forall_forall. intros tk [t Ht]%list_elem_of_lookup. pose proof (Hcur t tk Ht) as Hk.
    destruct (tk_counter tk) as [sub' n'], (tk_released tk); cbn in *; repeat case_decide; try done; naive_solver congruence.
  - apply sumZ_zero, Forall_forall. intros tk [t Ht]%list_elem_of_lookup. rewrite decide_False; [done|].
    intros [Hs Hr]. specialize (Hcur t tk Ht Hr). congruence.
Qed.

(** A thread inside a critical section is never stuck. *)
Lemma owner_advances s i p a :
  locks_ok s → sl_threads s !! i = Some p → owns p = Some a → is_Some (advance i s).
Proof.
  intros Hlo Hi Hp. destruct (lo_held s Hlo i p a Hi Hp) as (c & Hc & _). unfold advance, unlock. rewrite Hi.
  destruct p; cbn in Hp; simplify_eq; rewrite ?Hc; try by eexists.
  - case_decide; by eexists.
  - destruct (lo_releases s Hlo i _ t a Hi eq_refl) as (tk & -> & _). destruct (tk_released tk); by eexists.
Qed.

(** *** Redis *)

(** At a time: the set holds at most [bound] members, none from the future, expires
    only after all of them are stale, and has every slot that is held and not stale. *)
Record redis_ok (sub bound now : Z) (st : redis * gmap string Z) : Prop := {
  ro_size : Z.of_nat (size (members now (valuePackageConcurrencyRedisKey sub) st.1)) ≤ Z.max 0 bound;
  ro_expiry : ∀ set, st.1 !! valuePackageConcurrencyRedisKey sub = Some set →
    map_Forall (λ _ score, score + 120 ≤ rs_expires set ∧ score ≤ now) (rs_members set);
  ro_held : ∀ token t, st.2 !! token = Some t → now - 120 < t →
    members now (valuePackageConcurrencyRedisKey sub) st.1 !! token = Some t;
}.

Lemma members_later sub bound now now' st :
  redis_ok sub bound now st → now ≤ now' → redis_ok sub bound now' st.
Proof.
  intros [Hs He Hh] Hle. set (key := valuePackageConcurrencyRedisKey sub) in *.
  assert (Hm : members now' key st.1 = members now key st.1 ∨
    members now' key st.1 = ∅ ∧ map_Forall (λ _ score, score ≤ now' - 120) (members now key st.1)).
  { unfold members. destruct (st.1 !! key) as [set|] eqn:E; [|by left]. repeat case_decide; try lia; [by left| |by left].
    right. split; [done|]. intros token t Ht. apply (He set eq_refl) in Ht. lia. }
  split; fold key.
  - destruct Hm as [-> | [-> _]]; [done|]. rewrite map_size_empty. lia.
  - intros set Hset token t Ht. apply (He set Hset) in Ht. lia.
  - intros token t Ht Hlive. specialize (Hh token t Ht ltac:(lia)). destruct Hm as [-> | [_ Hold]]; [done|].
    apply Hold in Hh. lia.
Qed.

Lemma members_store now key ms r : members now key (store_members now 120 key ms r) = ms.
Proof.
  unfold members, store_members. case_decide as E; [by rewrite lookup_delete_eq|]. rewrite lookup_insert_eq. cbn.
  by rewrite decide_True by lia.
Qed.

(** The state after a script that stores [ms]. *)
Lemma redis_ok_store sub bound now ms r held :
  Z.of_nat (size ms) ≤ Z.max 0 bound → map_Forall (λ _ score, score ≤ now) ms →
  (∀ token t, held !! token = Some t → now - 120 < t → ms !! token = Some t) →
  redis_ok sub bound now (store_members now 120 (valuePackageConcurrencyRedisKey sub) ms r, held).
Proof.
  intros Hs Hle Hh. split; cbn [fst snd]; rewrite ?members_store; try done.
  intros set. unfold store_members. case_decide; [by rewrite lookup_delete_eq|]. rewrite lookup_insert_eq. intros [= <-].
  intros token t Ht. cbn. apply Hle in Ht. lia.
Qed.

Lemma members_past sub bound now st token t :
  redis_ok sub bound now st → members now (valuePackageConcurrencyRedisKey sub) st.1 !! token = Some t → t ≤ now.
Proof.
  intros [_ He _]. unfold members. destruct (st.1 !! _) as [set|]; [|by rewrite lookup_empty].
  case_decide; [|by rewrite lookup_empty]. intros Ht. by apply (He set eq_refl) in Ht as [_ ?].
Qed.

Lemma redis_ok_drop sub bound now r held :
  redis_ok sub bound now (r, held) → members now (valuePackageConcurrencyRedisKey sub) r = ∅ →
  redis_ok sub bound now (delete (valuePackageConcurrencyRedisKey sub) r, held).
Proof.
  intros [Hs He Hh] Hms. split; cbn [fst snd] in *.
  - unfold members. rewrite lookup_delete_eq, map_size_empty. lia.
  - intros set. by rewrite lookup_delete_eq.
  - intros tok t Ht Hlive. specialize (Hh tok t Ht Hlive). by rewrite Hms, lookup_empty in Hh.
Qed.

Lemma slot_event_ok sub bound now e st :
  redis_ok sub bound now st →
  match e with EvAcquire _ limit => normalizeValuePackageConcurrencyLimit limit ≤ bound | _ => True end →
  redis_ok sub bound now (slot_event_step sub now e st).
Proof.
  intros Hst Hlim. destruct st as [r held]. pose proof (λ token t, members_past sub bound now (r, held) token t Hst) as Hpast.
  destruct Hst as [Hs He Hh]. cbn [fst snd] in *. unfold slot_event_step.
  set (key := valuePackageConcurrencyRedisKey sub) in *. set (ms := members now key r) in *. destruct e as [token limit|token|token].
  - unfold acquireValuePackageRedisSlot, valuePackageConcurrencyRedisAcquireScript, valuePackageConcurrencySlotTTL. fold key ms.
    set (fs := filter (λ m, now - 120 < m.2) ms).
    assert (Hfs : fs ⊆ ms) by apply map_filter_subseteq. pose proof (map_subseteq_size _ _ Hfs) as Hsize.
    assert (Hfh : ∀ tok t, held !! tok = Some t → now - 120 < t → fs !! tok = Some t).
    { intros tok t Ht Hlive. apply map_lookup_filter_Some. split; [by apply Hh|done]. }
    assert (Hfp : map_Forall (λ _ score, score ≤ now) fs).
    { intros tok t Ht. apply (Hpast tok). by eapply lookup_weaken. }
    case_decide; [apply redis_ok_store; [lia|done|done]|]. apply redis_ok_store.
    + rewrite map_size_insert. destruct (fs !! token); cbn [id]; lia.
    + by apply map_Forall_insert_2.
    + intros tok t Ht Hlive. look; [by rewrite lookup_insert_eq|]. rewrite lookup_insert_ne by done. eauto.
  - unfold refreshValuePackageRedisSlot, valuePackageConcurrencyRedisRefreshScript, valuePackageConcurrencySlotTTL. fold ms.
    case_decide as Hin.
    + destruct Hin as [old Hold]. apply redis_ok_store.
      * by rewrite map_size_insert, Hold.
      * apply map_Forall_insert_2; [done|]. exact Hpast.
      * intros tok t Ht Hlive. destruct (decide (token = tok)) as [<-|Hne].
        -- rewrite lookup_alter_eq in Ht. rewrite lookup_insert_eq. by destruct (held !! token); simplify_eq/=.
        -- rewrite lookup_alter_ne in Ht by done. rewrite lookup_insert_ne by done. eauto.
    + case_decide; [by apply redis_ok_drop|by split].
  - unfold releaseValuePackageRedisSlot, valuePackageConcurrencyRedisReleaseScript, valuePackageConcurrencySlotTTL. fold ms.
    apply redis_ok_store.
    + pose proof (map_subseteq_size _ _ (delete_subseteq ms token)). lia.
    + by apply map_Forall_delete.
    + intros tok t Ht Hlive. look. rewrite lookup_delete_ne by done. eauto.
Qed.

Lemma slot_events_ok sub bound last es st :
  redis_ok sub bound last st → in_order bound last es →
  redis_ok sub bound (list.foldr Z.max last es.*1) (run_slot_events sub es st).
Proof.
  revert last st. induction es as [|[now e] es IH]; intros last st Hst; [done|]. cbn. intros (Hle & Hlim & Hes).
  apply members_later with (list.foldr Z.max now es.*1).
  - apply IH; [|done]. apply slot_event_ok; [by eapply members_later|done].
  - clear. induction es as [|[x y] es IH]; cbn; lia.
Qed.

(** ** Theorems *)

(** C6: in every interleaving of any number of requests and releases, and even when
    a slot is released twice, the slots held for a subscription never exceed the limit
    its requests come with. *)
Theorem slots_limited bound s sub : reachable bound s → holders s sub ≤ Z.max 0 (bound sub).
Proof.
  intros [Hlo Hco]%reachable_ok. rewrite (holders_current bound) by done. destruct (sl_map s !! sub) as [n|]; [|lia].
  destruct (sl_heap s !! (sub, n)) as [c|] eqn:Hc; cbn; [|lia].
  destruct (decide (0 < ct_count c)) as [Hp|]; [|lia]. destruct (co_bound bound s Hco _ c Hc Hp) as [_ Hb]. cbn in Hb. lia.
Qed.

(** No request is refused without reason.  At the moment a request is counted it
    gets a slot exactly when fewer slots than its limit are held for its
    subscription, whatever other threads did to the map and the counters while it was
    waiting. *)
Theorem slot_decision bound s i a limit :
  reachable bound s → sl_threads s !! i = Some (PCount a limit) →
  ∃ s', advance i s = Some s' ∧
    sl_tickets s' = if decide (holders s a.1 < limit) then sl_tickets s ++ [mkTicket a false] else sl_tickets s.
Proof.
  intros [Hlo Hco]%reachable_ok Hi. destruct (lo_held s Hlo i _ a Hi eq_refl) as (c & Hc & _).
  pose proof (co_checked bound s Hco i a limit Hi) as Hm. destruct a as [sub n]. cbn in Hm |- *.
  rewrite (holders_current bound), Hm, Hc by done. cbn. unfold advance. rewrite Hi, Hc.
  destruct (decide (ct_count c >= limit)); eexists; (split; [done|]); cbn; case_decide; done || lia.
Qed.

(** Nothing leaks.  Whenever no thread is in the middle of a call, the map holds
    a counter exactly for the subscriptions that hold a slot. *)
Theorem slots_collected bound s sub :
  reachable bound s → sl_threads s = ∅ → sl_map s !! sub = None ↔ holders s sub = 0.
Proof.
  intros [Hlo Hco]%reachable_ok Hidle. rewrite (holders_current bound) by done. destruct (sl_map s !! sub) as [n|] eqn:Hm; [|done].
  destruct (lo_map s Hlo sub n Hm) as [c Hc]. rewrite Hc. cbn. split; [done|]. intros H0.
  destruct (co_attended bound s Hco sub n c Hm Hc H0) as (i & p & Hi & _). by rewrite Hidle in Hi.
Qed.

(** The threads never block each other for good: as long as some thread is in the
    middle of a call, some thread can take its next step. *)
Theorem slots_progress bound s : reachable bound s → sl_threads s ≠ ∅ → ∃ i s', advance i s = Some s'.
Proof.
  intros [Hlo Hco]%reachable_ok Hne. apply map_choose in Hne as (i & p & Hi).
  destruct (owns p) as [a|] eqn:Hp; [destruct (owner_advances s i p a) as [s' Hs']; eauto|].
  assert (Hlock : ∀ a q, works_on p = Some a → (∀ s', lock i a s = Some s' → advance i s = Some (goto i q s')) →
    ∃ i s', advance i s = Some s').
  { intros a q Hw Hadv. destruct (lo_works s Hlo i p a Hi Hw) as [c Hc]. destruct (ct_mu c) as [j|] eqn:Hmu.
    - destruct (lo_owner s Hlo a c j Hc Hmu) as (r & Hj & Hr). destruct (owner_advances s j r a) as [s' Hs']; eauto.
    - eexists i, _. apply Hadv. unfold lock. by rewrite Hc, Hmu. }
  destruct p as [sub l|a l|a l|a l|a l|a|t a|t a|a|a]; try done.
  - exists i. unfold advance. rewrite Hi. destruct (sl_map s !! sub); by eexists.
  - apply (Hlock a (PLoad a l)); [done|]. intros s' Hs'. unfold advance. by rewrite Hi, Hs'.
  - apply (Hlock a (RCount t a)); [done|]. intros s' Hs'. unfold advance. by rewrite Hi, Hs'.
Qed.

(** C37: with Redis, at most [bound] requests of a subscription hold a slot that was
    acquired or refreshed within the last two minutes, whatever instances of the
    program acquire, refresh and release slots in which order: every such slot is a
    member of the set, which no script lets grow beyond the limit. *)
Theorem redis_slots_limited sub bound es now :
  in_order bound 0 es → Forall (λ e, e.1 ≤ now) es → 0 ≤ now →
  let '(r, held) := run_slot_events sub es (∅, ∅) in
  let live := filter (λ m, now - valuePackageConcurrencySlotTTL < m.2) held in
  live ⊆ members now (valuePackageConcurrencyRedisKey sub) r ∧ Z.of_nat (size live) ≤ Z.max 0 bound.
Proof.
  intros Hes Hnow Hpos.
  assert (H0 : redis_ok sub bound 0 (∅, ∅)).
  { split; cbn [fst snd]; [|intros ?; by rewrite lookup_empty|intros ? ?; by rewrite lookup_empty].
    unfold members. rewrite lookup_empty, map_size_empty. lia. }
  apply (slot_events_ok sub bound 0 es) in H0; [|done]. apply (members_later _ _ _ now) in H0.
  2: { clear -Hnow Hpos. induction Hnow; cbn in *; lia. }
  destruct (run_slot_events sub es (∅, ∅)) as [r held]. destruct H0 as [Hs _ Hh]. cbn [fst snd] in *.
  assert (Hsub : filter (λ m, now - valuePackageConcurrencySlotTTL < m.2) held ⊆ members now (valuePackageConcurrencyRedisKey sub) r).
  { apply map_subseteq_spec. intros tok t [Ht Hlive]%map_lookup_filter_Some. by apply Hh. }
  split; [done|]. apply map_subseteq_size in Hsub. lia.
Qed.

(** ** Examples *)

(** Steps of threads, as a list. *)
Inductive move :=
| Start (i : nat) (k : call)
| Advance (i : nat).
Definition run_move (m : move) (s : Slots) : option Slots :=
  match m with Start i k => start i k s | Advance i => advance i s end.
Definition run_moves (ms : list move) (s : Slots) : option Slots := foldl (λ o m, o ≫= run_move m) (Some s) ms.

Definition move_ok (bound : Z → Z) (m : move) : Prop :=
  match m with
  | Start _ (Acquire sub limit) => in_int64 limit ∧ normalizeValuePackageConcurrencyLimit limit ≤ bound sub
  | _ => True
  end.

Lemma foldl_none ms : foldl (λ o m, o ≫= run_move m) None ms = None.
Proof. by induction ms. Qed.

Lemma run_moves_steps bound ms s s' : Forall (move_ok bound) ms → run_moves ms s = Some s' → rtc (step bound) s s'.
Proof.
  unfold run_moves. revert s. induction ms as [|m ms IH]; intros s Hok; cbn; [intros [= <-]; apply rtc_refl|].
  apply Forall_cons in Hok as [Hm Hok]. destruct (run_move m s) as [s1|] eqn:E; cbn; [|by rewrite foldl_none].
  intros Hrun. apply rtc_l with s1; [|by apply IH]. destruct m as [i [sub limit|t]|i]; cbn in E.
  - by apply (step_start bound s s1 i (Acquire sub limit)).
  - by apply (step_start bound s s1 i (Release t)).
  - by apply (step_advance bound s s1 i).
Qed.

(** Thread 1 takes the only slot of subscription 5; thread 2 has found the counter and
    waits for its mutex while thread 1 releases the slot and removes the counter. *)
Definition race : list move :=
  [Start 1 (Acquire 5 0); Advance 1; Start 2 (Acquire 5 0); Advance 2; Advance 1; Advance 1; Advance 1; Advance 1;
   Start 1 (Release 0); Advance 1; Advance 1; Advance 1; Advance 1].
(** Thread 2 notices, gets a counter of its own, and thread 3 comes too late. *)
Definition race_end : list move :=
  race ++ [Advance 2; Advance 2; Advance 2; Advance 2; Advance 2; Advance 2; Start 3 (Acquire 5 1); Advance 2; Advance 2; Advance 3;
           Advance 3; Advance 3].

Definition after (ms : list move) : Slots := default no_slots (run_moves ms no_slots).

Lemma after_reachable ms : Forall (move_ok (λ _, 1)) ms → is_Some (run_moves ms no_slots) → reachable (λ _, 1) (after ms).
Proof. intros Hok [s Hs]. unfold after. rewrite Hs. by apply (run_moves_steps _ ms). Qed.

Lemma slots_limited_witness : holders (after race_end) 5 = 1 ∧ holders (after race_end) 5 ≤ Z.max 0 1.
Proof.
  split; [vm_compute; reflexivity|]. apply (slots_limited (λ _, 1) (after race_end) 5).
  apply after_reachable; [repeat constructor; vm_compute; discriminate|vm_compute; eauto].
Defined.

Lemma slot_decision_witness :
  ∃ s', advance 3 (after race_end) = Some s' ∧
    sl_tickets s' = if decide (holders (after race_end) 5 < 1) then sl_tickets (after race_end) ++ [mkTicket (5, 1%nat) false]
                    else sl_tickets (after race_end).
Proof.
  apply (slot_decision (λ _, 1) (after race_end) 3 (5, 1%nat) 1); [|vm_compute; reflexivity].
  apply after_reachable; [repeat constructor; vm_compute; discriminate|vm_compute; eauto].
Defined.

Lemma slots_progress_witness : ∃ i s', advance i (after race) = Some s'.
Proof.
  apply (slots_progress (λ _, 1) (after race)); [|vm_compute; discriminate].
  apply after_reachable; [repeat constructor; vm_compute; discriminate|vm_compute; eauto].
Defined.

Lemma slots_collected_witness :
  let s := after (race_end ++ [Advance 3; Advance 3]) in sl_map s !! 5 = None ↔ holders s 5 = 0.
Proof.
  apply (slots_collected (λ _, 1) (after (race_end ++ [Advance 3; Advance 3])) 5); [|vm_compute; reflexivity].
  apply after_reachable; [repeat constructor; vm_compute; discriminate|vm_compute; eauto].
Defined.

(** The second request is refused until the first, which refreshes its slot, ends. *)
Definition redis_events : list (Z * slot_event) :=
  [(100, EvAcquire "a" 1); (110, EvAcquire "b" 1); (130, EvRefresh "a"); (240, EvAcquire "b" 1); (245, EvRelease "a");
   (246, EvAcquire "b" 1)].

Lemma redis_slots_limited_witness :
  (run_slot_events 5 redis_events (∅, ∅)).2 = {[ "b" := 246 ]} ∧
  let '(r, held) := run_slot_events 5 redis_events (∅, ∅) in
  let live := filter (λ m, 250 - valuePackageConcurrencySlotTTL < m.2) held in
  live ⊆ members 250 (valuePackageConcurrencyRedisKey 5) r ∧ Z.of_nat (size live) ≤ Z.max 0 1.
Proof.
  split; [vm_compute; reflexivity|]. apply (redis_slots_limited 5 1 redis_events 250).
  - vm_compute. repeat split; discriminate.
  - repeat constructor; vm_compute; discriminate.
  - vm_compute. discriminate.
Defined.
