(* ===== verification/Entitlement.v ===== *)
(** * Entitlement of a request to a value package

    [middleware/value_package.go] and the part of [relay/common/relay_info.go] that
    reads what it leaves: before a request is relayed, the middleware looks up the
    package of the user, turns the request away when the package is used up (or sends
    it to the wallet, if the user allows that), restricts it to the models of the
    package and takes a concurrency slot.  The answer of [acquireValuePackageSlot] is
    an argument; [Slots.v] shows what it promises. *)
From S2P Require Import Prelude Tables GoTime Schema Plans Windows Cycles Consume Accounting Ledger Limits Preferences Cards GoFloat Groups Ratios.

(** ** Definitions *)

Definition isValuePackageReadOnlyGetPath (path : string) : bool :=
  bool_decide (path = "/v1/models") || HasPrefix path "/v1/models/" ||
  bool_decide (path = "/v1beta/models") || HasPrefix path "/v1beta/models/" ||
  bool_decide (path = "/v1beta/openai/models") || HasPrefix path "/v1beta/openai/models/" ||
  HasPrefix path "/suno/fetch/" ||
  (Contains path "/mj/task/" && (HasSuffix path "/fetch" || HasSuffix path "/image-seed")) ||
  HasPrefix path "/v1/video/generations/" ||
  HasPrefix path "/v1/videos/" ||
  HasPrefix path "/kling/v1/videos/text2video/" ||
  HasPrefix path "/kling/v1/videos/image2video/".

Definition isValuePackageReadOnlyRequest (method path : string) : bool :=
  if decide (method = "GET") then isValuePackageReadOnlyGetPath path
  else if decide (method ≠ "POST") then false
  else bool_decide (path = "/suno/fetch") || HasSuffix path "/suno/fetch" || Contains path "/mj/task/list-by-condition".

Definition formatValuePackageResetDuration (seconds : Z) : string :=
  if decide (seconds ≤ 0) then "不到 1 分钟"
  else if decide (seconds < 60) then "不到 1 分钟"
  else
    let minutes := (seconds +! 59) /! 60 in
    if decide (minutes < 60) then pretty minutes +:+ " 分钟"
    else
      let hours := minutes /! 60 in
      let remainingMinutes := Z.rem minutes 60 in
      if decide (hours < 24) then
        if decide (remainingMinutes > 0) then pretty hours +:+ " 小时 " +:+ pretty remainingMinutes +:+ " 分钟"
        else pretty hours +:+ " 小时"
      else
        let days := hours /! 24 in
        let remainingHours := Z.rem hours 24 in
        if decide (remainingHours > 0) then pretty days +:+ " 天 " +:+ pretty remainingHours +:+ " 小时"
        else pretty days +:+ " 天".

Definition formatValuePackageLimitMessage (windowLabel : string) (used limit resetSeconds : Z) : string :=
  let usage := ValuePackageQuotaExhaustedUserMessage +:+ "（" +:+ windowLabel +:+ "：已用 " +:+ pretty used +:+
               " / 限额 " +:+ pretty limit in
  if decide (resetSeconds > 0)
  then usage +:+ "，将在 " +:+ formatValuePackageResetDuration resetSeconds +:+ "后完全恢复）"
  else usage +:+ "）".

(** The keys of the request's context that carry the package. *)
Record ContextKeys := mkKeys {
  ck_ValuePackageSubscriptionId : Z;
  ck_ValuePackagePlanId : Z;
  ck_ValuePackageModelGroup : string;
  ck_ValuePackagePackageType : string;
  ck_ValuePackageWalletFallback : bool;
  ck_ValuePackageUseWallet : bool;
}.
Global Instance ContextKeys_eta : Settable ContextKeys := λ k,
  mkKeys (ck_ValuePackageSubscriptionId k) (ck_ValuePackagePlanId k) (ck_ValuePackageModelGroup k)
    (ck_ValuePackagePackageType k) (ck_ValuePackageWalletFallback k) (ck_ValuePackageUseWallet k).
Definition no_keys : ContextKeys := mkKeys 0 0 "" "" false false.

Definition applyValuePackageGroupScope (keys : ContextKeys) (sub : UserSubscription) (plan : SubscriptionPlan) : ContextKeys :=
  let modelGroup := TrimSpace (sp_ModelGroup plan) in
  if decide (modelGroup = "") then keys
  else keys <| ck_ValuePackageSubscriptionId := us_Id sub |> <| ck_ValuePackagePlanId := sp_Id plan |>
            <| ck_ValuePackageModelGroup := modelGroup |> <| ck_ValuePackagePackageType := sp_PackageType plan |>.
Definition applyValuePackageWalletFallbackPreference (keys : ContextKeys) (state : ValuePackageState) : ContextKeys :=
  keys <| ck_ValuePackageWalletFallback := AllowsWalletFallback (st_Preference state) |>.
Definition markValuePackageWalletFallback (keys : ContextKeys) : ContextKeys := keys <| ck_ValuePackageUseWallet := true |>.

(** How a handler ends: the request goes on, or goes on with a slot that is released
    when it ends, or is answered with an error. *)
Inductive verdict :=
| Next
| NextHolding
| Abort (status : Z) (message : string).

Definition ValuePackageGroupScope (env : Env) (userId : Z) : Tx (ContextKeys * verdict) :=
  if decide (userId ≤ 0) then mret (no_keys, Next)
  else
    r ← attempt (GetActiveValuePackageForRelay env userId);
    match r with
    | Err _ => mret (no_keys, Abort 500 "查询超值套餐权益失败")
    | Ok None => mret (no_keys, Next)
    | Ok (Some state) =>
      mret match st_Subscription state, st_Plan state with
           | Some sub, Some plan =>
             (applyValuePackageGroupScope (applyValuePackageWalletFallbackPreference no_keys state) sub plan, Next)
           | _, _ => (no_keys, Next)
           end
    end.

(** A package that is used up: the wallet pays, or the request is turned away. *)
Definition used_up (keys : ContextKeys) (message : string) : ContextKeys * verdict :=
  if ck_ValuePackageWalletFallback keys then (markValuePackageWalletFallback keys, Next) else (keys, Abort 403 message).

(** The middleware for a package that was found. *)
Definition entitle (env : Env) (acquire : Z → Z → result bool) (method path : string) (userId : Z)
    (state : ValuePackageState) (sub : UserSubscription) (plan : SubscriptionPlan) : Tx (ContextKeys * verdict) :=
  let keys := applyValuePackageWalletFallbackPreference no_keys state in
  if isValuePackageReadOnlyRequest method path then mret (applyValuePackageGroupScope keys sub plan, Next)
  else if decide (us_AmountTotal sub > 0 ∧ us_AmountUsed sub >= us_AmountTotal sub)
  then mret (used_up keys ValuePackageQuotaExhaustedUserMessage)
  else
    r ← attempt (getValuePackageWindowUsageDetailsTx env userId (us_Id sub) (db_now env));
    match r with
    | Err _ => mret (keys, Abort 500 "查询超值套餐用量失败")
    | Ok usageDetails =>
      if decide (sp_Limit5hAmount plan > 0 ∧ vd_Used5h usageDetails >= sp_Limit5hAmount plan)
      then mret (used_up keys (formatValuePackageLimitMessage "5 小时" (vd_Used5h usageDetails) (sp_Limit5hAmount plan)
                                 (vd_ResetSeconds5h usageDetails)))
      else if decide (sp_Limit7dAmount plan > 0 ∧ vd_Used7d usageDetails >= sp_Limit7dAmount plan)
      then mret (used_up keys (formatValuePackageLimitMessage "7 天" (vd_Used7d usageDetails) (sp_Limit7dAmount plan)
                                 (vd_ResetSeconds7d usageDetails)))
      else
        let keys := applyValuePackageGroupScope keys sub plan in
        mret match acquire (us_Id sub) (sp_ConcurrencyLimit plan) with
             | Err _ => (keys, Abort 500 "申请超值套餐并发额度失败")
             | Ok false => (keys, Abort 429 "超值套餐并发请求数已达上限")
             | Ok true => (keys, NextHolding)
             end
    end.

Definition ValuePackageEntitlement (env : Env) (acquire : Z → Z → result bool) (method path : string) (userId : Z) :
    Tx (ContextKeys * verdict) :=
  if decide (userId ≤ 0) then mret (no_keys, Next)
  else
    r ← attempt (GetActiveValuePackageForRelay env userId);
    match r with
    | Err _ => mret (no_keys, Abort 500 "查询超值套餐权益失败")
    | Ok None => mret (no_keys, Next)
    | Ok (Some state) =>
      match st_Subscription state, st_Plan state with
      | Some sub, Some plan => entitle env acquire method path userId state sub plan
      | _, _ => mret (no_keys, Next)
      end
    end.

(** The request made from the context: the fields billing reads that depend on the
    package; the others are those of [base]. *)
Definition genBaseRelayInfo (keys : ContextKeys) (base : RelayInfo) : RelayInfo :=
  let valuePackageGroup := TrimSpace (ck_ValuePackageModelGroup keys) in
  let userGroup := ri_UserGroup base in
  base <| ri_RealUserGroup := userGroup |>
       <| ri_BillingUserGroup := if decide (valuePackageGroup ≠ "") then valuePackageGroup else userGroup |>
       <| ri_Package := mkPackageInfo (ck_ValuePackageSubscriptionId keys) (ck_ValuePackagePlanId keys) valuePackageGroup
            valuePackageGroup (ck_ValuePackagePackageType keys) (ck_ValuePackageWalletFallback keys)
            (ck_ValuePackageUseWallet keys) |>.

(** ** Lemmas *)

(** A package that is in force and in its current cycle is locked as it is. *)
Lemma wp_lock_current env now userId sub plan (Q : result (UserSubscription * SubscriptionPlan) → DB → Prop) db :
  Accounting db → locked db userId (us_Id sub) now sub plan → us_Status sub = UserSubscriptionStatusActive →
  maybeAdvanceValuePackageCycleTx env sub plan now db = (Ok sub, db) → Q (Ok (sub, plan)) db →
  wp (lock_active_package env now userId (us_Id sub)) Q db.
Proof.
  intros Hacc [Hs _ Hu He Hp Hv] Hst Hadv HQ. unfold lock_active_package. do 3 wp_step. apply wp_or_error.
  2: { intros Hnone. by destruct (first_None _ _ sub Hnone Hs). }
  intros s2 (Hs2 & Hid2 & _)%first_Some.
  assert (s2 = sub) as -> by (by apply (wf_row_eq (user_subscriptions db)); [apply Hacc|..]).
  wp_step. apply wp_get_plan; [|congruence]. intros p Hp'. rewrite Hp in Hp'. injection Hp' as ->. wp_pass.
  wp_step. unfold wp at 1. rewrite Hadv. cbn [fst snd]. by wp_step.
Qed.

(** The seven-day usage of a plan without that window is 0. *)
Lemma used7d_window sub plan records lastResetAt now :
  valuePackageHas7dWindow plan = false →
  vd_Used7d (buildValuePackageWindowUsageDetailsFromRecords sub plan records lastResetAt now) = 0.
Proof.
  intros Hno. unfold buildValuePackageWindowUsageDetailsFromRecords. case_decide; [done|].
  destruct (valuePackageFixedWindowUsageDetails _ _ _) as [used5h earliest5h]. by rewrite Hno.
Qed.

(** What the middleware found when it did not let the package pay. *)
Definition exhausted (sub : UserSubscription) (plan : SubscriptionPlan) (d : ValuePackageWindowUsageDetails) : Prop :=
  (us_AmountTotal sub > 0 ∧ us_AmountUsed sub >= us_AmountTotal sub) ∨
  (sp_Limit5hAmount plan > 0 ∧ vd_Used5h d >= sp_Limit5hAmount plan) ∨
  (sp_Limit7dAmount plan > 0 ∧ vd_Used7d d >= sp_Limit7dAmount plan).

(** A package that does not pay is used up. *)
Definition diverted (r : ContextKeys * verdict) : Prop := ck_ValuePackageUseWallet r.1 = true ∨ ∃ message, r.2 = Abort 403 message.

Lemma scope_keeps_wallet keys sub plan : ck_ValuePackageUseWallet (applyValuePackageGroupScope keys sub plan) = ck_ValuePackageUseWallet keys.
Proof. unfold applyValuePackageGroupScope. by case_decide. Qed.

Lemma wp_entitle_exhausted env acquire method path userId state sub plan db :
  Accounting db → 0 < db_now env → locked db userId (us_Id sub) (db_now env) sub plan →
  wp (entitle env acquire method path userId state sub plan)
    (λ r db', db' = db ∧ ∀ kv, r = Ok kv → diverted kv → exhausted sub plan (package_details db (db_now env) sub plan)) db.
Proof.
  intros Hacc Hnow Hl. unfold entitle, exhausted, diverted.
  wp_step; [wp_step; split; [done|]; intros kv [= <-]; cbn [fst snd]; rewrite scope_keeps_wallet; by intros [|[]]|].
  wp_step; [wp_step; by split; [|left]|]. do 2 wp_step. apply (wp_details_locked env userId (us_Id sub) _ sub plan); [done..|].
  set (d := package_details _ _ _ _). wp_step; [wp_step; by split; [|right; left]|].
  wp_step; [wp_step; by split; [|right; right]|]. wp_step. split; [done|]. intros kv [= <-] Hd. exfalso. revert Hd.
  destruct (acquire _ _) as [[]|]; cbn [fst snd]; rewrite scope_keeps_wallet; by intros [|[]].
Qed.

(** The guards of a charge, all of which a used-up package would pass. *)
Lemma exhausted_refused db userId now sub plan amount :
  let d := package_details db now sub plan in
  Accounting db → locked db userId (us_Id sub) now sub plan → exhausted sub plan d → 0 < amount →
  in_int64 (vd_Used5h d + amount) → in_int64 (vd_Used7d d + amount) →
  ¬ (us_AmountTotal sub > 0 ∧ us_AmountTotal sub -! us_AmountUsed sub < amount) →
  ¬ (sp_Limit5hAmount plan > 0 ∧ vd_Used5h d +! amount > sp_Limit5hAmount plan) →
  ¬ (valuePackageHas7dWindow plan = true ∧ vd_Used7d d +! amount > sp_Limit7dAmount plan) → False.
Proof.
  intros d Hacc Hl Hex Hamt H5 H7 Htotal Hfive Hseven. destruct (locked_used _ _ _ _ _ _ Hacc Hl) as (_ & Hused & Htot & Hle).
  rewrite wrap64_id in Hfive by done. rewrite wrap64_id in Hseven by done.
  destruct Hex as [[Ht Hu]|[[Hl5 Hu5]|[Hl7 Hu7]]].
  - apply Htotal. split; [done|]. rewrite wrap64_id; [lia|]. unfold in_int64. lia.
  - apply Hfive. lia.
  - apply Hseven. split; [|lia]. destruct (valuePackageHas7dWindow plan) eqn:E; [done|].
    assert (vd_Used7d d = 0) by (by apply used7d_window). lia.
Qed.

(** ** Theorems *)

(** C36: the middleware and the billing agree on when a package is used up.  When the
    middleware sends a request to the wallet or turns it away with status 403, for a
    package in its current cycle, then charging the package for the request would fail
    for every amount, with the error that says the quota is insufficient, and change
    nothing. *)
Theorem diverted_cannot_pay env acquire method path userId requestId amount state sub plan db0 db r :
  GetActiveValuePackageForRelay env userId db0 = (Ok (Some state), db) →
  st_Subscription state = Some sub → st_Plan state = Some plan →
  Accounting db → 0 < db_now env → locked db userId (us_Id sub) (db_now env) sub plan →
  us_Status sub = UserSubscriptionStatusActive →
  maybeAdvanceValuePackageCycleTx env sub plan (db_now env) db = (Ok sub, db) →
  ValuePackageEntitlement env acquire method path userId db0 = (Ok r, db) → diverted r →
  TrimSpace requestId ≠ "" → pre_consume_of requestId db = None → 0 < amount →
  let d := package_details db (db_now env) sub plan in
  in_int64 (vd_Used5h d + amount) → in_int64 (vd_Used7d d + amount) →
  ∃ detail, PreConsumeValuePackageSubscription env requestId userId (us_Id sub) amount db = (Err (insufficient detail amount), db).
Proof.
  intros Hget Hsub Hplan Hacc Hnow Hl Hst Hadv Hent Hdiv Hreq Hpre Hamt d H5 H7.
  assert (Huser : 0 < userId).
  { destruct (decide (userId ≤ 0)); [|lia]. unfold ValuePackageEntitlement in Hent. rewrite decide_True in Hent by done.
    injection Hent as <- _. by destruct Hdiv as [|[]]. }
  assert (Hex : exhausted sub plan d).
  { unfold ValuePackageEntitlement in Hent. rewrite decide_False in Hent by lia.
    rewrite (bind_ok _ _ (Ok (Some state)) db0 db) in Hent by (unfold attempt; by rewrite Hget). rewrite Hsub, Hplan in Hent.
    by destruct (wp_run _ _ _ _ _ (wp_entitle_exhausted env acquire method path userId state sub plan db Hacc Hnow Hl) Hent) as [_ Hx];
      apply (Hx r). }
  pose proof (lk_elem _ _ _ _ _ _ Hl) as Hin. pose proof (wf_elem _ sub (ac_subs _ _ _ _ Hacc) Hin) as [Hid _].
  enough (Hwp : wp (PreConsumeValuePackageSubscription env requestId userId (us_Id sub) amount)
    (λ r db', (∃ detail, r = Err (insufficient detail amount)) ∧ db' = db) db).
  { unfold wp in Hwp. destruct (PreConsumeValuePackageSubscription _ _ _ _ _ _) as [x y]. cbn in Hwp. naive_solver. }
  unfold PreConsumeValuePackageSubscription. cbn in Hid. wp_pass. wp_pass. wp_pass. wp_pass. do 3 wp_step. rewrite Hpre. wp_step.
  apply (wp_lock_current env (db_now env) userId sub plan); [done..|]. wp_step. wp_step; [eauto|]. wp_step.
  apply (wp_details_locked env userId (us_Id sub) _ sub plan); [done..|]. fold d.
  wp_step. wp_step; [eauto|]. wp_step. wp_step; [eauto|]. exfalso. by apply (exhausted_refused db userId (db_now env) sub plan amount).
Qed.

(** The ratio shown for a package is the ratio its requests are billed at.  For a
    request that carries a package, as the relay builds it from what the middleware
    left in the context, with the group ratio looked up the way prices are, the ratio
    the request resolves to is what [GetValuePackageGroupRatio] reports for the group of
    the package and the group of models in use: the override of the pair, or 1. *)
Theorem package_ratio_shown g autoGroup keys base :
  groups_wf g → 0 < ck_ValuePackageSubscriptionId keys → pd_SubscriptionRatioApplied (ri_PriceData base) = false →
  let '(groupRatioInfo, info) := HandleGroupRatio g autoGroup (genBaseRelayInfo keys base) in
  TrimSpace (ri_UsingGroup info) = ri_UsingGroup info →
  (resolveSubscriptionBillingRatio (info <| ri_PriceData ::= λ p, p <| pd_GroupRatioInfo := groupRatioInfo |> |>)).1 =
    GetValuePackageGroupRatio g (ck_ValuePackageModelGroup keys) (ri_UsingGroup info).
Proof.
  intros Hwf Hid Happ. pose proof (package_ratio_resolved g autoGroup (genBaseRelayInfo keys base) Hwf) as Hr.
  destruct (HandleGroupRatio g autoGroup (genBaseRelayInfo keys base)) as [groupRatioInfo info]. intros Huse. rewrite Hr; try done.
  - unfold GetValuePackageGroupRatio. cbn -[TrimSpace]. by rewrite TrimSpace_idem.
  - cbn. lia.
  - cbn -[TrimSpace]. intros Hne. right. rewrite TrimSpace_idem in Hne. by rewrite decide_True.
Qed.

(** ** Examples *)

(** A request of a package of the group 体验用户 for models of the group gpt-pro. *)
Definition package_request : RelayInfo :=
  mkRelay 7 "sk" 1 "gpt-plus" "" "default" "default" "" false false "" 0 0 0 0 false "" "req-1" None
    (mkSubInfo 0 0 0 0 "" 0 0) (mkPackageInfo 0 0 "" "" "" false false)
    (no_price <| pd_QuotaToPreConsume := 100 |> <| pd_QuotaBeforeGroup := float_of_int 100 |>
              <| pd_GroupRatioInfo := mkRatio float_one float_minus_one false |>) None no_call.
Definition package_keys : ContextKeys := mkKeys 5 2 "体验用户" "month" true false.

Lemma package_ratio_shown_witness :
  let '(groupRatioInfo, info) := HandleGroupRatio initial_groups (Some "gpt-pro") (genBaseRelayInfo package_keys package_request) in
  (resolveSubscriptionBillingRatio (info <| ri_PriceData ::= λ p, p <| pd_GroupRatioInfo := groupRatioInfo |> |>)).1 =
    GetValuePackageGroupRatio initial_groups "体验用户" "gpt-pro" ∧
  GetValuePackageGroupRatio initial_groups "体验用户" "gpt-pro" = S754_finite false 5944751508129055 (-52).
Proof.
  split; [|vm_compute; reflexivity].
  refine (package_ratio_shown initial_groups (Some "gpt-pro") package_keys package_request initial_groups_wf _ _ _);
    vm_compute; reflexivity.
Defined.

(** A package with its five-hour limit used up by one request. *)
Definition full_db : DB := (PreConsumeValuePackageSubscription cards_env "r1" 1 1 100 cards_db).2.
Definition full_sub : UserSubscription := example_sub <| us_AmountUsed := 100 |> <| us_UpdatedAt := 40000 |>.

Lemma full_accounting : Accounting full_db.
Proof.
  destruct (preconsume_charge cards_env "r1" 1 1 100 cards_db full_db (mkResult 1 100 1000 0 100 0))
    as (mid & s0 & s & plan & Hc);
    [exact cards_db_accounting|by apply example_room|vm_compute; reflexivity|vm_compute; reflexivity|].
  apply (charge_accounting _ _ _ _ _ _ _ _ _ _ _ _ Hc). vm_compute. reflexivity.
Qed.

Lemma full_locked : locked full_db 1 1 40000 full_sub example_package.
Proof.
  split; try (vm_compute; reflexivity). assert (user_subscriptions full_db = Table [full_sub] 2) as -> by (vm_compute; reflexivity).
  by left.
Qed.

Definition full_entitlement : ContextKeys * verdict := (mkKeys 0 0 "" "" true true, Next).

Lemma diverted_cannot_pay_witness :
  ValuePackageEntitlement cards_env (λ _ _, Ok true) "POST" "/v1/chat/completions" 1 full_db = (Ok full_entitlement, full_db) ∧
  ∃ detail, PreConsumeValuePackageSubscription cards_env "r2" 1 1 5 full_db = (Err (insufficient detail 5), full_db).
Proof.
  split; [vm_compute; reflexivity|].
  refine (diverted_cannot_pay cards_env (λ _ _, Ok true) "POST" "/v1/chat/completions" 1 "r2" 5
    (mkState (mkPref 1 1 true None 1 2 1000 1000) (Some full_sub) (Some example_package) None (mkBilling true "vp" "month card" 2))
    full_sub example_package full_db full_db full_entitlement _ eq_refl eq_refl full_accounting _ full_locked eq_refl _ _ _ _ _ _ _ _).
  - vm_compute. reflexivity.
  - reflexivity.
  - vm_compute. reflexivity.
  - vm_compute. reflexivity.
  - by left.
  - vm_compute. discriminate.
  - vm_compute. reflexivity.
  - reflexivity.
  - vm_compute. split; discriminate.
  - vm_compute. split; discriminate.
Defined.
