(* ===== verification/Midjourney.v ===== *)
(** * Refunds of picture tasks

    [model/midjourney.go] and [service/midjourney_billing.go]: a picture task is paid
    when it is submitted; when it fails, what was paid (the funding, from the wallet or
    a subscription, and the quota of the API token) is given back.  Several workers may
    see the failure at once and any of them may stop half way, so each part is given
    back by a transaction of its own that sets a flag of the task, and the task only
    leaves the progress [REFUND_PENDING] when all parts are done.

    The operations are written as in the code.  For the proofs a call of
    [CommitMidjourneyTaskUpdate] is also cut into its database statements (a
    [Worker]); any number of workers may interleave, and stop, between them. *)
From S2P Require Import Prelude Tables GoFloat GoTime Schema Plans Windows Cycles Consume Accounting Ledger Limits Preferences Cards Purchases Lifecycle Wallet.

(** ** Definitions *)

Definition MidjourneyBillingContextVersion := 1.

Definition FundingRefundQuota (m : Midjourney) : Z :=
  if decide (mc_Version (mj_BillingContext m) >= MidjourneyBillingContextVersion)
  then Z.max (mc_FundingQuota (mj_BillingContext m)) 0
  else Z.max (mj_Quota m) 0.

Definition TokenRefundQuota (m : Midjourney) : Z :=
  if decide (mc_TokenId (mj_BillingContext m) ≤ 0) then 0
  else if decide (mc_Version (mj_BillingContext m) >= MidjourneyBillingContextVersion)
  then Z.max (mc_TokenQuota (mj_BillingContext m)) 0
  else Z.max (mj_Quota m) 0.

Definition HasRefundableQuota (m : Midjourney) : bool :=
  bool_decide (FundingRefundQuota m > 0) || bool_decide (TokenRefundQuota m > 0).

Definition loadMidjourneyRefundTask (taskID : Z) : Tx Midjourney :=
  db ← get; or_error (by_id taskID (midjourneys db)) ErrRecordNotFound.

Definition completeMidjourneyFundingContext (context : MidjourneyBillingContext) (tokenQuota : Z) :
    MidjourneyBillingContext :=
  let context := context <| mc_FundingRefunded := true |> in
  if decide (tokenQuota ≤ 0) then context <| mc_TokenRefunded := true |> <| mc_BillingRefunded := true |> else context.

(** [Update("billing_context", updated)], and whether the task is completed by it; the
    caller's copy of the task gets the new context. *)
Definition update_context (task stored : Midjourney) (updated : MidjourneyBillingContext) : Tx (bool * Midjourney) :=
  _ ← modify (λ d, d <| midjourneys ::= update_where (λ m, mj_Id m = mj_Id stored)
                                          (λ m, m <| mj_BillingContext := updated |>) |>);
  mret (negb (mc_BillingRefunded (mj_BillingContext stored)) && mc_BillingRefunded updated,
        task <| mj_BillingContext := updated |>).

Definition RefundMidjourneyWalletFundingOnce (task : Midjourney) : Tx (bool * Midjourney) :=
  _ ← fail_if (mj_Id task ≤ 0 ∨ FundingRefundQuota task ≤ 0) (ErrNew "invalid midjourney wallet refund task");
  transaction (
    stored ← loadMidjourneyRefundTask (mj_Id task);
    if mc_FundingRefunded (mj_BillingContext stored)
    then mret (false, task <| mj_BillingContext := mj_BillingContext stored |>)
    else
      let refundQuota := FundingRefundQuota stored in
      _ ← fail_if (refundQuota ≤ 0) (ErrNew "invalid midjourney wallet refund quota");
      db ← get;
      _ ← increaseUserQuota (mj_UserId stored) refundQuota;
      _ ← fail_if (affected (λ u, u_Id u = mj_UserId stored) (users db) = 0) ErrRecordNotFound;
      update_context task stored
        (completeMidjourneyFundingContext (mj_BillingContext stored) (TokenRefundQuota stored))).

Definition RefundMidjourneySubscriptionFundingOnce (task : Midjourney) : Tx (bool * Midjourney) :=
  _ ← fail_if (mj_Id task ≤ 0 ∨ FundingRefundQuota task ≤ 0 ∨ mc_SubscriptionId (mj_BillingContext task) ≤ 0)
        (ErrNew "invalid midjourney subscription refund task");
  transaction (
    stored ← loadMidjourneyRefundTask (mj_Id task);
    if mc_FundingRefunded (mj_BillingContext stored)
    then mret (false, task <| mj_BillingContext := mj_BillingContext stored |>)
    else
      let refundQuota := FundingRefundQuota stored in
      _ ← fail_if (refundQuota ≤ 0) (ErrNew "invalid midjourney subscription refund quota");
      db ← get;
      let paying s := us_Id s = mc_SubscriptionId (mj_BillingContext stored) in
      _ ← modify (λ d, d <| user_subscriptions ::= update_where paying
                              (λ s, s <| us_AmountUsed ::= λ used, used - refundQuota |>) |>);
      _ ← fail_if (affected paying (user_subscriptions db) = 0) ErrRecordNotFound;
      update_context task stored
        (completeMidjourneyFundingContext (mj_BillingContext stored) (TokenRefundQuota stored))).

Definition MarkMidjourneyFundingRefunded (task : Midjourney) : Tx (bool * Midjourney) :=
  _ ← fail_if (mj_Id task ≤ 0) (ErrNew "invalid midjourney refund task");
  transaction (
    stored ← loadMidjourneyRefundTask (mj_Id task);
    if mc_FundingRefunded (mj_BillingContext stored)
    then mret (false, task <| mj_BillingContext := mj_BillingContext stored |>)
    else update_context task stored
           (completeMidjourneyFundingContext (mj_BillingContext stored) (TokenRefundQuota stored))).

Definition RefundMidjourneyTokenQuotaOnce (env : Env) (task : Midjourney) : Tx (bool * Midjourney) :=
  _ ← fail_if (mj_Id task ≤ 0 ∨ TokenRefundQuota task ≤ 0 ∨ mc_TokenId (mj_BillingContext task) ≤ 0)
        (ErrNew "invalid midjourney token refund task");
  transaction (
    stored ← loadMidjourneyRefundTask (mj_Id task);
    let context := mj_BillingContext stored in
    if mc_TokenRefunded context then mret (false, task <| mj_BillingContext := context |>)
    else
      let refundQuota := TokenRefundQuota stored in
      _ ← fail_if (refundQuota ≤ 0) (ErrNew "invalid midjourney token refund quota");
      db ← get;
      _ ← increaseTokenQuota env (mc_TokenId context) refundQuota;
      _ ← fail_if (affected (λ t, t_Id t = mc_TokenId context) (tokens db) = 0) ErrRecordNotFound;
      update_context task stored
        (context <| mc_TokenRefunded := true |> <| mc_BillingRefunded := mc_FundingRefunded context |>)).

(** The condition under which the funding is a pre-consumption of a subscription. *)
Definition by_request (m : Midjourney) : Prop :=
  mc_BillingSource (mj_BillingContext m) = "subscription" ∧ TrimSpace (mc_RequestId (mj_BillingContext m)) ≠ "".
Global Instance by_request_dec m : Decision (by_request m).
Proof. unfold by_request. solve_decision. Defined.

Definition by_subscription (m : Midjourney) : Prop :=
  mc_BillingSource (mj_BillingContext m) = "subscription" ∧ mc_SubscriptionId (mj_BillingContext m) > 0.
Global Instance by_subscription_dec m : Decision (by_subscription m).
Proof. unfold by_subscription. solve_decision. Defined.

Definition refundMidjourneyFunding (env : Env) (task : Midjourney) : Tx (bool * Midjourney) :=
  if decide (FundingRefundQuota task ≤ 0) then MarkMidjourneyFundingRefunded task
  else if decide (by_request task) then
    _ ← RefundSubscriptionPreConsume env (TrimSpace (mc_RequestId (mj_BillingContext task)));
    MarkMidjourneyFundingRefunded task
  else if decide (by_subscription task) then RefundMidjourneySubscriptionFundingOnce task
  else RefundMidjourneyWalletFundingOnce task.

(** An error of the query is an empty key. *)
Definition resolveTokenKey (tokenId : Z) : Tx string :=
  db ← get; mret (from_option t_Key "" (by_id tokenId (tokens db))).

Definition refundMidjourneyToken (env : Env) (task : Midjourney) : Tx (bool * Midjourney) :=
  if decide (mc_TokenId (mj_BillingContext task) ≤ 0 ∨ TokenRefundQuota task ≤ 0) then mret (false, task)
  else
    tokenKey ← resolveTokenKey (mc_TokenId (mj_BillingContext task));
    _ ← fail_if (tokenKey = "") (ErrNew "token key is unavailable");
    RefundMidjourneyTokenQuotaOnce env task.

(** The result: the caller's copy of the task, the error, and the quota of the log entry
    that is written, if one is. *)
Record RefundOutcome := mkRefund { ro_task : Midjourney; ro_err : option error; ro_log : option Z }.

Definition RefundMidjourneyQuota (env : Env) (task : Midjourney) : Tx RefundOutcome :=
  if mc_BillingRefunded (mj_BillingContext task) then mret (mkRefund task None None)
  else if decide (mc_Version (mj_BillingContext task) < MidjourneyBillingContextVersion ∧ mj_Quota task ≤ 0)
  then mret (mkRefund task None None)
  else
    r ← attempt (refundMidjourneyFunding env task);
    match r with
    | Err e => mret (mkRefund task (Some e) None)
    | Ok (completionOwned, task) =>
      r ← attempt (refundMidjourneyToken env task);
      match r with
      | Err e => mret (mkRefund task (Some e) None)
      | Ok (tokenCompletionOwned, task) =>
        let logQuota := if decide (FundingRefundQuota task ≤ 0) then TokenRefundQuota task else FundingRefundQuota task in
        mret (mkRefund task None
          (if (completionOwned || tokenCompletionOwned) && HasRefundableQuota task then Some logQuota else None))
      end
    end.

Definition GetMidjourneyById (id : Z) : Tx Midjourney :=
  db ← get; or_error (by_id id (midjourneys db)) ErrRecordNotFound.

(** Every column but the billing context is written. *)
Definition UpdateWithStatusAndProgress (midjourney : Midjourney) (fromStatus fromProgress : string) : Tx bool :=
  let at_ m := mj_Id m = mj_Id midjourney ∧ mj_Status m = fromStatus ∧ mj_Progress m = fromProgress in
  db ← get;
  _ ← modify (λ d, d <| midjourneys ::= update_where at_
                          (λ m, midjourney <| mj_BillingContext := mj_BillingContext m |>) |>);
  mret (bool_decide (affected at_ (midjourneys db) > 0)).

Definition CompleteMidjourneyRefundProgress (id : Z) (targetProgress : string) : Tx bool :=
  let at_ m := mj_Id m = id ∧ mj_Progress m = "REFUND_PENDING" in
  db ← get;
  _ ← modify (λ d, d <| midjourneys ::= update_where at_ (λ m, m <| mj_Progress := targetProgress |>) |>);
  mret (bool_decide (affected at_ (midjourneys db) > 0)).

(** The result: whether this call made the change, the error, and the caller's copy. *)
Record CommitOutcome := mkCommit { co_won : bool; co_err : option error; co_task : Midjourney }.

Definition CommitMidjourneyTaskUpdate (env : Env) (task : Midjourney) (preStatus : string) (shouldRefund : bool) :
    Tx CommitOutcome :=
  if decide (mj_Id task ≤ 0) then mret (mkCommit false (Some (ErrNew "midjourney task is nil")) task)
  else
  r ← attempt (GetMidjourneyById (mj_Id task));
  match r with
  | Err e => mret (mkCommit false (Some e) task)
  | Ok stored =>
    if decide (mj_Progress stored = "REFUND_PENDING") then
      refund ← RefundMidjourneyQuota env stored;
      match ro_err refund with
      | Some e => mret (mkCommit true (Some e) (ro_task refund))
      | None =>
        completed ← CompleteMidjourneyRefundProgress (mj_Id stored) "100%";
        r ← attempt (GetMidjourneyById (mj_Id stored));
        match r with
        | Err e => mret (mkCommit completed (Some e) task)
        | Ok latest => mret (mkCommit (completed || bool_decide (mj_Progress latest = "100%")) None latest)
        end
      end
    else if decide (mj_Progress stored = "100%") then mret (mkCommit false None stored)
    else if decide (mj_Status stored ≠ preStatus) then mret (mkCommit false None stored)
    else
      let targetProgress := mj_Progress task in
      let task := task <| mj_BillingContext := mj_BillingContext stored |> in
      let task := if shouldRefund then task <| mj_Progress := "REFUND_PENDING" |> else task in
      won ← UpdateWithStatusAndProgress task preStatus (mj_Progress stored);
      if negb won || negb shouldRefund then mret (mkCommit won None task)
      else
        refund ← RefundMidjourneyQuota env task;
        match ro_err refund with
        | Some e => mret (mkCommit true (Some e) (ro_task refund))
        | None =>
          completed ← CompleteMidjourneyRefundProgress (mj_Id task) targetProgress;
          mret (mkCommit completed None
            (if completed then (ro_task refund) <| mj_Progress := targetProgress |> else ro_task refund))
        end
  end.

(** *** One statement at a time *)

Inductive Stage :=
| AtUpdate (preStatus fromProgress : string) (shouldRefund : bool)
| AtFunding
| AtMark
| AtToken
| AtComplete.

(** A call in progress: where it is, its copy of the task, the progress it sets at the end. *)
Record Worker := mkWorker { wk_stage : Stage; wk_task : Midjourney; wk_target : string }.

(** Where [RefundMidjourneyQuota] starts. *)
Definition start_refund (task : Midjourney) (target : string) : Worker :=
  if decide (mc_BillingRefunded (mj_BillingContext task) = true ∨
             mc_Version (mj_BillingContext task) < MidjourneyBillingContextVersion ∧ mj_Quota task ≤ 0)
  then mkWorker AtComplete task target
  else mkWorker AtFunding task target.

(** What a call does with the task it has loaded. *)
Definition begin_commit (task : Midjourney) (preStatus : string) (shouldRefund : bool) (stored : Midjourney) :
    option Worker :=
  if decide (mj_Progress stored = "REFUND_PENDING") then Some (start_refund stored "100%")
  else if decide (mj_Progress stored = "100%" ∨ mj_Status stored ≠ preStatus) then None
  else
    let copy := task <| mj_BillingContext := mj_BillingContext stored |> in
    let copy := if shouldRefund then copy <| mj_Progress := "REFUND_PENDING" |> else copy in
    Some (mkWorker (AtUpdate preStatus (mj_Progress stored) shouldRefund) copy (mj_Progress task)).

(** The next statement of a call; [None] when the call is over. *)
Definition worker_step (env : Env) (w : Worker) : Tx (option Worker) :=
  let task := wk_task w in
  let move stage (m : Tx (bool * Midjourney)) :=
    r ← attempt m;
    mret (match r with Ok (_, task) => Some (mkWorker stage task (wk_target w)) | Err _ => None end) in
  match wk_stage w with
  | AtUpdate preStatus fromProgress shouldRefund =>
    won ← UpdateWithStatusAndProgress task preStatus fromProgress;
    mret (if won && shouldRefund then Some (start_refund task (wk_target w)) else None)
  | AtFunding =>
    if decide (FundingRefundQuota task ≤ 0) then move AtToken (MarkMidjourneyFundingRefunded task)
    else if decide (by_request task) then
      move AtMark (_ ← RefundSubscriptionPreConsume env (TrimSpace (mc_RequestId (mj_BillingContext task)));
                   mret (false, task))
    else if decide (by_subscription task) then move AtToken (RefundMidjourneySubscriptionFundingOnce task)
    else move AtToken (RefundMidjourneyWalletFundingOnce task)
  | AtMark => move AtToken (MarkMidjourneyFundingRefunded task)
  | AtToken => move AtComplete (refundMidjourneyToken env task)
  | AtComplete =>
    _ ← CompleteMidjourneyRefundProgress (mj_Id task) (wk_target w);
    mret None
  end.

(** ** What a task is owed *)

(** What was paid for a task and how; no statement changes it. *)
Definition charge_of (m : Midjourney) :=
  let c := mj_BillingContext m in
  (mj_UserId m, mj_Quota m, mc_Version c, mc_BillingSource c, mc_SubscriptionId c, mc_RequestId c, mc_TokenId c,
   mc_FundingQuota c, mc_TokenQuota c).

(** What a refund leaves to the other statements. *)
Definition shown (m : Midjourney) := (mj_Status m, mj_Progress m, mj_FailReason m).

Definition pays_wallet (m : Midjourney) : Prop :=
  0 < FundingRefundQuota m ∧ ¬ by_request m ∧ ¬ by_subscription m.
Global Instance pays_wallet_dec m : Decision (pays_wallet m).
Proof. unfold pays_wallet. solve_decision. Defined.

Lemma charge_same a b :
  charge_of a = charge_of b → FundingRefundQuota a = FundingRefundQuota b ∧ TokenRefundQuota a = TokenRefundQuota b ∧
    (by_request a ↔ by_request b) ∧ (by_subscription a ↔ by_subscription b) ∧ mj_UserId a = mj_UserId b ∧
    mc_TokenId (mj_BillingContext a) = mc_TokenId (mj_BillingContext b) ∧
    (mc_Version (mj_BillingContext a) < MidjourneyBillingContextVersion ∧ mj_Quota a ≤ 0 ↔
     mc_Version (mj_BillingContext b) < MidjourneyBillingContextVersion ∧ mj_Quota b ≤ 0).
Proof.
  unfold charge_of. intros [= Hu Hq Hv Hs Hsub Hr Ht Hf Htq].
  unfold FundingRefundQuota, TokenRefundQuota, by_request, by_subscription.
  by rewrite Hu, Hq, Hv, Hs, Hsub, Hr, Ht, Hf, Htq.
Qed.

Lemma charge_wallet a b : charge_of a = charge_of b → pays_wallet a ↔ pays_wallet b.
Proof. intros (Hf & _ & Hr & Hs & _)%charge_same. unfold pays_wallet. by rewrite Hf, Hr, Hs. Qed.

(** Everything that was paid for the task is given back, or nothing was. *)
Definition settled (m : Midjourney) : Prop :=
  mc_FundingRefunded (mj_BillingContext m) = true ∧ mc_TokenRefunded (mj_BillingContext m) = true ∨
  mc_Version (mj_BillingContext m) < MidjourneyBillingContextVersion ∧ mj_Quota m ≤ 0.

(** The flags fit together: the token comes last. *)
Definition flags_ok (m : Midjourney) : Prop :=
  let c := mj_BillingContext m in
  mc_BillingRefunded c = mc_TokenRefunded c ∧ (mc_TokenRefunded c = true → mc_FundingRefunded c = true) ∧
  (mc_FundingRefunded c = true → TokenRefundQuota m ≤ 0 → mc_TokenRefunded c = true).

Definition user_quota (d : DB) (u : Z) : Z := from_option u_Quota 0 (by_id u (users d)).
Definition token_quota (d : DB) (t : Z) : Z * Z :=
  from_option (λ t, (t_RemainQuota t, t_UsedQuota t)) (0, 0) (by_id t (tokens d)).

(** What a wallet and a token still have to get back. *)
Definition wallet_claim (u : Z) (m : Midjourney) : Z :=
  if decide (mj_UserId m = u ∧ pays_wallet m ∧ mc_FundingRefunded (mj_BillingContext m) = false)
  then FundingRefundQuota m else 0.
Definition token_claim (t : Z) (m : Midjourney) : Z :=
  if decide (mc_TokenId (mj_BillingContext m) = t ∧ mc_TokenRefunded (mj_BillingContext m) = false)
  then TokenRefundQuota m else 0.
Definition wallet_owed (d : DB) (u : Z) : Z := sumZ (wallet_claim u) (rows (midjourneys d)).
Definition token_owed (d : DB) (t : Z) : Z := sumZ (token_claim t) (rows (midjourneys d)).

(** Nothing is lost and nothing is given twice. *)
Record conserved (d d' : DB) : Prop := {
  cv_wallet : ∀ u, user_quota d' u + wallet_owed d' u = user_quota d u + wallet_owed d u;
  cv_remain : ∀ t, (token_quota d' t).1 + token_owed d' t = (token_quota d t).1 + token_owed d t;
  cv_used : ∀ t, (token_quota d' t).2 - token_owed d' t = (token_quota d t).2 - token_owed d t;
}.

Global Instance conserved_preorder : PreOrder conserved.
Proof.
  split; [split; done|]. intros d1 d2 d3 [Hw Hr Hu] [Hw' Hr' Hu'].
  split; intros i; [rewrite Hw'; apply Hw|rewrite Hr'; apply Hr|rewrite Hu'; apply Hu].
Qed.

(** How a stored task may change. *)
Record row_le (m m' : Midjourney) : Prop := {
  rl_id : mj_Id m' = mj_Id m;
  rl_charge : charge_of m' = charge_of m;
  rl_funding : mc_FundingRefunded (mj_BillingContext m) = true → mc_FundingRefunded (mj_BillingContext m') = true;
  rl_token : mc_TokenRefunded (mj_BillingContext m) = true → mc_TokenRefunded (mj_BillingContext m') = true;
  rl_flags : flags_ok m → flags_ok m';
  rl_pending : mj_Progress m = "REFUND_PENDING" → mj_Progress m' ≠ "REFUND_PENDING" → settled m';
}.

Lemma settled_le m m' : row_le m m' → settled m → settled m'.
Proof.
  intros [_ Hc Hf Ht _ _] [[H1 H2]|H]; [left; auto|]. right.
  apply charge_same in Hc as (_ & _ & _ & _ & _ & _ & Hz). by apply Hz.
Qed.

(** A statement leaves the tasks alone or changes the one with the key [i]. *)
Inductive evolves (i : Z) (d d' : DB) : Prop :=
  | ev_same : midjourneys d' = midjourneys d → evolves i d d'
  | ev_save m m' : m ∈ rows (midjourneys d) → mj_Id m = i → row_le m m' →
      midjourneys d' = save m' (midjourneys d) → evolves i d d'.

Record refunds_wf (d : DB) : Prop := {
  rw_tasks : table_wf (midjourneys d);
  rw_flags : Forall flags_ok (rows (midjourneys d));
}.

Lemma row_le_refl m : flags_ok m → row_le m m.
Proof. intros Hf. split; auto; done. Qed.

Lemma task_by_id t (m : Midjourney) : table_wf t → m ∈ rows t → by_id (mj_Id m) t = Some m.
Proof. exact (by_id_elem t m). Qed.

(** Each task is found again after a statement, changed as allowed. *)
Lemma evolves_row i d d' m :
  refunds_wf d → evolves i d d' → m ∈ rows (midjourneys d) → ∃ m', by_id (mj_Id m) (midjourneys d') = Some m' ∧ row_le m m'.
Proof.
  intros [Hwf Hfl] [Heq|x x' Hx _ Hle Heq] Hm; rewrite Heq.
  - exists m. split; [by apply task_by_id|]. rewrite Forall_forall in Hfl. by apply row_le_refl, Hfl.
  - destruct (decide (mj_Id x = mj_Id m)) as [Hid|Hne].
    + assert (x = m) as -> by (by apply (wf_row_eq (midjourneys d))). exists x'. split; [|done].
      rewrite <-(rl_id _ _ Hle). refine (by_id_save_eq x' m _ _). cbn. rewrite (rl_id _ _ Hle). by apply task_by_id.
    + exists m. split; [|rewrite Forall_forall in Hfl; by apply row_le_refl, Hfl].
      rewrite by_id_save_ne by (cbn; rewrite (rl_id _ _ Hle); done). by apply task_by_id.
Qed.

Lemma evolves_wf i d d' : refunds_wf d → evolves i d d' → refunds_wf d'.
Proof.
  intros [Hwf Hfl] [Heq|x x' Hx _ Hle Heq]; split; rewrite Heq; [done|done|by apply wf_save|].
  apply Forall_save; [done|]. rewrite Forall_forall in Hfl. by apply (rl_flags _ _ Hle), Hfl.
Qed.

(** ** The statements of a refund *)

Lemma update_one (c : MidjourneyBillingContext) s t :
  table_wf t → s ∈ rows t →
  update_where (λ m, mj_Id m = mj_Id s) (λ m, m <| mj_BillingContext := c |>) t = save (s <| mj_BillingContext := c |>) t.
Proof.
  intros Hwf Hs. apply update_where_pointwise. intros r Hr. cbn.
  case_decide as Hid; [|done]. by rewrite (wf_row_eq t r s Hwf Hr Hs Hid).
Qed.

Lemma conserved_save d d' m m' :
  table_wf (midjourneys d) → m ∈ rows (midjourneys d) → mj_Id m' = mj_Id m → midjourneys d' = save m' (midjourneys d) →
  (∀ u, user_quota d' u = user_quota d u + (wallet_claim u m - wallet_claim u m')) →
  (∀ t, token_quota d' t = ((token_quota d t).1 + (token_claim t m - token_claim t m'),
                            (token_quota d t).2 - (token_claim t m - token_claim t m'))) →
  conserved d d'.
Proof.
  intros Hwf Hm Hid Heq Hu Ht.
  assert (Hsum : ∀ f, sumZ f (rows (midjourneys d')) = sumZ f (rows (midjourneys d)) - f m + f m')
    by (intros f; rewrite Heq; by apply sumZ_save).
  split; intros i; unfold wallet_owed, token_owed; rewrite Hsum.
  - rewrite Hu. lia.
  - rewrite Ht. cbn. lia.
  - rewrite Ht. cbn. lia.
Qed.

Lemma conserved_same d d' :
  midjourneys d' = midjourneys d → users d' = users d → tokens d' = tokens d → conserved d d'.
Proof. intros Hm Hu Ht. by split; intros i; unfold user_quota, token_quota, wallet_owed, token_owed; rewrite ?Hm, ?Hu, ?Ht. Qed.

Lemma user_quota_increased d u q i :
  affected (λ x, u_Id x = u) (users d) ≠ 0 →
  from_option u_Quota 0 (by_id i (update_where (λ x, u_Id x = u) (λ x, x <| u_Quota ::= λ n, n + q |>) (users d))) =
  user_quota d i + if decide (i = u) then q else 0.
Proof.
  intros Ha. unfold user_quota. rewrite by_id_update_where by done.
  destruct (by_id i (users d)) as [x|] eqn:Hx; cbn.
  { apply by_id_Some in Hx as [_ Hx]. cbn in Hx. subst. case_decide; cbn; lia. }
  rewrite decide_False; [done|]. intros ->. apply Ha, affected_none. intros r Hr Hid. by apply (first_None _ _ r Hx Hr).
Qed.

Lemma token_quota_increased env d k q i :
  affected (λ x, t_Id x = k) (tokens d) ≠ 0 →
  from_option (λ t, (t_RemainQuota t, t_UsedQuota t)) (0, 0)
    (by_id i (update_where (λ x, t_Id x = k) (λ t, t <| t_RemainQuota ::= λ n, n + q |> <| t_UsedQuota ::= λ n, n - q |>
       <| t_AccessedTime := app_now env |>) (tokens d))) =
  let x := if decide (i = k) then q else 0 in ((token_quota d i).1 + x, (token_quota d i).2 - x).
Proof.
  intros Ha. unfold token_quota. rewrite by_id_update_where by done.
  destruct (by_id i (tokens d)) as [x|] eqn:Hx; cbn.
  { apply by_id_Some in Hx as [_ Hx]. cbn in Hx. subst. case_decide; cbn; f_equal; lia. }
  rewrite decide_False; [done|]. intros ->. apply Ha, affected_none. intros r Hr Hid. by apply (first_None _ _ r Hx Hr).
Qed.

Lemma missing {R} `{Row R} (t : table R) i : affected (λ r, row_id r = i) t = 0 → by_id i t = None.
Proof.
  intros Ha. destruct (by_id i t) as [r|] eqn:Hr; [|done]. unfold affected, where_, by_id, first in *.
  by destruct (filter _ (rows t)).
Qed.

Section Leg.
Context (d : DB) (s task : Midjourney).
Hypothesis Hwf : refunds_wf d.
Hypothesis Hs : s ∈ rows (midjourneys d).
Hypothesis Hid : mj_Id s = mj_Id task.
Hypothesis Hcharge : charge_of task = charge_of s.

Lemma leg_flags : flags_ok s.
Proof. pose proof (rw_flags _ Hwf) as Hf. rewrite Forall_forall in Hf. auto. Qed.

Lemma leg_by_id : by_id (mj_Id task) (midjourneys d) = Some s.
Proof. rewrite <-Hid. apply task_by_id; [apply Hwf|done]. Qed.

Lemma leg_pos : 0 < mj_Id task.
Proof. rewrite <-Hid. exact (proj1 (wf_elem _ s (rw_tasks _ Hwf) Hs)). Qed.

(** What a call for one part of the payment leaves: the part is marked, or there is the
    reason [why] for an error. *)
Definition leg_post (part : MidjourneyBillingContext → bool) (why : Prop) (r : result (bool * Midjourney)) (d' : DB) : Prop :=
  evolves (mj_Id task) d d' ∧ conserved d d' ∧
  match r with
  | Ok (_, task') => ∃ s', by_id (mj_Id task) (midjourneys d') = Some s' ∧
      task' = task <| mj_BillingContext := mj_BillingContext s' |> ∧ charge_of s' = charge_of s ∧ shown s' = shown s ∧
      part (mj_BillingContext s') = true
  | Err _ => d' = d ∧ why
  end.

Lemma leg_err part (why : Prop) e : why → leg_post part why (Err e) d.
Proof. intros Hwhy. split; [by apply ev_same|]. split; [reflexivity|done]. Qed.

(** The part was marked before. *)
Lemma leg_again part why b :
  part (mj_BillingContext s) = true → leg_post part why (Ok (b, task <| mj_BillingContext := mj_BillingContext s |>)) d.
Proof.
  intros Hp. split; [by apply ev_same|]. split; [reflexivity|]. exists s. split; [exact leg_by_id|done].
Qed.

(** The part is marked now, together with the change [d1] of the balances. *)
Lemma leg_marked part why b c d1 :
  midjourneys d1 = midjourneys d → row_le s (s <| mj_BillingContext := c |>) → part c = true →
  let s' := s <| mj_BillingContext := c |> in
  let d' := d1 <| midjourneys ::= update_where (λ m, mj_Id m = mj_Id s) (λ m, m <| mj_BillingContext := c |>) |> in
  (∀ u, user_quota d1 u = user_quota d u + (wallet_claim u s - wallet_claim u s')) →
  (∀ t, token_quota d1 t = ((token_quota d t).1 + (token_claim t s - token_claim t s'),
                            (token_quota d t).2 - (token_claim t s - token_claim t s'))) →
  leg_post part why (Ok (b, task <| mj_BillingContext := c |>)) d'.
Proof.
  intros Hd1 Hle Hp s' d' Hu Ht.
  assert (Heq : midjourneys d' = save s' (midjourneys d)) by (cbn; rewrite Hd1; apply update_one; [apply Hwf|done]).
  split_and!; [by apply (ev_save _ _ _ s s')|apply (conserved_save d d' s s'); [apply Hwf|done..]|].
  exists s'. split_and!; [|done|exact (rl_charge _ _ Hle)|done|done].
  rewrite Heq, <-Hid. change (mj_Id s) with (row_id s'). apply (by_id_save_eq s' s). exact (task_by_id _ s (rw_tasks _ Hwf) Hs).
Qed.

Abbreviation funded := (s <| mj_BillingContext :=
  completeMidjourneyFundingContext (mj_BillingContext s) (TokenRefundQuota s) |>).

Lemma funded_charge : charge_of funded = charge_of s.
Proof. unfold completeMidjourneyFundingContext. by case_decide. Qed.

Lemma funded_marks : mc_FundingRefunded (mj_BillingContext funded) = true.
Proof. cbn. unfold completeMidjourneyFundingContext. by case_decide. Qed.

Lemma funded_le : mc_FundingRefunded (mj_BillingContext s) = false → row_le s funded.
Proof.
  intros Hno. split; [done|apply funded_charge|intros; apply funded_marks| | |].
  - cbn. unfold completeMidjourneyFundingContext. by case_decide.
  - intros (Hb & Ht & Hq). assert (Htok : mc_TokenRefunded (mj_BillingContext s) = false).
    { destruct (mc_TokenRefunded (mj_BillingContext s)) eqn:E; [|done]. by rewrite (Ht eq_refl) in Hno. }
    pose proof (charge_same _ _ funded_charge) as (_ & Htq & _). unfold flags_ok. rewrite Htq. cbn.
    unfold completeMidjourneyFundingContext. case_decide; cbn; [done|]. rewrite Hb, Htok. split_and!; [done..|lia].
  - cbn. by intros ->.
Qed.

Lemma funded_wallet_claim u : wallet_claim u funded = 0.
Proof. unfold wallet_claim. rewrite funded_marks. rewrite decide_False; [done|]. by intros (_ & _ & ?). Qed.

Lemma token_refund_nonneg m : 0 ≤ TokenRefundQuota m.
Proof. unfold TokenRefundQuota. repeat case_decide; lia. Qed.

Lemma funded_token_claim t : token_claim t funded = token_claim t s.
Proof.
  unfold token_claim. pose proof (charge_same _ _ funded_charge) as (_ & -> & _ & _ & _ & -> & _).
  cbn. unfold completeMidjourneyFundingContext. destruct (decide (TokenRefundQuota s ≤ 0)) as [Hq|Hq]; [|done]. cbn.
  rewrite decide_False by (by intros [_ ?]). pose proof (token_refund_nonneg s). case_decide; lia.
Qed.

Lemma no_wallet_claim u m : ¬ pays_wallet m → wallet_claim u m = 0.
Proof. intros Hn. unfold wallet_claim. rewrite decide_False; [done|]. tauto. Qed.

(** The common end of the three ways to give back the funding. *)
Lemma leg_funded why d1 :
  mc_FundingRefunded (mj_BillingContext s) = false → midjourneys d1 = midjourneys d → tokens d1 = tokens d →
  (∀ u, user_quota d1 u = user_quota d u + wallet_claim u s) →
  wp (update_context task s (mj_BillingContext funded)) (λ r d', match r with Ok a => leg_post mc_FundingRefunded why (Ok a) d'
      | Err e => leg_post mc_FundingRefunded why (Err e) d end) d1.
Proof.
  intros Hno Hmj Htok Hu. unfold update_context. wp_steps. apply leg_marked; [done|by apply funded_le|apply funded_marks| |].
  - intros u. rewrite funded_wallet_claim, Hu. lia.
  - intros t. rewrite funded_token_claim. unfold token_quota. rewrite Htok, Z.sub_diag, Z.add_0_r, Z.sub_0_r.
    by destruct (from_option _ _ _).
Qed.

Lemma wp_wallet :
  pays_wallet s →
  wp (RefundMidjourneyWalletFundingOnce task) (leg_post mc_FundingRefunded (by_id (mj_UserId s) (users d) = None)) d.
Proof.
  intros Hpay. pose proof (charge_same _ _ Hcharge) as (Hf & _). pose proof leg_pos. destruct Hpay as (Hq & Hpay').
  unfold RefundMidjourneyWalletFundingOnce, loadMidjourneyRefundTask. wp_pass. wp_step. wp_step. wp_step. wp_step.
  rewrite leg_by_id. cbn [or_error]. wp_step.
  destruct (mc_FundingRefunded (mj_BillingContext s)) eqn:Hno; [wp_step; by apply leg_again|].
  cbv zeta. wp_pass. wp_step. wp_step. unfold increaseUserQuota. wp_step. wp_step.
  wp_step; apply wp_fail_if; intros Haff; [apply leg_err; exact (missing (users d) _ Haff)|]. apply leg_funded; [done..|]. intros u.
  etransitivity; [exact (user_quota_increased d _ _ u Haff)|]. f_equal. unfold wallet_claim, pays_wallet.
  destruct (decide (u = mj_UserId s)) as [->|Hne]; [by rewrite decide_True|]. rewrite decide_False; [done|]. intros [? _]. congruence.
Qed.

Lemma wp_subscription :
  by_subscription s → 0 < FundingRefundQuota s →
  wp (RefundMidjourneySubscriptionFundingOnce task)
    (leg_post mc_FundingRefunded (by_id (mc_SubscriptionId (mj_BillingContext s)) (user_subscriptions d) = None)) d.
Proof.
  intros Hsub Hq. pose proof (charge_same _ _ Hcharge) as (Hf & _ & _ & [_ Hst] & _). pose proof leg_pos.
  destruct (Hst Hsub) as [_ Hsubid]. unfold RefundMidjourneySubscriptionFundingOnce, loadMidjourneyRefundTask.
  wp_pass. wp_step. wp_step. wp_step. wp_step. rewrite leg_by_id. cbn [or_error]. wp_step.
  destruct (mc_FundingRefunded (mj_BillingContext s)) eqn:Hno; [wp_step; by apply leg_again|].
  cbv zeta. wp_pass. wp_step. wp_step. wp_step. wp_step. wp_step; apply wp_fail_if; intros Haff; [apply leg_err; exact (missing (user_subscriptions d) _ Haff)|].
  apply leg_funded; [done..|]. intros u. rewrite no_wallet_claim by (unfold pays_wallet; tauto). unfold user_quota. cbn. lia.
Qed.

Lemma wp_mark :
  ¬ pays_wallet s → wp (MarkMidjourneyFundingRefunded task) (leg_post mc_FundingRefunded False) d.
Proof.
  intros Hno. pose proof leg_pos. unfold MarkMidjourneyFundingRefunded, loadMidjourneyRefundTask.
  wp_pass. wp_step. wp_step. wp_step. wp_step. rewrite leg_by_id. cbn [or_error]. wp_step.
  destruct (mc_FundingRefunded (mj_BillingContext s)) eqn:Hf; [wp_step; by apply leg_again|].
  apply leg_funded; [done..|]. intros u. rewrite no_wallet_claim by done. lia.
Qed.

Lemma copy_charge (a b : Midjourney) :
  charge_of a = charge_of b → charge_of (a <| mj_BillingContext := mj_BillingContext b |>) = charge_of b.
Proof. unfold charge_of. intros [= Hu Hq _ _ _ _ _ _ _]. cbn. by rewrite Hu, Hq. Qed.

Abbreviation tokened := (s <| mj_BillingContext := (mj_BillingContext s) <| mc_TokenRefunded := true |>
  <| mc_BillingRefunded := mc_FundingRefunded (mj_BillingContext s) |> |>).

Lemma tokened_le : mc_FundingRefunded (mj_BillingContext s) = true → row_le s tokened.
Proof.
  intros Hf. split; [done|done|done|done| |by cbn; intros ->]. intros _. unfold flags_ok. cbn. by rewrite Hf.
Qed.

Definition no_token : Prop := from_option t_Key "" (by_id (mc_TokenId (mj_BillingContext s)) (tokens d)) = "".

(** What the last part leaves: both are marked. *)
Definition token_post (r : result (bool * Midjourney)) (d' : DB) : Prop :=
  evolves (mj_Id task) d d' ∧ conserved d d' ∧
  match r with
  | Ok (_, task') => mj_Id task' = mj_Id task ∧ charge_of task' = charge_of s ∧ ∃ s', by_id (mj_Id task) (midjourneys d') = Some s' ∧
      charge_of s' = charge_of s ∧ shown s' = shown s ∧ mc_FundingRefunded (mj_BillingContext s') = true ∧
      mc_TokenRefunded (mj_BillingContext s') = true
  | Err _ => d' = d ∧ 0 < TokenRefundQuota s ∧ no_token
  end.

Lemma token_post_leg r d' :
  mc_FundingRefunded (mj_BillingContext s) = true →
  leg_post mc_TokenRefunded (0 < TokenRefundQuota s ∧ no_token) r d' → token_post r d'.
Proof.
  intros Hf (Hev & Hcv & Hr). split; [done|]. split; [done|]. destruct r as [[b task']|e]; [|done].
  destruct Hr as (s' & Hs' & -> & Hc & Hsh & Ht). split; [done|].
  assert (charge_of task = charge_of s') as Hcs by congruence.
  split; [by rewrite (copy_charge task s' Hcs)|]. exists s'. split_and!; [done|done|done| |done].
  destruct (evolves_row _ d d' s Hwf Hev Hs) as (x & Hx & Hle). rewrite Hid, Hs' in Hx. injection Hx as <-.
  by apply (rl_funding _ _ Hle).
Qed.

Lemma wp_token env :
  mc_FundingRefunded (mj_BillingContext s) = true → wp (refundMidjourneyToken env task) token_post d.
Proof.
  intros Hf. pose proof (charge_same _ _ Hcharge) as (_ & Htq & _ & _ & _ & Htid & _). pose proof leg_pos.
  pose proof leg_flags as (_ & _ & Hfl). pose proof (token_refund_nonneg s). unfold refundMidjourneyToken.
  destruct (decide _) as [Hz|Hnz].
  { wp_step. split; [by apply ev_same|]. split; [reflexivity|]. split; [done|]. split; [done|]. exists s.
    split_and!; [exact leg_by_id|done|done|done|]. apply Hfl; [done|].
    destruct Hz as [Hz|Hz]; [|lia]. unfold TokenRefundQuota. rewrite Htid in Hz. by rewrite decide_True. }
  unfold resolveTokenKey. wp_step. wp_step. wp_step. wp_step. wp_step; apply wp_fail_if; intros Hkey.
  { split; [by apply ev_same|]. split; [reflexivity|]. unfold no_token. rewrite <-Htid. split_and!; [done|lia|done]. }
  apply (wp_mono _ (leg_post mc_TokenRefunded (0 < TokenRefundQuota s ∧ no_token))); [|intros r d'; by apply token_post_leg].
  unfold RefundMidjourneyTokenQuotaOnce, loadMidjourneyRefundTask. wp_pass. wp_step. wp_step. wp_step. wp_step.
  rewrite leg_by_id. cbn [or_error]. wp_step. cbv zeta.
  destruct (mc_TokenRefunded (mj_BillingContext s)) eqn:Ht; [wp_step; by apply leg_again|].
  wp_pass. wp_step. wp_step. unfold increaseTokenQuota. wp_step. wp_step. wp_step; apply wp_fail_if; intros Haff.
  { apply leg_err. split; [lia|]. unfold no_token.
    assert (by_id (mc_TokenId (mj_BillingContext s)) (tokens d) = None) as -> by exact (missing (tokens d) _ Haff). done. }
  unfold update_context. wp_steps. apply leg_marked; [done|by apply tokened_le|done| |].
  - intros u. assert (wallet_claim u tokened = wallet_claim u s) as -> by done. rewrite Z.sub_diag, Z.add_0_r. done.
  - intros k. etransitivity; [exact (token_quota_increased env d _ _ k Haff)|]. cbv zeta.
    assert (token_claim k tokened = 0) as -> by (unfold token_claim; cbn; by rewrite decide_False by (by intros [_ ?])).
    rewrite Z.sub_0_r. unfold token_claim. rewrite Ht.
    destruct (decide (k = mc_TokenId (mj_BillingContext s))) as [->|Hne]; [by rewrite decide_True|].
    rewrite decide_False; [done|]. intros [? _]. congruence.
Qed.
End Leg.

(** ** Workers *)

Definition stage_ok (st : Stage) (task s : Midjourney) : Prop :=
  match st with
  | AtUpdate _ fromProgress _ => fromProgress ≠ "REFUND_PENDING"
  | AtFunding => True
  | AtMark => by_request s
  | AtToken => mc_FundingRefunded (mj_BillingContext s) = true
  | AtComplete => settled s
  end.

(** A worker's copy of the task and the stored one. *)
Definition worker_ok (d : DB) (w : Worker) : Prop :=
  ∃ s, by_id (mj_Id (wk_task w)) (midjourneys d) = Some s ∧ charge_of (wk_task w) = charge_of s ∧
    (mc_BillingRefunded (mj_BillingContext (wk_task w)) = true → settled s) ∧ stage_ok (wk_stage w) (wk_task w) s.

Lemma row_settled m : flags_ok m → mc_BillingRefunded (mj_BillingContext m) = true → settled m.
Proof. intros (Hb & Ht & _) H. rewrite Hb in H. left. auto. Qed.

Lemma worker_stays i d d' w : refunds_wf d → evolves i d d' → worker_ok d w → worker_ok d' w.
Proof.
  intros Hwf Hev (s & Hs & Hc & Hb & Hst). apply by_id_Some in Hs as [Hs Hid]. cbn in Hid.
  destruct (evolves_row _ _ _ _ Hwf Hev Hs) as (s' & Hs' & Hle). exists s'.
  pose proof (rl_charge _ _ Hle) as Hch. split_and!; [congruence|congruence|intros; eapply settled_le; eauto|].
  destruct (wk_stage w); cbn in *; [done|done|by apply (charge_same _ _ Hch)|by apply (rl_funding _ _ Hle)|by eapply settled_le].
Qed.

Lemma start_refund_ok d task target s :
  by_id (mj_Id task) (midjourneys d) = Some s → charge_of task = charge_of s →
  (mc_BillingRefunded (mj_BillingContext task) = true → settled s) → worker_ok d (start_refund task target).
Proof.
  intros Hs Hc Hb. unfold start_refund. case_decide as Hd; exists s; cbn; (split_and!; [done|done|done|]); [|done].
  destruct Hd as [Hd|Hd]; [by apply Hb|]. right. by apply (charge_same _ _ Hc).
Qed.

Lemma begin_ok d task preStatus shouldRefund stored w :
  refunds_wf d → by_id (mj_Id task) (midjourneys d) = Some stored → charge_of task = charge_of stored →
  begin_commit task preStatus shouldRefund stored = Some w → worker_ok d w.
Proof.
  intros Hwf Hs Hc. pose proof (by_id_Some _ _ _ Hs) as [Hin Hid]. cbn in Hid.
  assert (Hfl : flags_ok stored) by (pose proof (rw_flags _ Hwf) as Hf; rewrite Forall_forall in Hf; auto).
  unfold begin_commit. case_decide as Hp; [|case_decide; [done|]]; intros [= <-].
  - apply (start_refund_ok d stored _ stored); [by rewrite Hid|done|by apply row_settled].
  - exists stored. pose proof (copy_charge task stored Hc) as Hcc. cbn. destruct shouldRefund; cbn.
    all: split_and!; [done|exact Hcc|by apply row_settled|done].
Qed.

Definition step_post (i : Z) (d : DB) (r : result (option Worker)) (d' : DB) : Prop :=
  evolves i d d' ∧ conserved d d' ∧ match r with Ok (Some w) => worker_ok d' w | _ => True end.

(** The end of a statement that gives back a part of the payment. *)
Lemma wp_move i d stage target (m : Tx (bool * Midjourney)) (Q : result (bool * Midjourney) → DB → Prop) :
  wp m Q d →
  (∀ r d', Q r d' → step_post i d (Ok (match r with Ok (_, task) => Some (mkWorker stage task target) | Err _ => None end)) d') →
  wp (r ← attempt m; mret (match r with Ok (_, task) => Some (mkWorker stage task target) | Err _ => None end))
    (step_post i d) d.
Proof. intros Hm HQ. wp_step. wp_step. eapply wp_mono; [exact Hm|]. intros r d' Hr. wp_step. by apply HQ. Qed.

Lemma move_funded d s task target why r d' :
  refunds_wf d → by_id (mj_Id task) (midjourneys d) = Some s → charge_of task = charge_of s →
  leg_post d s task mc_FundingRefunded why r d' →
  step_post (mj_Id task) d (Ok (match r with Ok (_, task) => Some (mkWorker AtToken task target) | Err _ => None end)) d'.
Proof.
  intros Hwf Hs Hc (Hev & Hcv & Hr). split; [done|]. split; [done|]. destruct r as [[b task']|e]; [|done].
  destruct Hr as (s' & Hs' & -> & Hcs & _ & Hf). exists s'. cbn.
  assert (Hfl : flags_ok s').
  { pose proof (rw_flags _ (evolves_wf _ _ _ Hwf Hev)) as Hfl. rewrite Forall_forall in Hfl.
    apply by_id_Some in Hs' as [Hin _]. auto. }
  split_and!; [done| |by apply row_settled|done]. refine (copy_charge task s' _). congruence.
Qed.

Lemma keeps_preconsume_refund env req :
  keeps (λ d, (midjourneys d, users d, tokens d)) (RefundSubscriptionPreConsume env req).
Proof.
  unfold RefundSubscriptionPreConsume, revokeValuePackageUsageReservationTx, save_pre_consume,
    postConsumeUserSubscriptionDeltaTx, save_subscription. keeps_solve.
Qed.

Lemma wp_preconsume d s task target env :
  by_id (mj_Id task) (midjourneys d) = Some s → charge_of task = charge_of s →
  (mc_BillingRefunded (mj_BillingContext task) = true → settled s) → by_request s →
  wp (_ ← RefundSubscriptionPreConsume env (TrimSpace (mc_RequestId (mj_BillingContext task))); mret (false, task))
    (λ r d', step_post (mj_Id task) d (Ok (match r with Ok (_, task) => Some (mkWorker AtMark task target) | Err _ => None end)) d') d.
Proof.
  intros Hs Hc Hb Hreq. apply wp_keeps with (π := λ d, (midjourneys d, users d, tokens d)).
  { apply keeps_bind; [apply keeps_preconsume_refund|keeps_solve]. }
  wp_step. apply (wp_mono _ (λ _ _, True)); [done|]. intros [[]|e] d' _; [wp_step|]; intros [= Hm Hu Ht].
  - split; [by apply ev_same|]. split; [by apply conserved_same|]. exists s. cbn. by rewrite Hm.
  - split; [by apply ev_same|]. split; [by apply conserved_same|done].
Qed.

Lemma set_tasks (f g : table Midjourney → table Midjourney) (d : DB) :
  f (midjourneys d) = g (midjourneys d) → d <| midjourneys ::= f |> = d <| midjourneys ::= g |>.
Proof. intros Heq. cbn. by rewrite Heq. Qed.

Lemma set_tasks_id (f : table Midjourney → table Midjourney) (d : DB) :
  f (midjourneys d) = midjourneys d → d <| midjourneys ::= f |> = d.
Proof. intros Heq. cbn. rewrite Heq. by destruct d. Qed.

(** A write that does not touch what is owed. *)
Lemma write_post i d s s' :
  refunds_wf d → s ∈ rows (midjourneys d) → mj_Id s = i → row_le s s' → mj_BillingContext s' = mj_BillingContext s →
  let d' := d <| midjourneys ::= save s' |> in evolves i d d' ∧ conserved d d'.
Proof.
  intros Hwf Hin Hid Hle Hctx d'. pose proof (rl_charge _ _ Hle) as Hc. split; [by apply (ev_save _ _ _ s s')|].
  apply (conserved_save d d' s s'); [apply Hwf|done|apply (rl_id _ _ Hle)|done|..].
  - intros u. change (user_quota d' u) with (user_quota d u). unfold wallet_claim. rewrite Hctx.
    pose proof (charge_wallet _ _ Hc) as Hpw. pose proof (charge_same _ _ Hc) as (-> & _ & _ & _ & -> & _).
    repeat case_decide; naive_solver lia.
  - intros t. change (token_quota d' t) with (token_quota d t). unfold token_claim. rewrite Hctx.
    pose proof (charge_same _ _ Hc) as (_ & -> & _). rewrite Z.sub_diag, Z.add_0_r, Z.sub_0_r. by destruct (token_quota d t).
Qed.

(** The other columns are written where the stored task is still as it was read. *)
Lemma update_effect d s task st pr :
  refunds_wf d → by_id (mj_Id task) (midjourneys d) = Some s → charge_of task = charge_of s → pr ≠ "REFUND_PENDING" →
  let s' := task <| mj_BillingContext := mj_BillingContext s |> in
  let hit := mj_Status s = st ∧ mj_Progress s = pr in
  let d' := if decide hit then d <| midjourneys ::= save s' |> else d in
  UpdateWithStatusAndProgress task st pr d = (Ok (bool_decide hit), d') ∧ evolves (mj_Id task) d d' ∧ conserved d d'.
Proof.
  intros Hwf Hs Hc Hp s' hit d'. pose proof (by_id_Some _ _ _ Hs) as [Hin Hid]. cbn in Hid.
  assert (Hcs : charge_of s' = charge_of s) by (exact (copy_charge task s Hc)).
  destruct (write_one (λ m, mj_Id m = mj_Id task ∧ mj_Status m = st ∧ mj_Progress m = pr)
    (λ m, task <| mj_BillingContext := mj_BillingContext m |>) s (midjourneys d)) as [Heq Haff];
    [apply Hwf|done|intros m _ [? _]; cbn; congruence|done|].
  assert (Hle : hit → row_le s s').
  { intros [_ Hpr]. split; [done|done|done|done| |congruence].
    unfold flags_ok. pose proof (charge_same _ _ Hcs) as (_ & -> & _). done. }
  split.
  - unfold UpdateWithStatusAndProgress, mbind, M_bind, m_bind, get, modify, mret, M_ret, m_ret. f_equal.
    + f_equal. rewrite Haff. apply bool_decide_ext. unfold hit. tauto.
    + unfold d'. destruct (decide hit) as [Hh|Hh].
      * rewrite decide_True in Heq by (unfold hit in Hh; tauto). by apply set_tasks.
      * rewrite decide_False in Heq by (unfold hit in Hh; tauto). by apply set_tasks_id.
  - unfold d'. destruct (decide hit) as [Hh|Hh]; [apply (write_post _ d s s'); auto|].
    split; [by apply ev_same|reflexivity].
Qed.

Lemma complete_effect d s id target :
  refunds_wf d → by_id id (midjourneys d) = Some s → settled s →
  let s' := s <| mj_Progress := target |> in
  let hit := mj_Progress s = "REFUND_PENDING" in
  let d' := if decide hit then d <| midjourneys ::= save s' |> else d in
  CompleteMidjourneyRefundProgress id target d = (Ok (bool_decide hit), d') ∧ evolves id d d' ∧ conserved d d'.
Proof.
  intros Hwf Hs Hset s' hit d'. pose proof (by_id_Some _ _ _ Hs) as [Hin Hid]. cbn in Hid.
  destruct (write_one (λ m, mj_Id m = id ∧ mj_Progress m = "REFUND_PENDING") (λ m, m <| mj_Progress := target |>)
    s (midjourneys d)) as [Heq Haff]; [apply Hwf|done|intros m _ [? _]; cbn; congruence|done|].
  assert (Hle : row_le s s') by (by split).
  split.
  - unfold CompleteMidjourneyRefundProgress, mbind, M_bind, m_bind, get, modify, mret, M_ret, m_ret. f_equal.
    + f_equal. rewrite Haff. apply bool_decide_ext. unfold hit. tauto.
    + unfold d'. destruct (decide hit) as [Hh|Hh].
      * rewrite decide_True in Heq by (unfold hit in Hh; tauto). by apply set_tasks.
      * rewrite decide_False in Heq by (unfold hit in Hh; tauto). by apply set_tasks_id.
  - unfold d'. destruct (decide hit) as [Hh|Hh]; [by apply (write_post _ d s s')|].
    split; [by apply ev_same|reflexivity].
Qed.

(** ** Interleavings *)

Lemma wp_funding_step env d w :
  refunds_wf d → worker_ok d w → wk_stage w = AtFunding → wp (worker_step env w) (step_post (mj_Id (wk_task w)) d) d.
Proof.
  intros Hwf (s & Hs & Hc & Hb & _) Hst. destruct w as [stage task target]. cbn in *. subst stage.
  pose proof (by_id_Some _ _ _ Hs) as [Hin Hid]. cbn in Hid.
  pose proof (charge_same _ _ Hc) as (Hf & _ & Hreq & Hsub & _).
  unfold worker_step. cbn [wk_stage wk_task wk_target].
  destruct (decide (FundingRefundQuota task ≤ 0)) as [Hz|Hnz].
  { eapply wp_move; [apply (wp_mark d s task); [done..|unfold pays_wallet; lia]|].
    intros r d'. by eapply move_funded. }
  destruct (decide (by_request task)) as [Hr|Hnr].
  { eapply wp_move; [apply (wp_preconsume d s task target); [done..|tauto]|done]. }
  destruct (decide (by_subscription task)) as [Hsb|Hnsb].
  - eapply wp_move; [apply (wp_subscription d s task); [done..|tauto|lia]|]. intros r d'. by eapply move_funded.
  - eapply wp_move; [apply (wp_wallet d s task); [done..|unfold pays_wallet; rewrite <-Hf, <-Hreq, <-Hsub; split_and!; [lia|done..]]|].
    intros r d'. by eapply move_funded.
Qed.

(** A statement of a worker keeps the invariant. *)
Lemma wp_worker_step env d w :
  refunds_wf d → worker_ok d w → wp (worker_step env w) (step_post (mj_Id (wk_task w)) d) d.
Proof.
  intros Hwf Hok. destruct (wk_stage w) eqn:Hst; try by apply wp_funding_step.
  all: destruct Hok as (s & Hs & Hc & Hb & Hstage); rewrite Hst in Hstage; destruct w as [stage task target];
    cbn in *; subst stage; pose proof (by_id_Some _ _ _ Hs) as [Hin Hid]; cbn in Hid;
    unfold worker_step; cbn [wk_stage wk_task wk_target].
  - destruct (update_effect d s task preStatus fromProgress Hwf Hs Hc Hstage) as (Hrun & Hev & Hcv).
    unfold wp. rewrite (bind_ok _ _ _ _ _ Hrun). set (d' := if decide _ then _ else _) in *. cbn.
    split; [done|]. split; [done|]. destruct (bool_decide _ && shouldRefund); [|done].
    destruct (evolves_row _ d d' s Hwf Hev Hin) as (s' & Hs' & Hle).
    apply (start_refund_ok d' task target s'); [congruence|by rewrite (rl_charge _ _ Hle)|].
    intros H. by eapply settled_le, Hb.
  - eapply wp_move; [apply (wp_mark d s task); [done..|unfold pays_wallet; tauto]|]. intros r d'. by eapply move_funded.
  - eapply wp_move; [by apply (wp_token d s task)|]. intros r d' (Hev & Hcv & Hr). split; [done|]. split; [done|].
    destruct r as [[b task']|e]; [|done]. destruct Hr as (Hid' & Hc' & s' & Hs' & Hcs & _ & Hf & Ht).
    exists s'. cbn. rewrite Hid'. split_and!; [done|congruence|by left|by left].
  - destruct (complete_effect d s (mj_Id task) target Hwf Hs Hstage) as (Hrun & Hev & Hcv).
    unfold wp. rewrite (bind_ok _ _ _ _ _ Hrun). by split.
Qed.

(** The calls in progress: one begins by reading its task, executes its next statement,
    or stops. *)
Inductive mj_step : DB * list Worker → DB * list Worker → Prop :=
  | ms_begin d ws task preStatus shouldRefund stored w :
      by_id (mj_Id task) (midjourneys d) = Some stored → charge_of task = charge_of stored →
      begin_commit task preStatus shouldRefund stored = Some w → mj_step (d, ws) (d, w :: ws)
  | ms_work env d d' ws ws' w r :
      worker_step env w d = (Ok r, d') → mj_step (d, ws ++ w :: ws') (d', ws ++ option_list r ++ ws')
  | ms_stop d ws ws' w : mj_step (d, ws ++ w :: ws') (d, ws ++ ws').

Definition mj_inv (st : DB * list Worker) : Prop := refunds_wf st.1 ∧ Forall (worker_ok st.1) st.2.

Lemma mj_step_inv st st' : mj_inv st → mj_step st st' → mj_inv st' ∧ (∃ i, evolves i st.1 st'.1) ∧ conserved st.1 st'.1.
Proof.
  intros [Hwf Hws] Hstep. destruct Hstep as [d ws task pre sr stored w Hs Hc Hb|env d d' ws ws' w r Hrun|d ws ws' w]; cbn in *.
  - split; [|split; [by exists 0; apply ev_same|reflexivity]]. split; [done|]. constructor; [by eapply begin_ok|done].
  - apply Forall_app in Hws as [Hws [Hw Hws']%Forall_cons].
    pose proof (wp_run _ _ _ _ _ (wp_worker_step env d w Hwf Hw) Hrun) as (Hev & Hcv & Hr).
    split; [|by eauto]. split; [by eapply evolves_wf|]. cbn.
    assert (Hstay : ∀ l, Forall (worker_ok d) l → Forall (worker_ok d') l)
      by (intros l Hl; eapply Forall_impl; [exact Hl|]; intros x; by eapply worker_stays).
    apply Forall_app. split; [by apply Hstay|]. apply Forall_app. split; [|by apply Hstay].
    destruct r as [w'|]; cbn; [by constructor|constructor].
  - apply Forall_app in Hws as [Hws [Hw Hws']%Forall_cons].
    split; [|split; [by exists 0; apply ev_same|reflexivity]]. split; [done|]. by apply Forall_app.
Qed.

Lemma mj_run_inv st st' : mj_inv st → rtc mj_step st st' → mj_inv st' ∧ conserved st.1 st'.1.
Proof.
  intros Hinv Hrun. revert Hinv. induction Hrun as [st|st1 st2 st3 Hstep _ IH]; intros Hinv; [by split|].
  destruct (mj_step_inv _ _ Hinv Hstep) as (Hinv2 & _ & Hcv). destruct (IH Hinv2) as [Hinv3 Hcv'].
  split; [done|]. by etransitivity.
Qed.

(** C13: however many workers handle the failed tasks, in whatever order their statements
    run and wherever they stop, nothing is given back twice and nothing is lost: what a
    wallet holds and what it is still owed for its tasks stay the same in sum, and so
    do the two counters of every token. *)
Theorem picture_refunds_conserved d d' ws :
  refunds_wf d → rtc mj_step (d, []) (d', ws) → conserved d d'.
Proof. intros Hwf Hrun. by apply (mj_run_inv (d, []) (d', ws)). Qed.

(** A task leaves [REFUND_PENDING] only when all that was paid for it is given back. *)
Theorem picture_pending_until_refunded d d1 ws1 d2 ws2 i m m' :
  refunds_wf d → rtc mj_step (d, []) (d1, ws1) → mj_step (d1, ws1) (d2, ws2) →
  by_id i (midjourneys d1) = Some m → by_id i (midjourneys d2) = Some m' →
  mj_Progress m = "REFUND_PENDING" → mj_Progress m' ≠ "REFUND_PENDING" → settled m'.
Proof.
  intros Hwf Hrun Hstep Hm Hm' Hp Hp'. destruct (mj_run_inv (d, []) (d1, ws1)) as [Hinv _]; [by split|done|].
  destruct (mj_step_inv _ _ Hinv Hstep) as (_ & [i' Hev] & _). apply by_id_Some in Hm as [Hm Hid].
  cbn in Hid. subst i. destruct (evolves_row _ _ _ m (proj1 Hinv) Hev Hm) as (x & Hx & Hle). cbn in Hx. rewrite Hm' in Hx. injection Hx as <-.
  by apply (rl_pending _ _ Hle).
Qed.

(** ** A call on its own *)

Lemma row_le_trans m1 m2 m3 : row_le m1 m2 → row_le m2 m3 → row_le m1 m3.
Proof.
  intros H12 H23. split.
  - by rewrite (rl_id _ _ H23), (rl_id _ _ H12).
  - by rewrite (rl_charge _ _ H23), (rl_charge _ _ H12).
  - intros H. by apply (rl_funding _ _ H23), (rl_funding _ _ H12).
  - intros H. by apply (rl_token _ _ H23), (rl_token _ _ H12).
  - intros H. by apply (rl_flags _ _ H23), (rl_flags _ _ H12).
  - intros Hp Hp'. destruct (decide (mj_Progress m2 = "REFUND_PENDING")) as [H2|H2]; [by apply (rl_pending _ _ H23)|].
    by apply (settled_le _ _ H23), (rl_pending _ _ H12).
Qed.

Lemma save_again (a b : Midjourney) t : mj_Id a = mj_Id b → save a (save b t) = save a t.
Proof.
  intros Hid. unfold save, update_where. cbn. f_equal. rewrite <-list_fmap_compose. apply list_fmap_ext.
  intros i r _. cbn. rewrite Hid. destruct (decide (mj_Id r = mj_Id b)); repeat case_decide; congruence.
Qed.

Lemma evolves_trans i d1 d2 d3 : refunds_wf d1 → evolves i d1 d2 → evolves i d2 d3 → evolves i d1 d3.
Proof.
  intros Hwf H12 H23. destruct H12 as [Heq|m m' Hm Hid Hle Heq]; destruct H23 as [Heq'|x x' Hx Hidx Hlex Heq'].
  - apply ev_same. congruence.
  - rewrite Heq in *. by apply (ev_save _ _ _ x x').
  - rewrite <-Heq' in Heq. by apply (ev_save _ _ _ m m').
  - rewrite Heq in Hx, Heq'. assert (x = m') as ->.
    { apply (wf_row_eq (save m' (midjourneys d1))); [apply wf_save, Hwf|done| |].
      - apply (elem_of_save_new _ m); [done|]. symmetry. exact (rl_id _ _ Hle).
      - cbn. rewrite Hidx, (rl_id _ _ Hle). done. }
    apply (ev_save _ _ _ m x'); [done|done|by eapply row_le_trans|].
    rewrite Heq'. apply save_again. by rewrite (rl_id _ _ Hlex).
Qed.

Lemma evolves_sum i d d' s s' f :
  refunds_wf d → evolves i d d' → by_id i (midjourneys d) = Some s → by_id i (midjourneys d') = Some s' →
  sumZ f (rows (midjourneys d')) = sumZ f (rows (midjourneys d)) - f s + f s'.
Proof.
  intros Hwf Hev Hs Hs'. destruct Hev as [Heq|m m' Hm Hid Hle Heq].
  - rewrite Heq in *. assert (s' = s) as -> by congruence. lia.
  - rewrite <-Hid in Hs. rewrite (task_by_id _ m (rw_tasks _ Hwf) Hm) in Hs. injection Hs as ->.
    assert (s' = m') as ->.
    { rewrite Heq, <-Hid, <-(rl_id _ _ Hle) in Hs'. pose proof (rl_id _ _ Hle) as Hid'.
      assert (H0 : by_id (row_id m') (midjourneys d) = Some s)
        by (cbn; rewrite Hid'; exact (task_by_id _ s (rw_tasks _ Hwf) Hm)).
      pose proof (by_id_save_eq m' s (midjourneys d) H0) as H1. cbn in H1, Hs'. congruence. }
    rewrite Heq. apply sumZ_save; [apply Hwf|done|]. symmetry. exact (rl_id _ _ Hle).
Qed.

Lemma settled_claims m : settled m → (∀ u, wallet_claim u m = 0) ∧ ∀ t, token_claim t m = 0.
Proof.
  intros [[Hf Ht]|[Hv Hq]].
  - split; intros i; [unfold wallet_claim|unfold token_claim]; rewrite decide_False; [done| |done|]; rewrite ?Hf, ?Ht; naive_solver.
  - assert (Hfq : FundingRefundQuota m = 0) by (unfold FundingRefundQuota; rewrite decide_False by lia; lia).
    assert (Htq : TokenRefundQuota m = 0) by (unfold TokenRefundQuota; case_decide; [done|]; rewrite decide_False by lia; lia).
    unfold wallet_claim, token_claim. rewrite Hfq, Htq. split; intros i; by case_decide.
Qed.

(** The refund of the pre-consumption that paid for a task. *)
Definition refund_request (env : Env) (d : DB) (s : Midjourney) : result () * DB :=
  RefundSubscriptionPreConsume env (TrimSpace (mc_RequestId (mj_BillingContext s))) d.

(** Whatever paid for a task is still there to be paid back: the subscription accepts the
    refund of its pre-consumption, or the subscription or the user still exists; and so
    does the token. *)
Definition refundable (env : Env) (d : DB) (s : Midjourney) : Prop :=
  (0 < FundingRefundQuota s →
     if decide (by_request s) then (refund_request env d s).1 = Ok tt
     else if decide (by_subscription s) then is_Some (by_id (mc_SubscriptionId (mj_BillingContext s)) (user_subscriptions d))
     else is_Some (by_id (mj_UserId s) (users d))) ∧
  (0 < TokenRefundQuota s → ¬ no_token d s).

Lemma keeps_funding_tokens env task : keeps tokens (refundMidjourneyFunding env task).
Proof.
  assert (Hreq : ∀ req, keeps tokens (RefundSubscriptionPreConsume env req))
    by (intros req; exact (keeps_part snd _ _ (keeps_preconsume_refund env req))).
  unfold refundMidjourneyFunding, MarkMidjourneyFundingRefunded, RefundMidjourneySubscriptionFundingOnce,
    RefundMidjourneyWalletFundingOnce, loadMidjourneyRefundTask, increaseUserQuota, update_context. keeps_solve; apply Hreq.
Qed.

Lemma wp_funding env d s task :
  refunds_wf d → by_id (mj_Id task) (midjourneys d) = Some s → charge_of task = charge_of s → refundable env d s →
  wp (refundMidjourneyFunding env task) (leg_post d s task mc_FundingRefunded False) d.
Proof.
  intros Hwf Hs Hc [Hfund _]. pose proof (by_id_Some _ _ _ Hs) as [Hin Hid]. cbn in Hid.
  pose proof (charge_same _ _ Hc) as (Hf & _ & Hreq & Hsub & _). unfold refundMidjourneyFunding.
  assert (Hwhy : ∀ (why : Prop) r d', (why → False) → leg_post d s task mc_FundingRefunded why r d' →
    leg_post d s task mc_FundingRefunded False r d').
  { intros why r d' Hno (Hev & Hcv & Hr). split; [done|]. split; [done|]. destruct r; naive_solver. }
  destruct (decide (FundingRefundQuota task ≤ 0)) as [Hz|Hz]; [apply (wp_mark d s task); [done..|unfold pays_wallet; lia]|].
  specialize (Hfund ltac:(lia)). rewrite (decide_ext _ _ _ _ Hreq), (decide_ext _ _ _ _ Hsub).
  destruct (decide (by_request s)) as [Hr|Hr]; [|destruct (decide (by_subscription s)) as [Hb|Hb]].
  - wp_step. injection Hc as _ _ _ _ _ Hrid _ _ _. rewrite Hrid.
    apply wp_keeps with (π := λ d, (midjourneys d, users d, tokens d)); [apply keeps_preconsume_refund|].
    unfold refund_request in Hfund. unfold wp. destruct (RefundSubscriptionPreConsume _ _ d) as [r d1]. cbn in Hfund. subst r.
    intros [= Hm Hu Ht]. assert (Hev : evolves (mj_Id task) d d1) by by apply ev_same.
    change (wp (MarkMidjourneyFundingRefunded task) (leg_post d s task mc_FundingRefunded False) d1).
    eapply wp_mono; [apply (wp_mark d1 s task); [by eapply evolves_wf|by rewrite Hm|done|by intros (_ & ? & _)]|].
    intros r d2 (Hev2 & Hcv2 & Hr2). split; [by eapply evolves_trans|]. split; [|by destruct r as [[]|]; [|by destruct Hr2]].
    etransitivity; [by apply conserved_same|done].
  - eapply wp_mono; [apply (wp_subscription d s task); [done..|tauto|lia]|]. intros r d'. apply Hwhy.
    intros Hnone. destruct Hfund as [? Hx]. congruence.
  - eapply wp_mono; [apply (wp_wallet d s task); [done..|unfold pays_wallet; split_and!; [lia|done|tauto]]|].
    intros r d'. apply Hwhy. intros Hnone. destruct Hfund as [? Hx]. congruence.
Qed.

(** What the refund of the funding does to the subscriptions. *)
Definition sub_tables (d : DB) := (user_subscriptions d, usage_records d, pre_consume_records d).
Definition subs_refunded (env : Env) (d : DB) (s : Midjourney) :=
  if decide (FundingRefundQuota s ≤ 0) then sub_tables d
  else if decide (by_request s) then sub_tables (refund_request env d s).2
  else if decide (by_subscription s) then
    if mc_FundingRefunded (mj_BillingContext s) then sub_tables d
    else sub_tables (d <| user_subscriptions ::= update_where (λ x, us_Id x = mc_SubscriptionId (mj_BillingContext s))
                            (λ x, x <| us_AmountUsed ::= λ used, used - FundingRefundQuota s |>) |>)
  else sub_tables d.

Lemma keeps_mark_subs task : keeps sub_tables (MarkMidjourneyFundingRefunded task).
Proof. unfold MarkMidjourneyFundingRefunded, loadMidjourneyRefundTask, update_context. keeps_solve. Qed.
Lemma keeps_token_subs env task : keeps sub_tables (refundMidjourneyToken env task).
Proof.
  unfold refundMidjourneyToken, RefundMidjourneyTokenQuotaOnce, resolveTokenKey, loadMidjourneyRefundTask, increaseTokenQuota,
    update_context. keeps_solve.
Qed.

Lemma wp_funding_subs env d s task :
  by_id (mj_Id task) (midjourneys d) = Some s → charge_of task = charge_of s →
  wp (refundMidjourneyFunding env task)
    (λ r d', match r with Ok _ => sub_tables d' = subs_refunded env d s | Err _ => True end) d.
Proof.
  intros Hs Hc. pose proof (charge_same _ _ Hc) as (Hf & _ & Hreq & Hsub & _). unfold refundMidjourneyFunding, subs_refunded.
  assert (Hkeep : ∀ (m : Tx (bool * Midjourney)) d0, keeps sub_tables m →
    wp m (λ r d', match r with Ok _ => sub_tables d' = sub_tables d0 | Err _ => True end) d0).
  { intros m d0 Hk. unfold wp. specialize (Hk d0). by destruct (m d0) as [[] d1]. }
  rewrite (decide_ext _ _ _ _ Hreq), (decide_ext _ _ _ _ Hsub), Hf.
  case_decide; [apply Hkeep, keeps_mark_subs|]. case_decide; [|case_decide].
  - wp_step. unfold refund_request. injection Hc as _ _ _ _ _ Hrid _ _ _. rewrite Hrid. unfold wp at 1.
    destruct (RefundSubscriptionPreConsume _ _ d) as [[[]|e] d1]; [|done]. apply Hkeep, keeps_mark_subs.
  - unfold RefundMidjourneySubscriptionFundingOnce, loadMidjourneyRefundTask. wp_step. wp_step; [done|]. wp_step. wp_step.
    wp_step. wp_step. rewrite Hs. cbn [or_error]. wp_step.
    destruct (mc_FundingRefunded (mj_BillingContext s)); [by wp_step|]. wp_guard as _; [done|]. wp_step. wp_step. wp_step. wp_step.
    wp_guard as _; [done|]. unfold update_context. wp_step. wp_step. by wp_step.
  - apply Hkeep. unfold RefundMidjourneyWalletFundingOnce, loadMidjourneyRefundTask, increaseUserQuota, update_context. keeps_solve.
Qed.

(** What a refund without an obstacle leaves. *)
Definition refunded_post (env : Env) (d : DB) (s task : Midjourney) (r : result RefundOutcome) (d' : DB) : Prop :=
  ∃ out s', r = Ok out ∧ ro_err out = None ∧ mj_Id (ro_task out) = mj_Id task ∧ evolves (mj_Id task) d d' ∧ conserved d d' ∧
    by_id (mj_Id task) (midjourneys d') = Some s' ∧ settled s' ∧ shown s' = shown s ∧
    (mc_BillingRefunded (mj_BillingContext task) = false → 0 < FundingRefundQuota s → sub_tables d' = subs_refunded env d s).

Lemma wp_refund_quota env d s task :
  refunds_wf d → by_id (mj_Id task) (midjourneys d) = Some s → charge_of task = charge_of s →
  (mc_BillingRefunded (mj_BillingContext task) = true → settled s) → refundable env d s →
  wp (RefundMidjourneyQuota env task) (refunded_post env d s task) d.
Proof.
  intros Hwf Hs Hc Hb Hre. pose proof (by_id_Some _ _ _ Hs) as [Hin Hid]. cbn in Hid.
  pose proof (charge_same _ _ Hc) as (Hf & _ & Hreq & _ & _ & _ & Hnone). unfold RefundMidjourneyQuota.
  assert (Hdone : settled s → (mc_BillingRefunded (mj_BillingContext task) = false → ¬ 0 < FundingRefundQuota s) →
    refunded_post env d s task (Ok (mkRefund task None None)) d).
  { intros Hset Hno. exists (mkRefund task None None), s. split_and!; [done..|by apply ev_same|reflexivity|done|done|done|].
    intros Hb0 Hq. by destruct (Hno Hb0). }
  destruct (mc_BillingRefunded (mj_BillingContext task)) eqn:Hflag; [wp_step; apply Hdone; [by apply Hb|done]|].
  destruct (decide (mc_Version (mj_BillingContext task) < MidjourneyBillingContextVersion ∧ mj_Quota task ≤ 0)) as [Hz|Hz].
  { wp_step. apply Hdone; [right; tauto|]. intros _. unfold FundingRefundQuota in *. rewrite decide_False by (apply Hnone in Hz; lia).
    apply Hnone in Hz. lia. }
  wp_step. wp_step. apply wp_keeps with (π := tokens); [apply keeps_funding_tokens|].
  eapply wp_mono; [apply wp_and; [by apply (wp_funding env d s task)|by apply (wp_funding_subs env d s task)]|].
  intros r d1 [(Hev & Hcv & Hr) Hsubs] Htok.
  destruct r as [[b task1]|e]; [|by destruct Hr]. destruct Hr as (s1 & Hs1 & -> & Hcs & Hsh & Hfl).
  set (task1 := task <| mj_BillingContext := mj_BillingContext s1 |>).
  assert (Hc1 : charge_of task1 = charge_of s1) by (apply copy_charge; congruence).
  pose proof (evolves_wf _ _ _ Hwf Hev) as Hwf1. pose proof (by_id_Some _ _ _ Hs1) as [Hin1 Hid1]. cbn in Hid1.
  wp_step. wp_step. apply wp_keeps with (π := sub_tables); [apply keeps_token_subs|].
  eapply wp_mono; [apply (wp_token d1 s1 task1); [done..|exact Hfl]|]. intros r d2 (Hev2 & Hcv2 & Hr) Hsubs2.
  destruct r as [[b2 task2]|e].
  - destruct Hr as (Hid2 & _ & s2 & Hs2 & _ & Hsh2 & Hf2 & Ht2). wp_step. eexists _, s2.
    split_and!; [done|done|exact Hid2|by eapply evolves_trans|by etransitivity|done|by left|congruence|].
    intros _ _. by rewrite Hsubs2.
  - exfalso. destruct Hr as (_ & Hq & Hno). pose proof (charge_same _ _ Hcs) as (Hfs & Htq & Hrs & _ & _ & Htid & _).
    destruct Hre as [Hre1 Hre2]. apply Hre2; [lia|].
    unfold no_token in *. rewrite Htid in Hno. rewrite Htok in Hno. done.
Qed.

(** From the change of what is owed to the change of the balances. *)
Lemma conserved_quotas d d' i s s' :
  refunds_wf d → evolves i d d' → conserved d d' → by_id i (midjourneys d) = Some s →
  by_id i (midjourneys d') = Some s' → settled s' →
  (∀ u, user_quota d' u = user_quota d u + wallet_claim u s) ∧
  (∀ t, token_quota d' t = ((token_quota d t).1 + token_claim t s, (token_quota d t).2 - token_claim t s)).
Proof.
  intros Hwf Hev [Hw Hr Hu] Hs Hs' Hset. destruct (settled_claims _ Hset) as [Hw0 Ht0].
  split.
  - intros u. specialize (Hw u). unfold wallet_owed in Hw. rewrite (evolves_sum i d d' s s'), Hw0 in Hw by done. lia.
  - intros t. specialize (Hr t). specialize (Hu t). unfold token_owed in *.
    rewrite (evolves_sum i d d' s s'), Ht0 in Hr, Hu by done. destruct (token_quota d' t). cbn in *. f_equal; lia.
Qed.

(** The end of a successful call: the task shows its final progress, all is given back. *)
Definition call_done (d : DB) (i : Z) (s : Midjourney) (status progress : string) (d' : DB) : Prop :=
  ∃ s', by_id i (midjourneys d') = Some s' ∧ mj_Status s' = status ∧ mj_Progress s' = progress ∧ settled s' ∧
    (∀ u, user_quota d' u = user_quota d u + wallet_claim u s) ∧
    (∀ t, token_quota d' t = ((token_quota d t).1 + token_claim t s, (token_quota d t).2 - token_claim t s)).

Lemma complete_done d d1 i s s1 target :
  refunds_wf d → evolves i d d1 → conserved d d1 → by_id i (midjourneys d) = Some s → by_id i (midjourneys d1) = Some s1 →
  settled s1 → mj_Progress s1 = "REFUND_PENDING" →
  ∃ d2, CompleteMidjourneyRefundProgress i target d1 = (Ok true, d2) ∧ call_done d i s (mj_Status s1) target d2.
Proof.
  intros Hwf Hev Hcv Hs Hs1 Hset Hp. pose proof (evolves_wf _ _ _ Hwf Hev) as Hwf1.
  destruct (complete_effect d1 s1 i target Hwf1 Hs1 Hset) as (Hrun & Hev2 & Hcv2).
  rewrite decide_True in * by done. rewrite bool_decide_true in Hrun by done. eexists. split; [exact Hrun|].
  set (s2 := s1 <| mj_Progress := target |>). set (d2 := d1 <| midjourneys ::= save s2 |>) in *.
  apply by_id_Some in Hs1 as [Hin1 Hid1]. cbn in Hid1. subst i.
  assert (Hs2 : by_id (mj_Id s1) (midjourneys d2) = Some s2).
  { change (mj_Id s1) with (row_id s2). apply (by_id_save_eq s2 s1). exact (task_by_id _ s1 (rw_tasks _ Hwf1) Hin1). }
  exists s2. split; [done|]. split; [done|]. split; [done|]. split; [exact Hset|]. apply (conserved_quotas d d2 (mj_Id s1) s s2); [done| |by etransitivity|done..].
  by eapply evolves_trans.
Qed.

Lemma refundable_charge env d d1 s s1 :
  charge_of s1 = charge_of s → users d1 = users d → tokens d1 = tokens d → user_subscriptions d1 = user_subscriptions d →
  ¬ by_request s → refundable env d s → refundable env d1 s1.
Proof.
  intros Hc Hu Ht Hsu Hnr [H1 H2]. pose proof (charge_same _ _ Hc) as (Hf & Htq & Hr & Hsb & Hui & Htid & _).
  assert (mc_SubscriptionId (mj_BillingContext s1) = mc_SubscriptionId (mj_BillingContext s)) as Hsid
    by (unfold charge_of in Hc; congruence).
  unfold refundable, no_token in *. rewrite Hf, Htq, (decide_ext _ _ _ _ Hr), (decide_ext _ _ _ _ Hsb), Hui, Htid, Hsid, Hu, Ht, Hsu.
  by rewrite (decide_False (P := by_request s)) in *.
Qed.

(** A failed task that no pre-consumption paid for is refunded in one call: its new status
    and progress are stored, the wallet and the token get back what they paid, and nothing
    else changes hands. *)
Theorem picture_refunded env d s task preStatus :
  refunds_wf d → by_id (mj_Id task) (midjourneys d) = Some s → charge_of task = charge_of s →
  mj_Status s = preStatus → mj_Progress s ≠ "REFUND_PENDING" → mj_Progress s ≠ "100%" → ¬ by_request s → refundable env d s →
  ∃ out d', CommitMidjourneyTaskUpdate env task preStatus true d = (Ok out, d') ∧ co_won out = true ∧ co_err out = None ∧
    call_done d (mj_Id task) s (mj_Status task) (mj_Progress task) d'.
Proof.
  intros Hwf Hs Hc Hst Hp1 Hp2 Hnr Hre. pose proof (by_id_Some _ _ _ Hs) as [Hin Hid]. cbn in Hid.
  assert (Hpos : 0 < mj_Id task) by (rewrite <-Hid; exact (proj1 (wf_elem _ s (rw_tasks _ Hwf) Hin))).
  set (copy := task <| mj_BillingContext := mj_BillingContext s |> <| mj_Progress := "REFUND_PENDING" |>).
  assert (Hcc : charge_of copy = charge_of s) by exact (copy_charge task s Hc).
  destruct (update_effect d s copy preStatus (mj_Progress s) Hwf Hs Hcc Hp1) as (Hrun & Hev & Hcv).
  rewrite decide_True in * by done. rewrite bool_decide_true in Hrun by done. cbv zeta in *.
  set (s1 := copy <| mj_BillingContext := mj_BillingContext s |>) in *. set (d1 := d <| midjourneys ::= save s1 |>) in *.
  pose proof (evolves_wf _ _ _ Hwf Hev) as Hwf1.
  assert (Hs1 : by_id (mj_Id copy) (midjourneys d1) = Some s1).
  { change (mj_Id copy) with (row_id s1). apply (by_id_save_eq s1 s). exact Hs. }
  assert (Hset : mc_BillingRefunded (mj_BillingContext copy) = true → settled s1).
  { apply (row_settled s1). pose proof (rw_flags _ Hwf1) as Hfl. rewrite Forall_forall in Hfl.
    apply by_id_Some in Hs1 as [Hin1 _]. auto. }
  destruct (wp_result _ _ _ (wp_refund_quota env d1 s1 copy Hwf1 Hs1 eq_refl Hset
    (refundable_charge env d d1 s s1 Hcc eq_refl eq_refl eq_refl Hnr Hre)))
    as (r & d2 & Hrun2 & out & s2 & -> & Herr & Hido & Hev2 & Hcv2 & Hs2 & Hset2 & Hsh & _).
  injection Hsh as Hsh1 Hsh2 Hsh3.
  destruct (complete_done d d2 (mj_Id task) s s2 (mj_Progress task)) as (d3 & Hrun3 & Hdone);
    [done|by eapply evolves_trans|by etransitivity|done..|]. rewrite Hsh1 in Hdone.
  eexists _, d3. split; [|split; [|split; [|exact Hdone]]].
  - unfold CommitMidjourneyTaskUpdate. rewrite decide_False by lia.
    erewrite bind_ok; [|unfold attempt, GetMidjourneyById, mbind, M_bind, m_bind, get; rewrite Hs; reflexivity].
    cbn beta iota. rewrite decide_False, decide_False, decide_False by (done || tauto). cbv zeta.
    rewrite (bind_ok _ _ _ _ _ Hrun). cbn beta iota. cbn [negb orb]. rewrite (bind_ok _ _ _ _ _ Hrun2). rewrite Herr.
    rewrite (bind_ok _ _ _ _ _ Hrun3). reflexivity.
  - done.
  - done.
Qed.

(** C33: a task that a worker left half refunded is finished by the next call, whatever its
    caller wanted to store, provided that whatever paid for the task can still be paid
    back ([refundable]: the user, or the subscription, or a pre-consumption that the
    subscription lets be refunded; and the token).  The task then shows its status and
    100%, the wallet and the token have got back exactly what they were still owed, and
    the subscription has been refunded once: by the refund of the pre-consumption, or by
    the quota of the task if it was not refunded before. *)
Theorem picture_refund_resumed env d s task preStatus shouldRefund :
  refunds_wf d → by_id (mj_Id task) (midjourneys d) = Some s → mj_Progress s = "REFUND_PENDING" → refundable env d s →
  ∃ out d', CommitMidjourneyTaskUpdate env task preStatus shouldRefund d = (Ok out, d') ∧
    co_won out = true ∧ co_err out = None ∧ call_done d (mj_Id task) s (mj_Status s) "100%" d' ∧
    (mc_BillingRefunded (mj_BillingContext s) = false → 0 < FundingRefundQuota s → sub_tables d' = subs_refunded env d s).
Proof.
  intros Hwf Hs Hp Hre. pose proof (by_id_Some _ _ _ Hs) as [Hin Hid]. cbn in Hid.
  assert (Hpos : 0 < mj_Id task) by (rewrite <-Hid; exact (proj1 (wf_elem _ s (rw_tasks _ Hwf) Hin))).
  assert (Hs0 : by_id (mj_Id s) (midjourneys d) = Some s) by (by rewrite Hid).
  assert (Hset : mc_BillingRefunded (mj_BillingContext s) = true → settled s).
  { apply row_settled. pose proof (rw_flags _ Hwf) as Hfl. rewrite Forall_forall in Hfl. auto. }
  destruct (wp_result _ _ _ (wp_refund_quota env d s s Hwf Hs0 eq_refl Hset Hre))
    as (r & d1 & Hrun & out & s1 & -> & Herr & Hido & Hev & Hcv & Hs1 & Hset1 & Hsh & Hsubs).
  injection Hsh as Hsh1 Hsh2 Hsh3.
  destruct (complete_done d d1 (mj_Id s) s s1 "100%") as (d2 & Hrun2 & Hdone); [done..|congruence|].
  rewrite Hsh1 in Hdone. pose proof Hdone as (s2 & Hs2 & _).
  eexists _, d2. split; [|split; [|split; [|split; [rewrite <-Hid; exact Hdone|]]]].
  - unfold CommitMidjourneyTaskUpdate. rewrite decide_False by lia.
    erewrite bind_ok; [|unfold attempt, GetMidjourneyById, mbind, M_bind, m_bind, get; rewrite Hs; reflexivity].
    cbn beta iota. rewrite decide_True by done. rewrite (bind_ok _ _ _ _ _ Hrun). rewrite Herr.
    rewrite (bind_ok _ _ _ _ _ Hrun2). cbn beta.
    erewrite bind_ok; [|unfold attempt, GetMidjourneyById, mbind, M_bind, m_bind, get; rewrite Hs2; reflexivity].
    reflexivity.
  - done.
  - done.
  - injection Hrun2 as _ <-. exact Hsubs.
Qed.

(** ** A call as a worker *)

(** The parts of a refund return the task they were given. *)
Definition same_task (task : Midjourney) (m : Tx (bool * Midjourney)) : Prop :=
  ∀ d, match (m d).1 with Ok (_, t) => mj_Id t = mj_Id task | Err _ => True end.

Lemma same_task_bind {A} task (m : Tx A) k : (∀ a, same_task task (k a)) → same_task task (m ≫= k).
Proof. intros Hk d. unfold mbind, M_bind, m_bind. destruct (m d) as [[a|e] d']; [apply Hk|done]. Qed.
Lemma same_task_transaction task m : same_task task m → same_task task (transaction m).
Proof. intros Hm d. specialize (Hm d). unfold transaction. by destruct (m d) as [[] ?]. Qed.
Lemma same_task_ret task b t : mj_Id t = mj_Id task → same_task task (mret (b, t)).
Proof. by intros Hid d. Qed.

Ltac same_task_solve :=
  repeat match goal with
  | |- same_task _ (_ ≫= _) => apply same_task_bind; intros ?
  | |- same_task _ (transaction _) => apply same_task_transaction
  | |- same_task _ (mret _) => by apply same_task_ret
  | |- same_task _ (let _ := _ in _) => cbv zeta
  | |- same_task _ (if ?b then _ else _) => destruct b
  | |- same_task _ (update_context _ _ _) => unfold update_context
  end.

Lemma same_task_wallet task : same_task task (RefundMidjourneyWalletFundingOnce task).
Proof. unfold RefundMidjourneyWalletFundingOnce. same_task_solve. Qed.
Lemma same_task_subscription task : same_task task (RefundMidjourneySubscriptionFundingOnce task).
Proof. unfold RefundMidjourneySubscriptionFundingOnce. same_task_solve. Qed.
Lemma same_task_mark task : same_task task (MarkMidjourneyFundingRefunded task).
Proof. unfold MarkMidjourneyFundingRefunded. same_task_solve. Qed.
Lemma same_task_token env task : same_task task (refundMidjourneyToken env task).
Proof. unfold refundMidjourneyToken, RefundMidjourneyTokenQuotaOnce. same_task_solve. Qed.

Lemma work_alone env w d r d' : worker_step env w d = (Ok r, d') → mj_step (d, [w]) (d', option_list r).
Proof. intros Hrun. pose proof (ms_work env d d' [] [] w r Hrun) as H. by rewrite app_nil_r in H. Qed.

(** The run of a call from a stage of its worker to another, or to its end after an error. *)
Definition runs_to (w : Worker) (stage : Stage) (r : result (bool * Midjourney)) (d d' : DB) : Prop :=
  match r with
  | Ok (_, t) => mj_Id t = mj_Id (wk_task w) ∧ rtc mj_step (d, [w]) (d', [mkWorker stage t (wk_target w)])
  | Err _ => rtc mj_step (d, [w]) (d', [])
  end.

Lemma moves_to env w stage m d r d' :
  worker_step env w = (r ← attempt m; mret (match r with Ok (_, t) => Some (mkWorker stage t (wk_target w)) | Err _ => None end)) →
  same_task (wk_task w) m → m d = (r, d') → runs_to w stage r d d'.
Proof.
  intros Hw Hid Hm. pose proof (Hid d) as Ht. rewrite Hm in Ht. cbn in Ht.
  assert (Hrun : worker_step env w d =
    (Ok (match r with Ok (_, t) => Some (mkWorker stage t (wk_target w)) | Err _ => None end), d')).
  { rewrite Hw. unfold mbind, M_bind, m_bind, attempt. by rewrite Hm. }
  apply work_alone in Hrun. unfold runs_to. destruct r as [[b t]|e]; [split; [done|]|]; by apply rtc_once.
Qed.

Lemma funding_runs env task target d r d' :
  refundMidjourneyFunding env task d = (r, d') → runs_to (mkWorker AtFunding task target) AtToken r d d'.
Proof.
  unfold refundMidjourneyFunding. intros Hrun.
  destruct (decide (FundingRefundQuota task ≤ 0)) as [Hz|Hz].
  { eapply (moves_to env); [|apply same_task_mark|exact Hrun]. unfold worker_step. cbn. by rewrite decide_True. }
  destruct (decide (by_request task)) as [Hr|Hr].
  - destruct (RefundSubscriptionPreConsume env (TrimSpace (mc_RequestId (mj_BillingContext task))) d) as [r1 d1] eqn:H1.
    assert (Hstep : worker_step env (mkWorker AtFunding task target) d =
      (Ok (match r1 with Ok _ => Some (mkWorker AtMark task target) | Err _ => None end), d1)).
    { unfold worker_step. cbn. rewrite decide_False, decide_True by done.
      unfold mbind, M_bind, m_bind, attempt. rewrite H1. by destruct r1 as [[]|]. }
    apply work_alone in Hstep. unfold mbind, M_bind, m_bind in Hrun. rewrite H1 in Hrun. destruct r1 as [[]|e].
    + pose proof (moves_to env (mkWorker AtMark task target) AtToken _ _ _ _ eq_refl (same_task_mark task) Hrun) as Hm.
      unfold runs_to in *. destruct r as [[b t]|e]; [destruct Hm as [Hid Hm]; split; [done|]|]; by eapply rtc_l.
    + injection Hrun as <- <-. by apply rtc_once.
  - destruct (decide (by_subscription task)) as [Hs|Hs]; (eapply (moves_to env); [| |exact Hrun]);
      [|apply same_task_subscription| |apply same_task_wallet]; unfold worker_step; cbn.
    + by rewrite decide_False, decide_False, decide_True.
    + by rewrite decide_False, decide_False, decide_False.
Qed.

Lemma refund_runs env task target d out d' :
  RefundMidjourneyQuota env task d = (Ok out, d') →
  match ro_err out with
  | None => ∃ t, mj_Id t = mj_Id task ∧ rtc mj_step (d, [start_refund task target]) (d', [mkWorker AtComplete t target])
  | Some _ => rtc mj_step (d, [start_refund task target]) (d', [])
  end.
Proof.
  unfold RefundMidjourneyQuota, start_refund. intros Hrun.
  destruct (mc_BillingRefunded (mj_BillingContext task)) eqn:Hb.
  { injection Hrun as <- <-. rewrite decide_True by auto. cbn. eauto using rtc_refl. }
  destruct (decide (_ ∧ _)) as [Hz|Hz].
  { injection Hrun as <- <-. rewrite decide_True by auto. cbn. eauto using rtc_refl. }
  rewrite decide_False by naive_solver. unfold mbind, M_bind, m_bind, attempt in Hrun.
  destruct (refundMidjourneyFunding env task d) as [r1 d1] eqn:H1. apply (funding_runs env task target) in H1.
  destruct r1 as [[b1 t1]|e]; [|injection Hrun as <- <-; exact H1]. destruct H1 as [Hid1 Hrun1]. cbn in Hid1.
  destruct (refundMidjourneyToken env t1 d1) as [r2 d2] eqn:H2.
  pose proof (moves_to env (mkWorker AtToken t1 target) AtComplete _ _ _ _ eq_refl (same_task_token env t1) H2) as Hm.
  destruct r2 as [[b2 t2]|e]; injection Hrun as <- <-; cbn.
  - destruct Hm as [Hid2 Hm]. cbn in Hid2. exists t2. split; [congruence|]. by etransitivity.
  - by etransitivity.
Qed.

Lemma refund_total env task d : ∃ out d', RefundMidjourneyQuota env task d = (Ok out, d').
Proof.
  unfold RefundMidjourneyQuota. destruct (mc_BillingRefunded _); [eauto|]. case_decide; [eauto|].
  unfold mbind, M_bind, m_bind, attempt. destruct (refundMidjourneyFunding env task d) as [[[b t]|e] d1]; [|eauto].
  destruct (refundMidjourneyToken env t d1) as [[[b' t']|e] d2]; eauto.
Qed.

(** The last statement of a call. *)
Lemma complete_runs id t target d r d' :
  mj_Id t = id → CompleteMidjourneyRefundProgress id target d = (r, d') →
  is_ok r ∧ rtc mj_step (d, [mkWorker AtComplete t target]) (d', []).
Proof.
  intros <- Hcomp. unfold CompleteMidjourneyRefundProgress, mbind, M_bind, m_bind, get, modify in Hcomp.
  injection Hcomp as <- <-. split; [done|]. by apply rtc_once, (work_alone (mkEnv 0 0 0 float_zero) _ _ None).
Qed.

(** The refund of a call and its last statement. *)
Lemma refund_complete_runs env task target d out d1 :
  RefundMidjourneyQuota env task d = (Ok out, d1) →
  match ro_err out with
  | None => ∀ r d2, CompleteMidjourneyRefundProgress (mj_Id task) target d1 = (r, d2) →
      is_ok r ∧ rtc mj_step (d, [start_refund task target]) (d2, [])
  | Some _ => rtc mj_step (d, [start_refund task target]) (d1, [])
  end.
Proof.
  intros H1. apply (refund_runs env task target) in H1. destruct (ro_err out); [done|].
  destruct H1 as (t & Hid & H1). intros r d2 H2. destruct (complete_runs _ t _ _ _ _ Hid H2) as [Hr H3].
  split; [done|]. by etransitivity.
Qed.

(** A call of [CommitMidjourneyTaskUpdate] is a run of one worker, so what holds of all
    interleavings of workers holds of calls. *)
Theorem commit_runs env d s task preStatus shouldRefund r d' :
  by_id (mj_Id task) (midjourneys d) = Some s → charge_of task = charge_of s →
  CommitMidjourneyTaskUpdate env task preStatus shouldRefund d = (r, d') → rtc mj_step (d, []) (d', []).
Proof.
  intros Hs Hc Hrun. unfold CommitMidjourneyTaskUpdate in Hrun.
  destruct (decide (mj_Id task ≤ 0)); [injection Hrun as _ <-; apply rtc_refl|].
  rewrite (bind_ok _ _ (Ok s) d d) in Hrun
    by (unfold attempt, GetMidjourneyById, mbind, M_bind, m_bind, get; by rewrite Hs).
  pose proof (ms_begin d [] task preStatus shouldRefund s) as Hbegin. unfold begin_commit in Hbegin.
  destruct (decide (mj_Progress s = "REFUND_PENDING")) as [Hp|Hp].
  - eapply rtc_l; [exact (Hbegin _ Hs Hc eq_refl)|].
    destruct (refund_total env s d) as (out & d1 & H1). rewrite (bind_ok _ _ _ _ _ H1) in Hrun.
    pose proof (refund_complete_runs env s "100%" d out d1 H1) as H2.
    destruct (ro_err out); [injection Hrun as _ <-; exact H2|].
    destruct (CompleteMidjourneyRefundProgress (mj_Id s) "100%" d1) as [[b|e] d2] eqn:H3; [|by destruct (H2 _ _ eq_refl)].
    rewrite (bind_ok _ _ _ _ _ H3) in Hrun. unfold attempt, GetMidjourneyById, mbind, M_bind, m_bind, get, or_error in Hrun.
    destruct (H2 _ _ eq_refl) as [_ H4]. destruct (by_id (mj_Id s) (midjourneys d2)); injection Hrun as _ <-; exact H4.
  - destruct (decide (mj_Progress s = "100%")) as [Hd|Hd]; [injection Hrun as _ <-; apply rtc_refl|].
    destruct (decide (mj_Status s ≠ preStatus)) as [Hst|Hst]; [injection Hrun as _ <-; apply rtc_refl|].
    rewrite decide_False in Hbegin by tauto. eapply rtc_l; [exact (Hbegin _ Hs Hc eq_refl)|]. clear Hbegin. cbv zeta in *.
    set (copy := if shouldRefund then _ else _) in *.
    destruct (UpdateWithStatusAndProgress copy preStatus (mj_Progress s) d) as [[won|e] d1] eqn:H1;
      [|unfold UpdateWithStatusAndProgress in H1; by injection H1].
    rewrite (bind_ok _ _ _ _ _ H1) in Hrun.
    eapply rtc_l; [apply (work_alone env _ d); unfold worker_step; cbn [wk_stage wk_task wk_target];
                   rewrite (bind_ok _ _ _ _ _ H1); reflexivity|].
    destruct (won && shouldRefund) eqn:Hws.
    + apply andb_prop in Hws as [-> ->]. cbn [negb orb] in Hrun. cbn [option_list].
      destruct (refund_total env copy d1) as (out & d2 & H2). rewrite (bind_ok _ _ _ _ _ H2) in Hrun.
      pose proof (refund_complete_runs env copy (mj_Progress task) d1 out d2 H2) as H3.
      destruct (ro_err out); [injection Hrun as _ <-; exact H3|].
      destruct (CompleteMidjourneyRefundProgress (mj_Id copy) (mj_Progress task) d2) as [[b|e] d3] eqn:H4; [|by destruct (H3 _ _ eq_refl)].
      rewrite (bind_ok _ _ _ _ _ H4) in Hrun. injection Hrun as _ <-. apply (H3 _ _ eq_refl).
    + assert (negb won || negb shouldRefund = true) as Hn by (by destruct won, shouldRefund).
      rewrite Hn in Hrun. injection Hrun as _ <-. apply rtc_refl.
Qed.

(** ** Examples *)

Definition picture_env : Env := mkEnv 1000 1000 0 (float_of_int 500000).
Definition picture_context : MidjourneyBillingContext := mkMjContext 1 "wallet" 0 "" 1 40 40 false false false.
Definition picture_task : Midjourney := mkMidjourney 1 1 "mj-1" "SUBMITTED" "30%" "" 40 picture_context.
Definition picture_db : DB :=
  empty_DB <| users := Table [example_user 1 100 0 0] 2 |> <| tokens := Table [mkToken 1 "sk" 60 40 0 false] 2 |>
           <| midjourneys := Table [picture_task] 2 |>.
Definition failed_task : Midjourney :=
  picture_task <| mj_Status := "FAILURE" |> <| mj_Progress := "100%" |> <| mj_FailReason := "timeout" |>.

Lemma picture_wf : refunds_wf picture_db.
Proof.
  split; [split_and!; [repeat constructor|repeat constructor; cbn; lia|cbn; lia]|].
  repeat constructor; done.
Qed.

Lemma picture_refundable : refundable picture_env picture_db picture_task.
Proof. split; intros _; [by eexists|done]. Qed.

Lemma picture_refunded_witness :
  ∃ out d', CommitMidjourneyTaskUpdate picture_env failed_task "SUBMITTED" true picture_db = (Ok out, d') ∧
    co_won out = true ∧ co_err out = None ∧ call_done picture_db 1 picture_task "FAILURE" "100%" d'.
Proof.
  apply (picture_refunded picture_env picture_db picture_task failed_task "SUBMITTED");
    [exact picture_wf|done|done|done|done|done|by intros [? _]|exact picture_refundable].
Defined.

(** Two workers: the first has stored the failure and given back the wallet, the second
    has only loaded the task. *)
Definition half_done : DB :=
  let d1 := (UpdateWithStatusAndProgress (failed_task <| mj_Progress := "REFUND_PENDING" |>) "SUBMITTED" "30%" picture_db).2 in
  (RefundMidjourneyWalletFundingOnce (failed_task <| mj_Progress := "REFUND_PENDING" |>) d1).2.

Lemma half_done_run : ∃ ws, rtc mj_step (picture_db, []) (half_done, ws).
Proof.
  eexists. eapply rtc_l; [by eapply (ms_begin _ _ failed_task "SUBMITTED" true)|].
  eapply rtc_l; [by eapply (ms_begin _ _ failed_task "SUBMITTED" true)|]. cbn [mj_Progress].
  eapply rtc_l; [by eapply (ms_work picture_env _ _ [])|].
  eapply rtc_l; [by eapply (ms_work picture_env _ _ [])|]. apply rtc_refl.
Qed.

Lemma picture_refunds_conserved_witness : conserved picture_db half_done ∧ user_quota half_done 1 = 140.
Proof.
  split; [|by vm_compute]. destruct half_done_run as [ws Hrun].
  apply (picture_refunds_conserved picture_db half_done ws); [exact picture_wf|exact Hrun].
Defined.

(** The other worker finishes, from the task as it is stored. *)
Definition half_task : Midjourney :=
  failed_task <| mj_Progress := "REFUND_PENDING" |> <| mj_BillingContext := picture_context <| mc_FundingRefunded := true |> |>.
Definition paid_back : DB := (refundMidjourneyToken picture_env half_task half_done).2.
Definition paid_task : Midjourney :=
  half_task <| mj_BillingContext := picture_context <| mc_FundingRefunded := true |> <| mc_TokenRefunded := true |>
                                                    <| mc_BillingRefunded := true |> |>.
Definition finished : DB := (CompleteMidjourneyRefundProgress 1 "100%" paid_back).2.

Lemma half_done_wf : refunds_wf half_done.
Proof. destruct half_done_run as [ws Hrun]. apply (mj_run_inv (picture_db, []) (half_done, ws)); [|done]. by split; [apply picture_wf|]. Qed.

Lemma picture_refund_resumed_witness :
  ∃ out d', CommitMidjourneyTaskUpdate picture_env picture_task "SUBMITTED" false half_done = (Ok out, d') ∧
    co_won out = true ∧ co_err out = None ∧ call_done half_done 1 half_task "FAILURE" "100%" d'.
Proof.
  destruct (picture_refund_resumed picture_env half_done half_task picture_task "SUBMITTED" false)
    as (out & d' & H1 & H2 & H3 & H4 & _); [exact half_done_wf|done|done| |by exists out, d'].
  split; intros _; [by eexists|by vm_compute].
Defined.

Lemma paid_back_run : rtc mj_step (half_done, []) (paid_back, [mkWorker AtComplete paid_task "100%"]).
Proof.
  eapply rtc_l; [by eapply (ms_begin _ _ half_task "SUBMITTED" true half_task)|].
  eapply rtc_l; [by eapply (ms_work picture_env _ _ [])|].
  eapply rtc_l; [by eapply (ms_work picture_env _ _ [])|]. apply rtc_refl.
Qed.

Lemma picture_pending_until_refunded_witness : settled (paid_task <| mj_Progress := "100%" |>).
Proof.
  apply (picture_pending_until_refunded half_done paid_back [mkWorker AtComplete paid_task "100%"] finished [] 1 paid_task);
    [exact half_done_wf|exact paid_back_run| |by vm_compute|by vm_compute|done|done].
  apply (ms_work picture_env paid_back finished [] [] (mkWorker AtComplete paid_task "100%") None). by vm_compute.
Defined.

Lemma commit_runs_witness : ∃ d', rtc mj_step (picture_db, []) (d', []).
Proof.
  eexists. eapply (commit_runs picture_env picture_db picture_task failed_task "SUBMITTED" true); [done|done|].
  apply surjective_pairing.
Defined.
