(* ===== verification/Tasks.v ===== *)
(** * Asynchronous tasks

    [service/task_billing.go], [service/task_polling.go] and the statements of
    [model/task.go]: a task is paid in advance; when the upstream reports its end the
    difference to the real price is settled, and a task that fails or times out is
    refunded.  The polling loop runs on one node of several, but a task may also be
    ended by a request for it, so that its end is a compare-and-swap of the status.

    A report of the upstream is an argument of the definitions, after it has been
    parsed.  [adjust] is what the adaptor of the platform computes, [BuildProxyURL] the
    link to the result.  Logs are left out. *)
From S2P Require Import Prelude Tables GoTime GoFloat Schema Plans Windows Cycles Consume Accounting Ledger Limits Preferences Cards Purchases Lifecycle Wallet Groups Channels Ratios Expressions Prices Midjourney.

(** ** Definitions *)

Definition TaskStatusSubmitted := "SUBMITTED".
Definition TaskStatusQueued := "QUEUED".
Definition TaskStatusInProgress := "IN_PROGRESS".
Definition TaskStatusFailure := "FAILURE".
Definition TaskStatusSuccess := "SUCCESS".

Definition TokenGroupGPTPlus := "gpt-plus".

Definition NormalizeTokenGroup (group : string) : string :=
  let trimmed := TrimSpace group in
  if decide (trimmed ≠ "") then trimmed else TokenGroupGPTPlus.

(** *** Statements *)

Definition UpdateWithStatus (t : Task) (fromStatus : string) : Tx bool :=
  let at_ x := tk_ID x = tk_ID t ∧ tk_Status x = fromStatus in
  db ← get;
  _ ← modify (λ d, d <| tasks ::= update_where at_ (λ _, t) |>);
  mret (bool_decide (affected at_ (tasks db) > 0)).

(** [DB.Save]. *)
Definition Update (t : Task) : Tx () := modify (λ d, d <| tasks ::= save t |>).

Definition by_submit_time (a b : Task) : Prop := tk_SubmitTime a ≤ tk_SubmitTime b.
Global Instance by_submit_time_dec : RelDecision by_submit_time.
Proof. intros a b. unfold by_submit_time. solve_decision. Defined.

Definition finished_status (status : string) : Prop := status = TaskStatusFailure ∨ status = TaskStatusSuccess.
Global Instance finished_status_dec status : Decision (finished_status status).
Proof. unfold finished_status. solve_decision. Defined.

Definition GetTimedOutUnfinishedTasks (cutoffUnix limit : Z) : Tx (list Task) :=
  db ← get;
  let late t := tk_Progress t ≠ "100%" ∧ ¬ finished_status (tk_Status t) ∧ tk_SubmitTime t < cutoffUnix in
  mret (take (Z.to_nat limit) (order_by by_submit_time (where_ late (tasks db)))).

(** *** Billing *)

Definition taskIsSubscription (task : Task) : bool :=
  bool_decide (tk_BillingSource task = "subscription" ∧ tk_SubscriptionId task > 0).

Definition taskAdjustFunding (cfg : Config) (task : Task) (delta : Z) : W () :=
  if taskIsSubscription task
  then on_db (PostConsumeUserSubscriptionDelta (cf_env cfg) (tk_SubscriptionId task) delta)
  else if decide (delta > 0) then DecreaseUserQuota cfg (tk_UserId task) delta false
  else IncreaseUserQuota cfg (tk_UserId task) (-! delta) false.

Definition taskAdjustTokenQuota (cfg : Config) (task : Task) (delta : Z) : W () :=
  if decide (tk_TokenId task ≤ 0 ∨ delta = 0) then mret tt
  else
    tokenKey ← on_db (resolveTokenKey (tk_TokenId task));
    if decide (tokenKey = "") then mret tt
    else
      _ ← attempt (if decide (delta > 0) then DecreaseTokenQuota cfg (tk_TokenId task) delta
                   else IncreaseTokenQuota cfg (tk_TokenId task) (-! delta));
      mret tt.

Definition RefundTaskQuota (cfg : Config) (task : Task) : W () :=
  let quota := tk_Quota task in
  if decide (quota = 0) then mret tt
  else
    r ← attempt (taskAdjustFunding cfg task (-! quota));
    match r with
    | Err _ => mret tt
    | Ok _ => taskAdjustTokenQuota cfg task (-! quota)
    end.

(** The result is the caller's task. *)
Definition RecalculateTaskQuota (cfg : Config) (task : Task) (actualQuota : Z) : W Task :=
  if decide (actualQuota ≤ 0) then mret task
  else
    let quotaDelta := actualQuota -! tk_Quota task in
    if decide (quotaDelta = 0) then mret task
    else
      r ← attempt (taskAdjustFunding cfg task quotaDelta);
      match r with
      | Err _ => mret task
      | Ok _ =>
        _ ← taskAdjustTokenQuota cfg task quotaDelta;
        _ ← (if decide (quotaDelta > 0) then
               _ ← UpdateUserUsedQuotaAndRequestCount cfg (tk_UserId task) quotaDelta;
               UpdateChannelUsedQuota cfg (tk_ChannelId task) quotaDelta
             else mret tt);
        mret (task <| tk_Quota := actualQuota |>)
      end.

Definition taskModelName (task : Task) : string :=
  match tk_BillingContext task with
  | Some bc => if decide (bc_OriginModelName bc ≠ "") then bc_OriginModelName bc else tk_OriginModelName task
  | None => tk_OriginModelName task
  end.

Definition RecalculateTaskQuotaByTokens (cfg : Config) (g : GroupSettings) (s : PriceSettings) (task : Task)
    (totalTokens : Z) : W Task :=
  if decide (totalTokens ≤ 0) then mret task
  else
    let '(modelRatio, hasRatioSetting, _) := GetModelRatio s (taskModelName task) in
    if negb hasRatioSetting || (modelRatio <=? float_zero)%float then mret task
    else
      let frozen := match tk_BillingContext task with
                    | Some bc => if bc_HasGroupRatio bc || (float_zero <? bc_GroupRatio bc)%float
                                 then Some (bc_GroupRatio bc) else None
                    | None => None
                    end in
      let group := NormalizeTokenGroup (tk_Group task) in
      let finalGroupRatio := default (gr_GroupRatio (GetGroupRatioInfo g group group)) frozen in
      let otherRatios := from_option bc_OtherRatios ∅ (tk_BillingContext task) in
      let quota := int_of_float (float_mul (float_mul (float_of_int totalTokens) modelRatio) finalGroupRatio) in
      RecalculateTaskQuota cfg task (applyOtherRatiosStepwise quota otherRatios).

Definition settleTaskBillingOnComplete (cfg : Config) (g : GroupSettings) (s : PriceSettings) (task : Task)
    (adjust totalTokens : Z) : W Task :=
  if from_option bc_PerCallBilling false (tk_BillingContext task) then mret task
  else if decide (adjust > 0) then RecalculateTaskQuota cfg task adjust
  else if decide (totalTokens > 0) then RecalculateTaskQuotaByTokens cfg g s task totalTokens
  else mret task.

(** *** Polling *)

(** What the upstream reports of a task. *)
Record TaskInfo := mkTaskInfo {
  ti_Status : string;
  ti_Reason : string;
  ti_Url : string;
  ti_Progress : string;
  ti_TotalTokens : Z;
}.

Definition FailTaskInfo (reason : string) : TaskInfo := mkTaskInfo "FAILURE" reason "" "" 0.

(** The error that a reply may hold, as [encoding/json] decodes it; its code is of type
    [any]. *)
Inductive code_value := CodeText (s : string) | CodeNumber (x : float64) | CodeElse.
Record OpenAIError := mkOpenAIError { oe_Message : string; oe_Code : code_value }.

(** A reply read as a [GeneralErrorResponse]: not readable, the JSON [null], or an
    object, with its field [error] if that is readable. *)
Inductive error_reply := ReplyUnreadable | ReplyNull | ReplyObject (error : option OpenAIError).

Definition TryToOpenAIError (error : option OpenAIError) : option OpenAIError :=
  match error with Some e => if decide (oe_Message e ≠ "") then Some e else None | None => None end.

(** What a report without a status is taken for: [None] when the task is left as it is.
    A method of the nil pointer that [null] decodes to panics. *)
Definition empty_status (reply : error_reply) (taskResult : TaskInfo) : result (option TaskInfo) :=
  if decide (ti_Status taskResult = "") then
    match reply with
    | ReplyUnreadable => Ok (Some taskResult)
    | ReplyNull => Err (ErrNew "runtime error: invalid memory address or nil pointer dereference")
    | ReplyObject error =>
      match TryToOpenAIError error with
      | Some e =>
        match oe_Code e with
        | CodeText code => if decide (code = "429") then Ok None else Ok (Some (FailTaskInfo "upstream returned error"))
        | _ => Ok (Some (FailTaskInfo "upstream returned error"))
        end
      | None => Ok (Some (FailTaskInfo "upstream returned unrecognized message"))
      end
    end
  else Ok (Some taskResult).

(** The task as the report leaves it, and whether it is to be settled or refunded;
    an unknown status is an error. *)
Definition apply_report (BuildProxyURL : string → string) (now : Z) (task : Task) (data : string) (taskResult : TaskInfo) :
    result (Task * bool * bool) :=
  let quota := tk_Quota task in
  let task := task <| tk_Data := data |> <| tk_Status := ti_Status taskResult |> in
  let shown task := if decide (ti_Progress taskResult ≠ "") then task <| tk_Progress := ti_Progress taskResult |> else task in
  let finished task := if decide (tk_FinishTime task = 0) then task <| tk_FinishTime := now |> else task in
  if decide (ti_Status taskResult = TaskStatusSubmitted) then Ok (shown (task <| tk_Progress := "10%" |>), false, false)
  else if decide (ti_Status taskResult = TaskStatusQueued) then Ok (shown (task <| tk_Progress := "20%" |>), false, false)
  else if decide (ti_Status taskResult = TaskStatusInProgress) then
    let task := task <| tk_Progress := "30%" |> in
    Ok (shown (if decide (tk_StartTime task = 0) then task <| tk_StartTime := now |> else task), false, false)
  else if decide (ti_Status taskResult = TaskStatusSuccess) then
    let task := finished (task <| tk_Progress := "100%" |>) in
    let url := if String.prefix "data:" (ti_Url taskResult) then BuildProxyURL (tk_TaskID task)
               else if decide (ti_Url taskResult ≠ "") then ti_Url taskResult
               else BuildProxyURL (tk_TaskID task) in
    Ok (shown (task <| tk_ResultURL := url |>), true, false)
  else if decide (ti_Status taskResult = TaskStatusFailure) then
    let task := finished (task <| tk_Progress := "100%" |>) in
    Ok (task <| tk_FailReason := ti_Reason taskResult |> <| tk_Progress := "100%" |>, false, bool_decide (quota ≠ 0))
  else Err (ErrNew ("unknown task status " +:+ ti_Status taskResult +:+ " for task " +:+ tk_TaskID task)).

(** The fields of [taskSnapshot]. *)
Definition Snapshot (t : Task) :=
  (tk_Status t, tk_Progress t, tk_StartTime t, tk_FinishTime t, tk_FailReason t, tk_ResultURL t, tk_Data t).

(** The task after the report is stored; the flags stay set when this call may bill. *)
Definition store_report (BuildProxyURL : string → string) (now : Z) (task : Task) (data : string) (taskResult : TaskInfo) :
    Tx (Task * bool * bool) :=
  '(new, shouldSettle, shouldRefund) ← lift (apply_report BuildProxyURL now task data taskResult);
  if decide (finished_status (tk_Status new) ∧ tk_Status task ≠ tk_Status new) then
    won ← UpdateWithStatus new (tk_Status task);
    mret (new, won && shouldSettle, won && shouldRefund)
  else
    _ ← (if decide (Snapshot task ≠ Snapshot new) then UpdateWithStatus new (tk_Status task) else mret false);
    mret (new, shouldSettle, shouldRefund).

Definition updateVideoSingleTask (cfg : Config) (g : GroupSettings) (s : PriceSettings) (BuildProxyURL : string → string)
    (adjust : Z) (task : Task) (data : string) (reply : error_reply) (taskResult : TaskInfo) : W () :=
  report ← lift (empty_status reply taskResult);
  match report with
  | None => mret tt
  | Some taskResult =>
  '(task, shouldSettle, shouldRefund) ← on_db (store_report BuildProxyURL (app_now (cf_env cfg)) task data taskResult);
  task ← (if shouldSettle : bool then settleTaskBillingOnComplete cfg g s task adjust (ti_TotalTokens taskResult)
          else mret task);
  if shouldRefund : bool then RefundTaskQuota cfg task else mret tt
  end.

(** The body of the loop of [sweepTimedOutTasks]. *)
Definition legacyTaskCutoff := 1740182400.

Definition sweep_one (cfg : Config) (reason legacyReason : string) (task : Task) : W () :=
  let isLegacy := bool_decide (tk_SubmitTime task > 0 ∧ tk_SubmitTime task < legacyTaskCutoff) in
  let new := task <| tk_Status := TaskStatusFailure |> <| tk_Progress := "100%" |>
                  <| tk_FinishTime := app_now (cf_env cfg) |>
                  <| tk_FailReason := if isLegacy then legacyReason else reason |> in
  won ← on_db (UpdateWithStatus new (tk_Status task));
  if won && negb isLegacy && bool_decide (tk_Quota task ≠ 0) then RefundTaskQuota cfg new else mret tt.

Definition sweepTimedOutTasks (cfg : Config) (TaskTimeoutMinutes : Z) (reason legacyReason : string) : W () :=
  if decide (TaskTimeoutMinutes ≤ 0) then mret tt
  else
    let cutoff := app_now (cf_env cfg) -! (TaskTimeoutMinutes *! 60) in
    late ← on_db (GetTimedOutUnfinishedTasks cutoff 100);
    for_each late (sweep_one cfg reason legacyReason).

(** What the music platform reports of a task. *)
Record SunoDataResponse := mkSuno {
  sn_Status : string;
  sn_FailReason : string;
  sn_SubmitTime : Z;
  sn_StartTime : Z;
  sn_FinishTime : Z;
  sn_Data : string;
}.

(** The bytes of a text, sorted. *)
Definition sorted_bytes (s : string) : list N := merge_sort N.le (N_of_ascii <$> String.list_ascii_of_string s).

Definition taskNeedsUpdate (oldTask : Task) (newTask : SunoDataResponse) : bool :=
  bool_decide (tk_SubmitTime oldTask ≠ sn_SubmitTime newTask) || bool_decide (tk_StartTime oldTask ≠ sn_StartTime newTask) ||
  bool_decide (tk_FinishTime oldTask ≠ sn_FinishTime newTask) || bool_decide (tk_Status oldTask ≠ sn_Status newTask) ||
  bool_decide (tk_FailReason oldTask ≠ sn_FailReason newTask) ||
  bool_decide (finished_status (tk_Status oldTask) ∧ tk_Progress oldTask ≠ "100%") ||
  bool_decide (sorted_bytes (tk_Data oldTask) ≠ sorted_bytes (sn_Data newTask)).

(** The body of the loop of [updateSunoTasks]. *)
Definition update_suno (cfg : Config) (task : Task) (item : SunoDataResponse) : W () :=
  if negb (taskNeedsUpdate task item) then mret tt
  else
    let task := task <| tk_Status ::= λ s, if decide (sn_Status item ≠ "") then sn_Status item else s |>
                     <| tk_FailReason ::= λ r, if decide (sn_FailReason item ≠ "") then sn_FailReason item else r |>
                     <| tk_SubmitTime ::= λ t, if decide (sn_SubmitTime item ≠ 0) then sn_SubmitTime item else t |>
                     <| tk_StartTime ::= λ t, if decide (sn_StartTime item ≠ 0) then sn_StartTime item else t |>
                     <| tk_FinishTime ::= λ t, if decide (sn_FinishTime item ≠ 0) then sn_FinishTime item else t |> in
    let failed := bool_decide (sn_FailReason item ≠ "" ∨ tk_Status task = TaskStatusFailure) in
    let task := if failed then task <| tk_Progress := "100%" |> else task in
    _ ← (if failed then RefundTaskQuota cfg task else mret tt);
    let task := if decide (sn_Status item = TaskStatusSuccess) then task <| tk_Progress := "100%" |> else task in
    on_db (Update (task <| tk_Data := sn_Data item |>)).

(** ** Balances *)

Lemma op_total cfg op w :
  match op with
  | IncreaseUser _ q | DecreaseUser _ q | IncreaseToken _ q | DecreaseToken _ q => 0 ≤ q
  | DeltaUser _ _ => False
  | _ => True
  end → (run_quota_op cfg op w).1 = Ok tt.
Proof.
  intros Hop. destruct op as [id q|id q|id d|id q|id q|id q|id q]; cbn [run_quota_op] in *; [| |done| | | |].
  1-4: unfold IncreaseUserQuota, DecreaseUserQuota, IncreaseTokenQuota, DecreaseTokenQuota;
    unfold mbind, M_bind, m_bind; rewrite fail_if_pass by lia; by destruct (cf_batch cfg).
  - unfold UpdateUserUsedQuotaAndRequestCount. by destruct (cf_batch cfg).
  - unfold UpdateChannelUsedQuota. by destruct (cf_batch cfg).
Qed.

(** Quota operations do not touch the key of a token, nor the other tables. *)
Definition token_key (w : World) (id : Z) : string := from_option t_Key "" (by_id id (tokens (w_db w))).

Lemma op_user_tokens cfg op w :
  match op with IncreaseUser _ _ | DecreaseUser _ _ => True | _ => False end →
  tokens (w_db (run_quota_op cfg op w).2) = tokens (w_db w).
Proof.
  intros Hop. destruct op as [id q|id q|?|?|?|?|?]; try done; cbn [run_quota_op];
    unfold IncreaseUserQuota, DecreaseUserQuota, mbind, M_bind, m_bind, fail_if; case_decide; try done;
    by destruct (cf_batch cfg).
Qed.

Lemma run_ops_cons cfg op ops w :
  (run_quota_ops cfg (op :: ops) w) = run_quota_ops cfg ops (run_quota_op cfg op w).2.
Proof.
  unfold run_quota_ops. cbn [for_each]. unfold mbind, M_bind, m_bind, attempt.
  by destruct (run_quota_op cfg op w) as [[] ?].
Qed.

(** The calls that change the balances by [delta], and those that settle it. *)
Definition adjust_ops (task : Task) (delta : Z) : list quota_op :=
  if decide (delta > 0) then [DecreaseUser (tk_UserId task) delta; DecreaseToken (tk_TokenId task) delta]
  else [IncreaseUser (tk_UserId task) (- delta); IncreaseToken (tk_TokenId task) (- delta)].

Definition settle_ops (task : Task) (delta : Z) : list quota_op :=
  if decide (delta = 0) then []
  else adjust_ops task delta ++
       (if decide (delta > 0) then [CountRequest (tk_UserId task) delta; UseChannel (tk_ChannelId task) delta] else []).

(** The token of the task is known and its key can be found. *)
Definition token_known (w : World) (task : Task) : Prop := 0 < tk_TokenId task ∧ token_key w (tk_TokenId task) ≠ "".

Lemma adjust_runs cfg task delta w :
  taskIsSubscription task = false → token_known w task → delta ≠ 0 → in_int64 (- delta) →
  ∃ w1, taskAdjustFunding cfg task delta w = (Ok tt, w1) ∧
    taskAdjustTokenQuota cfg task delta w1 = (Ok tt, (run_quota_ops cfg (adjust_ops task delta) w).2).
Proof.
  intros Hsub [Htok Hkey] Hne Hrange. unfold taskAdjustFunding, adjust_ops. rewrite Hsub.
  replace (-! delta) with (- delta) by (unwrap; done).
  set (user_op := if decide (delta > 0) then DecreaseUser (tk_UserId task) delta else IncreaseUser (tk_UserId task) (- delta)).
  set (token_op := if decide (delta > 0) then DecreaseToken (tk_TokenId task) delta else IncreaseToken (tk_TokenId task) (- delta)).
  assert (Hops : (if decide (delta > 0) then [DecreaseUser (tk_UserId task) delta; DecreaseToken (tk_TokenId task) delta]
    else [IncreaseUser (tk_UserId task) (- delta); IncreaseToken (tk_TokenId task) (- delta)]) = [user_op; token_op])
    by (unfold user_op, token_op; by case_decide).
  rewrite Hops, !run_ops_cons. set (w1 := (run_quota_op cfg user_op w).2).
  assert (Hu : run_quota_op cfg user_op w = (Ok tt, w1)).
  { unfold w1. rewrite <-(op_total cfg user_op w); [apply surjective_pairing|]. unfold user_op. case_decide; lia. }
  assert (Ht : run_quota_op cfg token_op w1 = (Ok tt, (run_quota_op cfg token_op w1).2)).
  { rewrite <-(op_total cfg token_op w1); [apply surjective_pairing|]. unfold token_op. case_decide; lia. }
  assert (Hk : token_key w1 (tk_TokenId task) ≠ "").
  { unfold token_key, w1. rewrite op_user_tokens; [done|]. unfold user_op. by case_decide. }
  exists w1. split; [unfold user_op in Hu; by case_decide|].
  unfold taskAdjustTokenQuota. rewrite decide_False by lia. unfold resolveTokenKey, on_db, mbind, M_bind, m_bind, get.
  cbn -[run_quota_op]. fold (token_key w1 (tk_TokenId task)). rewrite decide_False by done.
  replace (-! delta) with (- delta) by (unwrap; done).
  clearbody w1. replace (mkWorld (w_db w1) (w_stores w1)) with w1 by (by destruct w1).
  unfold attempt. unfold token_op in *. by destruct (decide (delta > 0)); cbn [run_quota_op] in Ht; rewrite Ht.
Qed.

Lemma settle_runs cfg task actual w :
  taskIsSubscription task = false → token_known w task → 0 < actual ≤ max_int64 → 0 ≤ tk_Quota task ≤ max_int64 →
  RecalculateTaskQuota cfg task actual w =
  (Ok (task <| tk_Quota := actual |>), (run_quota_ops cfg (settle_ops task (actual - tk_Quota task)) w).2).
Proof.
  intros Hsub Htok Ha Hq. unfold RecalculateTaskQuota, settle_ops. rewrite decide_False by lia.
  replace (actual -! tk_Quota task) with (actual - tk_Quota task) by (unwrap; lia). set (delta := actual - tk_Quota task).
  case_decide as Hz.
  { assert (actual = tk_Quota task) as -> by lia. by destruct task. }
  destruct (adjust_runs cfg task delta w) as (w1 & H1 & H2); [done|done|done|unfold in_int64; lia|].
  unfold mbind, M_bind, m_bind, attempt. rewrite H1, H2. 
  assert (Happ : ∀ l1 l2 w, run_quota_ops cfg (l1 ++ l2) w = run_quota_ops cfg l2 (run_quota_ops cfg l1 w).2).
  { clear. induction l1 as [|op l1 IH]; intros l2 w; cbn [app]; [done|]. rewrite !run_ops_cons. apply IH. }
  rewrite Happ. set (w2 := (run_quota_ops cfg (adjust_ops task delta) w).2). case_decide; [|done].
  rewrite !run_ops_cons. set (w3 := (run_quota_op cfg (CountRequest _ _) w2).2).
  assert (Hc : UpdateUserUsedQuotaAndRequestCount cfg (tk_UserId task) delta w2 = (Ok tt, w3)).
  { unfold w3. rewrite <-(op_total cfg (CountRequest (tk_UserId task) delta) w2); [apply surjective_pairing|done]. }
  rewrite Hc. clearbody w3. set (w4 := (run_quota_op cfg (UseChannel _ _) w3).2).
  assert (Hd : UpdateChannelUsedQuota cfg (tk_ChannelId task) delta w3 = (Ok tt, w4)).
  { unfold w4. rewrite <-(op_total cfg (UseChannel (tk_ChannelId task) delta) w3); [apply surjective_pairing|done]. }
  by rewrite Hd.
Qed.

Lemma refund_runs_ops cfg task w :
  taskIsSubscription task = false → token_known w task → 0 ≤ tk_Quota task ≤ max_int64 →
  RefundTaskQuota cfg task w =
  (Ok tt, (run_quota_ops cfg (if decide (tk_Quota task = 0) then [] else adjust_ops task (- tk_Quota task)) w).2).
Proof.
  intros Hsub Htok Hq. unfold RefundTaskQuota. case_decide as Hz; [done|].
  replace (-! tk_Quota task) with (- tk_Quota task) by (unwrap; lia).
  destruct (adjust_runs cfg task (- tk_Quota task) w) as (w1 & H1 & H2); [done|done|lia|unfold in_int64; lia|].
  unfold mbind, M_bind, m_bind, attempt. by rewrite H1, H2.
Qed.

(** How the balances change when a task is charged [delta] more. *)
Definition charged_more (task : Task) (delta count : Z) (w w' : World) : Prop :=
  shifted w w' (at_key (0, 0, 0) (- delta, count * delta, count) (tk_UserId task)) (at_key 0 (- delta) (tk_TokenId task))
    (at_key 0 (count * delta) (tk_ChannelId task)).

(** A task that is paid from the wallet costs what it really used: whatever was paid in
    advance, the settlement leaves the wallet and the token charged with exactly the
    actual quota, with batched updates as without. *)
Theorem task_settled cfg task actual w n :
  taskIsSubscription task = false → token_known w task → 0 < actual → 0 ≤ tk_Quota task → 0 ≤ n →
  stores_within n (w_stores w) → n + 4 * (actual + tk_Quota task) + 1 ≤ max_int64 →
  let delta := actual - tk_Quota task in
  ∃ w', RecalculateTaskQuota cfg task actual w = (Ok (task <| tk_Quota := actual |>), w') ∧
    charged_more task delta (if decide (delta > 0) then 1 else 0) w w'.
Proof.
  intros Hsub Htok Ha Hq Hn Hst Hfit delta. rewrite settle_runs by (done || lia). fold delta.
  eexists. split; [reflexivity|].
  destruct (ops_post cfg (settle_ops task delta) w n Hst Hn) as (_ & Hpost & _).
  { unfold settle_ops, adjust_ops. repeat case_decide; cbn; lia. }
  eapply shifted_ext; [exact Hpost|..]; intros id; unfold settle_ops, adjust_ops, at_key, user_changes.
  all: destruct (decide (delta = 0)) as [H0|H0], (decide (delta > 0)) as [Hp|Hp]; try lia;
    cbn; unfold add_user3, add_user; repeat case_decide; cbn; repeat match goal with |- (_, _) = (_, _) => f_equal end; lia.
Qed.

Lemma refund_post cfg task w n :
  taskIsSubscription task = false → token_known w task → 0 ≤ tk_Quota task → 0 ≤ n →
  stores_within n (w_stores w) → n + 2 * tk_Quota task ≤ max_int64 →
  ∃ w', RefundTaskQuota cfg task w = (Ok tt, w') ∧ charged_more task (- tk_Quota task) 0 w w' ∧
    stores_within (n + 2 * tk_Quota task) (w_stores w').
Proof.
  intros Hsub Htok Hq Hn Hst Hfit. rewrite refund_runs_ops by (done || lia). eexists. split; [reflexivity|].
  set (ops := if decide _ then _ else _).
  assert (Hsize : sumZ size ops = 2 * tk_Quota task).
  { unfold ops, adjust_ops. rewrite (decide_False (P := - tk_Quota task > 0)) by lia. case_decide; cbn; lia. }
  destruct (ops_post cfg ops w n Hst Hn) as (_ & Hpost & Hst' & _); [lia|]. rewrite Hsize in Hst'. split; [|done].
  eapply shifted_ext; [exact Hpost|..]; intros id; unfold ops, adjust_ops, at_key, user_changes.
  all: rewrite (decide_False (P := - tk_Quota task > 0)) by lia; destruct (decide (tk_Quota task = 0)) as [H0|H0];
    cbn; unfold add_user3, add_user; repeat case_decide; cbn; repeat match goal with |- (_, _) = (_, _) => f_equal end; lia.
Qed.

(** ** Once *)

(** Billing leaves the tasks alone. *)
Abbreviation task_table := (λ w, tasks (w_db w)).

Lemma keeps_on_db {A B} (π : DB → B) (m : Tx A) : keeps π m → keeps (λ w, π (w_db w)) (on_db m).
Proof. intros Hm w. apply Hm. Qed.

Lemma keeps_run_op cfg op : keeps task_table (run_quota_op cfg op).
Proof.
  destruct op; cbn [run_quota_op]; unfold DeltaUpdateUserQuota, IncreaseUserQuota, DecreaseUserQuota, IncreaseTokenQuota,
    DecreaseTokenQuota, UpdateUserUsedQuotaAndRequestCount, UpdateChannelUsedQuota, addNewRecord.
  all: intros w; unfold mbind, M_bind, m_bind, fail_if; repeat case_decide; try done; by destruct (cf_batch cfg).
Qed.

Lemma keeps_funding cfg task delta : keeps task_table (taskAdjustFunding cfg task delta).
Proof.
  unfold taskAdjustFunding. destruct (taskIsSubscription task).
  - apply keeps_on_db. unfold PostConsumeUserSubscriptionDelta, postConsumeUserSubscriptionDeltaTx, save_subscription. keeps_solve.
  - case_decide; [apply (keeps_run_op cfg (DecreaseUser _ _))|apply (keeps_run_op cfg (IncreaseUser _ _))].
Qed.

Lemma keeps_token cfg task delta : keeps task_table (taskAdjustTokenQuota cfg task delta).
Proof.
  unfold taskAdjustTokenQuota. case_decide; [done|]. apply keeps_bind; [apply keeps_on_db; unfold resolveTokenKey; keeps_solve|].
  intros key. case_decide; [done|]. apply keeps_bind; [|done]. apply keeps_attempt.
  case_decide; [apply (keeps_run_op cfg (DecreaseToken _ _))|apply (keeps_run_op cfg (IncreaseToken _ _))].
Qed.
#[local] Hint Resolve keeps_funding keeps_token : keeps.

Lemma keeps_count cfg id q : keeps task_table (UpdateUserUsedQuotaAndRequestCount cfg id q).
Proof. exact (keeps_run_op cfg (CountRequest id q)). Qed.
Lemma keeps_channel cfg id q : keeps task_table (UpdateChannelUsedQuota cfg id q).
Proof. exact (keeps_run_op cfg (UseChannel id q)). Qed.
#[local] Hint Resolve keeps_count keeps_channel : keeps.

Lemma keeps_refund_task cfg task : keeps task_table (RefundTaskQuota cfg task).
Proof. unfold RefundTaskQuota. keeps_solve. Qed.
Lemma keeps_recalculate cfg task actual : keeps task_table (RecalculateTaskQuota cfg task actual).
Proof. unfold RecalculateTaskQuota. keeps_solve. Qed.
#[local] Hint Resolve keeps_refund_task keeps_recalculate : keeps.

Lemma keeps_settle cfg g s task adjust tokens : keeps task_table (settleTaskBillingOnComplete cfg g s task adjust tokens).
Proof.
  unfold settleTaskBillingOnComplete, RecalculateTaskQuotaByTokens. destruct (GetModelRatio s _) as [[] ?]. keeps_solve.
Qed.
#[local] Hint Resolve keeps_settle : keeps.

Lemma set_task_table (f g : table Task → table Task) (d : DB) :
  f (tasks d) = g (tasks d) → d <| tasks ::= f |> = d <| tasks ::= g |>.
Proof. intros Heq. cbn. by rewrite Heq. Qed.

Lemma set_task_table_id (f : table Task → table Task) (d : DB) : f (tasks d) = tasks d → d <| tasks ::= f |> = d.
Proof. intros Heq. cbn. rewrite Heq. by destruct d. Qed.

(** The compare-and-swap of the status. *)
Lemma cas_effect d t fromStatus s :
  table_wf (tasks d) → by_id (tk_ID t) (tasks d) = Some s →
  UpdateWithStatus t fromStatus d =
  (Ok (bool_decide (tk_Status s = fromStatus)), if decide (tk_Status s = fromStatus) then d <| tasks ::= save t |> else d).
Proof.
  intros Hwf Hs. pose proof (by_id_Some _ _ _ Hs) as [Hin Hid]. cbn in Hid.
  destruct (write_one (λ x, tk_ID x = tk_ID t ∧ tk_Status x = fromStatus) (λ _, t) s (tasks d)) as [Heq Haff];
    [done|done|intros r _ [? _]; cbn; congruence|done|].
  unfold UpdateWithStatus, mbind, M_bind, m_bind, get, modify, mret, M_ret, m_ret. f_equal.
  - f_equal. rewrite Haff. apply bool_decide_ext. tauto.
  - destruct (decide (tk_Status s = fromStatus)) as [Hh|Hh].
    + rewrite decide_True in Heq by tauto. by apply set_task_table.
    + rewrite decide_False in Heq by tauto. by apply set_task_table_id.
Qed.

(** The two ways in which a poll ends a task. *)
Inductive poll :=
| VideoPoll (BuildProxyURL : string → string) (adjust : Z) (task : Task) (data : string) (reply : error_reply)
    (taskResult : TaskInfo)
| TimeoutPoll (reason legacyReason : string) (task : Task).

Definition run_poll (cfg : Config) (g : GroupSettings) (s : PriceSettings) (p : poll) : W () :=
  match p with
  | VideoPoll url adjust task data reply taskResult =>
    updateVideoSingleTask cfg g s url adjust task data reply taskResult
  | TimeoutPoll reason legacyReason task => sweep_one cfg reason legacyReason task
  end.

(** The task as the poll has read it. *)
Definition poll_task (p : poll) : Task :=
  match p with VideoPoll _ _ task _ _ _ | TimeoutPoll _ _ task => task end.

(** A poll that ends the task: a final status, an error in place of a status, a timeout. *)
Definition ends (p : poll) : Prop :=
  match p with
  | VideoPoll _ _ _ _ reply r =>
    match empty_status reply r with Ok (Some r') => finished_status (ti_Status r') | _ => False end
  | TimeoutPoll _ _ _ => True
  end.

Lemma report_ended url now task data r new a b :
  apply_report url now task data r = Ok (new, a, b) →
  tk_ID new = tk_ID task ∧ tk_Status new = ti_Status r ∧ tk_Quota new = tk_Quota task ∧
  (a = true ∨ b = true → finished_status (ti_Status r)).
Proof.
  unfold apply_report, finished_status, TaskStatusSuccess, TaskStatusFailure. repeat case_decide; intros [= <- <- <-]; cbn.
  all: split_and!; auto; naive_solver.
Qed.

(** A poll of a task that has ended changes nothing. *)
Lemma ended_poll_idle cfg g ms w p s :
  table_wf (task_table w) → by_id (tk_ID (poll_task p)) (task_table w) = Some s → finished_status (tk_Status s) →
  ¬ finished_status (tk_Status (poll_task p)) → (run_poll cfg g ms p w).2 = w.
Proof.
  intros Hwf Hs Hend Hopen. assert (Hne : tk_Status s ≠ tk_Status (poll_task p)) by congruence.
  assert (Hcas : ∀ new, tk_ID new = tk_ID (poll_task p) →
    UpdateWithStatus new (tk_Status (poll_task p)) (w_db w) = (Ok false, w_db w)).
  { intros new Hid. rewrite (cas_effect _ _ _ s); [|done|by rewrite Hid].
    by rewrite bool_decide_false, decide_False. }
  assert (Hw : w <| w_db := w_db w |> = w) by (by destruct w).
  destruct p as [url adjust task data reply r0|reason legacyReason task]; cbn [run_poll poll_task] in *.
  - unfold updateVideoSingleTask, on_db, store_report, mbind, M_bind, m_bind, lift.
    destruct (empty_status reply r0) as [[r|]|e0]; [|done|done].
    destruct (apply_report _ _ _ _ _) as [[[new a] b]|e] eqn:Hrep; [|done].
    destruct (report_ended _ _ _ _ _ _ _ _ Hrep) as (Hid & Hst & _ & Hflags).
    destruct (decide (finished_status (tk_Status new) ∧ tk_Status task ≠ tk_Status new)) as [Hd|Hd].
    { rewrite Hcas by done. cbn. exact Hw. }
    assert (Hno : ¬ (a = true ∨ b = true)).
    { intros Hab. specialize (Hflags Hab). apply Hd. rewrite Hst. split; [done|]. intros Heq. apply Hopen. by rewrite Heq. }
    assert (a = false ∧ b = false) as [-> ->] by (destruct a, b; tauto).
    destruct (decide (Snapshot task ≠ Snapshot new)); [rewrite Hcas by done|]; exact Hw.
  - unfold sweep_one, on_db, mbind, M_bind, m_bind. rewrite Hcas by done. cbn. exact Hw.
Qed.

(** What comes after a call and leaves a part of the state alone. *)
Lemma bind_frame {S A B C} (π : S → C) (m : M S A) (k : A → M S B) s :
  (∀ a, keeps π (k a)) → π ((m ≫= k) s).2 = π (m s).2.
Proof. intros Hk. unfold mbind, M_bind, m_bind. destruct (m s) as [[a|e] s']; [apply Hk|done]. Qed.

(** The poll that ends a task: the task is stored as ended, whatever is billed. *)
Lemma ending_poll cfg g ms w p s :
  table_wf (task_table w) → by_id (tk_ID (poll_task p)) (task_table w) = Some s → tk_Status s = tk_Status (poll_task p) →
  ¬ finished_status (tk_Status (poll_task p)) → ends p →
  let w' := (run_poll cfg g ms p w).2 in
  table_wf (task_table w') ∧ ∃ s', by_id (tk_ID (poll_task p)) (task_table w') = Some s' ∧ finished_status (tk_Status s').
Proof.
  intros Hwf Hs Hst Hopen Hends w'.
  assert (Hcas : ∀ new, tk_ID new = tk_ID (poll_task p) →
    UpdateWithStatus new (tk_Status (poll_task p)) (w_db w) = (Ok true, (w_db w) <| tasks ::= save new |>)).
  { intros new Hid. rewrite (cas_effect _ _ _ s); [|done|by rewrite Hid]. by rewrite bool_decide_true, decide_True. }
  assert (Hdone : ∀ new, tk_ID new = tk_ID (poll_task p) → finished_status (tk_Status new) → task_table w' = save new (task_table w) →
    table_wf (task_table w') ∧ ∃ s', by_id (tk_ID (poll_task p)) (task_table w') = Some s' ∧ finished_status (tk_Status s')).
  { intros new Hid Hfin ->. split; [by apply wf_save|]. exists new. split; [|done]. rewrite <-Hid in Hs |- *.
    exact (by_id_save_eq new s _ Hs). }
  destruct p as [url adjust task data reply r0|reason legacyReason task]; cbn [run_poll poll_task ends] in *.
  - destruct (empty_status reply r0) as [[r|]|e0] eqn:Hreply; [|done|done].
    destruct (apply_report url (app_now (cf_env cfg)) task data r) as [[[new a] b]|e] eqn:Hrep.
    + destruct (report_ended _ _ _ _ _ _ _ _ Hrep) as (Hid & Hstat & _). apply (Hdone new); [done|by rewrite Hstat|].
      unfold w', updateVideoSingleTask. rewrite Hreply.
      match goal with |- context [(lift (Ok ?a) ≫= ?k) ?w0] => change ((lift (Ok a) ≫= k) w0) with (k a w0); cbv beta iota end.
      rewrite (bind_frame task_table) by (intros [[? ?] ?]; keeps_solve).
      unfold on_db, store_report, mbind, M_bind, m_bind, lift. rewrite Hrep.
      rewrite decide_True by (rewrite Hstat; split; [done|intros Heq; apply Hopen; by rewrite Heq]).
      by rewrite Hcas.
    + exfalso. revert Hrep. unfold apply_report. destruct Hends as [-> | ->]; unfold TaskStatusSuccess, TaskStatusFailure;
        repeat (rewrite decide_False by done); by repeat case_decide.
  - eapply Hdone; [| |unfold w', sweep_one; rewrite (bind_frame task_table) by (intros [];  keeps_solve);
                      unfold on_db; rewrite Hcas by reflexivity; reflexivity]; [done|by left].
Qed.


(** ** The music platform *)

Lemma op_token_key cfg op id : keeps (λ w, token_key w id) (run_quota_op cfg op).
Proof.
  assert (Hupd : ∀ (P : Token → Prop) `{∀ t, Decision (P t)} f (d : DB), (∀ t, t_Id (f t) = t_Id t) → (∀ t, t_Key (f t) = t_Key t) →
    from_option t_Key "" (by_id id (update_where P f (tokens d))) = from_option t_Key "" (by_id id (tokens d))).
  { intros P HP f d Hid Hk. rewrite by_id_update_where by done. destruct (by_id id (tokens d)); [|done]. cbn. by case_decide. }
  intros w. unfold token_key. destruct op; cbn [run_quota_op]; unfold DeltaUpdateUserQuota, IncreaseUserQuota, DecreaseUserQuota,
    IncreaseTokenQuota, DecreaseTokenQuota, UpdateUserUsedQuotaAndRequestCount, UpdateChannelUsedQuota, addNewRecord.
  all: unfold mbind, M_bind, m_bind, fail_if; repeat case_decide; try done; destruct (cf_batch cfg); try done; by apply Hupd.
Qed.

Lemma ops_token_key cfg ops id w : token_key (run_quota_ops cfg ops w).2 id = token_key w id.
Proof.
  revert w. induction ops as [|op ops IH]; intros w; [done|]. rewrite run_ops_cons, IH. apply op_token_key.
Qed.

Lemma suno_step cfg task item w n :
  taskIsSubscription task = false → token_known w task → 0 ≤ tk_Quota task → 0 ≤ n →
  stores_within n (w_stores w) → n + 2 * tk_Quota task ≤ max_int64 →
  taskNeedsUpdate task item = true → sn_FailReason item ≠ "" →
  let w' := (update_suno cfg task item w).2 in
  charged_more task (- tk_Quota task) 0 w w' ∧ stores_within (n + 2 * tk_Quota task) (w_stores w') ∧ token_known w' task.
Proof.
  intros Hsub Htok Hq Hn Hst Hfit Hneeds Hfail w'. unfold w', update_suno. rewrite Hneeds. cbn [negb]. cbv zeta.
  rewrite bool_decide_true by auto.
  match goal with |- context [RefundTaskQuota cfg ?t] => set (t0 := t) end.
  assert (Hk : token_known w t0) by exact Htok.
  destruct (refund_post cfg t0 w n) as (w1 & H1 & Hc & Hs1); [done..|].
  assert (Htk : token_known w1 task).
  { pose proof (refund_runs_ops cfg t0 w) as Hr. rewrite H1 in Hr. injection Hr as ->; [|done|done|cbn; lia].
    unfold token_known. by rewrite ops_token_key. }
  rewrite (bind_ok _ _ _ _ _ H1). split; [|done]. destruct Hc as [Hu Ht Hch]. split; intros id; [apply Hu|apply Ht|apply Hch].
Qed.

(** A refund of the music platform is repeated: it is made before the new status is
    stored, and nothing ties it to the status that was read.  When the write is lost, or
    another process has read the task too, the quota is given back a second time. *)
Theorem suno_refunds_again cfg task item w n :
  taskIsSubscription task = false → token_known w task → 0 ≤ tk_Quota task → 0 ≤ n →
  stores_within n (w_stores w) → n + 4 * tk_Quota task ≤ max_int64 →
  taskNeedsUpdate task item = true → sn_FailReason item ≠ "" →
  let w1 := (update_suno cfg task item w).2 in
  let w2 := (update_suno cfg task item w1).2 in
  charged_more task (- (2 * tk_Quota task)) 0 w w2.
Proof.
  intros Hsub Htok Hq Hn Hst Hfit Hneeds Hfail w1 w2.
  destruct (suno_step cfg task item w n) as (Hc1 & Hs1 & Hk1); [done|done|done|done|done|lia|done|done|]. fold w1 in Hc1, Hs1, Hk1.
  destruct (suno_step cfg task item w1 (n + 2 * tk_Quota task)) as (Hc2 & _); [done|done|done|lia|done|lia|done|done|].
  eapply shifted_ext; [exact (shifted_trans _ _ _ _ _ _ _ _ _ Hc1 Hc2)|..]; intros id; unfold at_key, add_user3, add_user;
    case_decide; cbn; repeat match goal with |- (_, _) = (_, _) => f_equal end; lia.
Qed.

(** ** Packages *)

(** The token of a task has nothing to do with subscriptions. *)
Lemma keeps_books cfg task delta :
  keeps (λ w, (user_subscriptions (w_db w), usage_records (w_db w), subscription_plans (w_db w))) (taskAdjustTokenQuota cfg task delta).
Proof.
  unfold taskAdjustTokenQuota. case_decide; [done|]. apply keeps_bind; [done|]. intros key. case_decide; [done|].
  apply keeps_bind; [|done]. apply keeps_attempt. unfold DecreaseTokenQuota, IncreaseTokenQuota, addNewRecord.
  case_decide; intros w; unfold mbind, M_bind, m_bind, fail_if; case_decide; try done; by destruct (cf_batch cfg).
Qed.

(** A task that a value package has paid is refunded on the amount used alone: the usage
    records, which the limits of the package are counted from, still book the task, and
    the books of the package are out of balance. *)
Theorem package_task_unbalanced cfg task w s :
  Accounting (w_db w) → taskIsSubscription task = true → by_id (tk_SubscriptionId task) (user_subscriptions (w_db w)) = Some s →
  package (subscription_plans (w_db w)) s → 0 < tk_Quota task ≤ us_AmountUsed s →
  let w' := (RefundTaskQuota cfg task w).2 in
  usage_records (w_db w') = usage_records (w_db w) ∧
  us_AmountUsed <$> by_id (tk_SubscriptionId task) (user_subscriptions (w_db w')) = Some (us_AmountUsed s - tk_Quota task) ∧
  ¬ Accounting (w_db w').
Proof.
  intros Hacc Hsub Hs Hpack Hq w'. pose proof (by_id_Some _ _ _ Hs) as [Hin Hid]. cbn in Hid.
  pose proof (ac_sub _ _ _ _ Hacc) as Hok. rewrite Forall_forall in Hok. specialize (Hok s Hin).
  pose proof (so_fits _ _ _ Hok) as Hfits.
  assert (Hpos : 0 < tk_SubscriptionId task) by (rewrite <-Hid; exact (proj1 (wf_elem _ s (ac_subs _ _ _ _ Hacc) Hin))).
  set (s' := s <| us_AmountUsed := us_AmountUsed s - tk_Quota task |> <| us_UpdatedAt := app_now (cf_env cfg) |>).
  assert (Hrun : taskAdjustFunding cfg task (-! tk_Quota task) w =
    (Ok tt, w <| w_db ::= λ d, d <| user_subscriptions ::= save s' |> |>)).
  { unfold taskAdjustFunding. rewrite Hsub. unfold on_db.
    assert (H1 : PostConsumeUserSubscriptionDelta (cf_env cfg) (tk_SubscriptionId task) (-! tk_Quota task) (w_db w) =
      (Ok tt, (w_db w) <| user_subscriptions ::= save s' |>)); [|by rewrite H1].
    replace (-! tk_Quota task) with (- tk_Quota task) by (unwrap; lia).
    unfold PostConsumeUserSubscriptionDelta, postConsumeUserSubscriptionDeltaTx. apply run_transaction.
    eapply run_bind; [apply fail_if_pass; lia|]. rewrite decide_False by lia. eapply run_bind; [done|].
    eapply run_bind; [by apply run_or_error|]. cbv zeta.
    replace (us_AmountUsed s +! - tk_Quota task) with (us_AmountUsed s - tk_Quota task) by (unwrap; lia).
    rewrite (decide_False (P := us_AmountUsed s - tk_Quota task < 0)) by lia.
    eapply run_bind; [apply fail_if_pass; pose proof (so_cap _ _ _ Hok); lia|]. done. }
  set (w1 := w <| w_db ::= λ d, d <| user_subscriptions ::= save s' |> |>) in *.
  assert (Hframe : (user_subscriptions (w_db w'), usage_records (w_db w'), subscription_plans (w_db w')) =
                   (user_subscriptions (w_db w1), usage_records (w_db w1), subscription_plans (w_db w1))).
  { unfold w', RefundTaskQuota. rewrite decide_False by lia. unfold mbind, M_bind, m_bind, attempt. rewrite Hrun.
    apply (keeps_books cfg task (-! tk_Quota task) w1). }
  injection Hframe as Hsubs Husage Hplans. split; [by rewrite Husage|].
  assert (Hs' : by_id (tk_SubscriptionId task) (user_subscriptions (w_db w')) = Some s').
  { rewrite Hsubs. cbn. rewrite <-Hid. exact (by_id_save_eq s' s _ (by_id_elem _ s (ac_subs _ _ _ _ Hacc) Hin)). }
  split; [by rewrite Hs'|]. intros Hacc'. apply by_id_Some in Hs' as [Hin' _].
  pose proof (ac_sub _ _ _ _ Hacc') as Hok'. rewrite Forall_forall in Hok'. specialize (Hok' s' Hin').
  pose proof (so_used _ _ _ Hok Hpack (not_billed _)) as Hused. pose proof (so_used _ _ _ Hok') as Hused'. rewrite Hplans, Husage in Hused'.
  specialize (Hused' Hpack (not_billed _)). change (us_AmountUsed s' = charged (usage_records (w_db w)) (us_Id s) (us_QuotaEpoch s)) in Hused'.
  cbn in Hused'. lia.
Qed.

(** ** Rate limits *)

(** A reply that says [429] as text leaves the task alone; one that says it as a number,
    which decodes to a [float64], ends the task as failed and is refunded. *)
Lemma numeric_429_fails r :
  ti_Status r = "" →
  empty_status (ReplyObject (Some (mkOpenAIError "slow down" (CodeText "429")))) r = Ok None ∧
  empty_status (ReplyObject (Some (mkOpenAIError "slow down" (CodeNumber (float_of_int 429))))) r =
    Ok (Some (FailTaskInfo "upstream returned error")).
Proof. intros Hr. unfold empty_status. split; (rewrite decide_True by done; vm_compute; reflexivity). Qed.

(** ** Timeouts *)

(** The date before which tasks time out without a refund is a year earlier than the
    comment on it says. *)
Lemma legacy_cutoff_2025 :
  legacyTaskCutoff = Date 0 (12 * 2025 + 1) 22 0 ∧ legacyTaskCutoff < Date 0 (12 * 2026 + 1) 22 0.
Proof. by vm_compute. Qed.

(** ** Examples *)

Definition video_task : Task :=
  mkTask 1 "task_1" 1 "default" 3 100 "IN_PROGRESS" "" 1800000000 0 0 "30%" "video-1" "" "wallet" 0 7 None "".
Definition video_world : World :=
  mkWorld (wallet_db <| tasks := Table [video_task] 2 |>) empty_stores.

Lemma video_token : token_known video_world video_task.
Proof. by split. Qed.

Lemma video_stores : stores_within 0 (w_stores video_world).
Proof. intros id. cbn -[pending]. rewrite pending_empty. lia. Qed.

Lemma task_settled_witness :
  ∃ w', RecalculateTaskQuota (mkConfig wallet_env true) video_task 130 video_world =
      (Ok (video_task <| tk_Quota := 130 |>), w') ∧
    charged_more video_task 30 1 video_world w'.
Proof.
  apply (task_settled (mkConfig wallet_env true) video_task 130 video_world 0);
    [done|exact video_token|lia|done|lia|exact video_stores|done].
Defined.

Definition no_groups : GroupSettings := mkGroups ∅ ∅ ∅ ∅ [].


Lemma suno_refunds_again_witness :
  let item := mkSuno "FAILURE" "rejected" 1800000000 0 0 "" in
  let update := update_suno (mkConfig wallet_env false) video_task item in
  charged_more video_task (- 200) 0 video_world (update (update video_world).2).2.
Proof.
  apply (suno_refunds_again (mkConfig wallet_env false) video_task (mkSuno "FAILURE" "rejected" 1800000000 0 0 "") video_world 0);
    [done|exact video_token|done|lia|exact video_stores|done|by vm_compute|done].
Defined.

(** The task of the request ["r1"], which the package 1 has paid. *)
Definition package_task : Task := video_task <| tk_Quota := 50 |> <| tk_BillingSource := "subscription" |> <| tk_SubscriptionId := 1 |>.

Lemma package_task_unbalanced_witness :
  let w' := (RefundTaskQuota (mkConfig limits_env false) package_task (mkWorld charged_db empty_stores)).2 in
  quota_of (usage_records (w_db w')) 1 "r1" = 50 ∧ ¬ Accounting (w_db w').
Proof.
  split; [by vm_compute|].
  apply (package_task_unbalanced (mkConfig limits_env false) package_task (mkWorld charged_db empty_stores)
    (example_sub <| us_AmountUsed := 50 |> <| us_UpdatedAt := 40000 |>)).
  - exact charged_accounting.
  - done.
  - cbn -[charged_db]. by rewrite charged_subs.
  - eexists. split; [vm_compute; reflexivity|reflexivity].
  - cbn. lia.
Defined.
