(* ===== verification/Checkins.v ===== *)
(** * Daily check-ins

    [model/checkin.go] and [setting/operation_setting/checkin_setting.go]: once a day a
    user may ask for a random amount of quota.  A request is modelled as the statements it
    sends, so that requests interleave between any two of them.  What is awarded stays
    within the configured range; however many requests of a user are under way, the unique
    index on user and date lets one of them through; and what the records of check-ins add
    up to is what the wallets have gained once the requests are answered.  The dates and the random number are arguments. *)
From S2P Require Import Prelude Tables GoTime GoFloat Schema Plans Windows Cycles Consume Accounting Ledger Preferences Cards Purchases Lifecycle Wallet Ratios Channels.

(** ** Definitions *)

Definition QuotaDisplayTypeCNY := "CNY".
Definition QuotaDisplayTypeTokens := "TOKENS".
Definition QuotaDisplayTypeCustom := "CUSTOM".

Record CheckinSetting := mkCheckinSetting { cs_Enabled : bool; cs_MinQuota : Z; cs_MaxQuota : Z }.

(** How amounts are displayed: [GetQuotaDisplayType], [USDExchangeRate],
    [CustomCurrencyExchangeRate] and [common.QuotaPerUnit]. *)
Record Display := mkDisplay {
  di_QuotaDisplayType : string;
  di_USDExchangeRate : float64;
  di_CustomCurrencyExchangeRate : float64;
  di_QuotaPerUnit : float64;
}.

Definition legacyCheckinDisplayAmountCompatibilityMax : Z := 100.

Definition checkinDisplayAmountToQuota (di : Display) (value : Z) : Z :=
  let exchanged rate :=
    let rate := if (rate <=? float_zero)%float then float_one else rate in
    int_of_float (float_mul (float_div (float_of_int value) rate) (di_QuotaPerUnit di)) in
  if decide (di_QuotaDisplayType di = QuotaDisplayTypeTokens) then value
  else if decide (di_QuotaDisplayType di = QuotaDisplayTypeCNY) then exchanged (di_USDExchangeRate di)
  else if decide (di_QuotaDisplayType di = QuotaDisplayTypeCustom) then exchanged (di_CustomCurrencyExchangeRate di)
  else int_of_float (float_mul (float_of_int value) (di_QuotaPerUnit di)).

Definition normalizeCheckinQuotaValue (di : Display) (value : Z) : Z :=
  if decide (value > 0 ∧ value ≤ legacyCheckinDisplayAmountCompatibilityMax) then checkinDisplayAmountToQuota di value
  else value.

Definition NormalizeCheckinQuotaRange (di : Display) (min max : Z) : Z * Z :=
  (normalizeCheckinQuotaValue di min, normalizeCheckinQuotaValue di max).

(** The records of a user whose date is between two dates, the latest first. *)
Definition by_date_desc (c1 c2 : Checkin) : Prop := string_le (ci_CheckinDate c2) (ci_CheckinDate c1).
Global Instance by_date_desc_dec : RelDecision by_date_desc := λ c1 c2, string_le_dec (ci_CheckinDate c2) (ci_CheckinDate c1).

Definition GetUserCheckinRecords (userId : Z) (startDate endDate : string) (db : DB) : list Checkin :=
  order_by by_date_desc
    (where_ (λ c, ci_UserId c = userId ∧ string_le startDate (ci_CheckinDate c) ∧ string_le (ci_CheckinDate c) endDate)
       (checkins db)).

Definition HasCheckedInToday (today : string) (userId : Z) (db : DB) : bool :=
  bool_decide (affected (λ c, ci_UserId c = userId ∧ ci_CheckinDate c = today) (checkins db) > 0).

Record CheckinStats := mkStats {
  st_total_quota : Z;
  st_total_checkins : Z;
  st_checkin_count : Z;
  st_checked_in_today : bool;
  st_records : list (string * Z);
}.

Definition GetUserCheckinStats (today : string) (userId : Z) (month : string) (db : DB) : CheckinStats :=
  let records := GetUserCheckinRecords userId (month +:+ "-01") (month +:+ "-31") db in
  let mine := where_ (λ c, ci_UserId c = userId) (checkins db) in
  mkStats (sumZ ci_QuotaAwarded mine) (Z.of_nat (length mine)) (Z.of_nat (length records))
    (HasCheckedInToday today userId db) ((λ r, (ci_CheckinDate r, ci_QuotaAwarded r)) <$> records).

(** [Create]: the pair of user and date is unique. *)
Definition same_day (c c' : Checkin) : Prop :=
  ci_UserId c' = ci_UserId c ∧ ci_CheckinDate c' = ci_CheckinDate c.
Global Instance same_day_dec c c' : Decision (same_day c c') := _.

Definition create_checkin (checkin : Checkin) : Tx Checkin :=
  db ← get;
  _ ← fail_if (where_ (same_day checkin) (checkins db) ≠ []) (ErrNew "签到失败，请稍后重试");
  _ ← modify (λ d, d <| checkins ::= insert_row checkin |>);
  mret (inserted checkin (checkins db)).

(** *** Statements and answers *)

(** A handler as the statements it sends to the database one after the other: between
    two of them other handlers may run. *)
Inductive Prog (A : Type) : Type :=
| Answer (r : result A)
| Statement {X : Type} (s : W X) (k : result X → Prog A).
Global Arguments Answer {A} r.
Global Arguments Statement {A X} s k.

(** A statement whose error is the answer. *)
Definition must {A X} (s : W X) (k : X → Prog A) : Prog A :=
  Statement s (λ r, match r with Ok x => k x | Err e => Answer (Err e) end).

(** A handler that nobody interrupts. *)
Fixpoint execute {A} (p : Prog A) : W A :=
  match p with
  | Answer r => λ w, (r, w)
  | Statement s k => λ w, let '(r, w') := s w in execute (k r) w'
  end.

(** *** Checking in *)

Definition userCheckinWithTransaction (checkin : Checkin) (userId quotaAwarded : Z) : Prog Checkin :=
  must (on_db (transaction (
    checkin ← create_checkin checkin;
    _ ← increaseUserQuota userId quotaAwarded;
    mret checkin))) (λ checkin, Answer (Ok checkin)).

(** The record of a check-in that could not be paid is deleted. *)
Definition delete_checkin (checkin : Checkin) : Prog Checkin :=
  Statement (on_db (modify (λ d, d <| checkins ::= delete_where (λ c, ci_Id c = ci_Id checkin) |>)))
    (λ _, Answer (Err (ErrNew "签到失败：更新额度出错"))).

Definition pay_checkin (cfg : Config) (checkin : Checkin) (userId quotaAwarded : Z) : Prog Checkin :=
  Statement (IncreaseUserQuota cfg userId quotaAwarded true)
    (λ r, match r with Ok _ => Answer (Ok checkin) | Err _ => delete_checkin checkin end).

Definition userCheckinWithoutTransaction (cfg : Config) (checkin : Checkin) (userId quotaAwarded : Z) : Prog Checkin :=
  must (on_db (create_checkin checkin)) (λ checkin, pay_checkin cfg checkin userId quotaAwarded).

(** The random amount; [rand.Intn] panics without a number to choose. *)
Definition award (Intn : Z → Z) (minQuota maxQuota : Z) : result Z :=
  if decide (maxQuota > minQuota) then
    if decide (maxQuota -! minQuota +! 1 ≤ 0) then Err ErrPanic
    else Ok (minQuota +! Intn (maxQuota -! minQuota +! 1))
  else Ok minQuota.

(** A request: the time it is made, the date when it looks at the records and the date it
    writes, and the random numbers it draws. *)
Record CheckinRequest := mkRequest {
  rq_UserId : Z;
  rq_checked : string;
  rq_today : string;
  rq_now : Z;
  rq_Intn : Z → Z;
}.

(** What a request does once it has found no check-in of today. *)
Definition award_checkin (cfg : Config) (usingSQLite : bool) (setting : CheckinSetting) (di : Display)
    (rq : CheckinRequest) : Prog Checkin :=
  let '(minQuota, maxQuota) := NormalizeCheckinQuotaRange di (cs_MinQuota setting) (cs_MaxQuota setting) in
  match award (rq_Intn rq) minQuota maxQuota with
  | Err e => Answer (Err e)
  | Ok quotaAwarded =>
    let checkin := mkCheckin 0 (rq_UserId rq) (rq_today rq) quotaAwarded (rq_now rq) in
    if usingSQLite then userCheckinWithoutTransaction cfg checkin (rq_UserId rq) quotaAwarded
    else userCheckinWithTransaction checkin (rq_UserId rq) quotaAwarded
  end.

Definition UserCheckin (cfg : Config) (usingSQLite : bool) (setting : CheckinSetting) (di : Display)
    (rq : CheckinRequest) : Prog Checkin :=
  if decide (cs_Enabled setting = false) then Answer (Err (ErrNew "签到功能未启用"))
  else must (w ← get; mret (HasCheckedInToday (rq_checked rq) (rq_UserId rq) (w_db w)))
    (λ hasChecked : bool, if hasChecked then Answer (Err (ErrNew "今日已签到"))
                          else award_checkin cfg usingSQLite setting di rq).

(** *** Requests at the same time *)

Definition send {A} (p : Prog A) (w : World) : Prog A * World :=
  match p with
  | Answer r => (p, w)
  | Statement s k => let '(r, w') := s w in (k r, w')
  end.

(** The handlers run in turns: the next one to send a statement is the next number of
    the schedule. *)
Fixpoint interleave {A} (schedule : list nat) (ps : list (Prog A)) (w : World) : list (Prog A) * World :=
  match schedule with
  | [] => (ps, w)
  | i :: rest =>
    match ps !! i with
    | None => interleave rest ps w
    | Some p => let '(p', w') := send p w in interleave rest (<[i := p']> ps) w'
    end
  end.

Definition answered {A} (ps : list (Prog A)) : Prop := Forall (λ p, ∃ r, p = Answer r) ps.

(** ** The amount *)

(** An amount within the configured range. *)
Lemma award_range Intn lo hi q :
  draws Intn → in_int64 lo → in_int64 hi → award Intn lo hi = Ok q → lo ≤ q ≤ Z.max lo hi.
Proof.
  unfold award, in_int64. intros Hi Hlo Hhi. case_decide as Hgt; [|intros [= <-]; lia].
  case_decide as Hn; [done|]. intros [= <-].
  destruct (decide (hi - lo + 1 ≤ max_int64)) as [Hfit|Hfit].
  - assert (Hw : hi -! lo +! 1 = hi - lo + 1) by (unwrap; lia). rewrite Hw in *.
    specialize (Hi (hi - lo + 1)). unwrap; lia.
  - exfalso. apply Hn. rewrite wrap64_wrap64_add. unfold wrap64. Z.to_euclidean_division_equations; lia.
Qed.

Lemma award_some Intn lo hi : 0 ≤ lo → hi < max_int64 → ∃ q, award Intn lo hi = Ok q.
Proof.
  intros Hlo Hhi. unfold award. case_decide; [|eauto]. rewrite decide_False; [eauto|]. unwrap. lia.
Qed.

(** ** Records and wallets *)

Definition day_of (c : Checkin) : Z * string := (ci_UserId c, ci_CheckinDate c).
Definition days_unique (db : DB) : Prop := table_wf (checkins db) ∧ NoDup (day_of <$> rows (checkins db)).

(** What the check-ins of a user have awarded, as the statistics report it. *)
Definition awarded (db : DB) (id : Z) : Z := st_total_quota (GetUserCheckinStats "" id "" db).
Definition quota_in (db : DB) (id : Z) : option Z := u_Quota <$> by_id id (users db).
Definition awards_kept (db db' : DB) : Prop :=
  ∀ id, quota_in db' id = Z.add (awarded db' id - awarded db id) <$> quota_in db id.

Lemma awarded_sum db id : awarded db id = sumZ (λ c, if decide (ci_UserId c = id) then ci_QuotaAwarded c else 0) (rows (checkins db)).
Proof. unfold awarded. cbn. unfold where_. by rewrite sumZ_filter. Qed.

Lemma awards_kept_same db db' : users db' = users db → rows (checkins db') = rows (checkins db) → awards_kept db db'.
Proof.
  intros Hu Hc id. unfold quota_in. rewrite !awarded_sum, Hu, Hc. destruct (by_id id (users db)); cbn; [f_equal; lia|done].
Qed.

Lemma awards_kept_trans db db1 db2 : awards_kept db db1 → awards_kept db1 db2 → awards_kept db db2.
Proof. intros H1 H2 id. rewrite H2, H1. destruct (quota_in db id); cbn; [f_equal; lia|done]. Qed.

Lemma quota_in_increase db id q i :
  quota_in (increaseUserQuota id q db).2 i = Z.add (if decide (i = id) then q else 0) <$> quota_in db i.
Proof.
  unfold quota_in, increaseUserQuota, modify. cbn [snd]. cbn. rewrite (by_id_update_where (λ u, u_Id u = id)) by done.
  destruct (by_id i (users db)) as [u|] eqn:E; [|done]. apply by_id_Some in E as [_ E]. cbn in *. f_equal.
  rewrite E. case_decide; cbn; lia.
Qed.

(** One check-in awarded: a record of a day that had none, and its amount. *)
Definition checked_in (db : DB) (c : Checkin) (db' : DB) : Prop :=
  where_ (same_day c) (checkins db) = [] ∧ checkins db' = insert_row c (checkins db) ∧
  ∀ id, quota_in db' id = Z.add (if decide (id = ci_UserId c) then ci_QuotaAwarded c else 0) <$> quota_in db id.

Lemma checked_in_kept db c db' : days_unique db → checked_in db c db' → days_unique db' ∧ awards_kept db db'.
Proof.
  intros [Hwf Hnd] (Hnone & Hc & Hq). split; [split|].
  - rewrite Hc. by apply wf_insert_row.
  - rewrite Hc. cbn. rewrite fmap_app. apply NoDup_app. split_and!; [done| |apply NoDup_singleton].
    intros x [c' [-> Hc']]%list_elem_of_fmap [=Hu Hd]%list_elem_of_singleton.
    apply (not_elem_of_nil c'). rewrite <-Hnone. apply where_elem. by repeat split.
  - intros id. rewrite Hq, !awarded_sum, Hc, sumZ_insert_row. cbn.
    destruct (quota_in db id); cbn; [f_equal|done]. repeat case_decide; congruence || lia.
Qed.

Lemma create_delete c (t : table Checkin) :
  table_wf t → rows (delete_where (λ x, ci_Id x = ci_Id (inserted c t)) (insert_row c t)) = rows t.
Proof.
  intros Hwf. cbn. rewrite filter_app, filter_cons, decide_False, app_nil_r by (cbn; intuition). apply filter_all.
  apply Forall_forall. intros x Hx. pose proof (wf_elem t x Hwf Hx) as Hb. cbn in *. lia.
Qed.

(** The outcomes of a request that is past its look at the records: it awards one
    check-in, or it fails and nothing has changed.  It fails when there is a check-in of
    the day by now, and without an amount that can be awarded. *)
Definition amount (di : Display) (setting : CheckinSetting) (rq : CheckinRequest) : result Z :=
  award (rq_Intn rq) (normalizeCheckinQuotaValue di (cs_MinQuota setting)) (normalizeCheckinQuotaValue di (cs_MaxQuota setting)).
Definition outcome (di : Display) (setting : CheckinSetting) (rq : CheckinRequest) (db : DB) (r : result Checkin) (db' : DB) : Prop :=
  match r with
  | Ok c => ci_UserId c = rq_UserId rq ∧ ci_CheckinDate c = rq_today rq ∧ checked_in db c db' ∧
      amount di setting rq = Ok (ci_QuotaAwarded c)
  | Err _ => users db' = users db ∧ rows (checkins db') = rows (checkins db) ∧ table_wf (checkins db') ∧
      ∀ q, amount di setting rq = Ok q → 0 ≤ q → HasCheckedInToday (rq_today rq) (rq_UserId rq) db = true
  end.

Lemma create_post checkin (Q : result Checkin → DB → Prop) db :
  (∀ e, HasCheckedInToday (ci_CheckinDate checkin) (ci_UserId checkin) db = true → Q (Err e) db) →
  (where_ (same_day checkin) (checkins db) = [] →
   Q (Ok (inserted checkin (checkins db))) (db <| checkins ::= insert_row checkin |>)) →
  wp (create_checkin checkin) Q db.
Proof.
  intros He Hok. unfold create_checkin. wp_step. wp_step. wp_step. apply wp_fail_if; intros Hn.
  - apply He, bool_decide_eq_true. unfold affected. change (where_ _ (checkins db)) with (where_ (same_day checkin) (checkins db)).
    by destruct (where_ _ _).
  - wp_step. wp_step. wp_step. apply Hok. by destruct (where_ _ _) eqn:E; [|destruct Hn].
Qed.

Lemma wp_statement {A X} (st : W X) (k : result X → Prog A) (Q : result A → World → Prop) w :
  wp st (λ r, wp (execute (k r)) Q) w → wp (execute (Statement st k)) Q w.
Proof. unfold wp. cbn. by destruct (st w). Qed.

Lemma execute_look {A X} (f : World → X) (k : X → Prog A) w :
  execute (must (w ← get; mret (f w)) k) w = execute (k (f w)) w.
Proof. done. Qed.

Lemma wp_answer {A} (r : result A) (Q : result A → World → Prop) w : Q r w → wp (execute (Answer r)) Q w.
Proof. done. Qed.

Lemma award_outcome cfg sqlite setting di rq w :
  table_wf (checkins (w_db w)) →
  wp (execute (award_checkin cfg sqlite setting di rq))
    (λ r w', w_stores w' = w_stores w ∧ outcome di setting rq (w_db w) r (w_db w')) w.
Proof.
  intros Hwf. unfold award_checkin, NormalizeCheckinQuotaRange.
  change (award _ _ _) with (amount di setting rq).
  destruct (amount di setting rq) as [q|e] eqn:Hq;
    [|apply wp_answer; split; [done|]; refine (conj eq_refl (conj eq_refl (conj Hwf _))); intros q Hq'; by rewrite Hq in Hq'].
  destruct sqlite.
  - apply wp_statement, wp_on_db, create_post; [by intros e He; apply wp_answer; split_and!|]. intros Hn.
    apply wp_statement. unfold IncreaseUserQuota. wp_step. apply wp_fail_if; intros Hneg.
    + apply wp_statement, wp_on_db. wp_step. apply wp_answer. split; [done|]. cbn -[delete_where insert_row inserted]. split_and!; [done|by apply create_delete| |].
      * apply wf_delete_where. by apply wf_insert_row.
      * intros q' Hq' Hpos. rewrite Hq in Hq'. injection Hq' as <-. lia.
    + cbn [negb andb]. apply wp_on_db. unfold increaseUserQuota. wp_step. apply wp_answer. split; [done|]. split_and!; [done..| |done].
      split_and!; [done..|]. intros id. by rewrite <-quota_in_increase.
  - apply wp_statement, wp_on_db. wp_step. wp_step. apply create_post; [by intros e He; apply wp_answer; split_and!|]. intros Hn.
    wp_step. unfold increaseUserQuota. wp_step. wp_step. apply wp_answer. split; [done|]. split_and!; [done..| |done].
    split_and!; [done..|]. intros id. by rewrite <-quota_in_increase.
Qed.

(** ** Requests at the same time *)

Section Requests.
Context (cfg : Config) (sqlite : bool) (setting : CheckinSetting) (di : Display).

(** How far a request is, and the record it has written but not paid. *)
Inductive stage : Prog Checkin → option Checkin → Prop :=
| stage_answer r : stage (Answer r) None
| stage_start rq : stage (UserCheckin cfg sqlite setting di rq) None
| stage_award rq : stage (award_checkin cfg sqlite setting di rq) None
| stage_pay c : stage (pay_checkin cfg c (ci_UserId c) (ci_QuotaAwarded c)) (Some c)
| stage_delete c : stage (delete_checkin c) (Some c).

Definition unpaid (id : Z) (o : option Checkin) : Z :=
  match o with
  | Some c => if decide (ci_UserId c = id) then ci_QuotaAwarded c else 0
  | None => 0
  end.

(** What one statement of a request does to the records and the wallets. *)
Record advanced (db db' : DB) (o o' : option Checkin) : Prop := {
  ad_unique : days_unique db';
  ad_quota id : quota_in db' id = Z.add (awarded db' id - awarded db id - unpaid id o' + unpaid id o) <$> quota_in db id;
  ad_kept c : c ∈ rows (checkins db) → (∀ c0, o = Some c0 → ci_Id c ≠ ci_Id c0) → c ∈ rows (checkins db');
  ad_mine c : o' = Some c → c ∈ rows (checkins db') ∧ (o = Some c ∨ ∀ x, x ∈ rows (checkins db) → ci_Id x ≠ ci_Id c);
}.

Lemma advanced_same db o : days_unique db → (∀ c, o = Some c → c ∈ rows (checkins db)) → advanced db db o o.
Proof.
  intros Hd Ho. split; [done| |done|by eauto].
  intros id. destruct (quota_in db id); cbn; [f_equal; lia|done].
Qed.

Lemma advanced_checked_in db c db' : days_unique db → checked_in db c db' → advanced db db' None None.
Proof.
  intros Hd Hc. destruct (checked_in_kept _ _ _ Hd Hc) as [Hd' Hk]. split; [done| |intros x Hx _|done].
  - intros id. rewrite Hk. destruct (quota_in db id); cbn; [f_equal; lia|done].
  - destruct Hc as (_ & -> & _). apply elem_of_app. by left.
Qed.

Lemma advanced_create db c :
  days_unique db → where_ (same_day c) (checkins db) = [] →
  advanced db (db <| checkins ::= insert_row c |>) None (Some (inserted c (checkins db))).
Proof.
  intros Hd Hn. split.
  - split; [apply wf_insert_row, Hd|]. cbn. rewrite fmap_app. apply NoDup_app. split_and!; [apply Hd| |apply NoDup_singleton].
    intros x [c' [-> Hc']]%list_elem_of_fmap [=Hu Hdt]%list_elem_of_singleton.
    apply (not_elem_of_nil c'). rewrite <-Hn. apply where_elem. by repeat split.
  - intros id. rewrite !awarded_sum. cbn -[insert_row]. rewrite sumZ_insert_row. unfold quota_in. cbn -[by_id].
    destruct (by_id id (users db)); cbn; [f_equal; lia|done].
  - intros x Hx _. apply elem_of_app. by left.
  - intros x [= <-]. split; [apply elem_of_app; right; by apply list_elem_of_singleton|]. right. intros x Hx.
    pose proof (wf_elem _ x (proj1 Hd) Hx) as Hb. cbn in *. lia.
Qed.

Lemma advanced_pay db c :
  days_unique db → advanced db (increaseUserQuota (ci_UserId c) (ci_QuotaAwarded c) db).2 (Some c) None.
Proof.
  intros Hd. split; [exact Hd| |intros x Hx _; exact Hx|done].
  intros id. rewrite quota_in_increase. change (awarded (increaseUserQuota _ _ db).2 id) with (awarded db id).
  destruct (quota_in db id); cbn; [f_equal|done]. repeat case_decide; congruence || lia.
Qed.

Lemma advanced_delete db c :
  days_unique db → c ∈ rows (checkins db) →
  advanced db (db <| checkins ::= delete_where (λ x, ci_Id x = ci_Id c) |>) (Some c) None.
Proof.
  intros [Hwf Hnd] Hc.
  assert (Hs : ∀ f, sumZ f (rows (delete_where (λ x, ci_Id x = ci_Id c) (checkins db))) = sumZ f (rows (checkins db)) - f c)
    by (intros f; exact (sumZ_delete f _ c Hwf Hc)).
  split.
  - split; [by apply wf_delete_where|]. cbn. eapply sublist_NoDup; [exact Hnd|apply fmap_sublist, sublist_filter].
  - intros id. rewrite !awarded_sum. cbn -[delete_where]. rewrite Hs. unfold quota_in. cbn -[by_id].
    destruct (by_id id (users db)); cbn; [f_equal; lia|done].
  - intros x Hx Hne. apply list_elem_of_filter. split; [by apply Hne|done].
  - done.
Qed.

Lemma stage_advance p o w :
  stage p o → days_unique (w_db w) → (∀ c, o = Some c → c ∈ rows (checkins (w_db w))) →
  ∃ o', stage (send p w).1 o' ∧ advanced (w_db w) (w_db (send p w).2) o o'.
Proof.
  intros Hp Hd Ho. assert (Hsame := advanced_same _ _ Hd Ho).
  assert (Hst : ∀ X (st : W X) k, wp st (λ r w', ∃ o', stage (k r) o' ∧ advanced (w_db w) (w_db w') o o') w →
    ∃ o', stage (send (Statement st k) w).1 o' ∧ advanced (w_db w) (w_db (send (Statement st k) w).2) o o').
  { intros X st k. unfold wp. cbn. by destruct (st w). }
  destruct Hp as [r|rq|rq|c|c].
  - exists None. split; [constructor|done].
  - unfold UserCheckin. case_decide; [exists None; split; [constructor|done]|]. apply Hst. wp_step. wp_step. wp_step.
    exists None. split; [|done]. destruct (HasCheckedInToday _ _ _); constructor.
  - unfold award_checkin. destruct (NormalizeCheckinQuotaRange _ _ _) as [lo hi].
    destruct (award _ lo hi) as [q|e]; [|exists None; split; [constructor|done]]. destruct sqlite; apply Hst, wp_on_db.
    + apply create_post; [intros e _; exists None; split; [constructor|done]|]. intros Hn.
      eexists. split; [exact (stage_pay (inserted _ _))|by apply advanced_create].
    + wp_step. wp_step. apply create_post; [intros e _; exists None; split; [constructor|done]|]. intros Hn.
      wp_step. unfold increaseUserQuota. wp_step. wp_step. exists None. split; [constructor|].
      apply (advanced_checked_in _ (inserted (mkCheckin 0 (rq_UserId rq) (rq_today rq) q (rq_now rq)) (checkins (w_db w)))); [done|].
      split_and!; [done..|]. intros id. by rewrite <-quota_in_increase.
  - apply Hst. unfold IncreaseUserQuota. wp_step. apply wp_fail_if; intros Hneg.
    + exists (Some c). split; [constructor|done].
    + cbn [negb andb]. apply wp_on_db. unfold increaseUserQuota. wp_step. exists None. split; [constructor|by apply advanced_pay].
  - apply Hst, wp_on_db. wp_step. exists None. split; [constructor|]. by apply advanced_delete, Ho.
Qed.

(** Requests that are under way: the records they have not paid are different ones, and
    but for those the wallets have gained what is recorded. *)
Record under_way (db0 : DB) (ps : list (Prog Checkin)) (os : list (option Checkin)) (db : DB) : Prop := {
  uw_stages : Forall2 stage ps os;
  uw_unique : days_unique db;
  uw_mine i c : os !! i = Some (Some c) → c ∈ rows (checkins db);
  uw_apart i j c c' : os !! i = Some (Some c) → os !! j = Some (Some c') → ci_Id c = ci_Id c' → i = j;
  uw_quota id : quota_in db id = Z.add (awarded db id - awarded db0 id - sumZ (unpaid id) os) <$> quota_in db0 id;
}.

Lemma under_way_advance db0 ps os db i p o p' o' db' :
  under_way db0 ps os db → ps !! i = Some p → os !! i = Some o → stage p' o' → advanced db db' o o' →
  under_way db0 (<[i := p']> ps) (<[i := o']> os) db'.
Proof.
  intros [Hs Hu Hm Ha Hq] Hp Ho Hp' [Hu' Hq' Hk' Hm'].
  assert (Hother : ∀ j c, j ≠ i → os !! j = Some (Some c) → ∀ c0, o = Some c0 → ci_Id c ≠ ci_Id c0).
  { intros j c Hj Hc c0 -> Hid. by apply Hj, (Ha j i c c0). }
  assert (Hnew : ∀ j c c', j ≠ i → os !! j = Some (Some c) → o' = Some c' → ci_Id c ≠ ci_Id c').
  { intros j c c' Hj Hc Hc'. destruct (Hm' c' Hc') as [_ [->|Hf]]; [by eapply Hother|]. by apply Hf, (Hm j). }
  split; [by apply Forall2_insert|done|..].
  - intros j c. destruct (decide (j = i)) as [->|Hj].
    + rewrite list_lookup_insert_eq by (by eapply lookup_lt_Some). intros [= Hc]. by apply Hm'.
    + rewrite list_lookup_insert_ne by done. intros Hc. apply Hk'; [by apply (Hm j)|by eapply Hother].
  - intros j k c c'. destruct (decide (j = i)) as [->|Hj], (decide (k = i)) as [->|Hk]; [done|..];
      rewrite ?list_lookup_insert_eq, ?list_lookup_insert_ne by (done || by eapply lookup_lt_Some).
    + intros [= Hc] Hc' Hid. by destruct (Hnew k c' c Hk Hc' Hc).
    + intros Hc [= Hc'] Hid. by destruct (Hnew j c c' Hj Hc Hc').
    + apply Ha.
  - intros id. rewrite Hq', Hq, (sumZ_set _ _ _ _ o) by done. destruct (quota_in db0 id); cbn; [f_equal; lia|done].
Qed.

Lemma under_way_start db requests :
  days_unique db → under_way db (UserCheckin cfg sqlite setting di <$> requests) ((λ _, None) <$> requests) db.
Proof.
  intros Hd. split; [|done|..].
  - induction requests; constructor; [constructor|done].
  - intros i c. rewrite list_lookup_fmap. by destruct (requests !! i).
  - intros i j c c'. rewrite list_lookup_fmap. by destruct (requests !! i).
  - intros id. rewrite sumZ_zero; [|apply Forall_fmap, Forall_forall; done].
    destruct (quota_in db id); cbn; [f_equal; lia|done].
Qed.

Lemma under_way_run db0 schedule ps os w :
  under_way db0 ps os (w_db w) →
  ∃ os', under_way db0 (interleave schedule ps w).1 os' (w_db (interleave schedule ps w).2).
Proof.
  revert ps os w. induction schedule as [|i rest IH]; intros ps os w Hu; [by exists os|]. cbn.
  destruct (ps !! i) as [p|] eqn:Hp; [|by eapply IH].
  destruct (Forall2_lookup_l _ _ _ _ _ (uw_stages _ _ _ _ Hu) Hp) as (o & Ho & Hs).
  destruct (stage_advance p o w Hs (uw_unique _ _ _ _ Hu)) as (o' & Hs' & Had).
  { intros c ->. by apply (uw_mine _ _ _ _ Hu i). }
  destruct (send p w) as [p' w'] eqn:E. cbn in *. eapply IH. by eapply under_way_advance.
Qed.

Lemma answered_paid ps os id : Forall2 stage ps os → answered ps → sumZ (unpaid id) os = 0.
Proof.
  intros Hs Ha. apply sumZ_zero. induction Hs as [|p o ps os Hp Hs IH]; constructor.
  - apply Forall_cons in Ha as [[r ->] _]. inversion Hp as [r'|rq He|rq He|c He|c He]; subst; done.
  - apply Forall_cons in Ha as [_ Ha]. by apply IH.
Qed.

Lemma unique_affected db id date :
  days_unique db → affected (λ c, ci_UserId c = id ∧ ci_CheckinDate c = date) (checkins db) ≤ 1.
Proof.
  intros [_ Hnd]. unfold affected, where_. induction (rows (checkins db)) as [|c l IH]; [done|].
  cbn in Hnd. apply NoDup_cons in Hnd as [Hc Hnd]. rewrite filter_cons. case_decide as Hday; [|by apply IH].
  rewrite filter_none; [done|]. intros c' Hc' [Hu Hdt]. apply Hc.
  apply list_elem_of_fmap. exists c'. split; [|done]. unfold day_of. destruct Hday. congruence.
Qed.

(** C35: whatever requests are made and in whatever order their statements reach the
    database, there is at any moment at most one check-in of a user on a date; and once
    every request has been answered, every wallet has gained exactly what the statistics
    of its user report. *)
Theorem checkin_once requests schedule w :
  days_unique (w_db w) →
  let '(ps, w') := interleave schedule (UserCheckin cfg sqlite setting di <$> requests) w in
  (∀ id date, affected (λ c, ci_UserId c = id ∧ ci_CheckinDate c = date) (checkins (w_db w')) ≤ 1) ∧
  (answered ps → awards_kept (w_db w) (w_db w')).
Proof.
  intros Hd. destruct (under_way_run _ schedule _ _ w (under_way_start _ requests Hd)) as [os Hu].
  destruct (interleave _ _ w) as [ps w'] eqn:E. cbn in Hu. split; [intros; by apply unique_affected, Hu|].
  intros Ha id. rewrite (uw_quota _ _ _ _ Hu), (answered_paid ps) by (done || apply Hu).
  destruct (quota_in _ _); cbn; [f_equal; lia|done].
Qed.

(** A request has at most four statements to send. *)
Fixpoint ends_in {A} (n : nat) (p : Prog A) {struct p} : Prop :=
  match p with
  | Answer _ => True
  | Statement _ k => match n with O => False | S n => ∀ r, ends_in n (k r) end
  end.

Lemma checkin_ends rq : ends_in 4 (UserCheckin cfg sqlite setting di rq).
Proof.
  unfold UserCheckin. case_decide; [done|]. intros [[]|e]; [done| |done].
  unfold award_checkin. destruct (NormalizeCheckinQuotaRange _ _ _). destruct (award _ _ _); [|done].
  destruct sqlite; intros [c|e]; try done. by intros [[]|e].
Qed.

Lemma ends_answered {A} (schedule : list nat) (ps : list (Prog A)) w :
  (∀ i p, ps !! i = Some p → ends_in (count_occ Nat.eq_dec schedule i) p) →
  answered (interleave schedule ps w).1.
Proof.
  revert ps w. induction schedule as [|i rest IH]; intros ps w Hends.
  - apply Forall_lookup. intros i p Hp. specialize (Hends i p Hp). destruct p; [eauto|done].
  - cbn [interleave]. destruct (ps !! i) as [p|] eqn:Hp.
    + destruct (send p w) as [p' w'] eqn:E. apply IH. intros j q. destruct (decide (j = i)) as [->|Hj].
      * rewrite list_lookup_insert_eq by (by eapply lookup_lt_Some). intros [= <-]. specialize (Hends i p Hp).
        rewrite count_occ_cons_eq in Hends by done.
        destruct p as [r|X st k]; cbn in E; [injection E as <- <-; exact I|].
        destruct (st w) as [r w1]. injection E as <- <-. apply Hends.
      * rewrite list_lookup_insert_ne by done. intros Hq. specialize (Hends j q Hq). by rewrite count_occ_cons_neq in Hends by done.
    + apply IH. intros j q Hq. specialize (Hends j q Hq). rewrite count_occ_cons_neq in Hends; [done|]. intros ->. congruence.
Qed.

(** Requests that get their turns are answered, whatever the others do. *)
Theorem checkins_answered requests schedule w :
  (∀ i, (i < length requests)%nat → count_occ Nat.eq_dec schedule i = 4%nat) →
  answered (interleave schedule (UserCheckin cfg sqlite setting di <$> requests) w).1.
Proof.
  intros Hturns. apply ends_answered. intros i p Hp.
  rewrite Hturns by (apply lookup_lt_Some in Hp; by rewrite length_fmap in Hp).
  rewrite list_lookup_fmap in Hp. destruct (requests !! i) as [rq|]; [|done]. injection Hp as <-. apply checkin_ends.
Qed.

Lemma checked_in_today c db db' :
  checked_in db c db' → HasCheckedInToday (ci_CheckinDate c) (ci_UserId c) db' = true.
Proof.
  intros (_ & Hc & _). unfold HasCheckedInToday. rewrite Hc. apply bool_decide_eq_true. rewrite affected_sum, sumZ_insert_row.
  rewrite decide_True by done. match goal with |- sumZ ?f ?l + _ > 0 => enough (0 ≤ sumZ f l) by lia end.
  apply sumZ_nonneg, Forall_forall. intros x _. case_decide; lia.
Qed.

(** A user who has not checked in today is awarded an amount of the configured range, on
    every database; any further request of the day is turned away and changes nothing. *)
Theorem checkin_awards rq w :
  let lo := normalizeCheckinQuotaValue di (cs_MinQuota setting) in
  let hi := normalizeCheckinQuotaValue di (cs_MaxQuota setting) in
  days_unique (w_db w) → cs_Enabled setting = true → draws (rq_Intn rq) → rq_checked rq = rq_today rq →
  0 ≤ lo → in_int64 lo → in_int64 hi → hi < max_int64 →
  HasCheckedInToday (rq_today rq) (rq_UserId rq) (w_db w) = false →
  ∃ c w', execute (UserCheckin cfg sqlite setting di rq) w = (Ok c, w') ∧
    lo ≤ ci_QuotaAwarded c ≤ Z.max lo hi ∧
    (∀ id, quota_in (w_db w') id = Z.add (if decide (id = rq_UserId rq) then ci_QuotaAwarded c else 0) <$> quota_in (w_db w) id) ∧
    ∀ rq', rq_UserId rq' = rq_UserId rq → rq_checked rq' = rq_today rq →
      execute (UserCheckin cfg sqlite setting di rq') w' = (Err (ErrNew "今日已签到"), w').
Proof.
  intros lo hi Hd Hen Hi Hsame Hlo Hlo64 Hhi64 Hhi Hnot.
  destruct (award_some (rq_Intn rq) lo hi) as [q Hq]; [done..|]. pose proof (award_range _ _ _ _ Hi Hlo64 Hhi64 Hq) as Hr.
  destruct (execute (award_checkin cfg sqlite setting di rq) w) as [r w'] eqn:Hrun.
  destruct (wp_run _ _ _ _ _ (award_outcome cfg sqlite setting di rq w (proj1 Hd)) Hrun) as [_ Ho].
  destruct r as [c|e]; [|destruct Ho as (_ & _ & _ & Hhas); by rewrite (Hhas q Hq ltac:(lia)) in Hnot].
  destruct Ho as (Hu & Hdate & Hc & Ha). unfold amount in Ha. fold lo hi in Ha. rewrite Hq in Ha. injection Ha as ->.
  pose proof (checked_in_today _ _ _ Hc) as Htoday. rewrite Hu, Hdate in Htoday. destruct Hc as (_ & _ & Hquota). rewrite Hu in Hquota.
  exists c, w'. split; [|split; [exact Hr|split; [exact Hquota|]]].
  - unfold UserCheckin. rewrite Hsame, Hen, decide_False by done. rewrite execute_look. by rewrite Hnot.
  - intros rq' Hu' Hc'. unfold UserCheckin. rewrite Hu', Hc', Hen, decide_False by done.
    rewrite execute_look. by rewrite Htoday.
Qed.
End Requests.

(** The two ends of the range are converted separately: with a range from 50 to 200 the
    lower end is taken for an amount of money and the upper end for quota, so that the
    award is 25000000 quota, far above the range either way. *)
Definition usd_display : Display := mkDisplay "USD" float_one float_one (float_of_int 500000).

Theorem checkin_range_inverted cfg sqlite rq w c w' :
  execute (UserCheckin cfg sqlite (mkCheckinSetting true 50 200) usd_display rq) w = (Ok c, w') →
  days_unique (w_db w) →
  ci_QuotaAwarded c = 25000000 ∧ normalizeCheckinQuotaValue usd_display 200 = 200.
Proof.
  intros Hrun Hd. split; [|by vm_compute].
  assert (H : wp (execute (UserCheckin cfg sqlite (mkCheckinSetting true 50 200) usd_display rq))
    (λ r _, match r with Ok c => ci_QuotaAwarded c = 25000000 | Err _ => True end) w); [|exact (wp_run _ _ _ _ _ H Hrun)].
  unfold UserCheckin. rewrite decide_False by done. apply wp_statement. wp_step. wp_step. wp_step.
  destruct (HasCheckedInToday _ _ _); [done|].
  eapply wp_mono; [apply award_outcome, Hd|]. intros [c'|e] w1 [_ Ho]; [|done]. destruct Ho as (_ & _ & _ & Ha).
  assert (Hq : amount usd_display (mkCheckinSetting true 50 200) rq = Ok 25000000) by by vm_compute.
  rewrite Hq in Ha. by injection Ha as <-.
Qed.

(** ** Examples *)

Definition checkin_setting : CheckinSetting := mkCheckinSetting true 1000 5000.
Definition some_request (id now : Z) : CheckinRequest := mkRequest id "2026-07-01" "2026-07-01" now (λ n, Z.div n 2).
Definition checkin_world : World := mkWorld wallet_db empty_stores.

Lemma checkin_days : days_unique (w_db checkin_world).
Proof. split; [split_and!; repeat constructor|constructor]. Qed.

(** Three requests of a user whose statements are mixed. *)
Definition three_requests : list CheckinRequest := [some_request 1 10; some_request 1 11; some_request 1 12].
Definition mixed : list nat := [0; 1; 2; 1; 0; 2; 1; 0; 2; 0; 1; 2]%nat.
Definition mixed_run : list (Prog Checkin) * World :=
  interleave mixed (UserCheckin (mkConfig wallet_env false) true checkin_setting usd_display <$> three_requests) checkin_world.

Lemma checkin_once_witness :
  quota_in (w_db mixed_run.2) 1 = Some 3500 ∧
  (∀ id date, affected (λ c, ci_UserId c = id ∧ ci_CheckinDate c = date) (checkins (w_db mixed_run.2)) ≤ 1) ∧
  awards_kept (w_db checkin_world) (w_db mixed_run.2).
Proof.
  split; [by vm_compute|].
  pose proof (checkin_once (mkConfig wallet_env false) true checkin_setting usd_display three_requests mixed checkin_world checkin_days) as H.
  fold mixed_run in H. assert (Ha : answered mixed_run.1).
  { apply checkins_answered. intros [|[|[|i]]] Hi; [done|done|done|cbn in Hi; lia]. }
  destruct mixed_run as [ps w']. destruct H as [Hone Hkept]. exact (conj Hone (Hkept Ha)).
Defined.

Lemma checkin_awards_witness :
  ∃ c w', execute (UserCheckin (mkConfig wallet_env false) false checkin_setting usd_display (some_request 1 10)) checkin_world = (Ok c, w') ∧
    1000 ≤ ci_QuotaAwarded c ≤ 5000.
Proof.
  destruct (checkin_awards (mkConfig wallet_env false) false checkin_setting usd_display (some_request 1 10) checkin_world)
    as (c & w' & Hrun & Hr & _); [exact checkin_days|done| |done|by vm_compute|by vm_compute|by vm_compute|by vm_compute|by vm_compute|].
  - intros n Hn. cbn. split; [apply Z.div_pos; lia|apply Z.div_lt; lia].
  - exists c, w'. split; [exact Hrun|exact Hr].
Defined.

Lemma checkin_range_inverted_witness :
  let c := mkCheckin 1 1 "2026-07-01" 25000000 10 in
  (execute (UserCheckin (mkConfig wallet_env false) false (mkCheckinSetting true 50 200) usd_display (some_request 1 10)) checkin_world).1 = Ok c ∧
  ci_QuotaAwarded c = 25000000 ∧ normalizeCheckinQuotaValue usd_display 200 = 200.
Proof.
  split; [by vm_compute|].
  apply (checkin_range_inverted (mkConfig wallet_env false) false (some_request 1 10) checkin_world _
    (execute (UserCheckin (mkConfig wallet_env false) false (mkCheckinSetting true 50 200) usd_display (some_request 1 10)) checkin_world).2);
    [vm_compute; reflexivity|exact checkin_days].
Defined.
