(* ===== verification/Idempotency.v ===== *)
(** * Requests that are executed once

    [infra/sub2api/backend/internal/service/idempotency.go] with its repository
    ([internal/repository/idempotency_repo.go]) and the redaction of what it stores
    ([internal/util/logredact/redact.go]): a write request carries a key, its first call
    runs and stores the answer, and later calls with the key get the stored answer.
    Calls run at the same time on several processes, so the coordinator is a program over
    the statements of the repository ([prog]); [run] executes one by itself and [istep]
    interleaves any number of them.  Instants are in microseconds, the resolution of the
    database.  Metrics and the audit log are left out. *)
From S2P Require Import Prelude GoText Tables.

(** ** Definitions *)

(** *** Errors *)

(** [infraerrors.ApplicationError]: its code, its reason and the only metadata set here. *)
Record AppError := mkApp { ae_Code : Z; ae_Reason : string; ae_RetryAfter : option Z }.
Global Instance AppError_eta : Settable AppError := λ e, mkApp (ae_Code e) (ae_Reason e) (ae_RetryAfter e).

Definition ErrIdempotencyKeyRequired := mkApp 400 "IDEMPOTENCY_KEY_REQUIRED" None.
Definition ErrIdempotencyKeyInvalid := mkApp 400 "IDEMPOTENCY_KEY_INVALID" None.
Definition ErrIdempotencyKeyConflict := mkApp 409 "IDEMPOTENCY_KEY_CONFLICT" None.
Definition ErrIdempotencyInProgress := mkApp 409 "IDEMPOTENCY_IN_PROGRESS" None.
Definition ErrIdempotencyRetryBackoff := mkApp 409 "IDEMPOTENCY_RETRY_BACKOFF" None.
Definition ErrIdempotencyStoreUnavail := mkApp 503 "IDEMPOTENCY_STORE_UNAVAILABLE" None.
Definition ErrIdempotencyInvalidPayload := mkApp 400 "IDEMPOTENCY_PAYLOAD_INVALID" None.

Definition RetryAfterSecondsFromError (err : AppError) : Z :=
  match ae_RetryAfter err with Some seconds => if decide (seconds ≤ 0) then 0 else seconds | None => 0 end.

(** *** The store *)

Definition IdempotencyStatusProcessing := "processing".
Definition IdempotencyStatusSucceeded := "succeeded".
Definition IdempotencyStatusFailedRetryable := "failed_retryable".

Record IdempotencyRecord := mkIdem {
  ir_ID : Z;
  ir_Scope : string;
  ir_IdempotencyKeyHash : string;
  ir_RequestFingerprint : string;
  ir_Status : string;
  ir_ResponseStatus : option Z;
  ir_ResponseBody : option string;
  ir_ErrorReason : option string;
  ir_LockedUntil : option Z;
  ir_ExpiresAt : Z;
}.
Global Instance IdempotencyRecord_eta : Settable IdempotencyRecord := λ r,
  mkIdem (ir_ID r) (ir_Scope r) (ir_IdempotencyKeyHash r) (ir_RequestFingerprint r) (ir_Status r) (ir_ResponseStatus r)
    (ir_ResponseBody r) (ir_ErrorReason r) (ir_LockedUntil r) (ir_ExpiresAt r).
Global Program Instance IdempotencyRecord_row : Row IdempotencyRecord := {|
  row_id := ir_ID;
  with_row_id i r := r <| ir_ID := i |>;
|}.
Next Obligation. done. Qed.

Definition record_key (r : IdempotencyRecord) : string * string := (ir_Scope r, ir_IdempotencyKeyHash r).

(** [INSERT ... ON CONFLICT (scope, idempotency_key_hash) DO NOTHING]: the new key, if any. *)
Definition CreateProcessing (record : IdempotencyRecord) (t : table IdempotencyRecord) : option Z * table IdempotencyRecord :=
  match first (λ r, record_key r = record_key record) t with
  | Some _ => (None, t)
  | None =>
    (Some (next_id t),
     insert_row (record <| ir_ResponseStatus := None |> <| ir_ResponseBody := None |> <| ir_ErrorReason := None |>) t)
  end.

Definition GetByScopeAndKeyHash (scope keyHash : string) (t : table IdempotencyRecord) : option IdempotencyRecord :=
  first (λ r, record_key r = (scope, keyHash)) t.

Definition reclaimable (id : Z) (fromStatus : string) (now : Z) (r : IdempotencyRecord) : Prop :=
  ir_ID r = id ∧ ir_Status r = fromStatus ∧ match ir_LockedUntil r with None => True | Some l => l ≤ now end.
Global Instance reclaimable_dec id fromStatus now r : Decision (reclaimable id fromStatus now r).
Proof. unfold reclaimable. destruct (ir_LockedUntil r); apply _. Defined.

Definition TryReclaim (id : Z) (fromStatus : string) (now newLockedUntil newExpiresAt : Z) (t : table IdempotencyRecord) :
    bool * table IdempotencyRecord :=
  (bool_decide (affected (reclaimable id fromStatus now) t > 0),
   update_where (reclaimable id fromStatus now)
     (λ r, r <| ir_Status := IdempotencyStatusProcessing |> <| ir_LockedUntil := Some newLockedUntil |>
             <| ir_ErrorReason := None |> <| ir_ExpiresAt := newExpiresAt |>) t).

Definition extendable (id : Z) (requestFingerprint : string) (r : IdempotencyRecord) : Prop :=
  ir_ID r = id ∧ ir_Status r = IdempotencyStatusProcessing ∧ ir_RequestFingerprint r = requestFingerprint.
Global Instance extendable_dec id fp r : Decision (extendable id fp r) := _.

Definition ExtendProcessingLock (id : Z) (requestFingerprint : string) (newLockedUntil newExpiresAt : Z)
    (t : table IdempotencyRecord) : bool * table IdempotencyRecord :=
  (bool_decide (affected (extendable id requestFingerprint) t > 0),
   update_where (extendable id requestFingerprint)
     (λ r, r <| ir_LockedUntil := Some newLockedUntil |> <| ir_ExpiresAt := newExpiresAt |>) t).

Definition MarkSucceeded (id responseStatus : Z) (responseBody : string) (expiresAt : Z) (t : table IdempotencyRecord) :
    table IdempotencyRecord :=
  update_where (λ r, ir_ID r = id)
    (λ r, r <| ir_Status := IdempotencyStatusSucceeded |> <| ir_ResponseStatus := Some responseStatus |>
            <| ir_ResponseBody := Some responseBody |> <| ir_ErrorReason := None |> <| ir_LockedUntil := None |>
            <| ir_ExpiresAt := expiresAt |>) t.

Definition MarkFailedRetryable (id : Z) (errorReason : string) (lockedUntil expiresAt : Z) (t : table IdempotencyRecord) :
    table IdempotencyRecord :=
  update_where (λ r, ir_ID r = id)
    (λ r, r <| ir_Status := IdempotencyStatusFailedRetryable |> <| ir_ErrorReason := Some errorReason |>
            <| ir_LockedUntil := Some lockedUntil |> <| ir_ExpiresAt := expiresAt |>) t.

Definition by_expiry : relation IdempotencyRecord := λ a b, ir_ExpiresAt a ≤ ir_ExpiresAt b.
Global Instance by_expiry_dec : RelDecision by_expiry.
Proof. intros a b. unfold by_expiry. apply _. Defined.

Definition DeleteExpired (now limit : Z) (t : table IdempotencyRecord) : Z * table IdempotencyRecord :=
  let limit := if decide (limit ≤ 0) then 500 else limit in
  let victims := take (Z.to_nat limit) (order_by by_expiry (where_ (λ r, ir_ExpiresAt r ≤ now) t)) in
  let P := λ r, ir_ID r ∈ (ir_ID <$> victims) in
  (affected P t, delete_where P t).

(** *** Encoding *)

(** A decoded JSON value; a number is its text. *)
Inductive json :=
| JNull
| JBool (b : bool)
| JNumber (text : string)
| JString (s : string)
| JArray (l : list json)
| JObject (l : list (string * json)).

(** [encoding/json], [crypto/sha256] and [regexp]: [Any] are the values a handler may
    return, [Encode] is [Marshal] of a decoded value, [redact_patterns] replaces the
    secrets of a text that is not JSON. *)
Class Encoding := {
  Any : Type;
  Marshal : Any → option string;
  Valid : string → bool;
  Unmarshal : string → option json;
  Encode : json → string;
  sha256_hex : string → string;
  redact_patterns : string → string;
}.

(** *** Redaction *)

Definition maxRedactDepth : nat := 32.
Definition defaultSensitiveKeys : list string :=
  ["authorization_code"; "code"; "code_verifier"; "access_token"; "refresh_token"; "id_token"; "client_secret"; "password"].
Definition normalizeKey (key : string) : string := ToLower (TrimSpace key).
Definition isSensitiveKey (key : string) : bool := bool_decide (normalizeKey key ∈ defaultSensitiveKeys).

Fixpoint redactValueWithDepth (value : json) (depth : nat) : json :=
  if decide (maxRedactDepth < depth)%nat then JString "<depth limit exceeded>"
  else match value with
       | JObject l =>
         JObject ((fix fields (l : list (string * json)) : list (string * json) :=
           match l with
           | [] => []
           | (k, v) :: l => (k, if isSensitiveKey k then JString "***" else redactValueWithDepth v (S depth)) :: fields l
           end) l)
       | JArray l =>
         JArray ((fix items (l : list json) : list json :=
           match l with [] => [] | v :: l => redactValueWithDepth v (S depth) :: items l end) l)
       | v => v
       end.

(** *** The coordinator *)

Record IdempotencyConfig := mkIdemConfig {
  DefaultTTL : Z;
  SystemOperationTTL : Z;
  ProcessingTimeout : Z;
  FailedRetryBackoff : Z;
  MaxStoredResponseLen : Z;
  ObserveOnly : bool;
}.
Global Instance IdempotencyConfig_eta : Settable IdempotencyConfig := λ c,
  mkIdemConfig (DefaultTTL c) (SystemOperationTTL c) (ProcessingTimeout c) (FailedRetryBackoff c)
    (MaxStoredResponseLen c) (ObserveOnly c).
Definition seconds (n : Z) : Z := n * 1000000.
Definition DefaultIdempotencyConfig : IdempotencyConfig :=
  mkIdemConfig (seconds 86400) (seconds 3600) (seconds 30) (seconds 5) 65536 true.

Definition NormalizeIdempotencyKey (raw : string) : option string :=
  let key := TrimSpace raw in
  if decide (key = "") then Some ""
  else if decide (128 < String.length key)%nat then None
  else if forallb (λ r, match r with [a] => byte_in 33 126 a | _ => false end) (runes (String.list_ascii_of_string key))
  then Some key else None.

(** The longest prefix of at most [n] bytes that is valid UTF-8. *)
Fixpoint valid_prefix (n : nat) (s : string) : string :=
  let p := String.substring 0 n s in
  match n with O => p | S m => if ValidString p then p else valid_prefix m s end.
Definition truncateUTF8 (s : string) (maxBytes : Z) : string :=
  if decide (maxBytes ≤ 0 ∨ Z.of_nat (String.length s) ≤ maxBytes) then s else valid_prefix (Z.to_nat maxBytes) s.

(** A call of [Execute]: one step for each statement, each reading of the clock and the
    call of the handler.  A statement answers [None] when the store fails. *)
Section Programs.
Context {E : Encoding}.

Inductive prog (A : Type) :=
| Ret (a : A)
| PNow (k : Z → prog A)
| PCreate (record : IdempotencyRecord) (k : option (option Z) → prog A)
| PGet (scope keyHash : string) (k : option (option IdempotencyRecord) → prog A)
| PReclaim (id : Z) (fromStatus : string) (now newLockedUntil newExpiresAt : Z) (k : option bool → prog A)
| PExtend (id : Z) (fingerprint : string) (newLockedUntil newExpiresAt : Z) (k : option bool → prog A)
| PSucceed (id responseStatus : Z) (responseBody : string) (expiresAt : Z) (k : option () → prog A)
| PFail (id : Z) (errorReason : string) (lockedUntil expiresAt : Z) (k : option () → prog A)
| PCall (k : AppError + Any → prog A).

(** One statement, at an instant; [None]: the program has ended or calls the handler. *)
Definition one_statement {A} (clock : Z) (p : prog A) (t : table IdempotencyRecord) : option (prog A * table IdempotencyRecord) :=
  match p with
  | Ret _ _ | PCall _ _ => None
  | PNow _ k => Some (k clock, t)
  | PCreate _ record k => let '(r, t') := CreateProcessing record t in Some (k (Some r), t')
  | PGet _ scope keyHash k => Some (k (Some (GetByScopeAndKeyHash scope keyHash t)), t)
  | PReclaim _ id from now lock exp k => let '(b, t') := TryReclaim id from now lock exp t in Some (k (Some b), t')
  | PExtend _ id fp lock exp k => let '(b, t') := ExtendProcessingLock id fp lock exp t in Some (k (Some b), t')
  | PSucceed _ id status body exp k => Some (k (Some tt), MarkSucceeded id status body exp t)
  | PFail _ id reason lock exp k => Some (k (Some tt), MarkFailedRetryable id reason lock exp t)
  end.
(** The same when the store is out of reach. *)
Definition store_error {A} (p : prog A) : option (prog A) :=
  match p with
  | Ret _ _ | PCall _ _ | PNow _ _ => None
  | PCreate _ _ k => Some (k None)
  | PGet _ _ _ k => Some (k None)
  | PReclaim _ _ _ _ _ _ k => Some (k None)
  | PExtend _ _ _ _ _ k => Some (k None)
  | PSucceed _ _ _ _ _ k => Some (k None)
  | PFail _ _ _ _ _ k => Some (k None)
  end.
End Programs.
Arguments Ret {E A}.
Arguments PNow {E A}.
Arguments PCreate {E A}.
Arguments PGet {E A}.
Arguments PReclaim {E A}.
Arguments PExtend {E A}.
Arguments PSucceed {E A}.
Arguments PFail {E A}.
Arguments PCall {E A}.

Section Coordinator.
Context {E : Encoding} (cfg : IdempotencyConfig).

Definition HashIdempotencyKey (key : string) : string := sha256_hex key.

Definition newline : string := String (Ascii.ascii_of_nat 10) EmptyString.
Definition BuildIdempotencyFingerprint (method route actorScope : string) (payload : Any) : option string :=
  let method := if decide (method = "") then "POST" else method in
  let route := if decide (route = "") then "/" else route in
  let actorScope := if decide (actorScope = "") then "anonymous" else actorScope in
  match Marshal payload with
  | None => None
  | Some raw =>
    Some (sha256_hex (ToUpper method +:+ newline +:+ route +:+ newline +:+ actorScope +:+ newline +:+ raw))
  end.

Definition RedactJSON (raw : string) : string :=
  if decide (raw = "") then ""
  else match Unmarshal raw with
       | None => "<non-json payload redacted>"
       | Some value => Encode (redactValueWithDepth value 0)
       end.
Definition RedactText (input : string) : string :=
  let input := TrimSpace input in
  if decide (input = "") then ""
  else if Valid input then RedactJSON input else redact_patterns input.

Definition marshalStoredResponse (data : Any) : option string :=
  match Marshal data with
  | None => None
  | Some raw =>
    let redacted := RedactText raw in
    Some (if decide (MaxStoredResponseLen cfg > 0 ∧ Z.of_nat (String.length redacted) > MaxStoredResponseLen cfg)
          then truncateUTF8 redacted (MaxStoredResponseLen cfg) +:+ "...(truncated)" else redacted)
  end.
Definition decodeStoredResponse (stored : option string) : option json :=
  match stored with
  | None => Some (JObject [])
  | Some s => if decide (TrimSpace s = "") then Some (JObject []) else Unmarshal s
  end.

Definition conflictWithRetryAfter (base : AppError) (lockedUntil : option Z) (now : Z) : AppError :=
  match lockedUntil with
  | None => base
  | Some l =>
    let sec := Z.quot (l - now) 1000000 in
    base <| ae_RetryAfter := Some (if decide (sec ≤ 0) then 1 else sec) |>
  end.

Record IdempotencyExecuteOptions := mkOptions {
  io_Scope : string;
  io_ActorScope : string;
  io_Method : string;
  io_Route : string;
  io_IdempotencyKey : string;
  io_Payload : Any;
  io_TTL : Z;
  io_RequireKey : bool;
}.

(** The data of a call: what the handler returned, or what was stored before. *)
Inductive IdempotencyExecuteResult :=
| Executed (data : Any)
| Replayed (data : json).
Definition answer : Type := AppError + IdempotencyExecuteResult.

(** The call of the handler, and the note of how it ended. *)
Definition returned (id expiresAt : Z) (r : AppError + Any) : prog answer :=
  match r with
  | inl execErr =>
    let reason := if decide (ae_Reason execErr = "") then "EXECUTION_FAILED" else ae_Reason execErr in
    PNow (λ t, PFail id reason (t + FailedRetryBackoff cfg) expiresAt (λ _, Ret (inl execErr)))
  | inr data =>
    match marshalStoredResponse data with
    | None => Ret (inl ErrIdempotencyStoreUnavail)
    | Some storedBody =>
      PSucceed id 200 storedBody expiresAt (λ marked,
        match marked with
        | None => Ret (inl ErrIdempotencyStoreUnavail)
        | Some _ => Ret (inr (Executed data))
        end)
    end
  end.
Definition perform (id expiresAt : Z) : prog answer :=
  if decide (id = 0) then Ret (inl ErrIdempotencyStoreUnavail) else PCall (returned id expiresAt).

(** A record that has not been taken over because it had expired, by its status. *)
Definition resolve (existing : IdempotencyRecord) (now lockedUntil expiresAt : Z) : prog answer :=
  if decide (ir_Status existing = IdempotencyStatusSucceeded) then
    Ret (match decodeStoredResponse (ir_ResponseBody existing) with
         | None => inl ErrIdempotencyStoreUnavail
         | Some data => inr (Replayed data)
         end)
  else if decide (ir_Status existing = IdempotencyStatusProcessing) then
    Ret (inl (conflictWithRetryAfter ErrIdempotencyInProgress (ir_LockedUntil existing) now))
  else if decide (ir_Status existing = IdempotencyStatusFailedRetryable) then
    if match ir_LockedUntil existing with Some l => bool_decide (now < l) | None => false end then
      Ret (inl (conflictWithRetryAfter ErrIdempotencyRetryBackoff (ir_LockedUntil existing) now))
    else
      PReclaim (ir_ID existing) IdempotencyStatusFailedRetryable now lockedUntil expiresAt (λ taken,
        match taken with
        | None => Ret (inl ErrIdempotencyStoreUnavail)
        | Some false => Ret (inl (conflictWithRetryAfter ErrIdempotencyInProgress (ir_LockedUntil existing) now))
        | Some true => perform (ir_ID existing) expiresAt
        end)
  else Ret (inl ErrIdempotencyKeyConflict).

(** A reading of the record of the key; another payload is refused. *)
Definition with_existing (scope keyHash fingerprint : string) (k : IdempotencyRecord → prog answer) : prog answer :=
  PGet scope keyHash (λ r,
    match r with
    | None | Some None => Ret (inl ErrIdempotencyStoreUnavail)
    | Some (Some existing) =>
      if decide (ir_RequestFingerprint existing ≠ fingerprint) then Ret (inl ErrIdempotencyKeyConflict) else k existing
    end).

Definition found (scope keyHash fingerprint : string) (now lockedUntil expiresAt : Z) (existing : IdempotencyRecord) : prog answer :=
  if decide (ir_ExpiresAt existing ≤ now) then
    PReclaim (ir_ID existing) (ir_Status existing) now lockedUntil expiresAt (λ taken,
      match taken with
      | None => Ret (inl ErrIdempotencyStoreUnavail)
      | Some true => perform (ir_ID existing) expiresAt
      | Some false => with_existing scope keyHash fingerprint (λ latest, resolve latest now lockedUntil expiresAt)
      end)
  else resolve existing now lockedUntil expiresAt.

(** The claim of a key, at the instant the call read. *)
Definition claim (scope keyHash fingerprint : string) (ttl now : Z) : prog answer :=
  let expiresAt := now + ttl in
  let lockedUntil := now + ProcessingTimeout cfg in
  PCreate (mkIdem 0 scope keyHash fingerprint IdempotencyStatusProcessing None None None (Some lockedUntil) expiresAt) (λ owner,
    match owner with
    | None => Ret (inl ErrIdempotencyStoreUnavail)
    | Some (Some id) => perform id expiresAt
    | Some None => with_existing scope keyHash fingerprint (found scope keyHash fingerprint now lockedUntil expiresAt)
    end).

Definition Execute (opts : IdempotencyExecuteOptions) : prog answer :=
  match NormalizeIdempotencyKey (io_IdempotencyKey opts) with
  | None => Ret (inl ErrIdempotencyKeyInvalid)
  | Some key =>
    if decide (key = "") then
      if io_RequireKey opts && negb (ObserveOnly cfg) then Ret (inl ErrIdempotencyKeyRequired)
      else PCall (λ r, Ret (match r with inl execErr => inl execErr | inr data => inr (Executed data) end))
    else if decide (io_Scope opts = "") then Ret (inl (mkApp 400 "IDEMPOTENCY_SCOPE_REQUIRED" None))
    else match BuildIdempotencyFingerprint (io_Method opts) (io_Route opts) (io_ActorScope opts) (io_Payload opts) with
         | None => Ret (inl ErrIdempotencyInvalidPayload)
         | Some fingerprint =>
           let ttl := if decide (io_TTL opts ≤ 0) then DefaultTTL cfg else io_TTL opts in
           PNow (claim (io_Scope opts) (HashIdempotencyKey key) fingerprint ttl)
         end
  end.

(** The key a call is counted under, if it has one. *)
Definition call_key (opts : IdempotencyExecuteOptions) : option (string * string) :=
  match NormalizeIdempotencyKey (io_IdempotencyKey opts) with
  | Some key => if decide (key = "") then None else Some (io_Scope opts, HashIdempotencyKey key)
  | None => None
  end.

(** *** One call by itself *)

(** The clock stands still; [handler] is what the handler returns, the flag tells whether
    it was called. *)
Fixpoint run {A} (clock : Z) (handler : AppError + Any) (p : prog A) (t : table IdempotencyRecord) (called : bool) :
    A * table IdempotencyRecord * bool :=
  match p with
  | Ret a => (a, t, called)
  | PNow k => run clock handler (k clock) t called
  | PCreate record k => let '(r, t') := CreateProcessing record t in run clock handler (k (Some r)) t' called
  | PGet scope keyHash k => run clock handler (k (Some (GetByScopeAndKeyHash scope keyHash t))) t called
  | PReclaim id from now lock exp k => let '(b, t') := TryReclaim id from now lock exp t in run clock handler (k (Some b)) t' called
  | PExtend id fp lock exp k => let '(b, t') := ExtendProcessingLock id fp lock exp t in run clock handler (k (Some b)) t' called
  | PSucceed id status body exp k => run clock handler (k (Some tt)) (MarkSucceeded id status body exp t) called
  | PFail id reason lock exp k => run clock handler (k (Some tt)) (MarkFailedRetryable id reason lock exp t) called
  | PCall k => run clock handler (k handler) t true
  end.

(** *** Calls at the same time *)

Inductive code := Active (p : prog answer) | Calling (k : AppError + Any → prog answer).
Record System := mkSystem {
  sy_clock : Z;
  sy_store : table IdempotencyRecord;
  sy_calls : gmap nat (IdempotencyExecuteOptions * code);
  (** The keys of the executions that have begun and have not returned an error. *)
  sy_open : list (string * string);
}.

Definition opens (key : option (string * string)) (l : list (string * string)) : list (string * string) :=
  match key with Some κ => κ :: l | None => l end.
Definition closes (key : option (string * string)) (l : list (string * string)) : list (string * string) :=
  match key with Some κ => filter (λ κ', κ' ≠ κ) l | None => l end.

Inductive istep : System → System → Prop :=
| istep_arrive now t m o i opts :
  m !! i = None → istep (mkSystem now t m o) (mkSystem now t (<[i := (opts, Active (Execute opts))]> m) o)
| istep_statement now t m o i opts p p' t' :
  m !! i = Some (opts, Active p) → one_statement now p t = Some (p', t') →
  istep (mkSystem now t m o) (mkSystem now t' (<[i := (opts, Active p')]> m) o)
| istep_store_error now t m o i opts p p' :
  m !! i = Some (opts, Active p) → store_error p = Some p' →
  istep (mkSystem now t m o) (mkSystem now t (<[i := (opts, Active p')]> m) o)
| istep_begin now t m o i opts k :
  m !! i = Some (opts, Active (PCall k)) →
  istep (mkSystem now t m o) (mkSystem now t (<[i := (opts, Calling k)]> m) (opens (call_key opts) o))
| istep_return now t m o i opts k data :
  m !! i = Some (opts, Calling k) →
  istep (mkSystem now t m o) (mkSystem now t (<[i := (opts, Active (k (inr data)))]> m) o)
| istep_fail now t m o i opts k err :
  m !! i = Some (opts, Calling k) →
  istep (mkSystem now t m o) (mkSystem now t (<[i := (opts, Active (k (inl err)))]> m) (closes (call_key opts) o))
| istep_crash now t m o i :
  istep (mkSystem now t m o) (mkSystem now t (delete i m) o)
| istep_tick now t m o now' :
  now ≤ now' → istep (mkSystem now t m o) (mkSystem now' t m o)
| istep_cleanup now t m o limit :
  istep (mkSystem now t m o) (mkSystem now (DeleteExpired now limit t).2 m o).

Definition no_calls (now : Z) : System := mkSystem now (Table [] 1) ∅ [].
(** No record has reached its end. *)
Definition unexpired (s : System) : Prop := Forall (λ r, sy_clock s < ir_ExpiresAt r) (rows (sy_store s)).
Inductive reachable (now : Z) : System → Prop :=
| reachable_start : reachable now (no_calls now)
| reachable_step s s' : reachable now s → istep s s' → unexpired s' → reachable now s'.
End Coordinator.

(** ** At most once *)

Section Once.
Context {E : Encoding} (cfg : IdempotencyConfig).
Implicit Types (t : table IdempotencyRecord) (o : list (string * string)).
Local Abbreviation istep := (istep cfg).

(** Where a call stands, and the record it holds, with whether its handler may have had
    an effect that counts. *)
Definition ends {X} (k : X → prog answer) : Prop := ∀ x, ∃ a, k x = Ret a.
Inductive stage (clock : Z) (t : table IdempotencyRecord) (opts : IdempotencyExecuteOptions) : code → option (Z * bool) → Prop :=
| st_ended a : stage clock t opts (Active (Ret a)) None
| st_keyless k : call_key opts = None → ends k → stage clock t opts (Active (PCall k)) None
| st_keyless_calling k : call_key opts = None → ends k → stage clock t opts (Calling k) None
| st_arrived κ fp ttl : call_key opts = Some κ → stage clock t opts (Active (PNow (claim cfg κ.1 κ.2 fp ttl))) None
| st_claiming κ fp ttl now :
  call_key opts = Some κ → now ≤ clock → stage clock t opts (Active (claim cfg κ.1 κ.2 fp ttl now)) None
| st_reading κ fp now lock exp :
  call_key opts = Some κ → now ≤ clock →
  stage clock t opts (Active (with_existing κ.1 κ.2 fp (found cfg κ.1 κ.2 fp now lock exp))) None
| st_reclaiming κ id now lock exp k :
  call_key opts = Some κ → (∃ r, r ∈ rows t ∧ ir_ID r = id ∧ record_key r = κ) → id ≠ 0 →
  k (Some true) = PCall (returned cfg id exp) → (∃ a, k (Some false) = Ret a) → (∃ a, k None = Ret a) →
  stage clock t opts (Active (PReclaim id IdempotencyStatusFailedRetryable now lock exp k)) None
| st_claimed id exp : stage clock t opts (Active (PCall (returned cfg id exp))) (Some (id, false))
| st_calling id exp : stage clock t opts (Calling (returned cfg id exp)) (Some (id, true))
| st_succeeding id status body exp k : ends k → stage clock t opts (Active (PSucceed id status body exp k)) (Some (id, true))
| st_failed id kn :
  (∀ now, ∃ reason lock exp k, kn now = PFail id reason lock exp k ∧ ends k) →
  stage clock t opts (Active (PNow kn)) (Some (id, false))
| st_failing id reason lock exp k : ends k → stage clock t opts (Active (PFail id reason lock exp k)) (Some (id, false)).

(** A held record is being processed, and its execution is open if its handler may have
    had its effect. *)
Definition holds t o (opts : IdempotencyExecuteOptions) (id : Z) (begun : bool) : Prop :=
  ∃ r κ, r ∈ rows t ∧ ir_ID r = id ∧ call_key opts = Some κ ∧ record_key r = κ ∧
         ir_Status r = IdempotencyStatusProcessing ∧ (if begun then κ ∈ o else κ ∉ o).
Definition covered t (κ : string * string) : Prop :=
  ∃ r, r ∈ rows t ∧ record_key r = κ ∧ (ir_Status r = IdempotencyStatusProcessing ∨ ir_Status r = IdempotencyStatusSucceeded).

Record once_inv (own : nat → option (Z * bool)) (clock : Z) t (m : gmap nat (IdempotencyExecuteOptions * code)) o : Prop := {
  on_table : table_wf t;
  on_keys : NoDup (record_key <$> rows t);
  on_stage i opts c : m !! i = Some (opts, c) → stage clock t opts c (own i);
  on_holds i opts c id b : m !! i = Some (opts, c) → own i = Some (id, b) → holds t o opts id b;
  on_single i j id b b' : is_Some (m !! i) → is_Some (m !! j) → own i = Some (id, b) → own j = Some (id, b') → i = j;
  on_open : NoDup o;
  on_covered κ : κ ∈ o → covered t κ;
}.

Lemma key_row t r r' :
  NoDup (record_key <$> rows t) → r ∈ rows t → r' ∈ rows t → record_key r = record_key r' → r = r'.
Proof.
  generalize (rows t) as l. induction l as [|x l IH]; intros Hnd H1 H2 Hk; [by apply not_elem_of_nil in H1|].
  csimpl in Hnd. apply NoDup_cons in Hnd as [Hx Hnd].
  apply elem_of_cons in H1 as [->|H1]; apply elem_of_cons in H2 as [->|H2]; [done| | |by apply IH].
  - destruct Hx. rewrite Hk. by apply list_elem_of_fmap_2.
  - destruct Hx. rewrite <-Hk. by apply list_elem_of_fmap_2.
Qed.

(** The records of a store after a statement on the record [x]: every record is still
    there under its key, and the others are as they were. *)
Definition moves (x : Z) t t' : Prop :=
  ∀ r, r ∈ rows t → ∃ r', r' ∈ rows t' ∧ ir_ID r' = ir_ID r ∧ record_key r' = record_key r ∧ (ir_ID r ≠ x → r' = r).

Lemma moves_refl x t : moves x t t.
Proof. intros r Hr. by exists r. Qed.
Lemma moves_update x (P : IdempotencyRecord → Prop) `{∀ r, Decision (P r)} f t :
  (∀ r, P r → ir_ID r = x ∧ ir_ID (f r) = ir_ID r ∧ record_key (f r) = record_key r) → moves x t (update_where P f t).
Proof.
  intros HP r Hr. destruct (decide (P r)) as [Hp|Hp].
  - destruct (HP r Hp) as (? & ? & ?). exists (f r). split; [|done]. apply elem_of_update_where. right. by exists r.
  - exists r. split; [|done]. apply elem_of_update_where. by left.
Qed.
Lemma keys_update (P : IdempotencyRecord → Prop) `{∀ r, Decision (P r)} f t :
  (∀ r, P r → record_key (f r) = record_key r) → record_key <$> rows (update_where P f t) = record_key <$> rows t.
Proof.
  intros HP. unfold update_where. cbn [rows]. rewrite <-list_fmap_compose. apply list_fmap_ext.
  intros j r _. unfold compose. case_decide; auto.
Qed.

Lemma stage_moves clock clock' t t' x opts c w : clock ≤ clock' → moves x t t' → stage clock t opts c w → stage clock' t' opts c w.
Proof.
  intros Hc Hm Hs. inversion Hs; subst; try (econstructor; (done || lia)).
  match goal with H : ∃ r, r ∈ rows t ∧ _ |- _ => destruct H as (r & Hr & Hid & Hk) end.
  destruct (Hm r Hr) as (r' & Hr' & Hid' & Hk' & _). econstructor; try done. exists r'. split_and!; congruence.
Qed.

(** One call moves: the store, its code and the executions that are open. *)
Lemma once_next own clock t m o i opts c c' w x t' o' :
  once_inv own clock t m o → m !! i = Some (opts, c) →
  table_wf t' → NoDup (record_key <$> rows t') → moves x t t' →
  (∀ j b, j ≠ i → is_Some (m !! j) → own j ≠ Some (x, b)) →
  stage clock t' opts c' w →
  (∀ id b, w = Some (id, b) → holds t' o' opts id b ∧ ∀ j b', j ≠ i → is_Some (m !! j) → own j ≠ Some (id, b')) →
  NoDup o' → (∀ κ, κ ∈ o' → covered t' κ) →
  (∀ κ, (κ ∈ o' ↔ κ ∈ o) ∨ ∃ b, own i = Some (x, b) ∧ call_key opts = Some κ) →
  once_inv (λ j, if decide (j = i) then w else own j) clock t' (<[i := (opts, c')]> m) o'.
Proof.
  intros HI Hi Hwf Hk Hmv Hx Hst Hw Ho Hcov Hnew. constructor; [done..| | | |done|done].
  - intros j opts' cj. destruct (decide (j = i)) as [->|Hj].
    + rewrite lookup_insert_eq. by intros [= <- <-].
    + rewrite lookup_insert_ne by done. intros Hm. by eapply stage_moves; [reflexivity|exact Hmv|eapply on_stage].
  - intros j opts' cj id b. destruct (decide (j = i)) as [->|Hj].
    + rewrite lookup_insert_eq. intros [= <- <-] Heq. by apply Hw.
    + rewrite lookup_insert_ne by done. intros Hm Heq.
      destruct (on_holds _ _ _ _ _ HI j opts' cj id b Hm Heq) as (r & κ & Hr & Hid & Hck & Hkey & Hst' & Hb).
      destruct (Hmv r Hr) as (r' & Hr' & Hid' & Hk' & Hsame).
      assert (Hne : ir_ID r ≠ x). { intros <-. apply (Hx j b Hj); [by eexists|congruence]. }
      rewrite (Hsame Hne) in *. exists r, κ. split_and!; try done.
      destruct (Hnew κ) as [Hiff|(b' & Hown & Hck')]; [destruct b; by rewrite Hiff|exfalso].
      destruct (on_holds _ _ _ _ _ HI i opts c x b' Hi Hown) as (ri & κi & Hri & Hidi & Hcki & Hkeyi & _).
      assert (ri = r) as ->. { apply (key_row t); try done; [apply HI|congruence]. }
      by apply Hne.
  - intros j k id b b' Hj Hk'. repeat case_decide; subst; [done|..].
    + intros Hw' Hown. exfalso. destruct (Hw id b Hw') as [_ Hn]. apply (Hn k b'); [done| |done].
      by rewrite lookup_insert_ne in Hk'.
    + intros Hown Hw'. exfalso. destruct (Hw id b' Hw') as [_ Hn]. apply (Hn j b); [done| |done].
      by rewrite lookup_insert_ne in Hj.
    + rewrite !lookup_insert_ne in * by done. by eapply on_single.
Qed.

Lemma covered_moves x t t' κ :
  moves x t t' → covered t κ → (∀ r, r ∈ rows t → ir_ID r = x → record_key r ≠ κ) → covered t' κ.
Proof.
  intros Hm (r & Hr & Hk & Hst) Hx. destruct (Hm r Hr) as (r' & Hr' & _ & _ & Hsame).
  rewrite (Hsame (λ Hid, Hx r Hr Hid Hk)) in Hr'. by exists r.
Qed.

(** A call that only reads, or ends. *)
Lemma once_read own clock t m o i opts c c' :
  once_inv own clock t m o → m !! i = Some (opts, c) → stage clock t opts c' None →
  once_inv (λ j, if decide (j = i) then None else own j) clock t (<[i := (opts, c')]> m) o.
Proof.
  intros HI Hi Hst. eapply (once_next own clock t m o i opts c c' None 0 t o); try done; try apply HI.
  - apply moves_refl.
  - intros j b Hj [[opts' cj] Hm] Hown. destruct (on_holds _ _ _ _ _ HI j opts' cj 0 b Hm Hown) as (r & κ & Hr & Hid & _).
    pose proof (wf_elem t r (on_table _ _ _ _ _ HI) Hr). cbn in *. lia.
  - intros κ. by left.
Qed.

Lemma execute_stage clock t opts : stage clock t opts (Active (Execute cfg opts)) None.
Proof.
  unfold Execute. destruct (NormalizeIdempotencyKey (io_IdempotencyKey opts)) as [key|] eqn:Hn; [|constructor].
  case_decide as Hk.
  - destruct (_ && _); [constructor|]. apply st_keyless; [|intros x; by eexists].
    unfold call_key. rewrite Hn. by rewrite decide_True.
  - case_decide; [constructor|]. destruct (BuildIdempotencyFingerprint _ _ _ _) as [fp|]; [|constructor].
    apply (st_arrived clock t opts (io_Scope opts, HashIdempotencyKey key)). unfold call_key. rewrite Hn. by rewrite decide_False.
Qed.

Lemma once_created own clock t m o i opts κ fp ttl now p' t' :
  once_inv own clock t m o → m !! i = Some (opts, Active (claim cfg κ.1 κ.2 fp ttl now)) → own i = None →
  call_key opts = Some κ → now ≤ clock → one_statement clock (claim cfg κ.1 κ.2 fp ttl now) t = Some (p', t') →
  ∃ own', once_inv own' clock t' (<[i := (opts, Active p')]> m) o.
Proof.
  intros HI Hi Hown Hκ Hnow. unfold claim. cbn [one_statement]. unfold CreateProcessing.
  destruct (first _ t) as [r|] eqn:Hf; intros [= <- <-].
  - eexists. eapply once_read; [done..|]. by apply st_reading.
  - match goal with |- context [insert_row ?r t] => set (row := r) in * end.
    assert (Hwf : table_wf t) by apply HI. pose proof (proj2 (proj2 Hwf)) as Hid.
    unfold perform. rewrite decide_False by lia.
    assert (Hκr : record_key row = κ) by (by destruct κ).
    assert (Hnone : ∀ r, r ∈ rows t → record_key r ≠ κ).
    { intros r Hr Hk. eapply first_None in Hf; [|exact Hr]. apply Hf. by rewrite Hk, <-Hκr. }
    assert (Hfresh : ∀ j b, is_Some (m !! j) → own j ≠ Some (next_id t, b)).
    { intros j b [[oj cj] Hm] Hj. destruct (on_holds _ _ _ _ _ HI j oj cj _ b Hm Hj) as (r & κ' & Hr & Hid' & _).
      pose proof (wf_elem t r Hwf Hr). cbn in *. lia. }
    eexists. eapply (once_next own clock t m o i opts _ _ (Some (next_id t, false)) (next_id t) _ o); try done; try apply HI.
    + by apply wf_insert_row.
    + cbn [insert_row rows]. rewrite fmap_app. apply NoDup_app. split_and!; [apply HI| |apply NoDup_singleton].
      intros k (r & -> & Hr)%list_elem_of_fmap Hk. apply list_elem_of_singleton in Hk. by apply (Hnone r Hr); rewrite Hk.
    + intros r Hr. exists r. split; [|done]. apply elem_of_insert_row. by left.
    + intros j b _. apply Hfresh.
    + constructor.
    + intros id b [= <- <-]. split; [|intros j b' _; apply Hfresh].
      exists (inserted row t), κ. split_and!; try done; [apply elem_of_insert_row; by right|].
      intros Hin. destruct (on_covered _ _ _ _ _ HI κ Hin) as (r & Hr & Hk & _). by apply (Hnone r).
    + intros κ' Hin. destruct (on_covered _ _ _ _ _ HI κ' Hin) as (r & Hr & Hk & Hst).
      exists r. split; [apply elem_of_insert_row; by left|done].
    + intros κ'. by left.
Qed.

Lemma resolve_stage clock t opts κ r now lock exp :
  call_key opts = Some κ → table_wf t → r ∈ rows t → record_key r = κ →
  stage clock t opts (Active (resolve cfg r now lock exp)) None.
Proof.
  intros Hκ Hwf Hr Hk. unfold resolve. repeat case_decide; try constructor.
  destruct (match ir_LockedUntil r with Some l => _ | None => _ end); [constructor|].
  pose proof (wf_elem t r Hwf Hr) as Hid. cbn in Hid. eapply st_reclaiming; [done|by exists r|lia|..].
  - unfold perform. by rewrite decide_False by lia.
  - by eexists.
  - by eexists.
Qed.

Lemma once_got own clock t m o i opts κ fp now lock exp p' t' :
  once_inv own clock t m o → Forall (λ r, clock < ir_ExpiresAt r) (rows t) →
  m !! i = Some (opts, Active (with_existing κ.1 κ.2 fp (found cfg κ.1 κ.2 fp now lock exp))) →
  call_key opts = Some κ → now ≤ clock →
  one_statement clock (with_existing κ.1 κ.2 fp (found cfg κ.1 κ.2 fp now lock exp)) t = Some (p', t') →
  ∃ own', once_inv own' clock t' (<[i := (opts, Active p')]> m) o.
Proof.
  intros HI Hun Hi Hκ Hnow. unfold with_existing. cbn [one_statement]. intros [= <- <-]. eexists. eapply once_read; [done..|].
  destruct (GetByScopeAndKeyHash κ.1 κ.2 t) as [r|] eqn:Hg; [|constructor].
  apply first_Some in Hg as [Hr Hk]. case_decide; [constructor|].
  unfold found. rewrite Forall_forall in Hun. specialize (Hun r Hr). rewrite decide_False by lia.
  eapply resolve_stage; [done|apply HI|done|]. by rewrite Hk; destruct κ.
Qed.

Lemma once_reclaimed own clock t m o i opts κ id now lock exp k p' t' :
  once_inv own clock t m o → m !! i = Some (opts, Active (PReclaim id IdempotencyStatusFailedRetryable now lock exp k)) →
  call_key opts = Some κ → (∃ r, r ∈ rows t ∧ ir_ID r = id ∧ record_key r = κ) →
  k (Some true) = PCall (returned cfg id exp) → (∃ a, k (Some false) = Ret a) →
  one_statement clock (PReclaim id IdempotencyStatusFailedRetryable now lock exp k) t = Some (p', t') →
  ∃ own', once_inv own' clock t' (<[i := (opts, Active p')]> m) o.
Proof.
  intros HI Hi Hκ (r & Hr & Hid & Hkey) Ht (a & Hf). cbn [one_statement]. unfold TryReclaim.
  assert (Hwf : table_wf t) by apply HI.
  set (P := reclaimable id IdempotencyStatusFailedRetryable now). set (f := λ r, _ <| ir_ExpiresAt := exp |>).
  assert (Hmv : moves id t (update_where P f t)) by (apply moves_update; intros x [? _]; done).
  case_bool_decide as Haff; intros [= <- <-].
  - assert (HPr : P r).
    { assert (Hin : ∃ x, x ∈ where_ P t).
      { unfold affected in Haff. destruct (where_ P t) as [|x l]; [cbn in Haff; lia|exists x; by left]. }
      destruct Hin as (x & [HPx Hx]%where_elem). assert (x = r) as <-; [|done].
      apply (wf_row_eq t); try done. cbn. rewrite Hid. apply HPx. }
    assert (Hno : κ ∉ o).
    { intros Hin. destruct (on_covered _ _ _ _ _ HI κ Hin) as (r' & Hr' & Hk' & Hst).
      assert (r' = r) as -> by (apply (key_row t); [apply HI|done|done|congruence]).
      destruct HPr as (_ & Hs & _). rewrite Hs in Hst. by destruct Hst. }
    assert (Hothers : ∀ j b, is_Some (m !! j) → own j ≠ Some (id, b)).
    { intros j b [[oj cj] Hm] Hj. destruct (on_holds _ _ _ _ _ HI j oj cj _ b Hm Hj) as (r' & κ' & Hr' & Hid' & _ & _ & Hs' & _).
      assert (r' = r) as -> by (apply (wf_row_eq t); [done|done|done|cbn; congruence]). destruct HPr as (_ & Hs & _). by rewrite Hs in Hs'. }
    rewrite Ht. eexists. eapply (once_next own clock t m o i opts _ _ (Some (id, false)) id _ o); try done; try apply HI.
    + by apply wf_update_where.
    + rewrite keys_update by done. apply HI.
    + intros j b _. apply Hothers.
    + constructor.
    + intros id' b [= <- <-]. split; [|intros j b' _; apply Hothers].
      exists (f r), κ. split_and!; try done. apply elem_of_update_where. right. by exists r.
    + intros κ' Hin. apply (covered_moves id t); [done|by apply HI|]. intros x Hx Hxid <-.
      assert (x = r) as -> by (apply (wf_row_eq t); [done|done|done|cbn; congruence]). by rewrite Hkey in Hin.
    + intros κ'. by left.
  - assert (Hsame : update_where P f t = t).
    { unfold update_where. destruct t as [l n]. cbn in *. f_equal. rewrite <-(list_fmap_id l) at 2. apply list_fmap_ext.
      intros j x Hx. case_decide as HP; [|done]. exfalso. apply Haff. unfold affected.
      assert (x ∈ where_ P (Table l n)) as Hin by (apply where_elem; split; [done|by eapply list_elem_of_lookup_2]).
      destruct (where_ P (Table l n)); [by apply not_elem_of_nil in Hin|cbn; lia]. }
    rewrite Hsame, Hf. eexists. eapply once_read; [done..|constructor].
Qed.

(** The two ways an execution is noted. *)
Lemma once_noted own clock t m o i opts c id b f a :
  once_inv own clock t m o → m !! i = Some (opts, c) → own i = Some (id, b) →
  (∀ r, ir_ID (f r) = ir_ID r ∧ record_key (f r) = record_key r) →
  (b = true → ∀ r, ir_Status (f r) = IdempotencyStatusSucceeded) →
  ∃ own', once_inv own' clock (update_where (λ r, ir_ID r = id) f t) (<[i := (opts, Active (Ret a))]> m) o.
Proof.
  intros HI Hi Hown Hf Hs. assert (Hwf : table_wf t) by apply HI.
  destruct (on_holds _ _ _ _ _ HI i opts c id b Hi Hown) as (r & κ & Hr & Hid & Hκ & Hk & Hst & Hb).
  assert (Hmv : moves id t (update_where (λ r, ir_ID r = id) f t)) by (apply moves_update; intros x Hx; split; [done|apply Hf]).
  eexists. eapply (once_next own clock t m o i opts _ _ None id _ o); try done; try apply HI.
  - apply wf_update_where; [|done]. intros x _. apply Hf.
  - rewrite keys_update; [apply HI|]. intros x _. apply Hf.
  - intros j b' Hj Hsome Hown'. apply Hj. by eapply on_single.
  - constructor.
  - intros κ' Hin. destruct b.
    + destruct (on_covered _ _ _ _ _ HI κ' Hin) as (x & Hx & Hxk & Hxs). destruct (Hmv x Hx) as (x' & Hx' & _ & Hk' & Hsame).
      destruct (decide (ir_ID x = id)) as [Hxid|Hxid].
      * exists (f x). split_and!; [apply elem_of_update_where; right; by exists x|by rewrite (proj2 (Hf x))|right; by apply Hs].
      * rewrite (Hsame Hxid) in Hx'. by exists x.
    + apply (covered_moves id t); [done|by apply HI|]. intros x Hx Hxid <-.
      assert (x = r) as -> by (apply (wf_row_eq t); [done|done|done|cbn; congruence]). rewrite Hk in Hin. by apply Hb.
  - intros κ'. by left.
Qed.

Lemma once_begun own clock t m o i opts k :
  once_inv own clock t m o → m !! i = Some (opts, Active (PCall k)) →
  ∃ own', once_inv own' clock t (<[i := (opts, Calling k)]> m) (opens (call_key opts) o).
Proof.
  intros HI Hi. pose proof (on_stage _ _ _ _ _ HI i opts _ Hi) as Hst. inversion Hst as [|? Hκ Hk| | | | | |id exp Hc Hown| | | |]; subst.
  - rewrite Hκ. eexists. eapply once_read; [done..|]. by constructor.
  - symmetry in Hown. destruct (on_holds _ _ _ _ _ HI i opts _ id false Hi Hown) as (r & κ & Hr & Hid & Hκ & Hk & Hs & Hno).
    rewrite Hκ. cbn [opens]. eexists.
    eapply (once_next own clock t m o i opts _ _ (Some (id, true)) id t (κ :: o)); try done; try apply HI; [apply moves_refl|..].
    + intros j b Hj Hsome Hown'. apply Hj. by eapply on_single.
    + constructor.
    + intros id' b [= <- <-]. split; [exists r, κ; split_and!; try done; by left|].
      intros j b Hj Hsome Hown'. apply Hj. by eapply on_single.
    + apply NoDup_cons. split; [done|apply HI].
    + intros κ' [->|Hin]%elem_of_cons; [exists r; by eauto|by apply HI].
    + intros κ'. destruct (decide (κ' = κ)) as [->|Hne]; [right; by eexists|left; set_solver].
Qed.

Lemma once_returned own clock t m o i opts k data :
  once_inv own clock t m o → m !! i = Some (opts, Calling k) →
  ∃ own', once_inv own' clock t (<[i := (opts, Active (k (inr data)))]> m) o.
Proof.
  intros HI Hi. pose proof (on_stage _ _ _ _ _ HI i opts _ Hi) as Hst. inversion Hst as [| |? Hκ Hk| | | | | |id exp Hc Hown| | |]; subst.
  - destruct (Hk (inr data)) as (a & ->). eexists. eapply once_read; [done..|constructor].
  - symmetry in Hown. cbn [returned]. destruct (marshalStoredResponse cfg data) as [body|].
    + eexists. eapply (once_next own clock t m o i opts _ _ (Some (id, true)) id t o); try done; try apply HI; [apply moves_refl|..].
      * intros j b Hj Hsome Hown'. apply Hj. by eapply on_single.
      * constructor. intros [[]|]; by eexists.
      * intros id' b [= <- <-]. split; [by eapply on_holds|]. intros j b Hj Hsome Hown'. apply Hj. by eapply on_single.
      * intros κ. by left.
    + eexists. eapply once_read; [done..|constructor].
Qed.

Lemma once_failed own clock t m o i opts k err :
  once_inv own clock t m o → m !! i = Some (opts, Calling k) →
  ∃ own', once_inv own' clock t (<[i := (opts, Active (k (inl err)))]> m) (closes (call_key opts) o).
Proof.
  intros HI Hi. pose proof (on_stage _ _ _ _ _ HI i opts _ Hi) as Hst. inversion Hst as [| |? Hκ Hk| | | | | |id exp Hc Hown| | |]; subst.
  - rewrite Hκ. destruct (Hk (inl err)) as (a & ->). eexists. eapply once_read; [done..|constructor].
  - symmetry in Hown. destruct (on_holds _ _ _ _ _ HI i opts _ id true Hi Hown) as (r & κ & Hr & Hid & Hκ & Hk & Hs & _).
    rewrite Hκ. cbn [closes returned]. eexists.
    eapply (once_next own clock t m o i opts _ _ (Some (id, false)) id t _); try done; try apply HI; [apply moves_refl|..].
    + intros j b Hj Hsome Hown'. apply Hj. by eapply on_single.
    + constructor. intros now. do 4 eexists. split; [done|]. intros x. by eexists.
    + intros id' b [= <- <-]. split.
      * exists r, κ. split_and!; try done. by intros [? _]%list_elem_of_filter.
      * intros j b Hj Hsome Hown'. apply Hj. by eapply on_single.
    + apply NoDup_filter, HI.
    + intros κ' [_ Hin]%list_elem_of_filter. by apply HI.
    + intros κ'. destruct (decide (κ' = κ)) as [->|Hne]; [right; by eexists|left]. rewrite list_elem_of_filter. naive_solver.
Qed.

Lemma once_statement own clock t m o i opts p p' t' :
  once_inv own clock t m o → Forall (λ r, clock < ir_ExpiresAt r) (rows t) →
  m !! i = Some (opts, Active p) → one_statement clock p t = Some (p', t') →
  ∃ own', once_inv own' clock t' (<[i := (opts, Active p')]> m) o.
Proof.
  intros HI Hun Hi Hadv. pose proof (on_stage _ _ _ _ _ HI i opts _ Hi) as Hst.
  inversion Hst as [|k Hκ Hk| |κ fp ttl Hκ|κ fp ttl now Hκ Hnow Hc Hown|κ fp now lock exp Hκ Hnow|κ id now lock exp k Hκ Hrow Hid Ht Hf Hn|
    | |id status body exp k Hk Hc Hown|id kn Hkn Hc Hown|id reason lock exp k Hk Hc Hown]; subst.
  - discriminate Hadv.
  - discriminate Hadv.
  - injection Hadv as <- <-. eexists. eapply once_read; [done..|]. by apply st_claiming.
  - by eapply once_created.
  - by eapply once_got.
  - by eapply once_reclaimed.
  - discriminate Hadv.
  - injection Hadv as <- <-. destruct (Hk (Some tt)) as (a & ->). eapply once_noted; [done|done|by symmetry|done|done].
  - injection Hadv as <- <-. destruct (Hkn clock) as (reason & lock & exp & k & -> & Hk). eexists.
    eapply (once_next own clock t m o i opts _ _ (Some (id, false)) id t o); try done; try apply HI; [apply moves_refl|..].
    + intros j b Hj Hsome Hown'. apply Hj. by eapply on_single.
    + by constructor.
    + intros id' b [= <- <-]. split; [by eapply on_holds|]. intros j b Hj Hsome Hown'. apply Hj. by eapply on_single.
    + intros κ. by left.
  - injection Hadv as <- <-. destruct (Hk (Some tt)) as (a & ->). eapply once_noted; [done|done|by symmetry|done|done].
Qed.

Lemma once_unavailable own clock t m o i opts p p' :
  once_inv own clock t m o → m !! i = Some (opts, Active p) → store_error p = Some p' →
  ∃ own', once_inv own' clock t (<[i := (opts, Active p')]> m) o.
Proof.
  intros HI Hi Herr. pose proof (on_stage _ _ _ _ _ HI i opts _ Hi) as Hst. eexists. eapply once_read; [done..|].
  inversion Hst as [|k Hκ Hk| |κ fp ttl Hκ|κ fp ttl now Hκ Hnow Hc Hown|κ fp now lock exp Hκ Hnow|κ id now lock exp k Hκ Hrow Hid Ht Hf Hn|
    | |id status body exp k Hk Hc Hown|id kn Hkn Hc Hown|id reason lock exp k Hk Hc Hown]; subst; try discriminate Herr;
    injection Herr as <-; try constructor.
  - destruct Hn as (a & ->). constructor.
  - destruct (Hk None) as (a & ->). constructor.
  - destruct (Hk None) as (a & ->). constructor.
Qed.

Lemma cleanup_unexpired now limit t :
  Forall (λ r, now < ir_ExpiresAt r) (rows t) → (DeleteExpired now limit t).2 = t.
Proof.
  intros Hun. unfold DeleteExpired. cbn [snd]. unfold where_, order_by.
  rewrite (filter_none (λ r, ir_ExpiresAt r ≤ now)) by (rewrite Forall_forall in Hun; intros r Hr; specialize (Hun r Hr); lia).
  destruct t as [l n]. unfold delete_where. f_equal. cbn [rows]. apply filter_all, Forall_forall. intros r _.
  change (merge_sort by_expiry []) with (@nil IdempotencyRecord). rewrite take_nil. by intros ?%not_elem_of_nil.
Qed.

Lemma once_step s s' own :
  once_inv own (sy_clock s) (sy_store s) (sy_calls s) (sy_open s) → unexpired s → istep s s' →
  ∃ own', once_inv own' (sy_clock s') (sy_store s') (sy_calls s') (sy_open s').
Proof.
  intros HI Hun Hs. destruct Hs as [now t m o i opts Hi|now t m o i opts p p' t' Hi Hp|now t m o i opts p p' Hi Hp|now t m o i opts k Hi
    |now t m o i opts k data Hi|now t m o i opts k err Hi|now t m o i|now t m o now' Hle|now t m o limit];
    cbn [sy_clock sy_store sy_calls sy_open] in *.
  - exists (λ j, if decide (j = i) then None else own j). constructor; try apply HI.
    + intros j opts' c. case_decide as Hj; [subst; rewrite lookup_insert_eq; intros [= <- <-]; apply execute_stage|].
      rewrite lookup_insert_ne by done. by apply HI.
    + intros j opts' c id b. case_decide; [done|]. rewrite lookup_insert_ne by done. by apply HI.
    + intros j k id b b'. repeat case_decide; try done. rewrite !lookup_insert_ne by done. apply HI.
  - by eapply once_statement.
  - by eapply once_unavailable.
  - by eapply once_begun.
  - by eapply once_returned.
  - by eapply once_failed.
  - exists own. constructor; try apply HI.
    + intros j opts c [_ Hm]%lookup_delete_Some. by apply HI.
    + intros j opts c id b [_ Hm]%lookup_delete_Some. by eapply HI.
    + intros j k id b b' [? [_ Hj]%lookup_delete_Some] [? [_ Hk]%lookup_delete_Some]. eapply HI; by eexists.
  - exists own. constructor; try apply HI. intros i opts c Hi. eapply stage_moves; [done|apply (moves_refl 0)|by eapply HI].
  - exists own. by rewrite cleanup_unexpired.
Qed.

Lemma once_reachable now s :
  reachable cfg now s → unexpired s ∧ ∃ own, once_inv own (sy_clock s) (sy_store s) (sy_calls s) (sy_open s).
Proof.
  induction 1 as [|s s' _ [Hun [own HI]] Hs Hun']; [|split; [done|by eapply once_step]].
  split; [constructor|]. exists (λ _, None). constructor; try done; [apply wf_empty|constructor|constructor|].
  by intros κ ?%not_elem_of_nil.
Qed.
End Once.

(** However calls with idempotency keys interleave, fail, lose the store or crash on
    their processes, as long as no record has reached its end: a key has at most one
    execution that is running, has succeeded or was cut off by a crash, so its handler is
    never run twice at the same time nor again after it has succeeded; every handler that
    runs is counted as such an execution. *)
Theorem executed_at_most_once {E : Encoding} (cfg : IdempotencyConfig) (now : Z) (s : System) :
  reachable cfg now s →
  NoDup (sy_open s) ∧
  ∀ i j opts opts' k k' κ,
    sy_calls s !! i = Some (opts, Calling k) → sy_calls s !! j = Some (opts', Calling k') →
    call_key opts = Some κ → call_key opts' = Some κ → i = j ∧ κ ∈ sy_open s.
Proof.
  intros Hr. destruct (once_reachable cfg now s Hr) as (_ & own & HI). split; [apply HI|].
  intros i j opts opts' k k' κ Hi Hj Hκ Hκ'.
  assert (Hown : ∀ i opts k, sy_calls s !! i = Some (opts, Calling k) → call_key opts = Some κ →
            ∃ id r, own i = Some (id, true) ∧ r ∈ rows (sy_store s) ∧ ir_ID r = id ∧ record_key r = κ ∧ κ ∈ sy_open s).
  { clear -HI. intros i opts k Hi Hκ. pose proof (on_stage _ _ _ _ _ _ HI i opts _ Hi) as Hst.
    inversion Hst as [| |? Hn| | | | | |id exp Hc Ho| | |]; subst; [congruence|]. symmetry in Ho.
    destruct (on_holds _ _ _ _ _ _ HI i opts _ id true Hi Ho) as (r & κ' & Hrow & Hid & Hκ' & Hk & _ & Hin).
    exists id, r. split_and!; congruence. }
  destruct (Hown i opts k Hi Hκ) as (id & r & Hoi & Hrow & Hid & Hkey & Hin).
  destruct (Hown j opts' k' Hj Hκ') as (id' & r' & Hoj & Hrow' & Hid' & Hkey' & _).
  split; [|done]. assert (r' = r) as -> by (eapply (key_row (sy_store s)); [apply HI|done|done|congruence]).
  eapply (on_single _ _ _ _ _ _ HI i j id true true); [by eexists..|done|congruence].
Qed.

(** ** Replays *)

Section Replay.
Context {E : Encoding} (cfg : IdempotencyConfig).
Implicit Types (t : table IdempotencyRecord).

Definition fingerprint_of (opts : IdempotencyExecuteOptions) : option string :=
  BuildIdempotencyFingerprint (io_Method opts) (io_Route opts) (io_ActorScope opts) (io_Payload opts).
Definition ttl_of (opts : IdempotencyExecuteOptions) : Z := if decide (io_TTL opts ≤ 0) then DefaultTTL cfg else io_TTL opts.

(** A call that reaches the store. *)
Lemma execute_claims opts κ fp :
  call_key opts = Some κ → io_Scope opts ≠ "" → fingerprint_of opts = Some fp →
  Execute cfg opts = PNow (claim cfg κ.1 κ.2 fp (ttl_of opts)).
Proof.
  unfold call_key, fingerprint_of, Execute. intros Hκ Hs Hfp. destruct (NormalizeIdempotencyKey _) as [key|]; [|done].
  destruct (decide (key = "")); [done|]. injection Hκ as <-. rewrite decide_False by done. by rewrite Hfp.
Qed.

(** A call that finds a record of its key that has not expired and has its payload. *)
Lemma run_found clock handler opts κ fp t r :
  call_key opts = Some κ → io_Scope opts ≠ "" → fingerprint_of opts = Some fp →
  GetByScopeAndKeyHash κ.1 κ.2 t = Some r → ir_RequestFingerprint r = fp → clock < ir_ExpiresAt r →
  run clock handler (Execute cfg opts) t false =
  run clock handler (resolve cfg r clock (clock + ProcessingTimeout cfg) (clock + ttl_of opts)) t false.
Proof.
  intros Hκ Hs Hfp Hg Hr Hexp. rewrite (execute_claims opts κ fp) by done. cbn [run]. unfold claim. cbn [run].
  unfold CreateProcessing. change (first (λ r0, record_key r0 = _) t) with (GetByScopeAndKeyHash κ.1 κ.2 t).
  rewrite Hg. unfold with_existing. cbn [run]. rewrite Hg, decide_False by (by intros []).
  unfold found. by rewrite decide_False by lia.
Qed.

(** A first call by itself, whose handler succeeds. *)
Lemma run_first now data body opts κ fp t :
  call_key opts = Some κ → io_Scope opts ≠ "" → fingerprint_of opts = Some fp → table_wf t →
  GetByScopeAndKeyHash κ.1 κ.2 t = None → marshalStoredResponse cfg data = Some body →
  ∃ t', run now (inr data) (Execute cfg opts) t false = (inr (Executed data), t', true) ∧
    GetByScopeAndKeyHash κ.1 κ.2 t' = Some (mkIdem (next_id t) κ.1 κ.2 fp IdempotencyStatusSucceeded (Some 200) (Some body) None None
      (now + ttl_of opts)).
Proof.
  intros Hκ Hs Hfp Hwf Hg Hm. rewrite (execute_claims opts κ fp) by done. cbn [run]. unfold claim. cbn [run].
  unfold CreateProcessing. change (first (λ r0, record_key r0 = _) t) with (GetByScopeAndKeyHash κ.1 κ.2 t).
  rewrite Hg. pose proof (proj2 (proj2 Hwf)). unfold perform. rewrite decide_False by lia. cbn [run returned]. rewrite Hm. cbn [run].
  eexists. split; [done|]. unfold GetByScopeAndKeyHash, first, MarkSucceeded, update_where. cbn [rows insert_row].
  rewrite filter_fmap_list, filter_app.
  rewrite (filter_none _ (rows t)).
  2: { intros x Hx. pose proof (wf_elem t x Hwf Hx) as Hid. cbn in Hid. rewrite decide_False by lia.
    intros Hk. eapply (first_None (λ r, record_key r = (κ.1, κ.2))) in Hg; [|exact Hx]. by apply Hg. }
  cbn [app]. rewrite filter_cons. cbn [ir_ID inserted with_row_id IdempotencyRecord_row].
  rewrite decide_True by (by rewrite decide_True). cbn [head fmap list_fmap]. by rewrite decide_True.
Qed.

(** A value without secrets is stored as it is. *)
Fixpoint clean (depth : nat) (v : json) : bool :=
  bool_decide (depth ≤ maxRedactDepth)%nat &&
  match v with
  | JObject l =>
    (fix fields (l : list (string * json)) : bool :=
      match l with [] => true | (k, v) :: l => negb (isSensitiveKey k) && clean (S depth) v && fields l end) l
  | JArray l =>
    (fix items (l : list json) : bool := match l with [] => true | v :: l => clean (S depth) v && items l end) l
  | _ => true
  end.
Lemma redact_clean v : ∀ depth, clean depth v = true → redactValueWithDepth v depth = v.
Proof.
  revert v. fix IH 1. intros v depth. destruct v as [|b|s|s|l|l]; cbn [clean redactValueWithDepth];
    intros [Hd Hv]%andb_true_iff; apply bool_decide_eq_true in Hd; rewrite decide_False by lia; try reflexivity; f_equal.
  - induction l as [|v l IHl]; [done|]. apply andb_true_iff in Hv as [Hv Hl]. f_equal; [by apply IH|by apply IHl].
  - induction l as [|[k v] l IHl]; [done|]. apply andb_true_iff in Hv as [Hv Hl]. apply andb_true_iff in Hv as [Hk Hv].
    apply negb_true_iff in Hk. rewrite Hk. f_equal; [f_equal; by apply IH|by apply IHl].
Qed.

(** After a call with a new key whose handler succeeded, a call with the same key and
    payload before the record ends gets what was stored, without running its handler and
    without changing the store, and a call with another payload is refused.  A stored text
    that cannot be decoded, as one that was cut off, is an error until the record ends. *)
Theorem replay_answers (now now' : Z) (data : Any) (body : string) (handler : AppError + Any)
    (opts opts' : IdempotencyExecuteOptions) (κ : string * string) (fp fp' : string) t :
  call_key opts = Some κ → call_key opts' = Some κ → io_Scope opts ≠ "" → io_Scope opts' ≠ "" →
  fingerprint_of opts = Some fp → fingerprint_of opts' = Some fp' →
  table_wf t → GetByScopeAndKeyHash κ.1 κ.2 t = None → marshalStoredResponse cfg data = Some body →
  now' < now + ttl_of opts →
  ∃ t', run now (inr data) (Execute cfg opts) t false = (inr (Executed data), t', true) ∧
    run now' handler (Execute cfg opts') t' false =
      (if decide (fp' = fp) then
         match decodeStoredResponse (Some body) with
         | Some stored => inr (Replayed stored)
         | None => inl ErrIdempotencyStoreUnavail
         end
       else inl ErrIdempotencyKeyConflict, t', false).
Proof.
  intros Hκ Hκ' Hs Hs' Hfp Hfp' Hwf Hg Hbody Hnow.
  destruct (run_first now data _ opts κ fp t Hκ Hs Hfp Hwf Hg Hbody) as (t' & Hrun & Hget). exists t'. split; [done|].
  case_decide as Heq; [subst fp'|].
  - rewrite (run_found now' handler opts' κ fp t' _ Hκ' Hs' Hfp' Hget eq_refl Hnow). unfold resolve.
    by rewrite decide_True by done.
  - rewrite (execute_claims opts' κ fp') by done. cbn [run]. unfold claim. cbn [run]. unfold CreateProcessing.
    change (first (λ r0, record_key r0 = _) t') with (GetByScopeAndKeyHash κ.1 κ.2 t'). rewrite Hget.
    unfold with_existing. cbn [run]. rewrite Hget. cbn [ir_RequestFingerprint]. by rewrite decide_True by (by intros ->).
Qed.

(** A record whose process has died stays [processing]: until it ends, calls with its key
    are refused, however long ago its lock ran out, and told to try again in a second. *)
Theorem stale_processing_blocks (clock lock : Z) (handler : AppError + Any) (opts : IdempotencyExecuteOptions)
    (κ : string * string) (fp : string) (r : IdempotencyRecord) t :
  call_key opts = Some κ → io_Scope opts ≠ "" → fingerprint_of opts = Some fp →
  GetByScopeAndKeyHash κ.1 κ.2 t = Some r → ir_RequestFingerprint r = fp →
  ir_Status r = IdempotencyStatusProcessing → ir_LockedUntil r = Some lock → lock ≤ clock < ir_ExpiresAt r →
  run clock handler (Execute cfg opts) t false =
    (inl (ErrIdempotencyInProgress <| ae_RetryAfter := Some 1 |>), t, false).
Proof.
  intros Hκ Hs Hfp Hg Hr Hst Hlock Hclock. rewrite (run_found clock handler opts κ fp t r) by (done || lia).
  unfold resolve. rewrite Hst, decide_False, decide_True by done. cbn [run]. unfold conflictWithRetryAfter. rewrite Hlock.
  rewrite decide_True; [done|]. apply Z.quot_le_upper_bound; lia.
Qed.
End Replay.

(** ** Example *)

(** Handlers that return texts, whose hashes are the texts. *)
Definition text_encoding : Encoding := {|
  Any := string;
  Marshal := Some;
  Valid _ := true;
  Unmarshal s := Some (JString s);
  Encode v := match v with JString s => s | _ => "null" end;
  sha256_hex := id;
  redact_patterns := id;
|}.
Definition order_call (payload : string) : IdempotencyExecuteOptions (E := text_encoding) :=
  mkOptions (E := text_encoding) "orders" "user:1" "POST" "/orders" " key-1 " payload 0 true.

Example replay_answers_witness :
  ∃ t', run (E := text_encoding) 5 (inr "made") (Execute DefaultIdempotencyConfig (order_call "a")) (Table [] 1) false =
          (inr (Executed (E := text_encoding) "made"), t', true) ∧
    run (E := text_encoding) 9 (inr "again") (Execute DefaultIdempotencyConfig (order_call "a")) t' false =
      (inr (Replayed (E := text_encoding) (JString "made")), t', false).
Proof.
  destruct (replay_answers (E := text_encoding) DefaultIdempotencyConfig 5 9 "made" "made" (inr "again") (order_call "a")
    (order_call "a") ("orders", "key-1") (default "" (fingerprint_of (order_call "a"))) (default "" (fingerprint_of (order_call "a")))
    (Table [] 1)) as (t' & H1 & H2);
    [vm_compute; reflexivity|vm_compute; reflexivity|done|done|vm_compute; reflexivity|vm_compute; reflexivity|apply wf_empty|
     reflexivity|vm_compute; reflexivity|vm_compute; reflexivity|].
  exists t'. split; [exact H1|]. rewrite H2. by vm_compute.
Defined.
